(* ===== verification/_CoqProject ===== *)
-Q . S2P
Prelude.v
CLib.v
FileBuffer.v
ConfigStore.v
ConfigFormat.v
ConfigRoundtrip.v
ConfigIO.v
ConfigFiles.v
HttpCatalog.v
LibView.v
CheatMan.v
History.v
BootCnf.v
GameList.v
FolderBrowse.v
Ps1Names.v
Ps1List.v
EmberSettings.v
VcdCard.v
FavStore.v
FavList.v
SubMenu.v
MenuPage.v
MenuTabs.v
IoMan.v
Tar.v
ArtIndex.v
ArtFifo.v
TexCache.v
TexInv.v
TexThms.v
ArtTar.v
McEmu.v
GenVmc.v
VmcGroups.v
CdStream.v
CdDisc.v
Zso.v
CdRead.v
CdDevice.v
HttpStream.v
CdFile.v
