(* ===== verification/Prelude.v ===== *)
(** * A verification library for the loader's front end (RiptOPL)

    The repository is a PlayStation 2 game loader: a front end for the EE (src/,
    include/), an in-game core (ee_core/) and drivers for the IOP (modules/). This
    library models the parts that carry logic of their own, a file per component,
    as executable definitions written after the C code, and proves what makes each
    of them correct.

    ** Conventions

    A C string or buffer is a list of byte values ([bytes], CLib); a machine word
    is a [Z] with its wrap-around written out ([u8] ... [u64], [s32], here); the C
    library calls the code makes are the executable definitions of CLib. A function
    that changes an object returns the changed object; a pointer that may be NULL is
    an [option]; an error code is an [option], a sum or the code's own number.
    [malloc] succeeds unless a file says otherwise. Devices, file systems and
    drivers are not code of the repository: they are type classes ([Device],
    [FileSystem], [TarFS]) with a second class for the documented laws the theorems
    use ([FileDevice], [AppendDevice], [LawfulFS]); every class has an in-memory
    instance on which the witnesses run. A loop whose recursion is not structural
    takes fuel, and the theorems show an amount that is always enough (the number
    of bytes left, of nodes in a list, of entries in an index). Concurrency is a
    step relation whose invariants are proved by rule induction
    ([invariant_reachable], below).

    ** The parts

    - CLib: ctype, string.h, snprintf and atoi as far as the code uses them.
    - FileBuffer (src/util.c): the block buffer. [readFileBuffer] with its refill
      and in-place termination, [writeFileBuffer], [closeFileBuffer]. Reading gives
      the reference splitting [text_lines] and ends; a close that reports success
      put every byte on the device.
    - ConfigStore (src/config.c): the settings of one [config_set_t]; a finite map
      with typed accessors, merge and a dirty flag.
    - ConfigFormat, ConfigRoundtrip (src/config.c): line classification, the legacy
      and the libconfig reader and writer, the wOPL names; what is read back of what
      was written, and when the format itself survives.
    - ConfigIO (src/config.c): [configRead] and [configWrite]: path rules, snapshot,
      repair, rescue by read-back; what success and failure mean for the file.
    - ConfigFiles (src/config.c): the five global sets, their homes, loading and
      saving them together, the IPCONFIG.DAT fallback.
    - HttpCatalog (src/httpcatalog.c): the CSV game catalogue; splitting inverts
      quoting, accepted rows are safe to request.
    - LibView (src/libview.c): the view ring of each page, its two-phase change and
      its persistence through the settings (a client of ConfigStore's
      [SettingsStore] interface).
    - CheatMan (src/cheatman.c): the cheat file parser and the code list for the EE
      core.
    - History (src/OSDHistory.c): the play history of the console: the launch counts, the record
      a new game takes, the file on the card.
    - BootCnf (src/ps2cnf.c, src/supportbase.c): the boot file named by SYSTEM.CNF, the startup
      name, the names taken as disc images.
    - GameList (src/supportbase.c): the scan of a device: images, the cache games.bin, ul.cfg,
      folders, the list made of them, the path of a game, delete and rename.
    - FolderBrowse (src/folderbrowse.c): the folder each page shows; a stack of names.
    - Ps1Names, Ps1List (src/vcdsupport.c, src/cuesupport.c): the names and disc ids of PlayStation
      1 titles, the two libraries of a device in one list, renames.
    - EmberSettings (src/cuesupport.c): the display line in the settings file of Ember.
    - VcdCard (src/vcdsupport.c, src/bdmsupport.c): copies gated by the free space of a card, the
      exchange of the driver pair of the launcher, the search for the launcher.
    - FavStore, FavList (src/favsupport.c, src/libview.c): the favourites file with its versions as a set
      of titles, and the page: what a record resolves to among the lists of the loaded devices
      and what launches it.
    - SubMenu (src/menusys.c): the rows of a page as doubly linked nodes; the sort ends and is
      stable, whatever the nodes' addresses.
    - MenuPage (src/menusys.c, src/gui.c, src/opl.c): the keys of a page, the operations the worker queues and
      the rebuild; the cursor stays on a row that is shown.
    - MenuTabs (src/menusys.c, src/opl.c): the row of pages; only the one that is shown is inside a folder
      (a client of FolderBrowse).
    - IoMan (src/ioman.c): the request list on a heap of nodes refines a queue; the
      worker, its callers and the blocking flag as a step relation.
    - Tar (src/tar.c): the archive index, its cache file, device probing, reads.
    - ArtIndex (src/artindex.c): the directory listings that answer "absent"; the
      sequential code is a run of a step relation in which other threads invalidate
      the slots store by store.
    - ArtFifo (src/texcache.c): the queue of cover requests on its doubly linked nodes refines
      a sequence with promotion and removal of everything.
    - TexCache, TexInv, TexThms (src/texcache.c): the slots of the caches, the requests that
      fill them and the GUI, art and cancelling threads as a step relation; what a row shows
      is its own cover, no request is lost or used after it was freed, the queue empties.
    - ArtTar (src/texcache.c): covers from an archive; a client of Tar, and a loader of TexCache.
    - McEmu (modules/mcemu): the memory card emulator: SIO2 commands over the pages
      of a card image, check codes, erases, the page map of an image on the hard
      disk.
    - GenVmc (modules/vmc/genvmc/genvmc.c, src/system.c): the creator of card images: what it formats is an
      empty card, found through its own super block; copies; the thread and its semaphore; the
      probe of the front end.
    - VmcGroups (src/vmc_groups.c, src/guigame.c): the titles that share a card, and the card a game
      is proposed.
    - CdStream (modules/iopcore/cdvdman/streaming.c): the stream ring and the drive
      thread as a step relation; what a game gets is the disc in order, however the thread
      and the steps of its reads interleave, if it controls the stream when the thread waits.
    - CdDisc, Zso (cdvdman.c, modules/isofs/zso.c): sectors and byte ranges of an
      image, the sector cache, compressed images.
    - CdRead (cdvdman.c): the reads of the drive: media bounds, chunks, the logo,
      unaligned buffers; proved against the interface [SectorReader], which the plain
      and the compressed reader implement. Positions in minutes, seconds, frames.
    - CdDevice (device-hdd.c, device-smb.c, smb.c, device-mmce.c): how each device
      finds the sectors of the image on its medium.
    - HttpStream (modules/network/common/httpstream.inc, device-http.c): ranged GET
      requests: what an accepted answer is, for any server and any fragmentation, and
      that a serving server is accepted.
    - CdFile (searchfile.c, ioops.c): the files of the disc: the search is a walk through
      the tree of directories, open files in a table of handles, reads and seeks, the
      entries of a directory; over the interface [CdDrive], which CdRead's drive implements.

    How they meet: GameList names its games through BootCnf and is rescanned for FolderBrowse; Ps1List makes
    rows of GameList's type named through Ps1Names, which VcdCard's launcher plays; FavList resolves
    the records of FavStore to rows under the views of LibView; MenuPage sorts
    SubMenu's rows by the titles of Ps1Names under the views of FavList's lists; ConfigIO reads through FileBuffer and ConfigFormat into
    ConfigStore; ConfigFiles groups ConfigIO; LibView and CheatMan are clients of
    ConfigStore. CdFile reads through CdRead, CdRead through CdDisc and Zso; CdDevice and HttpStream stand
    below them. ArtTar loads through Tar for the
    [ArtLoader] interface of TexCache, which queues through ArtFifo. ArtIndex, HttpCatalog, IoMan, McEmu, GenVmc, VmcGroups and CdStream stand alone.

    ** Not modelled

    The GUI and theme code, the decoding and drawing of textures, the device back-ends, program start, the EE core
    and the other drivers: they are calls into gsKit, the PS2 kernel and hardware
    registers, or vendored code, with little state of their own. Thread scheduling is
    modelled only where two threads share state (IoMan, ArtIndex, TexCache, CdStream). Out-of-memory paths are
    left out where the code only returns its error code.

    ** Plan

    What is left of the logic of the front end: the option menus (src/menusys.c), the titles in partitions of the hard disk (src/vcdsupport.c), the options of
    the game loaders (src/supportbase.c). *)
From stdpp Require Export prelude strings list numbers gmap.
From Stdlib Require Export ZArith Lia.
#[global] Open Scope Z_scope.
#[global] Open Scope bool_scope.

(** ** Machine integers: a w-bit value is a [Z] with its wrap-around written out *)

Definition u8 (x : Z) : Z := x mod 2 ^ 8.
Definition u16 (x : Z) : Z := x mod 2 ^ 16.
Definition u32 (x : Z) : Z := x mod 2 ^ 32.
Definition u64 (x : Z) : Z := x mod 2 ^ 64.
(** conversion of a 32-bit pattern to a signed int *)
Definition s32 (x : Z) : Z := (x + 2 ^ 31) mod 2 ^ 32 - 2 ^ 31.

Lemma u8_range x : 0 <= u8 x < 256.
Proof. unfold u8. apply Z.mod_pos_bound. lia. Qed.
Lemma u16_range x : 0 <= u16 x < 65536.
Proof. unfold u16. apply Z.mod_pos_bound. lia. Qed.
Lemma u32_range x : 0 <= u32 x < 2 ^ 32.
Proof. unfold u32. apply Z.mod_pos_bound. lia. Qed.
Lemma u64_range x : 0 <= u64 x < 2 ^ 64.
Proof. unfold u64. apply Z.mod_pos_bound. lia. Qed.
Lemma u8_id x : 0 <= x < 256 -> u8 x = x.
Proof. intros. unfold u8. apply Z.mod_small. lia. Qed.
Lemma u16_id x : 0 <= x < 65536 -> u16 x = x.
Proof. intros. unfold u16. apply Z.mod_small. lia. Qed.
Lemma u32_id x : 0 <= x < 2 ^ 32 -> u32 x = x.
Proof. intros. unfold u32. apply Z.mod_small. lia. Qed.
Lemma u64_id x : 0 <= x < 2 ^ 64 -> u64 x = x.
Proof. intros. unfold u64. apply Z.mod_small. lia. Qed.
Lemma s32_id x : - 2 ^ 31 <= x < 2 ^ 31 -> s32 x = x.
Proof. intros. unfold s32. rewrite Z.mod_small; lia. Qed.

Create HintDb words.
Create Rewrite HintDb words.
#[export] Hint Rewrite u8_id u16_id u32_id u64_id s32_id using lia : words.
#[export] Hint Resolve u8_range u16_range u32_range u64_range : words.

(** ** Tactics *)

(** case analysis on a [match] or [if] of the goal or of a hypothesis *)
Ltac dmatch :=
  match goal with
  | |- context [match ?x with _ => _ end] => destruct x eqn:?
  | H : context [match ?x with _ => _ end] |- _ => destruct x eqn:?
  end.

(** boolean tests of the code turned into propositions, everywhere *)
Ltac b2p :=
  repeat match goal with
  | H : (_ && _) = true |- _ => apply andb_prop in H; destruct H
  | H : (_ || _) = false |- _ => apply orb_false_elim in H; destruct H
  | H : negb _ = true |- _ => apply negb_true_iff in H
  | H : negb _ = false |- _ => apply negb_false_iff in H
  | H : (_ =? _) = true |- _ => apply Z.eqb_eq in H
  | H : (_ =? _) = false |- _ => apply Z.eqb_neq in H
  | H : (_ <? _) = true |- _ => apply Z.ltb_lt in H
  | H : (_ <? _) = false |- _ => apply Z.ltb_ge in H
  | H : (_ <=? _) = true |- _ => apply Z.leb_le in H
  | H : (_ <=? _) = false |- _ => apply Z.leb_gt in H
  | H : Nat.eqb _ _ = true |- _ => apply Nat.eqb_eq in H
  | H : Nat.eqb _ _ = false |- _ => apply Nat.eqb_neq in H
  | H : Nat.ltb _ _ = true |- _ => apply Nat.ltb_lt in H
  | H : Nat.ltb _ _ = false |- _ => apply Nat.ltb_ge in H
  | H : Nat.leb _ _ = true |- _ => apply Nat.leb_le in H
  | H : Nat.leb _ _ = false |- _ => apply Nat.leb_gt in H
  | H : bool_decide _ = true |- _ => apply bool_decide_eq_true in H
  | H : bool_decide _ = false |- _ => apply bool_decide_eq_false in H
  end.

(** ** Generic lemmas on lists *)

Section Lists.
Context {A : Type}.
Implicit Types l : list A.

(** drop the longest prefix whose elements satisfy [p] *)
Fixpoint dropwhile (p : A -> bool) l : list A :=
  match l with
  | [] => []
  | x :: r => if p x then dropwhile p r else l
  end.

(** drop the longest suffix whose elements satisfy [p] *)
Definition rdropwhile (p : A -> bool) l : list A := rev (dropwhile p (rev l)).

Lemma dropwhile_length p l : (length (dropwhile p l) <= length l)%nat.
Proof. induction l as [|x l IH]; simpl; [done|]. destruct (p x); simpl; lia. Qed.

Lemma dropwhile_id p l :
  match l with [] => True | x :: _ => p x = false end -> dropwhile p l = l.
Proof. destruct l; simpl; [done|]. by intros ->. Qed.

Lemma rdropwhile_nil p : rdropwhile p [] = [].
Proof. done. Qed.

Lemma rdropwhile_snoc_stop p l x : p x = false -> rdropwhile p (l ++ [x]) = l ++ [x].
Proof.
  intros Hx. unfold rdropwhile. rewrite rev_app_distr. simpl. rewrite Hx. simpl.
  by rewrite rev_involutive.
Qed.

Lemma rdropwhile_snoc_go p l x : p x = true -> rdropwhile p (l ++ [x]) = rdropwhile p l.
Proof. intros Hx. unfold rdropwhile. rewrite rev_app_distr. simpl. by rewrite Hx. Qed.

Lemma rdropwhile_prefix p l : exists s, l = rdropwhile p l ++ s.
Proof.
  induction l as [|x l [s IH]] using rev_ind; [by exists []|].
  destruct (p x) eqn:E.
  - rewrite rdropwhile_snoc_go by done. exists (s ++ [x]). by rewrite app_assoc, <- IH.
  - rewrite rdropwhile_snoc_stop by done. exists []. by rewrite app_nil_r.
Qed.

Lemma rdropwhile_last p l : forall x, last (rdropwhile p l) = Some x -> p x = false.
Proof.
  induction l as [|y l IH] using rev_ind; [done|]. intros x.
  destruct (p y) eqn:E.
  - rewrite rdropwhile_snoc_go by done. apply IH.
  - rewrite rdropwhile_snoc_stop, last_snoc by done. congruence.
Qed.

Lemma rdropwhile_length p l : (length (rdropwhile p l) <= length l)%nat.
Proof. unfold rdropwhile. rewrite length_rev, <- (length_rev l). apply dropwhile_length. Qed.

Lemma rdropwhile_id p l :
  (forall x, last l = Some x -> p x = false) -> rdropwhile p l = l.
Proof.
  destruct l as [|x l _] using rev_ind; [done|]. intros H.
  apply rdropwhile_snoc_stop. apply H. by rewrite last_snoc.
Qed.

(** index of the first element satisfying [p] *)
Fixpoint find_index (p : A -> bool) l : option nat :=
  match l with
  | [] => None
  | x :: r => if p x then Some O else S <$> find_index p r
  end.

Lemma find_index_Some p l i :
  find_index p l = Some i ->
  (exists x, l !! i = Some x /\ p x = true) /\ (forall j x, (j < i)%nat -> l !! j = Some x -> p x = false).
Proof.
  revert i. induction l as [|y l IH]; intros i; simpl; [done|].
  destruct (p y) eqn:E.
  - intros [= <-]. split; [by exists y|lia].
  - destruct (find_index p l) as [k|] eqn:F; simpl; [|done]. intros [= <-].
    destruct (IH k eq_refl) as [H1 H2]. split; [done|].
    intros [|j] x Hj; simpl; [congruence|]. apply H2. lia.
Qed.

Lemma find_index_None p l : find_index p l = None <-> Forall (fun x => p x = false) l.
Proof.
  induction l as [|y l IH]; simpl.
  - split; [constructor|done].
  - rewrite Forall_cons. destruct (p y) eqn:E.
    + split; [done|]. intros [? _]. congruence.
    + destruct (find_index p l); simpl; intuition congruence.
Qed.

Lemma find_index_app p l1 x l2 :
  Forall (fun y => p y = false) l1 -> p x = true ->
  find_index p (l1 ++ x :: l2) = Some (length l1).
Proof.
  intros H Hx. induction H as [|y l1 Hy H IH]; simpl; [by rewrite Hx|].
  by rewrite Hy, IH.
Qed.
End Lists.

#[export] Hint Resolve dropwhile_length rdropwhile_length : core.

Lemma Forall_filter {A} (P Q : A -> Prop) `{!forall x, Decision (P x)} (l : list A) :
  Forall Q l -> Forall Q (base.filter P l).
Proof.
  induction 1 as [|x l Hx Hl IH]; [constructor|].
  rewrite filter_cons. case_decide; [by constructor|done].
Qed.

(** ** Reachability of a step relation *)

Section Reach.
Context {S : Type} (init : S -> Prop) (step : S -> S -> Prop).

Inductive reachable : S -> Prop :=
| reach_init s : init s -> reachable s
| reach_step s s' : reachable s -> step s s' -> reachable s'.

(** rule induction in the form an invariant needs *)
Lemma invariant_reachable (I : S -> Prop) :
  (forall s, init s -> I s) ->
  (forall s s', I s -> step s s' -> I s') ->
  forall s, reachable s -> I s.
Proof. intros H0 HS s. induction 1; eauto. Qed.
End Reach.
