(* ===== verification/CLib.v ===== *)
(** * CLib: the part of the C library the sources use

    Characters are unsigned byte values in [Z]; a C string is the list of its
    bytes before the terminating NUL. A pointer into a string is the list of the
    bytes from that position on, or the position itself. *)
From S2P Require Import Prelude.

Abbreviation bytes := (list Z).

(** the bytes of a literal *)
Definition bs (s : string) : bytes :=
  map (fun a => Z.of_N (Ascii.N_of_ascii a)) (String.list_ascii_of_string s).

Abbreviation cTAB := 9 (only parsing).
Abbreviation cLF := 10 (only parsing).
Abbreviation cCR := 13 (only parsing).
Abbreviation cSP := 32 (only parsing).
Abbreviation cDQUOTE := 34 (only parsing).
Abbreviation cHASH := 35 (only parsing).
Abbreviation cSTAR := 42 (only parsing).
Abbreviation cCOMMA := 44 (only parsing).
Abbreviation cMINUS := 45 (only parsing).
Abbreviation cDOT := 46 (only parsing).
Abbreviation cSLASH := 47 (only parsing).
Abbreviation cZERO := 48 (only parsing).
Abbreviation cCOLON := 58 (only parsing).
Abbreviation cSEMI := 59 (only parsing).
Abbreviation cEQ := 61 (only parsing).
Abbreviation cQUEST := 63 (only parsing).
Abbreviation cBSLASH := 92 (only parsing).
Abbreviation cUSCORE := 95 (only parsing).
Abbreviation cLBRACE := 123 (only parsing).
Abbreviation cRBRACE := 125 (only parsing).

(** ** <ctype.h>, C locale *)

Definition between (lo c hi : Z) : bool := (lo <=? c) && (c <=? hi).
Definition isdigit (c : Z) : bool := between 48 c 57.
Definition isupper (c : Z) : bool := between 65 c 90.
Definition islower (c : Z) : bool := between 97 c 122.
Definition isalpha (c : Z) : bool := isupper c || islower c.
Definition isalnum (c : Z) : bool := isalpha c || isdigit c.
Definition isxdigit (c : Z) : bool := isdigit c || between 65 c 70 || between 97 c 102.
Definition isspace (c : Z) : bool := (c =? 32) || between 9 c 13.
Definition isgraph (c : Z) : bool := between 33 c 126.
Definition toupper (c : Z) : Z := if islower c then c - 32 else c.
Definition tolower (c : Z) : Z := if isupper c then c + 32 else c.

(** ** <string.h> *)

Definition strlen (s : bytes) : Z := Z.of_nat (length s).

(** strchr and strrchr as positions; [c] is never NUL in the sources modelled *)
Definition strchr (s : bytes) (c : Z) : option nat := find_index (fun x => x =? c) s.
Definition strrchr (s : bytes) (c : Z) : option nat :=
  (fun i => (length s - 1 - i)%nat) <$> find_index (fun x => x =? c) (rev s).

(** strncmp with the sign of its result; a string is followed by its NUL *)
Fixpoint strncmp (a b : bytes) (n : nat) : Z :=
  match n with
  | O => 0
  | S n' =>
    match a, b with
    | [], [] => 0
    | x :: a', y :: b' => if x =? y then strncmp a' b' n' else x - y
    | [], y :: _ => - y
    | x :: _, [] => x
    end
  end.
Definition strcmp (a b : bytes) : Z := strncmp a b (S (length a + length b)).

(** equality tests in the forms the sources use them *)
Definition streq (a b : bytes) : bool := bool_decide (a = b).
Definition strneq (a b : bytes) (n : nat) : bool := bool_decide (take n a = take n b).
Definition strcaseeq (a b : bytes) : bool := bool_decide (map tolower a = map tolower b).
Definition strncaseeq (a b : bytes) (n : nat) : bool :=
  bool_decide (map tolower (take n a) = map tolower (take n b)).

(** [strncpy(dst, src, n); dst[n-1] = 0] into a buffer of [n] bytes, and
    [snprintf] into a buffer of [n] bytes *)
Definition bufcpy (n : nat) (s : bytes) : bytes := take (n - 1) s.

(** the string a char array holds: its bytes before the first NUL *)
Fixpoint cstr (buf : bytes) : bytes :=
  match buf with
  | [] => []
  | c :: r => if c =? 0 then [] else c :: cstr r
  end.

(** position of the first occurrence of [pat] (strstr) *)
Fixpoint strstr (s pat : bytes) : option nat :=
  if bool_decide (take (length pat) s = pat) then Some O
  else match s with
       | [] => None
       | _ :: r => S <$> strstr r pat
       end.

(** a legal C string: no NUL among its bytes *)
Definition cstring (s : bytes) : Prop := Forall (fun c => 0 < c < 256) s.

(** ** number formatting *)

(** digits of a non-negative number, least significant first; 20 digits hold a u64 *)
Fixpoint dec_rev (fuel : nat) (z : Z) : bytes :=
  match fuel with
  | O => []
  | S f => if z <? 10 then [48 + z] else (48 + z mod 10) :: dec_rev f (z / 10)
  end.
Definition dec_u (z : Z) : bytes := rev (dec_rev 20 z).
(** "%d" *)
Definition fmt_d (z : Z) : bytes := if z <? 0 then cMINUS :: dec_u (- z) else dec_u z.
(** "%02X" of a byte *)
Definition hex_digit (d : Z) : Z := if d <? 10 then 48 + d else 55 + d.
Definition fmt_02X (b : Z) : bytes := [hex_digit (b / 16); hex_digit (b mod 16)].

(** value of a leading run of digits *)
Fixpoint digits_val (acc : Z) (s : bytes) : Z :=
  match s with
  | c :: r => if isdigit c then digits_val (acc * 10 + (c - 48)) r else acc
  | [] => acc
  end.
(** atoi: strtol base 10, saturating at the range of a 32-bit long *)
Definition atoi (s : bytes) : Z :=
  let s := dropwhile isspace s in
  let v := match s with
           | c :: r => if c =? cMINUS then - digits_val 0 r
                       else if c =? 43 then digits_val 0 r
                       else digits_val 0 s
           | [] => 0
           end in
  Z.max (- 2 ^ 31) (Z.min (2 ^ 31 - 1) v).

#[global] Arguments bufcpy : simpl never.
#[global] Arguments strneq : simpl never.
#[global] Arguments fmt_d : simpl never.
#[global] Arguments dec_u : simpl never.
#[global] Arguments atoi : simpl never.
#[global] Arguments strchr : simpl never.
#[global] Arguments strrchr : simpl never.

(** ** Little-endian integers *)

Fixpoint le_bytes (n : nat) (z : Z) : bytes :=
  match n with O => [] | S n' => z mod 256 :: le_bytes n' (z / 256) end.
Fixpoint le_val (b : bytes) : Z := match b with [] => 0 | c :: r => c + 256 * le_val r end.
(** 32-bit words in a row *)
Definition word_bytes (l : list Z) : bytes := concat (map (le_bytes 4) l).

(** ** Blocks of memory *)

(** overwrite the bytes of a block from an offset on (memmove, memcpy) *)
Definition blit {A} (dst : list A) (off : nat) (src : list A) : list A :=
  take off dst ++ src ++ drop (off + length src) dst.

(** ** Lemmas *)

Lemma strncmp_zero a b n :
  cstring a -> cstring b -> ((strncmp a b n = 0) <-> (take n a = take n b)).
Proof.
  intros Ha. revert b n. induction Ha as [|x a Hx Ha IH]; intros b [|n] Hb; try done.
  - destruct Hb; simpl; [done|]. split; intros E; [lia|done].
  - destruct Hb as [|y b Hy Hb]; simpl; [split; [lia|done]|].
    destruct (Z.eqb_spec x y) as [->|Hne].
    + rewrite IH by done. split; [intros E; by rewrite E|intros E; by injection E].
    + split; intros E; [lia|by injection E].
Qed.

Lemma strneq_spec a b n :
  cstring a -> cstring b -> strneq a b n = (strncmp a b n =? 0).
Proof.
  intros Ha Hb. unfold strneq. destruct (Z.eqb_spec (strncmp a b n) 0) as [E|E].
  - apply bool_decide_eq_true. by apply strncmp_zero.
  - apply bool_decide_eq_false. intros F. apply E. by apply strncmp_zero.
Qed.

Lemma strchr_None s c : strchr s c = None <-> c ∉ s.
Proof.
  unfold strchr. rewrite find_index_None, Forall_forall. split.
  - intros H Hin. specialize (H c Hin). rewrite Z.eqb_refl in H. done.
  - intros H x Hx. apply Z.eqb_neq. by intros ->.
Qed.

Lemma strchr_app s c r : c ∉ s -> strchr (s ++ c :: r) c = Some (length s).
Proof.
  intros H. unfold strchr. apply find_index_app; [|apply Z.eqb_refl].
  apply Forall_forall. intros x Hx. apply Z.eqb_neq. by intros ->.
Qed.

Lemma strchr_Some s c i :
  strchr s c = Some i -> s = take i s ++ c :: drop (S i) s /\ (c ∉ take i s) /\ (i < length s)%nat.
Proof.
  intros H. unfold strchr in H. apply find_index_Some in H as [(x & Hx & Ex) Hlt].
  apply Z.eqb_eq in Ex as ->. split; [|split].
  - symmetry. by apply take_drop_middle.
  - intros Hin. apply list_elem_of_lookup in Hin as [j Hj].
    apply lookup_take_Some in Hj as [Hj Hji]. specialize (Hlt j c Hji Hj).
    rewrite Z.eqb_refl in Hlt. done.
  - by apply lookup_lt_Some in Hx.
Qed.

Lemma cstring_take n l : cstring l -> cstring (take n l).
Proof. apply Forall_take. Qed.
Lemma cstring_app a b : cstring (a ++ b) <-> cstring a /\ cstring b.
Proof. apply Forall_app. Qed.
Lemma cstring_drop n l : cstring l -> cstring (drop n l).
Proof. apply Forall_drop. Qed.

Lemma cstr_id s : cstring s -> cstr s = s.
Proof.
  induction 1 as [|c s Hc Hs IH]; simpl; [done|].
  destruct (Z.eqb_spec c 0); [lia|]. by rewrite IH.
Qed.

Lemma cstr_app_nul s r : cstring s -> cstr (s ++ 0 :: r) = s.
Proof.
  induction 1 as [|c s Hc Hs IH]; simpl; [done|].
  destruct (Z.eqb_spec c 0); [lia|]. by rewrite IH.
Qed.

Lemma bufcpy_length n s : (0 < n)%nat -> (length (bufcpy n s) < n)%nat.
Proof. intros. unfold bufcpy. rewrite length_take. lia. Qed.
Lemma bufcpy_id n s : (length s < n)%nat -> bufcpy n s = s.
Proof. intros. unfold bufcpy. apply take_ge. lia. Qed.

Lemma digits_val_app s r acc :
  Forall (fun c => isdigit c = true) s ->
  digits_val acc (s ++ r) = digits_val (digits_val acc s) r.
Proof.
  intros H. revert acc. induction H as [|c s Hc Hs IH]; intros acc; simpl; [done|].
  by rewrite Hc.
Qed.

Lemma isdigit_add d : 0 <= d < 10 -> isdigit (48 + d) = true.
Proof. intros. unfold isdigit, between. lia. Qed.

Lemma dec_rev_digits f z : 0 <= z -> Forall (fun c => isdigit c = true) (dec_rev f z).
Proof.
  revert z. induction f as [|f IH]; intros z Hz; simpl; [constructor|].
  destruct (Z.ltb_spec z 10).
  - constructor; [|constructor]. by apply isdigit_add.
  - constructor.
    + apply isdigit_add. apply Z.mod_pos_bound. lia.
    + apply IH. apply Z.div_pos; lia.
Qed.

Lemma dec_rev_val f z :
  0 <= z < 10 ^ Z.of_nat f -> digits_val 0 (rev (dec_rev f z)) = z.
Proof.
  revert z. induction f as [|f IH]; intros z Hz.
  - change (10 ^ Z.of_nat 0) with 1 in Hz. simpl. lia.
  - cbn [dec_rev]. destruct (Z.ltb_spec z 10).
    + cbn [rev app digits_val]. rewrite isdigit_add by lia. lia.
    + rewrite Nat2Z.inj_succ, Z.pow_succ_r in Hz by lia.
      cbn [rev]. rewrite digits_val_app.
      2:{ apply Forall_rev, dec_rev_digits. apply Z.div_pos; lia. }
      rewrite IH by (split; [apply Z.div_pos; lia|apply Z.div_lt_upper_bound; lia]).
      cbn [digits_val]. rewrite isdigit_add by (apply Z.mod_pos_bound; lia).
      pose proof (Z.div_mod z 10). lia.
Qed.

Lemma dec_u_digits z : 0 <= z -> Forall (fun c => isdigit c = true) (dec_u z).
Proof. intros. by apply Forall_rev, dec_rev_digits. Qed.

Lemma dec_u_val z : 0 <= z < 10 ^ 20 -> digits_val 0 (dec_u z) = z.
Proof. intros. by apply dec_rev_val. Qed.

Lemma dec_rev_nonempty f z : dec_rev (S f) z <> [].
Proof. simpl. by destruct (z <? 10). Qed.

Lemma dec_rev_length f z n :
  0 <= z < 10 ^ Z.of_nat (S n) -> (length (dec_rev f z) <= S n)%nat.
Proof.
  revert z n. induction f as [|f IH]; intros z n Hz; simpl; [lia|].
  destruct (Z.ltb_spec z 10); simpl; [lia|].
  destruct n as [|n].
  - change (10 ^ Z.of_nat 1) with 10 in Hz. lia.
  - apply le_n_S, IH. rewrite (Nat2Z.inj_succ (S n)), Z.pow_succ_r in Hz by lia.
    split; [apply Z.div_pos; lia|apply Z.div_lt_upper_bound; lia].
Qed.

Lemma digit_head s :
  Forall (fun c => isdigit c = true) s -> s <> [] ->
  dropwhile isspace s = s /\ match s with c :: _ => c <> 45 /\ c <> 43 | [] => True end.
Proof.
  intros H Hne. destruct H as [|c s Hc Hs]; [done|].
  unfold isdigit, between in Hc. b2p. split; [|lia].
  apply dropwhile_id. unfold isspace, between. lia.
Qed.

Lemma atoi_digits s :
  Forall (fun c => isdigit c = true) s -> s <> [] ->
  atoi s = Z.max (- 2 ^ 31) (Z.min (2 ^ 31 - 1) (digits_val 0 s)).
Proof.
  intros H Hne. destruct (digit_head s H Hne) as [E Hd]. unfold atoi. rewrite E.
  destruct s as [|c s]; [done|]. destruct Hd.
  by rewrite (proj2 (Z.eqb_neq c 45)), (proj2 (Z.eqb_neq c 43)) by done.
Qed.

Lemma dec_u_nonempty z : dec_u z <> [].
Proof.
  unfold dec_u. intros E. apply (f_equal (@rev Z)) in E. rewrite rev_involutive in E.
  by apply dec_rev_nonempty in E.
Qed.

(** printing an int with "%d" and reading it back with atoi *)
Lemma atoi_fmt_d z : - 2 ^ 31 <= z < 2 ^ 31 -> atoi (fmt_d z) = z.
Proof.
  intros Hz. unfold fmt_d. destruct (Z.ltb_spec z 0).
  - assert (E : digits_val 0 (dec_u (- z)) = - z) by (apply dec_u_val; lia).
    unfold atoi. change (dropwhile isspace (45 :: dec_u (- z))) with (45 :: dec_u (- z)).
    cbv iota beta zeta. rewrite Z.eqb_refl, E. lia.
  - rewrite atoi_digits; [|apply dec_u_digits; lia|apply dec_u_nonempty].
    rewrite dec_u_val by lia. lia.
Qed.

Lemma dec_u_length z n : 0 <= z < 10 ^ Z.of_nat (S n) -> (length (dec_u z) <= S n)%nat.
Proof. intros. unfold dec_u. rewrite length_rev. by apply dec_rev_length. Qed.

Lemma fmt_d_length z : - 2 ^ 31 <= z < 2 ^ 31 -> (length (fmt_d z) <= 11)%nat.
Proof.
  intros Hz. unfold fmt_d. destruct (Z.ltb_spec z 0); cbn [length].
  - assert (length (dec_u (- z)) <= 10)%nat; [|lia].
    apply dec_u_length. change (10 ^ Z.of_nat 10) with 10000000000. lia.
  - assert (length (dec_u z) <= 10)%nat; [|lia].
    apply dec_u_length. change (10 ^ Z.of_nat 10) with 10000000000. lia.
Qed.

Lemma le_bytes_length n z : length (le_bytes n z) = n.
Proof. revert z. induction n as [|n IH]; intros z; [done|]. cbn. by rewrite IH. Qed.

Lemma le_val_bytes n z : 0 <= z < 256 ^ Z.of_nat n -> le_val (le_bytes n z) = z.
Proof.
  revert z. induction n as [|n IH]; intros z Hz.
  - change (256 ^ Z.of_nat 0) with 1 in Hz. cbn. lia.
  - rewrite Nat2Z.inj_succ, Z.pow_succ_r in Hz by lia. cbn [le_bytes le_val].
    rewrite IH by (split; [apply Z.div_pos; lia|apply Z.div_lt_upper_bound; lia]).
    pose proof (Z.div_mod z 256). lia.
Qed.

Lemma le_val_mod n z : le_val (le_bytes n z) = z mod 256 ^ Z.of_nat n.
Proof.
  revert z. induction n as [|n IH]; intros z; [by rewrite Z.mod_1_r|]. cbn [le_bytes le_val]. rewrite IH, Nat2Z.inj_succ, Z.pow_succ_r by lia. rewrite Z.rem_mul_r by lia. lia.
Qed.

Lemma word_bytes_length l : length (word_bytes l) = (4 * length l)%nat.
Proof. unfold word_bytes. induction l as [|x l IH]; [done|]. cbn [map concat length]. rewrite length_app, le_bytes_length, IH. lia. Qed.

Lemma blit_append {A} (buf : list A) n src :
  (n + length src <= length buf)%nat ->
  take (n + length src) (blit buf n src) = take n buf ++ src /\ length (blit buf n src) = length buf.
Proof.
  intros H. unfold blit. split.
  - rewrite app_assoc, take_app_length'; [done|]. rewrite length_app, length_take. lia.
  - rewrite !length_app, length_take, length_drop. lia.
Qed.

Lemma blit_at {A} (a b c src : list A) k : k = length a -> length b = length src -> blit (a ++ b ++ c) k src = a ++ src ++ c.
Proof.
  intros -> H. unfold blit. rewrite take_app_length. do 2 f_equal.
  rewrite <- H, <- length_app, app_assoc. apply drop_app_length.
Qed.

Lemma blit_length {A} (b : list A) k src : (k + length src <= length b)%nat -> length (blit b k src) = length b.
Proof. intros H. unfold blit. rewrite !length_app, length_take, length_drop. lia. Qed.

Lemma blit_nil {A} (b : list A) k : blit b k [] = b.
Proof. unfold blit. cbn. rewrite Nat.add_0_r. apply take_drop. Qed.

Lemma lookup_blit {A} (b : list A) k src i : (k + length src <= length b)%nat ->
  blit b k src !! i = if decide (k <= i < k + length src)%nat then src !! (i - k)%nat else b !! i.
Proof.
  intros H. unfold blit. assert (Hk : length (take k b) = k) by (rewrite length_take; lia). destruct (Nat.lt_ge_cases i k).
  - rewrite decide_False by lia. rewrite lookup_app_l by lia. by rewrite lookup_take_lt by lia.
  - rewrite lookup_app_r, Hk by lia. destruct (Nat.lt_ge_cases (i - k) (length src)).
    + rewrite decide_True by lia. by rewrite lookup_app_l.
    + rewrite decide_False by lia. rewrite lookup_app_r, lookup_drop by lia. f_equal. lia.
Qed.

Lemma u32_add_l a b : u32 (u32 a + b) = u32 (a + b).
Proof. unfold u32. apply Z.add_mod_idemp_l. lia. Qed.
