(* ===== verification/FileBuffer.v ===== *)
(** * FileBuffer: the buffered line reader and writer of src/util.c

    [file_buffer_t] with [openFileBuffer], [openFileBufferBuffer],
    [readFileBuffer], [writeFileBuffer] and [closeFileBuffer]. The descriptor
    behind a buffer belongs to a device driver outside the sources: it is the
    class [Device], whose operations are the POSIX calls the code makes. *)
From S2P Require Import Prelude CLib.

(** ** The descriptor *)

Class Device (D : Type) := {
  (** [read(fd, p, n)]: [None] is a negative result *)
  dev_read : D -> nat -> option bytes * D;
  (** [write(fd, p, n) == n] *)
  dev_write : D -> bytes -> bool * D;
  (** [close(fd) >= 0] *)
  dev_close : D -> bool * D;
}.

Record file_buffer (D : Type) := FB {
  fb_fd : option D;            (* -1 is [None] *)
  fb_readonly : bool;          (* mode == O_RDONLY *)
  fb_buf : bytes;              (* the heap block *)
  fb_size : nat;
  fb_available : nat;
  fb_lastPtr : option nat;     (* offset into [fb_buf]; NULL is [None] *)
  fb_writeError : bool;
  fb_totalQueued : nat;
}.
Arguments FB {D}.
Arguments fb_fd {D}. Arguments fb_readonly {D}. Arguments fb_buf {D}. Arguments fb_size {D}.
Arguments fb_available {D}. Arguments fb_lastPtr {D}. Arguments fb_writeError {D}.
Arguments fb_totalQueued {D}.

Section FileBuffer.
Context {D : Type} `{!Device D}.
Implicit Types fb : file_buffer D.

(** *** Opening *)

Definition utf8_bom : bytes := [239; 187; 191].

(** [openFileBuffer] on an already opened descriptor; [rewind] is the
    descriptor [lseek(fd, 0, SEEK_SET)] leaves *)
Definition openFileBuffer (fd rewind : D) (ro : bool) (size : nat) : file_buffer D :=
  let buf := replicate size 0 in
  if ro then
    let '(r, fd1) := dev_read fd 3 in
    let fd2 := match r with
               | Some b => if bool_decide (b = utf8_bom) then fd1 else rewind
               | None => rewind
               end in
    FB (Some fd2) true buf size 0 None false 0
  else FB (Some fd) false buf size 0 (Some O) false 0.

Definition openFileBufferBuffer (data : bytes) : file_buffer D :=
  FB None true (data ++ [0]) (length data) (length data) (Some O) false 0.

(** *** Reading a line *)

Inductive read_result :=
| ReadEOF
| ReadLine (line : bytes)
| ReadAgain (lineSize : nat)   (* the [continue] of a comment line *)
| ReadFault.                   (* memmove from the NULL [lastPtr] *)

(** the part of the loop body that refills the buffer when no LF is in sight:
    the new buffer, [lineSize] and [posLF] *)
Definition rfb_refill fb (lineSize : nat) : file_buffer D * nat * option nat :=
  let buf0 := match fb_lastPtr fb with
              | Some p => blit (fb_buf fb) 0 (take lineSize (drop p (fb_buf fb)))
              | None => fb_buf fb
              end in
  match fb_fd fb with
  | None =>
    (FB None (fb_readonly fb) buf0 (fb_size fb) lineSize (Some O)
        (fb_writeError fb) (fb_totalQueued fb), lineSize, None)
  | Some fd =>
    let '(r, fd1) := dev_read fd (fb_size fb - lineSize - 1) in
    let '(got, failed) := match r with Some b => (b, false) | None => ([], true) end in
    let buf1 := blit buf0 lineSize (got ++ [0]) in
    let posLF := (fun i => (lineSize + i)%nat) <$> strchr (cstr (drop lineSize buf1)) cLF in
    let n := (lineSize + length got)%nat in
    let fd2 := if failed || negb (Nat.eqb (fb_size fb) (n + 1)) then None else Some fd1 in
    (FB fd2 (fb_readonly fb) buf1 (fb_size fb) n (Some O)
        (fb_writeError fb) (fb_totalQueued fb), n, posLF)
  end.

(** the part after the refill: terminate the line in place and return it *)
Definition rfb_emit fb (lineSize : nat) (posLF : option nat) : file_buffer D * read_result :=
  let p := default O (fb_lastPtr fb) in
  let lineSize := match posLF with Some q => (q - p)%nat | None => lineSize end in
  let lineSize := if negb (Nat.eqb lineSize 0) && bool_decide (fb_buf fb !! (p + lineSize - 1)%nat = Some cCR)
                  then (lineSize - 1)%nat else lineSize in
  let buf := <[(p + lineSize)%nat := 0]> (fb_buf fb) in
  let line := cstr (drop p buf) in
  let next := S <$> posLF in
  let fb1 := FB (fb_fd fb) (fb_readonly fb) buf (fb_size fb) (fb_available fb) (fb_lastPtr fb)
                (fb_writeError fb) (fb_totalQueued fb) in
  let fb2 := FB (fb_fd fb) (fb_readonly fb) buf (fb_size fb) (fb_available fb) next
                (fb_writeError fb) (fb_totalQueued fb) in
  if Nat.eqb lineSize 0 && Nat.eqb (fb_available fb) 0 && bool_decide (fb_fd fb = None)
  then (fb1, ReadEOF)
  else if bool_decide (head line = Some cHASH) then (fb2, ReadAgain lineSize)
  else (fb2, ReadLine line).

(** one pass of the [while (1)]; [lineSize] survives a [continue] *)
Definition rfb_iter fb (lineSize : nat) : file_buffer D * read_result :=
  let '(lineSize, posLF) :=
    match fb_lastPtr fb with
    | Some p => ((fb_available fb - p)%nat,
                 (fun i => (p + i)%nat) <$> strchr (cstr (drop p (fb_buf fb))) cLF)
    | None => (lineSize, None)
    end in
  match posLF with
  | Some q => rfb_emit fb lineSize (Some q)
  | None =>
    if negb (Nat.eqb lineSize 0) && bool_decide (fb_lastPtr fb = None) then (fb, ReadFault)
    else let '(fb1, n, pos) := rfb_refill fb lineSize in rfb_emit fb1 n pos
  end.

Fixpoint rfb_loop (fuel : nat) fb (lineSize : nat) : option (file_buffer D * read_result) :=
  match fuel with
  | O => None
  | S f =>
    match rfb_iter fb lineSize with
    | (fb1, ReadAgain n) => rfb_loop f fb1 n
    | r => Some r
    end
  end.

Definition readFileBuffer (fuel : nat) fb : option (file_buffer D * read_result) := rfb_loop fuel fb O.

(** the [while (readFileBuffer(fb, &line))] of the clients: the lines in order,
    and whether the reader ended at the end of the data ([true]) or faulted *)
Fixpoint read_lines (fuel : nat) fb : option (list bytes * bool) :=
  match fuel with
  | O => None
  | S f =>
    match readFileBuffer fuel fb with
    | None => None
    | Some (_, ReadEOF) => Some ([], true)
    | Some (_, ReadFault) => Some ([], false)
    | Some (_, ReadAgain _) => None
    | Some (fb1, ReadLine l) => (fun '(ls, ok) => (l :: ls, ok)) <$> read_lines f fb1
    end
  end.

(** *** Writing *)

Definition writeFileBuffer fb (inBuf : bytes) : file_buffer D :=
  match fb_fd fb with
  | None => fb
  | Some fd =>
    let size := length inBuf in
    let total := (fb_totalQueued fb + size)%nat in
    (* flush what does not fit *)
    let '(fd1, err1, avail, ptr) :=
      if negb (Nat.eqb (fb_available fb) 0) && Nat.ltb (fb_size fb) (fb_available fb + size) then
        let '(ok, fd') := dev_write fd (take (fb_available fb) (fb_buf fb)) in
        (fd', fb_writeError fb || negb ok, O, O)
      else (fd, fb_writeError fb, fb_available fb, default O (fb_lastPtr fb)) in
    if Nat.ltb (fb_size fb) size then
      let '(ok, fd2) := dev_write fd1 inBuf in
      FB (Some fd2) (fb_readonly fb) (fb_buf fb) (fb_size fb) avail (Some ptr) (err1 || negb ok) total
    else
      FB (Some fd1) (fb_readonly fb) (blit (fb_buf fb) ptr inBuf) (fb_size fb)
         (avail + size) (Some (ptr + size)%nat) err1 total
  end.

(** the result 0 / -1 and the descriptor after [close] *)
Definition closeFileBuffer fb : Z * option D :=
  let err := fb_writeError fb in
  match fb_fd fb with
  | None => (if err then -1 else 0, None)
  | Some fd =>
    let '(err1, fd1) :=
      if negb (fb_readonly fb) && negb (Nat.eqb (fb_available fb) 0) then
        let '(ok, fd') := dev_write fd (take (fb_available fb) (fb_buf fb)) in
        (err || negb ok, fd')
      else (err, fd) in
    let '(okc, fd2) := dev_close fd1 in
    (if err1 || negb okc then -1 else 0, Some fd2)
  end.

Definition writeAll fb (chunks : list bytes) : file_buffer D := fold_left writeFileBuffer chunks fb.

End FileBuffer.

(** ** What the reader is meant to return: the lines of the data *)

Definition strip_cr (l : bytes) : bytes :=
  match last l with
  | Some c => if c =? cCR then take (length l - 1) l else l
  | None => l
  end.

Definition is_comment (l : bytes) : bool := bool_decide (head l = Some cHASH).

(** split at LF; a last piece without LF counts when it is not empty *)
Fixpoint split_lf (acc : bytes) (data : bytes) : list bytes :=
  match data with
  | [] => if bool_decide (acc = []) then [] else [acc]
  | c :: r => if c =? cLF then acc :: split_lf [] r else split_lf (acc ++ [c]) r
  end.

Definition text_lines (data : bytes) : list bytes :=
  base.filter (fun l => is_comment l = false) (map strip_cr (split_lf [] data)).

(** ** Correctness of reading *)

Definition dangling_comment (data : bytes) : bool :=
  match last (split_lf [] data), last data with
  | Some l, Some c => is_comment (strip_cr l) && negb (c =? cLF)
  | _, _ => false
  end.

Lemma strip_cr_take l :
  strip_cr l = take (if negb (Nat.eqb (length l) 0) && bool_decide (l !! (length l - 1)%nat = Some cCR)
                     then length l - 1 else length l) l.
Proof.
  destruct l as [|c l _] using rev_ind; [done|].
  unfold strip_cr. rewrite last_snoc, length_app. cbn [length].
  replace (length l + 1 - 1)%nat with (length l) by lia.
  rewrite list_lookup_middle by done.
  destruct (Nat.eqb_spec (length l + 1) 0) as [E|_]; [lia|]. cbn [negb andb].
  destruct (Z.eqb_spec c cCR) as [->|Hc].
  - by rewrite bool_decide_eq_true_2.
  - rewrite bool_decide_eq_false_2 by congruence.
    symmetry. apply take_ge. rewrite length_app. simpl. lia.
Qed.

Lemma cstr_prefix l t : cstring l -> cstr (l ++ t) = l ++ cstr t.
Proof.
  induction 1 as [|c l Hc Hl IH]; simpl; [done|].
  destruct (Z.eqb_spec c 0); [lia|]. by rewrite IH.
Qed.


(** a NUL stored at offset [n] of the line cuts the line there *)
Lemma cstr_cut buf p n l x t :
  drop p buf = l ++ x :: t -> (n <= length l)%nat -> cstring l ->
  cstr (drop p (<[(p + n)%nat := 0]> buf)) = take n l.
Proof.
  intros E Hn Hl.
  assert (Hlen : (p + n < length buf)%nat).
  { apply (f_equal length) in E. rewrite length_drop, length_app in E. simpl in E. lia. }
  rewrite drop_insert_ge by lia. replace (p + n - p)%nat with n by lia. rewrite E.
  rewrite <- (take_drop n l) at 1. rewrite <- app_assoc.
  rewrite insert_app_r_alt by (rewrite length_take; lia).
  rewrite length_take, Nat.min_l, Nat.sub_diag by lia.
  destruct (drop n l ++ x :: t) as [|y r] eqn:F; [by apply app_nil in F as [_ [=]]|].
  simpl. rewrite cstr_app_nul by (by apply cstring_take). done.
Qed.

Lemma split_lf_app acc l r :
  (cLF ∉ l) -> split_lf acc (l ++ cLF :: r) = (acc ++ l) :: split_lf [] r.
Proof.
  revert acc. induction l as [|c l IH]; intros acc H; simpl.
  - by rewrite app_nil_r.
  - apply not_elem_of_cons in H as [Hc H]. destruct (Z.eqb_spec c cLF); [congruence|].
    rewrite IH by done. by rewrite <- app_assoc.
Qed.

Lemma split_lf_last acc l :
  (cLF ∉ l) -> split_lf acc l = if bool_decide (acc ++ l = []) then [] else [acc ++ l].
Proof.
  revert acc. induction l as [|c l IH]; intros acc H; simpl.
  - by rewrite app_nil_r.
  - apply not_elem_of_cons in H as [Hc H]. destruct (Z.eqb_spec c cLF); [congruence|].
    rewrite IH by done. by rewrite <- app_assoc.
Qed.

Lemma split_lf_nonempty r : r <> [] -> split_lf [] r <> [].
Proof.
  assert (G : forall acc, acc ++ r <> [] -> split_lf acc r <> []).
  { induction r as [|c r IH]; intros acc H; simpl.
    - rewrite app_nil_r in H. by rewrite bool_decide_eq_false_2.
    - destruct (c =? cLF); [done|]. apply IH. by destruct acc. }
  intros. by apply G.
Qed.

(** the two shapes of non-empty data: a terminated line first, or no LF at all *)
Lemma lf_cases (data : bytes) :
  (exists l r, data = l ++ cLF :: r /\ (cLF ∉ l)) \/ (cLF ∉ data).
Proof.
  destruct (strchr data cLF) as [i|] eqn:E.
  - apply strchr_Some in E as (E & H & _). left. eauto.
  - right. by apply strchr_None.
Qed.

Lemma text_lines_lf l r :
  (cLF ∉ l) ->
  text_lines (l ++ cLF :: r) =
  if is_comment (strip_cr l) then text_lines r else strip_cr l :: text_lines r.
Proof.
  intros H. unfold text_lines. rewrite split_lf_app by done. cbn [app map].
  rewrite filter_cons. by destruct (is_comment (strip_cr l)).
Qed.

Lemma text_lines_last l :
  (cLF ∉ l) -> l <> [] -> text_lines l = if is_comment (strip_cr l) then [] else [strip_cr l].
Proof.
  intros H Hne. unfold text_lines. rewrite split_lf_last by done. cbn [app].
  rewrite bool_decide_eq_false_2 by done. cbn [map]. rewrite filter_cons.
  by destruct (is_comment (strip_cr l)).
Qed.

Lemma dangling_lf l r : (cLF ∉ l) -> dangling_comment (l ++ cLF :: r) = dangling_comment r.
Proof.
  intros H. unfold dangling_comment. rewrite split_lf_app by done. cbn [app].
  destruct r as [|c r] using rev_ind.
  - simpl. rewrite last_snoc. cbn. by rewrite andb_false_r.
  - clear IHr. rewrite app_comm_cons, app_assoc, !last_snoc.
    pose proof (split_lf_nonempty (r ++ [c])) as Hne.
    destruct (split_lf [] (r ++ [c])) as [|a s] eqn:F.
    + destruct Hne; [by destruct r|done].
    + done.
Qed.

Lemma dangling_last l :
  (cLF ∉ l) -> l <> [] -> dangling_comment l = is_comment (strip_cr l).
Proof.
  intros H Hne. unfold dangling_comment. rewrite split_lf_last by done. cbn [app].
  rewrite bool_decide_eq_false_2 by done. cbn [last].
  destruct l as [|c l _] using rev_ind; [done|]. rewrite last_snoc.
  destruct (Z.eqb_spec c cLF) as [->|]; [|by rewrite andb_true_r].
  exfalso. apply H. set_solver.
Qed.

Lemma comment_nonempty l : is_comment l = true -> length l <> O.
Proof. unfold is_comment. destruct l; [|done]. by rewrite bool_decide_eq_false_2. Qed.

Lemma first_lf_unique (l r l' r' : bytes) :
  l ++ cLF :: r = l' ++ cLF :: r' -> (cLF ∉ l) -> (cLF ∉ l') -> l = l' /\ r = r'.
Proof.
  intros H Hl Hl'. assert (E : strchr (l ++ cLF :: r) cLF = strchr (l' ++ cLF :: r') cLF) by congruence.
  rewrite !strchr_app in E by done. injection E as E.
  apply app_inj_1 in H as [-> H]; [|done]. by injection H.
Qed.

Lemma first_lf_later (l r cur c2 : bytes) :
  l ++ cLF :: r = cur ++ c2 -> (cLF ∉ l) -> (cLF ∉ cur) ->
  exists l2, l = cur ++ l2 /\ c2 = l2 ++ cLF :: r.
Proof.
  intros H Hl Hcur. revert l H Hl. induction cur as [|c cur IH]; intros l H Hl; [by exists l|].
  apply not_elem_of_cons in Hcur as [Hc Hcur].
  destruct l as [|c' l]; injection H as E H; [by destruct Hc|]. subst c'.
  apply not_elem_of_cons in Hl as [_ Hl].
  destruct (IH Hcur l H Hl) as (l2 & -> & ->). by exists l2.
Qed.

Section ReadMemory.
Context {D : Type} `{!Device D}.
Implicit Types fb : file_buffer D.

Definition line_result (l : bytes) : read_result :=
  if is_comment (strip_cr l) then ReadAgain (length (strip_cr l)) else ReadLine (strip_cr l).

(** the emitting part returns the line without its CR *)
Lemma rfb_emit_line fb p l x t k (pos : option nat) :
  fb_lastPtr fb = Some p -> drop p (fb_buf fb) = l ++ x :: t -> cstring l ->
  (pos = Some (p + length l)%nat \/ (pos = None /\ k = length l)) ->
  (fb_available fb <> 0)%nat ->
  exists buf', rfb_emit fb k pos =
    (FB (fb_fd fb) (fb_readonly fb) buf' (fb_size fb) (fb_available fb) (S <$> pos)
        (fb_writeError fb) (fb_totalQueued fb), line_result l)
    /\ drop (S (p + length l)) buf' = drop (S (p + length l)) (fb_buf fb)
    /\ length buf' = length (fb_buf fb).
Proof.
  intros Hp E Hl Hpos Hav. unfold rfb_emit. rewrite Hp.
  assert (Hm : match pos with Some q => (q - p)%nat | None => k end = length l)
    by (destruct Hpos as [->|[-> ->]]; lia).
  cbv beta zeta. cbn [from_option id default]. rewrite Hm. clear Hm.
  assert (Hcr : forall i, (i < length l)%nat -> fb_buf fb !! (p + i)%nat = l !! i).
  { intros i Hi. rewrite <- lookup_drop, E. by apply lookup_app_l. }
  assert (Hn : (if negb (Nat.eqb (length l) 0) &&
                  bool_decide (fb_buf fb !! (p + length l - 1)%nat = Some cCR)
                then length l - 1 else length l)%nat = length (strip_cr l)).
  { rewrite strip_cr_take. destruct (Nat.eqb_spec (length l) 0) as [E0|E0]; cbn [negb andb].
    - rewrite length_take. lia.
    - replace (p + length l - 1)%nat with (p + (length l - 1))%nat by lia.
      rewrite Hcr by lia. case_bool_decide; rewrite length_take; lia. }
  rewrite Hn. clear Hn.
  assert (Hle : (length (strip_cr l) <= length l)%nat).
  { rewrite strip_cr_take, length_take. lia. }
  assert (Hline : cstr (drop p (<[(p + length (strip_cr l))%nat := 0]> (fb_buf fb))) = strip_cr l).
  { rewrite (cstr_cut _ _ _ l x t) by done. rewrite strip_cr_take.
    rewrite length_take. f_equal. case_match; lia. }
  rewrite Hline.
  destruct (Nat.eqb_spec (fb_available fb) 0) as [?|_]; [done|].
  rewrite andb_false_r. cbn [andb].
  exists (<[(p + length (strip_cr l))%nat:=0]> (fb_buf fb)).
  split; [|split; [apply drop_insert_lt; lia|apply length_insert]].
  unfold line_result, is_comment. by destruct (bool_decide _).
Qed.

(** the state of a buffer without descriptor and with [rest] still to be read *)
Definition mem_at fb (rest : bytes) : Prop :=
  fb_fd fb = None /\
  exists p t, fb_lastPtr fb = Some p /\ drop p (fb_buf fb) = rest ++ 0 :: t /\
              fb_available fb = (p + length rest)%nat.

(** the state after the last line has been handed out *)
Definition mem_done fb : Prop := fb_fd fb = None /\ fb_lastPtr fb = None.

Lemma mem_open data : mem_at (openFileBufferBuffer data) data.
Proof. split; [done|]. exists O, []. by rewrite drop_0. Qed.

(** a line whose LF is already in the buffer, whatever the descriptor *)
Lemma iter_buffered_lf fb p l r t k :
  fb_lastPtr fb = Some p -> drop p (fb_buf fb) = (l ++ cLF :: r) ++ 0 :: t ->
  fb_available fb = (p + length (l ++ cLF :: r))%nat -> cstring l -> (cLF ∉ l) ->
  exists buf', rfb_iter fb k =
    (FB (fb_fd fb) (fb_readonly fb) buf' (fb_size fb) (fb_available fb)
        (Some (S (p + length l))) (fb_writeError fb) (fb_totalQueued fb), line_result l)
    /\ drop (S (p + length l)) buf' = r ++ 0 :: t /\ length buf' = length (fb_buf fb).
Proof.
  intros Hp E Hav Hl Hlf. rewrite length_app in Hav. simpl in Hav.
  unfold rfb_iter. rewrite Hp, E, <- app_assoc, cstr_prefix by done. cbn [app cstr Z.eqb].
  rewrite strchr_app by done. cbn [fmap option_fmap option_map].
  destruct (rfb_emit_line fb p l cLF (r ++ 0 :: t) (fb_available fb - p)
              (Some (p + length l)%nat)) as (buf' & Eq & Hd & Hlen); eauto.
  - by rewrite E, <- app_assoc.
  - lia.
  - rewrite Eq. exists buf'. split; [done|]. split; [|done]. rewrite Hd.
    replace (S (p + length l)) with (p + S (length l))%nat by lia.
    rewrite <- drop_drop, E, <- app_assoc. rewrite drop_app_ge by lia.
    by replace (S (length l) - length l)%nat with 1%nat by lia.
Qed.

Lemma mem_iter_lf fb l rest k :
  mem_at fb (l ++ cLF :: rest) -> cstring l -> (cLF ∉ l) ->
  exists fb', rfb_iter fb k = (fb', line_result l) /\ mem_at fb' rest /\ fb_lastPtr fb' <> None.
Proof.
  intros (Hfd & p & t & Hp & E & Hav) Hl Hlf.
  destruct (iter_buffered_lf fb p l rest t k) as (buf' & Eq & Hd & _); auto.
  rewrite Eq. eexists. split; [done|]. split; [|done]. split; [done|].
  exists (S (p + length l))%nat, t. split; [done|]. split; [done|]. simpl.
  rewrite Hav, length_app. simpl. lia.
Qed.

Lemma mem_iter_last fb l k :
  mem_at fb l -> cstring l -> (cLF ∉ l) -> l <> [] ->
  exists fb', rfb_iter fb k = (fb', line_result l) /\ mem_done fb'.
Proof.
  intros (Hfd & p & t & Hp & E & Hav) Hl Hlf Hne. unfold rfb_iter. rewrite Hp, E.
  rewrite cstr_app_nul by done.
  rewrite (proj2 (strchr_None l cLF)) by done. cbn [fmap option_fmap option_map].
  rewrite bool_decide_eq_false_2, andb_false_r by done.
  unfold rfb_refill. rewrite Hfd, Hp, E, Hav.
  replace (p + length l - p)%nat with (length l) by lia.
  rewrite take_app_length.
  assert (Hlen : (p + length l < length (fb_buf fb))%nat).
  { apply (f_equal length) in E. rewrite length_drop, length_app in E. simpl in E. lia. }
  destruct (drop (length l) (fb_buf fb)) as [|y r] eqn:F.
  { apply (f_equal length) in F. rewrite length_drop in F. simpl in F. lia. }
  edestruct (rfb_emit_line
    (FB None (fb_readonly fb) (blit (fb_buf fb) 0 l) (fb_size fb) (length l) (Some O)
        (fb_writeError fb) (fb_totalQueued fb)) O l y r (length l) None) as (buf' & Eq & _);
    cbn [fb_lastPtr fb_buf fb_available]; eauto.
  - unfold blit. simpl. by rewrite drop_0, F.
  - by destruct l.
  - rewrite Eq. eexists. done.
Qed.

Lemma emit_eof fb : fb_fd fb = None -> fb_available fb = O -> snd (rfb_emit fb 0 None) = ReadEOF.
Proof. intros H1 H2. unfold rfb_emit. by rewrite H1, H2. Qed.

Lemma mem_iter_empty fb k : mem_at fb [] -> snd (rfb_iter fb k) = ReadEOF.
Proof.
  intros (Hfd & p & t & Hp & E & Hav). unfold rfb_iter. rewrite Hp, E. cbn [app cstr Z.eqb].
  cbn [length] in Hav. rewrite Hav, Nat.add_0_r, Nat.sub_diag. cbn.
  unfold rfb_refill. rewrite Hfd. by apply emit_eof.
Qed.

Lemma mem_iter_done fb : mem_done fb -> snd (rfb_iter fb 0) = ReadEOF.
Proof.
  intros [Hfd Hp]. unfold rfb_iter. rewrite Hp. cbn.
  unfold rfb_refill. rewrite Hfd. by apply emit_eof.
Qed.

(** a comment that ends the data without LF makes the next pass read NULL *)
Lemma mem_iter_fault fb n : mem_done fb -> n <> O -> rfb_iter fb n = (fb, ReadFault).
Proof.
  intros [Hfd Hp] Hn. unfold rfb_iter. rewrite Hp.
  destruct (Nat.eqb_spec n 0); [done|]. by rewrite bool_decide_eq_true_2.
Qed.
End ReadMemory.

(** *** Buffers refilled from a descriptor

    A device that delivers the bytes of a file in order: what is promised of a
    read. *)
Class FileDevice (D : Type) `{!Device D} := {
  contents : D -> bytes;
  dev_read_file d n :
    exists d', dev_read d n = (Some (take n (contents d)), d') /\ contents d' = drop n (contents d);
}.

(** every line of the data, with its LF, fits the block *)
Definition lines_fit (size : nat) (data : bytes) : Prop :=
  Forall (fun l => (length l + 1 < size)%nat) (split_lf [] data).

Section ReadFile.
Context {D : Type} `{!Device D} `{!FileDevice D}.
Implicit Types fb : file_buffer D.

(** the descriptor is open and [rest] is still to be read: [cur] of it is buffered *)
Definition open_at fb (rest : bytes) : Prop :=
  exists d cur, fb_fd fb = Some d /\ rest = cur ++ contents d /\
  length (fb_buf fb) = fb_size fb /\ (1 < fb_size fb)%nat /\ lines_fit (fb_size fb) rest /\
  ((exists p t, fb_lastPtr fb = Some p /\ drop p (fb_buf fb) = cur ++ 0 :: t /\
                fb_available fb = (p + length cur)%nat)
   \/ (fb_lastPtr fb = None /\ cur = [])).

Definition buf_at fb (rest : bytes) : Prop := mem_at fb rest \/ open_at fb rest.

(** the buffer after a refill holds what was buffered and what was read *)
Lemma refill_open fb d cur k :
  fb_fd fb = Some d -> length (fb_buf fb) = fb_size fb -> (length cur < fb_size fb)%nat ->
  k = length cur -> cstring (contents d) ->
  match fb_lastPtr fb with Some p => take k (drop p (fb_buf fb)) | None => [] end = cur ->
  exists fd' buf' t,
    let got := take (fb_size fb - length cur - 1) (contents d) in
    rfb_refill fb k =
      (FB fd' (fb_readonly fb) buf' (fb_size fb) (length (cur ++ got)) (Some O)
          (fb_writeError fb) (fb_totalQueued fb),
       length (cur ++ got), (fun i => (length cur + i)%nat) <$> strchr got cLF)
    /\ buf' = (cur ++ got) ++ 0 :: t /\ length buf' = fb_size fb
    /\ fd' = (if Nat.eqb (fb_size fb) (length (cur ++ got) + 1)
              then Some (snd (dev_read d (fb_size fb - length cur - 1))) else None).
Proof.
  intros Hfd Hsz Hfit -> Hc Hcur. unfold rfb_refill. rewrite Hfd.
  destruct (dev_read_file d (fb_size fb - length cur - 1)) as (d' & E & Hd'). rewrite E.
  set (got := take _ (contents d)).
  assert (Hgl : (length got <= fb_size fb - length cur - 1)%nat) by (subst got; rewrite length_take; lia).
  set (buf0 := match fb_lastPtr fb with Some p => _ | None => fb_buf fb end).
  assert (H0 : take (length cur) buf0 = cur /\ length buf0 = fb_size fb).
  { subst buf0. destruct (fb_lastPtr fb) as [p|].
    - rewrite Hcur. unfold blit. rewrite take_0, app_nil_l, take_app_length.
      rewrite length_app, length_drop. split; [done|lia].
    - subst cur. rewrite take_0. done. }
  destruct H0 as [H0 H0l]. clearbody buf0.
  assert (Hb : blit buf0 (length cur) (got ++ [0]) =
               (cur ++ got) ++ 0 :: drop (length cur + length (got ++ [0])) buf0).
  { unfold blit. rewrite H0. by rewrite <- !app_assoc. }
  assert (Hdrop : cstr (drop (length cur) (blit buf0 (length cur) (got ++ [0]))) = got).
  { rewrite Hb, <- app_assoc, drop_app_length. apply cstr_app_nul. by apply Forall_take. }
  rewrite Hdrop. cbn [orb]. rewrite length_app.
  eexists _, _, _. split; [reflexivity|]. split; [exact Hb|]. split.
  - unfold blit. rewrite H0. rewrite !length_app, length_drop. simpl. lia.
  - cbn [snd]. by destruct (Nat.eqb _ _).
Qed.
(** with no LF among the buffered bytes the iteration goes through the refill *)
Lemma iter_refill fb d cur k :
  fb_fd fb = Some d -> cstring cur -> (cLF ∉ cur) ->
  ((exists p t, fb_lastPtr fb = Some p /\ drop p (fb_buf fb) = cur ++ 0 :: t /\
                fb_available fb = (p + length cur)%nat)
   \/ (fb_lastPtr fb = None /\ cur = [] /\ k = O)) ->
  rfb_iter fb k = (let '(fb1, n, pos) := rfb_refill fb (length cur) in rfb_emit fb1 n pos) /\
  match fb_lastPtr fb with Some p => take (length cur) (drop p (fb_buf fb)) | None => [] end = cur.
Proof.
  intros Hfd Hc Hlf [(p & t & Hp & E & Hav)|(Hp & -> & ->)]; unfold rfb_iter; rewrite Hp.
  - rewrite E, cstr_app_nul, (proj2 (strchr_None cur cLF)) by done.
    cbn [fmap option_fmap option_map]. rewrite bool_decide_eq_false_2, andb_false_r by done.
    rewrite Hav. replace (p + length cur - p)%nat with (length cur) by lia.
    by rewrite take_app_length.
  - done.
Qed.

Lemma open_iter_lf fb l rest k :
  open_at fb (l ++ cLF :: rest) -> cstring (l ++ cLF :: rest) -> (cLF ∉ l) ->
  (fb_lastPtr fb = None -> k = O) ->
  exists fb', rfb_iter fb k = (fb', line_result l) /\ buf_at fb' rest /\ fb_lastPtr fb' <> None.
Proof.
  intros (d & cur & Hfd & Hrest & Hsz & Hpos & Hfit & Hcur) Hc Hlf Hk.
  assert (Hfit' : (length l + 1 < fb_size fb)%nat /\ lines_fit (fb_size fb) rest).
  { unfold lines_fit in Hfit. rewrite split_lf_app in Hfit by done. by apply Forall_cons in Hfit. }
  pose proof Hc as Hcc. rewrite Hrest in Hcc. apply cstring_app in Hcc as [Hccur Hccont].
  destruct (lf_cases cur) as [(l1 & r1 & -> & Hl1)|Hnolf].
  - (* the LF is buffered *)
    rewrite <- app_assoc in Hrest. cbn [app] in Hrest.
    apply first_lf_unique in Hrest as [-> ->]; [|done..].
    destruct Hcur as [(p & t & Hp & E & Hav)|[_ ?]]; [|by destruct l1].
    apply cstring_app in Hc as [Hcl _].
    destruct (iter_buffered_lf fb p l1 r1 t k) as (buf' & Eq & Hd & Hlen); auto.
    rewrite Eq. eexists. split; [done|]. split; [|done]. right.
    exists d, r1. cbn. split_and!; try done; [congruence|by destruct Hfit'|].
    left. exists (S (p + length l1)), t. split_and!; try done.
    rewrite Hav, length_app. simpl. lia.
  - (* it is further on in the file *)
    apply first_lf_later in Hrest as (l2 & -> & Hcont); [|done..].
    destruct (iter_refill fb d cur k) as [Eq Htake]; auto; [naive_solver|]. rewrite Eq.
    rewrite length_app in Hfit'. destruct Hfit' as [Hfl Hfr].
    destruct (refill_open fb d cur (length cur)) as (fd' & buf' & t & Er & Hb & Hbl & Hfd'); auto; [lia|].
    cbv zeta in Er. rewrite Er.
    set (m := (fb_size fb - length cur - 1 - S (length l2))%nat).
    assert (Hgot : take (fb_size fb - length cur - 1) (contents d) = l2 ++ cLF :: take m rest).
    { rewrite Hcont, take_app. replace (fb_size fb - length cur - 1 - length l2)%nat with (S m) by lia.
      by rewrite take_ge by lia. }
    rewrite Hgot in *. rewrite strchr_app by set_solver. cbn [fmap option_fmap option_map].
    destruct (rfb_emit_line (FB fd' (fb_readonly fb) buf' (fb_size fb) (length (cur ++ l2 ++ cLF :: take m rest))
                (Some O) (fb_writeError fb) (fb_totalQueued fb)) O (cur ++ l2) cLF (take m rest ++ 0 :: t)
                (length (cur ++ l2 ++ cLF :: take m rest)) (Some (length cur + length l2)%nat))
      as (buf2 & Eq2 & Hd2 & Hl2); cbn [fb_lastPtr fb_buf fb_available]; try done.
    + rewrite drop_0, Hb. by rewrite <- !app_assoc.
    + by apply cstring_app in Hc as [? _].
    + left. by rewrite length_app.
    + rewrite !length_app. simpl. lia.
    + rewrite Eq2. eexists. split; [done|]. split; [|done]. cbn [fb_buf] in Hd2, Hl2.
      assert (Hd3 : drop (S (length cur + length l2)) buf2 = take m rest ++ 0 :: t).
      { rewrite Nat.add_0_l, length_app in Hd2. rewrite Hd2, Hb, <- app_assoc.
        rewrite drop_app_ge by lia. rewrite <- app_assoc, drop_app_ge by lia.
        by replace (S (length cur + length l2) - length cur - length l2)%nat with 1%nat by lia. }
      assert (Hav2 : length (cur ++ l2 ++ cLF :: take m rest) =
                     (S (length cur + length l2) + length (take m rest))%nat).
      { rewrite !length_app. simpl. lia. }
      rewrite Hfd', Hav2. destruct (Nat.eqb_spec (fb_size fb)
        (S (length cur + length l2) + length (take m rest) + 1)) as [Hfull|Hnot].
      * right. destruct (dev_read_file d (fb_size fb - length cur - 1)) as (d' & Ed & Hcd).
        rewrite Ed. exists d', (take m rest). cbn. split_and!; try done; [|congruence|].
        -- rewrite Hcd, Hcont, drop_app. rewrite (drop_ge l2) by lia.
           replace (fb_size fb - length cur - 1 - length l2)%nat with (S m) by lia.
           cbn. by rewrite take_drop.
        -- left. exists (S (length cur + length l2)), t. done.
      * left. split; [done|]. exists (S (length cur + length l2)), t. cbn.
        assert (Htm : take m rest = rest) by (apply take_ge; rewrite length_take in Hnot; lia).
        rewrite Htm in *. done.
Qed.

Lemma open_iter_last fb l k :
  open_at fb l -> cstring l -> (cLF ∉ l) -> (fb_lastPtr fb = None -> k = O) ->
  exists fb', (l <> [] -> rfb_iter fb k = (fb', line_result l) /\ mem_done fb') /\
              (l = [] -> snd (rfb_iter fb k) = ReadEOF).
Proof.
  intros (d & cur & Hfd & -> & Hsz & Hpos & Hfit & Hcur) Hc Hlf Hk.
  apply cstring_app in Hc as [Hccur Hccont]. apply not_elem_of_app in Hlf as [Hlf1 Hlf2].
  destruct (iter_refill fb d cur k) as [Eq Htake]; auto; [naive_solver|]. rewrite Eq.
  assert (Hall : (length (cur ++ contents d) + 1 < fb_size fb)%nat).
  { unfold lines_fit in Hfit. rewrite split_lf_last in Hfit by set_solver. cbn [app] in Hfit.
    case_bool_decide as He; [rewrite He; simpl; lia|]. by apply Forall_cons in Hfit as [? _]. }
  destruct (refill_open fb d cur (length cur)) as (fd' & buf' & t & Er & Hb & Hbl & Hfd');
    auto; [rewrite length_app in Hall; lia|].
  cbv zeta in Er. rewrite Er.
  assert (Hgot : take (fb_size fb - length cur - 1) (contents d) = contents d)
    by (apply take_ge; rewrite length_app in Hall; lia).
  rewrite Hgot in *. rewrite (proj2 (strchr_None (contents d) cLF)) by done.
  cbn [fmap option_fmap option_map].
  assert (Hnone : fd' = None) by (rewrite Hfd'; destruct (Nat.eqb_spec (fb_size fb) (length (cur ++ contents d) + 1)); [lia|done]).
  subst fd'. rewrite Hnone.
  destruct (decide (cur ++ contents d = [])) as [He|Hne].
  - exists fb. split; [done|]. intros _. rewrite He. by apply emit_eof.
  - destruct (rfb_emit_line (D:=D) (FB None (fb_readonly fb) buf' (fb_size fb) (length (cur ++ contents d))
                (Some O) (fb_writeError fb) (fb_totalQueued fb)) O (cur ++ contents d) 0 t
                (length (cur ++ contents d)) None) as (buf2 & Eq2 & _);
      cbn [fb_lastPtr fb_buf fb_available]; auto.
    + by apply cstring_app.
    + by destruct (cur ++ contents d).
    + eexists. split; [|done]. intros _. split; [exact Eq2|done].
Qed.
End ReadFile.

Section ReadAll.
Context {D : Type} `{!Device D} `{!FileDevice D}.
Implicit Types fb : file_buffer D.

(** one [readFileBuffer] on a memory buffer with [rest] ahead *)
Definition read_step (rest : bytes) fb' (r : read_result) : Prop :=
  match text_lines rest with
  | [] => r = if dangling_comment rest then ReadFault else ReadEOF
  | l :: ls =>
    r = ReadLine l /\
    ((exists rest', buf_at fb' rest' /\ fb_lastPtr fb' <> None /\ cstring rest' /\ text_lines rest' = ls /\
                    dangling_comment rest' = dangling_comment rest /\
                    (length rest' < length rest)%nat)
     \/ (mem_done fb' /\ ls = [] /\ dangling_comment rest = false))
  end.

Lemma loop_done f fb : mem_done fb -> exists fb', rfb_loop (S f) fb 0 = Some (fb', ReadEOF).
Proof.
  intros H. pose proof (mem_iter_done fb H) as E. simpl.
  destruct (rfb_iter fb 0) as [fb' r]. simpl in E. subst. eauto.
Qed.

Lemma iter_lf fb l rest k :
  buf_at fb (l ++ cLF :: rest) -> cstring (l ++ cLF :: rest) -> (cLF ∉ l) ->
  (fb_lastPtr fb = None -> k = O) ->
  exists fb', rfb_iter fb k = (fb', line_result l) /\ buf_at fb' rest /\ fb_lastPtr fb' <> None.
Proof.
  intros [Hat|Hat] Hc Hl Hk; [|by apply open_iter_lf].
  apply cstring_app in Hc as [Hc _].
  destruct (mem_iter_lf fb l rest k Hat Hc Hl) as (fb' & ? & ? & ?). exists fb'.
  split_and!; auto. by left.
Qed.

Lemma iter_last fb l k :
  buf_at fb l -> cstring l -> (cLF ∉ l) -> (fb_lastPtr fb = None -> k = O) -> l <> [] ->
  exists fb', rfb_iter fb k = (fb', line_result l) /\ mem_done fb'.
Proof.
  intros [Hat|Hat] Hc Hl Hk Hne; [by apply mem_iter_last|].
  destruct (open_iter_last fb l k Hat Hc Hl Hk) as (fb' & H & _). eauto.
Qed.

Lemma iter_empty fb k :
  buf_at fb [] -> (fb_lastPtr fb = None -> k = O) -> exists fb', rfb_iter fb k = (fb', ReadEOF).
Proof.
  intros [Hat|Hat] Hk.
  - pose proof (mem_iter_empty fb k Hat) as E. destruct (rfb_iter fb k). simpl in E. subst. eauto.
  - destruct (open_iter_last fb [] k Hat) as (fb' & _ & E); auto; [constructor|by apply not_elem_of_nil|].
    specialize (E eq_refl). destruct (rfb_iter fb k). simpl in E. subst. eauto.
Qed.

Lemma read_loop_spec n : forall fuel fb rest k,
  buf_at fb rest -> cstring rest -> (fb_lastPtr fb = None -> k = O) ->
  (length rest <= n)%nat -> (n + 2 <= fuel)%nat ->
  exists fb' r, rfb_loop fuel fb k = Some (fb', r) /\ read_step rest fb' r.
Proof.
  induction n as [|n IH]; intros [|f] fb rest k Hat Hc Hk Hlen Hf; try lia.
  { destruct rest; [|simpl in Hlen; lia]. destruct (iter_empty fb k Hat Hk) as [fb' E].
    cbn [rfb_loop]. rewrite E. by exists fb', ReadEOF. }
  cbn [rfb_loop]. destruct (lf_cases rest) as [(l & r & -> & Hl)|Hl].
  - destruct (iter_lf fb l r k Hat Hc Hl Hk) as (fb1 & -> & Hat1 & Hp1).
    apply cstring_app in Hc as [_ Hcr]. apply Forall_cons in Hcr as [_ Hcr].
    rewrite length_app in Hlen. cbn [length] in Hlen.
    unfold line_result, read_step. rewrite text_lines_lf, dangling_lf, length_app by done. cbn [length].
    destruct (is_comment (strip_cr l)).
    + destruct (IH f fb1 r (length (strip_cr l)) Hat1 Hcr ltac:(done) ltac:(lia) ltac:(lia))
        as (fb' & res & E' & Hs).
      exists fb', res. split; [done|]. unfold read_step in Hs.
      destruct (text_lines r); [done|]. destruct Hs as [-> [(r' & ? & ? & ? & ? & ? & ?)|?]]; split; auto.
      left. exists r'. split_and!; auto; lia.
    + exists fb1. eexists. split; [done|]. split; [done|]. left. exists r. split_and!; auto; lia.
  - destruct (decide (rest = [])) as [->|Hne].
    { destruct (iter_empty fb k Hat Hk) as [fb' ->]. by exists fb', ReadEOF. }
    destruct (iter_last fb rest k Hat Hc Hl Hk Hne) as (fb1 & -> & Hd).
    unfold line_result, read_step. rewrite text_lines_last, dangling_last by done.
    destruct (is_comment (strip_cr rest)) eqn:Ec.
    + destruct f as [|f]; [lia|]. simpl. rewrite mem_iter_fault by (auto using comment_nonempty).
      eauto.
    + exists fb1. eexists. split; [done|]. split; [done|]. right. done.
Qed.

Lemma read_lines_spec n : forall fuel fb rest,
  buf_at fb rest -> cstring rest -> (length rest <= n)%nat -> (n + 2 <= fuel)%nat ->
  read_lines fuel fb = Some (text_lines rest, negb (dangling_comment rest)).
Proof.
  induction n as [n IH] using lt_wf_ind. intros [|f] fb rest Hat Hc Hlen Hf; [lia|].
  destruct (read_loop_spec n (S f) fb rest 0 Hat Hc ltac:(done) Hlen Hf) as (fb' & r & E & Hs).
  cbn [read_lines]. unfold readFileBuffer. rewrite E. unfold read_step in Hs.
  destruct (text_lines rest) as [|l ls] eqn:Et.
  - subst r. by destruct (dangling_comment rest).
  - destruct Hs as [-> [(rest' & Hat' & _ & Hc' & <- & Hdc & Hlt)|(Hd & -> & Hdc)]].
    + destruct n as [|n]; [lia|].
      rewrite (IH n ltac:(lia) f fb' rest') by (auto; lia). by rewrite Hdc.
    + destruct f as [|f]; [lia|]. destruct (loop_done f fb' Hd) as (fb2 & E2).
      cbn [read_lines]. unfold readFileBuffer. rewrite E2. by rewrite Hdc.
Qed.

(** the data behind a file without its UTF-8 byte order mark *)
Definition strip_bom (data : bytes) : bytes :=
  if bool_decide (take 3 data = utf8_bom) then drop 3 data else data.

Lemma open_file_at (fd rewind : D) size :
  contents rewind = contents fd -> (1 < size)%nat -> lines_fit size (strip_bom (contents fd)) ->
  buf_at (openFileBuffer fd rewind true size) (strip_bom (contents fd)).
Proof.
  intros Hr Hs Hfit. right. unfold openFileBuffer, strip_bom in *.
  destruct (dev_read_file fd 3) as (fd1 & E & Hc). rewrite E.
  case_bool_decide; [exists fd1, []|exists rewind, []]; cbn; rewrite length_replicate;
    split_and!; auto; congruence.
Qed.
End ReadAll.

(** ** Correctness of writing

    What is promised of a descriptor opened for writing: a write that reports
    success has appended the bytes, a close that reports success kept them. *)
Class AppendDevice (D : Type) `{!Device D} := {
  written : D -> bytes;
  dev_write_ok d b d' : dev_write d b = (true, d') -> written d' = written d ++ b;
  dev_close_ok d d' : dev_close d = (true, d') -> written d' = written d;
}.

Section Write.
Context {D : Type} `{!Device D} `{!AppendDevice D}.
Implicit Types fb : file_buffer D.

(** the state after [data] has been queued on a buffer opened at [d0] *)
Definition write_at (d0 : D) fb (data : bytes) : Prop :=
  exists d flushed,
    fb_fd fb = Some d /\ fb_readonly fb = false /\
    fb_lastPtr fb = Some (fb_available fb) /\
    (fb_available fb <= fb_size fb)%nat /\ length (fb_buf fb) = fb_size fb /\
    data = flushed ++ take (fb_available fb) (fb_buf fb) /\
    fb_totalQueued fb = (length flushed + fb_available fb)%nat /\
    (fb_writeError fb = false -> written d = written d0 ++ flushed).

Lemma write_open d0 size : write_at d0 (openFileBuffer d0 d0 false size) [].
Proof.
  exists d0, []. cbn. rewrite length_replicate. split_and!; try done; [lia|].
  by rewrite app_nil_r.
Qed.

Lemma write_step d0 fb data chunk :
  write_at d0 fb data -> write_at d0 (writeFileBuffer fb chunk) (data ++ chunk).
Proof.
  intros (d & fl & Hfd & Hro & Hp & Hav & Hlen & Hdata & Htot & Hw).
  unfold writeFileBuffer. rewrite Hfd, Hp. cbn [default from_option id].
  (* the flush leaves [flushed'] on the device and the rest buffered *)
  assert (exists d1 err1 avail fl1,
    (if negb (Nat.eqb (fb_available fb) 0) && Nat.ltb (fb_size fb) (fb_available fb + length chunk) then
       let '(ok, fd') := dev_write d (take (fb_available fb) (fb_buf fb)) in
       (fd', fb_writeError fb || negb ok, O, O)
     else (d, fb_writeError fb, fb_available fb, fb_available fb)) = (d1, err1, avail, avail) /\
    data = fl1 ++ take avail (fb_buf fb) /\ (avail <= fb_available fb)%nat /\
    fb_totalQueued fb = (length fl1 + avail)%nat /\
    ((length chunk <= fb_size fb)%nat -> (avail + length chunk <= fb_size fb)%nat) /\
    ((fb_size fb < length chunk)%nat -> avail = O) /\
    (err1 = false -> written d1 = written d0 ++ fl1)) as
    (d1 & err1 & avail & fl1 & -> & Hd1 & Ha1 & Ht1 & Hfit & Hbig & Hw1).
  { destruct (negb _ && _) eqn:Hc.
    - b2p. destruct (dev_write d _) as [ok d1] eqn:Ew.
      exists d1, (fb_writeError fb || negb ok), O, data. rewrite take_0, app_nil_r.
      split_and!; try done; try lia.
      + rewrite Hdata, length_app, length_take. lia.
      + intros Herr. apply orb_false_elim in Herr as [He Hok]. apply negb_false_iff in Hok. subst ok.
        rewrite (dev_write_ok _ _ _ Ew), Hw, Hdata by done. by rewrite app_assoc.
    - exists d, (fb_writeError fb), (fb_available fb), fl.
      apply andb_false_iff in Hc. split_and!; try done.
      + destruct Hc; b2p; lia.
      + destruct Hc; b2p; lia. }
  destruct (Nat.ltb_spec (fb_size fb) (length chunk)) as [Hb|Hs].
  - rewrite Hbig in * by done. destruct (dev_write d1 chunk) as [ok d2] eqn:Ew.
    exists d2, (data ++ chunk). cbn. rewrite take_0, app_nil_r in *. subst fl1.
    split_and!; try done; try lia.
    + rewrite length_app. lia.
    + intros Herr. apply orb_false_elim in Herr as [He Hok]. apply negb_false_iff in Hok. subst ok.
      rewrite (dev_write_ok _ _ _ Ew), Hw1 by done. by rewrite app_assoc.
  - destruct (blit_append (fb_buf fb) avail chunk) as [Hb1 Hb2]; [lia|].
    exists d1, fl1. cbn. rewrite Hb1, Hb2. split_and!; try done; try lia.
    + by rewrite Hd1, app_assoc.
Qed.

Lemma write_all d0 fb data chunks :
  write_at d0 fb data -> write_at d0 (writeAll fb chunks) (data ++ concat chunks).
Proof.
  revert fb data. induction chunks as [|c cs IH]; intros fb data H; simpl.
  - by rewrite app_nil_r.
  - rewrite app_assoc. apply IH, write_step, H.
Qed.

Lemma close_spec d0 fb data :
  write_at d0 fb data ->
  exists r d', closeFileBuffer fb = (r, Some d') /\ (r = 0 \/ r = -1) /\
               (r = 0 -> written d' = written d0 ++ data).
Proof.
  intros (d & fl & Hfd & Hro & Hp & Hav & Hlen & Hdata & Htot & Hw).
  unfold closeFileBuffer. rewrite Hfd, Hro. cbn [negb andb].
  destruct (Nat.eqb_spec (fb_available fb) 0) as [Ea|Ea]; cbn [negb].
  - rewrite Ea, take_0, app_nil_r in Hdata. subst fl.
    destruct (dev_close d) as [okc d2] eqn:Ec. eexists _, _. split; [done|].
    destruct (fb_writeError fb), okc; cbn; (split; [by auto|]); try done. intros _.
    by rewrite (dev_close_ok _ _ Ec), Hw.
  - destruct (dev_write d _) as [ok d1] eqn:Ew. destruct (dev_close d1) as [okc d2] eqn:Ec.
    eexists _, _. split; [done|].
    destruct (fb_writeError fb), ok, okc; cbn; (split; [by auto|]); try done. intros _.
    rewrite (dev_close_ok _ _ Ec), (dev_write_ok _ _ _ Ew), Hw, Hdata by done. by rewrite app_assoc.
Qed.

(** when the whole content is still queued the block holds it (configWrite's
    capture of the intended bytes relies on it) *)
Lemma write_capture d0 fb data :
  write_at d0 fb data -> fb_totalQueued fb = fb_available fb ->
  take (fb_available fb) (fb_buf fb) = data.
Proof.
  intros (d & fl & _ & _ & _ & _ & _ & Hdata & Htot & _) E.
  assert (fl = []) as -> by (apply length_zero_iff_nil; lia). done.
Qed.
End Write.

(** ** An in-memory file: the devices the witnesses run on *)

Record memfile := MemFile { mf_rest : bytes; mf_out : bytes; mf_fail : bool }.

#[export] Instance memfile_device : Device memfile := {
  dev_read d n := (Some (take n (mf_rest d)), MemFile (drop n (mf_rest d)) (mf_out d) (mf_fail d));
  dev_write d b := if mf_fail d then (false, d)
                   else (true, MemFile (mf_rest d) (mf_out d ++ b) (mf_fail d));
  dev_close d := (true, d);
}.

#[export, refine] Instance memfile_file : FileDevice memfile := { contents := mf_rest }.
Proof. intros [r o f] n. cbn. eauto. Defined.

#[export, refine] Instance memfile_append : AppendDevice memfile := { written := mf_out }.
Proof.
  - intros [r o []] b d'; cbn; [done|]. by intros [= <-].
  - intros d d'. by intros [= <-].
Defined.

(** ** Properties *)

(** C13. The lines [readFileBuffer] hands out from a file read through a block
    that holds its longest line are exactly the text lines of the file without
    its byte order mark (split at LF, CR stripped, comment lines dropped), and
    the loop ends at the end of the file, except when the last line is a comment
    that no LF ends: then the next pass of the loop reads through the NULL
    [lastPtr]. *)
Theorem read_file_lines {D} `{!Device D} `{!FileDevice D} (fd rewind : D) (size fuel : nat) :
  contents rewind = contents fd ->
  (1 < size)%nat -> cstring (contents fd) -> lines_fit size (strip_bom (contents fd)) ->
  (length (contents fd) + 2 <= fuel)%nat ->
  read_lines fuel (openFileBuffer fd rewind true size) =
    Some (text_lines (strip_bom (contents fd)), negb (dangling_comment (strip_bom (contents fd)))).
Proof.
  intros Hr Hs Hc Hfit Hfuel.
  assert (Hlen : (length (strip_bom (contents fd)) <= length (contents fd))%nat).
  { unfold strip_bom. case_bool_decide; rewrite ?length_drop; lia. }
  apply (read_lines_spec (length (contents fd))); auto using open_file_at.
  unfold strip_bom. case_bool_decide; [by apply Forall_drop|done].
Qed.

(** reading the same bytes from memory gives the same lines *)
Lemma read_memory_lines {D} `{!Device D} `{!FileDevice D} (data : bytes) (fuel : nat) :
  cstring data -> (length data + 2 <= fuel)%nat ->
  read_lines fuel (@openFileBufferBuffer D data) =
    Some (text_lines data, negb (dangling_comment data)).
Proof.
  intros Hc Hfuel. apply (read_lines_spec (length data)); auto. left. apply mem_open.
Qed.

(** A buffered write that [closeFileBuffer] reports as successful has put
    exactly the queued bytes, in order, behind what the descriptor held. *)
Theorem write_close_success {D} `{!Device D} `{!AppendDevice D} (fd : D) size chunks :
  exists r d', closeFileBuffer (writeAll (openFileBuffer fd fd false size) chunks) = (r, Some d') /\
    (r = 0 \/ r = -1) /\ (r = 0 -> written d' = written fd ++ concat chunks).
Proof. apply (close_spec fd), (write_all fd _ []), write_open. Qed.

(** ** Witnesses *)

Definition sample_cfg : bytes := bs "# saved by the menu" ++ [13; 10] ++ bs "vmode=3" ++ [13; 10] ++ bs "theme=<OPL>".

Lemma read_file_lines_witness :
  read_lines 100 (openFileBuffer (MemFile (utf8_bom ++ sample_cfg) [] false)
                                 (MemFile (utf8_bom ++ sample_cfg) [] false) true 24)
  = Some ([bs "vmode=3"; bs "theme=<OPL>"], true).
Proof.
  eapply eq_trans; [apply (read_file_lines (MemFile (utf8_bom ++ sample_cfg) [] false))|].
  - done.
  - lia.
  - by apply (bool_decide_unpack _).
  - by apply (bool_decide_unpack _).
  - vm_compute. lia.
  - by vm_compute.
Defined.
