(* ===== verification/ConfigStore.v ===== *)
(** * ConfigStore: the in-memory settings store of src/config.c

    A [config_set_t] is a singly linked list of key/value records with a tail
    pointer; the model keeps the list. Allocation is taken to succeed. *)
From S2P Require Import Prelude CLib.

(** ** Data (include/config.h) *)

Definition CONFIG_KEY_NAME_LEN : nat := 32.
Definition CONFIG_KEY_VALUE_LEN : nat := 256.

Inductive cfg_fmt := CFG_FMT_LEGACY | CFG_FMT_LIBCONFIG.
#[export] Instance cfg_fmt_eq_dec : EqDecision cfg_fmt.
Proof. solve_decision. Defined.

Record config_value := CV { cv_key : bytes; cv_val : bytes }.
#[export] Instance config_value_eq_dec : EqDecision config_value.
Proof. solve_decision. Defined.

Record config_set := CS {
  cs_type : Z;
  cs_items : list config_value;
  cs_filename : option bytes;
  cs_modified : bool;
  cs_format : cfg_fmt;
  cs_uid : Z;
}.

Definition set_items (f : list config_value -> list config_value) (cs : config_set) : config_set :=
  CS (cs_type cs) (f (cs_items cs)) (cs_filename cs) (cs_modified cs) (cs_format cs) (cs_uid cs).
Definition set_modified (b : bool) (cs : config_set) : config_set :=
  CS (cs_type cs) (cs_items cs) (cs_filename cs) b (cs_format cs) (cs_uid cs).
Definition set_format (f : cfg_fmt) (cs : config_set) : config_set :=
  CS (cs_type cs) (cs_items cs) (cs_filename cs) (cs_modified cs) f (cs_uid cs).
Definition set_filename (f : option bytes) (cs : config_set) : config_set :=
  CS (cs_type cs) (cs_items cs) f (cs_modified cs) (cs_format cs) (cs_uid cs).

Abbreviation CONFIG_ITEM_DNAS := (bs "$DNAS").
Abbreviation CONFIG_ITEM_VMC := (bs "$VMC").
Abbreviation CONFIG_ITEM_VMC_DISABLE := (bs "$VMCDisable").

(** ** Operations *)

Definition configKeyValidate (key : bytes) : bool :=
  if Nat.eqb (length key) 0 then false
  else match strchr key cEQ with None => true | Some _ => false end.

Definition allocConfigItem (key val : bytes) : config_value :=
  CV (bufcpy CONFIG_KEY_NAME_LEN key) (bufcpy CONFIG_KEY_VALUE_LEN val).

Definition addConfigValue (cs : config_set) (key val : bytes) : config_set :=
  set_items (fun l => l ++ [allocConfigItem key val]) cs.

(** [strncmp(val->key, name, sizeof(val->key)) == 0] *)
Definition key_matches (name : bytes) (it : config_value) : bool :=
  strneq (cv_key it) name CONFIG_KEY_NAME_LEN.

Definition getConfigItemForName (cs : config_set) (name : bytes) : option nat :=
  find_index (key_matches name) (cs_items cs).

Definition hash_key (key : bytes) : bool := bool_decide (head key = Some cHASH).

(** the allocated set of [configAlloc]; [uid] is [++currentUID] *)
Definition configAlloc (uid type : Z) (fileName : option bytes) : config_set :=
  CS type [] fileName false CFG_FMT_LEGACY uid.

Definition configMove (cs : config_set) (fileName : bytes) : config_set :=
  set_filename (Some fileName) cs.

Definition configClear (cs : config_set) : config_set :=
  set_modified true (set_items (fun _ => []) cs).

Definition configSetStr (cs : config_set) (key value : bytes) : bool * config_set :=
  if negb (configKeyValidate key) then (false, cs)
  else match getConfigItemForName cs key with
       | Some i =>
         match cs_items cs !! i with
         | Some it =>
           if negb (strneq (cv_val it) value CONFIG_KEY_VALUE_LEN) then
             let cs1 := set_items (fun l => <[i := CV (cv_key it) (bufcpy CONFIG_KEY_VALUE_LEN value)]> l) cs in
             (true, if hash_key (cv_key it) then cs1 else set_modified true cs1)
           else (true, cs)
         | None => (true, cs)
         end
       | None =>
         let cs1 := addConfigValue cs key value in
         (true, if hash_key key then cs1 else set_modified true cs1)
       end.

Definition configGetStr (cs : config_set) (key : bytes) : option bytes :=
  if negb (configKeyValidate key) then None
  else i ← getConfigItemForName cs key; cv_val <$> cs_items cs !! i.

(** the return value and the string left in [value[length]] *)
Definition configGetStrCopy (cs : config_set) (key : bytes) (len : nat) : Z * bytes :=
  match configGetStr cs key with
  | Some v => (1, bufcpy len v)
  | None => (0, [])
  end.

Definition configSetInt (cs : config_set) (key : bytes) (value : Z) : bool * config_set :=
  configSetStr cs key (bufcpy 12 (fmt_d value)).

Definition configGetInt (cs : config_set) (key : bytes) : option Z :=
  atoi <$> configGetStr cs key.

(** fromHex of src/util.c *)
Definition fromHex (digit : Z) : Z :=
  if between 48 digit 57 then digit - 48
  else if between 65 digit 70 then digit - 65 + 10
  else if between 97 digit 102 then digit - 97 + 10
  else -1.

(** toHex of src/util.c *)
Definition htab : bytes := bs "0123456789ABCDEF".
Definition toHex (digit : Z) : Z := default 0 (htab !! Z.to_nat (Z.land digit 15)).

(** the loop of [strToColor] from a position, with [cnt], [n] and [color] *)
Fixpoint strToColor_loop (s : bytes) (cnt : Z) (n : nat) (color : list Z) : list Z :=
  match s with
  | [] => color
  | c :: r =>
    let fh := fromHex c in
    if 0 <=? fh then
      if Nat.leb 3 n then color
      else
        let color := <[n := u8 (color !!! n * 16 + fh)]> color in
        if cnt =? 1 then strToColor_loop r 0 (S n) color else strToColor_loop r (cnt + 1) n color
    else color
  end.

(** return value and the three bytes of [color] *)
Definition strToColor (string : option bytes) : Z * list Z :=
  match string with
  | Some (c :: r) => if negb (c =? cHASH) then (0, [0; 0; 0]) else (1, strToColor_loop r 0 0 [0; 0; 0])
  | _ => (0, [0; 0; 0])
  end.

Definition configSetColor (cs : config_set) (key : bytes) (color : list Z) : bool * config_set :=
  configSetStr cs key
    (bufcpy 8 (cHASH :: fmt_02X (color !!! 0%nat) ++ fmt_02X (color !!! 1%nat) ++ fmt_02X (color !!! 2%nat))).

Definition configGetColor (cs : config_set) (key : bytes) : option (list Z) :=
  (fun v => snd (strToColor (Some v))) <$> configGetStr cs key.

Definition configRemoveKey (cs : config_set) (key : bytes) : bool * config_set :=
  if negb (configKeyValidate key) then (false, cs)
  else
    let hit := existsb (key_matches key) (cs_items cs) in
    let cs1 := set_items (base.filter (fun it => key_matches key it = false)) cs in
    (true, if hit && negb (hash_key key) then set_modified true cs1 else cs1).

Definition configMerge (dest source : config_set) : config_set :=
  fold_left (fun d it => snd (configSetStr d (cv_key it) (cv_val it))) (cs_items source) dest.

Definition configClone (uid : Z) (src : config_set) : config_set :=
  set_modified false
    (fold_left (fun d it => addConfigValue d (cv_key it) (cv_val it)) (cs_items src)
       (configAlloc uid (cs_type src) (cs_filename src))).

Definition configGetByType (files : list config_set) (type : Z) : option nat :=
  find_index (fun cs => cs_type cs =? type) files.

(** one step of the inner [while (dv < 0 && *gid)]: the next hex digit *)
Fixpoint next_hex (gid : bytes) : option (Z * bytes) :=
  match gid with
  | [] => None
  | c :: r => if fromHex c <? 0 then next_hex r else Some (fromHex c, r)
  end.

(** the outer loop with [p] and the binary [dst]; [cdst] is at [p / 2] *)
Fixpoint discid_loop (fuel : nat) (gid : bytes) (p : nat) (dst : list Z) : list Z :=
  match fuel with
  | O => dst
  | S f =>
    if bool_decide (gid = []) || Nat.leb 10 p then dst
    else match next_hex gid with
         | None => dst
         | Some (dv, r) =>
           discid_loop f r (S p) (<[(p / 2)%nat := u8 (dst !!! (p / 2)%nat * 16 + dv)]> dst)
         end
  end.

(** at most ten digits are consumed, so ten passes and the test that ends the loop *)
Definition configGetDiscIDBinary (cs : config_set) : list Z :=
  match configGetStr cs CONFIG_ITEM_DNAS with
  | Some gid => discid_loop 11 gid 0 (replicate 5 0)
  | None => replicate 5 0
  end.

(** "%s_%d" into a key buffer *)
Definition slot_key (prefix : bytes) (slot : Z) : bytes :=
  bufcpy CONFIG_KEY_NAME_LEN (prefix ++ [cUSCORE] ++ fmt_d slot).

Definition configGetVMC (cs : config_set) (len : nat) (slot : Z) : bytes :=
  snd (configGetStrCopy cs (slot_key CONFIG_ITEM_VMC slot) len).
Definition configRemoveVMC (cs : config_set) (slot : Z) : config_set :=
  snd (configRemoveKey cs (slot_key CONFIG_ITEM_VMC slot)).
Definition configSetVMC (cs : config_set) (vmc : bytes) (slot : Z) : config_set :=
  if bool_decide (vmc = []) then configRemoveVMC cs slot
  else snd (configSetStr cs (slot_key CONFIG_ITEM_VMC slot) vmc).
Definition configGetVMCDisable (cs : config_set) (slot disabled : Z) : Z :=
  default disabled (configGetInt cs (slot_key CONFIG_ITEM_VMC_DISABLE slot)).
Definition configRemoveVMCDisable (cs : config_set) (slot : Z) : config_set :=
  snd (configRemoveKey cs (slot_key CONFIG_ITEM_VMC_DISABLE slot)).
Definition configSetVMCDisable (cs : config_set) (slot disabled : Z) : config_set :=
  if disabled =? 0 then configRemoveVMCDisable cs slot
  else snd (configSetInt cs (slot_key CONFIG_ITEM_VMC_DISABLE slot) disabled).

(** ** What the store is: a finite map of short keys to short values *)

Definition key_ok (key : bytes) : Prop := configKeyValidate key = true /\ (length key < CONFIG_KEY_NAME_LEN)%nat.

Definition cv_ok (it : config_value) : Prop :=
  key_ok (cv_key it) /\ (length (cv_val it) < CONFIG_KEY_VALUE_LEN)%nat.

Definition cs_ok (cs : config_set) : Prop :=
  Forall cv_ok (cs_items cs) /\ NoDup (cv_key <$> cs_items cs).

Definition items_map (l : list config_value) : gmap bytes bytes :=
  list_to_map ((fun it => (cv_key it, cv_val it)) <$> l).
Definition cs_map (cs : config_set) : gmap bytes bytes := items_map (cs_items cs).

(** what a client of a settings store relies on *)
Class SettingsStore (S : Type) := {
  ss_ok : S -> Prop;
  ss_map : S -> gmap bytes bytes;
  ss_get : S -> bytes -> option bytes;
  ss_set : S -> bytes -> bytes -> S;
  ss_del : S -> bytes -> S;
  ss_get_map s k : ss_ok s -> key_ok k -> ss_get s k = ss_map s !! k;
  ss_set_ok s k v : ss_ok s -> key_ok k -> ss_ok (ss_set s k v);
  ss_set_map s k v : ss_ok s -> key_ok k -> ss_map (ss_set s k v) = <[k := take 255 v]> (ss_map s);
  ss_del_ok s k : ss_ok s -> key_ok k -> ss_ok (ss_del s k);
  ss_del_map s k : ss_ok s -> key_ok k -> ss_map (ss_del s k) = delete k (ss_map s);
}.

(** ** Lemmas *)

Lemma key_matches_eq name it :
  (length name < CONFIG_KEY_NAME_LEN)%nat -> (length (cv_key it) < CONFIG_KEY_NAME_LEN)%nat ->
  key_matches name it = bool_decide (cv_key it = name).
Proof. intros H1 H2. unfold key_matches, strneq. by rewrite !take_ge by lia. Qed.

Lemma key_matches_long name it :
  (CONFIG_KEY_NAME_LEN <= length name)%nat -> (length (cv_key it) < CONFIG_KEY_NAME_LEN)%nat ->
  key_matches name it = false.
Proof.
  intros H1 H2. unfold key_matches, strneq. apply bool_decide_eq_false. intros E.
  apply (f_equal length) in E. rewrite !length_take in E. lia.
Qed.

Lemma cv_ok_length it : cv_ok it -> (length (cv_key it) < CONFIG_KEY_NAME_LEN)%nat.
Proof. by intros [[_ ?] _]. Qed.
#[export] Hint Resolve cv_ok_length : core.

Lemma find_key_None l name :
  Forall cv_ok l -> (length name < CONFIG_KEY_NAME_LEN)%nat ->
  find_index (key_matches name) l = None <-> (name ∉ cv_key <$> l).
Proof.
  intros Hok Hn. rewrite find_index_None, !Forall_forall in *.
  rewrite list_elem_of_fmap. split.
  - intros H (it & -> & Hin). specialize (H it Hin).
    rewrite key_matches_eq, bool_decide_eq_false in H by auto. done.
  - intros H it Hin. rewrite key_matches_eq by auto. apply bool_decide_eq_false. intros E. eauto.
Qed.

Lemma find_key_Some l name i :
  Forall cv_ok l -> (length name < CONFIG_KEY_NAME_LEN)%nat ->
  find_index (key_matches name) l = Some i -> exists it, l !! i = Some it /\ cv_key it = name.
Proof.
  intros Hok Hn H. apply find_index_Some in H as [(it & Hit & Hm) _]. exists it. split; [done|].
  rewrite key_matches_eq, bool_decide_eq_true in Hm; auto.
  apply cv_ok_length. by apply (Forall_lookup_1 _ _ _ _ Hok Hit).
Qed.

Lemma items_map_lookup l i it :
  NoDup (cv_key <$> l) -> l !! i = Some it -> items_map l !! cv_key it = Some (cv_val it).
Proof.
  intros Hnd Hi. unfold items_map. apply elem_of_list_to_map_1.
  - by rewrite <- list_fmap_compose.
  - apply list_elem_of_fmap. exists it. split; [done|]. by apply list_elem_of_lookup_2 in Hi.
Qed.

Lemma items_map_None l k : (k ∉ cv_key <$> l) -> items_map l !! k = None.
Proof. intros H. apply not_elem_of_list_to_map_1. by rewrite <- list_fmap_compose. Qed.

Lemma items_map_insert l i it v :
  NoDup (cv_key <$> l) -> l !! i = Some it ->
  items_map (<[i := CV (cv_key it) v]> l) = <[cv_key it := v]> (items_map l).
Proof.
  revert i. induction l as [|x l IH]; intros i Hnd Hi; [done|].
  cbn [fmap list_fmap] in Hnd. apply NoDup_cons in Hnd as [Hx Hnd].
  destruct i as [|i]; simpl in Hi.
  - injection Hi as ->. unfold items_map. cbn. by rewrite insert_insert_eq.
  - unfold items_map in *. cbn. rewrite IH by done. apply insert_insert_ne.
    intros E. apply Hx. rewrite E. apply list_elem_of_fmap. exists it. split; [done|].
    by apply list_elem_of_lookup_2 in Hi.
Qed.

Lemma items_map_snoc l k v :
  (k ∉ cv_key <$> l) -> items_map (l ++ [CV k v]) = <[k := v]> (items_map l).
Proof.
  induction l as [|x l IH]; intros Hk; [done|].
  cbn [fmap list_fmap] in Hk. apply not_elem_of_cons in Hk as [Hne Hk].
  unfold items_map in *. cbn. rewrite IH by done. by apply insert_insert_ne.
Qed.

Lemma items_map_filter l name :
  Forall cv_ok l -> (length name < CONFIG_KEY_NAME_LEN)%nat ->
  items_map (base.filter (fun it => key_matches name it = false) l) = delete name (items_map l).
Proof.
  intros Hok Hn. induction Hok as [|x l Hx Hok IH].
  { unfold items_map. cbn. by rewrite delete_empty. }
  rewrite filter_cons, key_matches_eq by auto. unfold items_map in *. cbn [fmap list_fmap].
  destruct (decide (cv_key x = name)) as [<-|Hne].
  - rewrite bool_decide_eq_true_2, decide_False by done. rewrite IH. cbn [list_to_map foldr fst snd].
    by rewrite delete_insert_eq.
  - rewrite bool_decide_eq_false_2, decide_True by done. cbn [fmap list_fmap list_to_map foldr fst snd].
    rewrite delete_insert_ne by done. f_equal. exact IH.
Qed.

Lemma insert_same_keys (l : list config_value) i it v :
  l !! i = Some it -> cv_key <$> <[i := CV (cv_key it) v]> l = cv_key <$> l.
Proof.
  intros Hi. rewrite list_fmap_insert. cbn. apply list_insert_id. by rewrite list_lookup_fmap, Hi.
Qed.

(** the two outcomes of setting a short key *)
Lemma configSetStr_items cs k v :
  cs_ok cs -> key_ok k ->
  let cs' := snd (configSetStr cs k v) in
  (exists i it, cs_items cs !! i = Some it /\ cv_key it = k /\
     cs_items cs' = <[i := CV k (bufcpy CONFIG_KEY_VALUE_LEN v)]> (cs_items cs)) \/
  ((k ∉ cv_key <$> cs_items cs) /\
     cs_items cs' = cs_items cs ++ [CV k (bufcpy CONFIG_KEY_VALUE_LEN v)]).
Proof.
  intros [Hok Hnd] [Hk Hl]. cbn. unfold configSetStr. rewrite Hk. cbn [negb].
  unfold getConfigItemForName.
  destruct (find_index (key_matches k) (cs_items cs)) as [i|] eqn:F.
  - destruct (find_key_Some _ _ _ Hok Hl F) as (it & Hi & <-). rewrite Hi. left.
    exists i, it. split; [done|]. split; [done|].
    unfold strneq. case_bool_decide as E; cbn [negb snd].
    + symmetry. apply list_insert_id. rewrite Hi. f_equal. destruct it as [k0 v0]. cbn in *.
      f_equal. unfold bufcpy. pose proof (Forall_lookup_1 _ _ _ _ Hok Hi) as [_ Hv]. cbn in Hv.
      unfold CONFIG_KEY_VALUE_LEN in *. rewrite (take_ge v0) in E by lia.
      assert (length v < 256)%nat.
      { apply (f_equal length) in E. rewrite length_take in E. lia. }
      rewrite (take_ge v) in E by lia. rewrite take_ge by lia. done.
    + destruct (hash_key _); done.
  - right. apply find_key_None in F; auto. split; [done|].
    destruct (hash_key k); cbn; unfold allocConfigItem; by rewrite (bufcpy_id CONFIG_KEY_NAME_LEN k).
Qed.

Lemma configSetStr_ok cs k v : cs_ok cs -> key_ok k -> cs_ok (snd (configSetStr cs k v)).
Proof.
  intros Hcs Hk. pose proof Hcs as [Hok Hnd].
  assert (Hit : cv_ok (CV k (bufcpy CONFIG_KEY_VALUE_LEN v))).
  { split; [done|]. cbn. apply bufcpy_length. unfold CONFIG_KEY_VALUE_LEN. lia. }
  destruct (configSetStr_items cs k v Hcs Hk) as [(i & it & Hi & <- & E)|[Hn E]];
    unfold cs_ok; rewrite E; split.
  - by apply Forall_insert.
  - by rewrite insert_same_keys.
  - apply Forall_app. by split; [|constructor].
  - rewrite fmap_app. apply NoDup_app. split; [done|]. split; [|apply NoDup_singleton].
    cbn. intros x Hx Hx'. apply list_elem_of_singleton in Hx' as ->. done.
Qed.

Lemma configSetStr_map cs k v :
  cs_ok cs -> key_ok k -> cs_map (snd (configSetStr cs k v)) = <[k := take 255 v]> (cs_map cs).
Proof.
  intros Hcs Hk. unfold cs_map.
  destruct (configSetStr_items cs k v Hcs Hk) as [(i & it & Hi & <- & E)|[Hn E]]; rewrite E.
  - apply items_map_insert; [apply Hcs|done].
  - by apply items_map_snoc.
Qed.

Lemma configGetStr_map cs k : cs_ok cs -> key_ok k -> configGetStr cs k = cs_map cs !! k.
Proof.
  intros [Hok Hnd] [Hk Hl]. unfold configGetStr. rewrite Hk. cbn [negb].
  unfold getConfigItemForName. destruct (find_index _ _) as [i|] eqn:F; cbn [mbind option_bind].
  - destruct (find_key_Some _ _ _ Hok Hl F) as (it & Hi & <-). rewrite Hi. cbn.
    symmetry. by apply items_map_lookup with i.
  - symmetry. apply items_map_None. by apply find_key_None in F.
Qed.

Lemma configRemoveKey_items cs k :
  configKeyValidate k = true ->
  cs_items (snd (configRemoveKey cs k)) = base.filter (fun it => key_matches k it = false) (cs_items cs).
Proof. intros Hk. unfold configRemoveKey. rewrite Hk. cbn. by destruct (_ && _). Qed.

Lemma configRemoveKey_ok cs k : cs_ok cs -> key_ok k -> cs_ok (snd (configRemoveKey cs k)).
Proof.
  intros [Hok Hnd] [Hk Hl]. unfold cs_ok. rewrite configRemoveKey_items by done. split.
  - by apply Forall_filter.
  - eapply sublist_NoDup; [done|]. f_equiv. apply sublist_filter.
Qed.

Lemma configRemoveKey_map cs k :
  cs_ok cs -> key_ok k -> cs_map (snd (configRemoveKey cs k)) = delete k (cs_map cs).
Proof.
  intros [Hok Hnd] [Hk Hl]. unfold cs_map. rewrite configRemoveKey_items by done.
  by apply items_map_filter.
Qed.

(** the settings store is implemented by a configuration set *)
#[export, refine] Instance config_settings : SettingsStore config_set := {
  ss_ok := cs_ok;
  ss_map := cs_map;
  ss_get := configGetStr;
  ss_set cs k v := snd (configSetStr cs k v);
  ss_del cs k := snd (configRemoveKey cs k);
}.
Proof.
  - exact configGetStr_map.
  - exact configSetStr_ok.
  - exact configSetStr_map.
  - exact configRemoveKey_ok.
  - exact configRemoveKey_map.
Defined.

(** *** Keys the fixed-size record cannot hold *)

(** a key of 32 bytes or more is stored truncated and never found again *)
Lemma configSetStr_long cs k v :
  Forall cv_ok (cs_items cs) -> configKeyValidate k = true -> (CONFIG_KEY_NAME_LEN <= length k)%nat ->
  cs_items (snd (configSetStr cs k v)) = cs_items cs ++ [allocConfigItem k v].
Proof.
  intros Hok Hk Hl. unfold configSetStr. rewrite Hk. cbn [negb]. unfold getConfigItemForName.
  rewrite (proj2 (find_index_None (key_matches k) (cs_items cs))).
  - by destruct (hash_key k).
  - eapply Forall_impl; [exact Hok|]. intros it Hit. apply key_matches_long; auto.
Qed.

Lemma strchr_take k n c : strchr k c = None -> strchr (take n k) c = None.
Proof.
  rewrite !strchr_None. intros H Hin. apply H. by apply elem_of_take in Hin as (i & ? & _);
  eapply list_elem_of_lookup_2.
Qed.

Lemma allocConfigItem_ok k v : configKeyValidate k = true -> cv_ok (allocConfigItem k v).
Proof.
  unfold configKeyValidate, allocConfigItem, cv_ok, key_ok, configKeyValidate.
  destruct (Nat.eqb_spec (length k) 0) as [|Hne]; [done|].
  destruct (strchr k cEQ) eqn:F; [done|]. intros _. cbn [cv_key cv_val].
  pose proof (bufcpy_length CONFIG_KEY_NAME_LEN k) as H1.
  pose proof (bufcpy_length CONFIG_KEY_VALUE_LEN v) as H2.
  unfold CONFIG_KEY_NAME_LEN, CONFIG_KEY_VALUE_LEN in *. split; [split; [|lia]|lia].
  unfold bufcpy in *. rewrite (strchr_take _ _ _ F). rewrite length_take.
  by destruct (Nat.eqb_spec (Nat.min (32 - 1) (length k)) 0); [lia|].
Qed.

(** *** Numbers and colours *)

Lemma fromHex_hex_digit d : 0 <= d < 16 -> fromHex (hex_digit d) = d.
Proof.
  intros H. unfold fromHex, hex_digit, between.
  destruct (Z.ltb_spec d 10).
  - replace ((48 <=? 48 + d) && (48 + d <=? 57)) with true by lia. lia.
  - replace ((48 <=? 55 + d) && (55 + d <=? 57)) with false by lia.
    replace ((65 <=? 55 + d) && (55 + d <=? 70)) with true by lia. lia.
Qed.

Lemma hex_pair b : 0 <= b < 256 ->
  fromHex (hex_digit (b / 16)) = b / 16 /\ fromHex (hex_digit (b mod 16)) = b mod 16 /\
  0 <= b / 16 < 16 /\ 0 <= b mod 16 < 16.
Proof.
  intros H. assert (0 <= b / 16 < 16) by (split; [apply Z.div_pos; lia|apply Z.div_lt_upper_bound; lia]).
  assert (0 <= b mod 16 < 16) by (apply Z.mod_pos_bound; lia).
  split_and!; try apply fromHex_hex_digit; lia.
Qed.

(** one "%02X" field read back into the colour component it was printed from *)
Lemma strToColor_field b rest n color :
  0 <= b < 256 -> (n < 3)%nat -> (n < length color)%nat -> color !!! n = 0 ->
  strToColor_loop (fmt_02X b ++ rest) 0 n color = strToColor_loop rest 0 (S n) (<[n := b]> color).
Proof.
  intros Hb Hn Hlen H0. destruct (hex_pair b Hb) as (E1 & E2 & R1 & R2).
  unfold fmt_02X. cbn [app strToColor_loop]. rewrite E1, E2.
  rewrite !(proj2 (Z.leb_le 0 _)) by lia. rewrite !(proj2 (Nat.leb_gt 3 n)) by lia.
  rewrite H0. change (0 =? 1) with false. change (0 + 1 =? 1) with true. cbv iota.
  rewrite list_lookup_total_insert_eq by done.
  rewrite list_insert_insert_eq. rewrite (u8_id (0 * 16 + b / 16)) by lia.
  rewrite u8_id by (pose proof (Z.div_mod b 16); lia).
  f_equal. f_equal. pose proof (Z.div_mod b 16). lia.
Qed.

(** ** Properties *)

(** C12. The settings store implements a finite map: on a well-formed set and for
    a key that fits the record, [configSetStr] is map insertion of the value cut
    to 255 bytes, [configGetStr] is lookup, [configRemoveKey] is deletion, and
    the set stays well formed (short valid keys, short values, no key twice). *)
Theorem config_store_refines_map cs k v :
  cs_ok cs -> key_ok k ->
  let cs1 := snd (configSetStr cs k v) in
  let cs2 := snd (configRemoveKey cs k) in
  configGetStr cs k = cs_map cs !! k /\
  cs_ok cs1 /\ cs_map cs1 = <[k := take 255 v]> (cs_map cs) /\
  cs_ok cs2 /\ cs_map cs2 = delete k (cs_map cs).
Proof.
  intros Hcs Hk. cbv zeta. split_and!.
  - by apply configGetStr_map.
  - by apply configSetStr_ok.
  - by apply configSetStr_map.
  - by apply configRemoveKey_ok.
  - by apply configRemoveKey_map.
Qed.

(** [configSetStr] with a key of 32 bytes or more (a prefixed theme key can
    have up to 63) reports success, appends a record with the key cut to 31
    bytes every time it is called, and the value cannot be read back. *)
Theorem configSetStr_long_key_lost cs k v :
  Forall cv_ok (cs_items cs) -> configKeyValidate k = true -> (CONFIG_KEY_NAME_LEN <= length k)%nat ->
  let cs' := snd (configSetStr cs k v) in
  fst (configSetStr cs k v) = true /\
  cs_items cs' = cs_items cs ++ [CV (take 31 k) (take 255 v)] /\
  configGetStr cs' k = None.
Proof.
  intros Hok Hk Hl. cbv zeta. pose proof (configSetStr_long cs k v Hok Hk Hl) as E.
  split_and!; [|exact E|].
  - unfold configSetStr. rewrite Hk. cbn [negb]. by repeat case_match.
  - unfold configGetStr, getConfigItemForName. rewrite Hk, E. cbn [negb].
    rewrite (proj2 (find_index_None (key_matches k) _)); [done|].
    apply Forall_app. split; [|constructor; [|constructor]].
    + eapply Forall_impl; [exact Hok|]. intros it Hit. apply key_matches_long; auto.
    + apply key_matches_long; [done|]. apply cv_ok_length, allocConfigItem_ok, Hk.
Qed.

(** Typed values survive the store: an int written with [configSetInt] is
    the int [configGetInt] returns, and the three bytes of a colour written with
    [configSetColor] are the ones [configGetColor] returns. *)
Theorem config_typed_roundtrip cs k (n : Z) (r g b : Z) :
  cs_ok cs -> key_ok k -> - 2 ^ 31 <= n < 2 ^ 31 ->
  0 <= r < 256 -> 0 <= g < 256 -> 0 <= b < 256 ->
  configGetInt (snd (configSetInt cs k n)) k = Some n /\
  configGetColor (snd (configSetColor cs k [r; g; b])) k = Some [r; g; b].
Proof.
  intros Hcs Hk Hn Hr Hg Hb.
  assert (Hget : forall v, (length v <= 255)%nat -> configGetStr (snd (configSetStr cs k v)) k = Some v).
  { intros v Hv. rewrite configGetStr_map by auto using configSetStr_ok.
    rewrite configSetStr_map, lookup_insert_eq by done. by rewrite take_ge. }
  pose proof (fmt_d_length n Hn) as Hlen. split.
  - unfold configGetInt, configSetInt. rewrite bufcpy_id by lia. rewrite Hget by lia.
    cbn. by rewrite atoi_fmt_d.
  - unfold configGetColor, configSetColor. cbn [lookup_total list_lookup_total].
    set (txt := cHASH :: _). assert (Htxt : length txt = 7%nat) by done.
    rewrite bufcpy_id by lia. rewrite Hget by lia. cbn [fmap option_fmap option_map]. f_equal.
    unfold strToColor, txt. change (cHASH =? cHASH) with true. cbn [negb snd].
    rewrite strToColor_field, strToColor_field by (try done; simpl; lia).
    rewrite <- (app_nil_r (fmt_02X _)), strToColor_field by (try done; simpl; lia). done.
Qed.

(** Merging is the union of the maps in which the source wins: every setting
    of the source is in the result, and a setting of the destination only the
    destination has is kept. *)
Theorem configMerge_union dest src :
  cs_ok dest -> cs_ok src ->
  cs_ok (configMerge dest src) /\ cs_map (configMerge dest src) = cs_map src ∪ cs_map dest.
Proof.
  intros Hd [Hok Hnd]. unfold configMerge, cs_map at 2.
  generalize (cs_items src), Hok, Hnd. clear src Hok Hnd. intros l. revert dest Hd.
  induction l as [|it l IH]; intros dest Hd Hok Hnd; cbn [fold_left].
  { split; [done|]. unfold items_map. cbn [fmap list_fmap list_to_map foldr]. symmetry. apply (left_id_L ∅ (∪)). }
  apply Forall_cons in Hok as [[Hk Hv] Hok]. cbn [fmap list_fmap] in Hnd. apply NoDup_cons in Hnd as [Hn Hnd].
  destruct (IH (snd (configSetStr dest (cv_key it) (cv_val it)))) as [IH1 IH2]; auto using configSetStr_ok.
  split; [done|]. rewrite IH2, configSetStr_map by done.
  unfold items_map. cbn [fmap list_fmap list_to_map foldr fst snd].
  fold (list_to_map (M := gmap bytes bytes) ((fun it => (cv_key it, cv_val it)) <$> l)). fold (items_map l).
  rewrite take_ge by (unfold CONFIG_KEY_VALUE_LEN in Hv; lia).
  rewrite <- insert_union_r by (by apply items_map_None). by apply insert_union_l.
Qed.

(** The dirty flag tells whether saving is needed: setting a value that fits
    marks the set modified exactly when the key is persistent (no '#') and its
    value really changed; removing a key marks it exactly when a persistent key
    was there. Neither ever clears the flag. *)
Theorem config_dirty_flag cs k v :
  cs_ok cs -> key_ok k -> (length v < CONFIG_KEY_VALUE_LEN)%nat ->
  cs_modified (snd (configSetStr cs k v)) =
    cs_modified cs || negb (hash_key k) && bool_decide (configGetStr cs k <> Some v) /\
  cs_modified (snd (configRemoveKey cs k)) =
    cs_modified cs || negb (hash_key k) && bool_decide (configGetStr cs k <> None).
Proof.
  intros Hcs [Hk Hl] Hv. pose proof Hcs as [Hok Hnd]. unfold configSetStr, configRemoveKey, configGetStr.
  rewrite Hk. cbn [negb]. unfold getConfigItemForName. split.
  - destruct (find_index (key_matches k) (cs_items cs)) as [i|] eqn:F; cbn [mbind option_bind].
    + destruct (find_key_Some _ _ _ Hok Hl F) as (it & Hi & <-). rewrite Hi. cbn [fmap option_fmap option_map].
      pose proof (Forall_lookup_1 _ _ _ _ Hok Hi) as [_ Hvi].
      unfold strneq. rewrite !take_ge by lia.
      case_bool_decide as E; cbn [negb].
      * rewrite bool_decide_eq_false_2 by congruence. by rewrite andb_false_r, orb_false_r.
      * rewrite bool_decide_eq_true_2 by congruence. destruct (hash_key _); cbn; by rewrite ?orb_false_r, ?orb_true_r.
    + rewrite bool_decide_eq_true_2 by done. destruct (hash_key _); cbn; by rewrite ?orb_false_r, ?orb_true_r.
  - destruct (existsb (key_matches k) (cs_items cs)) eqn:X.
    + rewrite (bool_decide_eq_true_2 (_ <> None)).
      * destruct (hash_key _); cbn; by rewrite ?orb_false_r, ?orb_true_r.
      * apply existsb_exists in X as (it & Hin & Hm).
        destruct (find_index (key_matches k) (cs_items cs)) as [i|] eqn:F; cbn [mbind option_bind].
        -- destruct (find_key_Some _ _ _ Hok Hl F) as (it' & Hi & _). by rewrite Hi.
        -- apply find_index_None in F. rewrite Forall_forall in F. apply list_elem_of_In in Hin.
           rewrite (F _ Hin) in Hm. done.
    + rewrite (bool_decide_eq_false_2 (_ <> None)).
      * cbn. by rewrite andb_false_r, orb_false_r.
      * intros Hx. apply Hx. rewrite (proj2 (find_index_None _ _)); [done|]. apply Forall_forall.
        intros it Hin. destruct (key_matches k it) eqn:M; [|done].
        assert (existsb (key_matches k) (cs_items cs) = true); [|congruence].
        apply existsb_exists. exists it. split; [by apply list_elem_of_In|done].
Qed.

(** ** Witnesses *)

Definition sample_set : config_set :=
  CS 2 [CV (bs "theme") (bs "blue"); CV (bs "#Name") (bs "Game")] None false CFG_FMT_LEGACY 1.

Lemma sample_set_ok : cs_ok sample_set.
Proof.
  split; [|by apply (bool_decide_unpack _)].
  repeat (apply Forall_cons; split); [..|apply Forall_nil_2]; by apply (bool_decide_unpack _).
Qed.

Lemma theme_key_ok : key_ok (bs "theme").
Proof. by apply (bool_decide_unpack _). Qed.

Lemma config_store_refines_map_witness :
  cs_map (snd (configSetStr sample_set (bs "theme") (bs "red"))) = <[bs "theme" := bs "red"]> (cs_map sample_set).
Proof. apply (config_store_refines_map sample_set (bs "theme") (bs "red")); [apply sample_set_ok|apply theme_key_ok]. Defined.

Definition long_key : bytes := bs "menu_background_animation_speed_x".

Lemma configSetStr_long_key_lost_witness :
  configGetStr (snd (configSetStr sample_set long_key (bs "1"))) long_key = None.
Proof.
  apply (configSetStr_long_key_lost sample_set long_key (bs "1"));
    [apply sample_set_ok|reflexivity|vm_compute; lia].
Defined.

Lemma config_typed_roundtrip_witness :
  configGetInt (snd (configSetInt sample_set (bs "theme") (-17))) (bs "theme") = Some (-17).
Proof.
  apply (config_typed_roundtrip sample_set (bs "theme") (-17) 1 2 255); try lia;
    [apply sample_set_ok|apply theme_key_ok].
Defined.

Lemma configMerge_union_witness :
  cs_map (configMerge (configClear sample_set) sample_set) = cs_map sample_set ∪ ∅.
Proof.
  apply (configMerge_union (configClear sample_set) sample_set); [by split; constructor|apply sample_set_ok].
Defined.

Lemma config_dirty_flag_witness :
  cs_modified (snd (configSetStr sample_set (bs "theme") (bs "blue"))) = false.
Proof.
  apply (config_dirty_flag sample_set (bs "theme") (bs "blue"));
    [apply sample_set_ok|apply theme_key_ok|vm_compute; lia].
Defined.
