(* ===== verification/ConfigFormat.v ===== *)
(** * ConfigFormat: the two on-disk syntaxes of a configuration set

    src/config.c reads OPL's own "key=value" lines and libconfig's
    "key = value;" lines, detects which one a file is in, and writes a file back
    in the syntax it was read in. *)
From S2P Require Import Prelude CLib FileBuffer ConfigStore.

(** ** Lines *)

Definition isWS (c : Z) : bool := (c =? cSP) || (c =? cTAB).

Definition skipWS (s : bytes) : bytes := dropwhile isWS s.
Definition trimWS (s : bytes) : bytes := rdropwhile isWS s.

Inductive cfg_line := CFG_LINE_BLANK | CFG_LINE_COMMENT | CFG_LINE_LEGACY | CFG_LINE_LIBCONFIG.
#[export] Instance cfg_line_eq_dec : EqDecision cfg_line.
Proof. solve_decision. Defined.

Definition ident_char (c : Z) : bool :=
  isalnum c || (c =? cUSCORE) || (c =? cMINUS) || (c =? cSTAR).

Definition cfgIsLibconfigIdent (s : bytes) : bool :=
  match s with
  | [] => false
  | c :: r => if negb (isalpha c) && negb (c =? cSTAR) then false else forallb ident_char r
  end.

(** [p[0] == '/' && (p[1] == '/' || p[1] == '*')] *)
Definition slash_comment (p : bytes) : bool :=
  match p with
  | c :: d :: _ => (c =? cSLASH) && ((d =? cSLASH) || (d =? cSTAR))
  | _ => false
  end.

Definition cfgClassifyLine (line : bytes) : cfg_line :=
  let p := skipWS line in
  match p with
  | [] => CFG_LINE_BLANK
  | c :: _ =>
    if c =? cHASH then CFG_LINE_COMMENT
    else if slash_comment p then CFG_LINE_COMMENT
    else
      let upto_end := trimWS p in
      match strchr p cEQ with
      | None => CFG_LINE_LEGACY
      | Some eq =>
        if Nat.leb (length upto_end) eq then CFG_LINE_LEGACY
        else if Nat.ltb 0 eq && isWS (p !!! (eq - 1)%nat) && bool_decide (last upto_end = Some cSEMI)
                && cfgIsLibconfigIdent (trimWS (take eq p))
        then CFG_LINE_LIBCONFIG
        else CFG_LINE_LEGACY
      end
  end.

(** key and value, when there is a '=' *)
Definition splitAssignment (line : bytes) (keymax valmax : nat) : option (bytes * bytes) :=
  let line := skipWS line in
  match strchr line cEQ with
  | Some eqpos =>
    let keylen := Nat.min (keymax - 1) eqpos in
    let vallen := Nat.min (valmax - 1) (length line - (eqpos + 1)) in
    Some (take keylen line, take vallen (drop (eqpos + 1) line))
  | None => None
  end.

Definition parsePrefix (line : bytes) (prefixSize : nat) : option bytes :=
  match strchr line cCOLON with
  | Some colpos =>
    if Nat.eqb colpos 0 then None
    else if Nat.eqb prefixSize 0 then None
    else Some (take (if Nat.leb prefixSize colpos then (prefixSize - 1)%nat else colpos) line)
  | None => None
  end.

(** ** wOPL key names *)

Definition cfgWoplPerGameKeys : list (bytes * bytes) := [
  (bs "compat", bs "$Compatibility");
  (bs "dma", bs "$DMA");
  (bs "core_loader", bs "$CoreLoader");
  (bs "dnas", bs "$DNAS");
  (bs "alt_startup", bs "$AltStartup");
  (bs "vmc1", bs "$VMC_0");
  (bs "vmc2", bs "$VMC_1");
  (bs "gsm_source", bs "$GSMSource");
  (bs "gsm_enable", bs "$EnableGSM");
  (bs "gsm_vmode", bs "$GSMVMode");
  (bs "gsm_x_offset", bs "$GSMXOffset");
  (bs "gsm_y_offset", bs "$GSMYOffset");
  (bs "gsm_field_fix", bs "$GSMFIELDFix");
  (bs "cheat_source", bs "$CheatsSource");
  (bs "cheat_enable", bs "$EnableCheat");
  (bs "cheat_mode", bs "$CheatMode");
  (bs "cheat_enable_image", bs "$EnableImage");
  (bs "pademu_source", bs "$PADEMUSource");
  (bs "pademu_enable", bs "$EnablePadEmu");
  (bs "pademu_settings", bs "$PadEmuSettings");
  (bs "padmacro_source", bs "$PadMacroSource");
  (bs "padmacro_settings", bs "$PadMacroSettings");
  (bs "osd_source", bs "$CustomLanguageSource");
  (bs "osd_enable", bs "$OSDSettingsEnable");
  (bs "osd_lang_id", bs "$CustomLanguageValue");
  (bs "osd_tv_aspect", bs "$OSDAspectRatio");
  (bs "osd_vmode", bs "$OSDVideoMode")
].

Fixpoint assoc_fst (key : bytes) (l : list (bytes * bytes)) : option bytes :=
  match l with
  | [] => None
  | (a, b) :: r => if streq key a then Some b else assoc_fst key r
  end.
Fixpoint assoc_snd (key : bytes) (l : list (bytes * bytes)) : option bytes :=
  match l with
  | [] => None
  | (a, b) :: r => if streq key b then Some a else assoc_snd key r
  end.

Definition cfgWoplToOurs (key : bytes) : option bytes := assoc_fst key cfgWoplPerGameKeys.
Definition cfgOursToWopl (key : bytes) : option bytes := assoc_snd key cfgWoplPerGameKeys.

(** ** Reading a libconfig line *)

(** the value text between the quotes, if it is quoted *)
Definition unquote (v : bytes) : bytes :=
  match v with
  | c :: r =>
    if c =? cDQUOTE then
      match last r with
      | Some d => if d =? cDQUOTE then take (length r - 1) r else r
      | None => r
      end
    else v
  | [] => v
  end.

(** the new group and set *)
Definition cfgReadLibconfigLine (line group : bytes) (groupSize : nat) (cs : config_set) : bytes * config_set :=
  let p := skipWS line in
  match p with
  | [] => (group, cs)
  | c :: _ =>
    if (c =? cHASH) || slash_comment p then (group, cs)
    else if c =? cRBRACE then ([], cs)
    else if c =? cLBRACE then (group, cs)
    else
      let t := trimWS p in
      let t := if bool_decide (last t = Some cSEMI) then take (length t - 1) t else t in
      let upto_end := trimWS t in
      let header colon :=
        let k := trimWS (take colon p) in
        (if Nat.ltb 0 (length k) && Nat.ltb (length k) groupSize then k else group, cs) in
      match strchr p cEQ, strchr p cCOLON with
      | None, None => (group, cs)
      | None, Some colon => header colon
      | Some eq, o =>
        let before := match o with Some colon => Nat.ltb colon eq | None => false end in
        if before then header (default O o)
        else
          let key := trimWS (take eq p) in
          if Nat.eqb (length key) 0 || Nat.leb CONFIG_KEY_NAME_LEN (length key) then (group, cs)
          else
            let v := unquote (skipWS (drop (eq + 1) upto_end)) in
            if Nat.eqb (length v) 0 then (group, cs)
            else
              let val := take (if Nat.leb CONFIG_KEY_VALUE_LEN (length v) then CONFIG_KEY_VALUE_LEN - 1
                               else length v) v in
              let val := if streq val (bs "true") then bs "1"
                         else if streq val (bs "false") then bs "0" else val in
              let composed := if bool_decide (group <> [])
                              then bufcpy (2 * CONFIG_KEY_NAME_LEN) (group ++ [cUSCORE] ++ key)
                              else bufcpy (2 * CONFIG_KEY_NAME_LEN) key in
              (group, snd (configSetStr cs (default composed (cfgWoplToOurs composed)) val))
      end
  end.

(** ** Reading a file *)

Record reader := Reader {
  rd_fmt : option cfg_fmt;     (* latched format *)
  rd_group : bytes;
  rd_prefix : bytes;
  rd_set : config_set;
}.

(** the loop body of [configReadFileBuffer] for one line *)
Definition read_line (r : reader) (line : bytes) : reader :=
  let legacy (r : reader) : reader :=
    match splitAssignment line CONFIG_KEY_NAME_LEN CONFIG_KEY_VALUE_LEN with
    | Some (key, val) =>
      let prefix := match line with c :: _ => if isWS c then rd_prefix r else [] | [] => [] end in
      let cs := if bool_decide (prefix <> [])
                then snd (configSetStr (rd_set r)
                            (bufcpy (2 * CONFIG_KEY_NAME_LEN) (prefix ++ [cUSCORE] ++ key)) val)
                else snd (configSetStr (rd_set r) key val) in
      Reader (rd_fmt r) (rd_group r) prefix cs
    | None =>
      match parsePrefix line CONFIG_KEY_NAME_LEN with
      | Some prefix => Reader (rd_fmt r) (rd_group r) prefix (rd_set r)
      | None => r
      end
    end in
  let libconfig (r : reader) : reader :=
    let '(g, cs) := cfgReadLibconfigLine line (rd_group r) CONFIG_KEY_NAME_LEN (rd_set r) in
    Reader (rd_fmt r) g (rd_prefix r) cs in
  match rd_fmt r with
  | None =>
    match cfgClassifyLine line with
    | CFG_LINE_BLANK | CFG_LINE_COMMENT => r
    | CFG_LINE_LIBCONFIG =>
      libconfig (Reader (Some CFG_FMT_LIBCONFIG) (rd_group r) (rd_prefix r)
                        (set_format CFG_FMT_LIBCONFIG (rd_set r)))
    | CFG_LINE_LEGACY =>
      legacy (Reader (Some CFG_FMT_LEGACY) (rd_group r) (rd_prefix r)
                     (set_format CFG_FMT_LEGACY (rd_set r)))
    end
  | Some CFG_FMT_LIBCONFIG => libconfig r
  | Some CFG_FMT_LEGACY => legacy r
  end.

Definition read_config_lines (cs : config_set) (lines : list bytes) : config_set :=
  set_modified false (rd_set (fold_left read_line lines (Reader None [] [] cs))).

Section Read.
Context {D : Type} `{!Device D}.

(** [None] when the line reader reads through its NULL pointer *)
Definition configReadFileBuffer (fuel : nat) (fb : file_buffer D) (cs : config_set) : option config_set :=
  match read_lines fuel fb with
  | Some (lines, true) => Some (read_config_lines cs lines)
  | _ => None
  end.

(** [size + 2] readings are enough for a buffer of [size] bytes *)
Definition configReadBuffer (cs : config_set) (data : bytes) : option config_set :=
  configReadFileBuffer (length data + 2) (@openFileBufferBuffer D data) cs.
End Read.

(** ** Writing *)

Definition cfgValueIsBareScalar (v : bytes) : bool :=
  if streq v (bs "true") || streq v (bs "false") then true
  else
    let p := match v with c :: r => if c =? cMINUS then r else v | [] => v end in
    match p with
    | [] => false
    | _ => forallb isdigit p
    end.

(** the escaping loop: [i] bytes of [esc] are used *)
Fixpoint esc_loop (val : bytes) (i : nat) : bytes :=
  match val with
  | [] => []
  | c :: r =>
    if Nat.ltb (i + 2) (CONFIG_KEY_VALUE_LEN * 2) then
      if (c =? cBSLASH) || (c =? cDQUOTE) then cBSLASH :: c :: esc_loop r (i + 2)
      else c :: esc_loop r (i + 1)
    else []
  end.

Definition libconfig_line_size : nat := CONFIG_KEY_NAME_LEN + CONFIG_KEY_VALUE_LEN * 2 + 16.

Definition cfgWriteLibconfigLine (indent key val : bytes) : bytes :=
  if cfgValueIsBareScalar val then
    bufcpy libconfig_line_size (indent ++ key ++ bs " = " ++ val ++ [cSEMI; cLF])
  else
    bufcpy libconfig_line_size (indent ++ key ++ bs " = " ++ [cDQUOTE] ++ esc_loop val 0 ++ [cDQUOTE; cSEMI; cLF]).

Definition cfgLibconfigGroups : list bytes := [bs "gsm"; bs "cheat"; bs "pademu"; bs "padmacro"; bs "osd"].

(** the group and the key inside it *)
Fixpoint match_group (groups : list bytes) (key : bytes) : option (bytes * bytes) :=
  match groups with
  | [] => None
  | g :: gs =>
    let glen := length g in
    if strneq key g glen && bool_decide (key !! glen = Some cUSCORE) && Nat.ltb (glen + 1) (length key)
    then Some (g, drop (glen + 1) key)
    else match_group gs key
  end.
Definition cfgMatchGroup (key : bytes) : option (bytes * bytes) := match_group cfgLibconfigGroups key.

(** items the writers skip: runtime keys *)
Definition skipped (it : config_value) : bool := bool_decide (cv_key it = []) || hash_key (cv_key it).

(** the line of an item in pass 1, if it is not in a group *)
Definition root_line (it : config_value) : option bytes :=
  if skipped it then None
  else match cfgOursToWopl (cv_key it) with
       | Some w => match cfgMatchGroup w with
                   | Some _ => None
                   | None => Some (cfgWriteLibconfigLine [] w (cv_val it))
                   end
       | None => Some (cfgWriteLibconfigLine [] (cv_key it) (cv_val it))
       end.

(** the line of an item in pass 2 for group [g] *)
Definition group_line (g : bytes) (it : config_value) : option bytes :=
  if skipped it then None
  else match cfgOursToWopl (cv_key it) with
       | None => None
       | Some w => match cfgMatchGroup w with
                   | Some (g', sub) => if streq g' g then Some (cfgWriteLibconfigLine (bs "  ") sub (cv_val it))
                                       else None
                   | None => None
                   end
       end.

Definition group_block (items : list config_value) (g : bytes) : list bytes :=
  match omap (group_line g) items with
  | [] => []
  | ls => bufcpy 128 (g ++ bs " :" ++ [cLF; cLBRACE; cLF]) :: ls ++ [[cRBRACE; cSEMI; cLF]]
  end.

Definition cfgWriteLibconfig (cs : config_set) : list bytes :=
  omap root_line (cs_items cs) ++ concat (map (group_block (cs_items cs)) cfgLibconfigGroups).

(** the legacy branch of [configWrite] *)
Definition legacy_line (it : config_value) : option bytes :=
  if skipped it then None
  else Some (bufcpy 512 (cv_key it ++ [cEQ] ++ cv_val it ++ [cLF])).

(** the chunks [configWrite] hands to [writeFileBuffer] *)
Definition config_chunks (cs : config_set) : list bytes :=
  match cs_format cs with
  | CFG_FMT_LIBCONFIG => cfgWriteLibconfig cs
  | CFG_FMT_LEGACY => omap legacy_line (cs_items cs)
  end.
Definition config_text (cs : config_set) : bytes := concat (config_chunks cs).

#[global] Arguments cfgWriteLibconfigLine : simpl never.
