(* ===== verification/ConfigRoundtrip.v ===== *)
(** * ConfigRoundtrip: what is written can be read back

    The two writers and the two readers of ConfigFormat, composed: which
    settings survive a save and a load, and which do not. *)
From S2P Require Import Prelude CLib FileBuffer ConfigStore ConfigFormat.

(** ** Text made of lines *)

Definition unlines (ls : list bytes) : bytes := concat (map (fun l => l ++ [cLF]) ls).

Lemma split_lf_unlines ls : Forall (fun l => cLF ∉ l) ls -> split_lf [] (unlines ls) = ls.
Proof.
  induction 1 as [|l ls Hl Hls IH]; [done|].
  unfold unlines in *. cbn. rewrite <- app_assoc. cbn. rewrite split_lf_app by done.
  by rewrite IH.
Qed.

Lemma strip_cr_id l : last l <> Some cCR -> strip_cr l = l.
Proof.
  intros H. unfold strip_cr. destruct (last l) as [c|]; [|done].
  destruct (Z.eqb_spec c cCR); [congruence|done].
Qed.

Definition clean_line (l : bytes) : Prop :=
  cstring l /\ (cLF ∉ l) /\ last l <> Some cCR /\ is_comment l = false.

Lemma text_lines_unlines ls : Forall clean_line ls -> text_lines (unlines ls) = ls.
Proof.
  intros H. unfold text_lines. rewrite split_lf_unlines.
  2:{ eapply Forall_impl; [exact H|]. by intros l (_ & ? & _). }
  induction H as [|l ls (H1 & H2 & H3 & H4) H IH]; [done|].
  cbn [map]. rewrite strip_cr_id by done. rewrite filter_cons, decide_True by done. by rewrite IH.
Qed.

Lemma unlines_last ls : unlines ls = [] \/ last (unlines ls) = Some cLF.
Proof.
  destruct ls as [|l ls _] using rev_ind; [by left|]. right.
  unfold unlines. rewrite map_app, concat_app. cbn. rewrite app_nil_r, app_assoc. apply last_snoc.
Qed.

Lemma dangling_unlines ls : dangling_comment (unlines ls) = false.
Proof.
  unfold dangling_comment. destruct (unlines_last ls) as [->| ->]; [done|].
  destruct (last (split_lf [] (unlines ls))); [|done]. by rewrite andb_false_r.
Qed.

Lemma cstring_unlines ls : Forall clean_line ls -> cstring (unlines ls).
Proof.
  intros H. unfold unlines. induction H as [|l ls (? & _) H IH]; cbn; [constructor|].
  rewrite <- app_assoc. apply cstring_app. split; [done|]. cbn. constructor; [lia|done].
Qed.

(** reading a text made of clean lines is reading the lines *)
Lemma configReadBuffer_unlines {D} `{!Device D} `{!FileDevice D} cs ls :
  Forall clean_line ls -> configReadBuffer (D := D) cs (unlines ls) = Some (read_config_lines cs ls).
Proof.
  intros H. unfold configReadBuffer, configReadFileBuffer.
  rewrite read_memory_lines by (auto using cstring_unlines). rewrite dangling_unlines. cbn.
  by rewrite text_lines_unlines.
Qed.

(** ** The set a sequence of fresh keys builds *)

Definition fresh_set (cs : config_set) : Prop := cs_items cs = [].

Definition cut_item (it : config_value) : config_value :=
  CV (cv_key it) (bufcpy CONFIG_KEY_VALUE_LEN (cv_val it)).

(** setting fresh short keys appends them in order and touches nothing else *)
Lemma configSetStr_fresh cs k v :
  cs_ok cs -> key_ok k -> (k ∉ cv_key <$> cs_items cs) ->
  exists b, snd (configSetStr cs k v) =
            set_modified b (set_items (fun l => l ++ [cut_item (CV k v)]) cs).
Proof.
  intros [Hok Hnd] [Hk Hl] Hn. unfold configSetStr. rewrite Hk. cbn [negb].
  unfold getConfigItemForName. rewrite (proj2 (find_key_None _ _ Hok Hl) Hn).
  unfold addConfigValue, allocConfigItem, cut_item. rewrite (bufcpy_id CONFIG_KEY_NAME_LEN k) by done.
  destruct (hash_key k); cbn; eexists; [|done]. by destruct cs.
Qed.

(** ** The legacy syntax *)

Definition head_not (cs : list Z) (k : bytes) : Prop := forall c, head k = Some c -> c ∉ cs.

(** what a legacy file can carry: no line breaks, nothing the reader strips *)
Definition legacy_clean (it : config_value) : Prop :=
  cv_ok it /\ cstring (cv_key it) /\ cstring (cv_val it) /\
  (cLF ∉ cv_key it) /\ (cLF ∉ cv_val it) /\ last (cv_val it) <> Some cCR /\
  head_not [cSP; cTAB; cHASH; cSLASH] (cv_key it) /\
  (forall c, last (cv_key it) = Some c -> isWS c = false).

Definition legacy_text (it : config_value) : bytes := cv_key it ++ [cEQ] ++ cv_val it.

Lemma key_ok_shape k :
  key_ok k -> exists c r, k = c :: r /\ (cEQ ∉ k) /\ (length k <= 31)%nat.
Proof.
  intros [Hv Hl]. unfold configKeyValidate in Hv. destruct k as [|c r]; [done|]. cbn [length Nat.eqb] in Hv.
  destruct (strchr (c :: r) cEQ) eqn:F; [done|]. apply strchr_None in F.
  exists c, r. unfold CONFIG_KEY_NAME_LEN in Hl. split_and!; auto; lia.
Qed.

Lemma legacy_line_text it :
  legacy_clean it -> skipped it = false -> legacy_line it = Some (legacy_text it ++ [cLF]).
Proof.
  intros (((Hk & Hl) & Hv) & _) Hs. unfold legacy_line. rewrite Hs. f_equal. unfold legacy_text.
  unfold CONFIG_KEY_NAME_LEN, CONFIG_KEY_VALUE_LEN in *.
  rewrite bufcpy_id; rewrite <- ?app_assoc; [done|]. rewrite !length_app. simpl. lia.
Qed.

Lemma legacy_text_clean it : legacy_clean it -> clean_line (legacy_text it).
Proof.
  intros (Hok & Hck & Hcv & Hk & Hv & Hcr & Hh & Hw). destruct Hok as [Hko _].
  destruct (key_ok_shape _ Hko) as (c & r & E & _ & _). unfold legacy_text. split_and!.
  - apply cstring_app. split; [done|]. cbn. constructor; [lia|done].
  - rewrite not_elem_of_app. split; [done|]. cbn. apply not_elem_of_cons. done.
  - cbn. rewrite last_app_cons, last_cons. destruct (last (cv_val it)); [done|]. intros [=].
  - unfold is_comment. apply bool_decide_eq_false. rewrite E. cbn. intros [= ->].
    apply (Hh cHASH); [by rewrite E|]. set_solver.
Qed.

Lemma skipWS_id k r : head_not [cSP; cTAB] k -> k <> [] -> skipWS (k ++ r) = k ++ r.
Proof.
  intros H Hne. apply dropwhile_id. destruct k as [|c k]; [done|]. cbn.
  unfold isWS. specialize (H c eq_refl). apply not_elem_of_cons in H as [H1 H2].
  apply not_elem_of_cons in H2 as [H2 _].
  apply orb_false_iff. by split; apply Z.eqb_neq.
Qed.

Lemma head_not_sub (cs cs' : list Z) k : (cs' ⊆ cs) -> head_not cs k -> head_not cs' k.
Proof. intros Hs H c Hc Hin. apply (H c Hc), Hs, Hin. Qed.

Lemma trimWS_id l : (forall c, last l = Some c -> isWS c = false) -> trimWS l = l.
Proof. apply rdropwhile_id. Qed.

(** our own writer's lines are never taken for libconfig *)
Lemma classify_legacy it : legacy_clean it -> cfgClassifyLine (legacy_text it) = CFG_LINE_LEGACY.
Proof.
  intros (Hok & Hck & Hcv & Hk & Hv & Hcr & Hh & Hw). destruct Hok as [Hko _].
  destruct (key_ok_shape _ Hko) as (c & r & E & Heq & _).
  unfold cfgClassifyLine, legacy_text. rewrite skipWS_id.
  2:{ eapply head_not_sub; [|exact Hh]. set_solver. }
  2:{ by rewrite E. }
  destruct (cv_key it ++ [cEQ] ++ cv_val it) as [|c' r'] eqn:F; [by destruct (cv_key it)|].
  assert (c' = c) as -> by (rewrite E in F; by injection F as ->).
  specialize (Hh c). rewrite E in Hh. specialize (Hh eq_refl).
  apply not_elem_of_cons in Hh as [_ Hh]. apply not_elem_of_cons in Hh as [_ Hh].
  apply not_elem_of_cons in Hh as [H1 Hh]. apply not_elem_of_cons in Hh as [H2 _].
  rewrite (proj2 (Z.eqb_neq c cHASH)) by done.
  assert (slash_comment (c :: r') = false) as ->.
  { unfold slash_comment. destruct r'; [done|]. by rewrite (proj2 (Z.eqb_neq c cSLASH)). }
  rewrite <- F. cbn [app]. rewrite strchr_app by done.
  destruct (Nat.leb _ _); [done|]. rewrite E. cbn [length Nat.ltb Nat.leb andb].
  replace (S (length r) - 1)%nat with (length r) by lia.
  rewrite list_lookup_total_alt, lookup_app_l by (simpl; lia).
  destruct ((c :: r) !! length r) as [z|] eqn:G; cbn.
  - replace (isWS z) with false; [done|]. symmetry. apply Hw. rewrite E, last_lookup. exact G.
  - done.
Qed.

Lemma splitAssignment_legacy it :
  legacy_clean it ->
  splitAssignment (legacy_text it) CONFIG_KEY_NAME_LEN CONFIG_KEY_VALUE_LEN = Some (cv_key it, cv_val it).
Proof.
  intros (Hok & Hck & Hcv & Hk & Hv & Hcr & Hh & Hw). destruct Hok as [Hko Hvl].
  destruct (key_ok_shape _ Hko) as (c & r & E & Heq & Hl).
  unfold splitAssignment, legacy_text. rewrite skipWS_id.
  2:{ eapply head_not_sub; [|exact Hh]. set_solver. }
  2:{ by rewrite E. }
  cbn [app]. rewrite strchr_app by done. unfold CONFIG_KEY_NAME_LEN, CONFIG_KEY_VALUE_LEN in *.
  f_equal. f_equal.
  - rewrite Nat.min_r by lia. apply take_app_length.
  - rewrite length_app. cbn [length]. rewrite drop_app_ge by lia.
    replace (length (cv_key it) + 1 - length (cv_key it))%nat with 1%nat by lia. cbn [drop].
    apply take_ge. lia.
Qed.

Definition legacy_or_none (f : option cfg_fmt) : Prop := f = None \/ f = Some CFG_FMT_LEGACY.

Lemma read_line_legacy fmt cs it :
  legacy_clean it -> legacy_or_none fmt -> (fmt <> None -> cs_format cs = CFG_FMT_LEGACY) ->
  read_line (Reader fmt [] [] cs) (legacy_text it) =
  Reader (Some CFG_FMT_LEGACY) [] [] (snd (configSetStr (set_format CFG_FMT_LEGACY cs) (cv_key it) (cv_val it))).
Proof.
  intros Hc Hf Hfmt. unfold read_line. cbn [rd_fmt rd_group rd_prefix rd_set].
  rewrite classify_legacy, splitAssignment_legacy by done.
  assert (Hp : match legacy_text it with c :: _ => if isWS c then [] else [] | [] => [] end = ([] : bytes)).
  { destruct (legacy_text it) as [|c ?]; [done|]. by destruct (isWS c). }
  destruct Hf as [->| ->]; cbn [rd_fmt rd_group rd_prefix rd_set]; rewrite Hp; cbn; [done|].
  rewrite <- Hfmt by done. by destruct cs.
Qed.

(** the fold over the lines of a legacy file *)
Lemma read_legacy_fold items : forall fmt cs,
  Forall legacy_clean items -> legacy_or_none fmt -> (fmt <> None -> cs_format cs = CFG_FMT_LEGACY) ->
  cs_ok cs -> NoDup (cv_key <$> (cs_items cs ++ items)) ->
  let r := fold_left read_line (map legacy_text items) (Reader fmt [] [] cs) in
  cs_items (rd_set r) = cs_items cs ++ items /\
  (cs_format cs = CFG_FMT_LEGACY -> cs_format (rd_set r) = CFG_FMT_LEGACY).
Proof.
  induction items as [|it items IH]; intros fmt cs Hcl Hf Hfmt Hok Hnd; cbn.
  { by rewrite app_nil_r. }
  apply Forall_cons in Hcl as [Hc Hcl]. rewrite read_line_legacy by done.
  set (cs0 := set_format CFG_FMT_LEGACY cs).
  assert (Hok0 : cs_ok cs0) by done.
  pose proof Hc as (Hit & _). pose proof Hit as [Hk Hv].
  destruct (configSetStr_fresh cs0 (cv_key it) (cv_val it) Hok0 Hk) as [b Eb].
  { rewrite fmap_app in Hnd. apply NoDup_app in Hnd as (_ & Hd & _). intros Hin.
    apply (Hd _ Hin). cbn. apply elem_of_cons. by left. }
  assert (Hcut : cut_item (CV (cv_key it) (cv_val it)) = it).
  { unfold cut_item. cbn. rewrite bufcpy_id by done. by destruct it. }
  rewrite Hcut in Eb. pose proof (configSetStr_ok cs0 (cv_key it) (cv_val it) Hok0 Hk) as Hok1.
  rewrite Eb in *. destruct (IH (Some CFG_FMT_LEGACY) (set_modified b (set_items (fun l => l ++ [it]) cs0)))
    as [IH1 IH2]; auto.
  - by right.
  - cbn. by rewrite <- app_assoc.
  - cbn in IH1, IH2. rewrite IH1, <- app_assoc. auto.
Qed.

Lemma omap_map {A B} (f : A -> option B) (g : A -> B) (P : A -> bool) l :
  (forall x, x ∈ l -> f x = if P x then None else Some (g x)) ->
  omap f l = map g (base.filter (fun x => P x = false) l).
Proof.
  induction l as [|x l IH]; intros H; [done|]. rewrite filter_cons.
  cbn [omap list_omap]. rewrite H by (apply elem_of_cons; by left).
  rewrite IH by (intros y Hy; apply H, elem_of_cons; by right).
  by destruct (P x).
Qed.

Definition kept (cs : config_set) : list config_value :=
  base.filter (fun it => skipped it = false) (cs_items cs).

Lemma legacy_config_text cs :
  cs_format cs = CFG_FMT_LEGACY -> Forall legacy_clean (kept cs) ->
  config_text cs = unlines (map legacy_text (kept cs)).
Proof.
  intros Hf Hc. unfold config_text, config_chunks. rewrite Hf.
  rewrite (omap_map _ (fun it => legacy_text it ++ [cLF]) skipped).
  - unfold unlines. by rewrite map_map.
  - intros it Hin. destruct (skipped it) eqn:Hs; [unfold legacy_line; by rewrite Hs|].
    apply legacy_line_text; [|done]. rewrite Forall_forall in Hc. apply Hc.
    unfold kept. by apply list_elem_of_filter.
Qed.

Lemma kept_nodup cs : cs_ok cs -> NoDup (cv_key <$> kept cs).
Proof.
  intros [_ Hnd]. eapply sublist_NoDup; [exact Hnd|]. unfold kept. f_equiv. apply sublist_filter.
Qed.

(** Saving a legacy set and loading it into a fresh one keeps every persistent
    setting, in order, byte for byte; runtime keys ('#') are the ones left out. *)
Theorem legacy_reread {D} `{!Device D} `{!FileDevice D} cs uid ty fname :
  cs_ok cs -> cs_format cs = CFG_FMT_LEGACY -> Forall legacy_clean (kept cs) ->
  exists cs', configReadBuffer (D := D) (configAlloc uid ty fname) (config_text cs) = Some cs' /\
    cs_items cs' = kept cs /\ cs_format cs' = CFG_FMT_LEGACY /\ cs_modified cs' = false.
Proof.
  intros Hok Hf Hc. rewrite legacy_config_text by done.
  rewrite configReadBuffer_unlines.
  2:{ apply Forall_map. eapply Forall_impl; [exact Hc|]. apply legacy_text_clean. }
  eexists. split; [done|]. unfold read_config_lines.
  destruct (read_legacy_fold (kept cs) None (configAlloc uid ty fname)) as [E1 E2];
    [done|by left|done|split; cbn; constructor|by apply kept_nodup|].
  cbn in E1, E2. split; [exact E1|]. split; [by apply E2|done].
Qed.

(** ** The libconfig syntax *)

Definition special (c : Z) : bool := (c =? cBSLASH) || (c =? cDQUOTE).

(** the text of a value between its quotes *)
Fixpoint escape (v : bytes) : bytes :=
  match v with
  | [] => []
  | c :: r => if special c then cBSLASH :: c :: escape r else c :: escape r
  end.

(** what un-escaping would give; the reader has no such step *)
Fixpoint unescape (v : bytes) : bytes :=
  match v with
  | [] => []
  | c :: r => if c =? cBSLASH then match r with d :: r' => d :: unescape r' | [] => [c] end
              else c :: unescape r
  end.

Lemma unescape_escape v : unescape (escape v) = v.
Proof.
  induction v as [|c v IH]; [done|]. cbn. unfold special.
  destruct (Z.eqb_spec c cBSLASH) as [->|H1]; cbn.
  - by rewrite IH.
  - destruct (Z.eqb_spec c cDQUOTE) as [->|H2]; cbn; [by rewrite IH|].
    rewrite (proj2 (Z.eqb_neq c cBSLASH)) by done. by rewrite IH.
Qed.

Lemma escape_plain v : Forall (fun c => special c = false) v -> escape v = v.
Proof. induction 1 as [|c v Hc Hv IH]; [done|]. cbn. by rewrite Hc, IH. Qed.

Lemma escape_length v : (length v <= length (escape v) <= 2 * length v)%nat.
Proof. induction v as [|c v IH]; cbn; [lia|]. destruct (special c); cbn; lia. Qed.

Lemma escape_length_eq v : length (escape v) = length v -> Forall (fun c => special c = false) v.
Proof.
  induction v as [|c v IH]; intros H; [constructor|]. cbn in H.
  pose proof (escape_length v). destruct (special c) eqn:E; cbn in H; [lia|].
  constructor; [done|]. apply IH. lia.
Qed.

Lemma escape_inj v w : escape v = escape w -> v = w.
Proof. intros E. by rewrite <- (unescape_escape v), E, unescape_escape. Qed.

Lemma escape_elem c v : c ∈ escape v -> c = cBSLASH \/ c ∈ v.
Proof.
  induction v as [|d v IH]; [by left; set_solver|]. cbn.
  destruct (special d); rewrite ?elem_of_cons; tauto.
Qed.

Lemma esc_loop_escape v i : (i + 2 * length v <= 510)%nat -> esc_loop v i = escape v.
Proof.
  revert i. induction v as [|c v IH]; intros i H; [done|]. cbn [esc_loop escape length] in *.
  unfold CONFIG_KEY_VALUE_LEN. destruct (Nat.ltb_spec (i + 2) (256 * 2)); [|lia].
  unfold special. destruct (_ || _); rewrite IH by lia; done.
Qed.

(** ** The key tables *)

Lemma wopl_table k o : cfgWoplToOurs k = Some o <-> cfgOursToWopl o = Some k.
Proof.
  assert (G : forall l : list (bytes * bytes), NoDup l.*1 -> NoDup l.*2 ->
            assoc_fst k l = Some o <-> assoc_snd o l = Some k).
  { induction l as [|[a b] l IH]; intros H1 H2; [done|].
    cbn in H1, H2. apply NoDup_cons in H1 as [Ha H1]. apply NoDup_cons in H2 as [Hb H2].
    specialize (IH H1 H2). cbn. unfold streq.
    assert (L1 : assoc_fst k l = Some o -> k ∈ l.*1 /\ o ∈ l.*2).
    { clear. induction l as [|[x y] l IH]; [done|]. cbn. unfold streq.
      case_bool_decide; [intros [= ->]; subst; rewrite !elem_of_cons; auto|].
      intros H'. apply IH in H' as [? ?]. rewrite !elem_of_cons. auto. }
    assert (L2 : assoc_snd o l = Some k -> k ∈ l.*1 /\ o ∈ l.*2) by tauto.
    repeat case_bool_decide; subst.
    - by intuition congruence.
    - split; [intros [= ->]; congruence|intros F; apply L2 in F; tauto].
    - split; [intros F; apply L1 in F; tauto|intros [= ->]; congruence].
    - done. }
  apply G; by apply (bool_decide_unpack _).
Qed.

Lemma forallb_assoc_snd (P : bytes -> bytes -> bool) o w l :
  forallb (fun '(a, b) => P a b) l = true -> assoc_snd o l = Some w -> P w o = true.
Proof.
  induction l as [|[a b] l IH]; [done|]. cbn. intros H. apply andb_prop in H as [H1 H2].
  unfold streq. case_bool_decide; [intros [= <-]; by subst|by apply IH].
Qed.

(** wOPL's names are short identifiers that do not begin like a comment *)
Definition name_ok (w : bytes) : bool :=
  cfgIsLibconfigIdent w && Nat.leb (length w) 31 &&
  forallb (fun c => ident_char c && (0 <? c) && (c <? 256)) w.

Lemma wopl_name_ok o w :
  cfgOursToWopl o = Some w ->
  name_ok w = true /\ match cfgMatchGroup w with
                      | Some (g, sub) => name_ok sub = true /\ w = g ++ [cUSCORE] ++ sub /\ g ∈ cfgLibconfigGroups
                      | None => True
                      end.
Proof.
  intros H.
  assert (G : (name_ok w && match cfgMatchGroup w with
                 | Some (g, sub) => name_ok sub && streq w (g ++ [cUSCORE] ++ sub)
                                    && bool_decide (g ∈ cfgLibconfigGroups)
                 | None => true end) = true).
  { refine (forallb_assoc_snd (fun w _ => name_ok w && match cfgMatchGroup w with
                 | Some (g, sub) => name_ok sub && streq w (g ++ [cUSCORE] ++ sub)
                                    && bool_decide (g ∈ cfgLibconfigGroups)
                 | None => true end) o w cfgWoplPerGameKeys _ H). by vm_compute. }
  apply andb_prop in G as [G1 G2]. split; [done|].
  destruct (cfgMatchGroup w) as [[g sub]|]; [|done].
  apply andb_prop in G2 as [G2 G4]. apply andb_prop in G2 as [G2 G3].
  split_and!; [done| |by apply bool_decide_eq_true in G4].
  by apply bool_decide_eq_true in G3.
Qed.

(** ** One libconfig line *)

Definition payload (val : bytes) : bytes :=
  if cfgValueIsBareScalar val then val else [cDQUOTE] ++ escape val ++ [cDQUOTE].

Definition lib_text (indent key val : bytes) : bytes :=
  indent ++ key ++ [cSP; cEQ; cSP] ++ payload val ++ [cSEMI].

(** a key the libconfig reader takes as it stands *)
Definition lib_key (k : bytes) : Prop :=
  k <> [] /\ (length k <= 31)%nat /\ cstring k /\
  head_not [cSP; cTAB; cHASH; cSLASH; cLBRACE; cRBRACE] k /\
  (forall c, last k = Some c -> isWS c = false) /\ (cEQ ∉ k) /\ (cCOLON ∉ k) /\ (cLF ∉ k).

(** a value that survives apart from its escapes *)
Definition lib_val (v : bytes) : Prop :=
  v <> [] /\ cstring v /\ (cLF ∉ v) /\ v <> bs "true" /\ v <> bs "false" /\ (length (escape v) <= 255)%nat.

Definition indent_ok (i : bytes) : Prop := (length i <= 2)%nat /\ Forall (fun c => c = cSP) i.

Lemma bare_digits v :
  cfgValueIsBareScalar v = true -> v <> bs "true" -> v <> bs "false" ->
  Forall (fun c => c = cMINUS \/ isdigit c = true) v /\ v <> [].
Proof.
  unfold cfgValueIsBareScalar, streq. intros H H1 H2.
  rewrite !bool_decide_eq_false_2 in H by done. cbn in H.
  assert (G : forall l, forallb isdigit l = true -> Forall (fun c => c = cMINUS \/ isdigit c = true) l).
  { intros l Hl. rewrite forallb_forall in Hl. apply Forall_forall. intros x Hx. right.
    apply Hl. by apply list_elem_of_In. }
  destruct v as [|c r]; [done|]. split; [|done].
  destruct (Z.eqb_spec c cMINUS) as [->|].
  - constructor; [by left|]. destruct r; [constructor|]. by apply G.
  - by apply G.
Qed.

Lemma digit_plain c : c = cMINUS \/ isdigit c = true ->
  special c = false /\ isWS c = false /\ c <> cDQUOTE /\ c <> cSEMI /\ c <> cLF.
Proof.
  intros [->|H]; [done|]. unfold isdigit, between in H. b2p.
  unfold special, isWS. split_and!; try apply orb_false_iff; repeat split; try apply Z.eqb_neq; lia.
Qed.

(** the reader gets the escaped value out of the payload *)
Lemma payload_read v : lib_val v ->
  unquote (skipWS (cSP :: payload v)) = escape v /\
  (exists c, last (payload v) = Some c /\ isWS c = false /\ c <> cSEMI) /\ payload v <> [].
Proof.
  intros (Hne & Hc & Hlf & H1 & H2 & Hl). unfold payload. change (skipWS (cSP :: ?x)) with (skipWS x).
  destruct (cfgValueIsBareScalar v) eqn:Hb.
  - destruct (bare_digits v Hb H1 H2) as [Hd _].
    rewrite escape_plain by (eapply Forall_impl; [exact Hd|]; intros c Hcc; by apply digit_plain).
    split_and!; [| |done].
    + destruct Hd as [|c r Hcd Hd]; [done|]. destruct (digit_plain c Hcd) as (_ & Hw & Hq & _).
      unfold skipWS. cbn [dropwhile]. rewrite Hw. cbn. by rewrite (proj2 (Z.eqb_neq c cDQUOTE)).
    + destruct v as [|c r _] using rev_ind; [done|].
      apply Forall_app in Hd as [_ Hd]. apply Forall_cons in Hd as [Hx _].
      eexists. rewrite last_snoc. split; [done|].
      by destruct (digit_plain _ Hx) as (_ & ? & _ & ? & _).
  - split_and!; [| |by intros [=]].
    + cbn [app]. unfold skipWS. cbn [dropwhile isWS Z.eqb orb]. cbn.
      rewrite last_snoc. cbn. rewrite length_app. cbn.
      replace (length (escape v) + 1 - 1)%nat with (length (escape v)) by lia. apply take_app_length.
    + exists cDQUOTE. by rewrite app_assoc, last_snoc.
Qed.

Lemma skipWS_indent i s : Forall (fun c => c = cSP) i -> skipWS (i ++ s) = skipWS s.
Proof. induction 1 as [|c i -> Hi IH]; [done|]. exact IH. Qed.

Lemma strchr_app_skip a b c : (c ∉ a) -> strchr (a ++ b) c = (fun i => (length a + i)%nat) <$> strchr b c.
Proof.
  unfold strchr. induction a as [|x a IH]; intros H; cbn.
  - by destruct (find_index _ b).
  - apply not_elem_of_cons in H as [Hx H]. rewrite (proj2 (Z.eqb_neq x c)) by done.
    rewrite IH by done. by destruct (find_index _ b).
Qed.

Lemma lib_key_head k r : lib_key k ->
  exists c s, k ++ r = c :: s /\ c <> cHASH /\ c <> cLBRACE /\ c <> cRBRACE /\ slash_comment (k ++ r) = false.
Proof.
  intros (Hne & _ & _ & Hh & _). destruct k as [|c k]; [done|]. exists c, (k ++ r).
  specialize (Hh c eq_refl). rewrite !not_elem_of_cons in Hh. destruct Hh as (H1 & H2 & H3 & H4 & H5 & H6 & _).
  split_and!; auto. unfold slash_comment. cbn [app]. destruct (k ++ r); [done|].
  by rewrite (proj2 (Z.eqb_neq c cSLASH)).
Qed.

Lemma lib_key_skip k r : lib_key k -> skipWS (k ++ r) = k ++ r.
Proof.
  intros (Hne & _ & _ & Hh & _). apply skipWS_id; [|done].
  eapply head_not_sub; [|exact Hh]. set_solver.
Qed.

Lemma trim_key_sp k : lib_key k -> trimWS (k ++ [cSP]) = k.
Proof.
  intros (_ & _ & _ & _ & Hw & _). unfold trimWS. rewrite rdropwhile_snoc_go by done.
  by apply trimWS_id.
Qed.

Lemma trimWS_stop l c : last l = Some c -> isWS c = false -> trimWS l = l.
Proof. intros H Hc. apply trimWS_id. intros d Hd. congruence. Qed.

Lemma strchr_eq_key k r : (cEQ ∉ k) -> strchr (k ++ [cSP; cEQ; cSP] ++ r) cEQ = Some (S (length k)).
Proof.
  intros H. rewrite strchr_app_skip by done.
  change ([cSP; cEQ; cSP] ++ r) with ([cSP] ++ cEQ :: cSP :: r).
  rewrite strchr_app by (apply not_elem_of_cons; split; [done|apply not_elem_of_nil]).
  cbn. f_equal. lia.
Qed.

Lemma strchr_colon_key k r i :
  (cCOLON ∉ k) -> strchr (k ++ [cSP; cEQ; cSP] ++ r) cCOLON = Some i -> (S (length k) < i)%nat.
Proof.
  intros H. rewrite strchr_app_skip by done.
  change ([cSP; cEQ; cSP] ++ r) with ([cSP; cEQ] ++ (cSP :: r)).
  rewrite strchr_app_skip by (rewrite !not_elem_of_cons; by split_and!; [| |apply not_elem_of_nil]).
  destruct (strchr (cSP :: r) cCOLON); cbn; [|done]. intros [= <-]. lia.
Qed.

Definition group_key (group key : bytes) : bytes :=
  if bool_decide (group <> []) then group ++ [cUSCORE] ++ key else key.

Lemma read_lib_line indent group key v cs :
  indent_ok indent -> lib_key key -> lib_val v -> (length group <= 31)%nat ->
  cfgReadLibconfigLine (lib_text indent key v) group CONFIG_KEY_NAME_LEN cs =
  (group, snd (configSetStr cs (default (group_key group key) (cfgWoplToOurs (group_key group key))) (escape v))).
Proof.
  intros [_ Hi] Hk Hv Hg. destruct (payload_read v Hv) as (Hu & (cl & Hl & Hlw & Hls) & Hpne).
  pose proof Hk as (Hkne & Hklen & _ & _ & _ & Heq & Hcol & _).
  pose proof Hv as (Hvne & _ & _ & Ht & Hf & Hvlen).
  unfold cfgReadLibconfigLine, lib_text. rewrite skipWS_indent, lib_key_skip by done.
  set (body := key ++ [cSP; cEQ; cSP] ++ payload v).
  assert (Hbody : key ++ [cSP; cEQ; cSP] ++ payload v ++ [cSEMI] = body ++ [cSEMI]).
  { unfold body. by rewrite <- !app_assoc. }
  destruct (lib_key_head key ([cSP; cEQ; cSP] ++ payload v ++ [cSEMI]) Hk) as (c & s & E & N1 & N2 & N3 & N4).
  rewrite N4, E. rewrite !(proj2 (Z.eqb_neq c _)) by done. cbn [orb]. rewrite <- E.
  rewrite strchr_eq_key by done.
  assert (Hbl : last body = Some cl).
  { unfold body. by rewrite !last_app, Hl. }
  assert (Hend : (let t := trimWS (key ++ [cSP; cEQ; cSP] ++ payload v ++ [cSEMI]) in
                  let t := if bool_decide (last t = Some cSEMI) then take (length t - 1) t else t in
                  trimWS t) = body).
  { cbv zeta. rewrite Hbody, (trimWS_stop (body ++ [cSEMI]) cSEMI (last_snoc _ _) eq_refl).
    rewrite bool_decide_eq_true_2 by apply last_snoc. rewrite length_app. cbn.
    replace (length body + 1 - 1)%nat with (length body) by lia.
    rewrite take_app_length. by apply trimWS_stop with cl. }
  cbv zeta in Hend |- *. rewrite Hend.
  assert (Hbefore : match strchr (key ++ [cSP; cEQ; cSP] ++ payload v ++ [cSEMI]) cCOLON with
                    | Some colon => Nat.ltb colon (S (length key)) | None => false end = false).
  { destruct (strchr _ cCOLON) as [i|] eqn:F; [|done]. apply strchr_colon_key in F; [|done].
    apply Nat.ltb_ge. lia. }
  rewrite Hbefore.
  replace (take (S (length key)) (key ++ [cSP; cEQ; cSP] ++ payload v ++ [cSEMI])) with (key ++ [cSP]).
  2:{ change ([cSP; cEQ; cSP] ++ payload v ++ [cSEMI]) with ([cSP] ++ cEQ :: cSP :: payload v ++ [cSEMI]).
      rewrite app_assoc, take_app_length'; [done|]. rewrite length_app. cbn. lia. }
  rewrite trim_key_sp by done. unfold CONFIG_KEY_NAME_LEN at 1, CONFIG_KEY_VALUE_LEN.
  destruct (Nat.eqb_spec (length key) 0) as [Z0|_]; [by destruct key|].
  destruct (Nat.leb_spec 32 (length key)); [lia|]. cbn [orb].
  replace (drop (S (length key) + 1) body) with (cSP :: payload v).
  2:{ unfold body. rewrite drop_app_ge by lia.
      by replace (S (length key) + 1 - length key)%nat with 2%nat by lia. }
  rewrite Hu. pose proof (proj1 (escape_length v)) as Hel.
  destruct (Nat.eqb_spec (length (escape v)) 0) as [Z0|_]; [destruct v; [done|]; cbn [length] in Hel; lia|].
  destruct (Nat.leb_spec 256 (length (escape v))); [lia|]. rewrite (take_ge (escape v)) by done.
  unfold streq. rewrite (bool_decide_eq_false_2 (escape v = bs "true")), (bool_decide_eq_false_2 (escape v = bs "false")).
  2:{ change (bs "false") with (escape (bs "false")). intros X. by apply escape_inj in X. }
  2:{ change (bs "true") with (escape (bs "true")). intros X. by apply escape_inj in X. }
  unfold group_key, CONFIG_KEY_NAME_LEN. destruct (decide (group = [])) as [->|Hg0].
  - rewrite !(bool_decide_eq_false_2 ([] <> [])) by auto. by rewrite bufcpy_id by lia.
  - rewrite !(bool_decide_eq_true_2 (group <> [])) by done.
    rewrite bufcpy_id; [done|]. rewrite !length_app. cbn [length]. lia.
Qed.

(** ** A whole libconfig file *)

(** where an item is written: its group and the key used there *)
Definition place (it : config_value) : option bytes * bytes :=
  match cfgOursToWopl (cv_key it) with
  | Some w => match cfgMatchGroup w with
              | Some (g, sub) => (Some g, sub)
              | None => (None, w)
              end
  | None => (None, cv_key it)
  end.

Definition lib_clean (it : config_value) : Prop :=
  cv_ok it /\ lib_val (cv_val it) /\
  (cfgOursToWopl (cv_key it) = None -> lib_key (cv_key it) /\ cfgWoplToOurs (cv_key it) = None).

Definition esc_item (it : config_value) : config_value := CV (cv_key it) (escape (cv_val it)).

Lemma ident_char_facts c : ident_char c = true ->
  c <> cSP /\ c <> cTAB /\ c <> cHASH /\ c <> cSLASH /\ c <> cLBRACE /\ c <> cRBRACE /\
  c <> cEQ /\ c <> cCOLON /\ c <> cLF.
Proof.
  unfold ident_char, isalnum, isalpha, isupper, islower, isdigit, between. intros H.
  repeat split; intros ->; done.
Qed.

Lemma name_ok_key w : name_ok w = true -> lib_key w.
Proof.
  unfold name_ok. intros H. apply andb_prop in H as [H H3]. apply andb_prop in H as [H1 H2].
  apply Nat.leb_le in H2. rewrite forallb_forall in H3.
  assert (G : forall c, c ∈ w -> ident_char c = true /\ 0 < c < 256).
  { intros c Hc. apply list_elem_of_In, H3 in Hc. b2p. auto. }
  assert (N : forall c, c ∈ w -> isWS c = false).
  { intros c Hc. apply G in Hc as [Hc _]. apply ident_char_facts in Hc as (? & ? & _).
    unfold isWS. apply orb_false_iff. by split; apply Z.eqb_neq. }
  split_and!.
  - by intros ->.
  - done.
  - apply Forall_forall. intros c Hc. by apply G.
  - intros c Hc. destruct w as [|d w]; [done|]. injection Hc as ->.
    destruct (G c) as [Hi _]; [apply elem_of_cons; by left|].
    apply ident_char_facts in Hi as (? & ? & ? & ? & ? & ? & _).
    repeat (apply not_elem_of_cons; split; [done|]). apply not_elem_of_nil.
  - intros c Hc. apply N. by apply last_Some_elem_of.
  - intros Hc. apply G in Hc as [Hc _]. apply ident_char_facts in Hc; tauto.
  - intros Hc. apply G in Hc as [Hc _]. apply ident_char_facts in Hc; tauto.
  - intros Hc. apply G in Hc as [Hc _]. apply ident_char_facts in Hc; tauto.
Qed.

(** the key is written in a form the reader maps back *)
Lemma place_key it : lib_clean it ->
  lib_key (snd (place it)) /\
  let gk := group_key (default [] (fst (place it))) (snd (place it)) in
  default gk (cfgWoplToOurs gk) = cv_key it /\
  match fst (place it) with Some g => g ∈ cfgLibconfigGroups | None => True end.
Proof.
  intros (Hok & Hv & Hk). unfold place. destruct (cfgOursToWopl (cv_key it)) as [w|] eqn:E.
  - destruct (wopl_name_ok _ _ E) as [Hn Hg]. apply wopl_table in E.
    destruct (cfgMatchGroup w) as [[g sub]|]; cbn [fst snd from_option]; cbv zeta.
    + destruct Hg as (Hs & -> & Hin). split; [by apply name_ok_key|]. split; [|done].
      assert (Hgk : group_key g sub = g ++ [cUSCORE] ++ sub).
      { unfold group_key. rewrite bool_decide_eq_true_2; [done|].
        intros ->. by repeat (apply elem_of_cons in Hin as [?|Hin]; [done|]). }
      cbn [id]. unfold id. by rewrite Hgk, E.
    + split; [by apply name_ok_key|]. split; [|done]. unfold group_key. rewrite bool_decide_eq_false_2 by auto. by rewrite E.
  - destruct (Hk eq_refl) as [H1 H2]. cbn [fst snd from_option]; cbv zeta. split; [done|]. split; [|done].
    unfold group_key. rewrite bool_decide_eq_false_2 by auto. by rewrite H2.
Qed.

Definition in_place (o : option bytes) (it : config_value) : bool := bool_decide (fst (place it) = o).

Definition item_text (indent : bytes) (it : config_value) : bytes := lib_text indent (snd (place it)) (cv_val it).

Definition group_items (items : list config_value) (o : option bytes) : list config_value :=
  base.filter (fun it => in_place o it = true) items.

Definition group_lines (items : list config_value) (g : bytes) : list bytes :=
  match group_items items (Some g) with
  | [] => []
  | its => (g ++ bs " :") :: [cLBRACE] :: map (item_text (bs "  ")) its ++ [[cRBRACE; cSEMI]]
  end.

Definition lib_lines (items : list config_value) : list bytes :=
  map (item_text []) (group_items items None) ++ concat (map (group_lines items) cfgLibconfigGroups).

Lemma written_line indent it : lib_clean it -> indent_ok indent ->
  cfgWriteLibconfigLine indent (snd (place it)) (cv_val it) = item_text indent it ++ [cLF].
Proof.
  intros Hc [Hi _]. destruct (place_key it Hc) as [(_ & Hk & _) _]. destruct Hc as (_ & Hv & _).
  destruct Hv as (_ & _ & _ & _ & _ & Hel).
  pose proof (proj1 (escape_length (cv_val it))) as Hl.
  unfold cfgWriteLibconfigLine, item_text, lib_text, payload, libconfig_line_size.
  unfold CONFIG_KEY_NAME_LEN, CONFIG_KEY_VALUE_LEN.
  change (bs " = ") with [cSP; cEQ; cSP].
  destruct (cfgValueIsBareScalar (cv_val it)).
  - rewrite bufcpy_id; [by rewrite <- !app_assoc|]. rewrite !length_app. cbn [length]. lia.
  - rewrite esc_loop_escape by lia. rewrite bufcpy_id; [by rewrite <- !app_assoc|].
    rewrite !length_app. cbn [length]. lia.
Qed.

Lemma omap_filter {A B} (f : A -> option B) (g : A -> B) (P : A -> bool) l :
  (forall x, x ∈ l -> f x = if P x then Some (g x) else None) ->
  omap f l = map g (base.filter (fun x => P x = true) l).
Proof.
  intros H. rewrite (omap_map f g (fun x => negb (P x))).
  - f_equal. apply list_filter_iff. intros x. by destruct (P x).
  - intros x Hx. rewrite H by done. by destruct (P x).
Qed.

Lemma omap_skip {A B} (f : A -> option B) (P : A -> bool) (l : list A) :
  (forall x, P x = true -> f x = None) -> omap f l = omap f (base.filter (fun x => P x = false) l).
Proof.
  intros H. induction l as [|x l IH]; [done|]. rewrite filter_cons. cbn [omap list_omap].
  destruct (P x) eqn:E.
  - rewrite (H x E), decide_False by done. exact IH.
  - rewrite decide_True by done. cbn [omap list_omap]. by rewrite IH.
Qed.

Lemma unlines_app a b : unlines (a ++ b) = unlines a ++ unlines b.
Proof. unfold unlines. by rewrite map_app, concat_app. Qed.

Lemma concat_terminated ls : concat (map (fun l => l ++ [cLF]) ls) = unlines ls.
Proof. done. Qed.

Lemma group_block_text cs g :
  Forall lib_clean (kept cs) -> g ∈ cfgLibconfigGroups ->
  concat (group_block (cs_items cs) g) = unlines (group_lines (kept cs) g).
Proof.
  intros Hc Hg. unfold group_block, group_lines, group_items.
  rewrite (omap_skip _ skipped) by (intros it Hs; unfold group_line; by rewrite Hs).
  fold (kept cs).
  rewrite (omap_filter _ (fun it => item_text (bs "  ") it ++ [cLF]) (in_place (Some g))).
  2:{ intros it Hin. rewrite Forall_forall in Hc. pose proof (Hc it Hin) as Hit.
      unfold kept in Hin. apply list_elem_of_filter in Hin as [Hs _].
      unfold group_line, in_place. rewrite Hs. pose proof (written_line (bs "  ") it Hit) as W.
      unfold place in *. destruct (cfgOursToWopl (cv_key it)) as [w|]; [|done].
      destruct (cfgMatchGroup w) as [[g' sub]|]; [|done]. cbn [fst snd] in *. unfold streq.
      destruct (decide (g' = g)) as [->|Hne].
      - rewrite !bool_decide_eq_true_2 by done. f_equal. apply W. split; [done|]. by repeat constructor.
      - rewrite !bool_decide_eq_false_2 by congruence. done. }
  set (its := base.filter _ (kept cs)). destruct its as [|i its']; [done|].
  cbn [map concat]. unfold unlines. cbn [map concat]. rewrite map_app, concat_app. cbn [map concat].
  rewrite bufcpy_id.
  2:{ rewrite !length_app. cbn. assert (length g <= 8)%nat; [|lia].
      repeat (apply elem_of_cons in Hg as [->|Hg]; [cbn; lia|]). by apply not_elem_of_nil in Hg. }
  rewrite !concat_app. cbn [concat]. rewrite map_map. rewrite !app_nil_r. rewrite <- !app_assoc.
  done.
Qed.

Lemma lib_config_text cs :
  cs_format cs = CFG_FMT_LIBCONFIG -> Forall lib_clean (kept cs) ->
  config_text cs = unlines (lib_lines (kept cs)).
Proof.
  intros Hf Hc. unfold config_text, config_chunks, cfgWriteLibconfig, lib_lines. rewrite Hf.
  rewrite unlines_app, concat_app. f_equal.
  - rewrite (omap_skip _ skipped) by (intros it Hs; unfold root_line; by rewrite Hs).
    fold (kept cs). unfold group_items.
    rewrite (omap_filter _ (fun it => item_text [] it ++ [cLF]) (in_place None)).
    + unfold unlines. by rewrite map_map.
    + intros it Hin. rewrite Forall_forall in Hc. pose proof (Hc it Hin) as Hit.
      unfold kept in Hin. apply list_elem_of_filter in Hin as [Hs _].
      unfold root_line, in_place. rewrite Hs. pose proof (written_line [] it Hit) as W.
      unfold place in *. destruct (cfgOursToWopl (cv_key it)) as [w|].
      * destruct (cfgMatchGroup w) as [[g' sub]|]; [done|]. cbn [fst snd] in *.
        rewrite bool_decide_eq_true_2 by done. f_equal. apply W. split; [cbn; lia|constructor].
      * cbn [fst snd] in *. rewrite bool_decide_eq_true_2 by done. f_equal. apply W. split; [cbn; lia|constructor].
  - assert (G : forall gs, (forall g, g ∈ gs -> g ∈ cfgLibconfigGroups) ->
      concat (concat (map (group_block (cs_items cs)) gs)) = unlines (concat (map (group_lines (kept cs)) gs))).
    { induction gs as [|g gs IH]; intros Hgs; [done|]. cbn [map concat].
      rewrite concat_app, unlines_app, group_block_text, IH; auto.
      - intros g' Hg'. apply Hgs, elem_of_cons. by right.
      - apply Hgs, elem_of_cons. by left. }
    by apply G.
Qed.

(** ** Reading the libconfig file back *)

Definition lib_reader (g : bytes) (cs : config_set) : reader := Reader (Some CFG_FMT_LIBCONFIG) g [] cs.

Lemma read_item_line indent o it cs :
  lib_clean it -> indent_ok indent -> in_place o it = true -> cs_ok cs -> (cv_key it ∉ cv_key <$> cs_items cs) ->
  exists b, read_line (lib_reader (default [] o) cs) (item_text indent it) =
            lib_reader (default [] o) (set_modified b (set_items (fun l => l ++ [esc_item it]) cs)).
Proof.
  intros Hc Hi Hp Hok Hn. unfold in_place in Hp. b2p. subst o.
  destruct (place_key it Hc) as (Hk & Hgk & Hg). destruct Hc as (Hit & Hv & _).
  pose proof Hv as (_ & _ & _ & _ & _ & Hvl).
  unfold read_line, lib_reader, item_text. cbn [rd_fmt rd_group rd_prefix rd_set].
  rewrite read_lib_line; auto.
  2:{ destruct (fst (place it)) as [g|]; cbn [from_option id]; [|cbn; lia].
      repeat (apply elem_of_cons in Hg as [->|Hg]; [cbn; lia|]). by apply not_elem_of_nil in Hg. }
  cbv zeta in Hgk. rewrite Hgk. destruct Hit as [Hko Hvo].
  destruct (configSetStr_fresh cs (cv_key it) (escape (cv_val it)) Hok Hko Hn) as [b Eb].
  exists b. rewrite Eb. unfold cut_item, esc_item. cbn [cv_key cv_val].
  rewrite bufcpy_id by (unfold CONFIG_KEY_VALUE_LEN; lia). done.
Qed.

(** a set with more items, its dirty flag aside *)
Definition grown (cs : config_set) (l : list config_value) (cs' : config_set) : Prop :=
  exists b, cs' = set_modified b (set_items (fun l0 => l0 ++ l) cs).

Lemma grown_trans cs l cs1 l' cs2 : grown cs l cs1 -> grown cs1 l' cs2 -> grown cs (l ++ l') cs2.
Proof.
  intros [b ->] [b' ->]. exists b'. unfold set_modified, set_items. cbn. by rewrite app_assoc.
Qed.

Lemma grown_nil cs : grown cs [] cs.
Proof. exists (cs_modified cs). unfold set_modified, set_items. cbn. rewrite app_nil_r. by destruct cs. Qed.

Lemma lib_clean_esc_ok it : lib_clean it -> cv_ok (esc_item it).
Proof.
  intros ((Hk & _) & (_ & _ & _ & _ & _ & Hl) & _). split; [done|]. cbn.
  unfold CONFIG_KEY_VALUE_LEN. lia.
Qed.

Lemma grown_ok cs l cs' :
  cs_ok cs -> Forall lib_clean l -> NoDup (cv_key <$> (cs_items cs ++ l)) ->
  grown cs (map esc_item l) cs' ->
  cs_ok cs' /\ cv_key <$> cs_items cs' = cv_key <$> (cs_items cs ++ l).
Proof.
  intros [Hok Hnd] Hl Hn [b ->].
  assert (Ei : cs_items (set_modified b (set_items (fun l0 => l0 ++ map esc_item l) cs)) = cs_items cs ++ map esc_item l) by done.
  unfold cs_ok. rewrite Ei.
  assert (E : cv_key <$> (cs_items cs ++ map esc_item l) = cv_key <$> (cs_items cs ++ l)).
  { rewrite !fmap_app. f_equal. clear. induction l as [|x l IH]; [done|]. cbn. f_equal. exact IH. }
  split; [|done]. split; [|by rewrite E]. apply Forall_app. split; [done|].
  apply Forall_map. eapply Forall_impl; [exact Hl|]. apply lib_clean_esc_ok.
Qed.

Lemma read_items_fold indent o its : forall cs,
  Forall (fun it => lib_clean it /\ in_place o it = true) its -> indent_ok indent ->
  cs_ok cs -> NoDup (cv_key <$> (cs_items cs ++ its)) ->
  exists cs', fold_left read_line (map (item_text indent) its) (lib_reader (default [] o) cs) =
              lib_reader (default [] o) cs' /\ grown cs (map esc_item its) cs'.
Proof.
  induction its as [|it its IH]; intros cs Hc Hi Hok Hnd.
  { exists cs. split; [done|]. apply grown_nil. }
  apply Forall_cons in Hc as [[Hc Hp] Hcs]. cbn [map fold_left].
  assert (Hfresh : cv_key it ∉ cv_key <$> cs_items cs).
  { rewrite fmap_app in Hnd. apply NoDup_app in Hnd as (_ & Hd & _). intros Hin.
    apply (Hd _ Hin). cbn. apply elem_of_cons. by left. }
  destruct (read_item_line indent o it cs Hc Hi Hp Hok Hfresh) as [b ->].
  set (cs1 := set_modified b _).
  assert (G1 : grown cs (map esc_item [it]) cs1) by (by exists b).
  destruct (grown_ok cs [it] cs1 Hok) as [Hok1 Hk1]; auto.
  { rewrite fmap_app in Hnd |- *. cbn in Hnd |- *. apply NoDup_app in Hnd as (H1 & H2 & H3).
    apply NoDup_app. split_and!; [done| |by apply NoDup_singleton].
    intros x Hx Hin. apply (H2 x Hx). apply list_elem_of_singleton in Hin as ->. apply elem_of_cons. by left. }
  destruct (IH cs1 Hcs Hi Hok1) as (cs' & E & G).
  { rewrite fmap_app, Hk1, <- fmap_app, <- app_assoc. exact Hnd. }
  exists cs'. split; [exact E|]. exact (grown_trans _ _ _ _ _ G1 G).
Qed.

Lemma read_header_lines g cs : g ∈ cfgLibconfigGroups ->
  read_line (read_line (lib_reader [] cs) (g ++ bs " :")) [cLBRACE] = lib_reader g cs /\
  read_line (lib_reader g cs) [cRBRACE; cSEMI] = lib_reader [] cs.
Proof.
  intros Hg. split; [|done].
  repeat (apply elem_of_cons in Hg as [->|Hg]; [reflexivity|]). by apply not_elem_of_nil in Hg.
Qed.

Lemma read_group_fold items g cs :
  g ∈ cfgLibconfigGroups -> Forall lib_clean items -> cs_ok cs ->
  NoDup (cv_key <$> (cs_items cs ++ group_items items (Some g))) ->
  exists cs', fold_left read_line (group_lines items g) (lib_reader [] cs) = lib_reader [] cs' /\
              grown cs (map esc_item (group_items items (Some g))) cs'.
Proof.
  intros Hg Hc Hok Hnd. unfold group_lines.
  assert (Hits : Forall (fun it => lib_clean it /\ in_place (Some g) it = true) (group_items items (Some g))).
  { apply Forall_forall. intros it Hin. apply list_elem_of_filter in Hin as [Hp Hin].
    rewrite Forall_forall in Hc. auto. }
  destruct (group_items items (Some g)) as [|i its] eqn:E.
  { exists cs. split; [done|]. apply grown_nil. }
  rewrite <- E in *. cbn [app].
  change (fold_left read_line ((g ++ bs " :") :: [cLBRACE] :: ?x) ?r) with
    (fold_left read_line x (read_line (read_line r (g ++ bs " :")) [cLBRACE])).
  rewrite (proj1 (read_header_lines g cs Hg)), fold_left_app.
  destruct (read_items_fold (bs "  ") (Some g) _ cs Hits) as (cs' & Ef & G); auto.
  { split; [done|]. by repeat constructor. }
  cbn [default from_option id] in Ef. rewrite Ef. exists cs'. split; [|done].
  cbn [fold_left]. by apply read_header_lines.
Qed.

Lemma nodup_keys_prefix cs (l l' : list config_value) :
  NoDup (cv_key <$> (cs_items cs ++ l ++ l')) -> NoDup (cv_key <$> (cs_items cs ++ l)).
Proof. rewrite app_assoc, fmap_app. by intros (? & _)%NoDup_app. Qed.

Lemma read_groups_fold items gs : forall cs,
  (forall g, g ∈ gs -> g ∈ cfgLibconfigGroups) -> Forall lib_clean items -> cs_ok cs ->
  NoDup (cv_key <$> (cs_items cs ++ concat (map (fun g => group_items items (Some g)) gs))) ->
  exists cs', fold_left read_line (concat (map (group_lines items) gs)) (lib_reader [] cs) = lib_reader [] cs' /\
              grown cs (map esc_item (concat (map (fun g => group_items items (Some g)) gs))) cs'.
Proof.
  induction gs as [|g gs IH]; intros cs Hg Hc Hok Hnd.
  { exists cs. split; [done|]. apply grown_nil. }
  cbn [map concat] in *. rewrite fold_left_app.
  destruct (read_group_fold items g cs) as (cs1 & -> & G1); auto.
  { apply Hg, elem_of_cons. by left. }
  { by eapply nodup_keys_prefix. }
  destruct (grown_ok cs _ cs1 Hok (Forall_filter _ _ _ Hc) (nodup_keys_prefix _ _ _ Hnd) G1) as [Hok1 Hk1].
  destruct (IH cs1) as (cs' & E & G); auto.
  { intros g' Hg'. apply Hg, elem_of_cons. by right. }
  { rewrite fmap_app, Hk1, <- fmap_app, <- app_assoc. exact Hnd. }
  exists cs'. split; [done|]. rewrite map_app. exact (grown_trans _ _ _ _ _ G1 G).
Qed.

(** the order in which the writer emits the items *)
Definition emitted (items : list config_value) : list config_value :=
  group_items items None ++ concat (map (fun g => group_items items (Some g)) cfgLibconfigGroups).

Lemma filter_cover {K} `{EqDecision K} (f : config_value -> K) ks (l : list config_value) :
  NoDup ks ->
  concat (map (fun k => base.filter (fun x => bool_decide (f x = k) = true) l) ks) ≡ₚ
  base.filter (fun x => f x ∈ ks) l.
Proof.
  induction 1 as [|k ks Hk Hks IH]; cbn [map concat].
  - induction l as [|x l IHl]; [done|]. rewrite filter_cons, decide_False; [done|]. apply not_elem_of_nil.
  - rewrite IH. clear IH. induction l as [|x l IHl]; [done|]. rewrite !filter_cons.
    destruct (decide (f x = k)) as [E|E].
    + rewrite (decide_True (P := bool_decide _ = true)) by (by apply bool_decide_eq_true).
      rewrite (decide_False (P := f x ∈ ks)) by congruence.
      rewrite decide_True by (apply elem_of_cons; by left). cbn. by f_equiv.
    + rewrite (decide_False (P := bool_decide _ = true)) by (by rewrite bool_decide_eq_true).
      destruct (decide (f x ∈ ks)).
      * rewrite decide_True by (apply elem_of_cons; by right). rewrite <- IHl. symmetry. apply Permutation_middle.
      * rewrite decide_False by (rewrite elem_of_cons; tauto). exact IHl.
Qed.

Lemma emitted_permutation items : Forall lib_clean items -> emitted items ≡ₚ items.
Proof.
  intros Hc. pose proof (filter_cover (fun it => fst (place it)) (None :: map Some cfgLibconfigGroups) items) as H.
  cbn [map concat] in H.
  unfold emitted, group_items, in_place. rewrite map_map in H. rewrite H.
  - clear H. induction Hc as [|it l Hit Hc IH]; [done|]. rewrite filter_cons, decide_True.
    + by rewrite IH.
    + destruct (place_key it Hit) as (_ & _ & Hg). destruct (fst (place it)) as [g|]; apply elem_of_cons; [right|by left].
      apply list_elem_of_fmap. by exists g.
  - by apply (bool_decide_unpack _).
Qed.

(** ** The format is settled by the first meaningful line *)

Lemma configSetStr_format cs k v : cs_format (snd (configSetStr cs k v)) = cs_format cs.
Proof. unfold configSetStr, addConfigValue. by repeat case_match. Qed.

Lemma cfgReadLibconfigLine_format l g n cs : cs_format (snd (cfgReadLibconfigLine l g n cs)) = cs_format cs.
Proof.
  unfold cfgReadLibconfigLine. destruct (skipWS l); [done|]. cbv zeta.
  repeat (match goal with |- context [match ?x with _ => _ end] =>
            match x with cfgWoplToOurs _ => fail 1 | _ => destruct x end end; try done);
    cbn [snd]; by rewrite configSetStr_format.
Qed.

Lemma read_line_latched r l f :
  rd_fmt r = Some f -> cs_format (rd_set r) = f ->
  rd_fmt (read_line r l) = Some f /\ cs_format (rd_set (read_line r l)) = f.
Proof.
  intros Hf Hc. unfold read_line. rewrite Hf. destruct f.
  - destruct (splitAssignment _ _ _) as [[k v]|].
    + cbn [rd_fmt rd_set]. split; [done|]. destruct (bool_decide _); by rewrite configSetStr_format.
    + by destruct (parsePrefix _ _).
  - pose proof (cfgReadLibconfigLine_format l (rd_group r) CONFIG_KEY_NAME_LEN (rd_set r)) as H.
    destruct (cfgReadLibconfigLine _ _ _ _) as [g cs]. cbn in *. by rewrite H.
Qed.

Lemma read_lines_latched ls : forall r f,
  rd_fmt r = Some f -> cs_format (rd_set r) = f -> cs_format (rd_set (fold_left read_line ls r)) = f.
Proof.
  induction ls as [|l ls IH]; intros r f H1 H2; [done|]. cbn.
  destruct (read_line_latched r l f H1 H2). by apply IH.
Qed.

Definition class_format (c : cfg_line) : option cfg_fmt :=
  match c with
  | CFG_LINE_LEGACY => Some CFG_FMT_LEGACY
  | CFG_LINE_LIBCONFIG => Some CFG_FMT_LIBCONFIG
  | CFG_LINE_BLANK | CFG_LINE_COMMENT => None
  end.

(** the first line that is an assignment or a header *)
Definition first_meaningful (ls : list bytes) : option cfg_fmt :=
  head (omap (fun l => class_format (cfgClassifyLine l)) ls).

Lemma read_line_latch l cs f :
  class_format (cfgClassifyLine l) = Some f ->
  rd_fmt (read_line (Reader None [] [] cs) l) = Some f /\
  cs_format (rd_set (read_line (Reader None [] [] cs) l)) = f.
Proof.
  intros H. assert (E : read_line (Reader None [] [] cs) l = read_line (Reader (Some f) [] [] (set_format f cs)) l).
  { unfold read_line. cbn [rd_fmt rd_group rd_prefix rd_set]. by destruct (cfgClassifyLine l); simplify_eq/=. }
  rewrite E. by apply read_line_latched.
Qed.

(** the syntax a file is read in is the class of its first line that is neither
    blank nor a comment *)
Lemma read_lines_format cs ls :
  cs_format (read_config_lines cs ls) = default (cs_format cs) (first_meaningful ls).
Proof.
  unfold read_config_lines, first_meaningful. cbn [set_modified cs_format].
  induction ls as [|l ls IH]; [done|]. cbn [fold_left omap list_omap].
  destruct (class_format (cfgClassifyLine l)) as [f|] eqn:E.
  - destruct (read_line_latch l cs f E). cbn [head from_option id]. by apply read_lines_latched.
  - assert (H : read_line (Reader None [] [] cs) l = Reader None [] [] cs).
    { unfold read_line. cbn [rd_fmt]. by destruct (cfgClassifyLine l). }
    rewrite H. exact IH.
Qed.

Lemma classify_lib key v : lib_key key -> lib_val v ->
  cfgClassifyLine (lib_text [] key v) =
  if cfgIsLibconfigIdent key then CFG_LINE_LIBCONFIG else CFG_LINE_LEGACY.
Proof.
  intros Hk Hv. destruct (payload_read v Hv) as (_ & _ & Hpne).
  pose proof Hk as (Hkne & _ & _ & _ & _ & Heq & _).
  unfold cfgClassifyLine, lib_text. cbn [app]. rewrite lib_key_skip by done.
  destruct (lib_key_head key (cSP :: cEQ :: cSP :: payload v ++ [cSEMI]) Hk) as (c & s & E & N1 & _ & _ & N4).
  rewrite N4, E. rewrite (proj2 (Z.eqb_neq c _)) by done. rewrite <- E.
  change (cSP :: cEQ :: cSP :: payload v ++ [cSEMI]) with ([cSP; cEQ; cSP] ++ (payload v ++ [cSEMI])).
  rewrite strchr_eq_key by done.
  rewrite (trimWS_stop _ cSEMI); [|by rewrite !app_assoc, last_snoc|done].
  rewrite !length_app. cbn [length]. destruct (Nat.leb_spec (length key + (3 + (length (payload v) + 1))) (S (length key))); [lia|].
  replace (S (length key) - 1)%nat with (length key) by lia.
  rewrite list_lookup_total_alt, lookup_app_r, Nat.sub_diag by lia. cbn [app lookup list_lookup default from_option id].
  change (isWS cSP) with true. rewrite bool_decide_eq_true_2.
  2:{ change (cSP :: cEQ :: cSP :: payload v ++ [cSEMI]) with ([cSP; cEQ; cSP] ++ payload v ++ [cSEMI]).
      by rewrite !app_assoc, last_snoc. }
  cbn [Nat.ltb Nat.leb andb].
  replace (take (S (length key)) _) with (key ++ [cSP]).
  2:{ change (cSP :: cEQ :: ?x) with ([cSP] ++ cEQ :: x). rewrite app_assoc, take_app_length'; [done|].
      rewrite length_app. cbn. lia. }
  by rewrite trim_key_sp.
Qed.

(** ** The libconfig round trip *)

Lemma cstring_cons c s : 0 < c < 256 -> cstring s -> cstring (c :: s).
Proof. by constructor. Qed.

Lemma escape_cstring v : cstring v -> cstring (escape v).
Proof. induction 1 as [|c v Hc Hv IH]; [constructor|]. cbn. destruct (special c); repeat constructor; auto; lia. Qed.

Lemma payload_cstring v : lib_val v -> cstring (payload v) /\ (cLF ∉ payload v).
Proof.
  intros (_ & Hc & Hlf & _). unfold payload. destruct (cfgValueIsBareScalar v); [done|]. split.
  - apply cstring_app. split; [repeat constructor; lia|]. apply cstring_app.
    split; [by apply escape_cstring|repeat constructor; lia].
  - rewrite !not_elem_of_app, !not_elem_of_cons. split_and!; try done; try apply not_elem_of_nil.
    intros Hin. by apply escape_elem in Hin as [?|?].
Qed.

Lemma item_text_clean indent it : lib_clean it -> indent_ok indent -> clean_line (item_text indent it).
Proof.
  intros Hc [_ Hi]. destruct (place_key it Hc) as [Hk _]. destruct Hc as (_ & Hv & _).
  destruct (payload_cstring _ Hv) as [Hp1 Hp2].
  pose proof Hk as (Hne & _ & Hck & Hh & _ & _ & _ & Hlf).
  assert (Hic : cstring indent /\ (cLF ∉ indent)).
  { split; [eapply Forall_impl; [exact Hi|]; intros c ->; lia|].
    intros Hin. rewrite Forall_forall in Hi. by specialize (Hi _ Hin). }
  unfold item_text, lib_text. split_and!.
  - repeat (apply cstring_app; split); try tauto; repeat constructor; lia.
  - rewrite !not_elem_of_app, !not_elem_of_cons. split_and!; try done; try apply not_elem_of_nil; tauto.
  - rewrite !app_assoc, last_snoc. done.
  - unfold is_comment. apply bool_decide_eq_false. destruct Hi as [|c i -> Hi]; [|done].
    destruct (snd (place it)) as [|c k]; [done|]. cbn. intros [= ->].
    specialize (Hh cHASH eq_refl). rewrite !not_elem_of_cons in Hh. tauto.
Qed.

Lemma group_clean_lines g : g ∈ cfgLibconfigGroups -> Forall clean_line [g ++ bs " :"; [cLBRACE]; [cRBRACE; cSEMI]].
Proof.
  intros Hg.
  assert (G : forall l, forallb (fun c => (0 <? c) && (c <? 256) && negb (c =? cLF)) l
             && negb (bool_decide (last l = Some cCR)) && negb (is_comment l) = true -> clean_line l).
  { intros l H. b2p. rewrite forallb_forall in H. unfold clean_line. split_and!; try done.
    - apply Forall_forall. intros c Hc. apply list_elem_of_In, H in Hc. b2p. lia.
    - intros Hc. apply list_elem_of_In, H in Hc. done. }
  repeat (apply elem_of_cons in Hg as [->|Hg]; [repeat (apply Forall_cons; split; [by apply G|]); constructor|]).
  by apply not_elem_of_nil in Hg.
Qed.

Lemma lib_lines_clean items : Forall lib_clean items -> Forall clean_line (lib_lines items).
Proof.
  intros Hc. unfold lib_lines. apply Forall_app. split.
  - apply Forall_map, Forall_filter. eapply Forall_impl; [exact Hc|]. intros it Hit.
    apply item_text_clean; [done|]. split; [cbn; lia|constructor].
  - apply Forall_concat, Forall_map, Forall_forall. intros g Hg. unfold group_lines.
    pose proof (group_clean_lines g Hg) as Hh.
    rewrite !Forall_cons in Hh. destruct Hh as (H1 & H2 & H3 & _).
    assert (Hits : Forall lib_clean (group_items items (Some g))) by by apply Forall_filter.
    destruct (group_items items (Some g)) as [|i its] eqn:E; [constructor|]. rewrite <- E in *. cbn [app].
    constructor; [done|]. constructor; [done|]. apply Forall_app. split; [|constructor; [done|constructor]].
    apply Forall_map. eapply Forall_impl; [exact Hits|]. intros it Hit.
    apply item_text_clean; [done|]. split; [cbn; lia|by repeat constructor].
Qed.

Lemma read_line_first cs l :
  cfgClassifyLine l = CFG_LINE_LIBCONFIG ->
  read_line (Reader None [] [] cs) l = read_line (lib_reader [] (set_format CFG_FMT_LIBCONFIG cs)) l.
Proof. intros H. unfold read_line. cbn [rd_fmt]. by rewrite H. Qed.

Lemma read_lib_lines items it0 its cs :
  Forall lib_clean items -> cs_ok cs -> cs_items cs = [] -> NoDup (cv_key <$> emitted items) ->
  group_items items None = it0 :: its -> cfgIsLibconfigIdent (snd (place it0)) = true ->
  exists cs', read_config_lines cs (lib_lines items) = set_modified false cs' /\
              grown (set_format CFG_FMT_LIBCONFIG cs) (map esc_item (emitted items)) cs'.
Proof.
  intros Hc Hok Hemp Hnd E Hid.
  assert (Hr : Forall (fun it => lib_clean it /\ in_place None it = true) (group_items items None)).
  { apply Forall_forall. intros it Hin. apply list_elem_of_filter in Hin as [Hp Hin].
    rewrite Forall_forall in Hc. auto. }
  set (cs0 := set_format CFG_FMT_LIBCONFIG cs). assert (Hok0 : cs_ok cs0) by done.
  assert (Hi0 : cs_items cs0 = []) by done.
  assert (Hfirst : fold_left read_line (lib_lines items) (Reader None [] [] cs) =
                   fold_left read_line (lib_lines items) (lib_reader [] cs0)).
  { unfold lib_lines. rewrite E. cbn [map app fold_left]. rewrite read_line_first; [done|].
    rewrite E in Hr. apply Forall_cons in Hr as [[(Hx & Hv & Hy) _] _]. unfold item_text. rewrite classify_lib; auto.
    - by rewrite Hid.
    - by apply place_key. }
  unfold read_config_lines. rewrite Hfirst. unfold lib_lines. rewrite fold_left_app.
  unfold emitted in Hnd.
  destruct (read_items_fold [] None _ cs0 Hr) as (cs1 & E1 & G1); auto.
  { split; [cbn; lia|constructor]. }
  { rewrite Hi0. cbn [app]. rewrite fmap_app in Hnd. by apply NoDup_app in Hnd as (? & _). }
  cbn [from_option default id] in E1. change (default [] (None : option bytes)) with ([] : bytes) in E1. rewrite E1.
  destruct (grown_ok cs0 (group_items items None) cs1 Hok0 ltac:(by apply Forall_filter)) as [Hok1 Hk1]; auto.
  { rewrite Hi0. cbn [app]. rewrite fmap_app in Hnd. by apply NoDup_app in Hnd as (? & _). }
  destruct (read_groups_fold items cfgLibconfigGroups cs1) as (cs2 & E2 & G2); auto.
  { rewrite fmap_app, Hk1, <- fmap_app, Hi0. exact Hnd. }
  rewrite E2. exists cs2. split; [done|]. unfold emitted. rewrite map_app. exact (grown_trans _ _ _ _ _ G1 G2).
Qed.

Lemma lib_reread_text {D} `{!Device D} `{!FileDevice D} cs cs0 :
  cs_format cs = CFG_FMT_LIBCONFIG -> Forall lib_clean (kept cs) ->
  configReadBuffer (D := D) cs0 (config_text cs) = Some (read_config_lines cs0 (lib_lines (kept cs))).
Proof.
  intros Hf Hc. rewrite lib_config_text by done. apply configReadBuffer_unlines. by apply lib_lines_clean.
Qed.

(** Saving a libconfig set and loading it into a fresh one keeps every
    persistent setting under its key, in the order the writer groups them, and the
    format; each value comes back with the writer's escapes still in it, so the
    ones with no quote or backslash come back as they were. *)
Theorem libconfig_reread {D} `{!Device D} `{!FileDevice D} cs uid ty fname it0 its :
  cs_ok cs -> cs_format cs = CFG_FMT_LIBCONFIG -> Forall lib_clean (kept cs) ->
  group_items (kept cs) None = it0 :: its -> cfgIsLibconfigIdent (snd (place it0)) = true ->
  exists cs', configReadBuffer (D := D) (configAlloc uid ty fname) (config_text cs) = Some cs' /\
    cs_items cs' = map esc_item (emitted (kept cs)) /\
    cs_items cs' ≡ₚ map esc_item (kept cs) /\
    cs_format cs' = CFG_FMT_LIBCONFIG /\ cs_modified cs' = false.
Proof.
  intros Hok Hf Hc Hh Hid. pose proof (emitted_permutation _ Hc) as Hp.
  rewrite lib_reread_text by done.
  destruct (read_lib_lines (kept cs) it0 its (configAlloc uid ty fname) Hc) as (cs' & E & [b G]); auto.
  { split; [constructor|constructor]. }
  { rewrite Hp. by apply kept_nodup. }
  exists (set_modified false cs'). rewrite E, G. cbn. split_and!; auto. by apply Permutation_map.
Qed.

(** The format itself survives the save exactly when the file's first line is
    a root assignment to an identifier: a set whose settings all live in groups, or
    whose first root key starts with '$', is taken for a legacy file on the next load. *)
Theorem libconfig_format_survives {D} `{!Device D} `{!FileDevice D} cs cs0 :
  cs_format cs = CFG_FMT_LIBCONFIG -> Forall lib_clean (kept cs) -> kept cs <> [] ->
  exists cs', configReadBuffer (D := D) cs0 (config_text cs) = Some cs' /\
    cs_format cs' =
      match group_items (kept cs) None with
      | it0 :: _ => if cfgIsLibconfigIdent (snd (place it0)) then CFG_FMT_LIBCONFIG else CFG_FMT_LEGACY
      | [] => CFG_FMT_LEGACY
      end.
Proof.
  intros Hf Hc Hne. rewrite lib_reread_text by done. eexists. split; [done|].
  rewrite read_lines_format. unfold first_meaningful, lib_lines.
  destruct (group_items (kept cs) None) as [|it0 its] eqn:E.
  - cbn [map app]. pose proof (emitted_permutation _ Hc) as Hp. unfold emitted in Hp. rewrite E in Hp. cbn [app] in Hp.
    assert (G : forall gs, (forall g, g ∈ gs -> g ∈ cfgLibconfigGroups) ->
      concat (map (fun g => group_items (kept cs) (Some g)) gs) <> [] ->
      exists g r, g ∈ cfgLibconfigGroups /\ concat (map (group_lines (kept cs)) gs) = (g ++ bs " :") :: r).
    { induction gs as [|g gs IH]; intros Hg Hx; [done|]. cbn [map concat] in *. unfold group_lines at 1.
      destruct (group_items (kept cs) (Some g)) as [|i l].
      - apply IH; [|done]. intros g' Hg'. apply Hg, elem_of_cons. by right.
      - eexists g, _. split; [|done]. apply Hg, elem_of_cons. by left. }
    destruct (G cfgLibconfigGroups) as (g & r & Hg & ->); [done| |].
    { intros X. rewrite X in Hp. by apply Permutation_nil in Hp. }
    assert (Hcl : cfgClassifyLine (g ++ bs " :") = CFG_LINE_LEGACY).
    { repeat (apply elem_of_cons in Hg as [->|Hg]; [reflexivity|]). by apply not_elem_of_nil in Hg. }
    cbn [omap list_omap]. by rewrite Hcl.
  - cbn [map app omap list_omap].
    assert (Hit : lib_clean it0).
    { rewrite Forall_forall in Hc. apply Hc. assert (Hin : it0 ∈ group_items (kept cs) None) by (rewrite E; apply elem_of_cons; by left).
      by apply list_elem_of_filter in Hin as [_ ?]. }
    unfold item_text. rewrite classify_lib; [|by apply place_key|by destruct Hit as (_ & ? & _)].
    by destruct (cfgIsLibconfigIdent _).
Qed.

(** ** The theorems at work *)

Ltac clean_fact :=
  first [ apply (bool_decide_unpack _); vm_compute; exact I
        | intros ? [= <-]; apply (bool_decide_unpack _); vm_compute; exact I ].

Ltac clean_item :=
  unfold lib_clean, legacy_clean, cv_ok, key_ok, lib_val, lib_key; cbn [cv_key cv_val]; split_and!;
  first [ clean_fact
        | intros H; vm_compute in H; discriminate H
        | intros _; split_and!; clean_fact ].

Definition sample_legacy : config_set :=
  CS 2 [CV (bs "theme") (bs "a b=c"); CV (bs "#Name") (bs "x"); CV (bs "usb_prefix") []] None true CFG_FMT_LEGACY 1.

Definition sample_lib : config_set :=
  CS 2 [CV (bs "$EnableGSM") (bs "1"); CV (bs "$Compatibility") (bs "9"); CV (bs "#Size") (bs "x");
        CV (bs "Title") (cDQUOTE :: bs "A b"); CV (bs "$GSMVMode") (bs "480p")] None true CFG_FMT_LIBCONFIG 1.

Lemma sample_ok : cs_ok sample_legacy /\ cs_ok sample_lib.
Proof.
  split; split; try (apply (bool_decide_unpack _); vm_compute; exact I);
    repeat apply Forall_cons; split_and!; try constructor; clean_item.
Qed.

Lemma sample_clean : Forall legacy_clean (kept sample_legacy) /\ Forall lib_clean (kept sample_lib).
Proof.
  split; (match goal with |- Forall _ ?l => let l' := eval vm_compute in l in change l with l' end);
    repeat (apply Forall_cons; split); try apply Forall_nil_2; clean_item.
Qed.

Lemma legacy_reread_witness :
  exists cs', configReadBuffer (D := memfile) (configAlloc 5 2 None) (config_text sample_legacy) = Some cs' /\
    cs_items cs' = kept sample_legacy /\ cs_format cs' = CFG_FMT_LEGACY /\ cs_modified cs' = false.
Proof. apply (legacy_reread (D := memfile)); [apply sample_ok|reflexivity|apply sample_clean]. Defined.

Lemma libconfig_reread_witness :
  exists cs', configReadBuffer (D := memfile) (configAlloc 5 2 None) (config_text sample_lib) = Some cs' /\
    cs_items cs' = map esc_item (emitted (kept sample_lib)) /\
    cs_items cs' ≡ₚ map esc_item (kept sample_lib) /\
    cs_format cs' = CFG_FMT_LIBCONFIG /\ cs_modified cs' = false.
Proof.
  apply (libconfig_reread (D := memfile) sample_lib 5 2 None
           (CV (bs "$Compatibility") (bs "9")) [CV (bs "Title") (cDQUOTE :: bs "A b")]);
    [apply sample_ok|reflexivity|apply sample_clean|vm_compute; reflexivity|vm_compute; reflexivity].
Defined.

Definition sample_grouped : config_set :=
  set_items (base.filter (fun it => cv_key it = bs "$EnableGSM")) sample_lib.

Lemma libconfig_format_survives_witness :
  exists cs', configReadBuffer (D := memfile) (configAlloc 5 2 None) (config_text sample_grouped) = Some cs' /\
    cs_format cs' = CFG_FMT_LEGACY.
Proof.
  apply (libconfig_format_survives (D := memfile) sample_grouped (configAlloc 5 2 None));
    [reflexivity| |by vm_compute].
  match goal with |- Forall _ ?l => let l' := eval vm_compute in l in change l with l' end.
  apply Forall_cons; split; [clean_item|constructor].
Defined.
