(* ===== verification/ConfigIO.v ===== *)
(** * ConfigIO: loading and saving a configuration set

    [configRead] and [configWrite] of src/config.c with their path rules, over a
    file system that belongs to the drivers. Allocations are taken to succeed. *)
From S2P Require Import Prelude CLib FileBuffer ConfigStore ConfigFormat ConfigRoundtrip.

(** ** The file system *)

(** A descriptor carries its own state; [fs_close] puts the state of one opened
    for writing back into the world. *)
Class FileSystem (W D : Type) `{!Device D} := {
  (** [fileXioGetStat(path) >= 0] *)
  fs_stat : W -> bytes -> bool;
  (** [openFile(path, O_RDONLY)] *)
  fs_open_rd : W -> bytes -> option D;
  (** [getFileSize(fd)] *)
  fs_size : D -> Z;
  (** [openFile(path, O_WRONLY | O_CREAT | O_TRUNC)] and the world it leaves *)
  fs_open_wr : W -> bytes -> option D * W;
  (** the world after [close] of a descriptor of [path] opened for writing *)
  fs_close : W -> bytes -> D -> W;
}.

(** ** Paths *)

Abbreviation CONFIG_OPL_FILENAME_LEGACY := (bs "conf_riptopl.cfg").
Definition CONFIG_OPL : Z := 1.
Definition CONFIG_MAX_RESTORE_BYTES : Z := 256 * 1024.

Definition configBuildPath (outSize : nat) (prefix : option bytes) (filename : bytes) : bytes :=
  match prefix with
  | None | Some [] => bufcpy outSize filename
  | Some p =>
    if bool_decide (last p = Some cSLASH) || bool_decide (last p = Some cCOLON)
    then bufcpy outSize (p ++ filename)
    else bufcpy outSize (p ++ [cSLASH] ++ filename)
  end.

(** the directory part of a path, with its slash *)
Definition dir_len (path : bytes) : nat :=
  match strrchr path cSLASH with Some i => S i | None => O end.

Definition configBuildLegacyOplPath (path : bytes) (outSize : nat) : bytes :=
  match strrchr path cSLASH with
  | Some i => bufcpy outSize (take (S i) path ++ CONFIG_OPL_FILENAME_LEGACY)
  | None => bufcpy outSize CONFIG_OPL_FILENAME_LEGACY
  end.

Definition wopl_files : list (bytes * bytes) := [
  (bs "conf_theme.cfg", bs "wopl_theme.cfg");
  (bs "conf_network.cfg", bs "wopl_network.cfg");
  (bs "conf_game.cfg", bs "wopl_global_game.cfg")
].

(** the loop of [configBuildWoplPath]; it stops at the first name that matches *)
Fixpoint wopl_path_loop (map : list (bytes * bytes)) (path : bytes) (dirLen outSize : nat) : option bytes :=
  match map with
  | [] => None
  | (ours, theirs) :: map' =>
    if negb (streq (drop dirLen path) ours) then wopl_path_loop map' path dirLen outSize
    else if Nat.ltb outSize (dirLen + length theirs + 1) then None
    else Some (take dirLen path ++ theirs)
  end.

Definition configBuildWoplPath (path : option bytes) (outSize : nat) : option bytes :=
  match path with
  | None => None
  | Some path => wopl_path_loop wopl_files path (dir_len path) outSize
  end.

Definition configPathIsRawApa (path : option bytes) : bool :=
  match path with
  | None => false
  | Some p => strneq p (bs "hdd") 3 && (cZERO <=? nth 3 p 0) && (nth 3 p 0 <=? 57) && (nth 4 p 0 =? cCOLON)
  end.

Section ConfigIO.
Context {W D : Type} `{!Device D} `{!FileSystem W D}.
Implicit Types (w : W) (cs : config_set).

(** ** Reading *)

Definition configOpenSingleShot w (path : option bytes) : option (file_buffer D) :=
  match path with
  | None => None
  | Some path =>
    match fs_open_rd w path with
    | None => None
    | Some fd =>
      let sz := fs_size fd in
      if (sz <=? 0) || (4096 <? sz) then None
      else match fst (dev_read fd (Z.to_nat sz)) with
           | Some buf =>
             if negb (strlen buf =? sz) then None
             else
               let off := if (3 <=? sz) && bool_decide (take 3 buf = utf8_bom) then 3%nat else O in
               Some (openFileBufferBuffer (drop off buf))
           | None => None
           end
    end
  end.

(** [openFileBuffer(path, O_RDONLY, 0, 4096)] *)
Definition open_buffered w (path : option bytes) : option (file_buffer D) :=
  match path with
  | None => None
  | Some path => (fun fd => openFileBuffer fd fd true 4096) <$> fs_open_rd w path
  end.

(** the single shot with the buffered path behind it *)
Definition open_either w (path : option bytes) : option (file_buffer D) :=
  match configOpenSingleShot w path with
  | Some fb => Some fb
  | None => open_buffered w path
  end.

(** [None] when the line reader faults; the result and the set otherwise *)
Definition configRead (fuel : nat) w cs : option (Z * config_set) :=
  if configPathIsRawApa (cs_filename cs) then Some (0, cs)
  else
    let fb := open_either w (cs_filename cs) in
    let '(fb, cs) :=
      match fb, cs_filename cs with
      | None, Some _ =>
        match configBuildWoplPath (cs_filename cs) 256 with
        | Some woplPath =>
          match open_either w (Some woplPath) with
          | Some fb => (Some fb, configMove cs woplPath)
          | None => (None, cs)
          end
        | None => (None, cs)
        end
      | _, _ => (fb, cs)
      end in
    let fb :=
      match fb, cs_filename cs with
      | None, Some path =>
        if cs_type cs =? CONFIG_OPL then open_either w (Some (configBuildLegacyOplPath path 256)) else None
      | _, _ => fb
      end in
    match fb with
    | None => Some (0, set_modified false cs)
    | Some fb => (fun cs' => (1, cs')) <$> configReadFileBuffer fuel fb cs
    end.

(** ** Writing *)

(** the snapshot of the file before it is truncated; [CONFIG_MAX_RESTORE_BYTES] bounds it *)
Definition snapshot w (path : bytes) : option bytes :=
  match fs_open_rd w path with
  | None => None
  | Some rfd =>
    let sz := fs_size rfd in
    if (0 <? sz) && (sz <=? CONFIG_MAX_RESTORE_BYTES) then
      match fst (dev_read rfd (Z.to_nat sz)) with
      | Some b => if strlen b =? sz then Some b else None
      | None => None
      end
    else None
  end.

(** the read-back of a save whose close failed *)
Definition verify_intended w (path intended : bytes) : bool :=
  match fs_open_rd w path with
  | None => false
  | Some vfd =>
    (fs_size vfd =? strlen intended) &&
    match fst (dev_read vfd (length intended)) with
    | Some b => bool_decide (b = intended)
    | None => false
    end
  end.

(** what [configWrite] puts through the buffer, the capture and the close *)
Definition write_through w (path : bytes) (single : bool) (chunks : list bytes) : bool * W :=
  match fs_open_wr w path with
  | (None, w1) => (false, w1)
  | (Some fd, w1) =>
    let fb := writeAll (openFileBuffer fd fd false 4096) chunks in
    let intended :=
      if negb (Nat.eqb (fb_available fb) 0) && Nat.eqb (fb_totalQueued fb) (fb_available fb)
      then Some (take (fb_available fb) (fb_buf fb)) else None in
    let '(r, fd') := closeFileBuffer fb in
    let w2 := match fd' with Some fd' => fs_close w1 path fd' | None => w1 end in
    let ok := r =? 0 in
    let rescued :=
      match intended with
      | Some i => negb ok && negb single && negb (strneq path (bs "pfs") 3) && verify_intended w2 path i
      | None => false
      end in
    (ok || rescued, w2)
  end.

(** the original bytes go back when the file is shorter than they are *)
Definition restore w (path : bytes) (original : option bytes) : W :=
  match original with
  | None => w
  | Some original =>
    let curLen := match fs_open_rd w path with Some cfd => fs_size cfd | None => 0 end in
    if curLen <? strlen original then
      match fs_open_wr w path with
      | (Some wfd, w1) => fs_close w1 path (snd (dev_close (snd (dev_write wfd original))))
      | (None, w1) => w1
      end
    else w
  end.

Definition configWrite w cs : Z * config_set * W :=
  let cs :=
    match cs_filename cs with
    | Some path =>
      if negb (cs_modified cs) && negb (bool_decide (cs_items cs = [])) && negb (fs_stat w path)
      then set_modified true cs else cs
    | None => cs
    end in
  if cs_modified cs then
    match cs_filename cs with
    | None => (0, cs, w)
    | Some path =>
      if configPathIsRawApa (Some path) then (0, cs, w)
      else
        let single := strneq path (bs "mc") 2 in
        let original := if single then None else snapshot w path in
        let '(ok, w1) := write_through w path single (config_chunks cs) in
        if negb ok then (0, cs, restore w1 path original)
        else (1, set_modified false cs, w1)
    end
  else (1, cs, w).

End ConfigIO.

(** ** What the file system promises *)

Class LawfulFS (W D : Type) `{!Device D} `{!FileSystem W D} `{!FileDevice D} `{!AppendDevice D} := {
  (** the bytes of a file, if it is there *)
  fs_file : W -> bytes -> option bytes;
  open_rd_law w p (d : D) : fs_open_rd w p = Some d ->
    fs_file w p = Some (contents d) /\ fs_size d = strlen (contents d);
  open_wr_law w p (d : D) w' : fs_open_wr w p = (Some d, w') -> written d = [];
  open_wr_other w p (o : option D) w' q : fs_open_wr w p = (o, w') -> q <> p -> fs_file w' q = fs_file w q;
  close_law w p (d d' : D) : dev_close d = (true, d') -> fs_file (fs_close w p d') p = Some (written d');
  close_other w p (d : D) q : q <> p -> fs_file (fs_close w p d) q = fs_file w q;
}.

Section SaveSpec.
Context {W D : Type} `{!Device D} `{!FileSystem W D} `{!FileDevice D} `{!AppendDevice D} `{!LawfulFS W D}.
Implicit Types (w : W) (cs : config_set).

Lemma close_success_closed (fb : file_buffer D) d' :
  closeFileBuffer fb = (0, Some d') -> exists d, dev_close d = (true, d').
Proof.
  unfold closeFileBuffer. destruct (fb_fd fb) as [fd|]; [|done].
  match goal with |- (let '(_, _) := ?x in _) = _ -> _ => destruct x as [e fd1] end. destruct (dev_close fd1) as [[] fd2] eqn:E.
  - intros [= _ <-]. eauto.
  - by rewrite orb_true_r.
Qed.

Lemma read_all (d : D) : fst (dev_read d (length (contents d))) = Some (contents d).
Proof. destruct (dev_read_file d (length (contents d))) as (d' & -> & _). cbn. by rewrite take_ge. Qed.

(** a verified read-back is evidence: the file holds the intended bytes *)
Lemma verify_spec w path b : verify_intended w path b = true -> fs_file w path = Some b.
Proof.
  unfold verify_intended. destruct (fs_open_rd w path) as [d|] eqn:E; [|done].
  destruct (open_rd_law _ _ _ E) as [-> ->]. intros H. apply andb_prop in H as [H1 H2].
  unfold strlen in H1. apply Z.eqb_eq, Nat2Z.inj in H1. rewrite <- H1, read_all in H2. b2p. by rewrite H2.
Qed.

Lemma write_through_ok w path single chunks ok w' :
  write_through w path single chunks = (ok, w') ->
  (ok = true -> fs_file w' path = Some (concat chunks)) /\
  (forall q, q <> path -> fs_file w' q = fs_file w q).
Proof.
  unfold write_through. destruct (fs_open_wr w path) as [[fd|] w1] eqn:Eo.
  2:{ intros [= <- <-]. split; [done|]. intros q Hq. by eapply open_wr_other. }
  pose proof (open_wr_law _ _ _ _ Eo) as Hnil.
  pose proof (write_all fd _ [] chunks (write_open fd 4096)) as Hat. cbn [app] in Hat.
  set (fb := writeAll _ chunks) in *.
  destruct (close_spec fd fb _ Hat) as (r & d' & Ec & Hr & Hw). rewrite Ec.
  intros [= Hok <-]. split.
  - intros ->. destruct (Z.eqb_spec r 0) as [->|Hne].
    + destruct (close_success_closed _ _ Ec) as [d Hd].
      rewrite (close_law _ _ _ _ Hd), Hw, Hnil by done. done.
    + cbn [orb negb andb] in Hok. destruct (negb _ && Nat.eqb _ _) eqn:Hi; [|done].
      b2p. rewrite (write_capture fd fb _ Hat) in * by done. by apply verify_spec.
  - intros q Hq. rewrite close_other by done. by eapply open_wr_other.
Qed.

(** does [configWrite] have something to do *)
Definition needs_save w cs : bool :=
  cs_modified cs ||
  match cs_filename cs with
  | Some path => negb (bool_decide (cs_items cs = [])) && negb (fs_stat w path)
  | None => false
  end.

Lemma configWrite_eq w cs :
  configWrite w cs =
  if needs_save w cs then
    match cs_filename cs with
    | None => (0, cs, w)
    | Some path =>
      if configPathIsRawApa (Some path) then (0, set_modified true cs, w)
      else
        let single := strneq path (bs "mc") 2 in
        let '(ok, w1) := write_through w path single (config_chunks cs) in
        if negb ok then (0, set_modified true cs, restore w1 path (if single then None else snapshot w path))
        else (1, set_modified false cs, w1)
    end
  else (1, cs, w).
Proof.
  unfold configWrite, needs_save. destruct cs as [ty items fname [] fmt uid];
    cbn [cs_modified cs_filename cs_items]; cbn [negb andb orb].
  - by destruct fname.
  - destruct fname as [path|]; [|done]. cbn [cs_modified cs_filename cs_items].
    destruct (negb _ && negb _); [|done]. done.
Qed.

(** C22. A save that reports success tells the truth: either there was nothing to
    save and nothing was touched, or the file named by the set holds exactly the
    serialised settings, every other file is as it was, and only then is the set
    marked clean; a close that failed is forgiven only on evidence read back. *)
Theorem save_success_persisted w cs cs' w' :
  configWrite w cs = (1, cs', w') ->
  (needs_save w cs = false /\ cs' = cs /\ w' = w) \/
  (exists path, cs_filename cs = Some path /\ configPathIsRawApa (Some path) = false /\
     cs' = set_modified false cs /\
     fs_file w' path = Some (config_text cs) /\
     (forall q, q <> path -> fs_file w' q = fs_file w q)).
Proof.
  rewrite configWrite_eq. destruct (needs_save w cs); [|intros [= <- <-]; by left].
  destruct (cs_filename cs) as [path|]; [|done]. destruct (configPathIsRawApa _) eqn:Hr; [done|].
  cbv zeta. destruct (write_through _ _ _ _) as [[] w1] eqn:E; cbn [negb]; [|done].
  intros [= <- <-]. right. destruct (write_through_ok _ _ _ _ _ _ E) as [H1 H2].
  exists path. split_and!; [done|exact Hr|done|by apply H1|exact H2].
Qed.

(** the repair of a damaged file goes through *)
Definition rewrite_ok w path (b : bytes) : bool :=
  match fs_open_wr w path with
  | (Some d, _) => let '(ok, d1) := dev_write d b in ok && fst (dev_close d1)
  | (None, _) => false
  end.

Lemma restore_spec w path b :
  b <> [] -> rewrite_ok w path b = true ->
  fs_file (restore w path (Some b)) path = Some b \/
  (restore w path (Some b) = w /\ exists b', fs_file w path = Some b' /\ strlen b <= strlen b').
Proof.
  intros Hne Hok. unfold restore.
  destruct (fs_open_rd w path) as [cfd|] eqn:Er.
  1: destruct (open_rd_law _ _ _ Er) as [Hf Hs]; rewrite Hs;
     destruct (Z.ltb_spec (strlen (contents cfd)) (strlen b)); [|right; eauto].
  2: destruct (Z.ltb_spec 0 (strlen b)); [|unfold strlen in *; destruct b; [done|]; cbn in *; lia].
  all: unfold rewrite_ok in Hok; destruct (fs_open_wr w path) as [[d|] w1] eqn:Eo; [|done];
    destruct (dev_write d b) as [[] d1] eqn:Ew; [|done]; cbn [fst andb] in Hok;
    destruct (dev_close d1) as [[] d2] eqn:Ec; [|done]; cbn [snd]; left;
    rewrite Ec; cbn [snd];
    by rewrite (close_law _ _ _ _ Ec), (dev_close_ok _ _ Ec), (dev_write_ok _ _ _ Ew), (open_wr_law _ _ _ _ Eo).
Qed.

Lemma restore_other w path o q : q <> path -> fs_file (restore w path o) q = fs_file w q.
Proof.
  intros Hq. unfold restore. destruct o as [b|]; [|done].
  destruct (_ <? _); [|done]. destruct (fs_open_wr w path) as [[d|] w2] eqn:Eo.
  - rewrite close_other by done. by eapply open_wr_other.
  - by eapply open_wr_other.
Qed.

(** both outcomes of a save in the terms a group of saves needs *)
Lemma configWrite_outcome w cs r cs' w' :
  configWrite w cs = (r, cs', w') ->
  exists b : bool, cs' = set_modified b cs /\ r = (if b then 0 else 1) /\
    (forall q, cs_filename cs <> Some q -> fs_file w' q = fs_file w q) /\
    (b = false -> cs_modified cs = true ->
     exists path, cs_filename cs = Some path /\ fs_file w' path = Some (config_text cs)).
Proof.
  rewrite configWrite_eq. destruct (needs_save w cs) eqn:Hn.
  2:{ intros [= <- <- <-]. unfold needs_save in Hn. apply orb_false_iff in Hn as [Hm _].
      exists false. destruct cs; cbn in *; subst. split_and!; done. }
  destruct (cs_filename cs) as [path|] eqn:Hf.
  2:{ intros [= <- <- <-]. unfold needs_save in Hn. rewrite Hf, orb_false_r in Hn.
      exists true. destruct cs; cbn in *; subst. split_and!; done. }
  destruct (configPathIsRawApa _); [intros [= <- <- <-]; exists true; split_and!; done|].
  cbv zeta. destruct (write_through _ _ _ _) as [[] w1] eqn:E; cbn [negb]; intros [= <- <- <-];
    destruct (write_through_ok _ _ _ _ _ _ E) as [H1 H2].
  - exists false. split_and!; eauto. intros q Hq. apply H2. congruence.
  - exists true. split_and!; try done. intros q Hq. rewrite restore_other by congruence. apply H2. congruence.
Qed.


(** Nothing the code does with a configuration set reaches the raw APA
    namespace: with a name "hddN:..." a read opens no file and a save returns
    without a file-system call other than the stat, whatever the file system. *)
Theorem raw_apa_never_opened fuel w cs :
  configPathIsRawApa (cs_filename cs) = true ->
  configRead fuel w cs = Some (0, cs) /\
  snd (configWrite w cs) = w /\ cs_items (snd (fst (configWrite w cs))) = cs_items cs /\
  (fst (fst (configWrite w cs)) = 1 -> needs_save w cs = false).
Proof.
  intros H. unfold configRead. rewrite H, configWrite_eq. split; [done|].
  destruct (needs_save w cs); [|done]. destruct (cs_filename cs) as [path|]; [|done].
  by rewrite H.
Qed.
End SaveSpec.

(** ** Saving, then loading *)

Section SaveLoad.
Context {W D : Type} `{!Device D} `{!FileSystem W D} `{!FileDevice D} `{!AppendDevice D} `{!LawfulFS W D}.
Implicit Types (w : W) (cs : config_set).

(** both ways of opening a file for reading give its lines *)
Lemma open_either_lines w path data fuel :
  fs_open_rd w path <> None -> fs_file w path = Some data ->
  cstring data -> lines_fit 4096 data -> take 3 data <> utf8_bom -> (length data + 2 <= fuel)%nat ->
  exists fb, open_either w (Some path) = Some fb /\
             read_lines fuel fb = Some (text_lines data, negb (dangling_comment data)).
Proof.
  intros Ho Hf Hc Hfit Hbom Hfuel. destruct (fs_open_rd w path) as [fd|] eqn:E; [|done].
  destruct (open_rd_law _ _ _ E) as [Hf' Hs]. rewrite Hf in Hf'. injection Hf' as ->.
  unfold open_either, configOpenSingleShot, open_buffered. rewrite E, Hs.
  destruct (_ || _) eqn:Hz.
  - cbn [fmap option_fmap option_map]. eexists. split; [done|].
    assert (Hb : strip_bom (contents fd) = contents fd) by (unfold strip_bom; by rewrite bool_decide_eq_false_2).
    apply (read_lines_spec (length (contents fd))); auto.
    rewrite <- Hb. apply open_file_at; [done|lia|by rewrite Hb].
  - unfold strlen. rewrite Nat2Z.id, read_all, Z.eqb_refl. cbn [negb].
    rewrite (bool_decide_eq_false_2 (_ = utf8_bom)), andb_false_r by done. rewrite drop_0.
    eexists. split; [done|]. by apply read_memory_lines.
Qed.

Lemma configRead_lines w uid ty path data fuel :
  configPathIsRawApa (Some path) = false ->
  fs_open_rd w path <> None -> fs_file w path = Some data ->
  cstring data -> lines_fit 4096 data -> take 3 data <> utf8_bom -> dangling_comment data = false ->
  (length data + 2 <= fuel)%nat ->
  configRead fuel w (configAlloc uid ty (Some path)) =
    Some (1, read_config_lines (configAlloc uid ty (Some path)) (text_lines data)).
Proof.
  intros Hr Ho Hf Hc Hfit Hbom Hdc Hfuel.
  destruct (open_either_lines w path data fuel Ho Hf Hc Hfit Hbom Hfuel) as (fb & E & El).
  unfold configRead. cbn [cs_filename configAlloc] in *. rewrite Hr, E.
  unfold configReadFileBuffer. rewrite El, Hdc. done.
Qed.

Lemma legacy_lines_fit items : Forall legacy_clean items -> lines_fit 4096 (unlines (map legacy_text items)).
Proof.
  intros H. unfold lines_fit. rewrite split_lf_unlines.
  2:{ apply Forall_map. eapply Forall_impl; [exact H|]. intros it Hit. by apply legacy_text_clean. }
  apply Forall_map. eapply Forall_impl; [exact H|]. intros it (((Hk & Hl) & Hv) & _).
  unfold legacy_text, CONFIG_KEY_NAME_LEN, CONFIG_KEY_VALUE_LEN in *. cbn. rewrite !length_app. cbn [length]. lia.
Qed.

(** C2. A set saved successfully in OPL's own syntax is loaded back from the same
    file with every persistent setting, in order, byte for byte. *)
Theorem save_then_load w cs cs' w' path uid ty fuel :
  cs_ok cs -> cs_format cs = CFG_FMT_LEGACY -> Forall legacy_clean (kept cs) ->
  take 3 (config_text cs) <> utf8_bom ->
  cs_filename cs = Some path -> needs_save w cs = true -> configWrite w cs = (1, cs', w') ->
  fs_open_rd w' path <> None -> (length (config_text cs) + 2 <= fuel)%nat ->
  exists cs2, configRead fuel w' (configAlloc uid ty (Some path)) = Some (1, cs2) /\
    cs_items cs2 = kept cs /\ cs_format cs2 = CFG_FMT_LEGACY /\ cs_modified cs2 = false.
Proof.
  intros Hok Hfmt Hc Hbom Hp Hn Hw Ho Hfuel.
  rewrite configWrite_eq, Hn, Hp in Hw. destruct (configPathIsRawApa (Some path)) eqn:Hr; [done|].
  cbv zeta in Hw. destruct (write_through _ _ _ _) as [[] w1] eqn:E; cbn [negb] in Hw; [|done].
  injection Hw as <- <-. destruct (write_through_ok _ _ _ _ _ _ E) as [Hf _].
  specialize (Hf eq_refl). change (concat (config_chunks cs)) with (config_text cs) in Hf.
  rewrite legacy_config_text in * by done.
  assert (Hcl : Forall clean_line (map legacy_text (kept cs))).
  { apply Forall_map. eapply Forall_impl; [exact Hc|]. apply legacy_text_clean. }
  rewrite (configRead_lines w1 uid ty path _ fuel Hr Ho Hf); auto using cstring_unlines, legacy_lines_fit, dangling_unlines.
  rewrite text_lines_unlines by done. eexists. split; [done|]. unfold read_config_lines.
  destruct (read_legacy_fold (kept cs) None (configAlloc uid ty (Some path))) as [E1 E2];
    [done|by left|done|split; cbn; constructor|by apply kept_nodup|].
  cbn [set_modified cs_items cs_format cs_modified]. rewrite E1, E2 by done. done.
Qed.
End SaveLoad.

(** ** An in-memory file system *)

Record memfs := MemFS { mfs_files : list (bytes * bytes); mfs_bad : bool (* closes fail *) }.

Record memfd := MemFD { md_rest : bytes; md_size : Z; md_out : bytes; md_bad : bool }.

#[export] Instance memfd_device : Device memfd := {
  dev_read d n := (Some (take n (md_rest d)), MemFD (drop n (md_rest d)) (md_size d) (md_out d) (md_bad d));
  dev_write d b := (true, MemFD (md_rest d) (md_size d) (md_out d ++ b) (md_bad d));
  dev_close d := (negb (md_bad d), d);
}.

Fixpoint mfs_get (l : list (bytes * bytes)) (p : bytes) : option bytes :=
  match l with
  | [] => None
  | (q, b) :: r => if bool_decide (p = q) then Some b else mfs_get r p
  end.

#[export] Instance memfs_fs : FileSystem memfs memfd := {
  fs_stat w p := bool_decide (mfs_get (mfs_files w) p <> None);
  fs_open_rd w p := (fun b => MemFD b (strlen b) [] (mfs_bad w)) <$> mfs_get (mfs_files w) p;
  fs_size d := md_size d;
  fs_open_wr w p := (Some (MemFD [] 0 [] (mfs_bad w)), MemFS ((p, []) :: mfs_files w) (mfs_bad w));
  fs_close w p d := MemFS ((p, md_out d) :: mfs_files w) false;
}.

#[export, refine] Instance memfd_file : FileDevice memfd := { contents := md_rest }.
Proof. intros [r s o b] n. cbn. eauto. Defined.

#[export, refine] Instance memfd_append : AppendDevice memfd := { written := md_out }.
Proof.
  - intros [r s o bad] b d'. cbn. by intros [= <-].
  - intros [r s o []] d'; cbn; [done|]. by intros [= <-].
Defined.

#[export, refine] Instance memfs_lawful : LawfulFS memfs memfd := { fs_file w p := mfs_get (mfs_files w) p }.
Proof.
  - intros w p d. cbn. destruct (mfs_get _ p) as [b|]; [|done]. cbn. by intros [= <-].
  - intros w p d w'. cbn. by intros [= <- <-].
  - intros w p o w' q. cbn. intros [= <- <-] Hq. cbn. by rewrite bool_decide_eq_false_2.
  - intros w p d d'. cbn. destruct (md_bad d); [done|]. intros [= <-]. by rewrite bool_decide_eq_true_2.
  - intros w p d q Hq. cbn. by rewrite bool_decide_eq_false_2.
Defined.

(** ** Witnesses *)

Definition mass_path : bytes := bs "mass0:conf_last.cfg".
Definition mass_set : config_set := set_filename (Some mass_path) sample_legacy.
Definition mass_fs (bad : bool) : memfs := MemFS [(mass_path, bs "old=value that is much longer than the new text of the file")] bad.

Lemma save_success_persisted_witness :
  exists cs' w', configWrite (mass_fs true) mass_set = (1, cs', w') /\
    fs_file w' mass_path = Some (config_text mass_set) /\ cs_modified cs' = false.
Proof.
  destruct (configWrite (mass_fs true) mass_set) as [[r cs'] w'] eqn:E.
  exists cs', w'. assert (r = 1) as -> by (vm_compute in E; by injection E).
  split; [done|].
  destruct (save_success_persisted (mass_fs true) mass_set cs' w' E) as [(Hn & _)|(p & Hp & _ & -> & Hf & _)];
    [vm_compute in Hn; discriminate Hn|]. injection Hp as <-. done.
Defined.

Lemma save_then_load_witness :
  exists cs' w' cs2, configWrite (mass_fs false) mass_set = (1, cs', w') /\
    configRead 100 w' (configAlloc 7 2 (Some mass_path)) = Some (1, cs2) /\ cs_items cs2 = kept mass_set.
Proof.
  destruct (configWrite (mass_fs false) mass_set) as [[r cs'] w'] eqn:E.
  exists cs', w'. assert (r = 1) as -> by (vm_compute in E; by injection E).
  destruct (save_then_load (mass_fs false) mass_set cs' w' mass_path 7 2 100) as (cs2 & H1 & H2 & _).
  - apply sample_ok.
  - reflexivity.
  - apply sample_clean.
  - by vm_compute.
  - reflexivity.
  - reflexivity.
  - exact E.
  - vm_compute in E. injection E as <- <-. by vm_compute.
  - vm_compute. lia.
  - exists cs2. auto.
Defined.

Lemma raw_apa_never_opened_witness :
  snd (configWrite (mass_fs true) (set_filename (Some (bs "hdd0:/+OPL/settings.cfg")) sample_legacy)) = mass_fs true.
Proof.
  apply (raw_apa_never_opened 10 (mass_fs true) (set_filename (Some (bs "hdd0:/+OPL/settings.cfg")) sample_legacy)).
  reflexivity.
Defined.

(** on PFS a failed close is not forgiven: the old bytes go back *)
Definition pfs_path : bytes := bs "pfs0:conf_last.cfg".
Definition pfs_fs : memfs := MemFS [(pfs_path, bs "old=value that is much longer than the new text of the file")] true.

