(* ===== verification/ConfigFiles.v ===== *)
(** * ConfigFiles: the five global configuration sets of src/config.c

    Where the settings live ([configInit], [configSetMove]), the device names shown
    to the user, and loading and saving the sets as a group. [gBaseMCDir],
    [gOPLPart] and the card slot [getmcID()] belong to other files and are arguments. *)
From S2P Require Import Prelude CLib FileBuffer ConfigStore ConfigFormat ConfigRoundtrip ConfigIO.

(** ** Data *)

Definition CONFIG_NETWORK : Z := 8.
Definition CONFIG_INDEX_NETWORK : nat := 3.

Definition configFilenames : list bytes :=
  map bs ["settings_riptopl.cfg"; "conf_last.cfg"; "conf_apps.cfg"; "conf_network.cfg"; "conf_game.cfg"]%string.
(** [1 << i] for the indices of [configFilenames] *)
Definition config_types : list Z := [1; 2; 4; 8; 16].

Record config_globals := CG {
  currentUID : Z;
  configFiles : list config_set;
  legacyNetConfigPath : bytes;
  cfgDevice : bytes;
  cfgLoadDevice : bytes;
  cfgHomePath : bytes;
  ps2_net : list Z;  (** [ps2_ip], [ps2_netmask] and [ps2_gateway] *)
}.

Definition with_files (f : list config_set) (g : config_globals) : config_globals :=
  CG (currentUID g) f (legacyNetConfigPath g) (cfgDevice g) (cfgLoadDevice g) (cfgHomePath g) (ps2_net g).

(** ** Homes and device names *)

(** the string left in the 8 bytes of [device] *)
Definition configPrepareDevice (prefix : option bytes) : bytes :=
  let d := bufcpy 8 (default [] prefix) in
  match strchr d cCOLON with Some i => take (S i) d | None => d end.

(** the wildcard slot of a memory card path, once a card was found *)
Definition wildcard (mcID : Z) (path : bytes) : bytes :=
  if strneq path (bs "mc") 2 && (nth 2 path 0 =? 63) && (0 <=? mcID) then <[2%nat := mcID]> path else path.

Definition configGetDir (mcID : Z) (g : config_globals) : bytes * config_globals :=
  let d := wildcard mcID (cfgDevice g) in
  (d, CG (currentUID g) (configFiles g) (legacyNetConfigPath g) d (cfgLoadDevice g) (cfgHomePath g) (ps2_net g)).
Definition configGetLoadDir (mcID : Z) (g : config_globals) : bytes * config_globals :=
  let d := wildcard mcID (cfgLoadDevice g) in
  (if bool_decide (d = []) then cfgDevice g else d,
   CG (currentUID g) (configFiles g) (legacyNetConfigPath g) (cfgDevice g) d (cfgHomePath g) (ps2_net g)).
Definition configGetHomePath (mcID : Z) (g : config_globals) : bytes * config_globals :=
  let d := wildcard mcID (cfgHomePath g) in
  (d, CG (currentUID g) (configFiles g) (legacyNetConfigPath g) (cfgDevice g) (cfgLoadDevice g) d (ps2_net g)).

Definition configPrepareNotifications (prefix : option bytes) (g : config_globals) : config_globals :=
  CG (currentUID g) (configFiles g) (legacyNetConfigPath g) (configPrepareDevice prefix) (cfgLoadDevice g) (cfgHomePath g) (ps2_net g).

(** the device named after a load from [path] *)
Definition configPrepareLoadNotification (gOPLPart : bytes) (path : option bytes) : bytes :=
  match path with
  | Some p => if strneq p (bs "pfs0:") 5 && negb (bool_decide (gOPLPart = []))
              then configPrepareDevice (Some gOPLPart) else configPrepareDevice path
  | None => configPrepareDevice None
  end.

(** the files of the five sets under a prefix *)
Definition homes (prefix : bytes) : list bytes := map (configBuildPath 256 (Some prefix)) configFilenames.

(** the sets allocated by [configInit] from [uid] on *)
Fixpoint alloc_files (uid : Z) (l : list (Z * bytes)) : list config_set :=
  match l with
  | [] => []
  | (ty, path) :: r => configAlloc (u32 (uid + 1)) ty (Some path) :: alloc_files (u32 (uid + 1)) r
  end.

(** the fields a new home sets besides the sets *)
Definition rehome (prefix : bytes) (files : list config_set) (uid : Z) (g : config_globals) : config_globals :=
  CG uid files (configBuildPath 256 (Some prefix) (bs "IPCONFIG.DAT")) (configPrepareDevice (Some prefix))
     (cfgLoadDevice g) (bufcpy 256 prefix) (ps2_net g).

Definition configInit (gBaseMCDir : bytes) (prefix : option bytes) (g : config_globals) : config_globals :=
  let prefix := default gBaseMCDir prefix in
  rehome prefix (alloc_files (currentUID g) (combine config_types (homes prefix))) (u32 (currentUID g + 5)) g.

Definition configSetMove (gBaseMCDir : bytes) (prefix : option bytes) (g : config_globals) : config_globals :=
  let prefix := default gBaseMCDir prefix in
  rehome prefix (zip_with configMove (configFiles g) (homes prefix)) (currentUID g) g.

Definition configEnd (g : config_globals) : config_globals :=
  with_files (map (fun cs => set_filename None (configClear cs)) (configFiles g)) g.

(** ** The old network file: twelve numbers read by sscanf *)

Inductive scan_dir := ScanInt | ScanChar (c : Z) | ScanSpace.

Definition clamp32 (z : Z) : Z := Z.max (- 2 ^ 31) (Z.min (2 ^ 31 - 1) z).

(** "%d": white space, a sign, one digit or more *)
Definition scan_int (s : bytes) : option (Z * bytes) :=
  let s := dropwhile isspace s in
  let '(sg, s) := match s with
                  | c :: r => if c =? cMINUS then (-1, r) else if c =? 43 then (1, r) else (1, s)
                  | [] => (1, s)
                  end in
  match s with
  | c :: _ => if isdigit c then Some (clamp32 (sg * digits_val 0 s), dropwhile isdigit s) else None
  | [] => None
  end.

(** the numbers converted before the first directive that fails *)
Fixpoint sscanf (fmt : list scan_dir) (s : bytes) : list Z :=
  match fmt with
  | [] => []
  | ScanInt :: fmt' => match scan_int s with Some (v, s') => v :: sscanf fmt' s' | None => [] end
  | ScanChar c :: fmt' => match s with x :: s' => if x =? c then sscanf fmt' s' else [] | [] => [] end
  | ScanSpace :: fmt' => sscanf fmt' (dropwhile isspace s)
  end.

Definition quad_format : list scan_dir := [ScanInt; ScanChar 46; ScanInt; ScanChar 46; ScanInt; ScanChar 46; ScanInt].
Definition ip_format : list scan_dir := quad_format ++ [ScanSpace] ++ quad_format ++ [ScanSpace] ++ quad_format.

(** "%d.%d.%d.%d" into [temp[16]] *)
Definition quad_text (q : list Z) : bytes :=
  match map fmt_d q with
  | [a; b; c; d] => bufcpy 16 (a ++ [46] ++ b ++ [46] ++ c ++ [46] ++ d)
  | _ => []
  end.

Definition apply_quads (net : list Z) (cs : config_set) : config_set :=
  let ip := quad_text (take 4 net) in
  let nm := quad_text (take 4 (drop 4 net)) in
  let gw := quad_text (take 4 (drop 8 net)) in
  let cs := snd (configSetStr cs (bs "ps2_ip_addr") ip) in
  let cs := snd (configSetStr cs (bs "ps2_netmask") nm) in
  let cs := snd (configSetStr cs (bs "ps2_gateway") gw) in
  snd (configSetStr cs (bs "ps2_dns") gw).

Section ConfigFiles.
Context {W D : Type} `{!Device D} `{!FileSystem W D}.
Implicit Types (w : W) (cs : config_set) (g : config_globals).

(** the text [configReadLegacyIP] scans: at most 255 bytes of the file *)
Definition legacy_text_of (fd : D) : bytes :=
  let size := Z.min 255 (Z.max 0 (fs_size fd)) in
  cstr (default [] (fst (dev_read fd (Z.to_nat size)))).

Definition configReadLegacyIP w g : bool * config_globals :=
  match fs_open_rd w (legacyNetConfigPath g) with
  | None => (false, g)
  | Some fd =>
    let n := sscanf ip_format (legacy_text_of fd) in
    let net := n ++ drop (length n) (ps2_net g) in
    let files := if Nat.eqb (length n) 12
                 then alter (apply_quads net) CONFIG_INDEX_NETWORK (configFiles g) else configFiles g in
    (Nat.eqb (length n) 12,
     CG (currentUID g) files (legacyNetConfigPath g) (cfgDevice g) (cfgLoadDevice g) (cfgHomePath g) net)
  end.

(** ** The sets as a group *)

(** the loop of [configReadMulti]: the types read, the sets and [cfgLoadDevice] *)
Fixpoint read_multi (fuel : nat) w (gOPLPart : bytes) (types : Z) (files : list config_set) (load : bytes) :
    option (Z * list config_set * bytes) :=
  match files with
  | [] => Some (0, [], load)
  | cs :: files' =>
    if Z.land (cs_type cs) types =? 0 then
      '(r, fs, load) ← read_multi fuel w gOPLPart types files' load; Some (r, cs :: fs, load)
    else
      '(ok, cs') ← configRead fuel w (configClear cs);
      let load := if negb (ok =? 0) && (cs_type cs' =? CONFIG_OPL)
                  then configPrepareLoadNotification gOPLPart (cs_filename cs') else load in
      '(r, fs, load) ← read_multi fuel w gOPLPart types files' load;
      Some (if ok =? 0 then r else Z.lor (cs_type cs') r, cs' :: fs, load)
  end.

Definition configReadMulti (fuel : nat) w (gOPLPart : bytes) (types : Z) g : option (Z * config_globals) :=
  '(r, fs, load) ← read_multi fuel w gOPLPart types (configFiles g) (cfgLoadDevice g);
  let g := CG (currentUID g) fs (legacyNetConfigPath g) (cfgDevice g) load (cfgHomePath g) (ps2_net g) in
  if negb (Z.land types CONFIG_NETWORK =? 0) && (Z.land r CONFIG_NETWORK =? 0) then
    let '(ok, g) := configReadLegacyIP w g in
    Some (if ok : bool then Z.lor r CONFIG_NETWORK else r, g)
  else Some (r, g).

(** the loop of [configWriteMulti] *)
Fixpoint write_multi w (types : Z) (files : list config_set) : Z * list config_set * W :=
  match files with
  | [] => (0, [], w)
  | cs :: files' =>
    if Z.land (cs_type cs) types =? 0 then
      let '(r, fs, w') := write_multi w types files' in (r, cs :: fs, w')
    else
      let '(ok, cs', w1) := configWrite w cs in
      let '(r, fs, w') := write_multi w1 types files' in
      (ok + r, cs' :: fs, w')
  end.

Definition configWriteMulti w (types : Z) g : Z * config_globals * W :=
  let '(r, fs, w) := write_multi w types (configFiles g) in (r, with_files fs g, w).
End ConfigFiles.

(** ** Theorems *)

(** a prefix with the separator [configBuildPath] puts behind it *)
Definition home_dir (prefix : bytes) : bytes :=
  match prefix with
  | [] => []
  | p => if bool_decide (last p = Some cSLASH) || bool_decide (last p = Some cCOLON) then p else p ++ [cSLASH]
  end.

Lemma configBuildPath_home prefix f :
  (length prefix <= 200)%nat -> (length f <= 40)%nat -> configBuildPath 256 (Some prefix) f = home_dir prefix ++ f.
Proof.
  intros Hp Hf. unfold configBuildPath, home_dir. destruct prefix as [|c p]; [by rewrite bufcpy_id by lia|].
  destruct (_ || _); rewrite bufcpy_id; rewrite ?length_app; cbn [length] in *; try lia; [done|]. by rewrite <- app_assoc.
Qed.

Lemma homes_eq prefix : (length prefix <= 200)%nat -> homes prefix = map (app (home_dir prefix)) configFilenames.
Proof.
  intros Hp. unfold homes. apply map_ext_in. intros f Hf. apply configBuildPath_home; [done|].
  apply list_elem_of_In in Hf. revert f Hf. apply Forall_forall.
  apply (bool_decide_unpack _); vm_compute; exact I.
Qed.

Lemma homes_NoDup prefix : (length prefix <= 200)%nat -> NoDup (homes prefix).
Proof.
  intros Hp. rewrite homes_eq by done. apply (NoDup_fmap_2 (app (home_dir prefix)) configFilenames).
  apply (bool_decide_unpack _); vm_compute; exact I.
Qed.

Lemma alloc_files_names l : forall uid, map cs_filename (alloc_files uid l) = map (fun x => Some (snd x)) l.
Proof. induction l as [|[ty p] l IH]; intros uid; cbn; [done|]. by rewrite IH. Qed.

(** the sets are homed under [prefix] *)
Definition homed (prefix : bytes) (g : config_globals) : Prop :=
  map cs_filename (configFiles g) = map Some (homes prefix).

Lemma configInit_homed mc prefix g : homed (default mc prefix) (configInit mc prefix g).
Proof. done. Qed.

Lemma configSetMove_homed mc prefix g :
  length (configFiles g) = 5%nat -> homed (default mc prefix) (configSetMove mc prefix g).
Proof. intros H. unfold homed. cbn. destruct (configFiles g) as [|? [|? [|? [|? [|? [|]]]]]]; done. Qed.

Section Group.
Context {W D : Type} `{!Device D} `{!FileSystem W D} `{!FileDevice D} `{!AppendDevice D} `{!LawfulFS W D}.
Implicit Types (w : W) (cs : config_set) (g : config_globals).

Definition selected (types : Z) cs : bool := negb (Z.land (cs_type cs) types =? 0).

(** what a save of the selected sets did to one of them *)
Definition saved w' (types : Z) cs cs' : Prop :=
  (selected types cs = false /\ cs' = cs) \/
  (selected types cs = true /\ (exists b, cs' = set_modified b cs) /\
   (cs_modified cs = true -> cs_modified cs' = false ->
    exists path, cs_filename cs = Some path /\ fs_file w' path = Some (config_text cs))).

Definition clean_selected (types : Z) cs : bool := selected types cs && negb (cs_modified cs).

Lemma write_multi_spec types files : forall w r files' w',
  NoDup (map cs_filename files) -> write_multi w types files = (r, files', w') ->
  r = Z.of_nat (length (base.filter (fun cs => clean_selected types cs = true) files')) /\
  Forall2 (saved w' types) files files' /\
  (forall q, Some q ∉ map cs_filename files -> fs_file w' q = fs_file w q).
Proof.
  induction files as [|cs files IH]; intros w r files' w' Hnd; cbn [write_multi map].
  { intros [= <- <- <-]. split_and!; [done|constructor|done]. }
  apply NoDup_cons in Hnd as [Hni Hnd]. destruct (Z.land _ _ =? 0) eqn:Hsel.
  - destruct (write_multi w types files) as [[r1 fs] w1] eqn:E. intros [= <- <- <-].
    destruct (IH _ _ _ _ Hnd E) as (-> & H2 & H3).
    assert (Hs : selected types cs = false) by (unfold selected; by rewrite Hsel).
    rewrite filter_cons_False by (unfold clean_selected; by rewrite Hs).
    split_and!; [done| |]. { constructor; [by left|done]. }
    intros q Hq. apply H3. intros H. apply Hq. by apply list_elem_of_further.
  - destruct (configWrite w cs) as [[ok cs'] w1] eqn:Ew.
    destruct (write_multi w1 types files) as [[r1 fs] w2] eqn:E. intros [= <- <- <-].
    destruct (IH _ _ _ _ Hnd E) as (-> & H2 & H3).
    destruct (configWrite_outcome _ _ _ _ _ Ew) as (b & -> & -> & Ho & Hok).
    assert (Hs : selected types cs = true) by (unfold selected; by rewrite Hsel).
    assert (Hs' : selected types (set_modified b cs) = true) by done.
    assert (Hc : clean_selected types (set_modified b cs) = negb b) by (unfold clean_selected; by rewrite Hs').
    rewrite filter_cons, Hc. clear Hc. split_and!.
    + destruct b; cbn [negb]; case_decide; try done. cbn [length]. lia.
    + constructor; [|done]. right. split_and!; [done|eauto|]. cbn. intros Hm Hb.
      destruct (Hok Hb Hm) as (path & Hp & Hf). exists path. split; [done|].
      rewrite H3; [done|]. by rewrite <- Hp.
    + intros q Hq. rewrite H3, Ho; [done| |].
      * intros H. apply Hq. rewrite H. apply list_elem_of_here.
      * intros H. apply Hq. by apply list_elem_of_further.
Qed.
End Group.

(** *** The old network file *)

Definition octets (q : list Z) : Prop := length q = 4%nat /\ Forall (fun v => 0 <= v < 256) q.
Definition dotted (q : list Z) : bytes :=
  match map fmt_d q with [a; b; c; d] => a ++ [46] ++ b ++ [46] ++ c ++ [46] ++ d | _ => [] end.
Definition blank (s : bytes) : Prop := s <> [] /\ Forall (fun c => isspace c = true) s.
Definition no_digit (s : bytes) : Prop := match s with [] => True | c :: _ => isdigit c = false end.

Lemma fmt_d_dec v : 0 <= v -> fmt_d v = dec_u v.
Proof. intros H. unfold fmt_d. destruct (Z.ltb_spec v 0); [lia|done]. Qed.

Lemma dropwhile_all {A} (p : A -> bool) l r :
  Forall (fun c => p c = true) l -> match r with [] => True | x :: _ => p x = false end -> dropwhile p (l ++ r) = r.
Proof. intros H Hr. induction H as [|x l Hx H IH]; cbn; [by apply dropwhile_id|]. by rewrite Hx. Qed.

Lemma digits_val_all l r acc :
  Forall (fun c => isdigit c = true) l -> no_digit r -> digits_val acc (l ++ r) = digits_val acc l.
Proof.
  intros H Hr. revert acc. induction H as [|x l Hx H IH]; intros acc; cbn.
  - destruct r as [|c r]; [done|]. cbn. by rewrite Hr.
  - by rewrite Hx.
Qed.

Lemma isdigit_plain c : isdigit c = true -> isspace c = false /\ (c =? cMINUS) = false /\ (c =? 43) = false.
Proof. unfold isdigit, isspace, between. intros H. b2p. split_and!; lia. Qed.

Lemma scan_int_dec v r : 0 <= v < 256 -> no_digit r -> scan_int (fmt_d v ++ r) = Some (v, r).
Proof.
  intros Hv Hr. rewrite fmt_d_dec by lia. pose proof (dec_u_digits v) as Hd. specialize (Hd (proj1 Hv)).
  pose proof (dec_u_val v) as Hval. pose proof (dec_u_nonempty v) as Hne.
  unfold scan_int. destruct (dec_u v) as [|c s]; [done|]. pose proof (Forall_inv Hd) as Hc. cbn beta in Hc.
  destruct (isdigit_plain c Hc) as (H1 & H2 & H3).
  rewrite dropwhile_id by done. cbn [app]. rewrite H2, H3, Hc.
  change (c :: s ++ r) with ((c :: s) ++ r). rewrite digits_val_all, dropwhile_all by done.
  rewrite Hval by lia. do 2 f_equal. unfold clamp32. lia.
Qed.

Lemma scan_int_blank b s : Forall (fun c => isspace c = true) b -> no_digit b -> scan_int (b ++ s) = scan_int s.
Proof.
  intros H _. unfold scan_int. replace (dropwhile isspace (b ++ s)) with (dropwhile isspace s); [done|].
  induction H as [|c b Hc H IH]; cbn; [done|]. by rewrite Hc.
Qed.

Lemma sscanf_quad q r fmt :
  octets q -> no_digit r -> sscanf (quad_format ++ fmt) (dotted q ++ r) = q ++ sscanf fmt r.
Proof.
  intros [Hl Hq] Hr. destruct q as [|a [|b [|c [|d [|]]]]]; try done.
  repeat match goal with H : Forall _ (_ :: _) |- _ => apply Forall_cons in H as [? ?] end.
  unfold dotted, quad_format. cbn [map]. rewrite <- !app_assoc. cbn [app sscanf].
  rewrite scan_int_dec by done. cbn [app]. rewrite Z.eqb_refl.
  rewrite scan_int_dec by done. cbn [app]. rewrite Z.eqb_refl.
  rewrite scan_int_dec by done. cbn [app]. rewrite Z.eqb_refl.
  by rewrite scan_int_dec by done.
Qed.

Lemma dotted_head q : octets q -> exists c s, dotted q = c :: s /\ isspace c = false.
Proof.
  intros [Hl Hq]. destruct q as [|a [|b [|c [|d [|]]]]]; try done. apply Forall_inv in Hq.
  unfold dotted. cbn [map]. rewrite (fmt_d_dec a) by lia. pose proof (dec_u_digits a) as Hd. specialize (Hd (proj1 Hq)).
  pose proof (dec_u_nonempty a). destruct (dec_u a) as [|x s]; [done|]. apply Forall_inv in Hd.
  eexists _, _. split; [done|]. by apply isdigit_plain.
Qed.

Lemma sscanf_sep b q r fmt :
  blank b -> octets q -> sscanf (ScanSpace :: fmt) (b ++ dotted q ++ r) = sscanf fmt (dotted q ++ r).
Proof.
  intros [_ Hb] Hq. cbn [sscanf]. rewrite dropwhile_all; [done|done|].
  destruct (dotted_head q Hq) as (c & s & -> & Hc). done.
Qed.

Lemma blank_no_digit b s : blank b -> no_digit (b ++ s).
Proof.
  intros [Hne Hb]. destruct b as [|c b]; [done|]. apply Forall_inv in Hb. cbn.
  destruct (isdigit c) eqn:E; [|done]. apply isdigit_plain in E as [E _]. congruence.
Qed.

Lemma sscanf_ip a b c s1 s2 r :
  octets a -> octets b -> octets c -> blank s1 -> blank s2 -> no_digit r ->
  sscanf ip_format (dotted a ++ s1 ++ dotted b ++ s2 ++ dotted c ++ r) = a ++ b ++ c.
Proof.
  intros Ha Hb Hc H1 H2 Hr. unfold ip_format.
  rewrite sscanf_quad by auto using blank_no_digit. f_equal. cbn [app]. rewrite sscanf_sep by done.
  rewrite sscanf_quad by auto using blank_no_digit. f_equal. cbn [app]. rewrite sscanf_sep by done.
  rewrite <- (app_nil_r quad_format), sscanf_quad by done. cbn [sscanf]. by rewrite app_nil_r.
Qed.

Lemma fmt_octet_length v : 0 <= v < 256 -> (length (fmt_d v) <= 3)%nat.
Proof. intros H. rewrite fmt_d_dec by lia. apply (dec_u_length v 2). cbn. lia. Qed.

Lemma dotted_length q : octets q -> (length (dotted q) <= 15)%nat.
Proof.
  intros [Hl Hq]. destruct q as [|a [|b [|c [|d [|]]]]]; try done.
  repeat match goal with H : Forall _ (_ :: _) |- _ => apply Forall_cons in H as [? ?] end.
  unfold dotted. cbn [map]. rewrite !length_app. cbn [length].
  pose proof (fmt_octet_length a). pose proof (fmt_octet_length b). pose proof (fmt_octet_length c).
  pose proof (fmt_octet_length d). lia.
Qed.

Lemma quad_text_dotted q : octets q -> quad_text q = dotted q.
Proof.
  intros Hq. pose proof (dotted_length q Hq) as Hlen. destruct Hq as [Hl _].
  destruct q as [|a [|b [|c [|d [|]]]]]; try done. unfold quad_text, dotted in *. cbn [map] in *.
  apply bufcpy_id. lia.
Qed.

Lemma configSetStr_modified cs k v : cs_modified cs = true -> cs_modified (snd (configSetStr cs k v)) = true.
Proof.
  intros H. unfold configSetStr. repeat (dmatch; cbn [snd cs_modified set_modified set_items]; try done).
Qed.
Lemma configSetStr_new_modified cs k v :
  cs_items cs = [] -> configKeyValidate k = true -> hash_key k = false -> cs_modified (snd (configSetStr cs k v)) = true.
Proof. intros H Hk Hh. unfold configSetStr, getConfigItemForName. by rewrite Hk, H, Hh. Qed.

Lemma apply_quads_spec a b c x cs :
  octets a -> octets b -> octets c -> cs_items cs = [] ->
  let cs' := apply_quads ((a ++ b ++ c) ++ x) cs in
  cs_map cs' = <[bs "ps2_dns" := dotted c]> (<[bs "ps2_gateway" := dotted c]>
    (<[bs "ps2_netmask" := dotted b]> (<[bs "ps2_ip_addr" := dotted a]> ∅))) /\
  cs_ok cs' /\ cs_modified cs' = true.
Proof.
  intros Ha Hb Hc Hn. unfold apply_quads.
  rewrite <- !app_assoc.
  rewrite (take_app_length' a) by (symmetry; apply Ha). rewrite (drop_app_length' a) by (symmetry; apply Ha).
  rewrite (take_app_length' b) by (symmetry; apply Hb).
  replace (drop 8 (a ++ b ++ c ++ x)) with (c ++ x)
    by (rewrite app_assoc, drop_app_length'; [done|rewrite length_app; destruct Ha as [-> _], Hb as [-> _]; done]).
  rewrite (take_app_length' c) by (symmetry; apply Hc).
  rewrite !quad_text_dotted by done.
  assert (K : forall k, k ∈ [bs "ps2_ip_addr"; bs "ps2_netmask"; bs "ps2_gateway"; bs "ps2_dns"] -> key_ok k).
  { apply Forall_forall. apply (bool_decide_unpack _); vm_compute; exact I. }
  assert (cs_ok cs) as H0 by (split; rewrite Hn; cbn; constructor).
  assert (cs_map cs = ∅) as E0 by (unfold cs_map; rewrite Hn; done).
  assert (L : forall q, octets q -> take 255 (dotted q) = dotted q).
  { intros q Hq. apply take_ge. pose proof (dotted_length q Hq). lia. }
  repeat rewrite configSetStr_map by (repeat apply configSetStr_ok; try done; apply K; set_solver).
  rewrite E0, !L by done. split_and!; [done| |].
  - repeat apply configSetStr_ok; try done; apply K; set_solver.
  - do 3 apply configSetStr_modified. by apply configSetStr_new_modified.
Qed.

Section Fallback.
Context {W D : Type} `{!Device D} `{!FileSystem W D} `{!FileDevice D} `{!AppendDevice D} `{!LawfulFS W D}.
Implicit Types (w : W) (cs : config_set) (g : config_globals).

(** a read that fails leaves the settings and the type as they were *)
Lemma configRead_none fuel w cs cs' :
  configRead fuel w cs = Some (0, cs') -> cs_items cs' = cs_items cs /\ cs_type cs' = cs_type cs.
Proof.
  unfold configRead. destruct (configPathIsRawApa _); [by intros [= <-]|].
  match goal with |- (let '(_, _) := ?p in _) = _ -> _ => assert (H0 : cs_items (snd p) = cs_items cs /\ cs_type (snd p) = cs_type cs);
    [|destruct p as [fb c]; cbn [snd] in H0] end.
  { by repeat dmatch. }
  destruct (match fb with Some _ => _ | None => _ end) as [fb'|]; [by destruct (configReadFileBuffer _ _ _)|].
  intros [= <-]. exact H0.
Qed.

Lemma legacy_text_file (fd : D) s r :
  fs_size fd = strlen (FileBuffer.contents fd) -> FileBuffer.contents fd = s ++ r -> cstring (s ++ r) -> (length s <= 255)%nat ->
  exists r', legacy_text_of fd = s ++ r' /\ (no_digit r -> no_digit r').
Proof.
  intros Hs Hf Hc Hl. unfold legacy_text_of. rewrite Hs.
  destruct (dev_read_file fd (Z.to_nat (Z.min 255 (Z.max 0 (strlen (FileBuffer.contents fd)))))) as (d' & -> & _).
  cbn [fst default]. unfold default, id. rewrite Hf. set (n := Z.to_nat _).
  assert (Hn : (length s <= n)%nat) by (unfold n, strlen; rewrite length_app; lia).
  assert (Hct : cstring (take n (s ++ r))) by (by apply Forall_take).
  rewrite cstr_id by done. rewrite take_app, (take_ge s) by lia.
  exists (take (n - length s) r). split; [done|]. destruct r as [|c r]; [by rewrite take_nil|].
  destruct (n - length s)%nat; done.
Qed.

(** only the network set is concerned: the loop leaves the others alone *)
Lemma read_multi_network fuel w part files load i cs cs1 :
  files !! i = Some cs -> cs_type cs = CONFIG_NETWORK ->
  (forall j c, files !! j = Some c -> j <> i -> Z.land (cs_type c) CONFIG_NETWORK = 0) ->
  configRead fuel w (configClear cs) = Some (0, cs1) ->
  read_multi fuel w part CONFIG_NETWORK files load = Some (0, <[i := cs1]> files, load).
Proof.
  revert i load. induction files as [|c files IH]; intros i load Hi Ht Ho Hr; [done|]. cbn [read_multi].
  destruct i as [|i].
  - injection Hi as ->. rewrite Ht. cbn [CONFIG_NETWORK]. replace (Z.land CONFIG_NETWORK CONFIG_NETWORK =? 0) with false by done.
    rewrite Hr. cbn [mbind option_bind]. replace (0 =? 0) with true by done. cbn [negb andb].
    assert (E : read_multi fuel w part CONFIG_NETWORK files load = Some (0, files, load)).
    { clear IH Hr. assert (Ho' : forall j c, files !! j = Some c -> Z.land (cs_type c) CONFIG_NETWORK = 0).
      { intros j c Hj. by apply (Ho (S j) c). }
      clear Ho. induction files as [|x files IH]; [done|]. cbn [read_multi].
      rewrite (Ho' O x) by done. cbn [Z.eqb].
      rewrite IH by (intros j c Hj; by apply (Ho' (S j) c)). done. }
    by rewrite E.
  - rewrite (Ho O c) by done. cbn [Z.eqb].
    assert (Ho' : forall j c', files !! j = Some c' -> j <> i -> Z.land (cs_type c') CONFIG_NETWORK = 0).
    { intros j c' Hj Hne. apply (Ho (S j) c' Hj). lia. }
    by rewrite (IH i load Hi Ht Ho' Hr).
Qed.

(** Saving the settings as a group tells the truth: wherever [configInit] or
    [configSetMove] put the five sets, the number [configWriteMulti] returns is the
    number of selected sets that are clean afterwards, each of them that had
    something to save is in its own file byte for byte, no save disturbs another
    set's file or a file that is not a set's, and no setting in memory changes. *)
Theorem save_group_truthful w types g r g' w' prefix :
  (length prefix <= 200)%nat -> homed prefix g -> configWriteMulti w types g = (r, g', w') ->
  r = Z.of_nat (length (base.filter (fun cs => clean_selected types cs = true) (configFiles g'))) /\
  Forall2 (saved w' types) (configFiles g) (configFiles g') /\
  (forall q, (q ∉ homes prefix) -> fs_file w' q = fs_file w q).
Proof.
  intros Hp Hh. unfold configWriteMulti. destruct (write_multi _ _ _) as [[r1 fs] w1] eqn:E. intros [= <- <- <-].
  assert (Hnd : NoDup (map cs_filename (configFiles g))).
  { rewrite Hh. apply (NoDup_fmap_2 Some). by apply homes_NoDup. }
  destruct (write_multi_spec _ _ _ _ _ _ Hnd E) as (H1 & H2 & H3). split_and!; [done|done|].
  intros q Hq. apply H3. rewrite Hh. intros (x & [= <-] & Hx)%list_elem_of_fmap. done.
Qed.

(** Settings of the PS2 browser are taken over: when no network settings can be
    read, the addresses of IPCONFIG.DAT (three dotted quads apart by white space)
    become the address, mask, gateway and DNS settings, the load counts as a load of
    the network set, the set is marked for saving and the other sets stay. *)
Theorem network_legacy_fallback fuel w part g cs cs1 fd a b c s1 s2 r :
  configFiles g !! CONFIG_INDEX_NETWORK = Some cs -> map cs_type (configFiles g) = config_types ->
  configRead fuel w (configClear cs) = Some (0, cs1) ->
  fs_open_rd w (legacyNetConfigPath g) = Some fd ->
  FileBuffer.contents fd = dotted a ++ s1 ++ dotted b ++ s2 ++ dotted c ++ r ->
  cstring (FileBuffer.contents fd) ->
  octets a -> octets b -> octets c -> blank s1 -> blank s2 -> no_digit r ->
  (length s1 + length s2 <= 200)%nat ->
  exists g' cs', configReadMulti fuel w part CONFIG_NETWORK g = Some (CONFIG_NETWORK, g') /\
    configFiles g' = <[CONFIG_INDEX_NETWORK := cs']> (configFiles g) /\
    configGetStr cs' (bs "ps2_ip_addr") = Some (dotted a) /\
    configGetStr cs' (bs "ps2_netmask") = Some (dotted b) /\
    configGetStr cs' (bs "ps2_gateway") = Some (dotted c) /\
    configGetStr cs' (bs "ps2_dns") = Some (dotted c) /\
    cs_modified cs' = true /\ ps2_net g' = (a ++ b ++ c) ++ drop 12 (ps2_net g).
Proof.
  intros Hi Hty Hr Ho Hf Hc Ha Hb Hcc H1 H2 Hd Hl. unfold configReadMulti.
  destruct (configFiles g) as [|f0 [|f1 [|f2 [|f3 [|f4 [|]]]]]] eqn:Hfs; try done.
  injection Hi as ->. injection Hty as T0 T1 T2 T3 T4.
  rewrite (read_multi_network fuel w part _ _ 3 cs cs1); [|done|done| |done].
  2:{ intros [|[|[|[|[|j]]]]] x; cbn; intros [= <-] Hne; try done; by rewrite ?T0, ?T1, ?T2, ?T4. }
  cbn [mbind option_bind]. unfold configReadLegacyIP. cbn [legacyNetConfigPath]. rewrite Ho.
  destruct (open_rd_law _ _ _ Ho) as [_ Hsz].
  destruct (legacy_text_file fd (dotted a ++ s1 ++ dotted b ++ s2 ++ dotted c) r) as (r' & -> & Hr').
  { done. }
  { rewrite Hf. by rewrite <- !app_assoc. }
  { rewrite Hf in Hc. by rewrite <- !app_assoc. }
  { rewrite !length_app. pose proof (dotted_length a Ha). pose proof (dotted_length b Hb).
    pose proof (dotted_length c Hcc). lia. }
  rewrite <- !app_assoc, sscanf_ip by auto.
  assert (E12 : length (a ++ b ++ c) = 12%nat).
  { rewrite !length_app. destruct Ha as [-> _], Hb as [-> _], Hcc as [-> _]. done. }
  rewrite E12. replace (negb (Z.land CONFIG_NETWORK CONFIG_NETWORK =? 0) && (Z.land 0 CONFIG_NETWORK =? 0)) with true by done.
  cbn [Nat.eqb ps2_net].
  destruct (configRead_none _ _ _ _ Hr) as [Hit _].
  destruct (apply_quads_spec a b c (drop 12 (ps2_net g)) cs1 Ha Hb Hcc Hit) as (Em & Hok & Hm).
  eexists _, (apply_quads ((a ++ b ++ c) ++ drop 12 (ps2_net g)) cs1). split; [done|].
  split; [done|].
  split_and!; try done; [..|cbn; by rewrite <- !app_assoc];
    rewrite configGetStr_map by (try done; apply (bool_decide_unpack _); vm_compute; exact I);
    rewrite Em; by simplify_map_eq.
Qed.
End Fallback.

(** ** Witnesses *)

Definition blank_globals : config_globals := CG 0 [] [] [] [] [] (replicate 12 0).
Definition usb_home : bytes := bs "mass0:RIPTOPL".
Definition usb_globals : config_globals :=
  let g := configInit (bs "mc?:OPL") (Some usb_home) blank_globals in
  with_files (alter (fun cs => snd (configSetStr cs (bs "theme") (bs "blue"))) 0%nat (configFiles g)) g.

Lemma save_group_truthful_witness :
  exists r g' w', configWriteMulti (mass_fs false) 255 usb_globals = (r, g', w') /\ r = 5 /\
    Forall2 (saved w' 255) (configFiles usb_globals) (configFiles g').
Proof.
  destruct (configWriteMulti (mass_fs false) 255 usb_globals) as [[r g'] w'] eqn:E.
  exists r, g', w'. destruct (save_group_truthful (mass_fs false) 255 usb_globals r g' w' usb_home) as (H1 & H2 & _).
  - vm_compute. lia.
  - vm_compute. reflexivity.
  - exact E.
  - split; [done|]. split; [|exact H2]. vm_compute in E. by injection E.
Defined.

Definition ip_text : bytes := bs "192.168.0.10 255.255.255.0" ++ [10] ++ bs "192.168.0.1" ++ [13; 10].
Definition mc_fs : memfs := MemFS [(bs "mass0:RIPTOPL/IPCONFIG.DAT", ip_text)] false.

Lemma network_legacy_fallback_witness :
  exists g' cs', configReadMulti 100 mc_fs [] CONFIG_NETWORK usb_globals = Some (CONFIG_NETWORK, g') /\
    configFiles g' = <[CONFIG_INDEX_NETWORK := cs']> (configFiles usb_globals) /\
    configGetStr cs' (bs "ps2_ip_addr") = Some (bs "192.168.0.10") /\
    configGetStr cs' (bs "ps2_dns") = Some (bs "192.168.0.1").
Proof.
  set (net := default (configAlloc 0 0 None) (configFiles usb_globals !! 3%nat)).
  destruct (network_legacy_fallback 100 mc_fs [] usb_globals net (set_modified false (configClear net))
    (MemFD ip_text (strlen ip_text) [] false) [192; 168; 0; 10] [255; 255; 255; 0] [192; 168; 0; 1] [32] [10] [13; 10])
    as (g' & cs' & H1 & H2 & H3 & _ & _ & H4 & _).
  all: try reflexivity.
  all: try (vm_compute; reflexivity).
  all: try (cbn; lia).
  all: try (unfold octets, blank, cstring; apply (bool_decide_unpack _); vm_compute; exact I).
  - exists g', cs'. split; [exact H1|]. split; [exact H2|]. split; [exact H3|exact H4].
Defined.
