(* ===== verification/HttpCatalog.v ===== *)
(** * HttpCatalog: the games.csv parser of src/httpcatalog.c

    One line of the catalog becomes a row or the reason it is refused. Fields are
    cut out of the line in place in the source; here they are lists of bytes. *)
From S2P Require Import Prelude CLib.

(** ** Data (include/httpcatalog.h) *)

Definition HTTP_CSV_MAX_FIELDS : nat := 4.
Definition HTTP_CAT_STARTUP_MAX : nat := 12.
Definition HTTP_CAT_TITLE_MAX : nat := 160.
Definition HTTP_CAT_PATH_MAX : nat := 255.
Definition HTTP_CAT_MEDIA_CD : Z := 18.
Definition HTTP_CAT_MEDIA_DVD : Z := 20.

Inductive HTTP_CAT_REJECT :=
| REJ_EMPTY_STARTUP
| REJ_STARTUP_TOO_LONG
| REJ_CONTROL_CHAR
| REJ_TITLE_TOO_LONG
| REJ_BAD_MEDIA
| REJ_TOO_MANY_FIELDS
| REJ_UNTERMINATED_QUOTE
| REJ_TEXT_AFTER_QUOTE
| REJ_EMPTY_PATH
| REJ_PATH_TOO_LONG
| REJ_ABSOLUTE_URL
| REJ_ABSOLUTE_PATH
| REJ_BACKSLASH
| REJ_EMPTY_SEGMENT
| REJ_PARENT_SEGMENT
| REJ_UNKNOWN_EXTENSION.

Record http_catalog_row := Row {
  row_startup : bytes;
  row_title : bytes;
  row_path : bytes;
  row_extension : bytes;
  row_media : Z;
  row_supported : bool;
}.

(** ** Lines and fields *)

Definition isBlank (c : Z) : bool := (c =? cSP) || (c =? cTAB).

Definition httpCatalogSkipBlankOrComment (line : bytes) : option bytes :=
  match dropwhile isBlank line with
  | [] => None
  | c :: r => if c =? cHASH then None else Some (c :: r)
  end.

(** the inner loop of a quoted field: the field and what follows its closing quote *)
Fixpoint quoted_field (p : bytes) : option (bytes * bytes) :=
  match p with
  | [] => None
  | c :: r =>
    if c =? cDQUOTE then
      match r with
      | d :: r' =>
        if d =? cDQUOTE then (fun '(f, rest) => (cDQUOTE :: f, rest)) <$> quoted_field r'
        else Some ([], r)
      | [] => Some ([], [])
      end
    else (fun '(f, rest) => (c :: f, rest)) <$> quoted_field r
  end.

(** a plain field and what follows it, its comma included *)
Fixpoint plain_field (p : bytes) : bytes * bytes :=
  match p with
  | [] => ([], [])
  | c :: r => if c =? cCOMMA then ([], p) else let '(f, rest) := plain_field r in (c :: f, rest)
  end.

(** the outer loop with room for [left] more fields *)
Fixpoint split_fields (left : nat) (p : bytes) : HTTP_CAT_REJECT + list bytes :=
  match left with
  | O => inl REJ_TOO_MANY_FIELDS
  | S left' =>
    let next (f rest : bytes) : HTTP_CAT_REJECT + list bytes :=
      match rest with
      | [] => if Nat.eqb left' 0 then inl REJ_TOO_MANY_FIELDS else inr [f; []]
      | _ => match split_fields left' rest with
             | inl r => inl r
             | inr fs => inr (f :: fs)
             end
      end in
    if bool_decide (head p = Some cDQUOTE) then
      match quoted_field (tail p) with
      | None => inl REJ_UNTERMINATED_QUOTE
      | Some (f, []) => inr [f]
      | Some (f, c :: rest) => if negb (c =? cCOMMA) then inl REJ_TEXT_AFTER_QUOTE else next f rest
      end
    else
      match plain_field p with
      | (f, []) => inr [f]
      | (f, _ :: rest) => next f rest
      end
  end.

Definition httpSplitFields (line : bytes) : HTTP_CAT_REJECT + list bytes :=
  split_fields HTTP_CSV_MAX_FIELDS line.

Definition httpTrim (s : bytes) : bytes := rdropwhile isBlank (dropwhile isBlank s).

Definition httpHasControlChars (s : bytes) : bool := existsb (fun c => (c <? 32) || (c =? 127)) s.

Definition httpEndsWithNoCase (s suffix : bytes) : bool :=
  if Nat.leb (length s) (length suffix) then false
  else strcaseeq (drop (length s - length suffix) s) suffix.

(** ** Paths *)

(** the loop over the segments; a pass drops at least one byte, so the length of
    the path and one bounds the passes *)
Fixpoint check_segments (fuel : nat) (seg : bytes) : option HTTP_CAT_REJECT :=
  match fuel with
  | O => None
  | S f =>
    let slash := strchr seg cSLASH in
    let s := match slash with Some i => take i seg | None => seg end in
    if Nat.eqb (length s) 0 then Some REJ_EMPTY_SEGMENT
    else if bool_decide (s = [cDOT]) then Some REJ_EMPTY_SEGMENT
    else if bool_decide (s = [cDOT; cDOT]) then Some REJ_PARENT_SEGMENT
    else match slash with
         | None => None
         | Some i => check_segments f (drop (S i) seg)
         end
  end.

(** [None] is HTTP_CAT_OK *)
Definition httpCheckPath (path : bytes) : option HTTP_CAT_REJECT :=
  match path with
  | [] => Some REJ_EMPTY_PATH
  | c :: _ =>
    if httpHasControlChars path then Some REJ_CONTROL_CHAR
    else if Nat.ltb HTTP_CAT_PATH_MAX (length path) then Some REJ_PATH_TOO_LONG
    else match strstr path (bs "://") with
         | Some _ => Some REJ_ABSOLUTE_URL
         | None =>
           if c =? cSLASH then Some REJ_ABSOLUTE_PATH
           else match strchr path cBSLASH with
                | Some _ => Some REJ_BACKSLASH
                | None =>
                  match check_segments (S (length path)) path with
                  | Some r => Some r
                  | None =>
                    if negb (httpEndsWithNoCase path (bs ".iso")) && negb (httpEndsWithNoCase path (bs ".zso"))
                    then Some REJ_UNKNOWN_EXTENSION else None
                  end
                end
         end
  end.

(** ** The row *)

Definition media_token (m : bytes) : option Z :=
  match m with
  | [] => Some HTTP_CAT_MEDIA_DVD
  | [a; b] => if ((a =? 67) || (a =? 99)) && ((b =? 68) || (b =? 100)) then Some HTTP_CAT_MEDIA_CD else None
  | [a; b; c] =>
    if ((a =? 68) || (a =? 100)) && ((b =? 86) || (b =? 118)) && ((c =? 68) || (c =? 100))
    then Some HTTP_CAT_MEDIA_DVD else None
  | _ => None
  end.

(** title, extension and path of a row whose title is settled: from the fourth
    field, or derived from the title *)
Definition row_names (fields : list bytes) (title : bytes) : bytes * bytes * bytes :=
  let derived :=
    let tl := length title in
    let '(t, e) :=
      if httpEndsWithNoCase title (bs ".iso") || httpEndsWithNoCase title (bs ".zso") then
        (bufcpy (HTTP_CAT_TITLE_MAX + 1) (take (tl - 4) title), map tolower (bufcpy 5 (drop (tl - 4) title)))
      else (bufcpy (HTTP_CAT_TITLE_MAX + 1) title, bufcpy 5 (bs ".iso")) in
    (t, e, bufcpy (HTTP_CAT_PATH_MAX + 1) (t ++ e)) in
  match fields !! 3%nat with
  | Some f3 =>
    let path := httpTrim f3 in
    if bool_decide (path <> []) then
      (bufcpy (HTTP_CAT_TITLE_MAX + 1) title,
       bufcpy 5 (if httpEndsWithNoCase path (bs ".zso") then bs ".zso" else bs ".iso"), path)
    else derived
  | None => derived
  end.

Definition httpCatalogParseLine (line : bytes) : HTTP_CAT_REJECT + http_catalog_row :=
  match httpSplitFields line with
  | inl reject => inl reject
  | inr fields =>
    let startup := httpTrim (default [] (fields !! 0%nat)) in
    if bool_decide (startup = []) then inl REJ_EMPTY_STARTUP
    else if httpHasControlChars startup then inl REJ_CONTROL_CHAR
    else if Nat.ltb HTTP_CAT_STARTUP_MAX (length startup) then inl REJ_STARTUP_TOO_LONG
    else
      let title := match fields !! 1%nat with
                   | Some f1 => if bool_decide (httpTrim f1 <> []) then httpTrim f1 else startup
                   | None => startup
                   end in
      if httpHasControlChars title then inl REJ_CONTROL_CHAR
      else if Nat.ltb HTTP_CAT_TITLE_MAX (length title) then inl REJ_TITLE_TOO_LONG
      else
        match media_token (match fields !! 2%nat with Some f2 => httpTrim f2 | None => [] end) with
        | None => inl REJ_BAD_MEDIA
        | Some media =>
          let '(t, e, path) := row_names fields title in
          match httpCheckPath path with
          | Some err => inl err
          | None => inr (Row (bufcpy (HTTP_CAT_STARTUP_MAX + 1) startup) t
                             (bufcpy (HTTP_CAT_PATH_MAX + 1) path) e media
                             (httpEndsWithNoCase path (bs ".iso")))
          end
        end
  end.

(** ** What a catalog promises *)

Fixpoint split_on (c : Z) (acc : bytes) (s : bytes) : list bytes :=
  match s with
  | [] => [acc]
  | x :: r => if x =? c then acc :: split_on c [] r else split_on c (acc ++ [x]) r
  end.

(** a path that stays below the configured base and names an image *)
Definition safe_path (p : bytes) : Prop :=
  (p <> []) /\ (length p <= 255)%nat /\
  Forall (fun c => ~ (c < 32 \/ c = 127)) p /\ (cBSLASH ∉ p) /\
  strstr p (bs "://") = None /\
  Forall (fun s => s <> [] /\ s <> [cDOT] /\ s <> [cDOT; cDOT]) (split_on cSLASH [] p) /\
  (httpEndsWithNoCase p (bs ".iso") || httpEndsWithNoCase p (bs ".zso")) = true.

Definition row_ok (row : http_catalog_row) : Prop :=
  (1 <= length (row_startup row) <= 12)%nat /\ (length (row_title row) <= 160)%nat /\
  safe_path (row_path row) /\
  (row_media row = HTTP_CAT_MEDIA_CD \/ row_media row = HTTP_CAT_MEDIA_DVD) /\
  row_supported row = httpEndsWithNoCase (row_path row) (bs ".iso").

(** how a field may be written *)
Fixpoint quote_body (f : bytes) : bytes :=
  match f with
  | [] => []
  | c :: r => if c =? cDQUOTE then cDQUOTE :: cDQUOTE :: quote_body r else c :: quote_body r
  end.
Definition write_field (quoted : bool) (f : bytes) : bytes :=
  if quoted then cDQUOTE :: quote_body f ++ [cDQUOTE] else f.
Definition plain_ok (f : bytes) : Prop := (cCOMMA ∉ f) /\ head f <> Some cDQUOTE.
Definition written_ok (x : bool * bytes) : Prop := if fst x then True else plain_ok (snd x).

Fixpoint write_fields (l : list (bool * bytes)) : bytes :=
  match l with
  | [] => []
  | [(q, f)] => write_field q f
  | (q, f) :: r => write_field q f ++ cCOMMA :: write_fields r
  end.

(** ** Lemmas *)

Lemma split_on_acc c acc s :
  split_on c acc s = match strchr s c with
                     | Some i => (acc ++ take i s) :: split_on c [] (drop (S i) s)
                     | None => [acc ++ s]
                     end.
Proof.
  revert acc. induction s as [|x s IH]; intros acc; [cbn; by rewrite app_nil_r|].
  cbn [split_on]. unfold strchr in *. cbn [find_index].
  destruct (x =? c); [cbn; by rewrite app_nil_r|]. rewrite IH.
  destruct (find_index _ s); cbn; by rewrite <- app_assoc.
Qed.

Lemma check_segments_spec fuel p :
  (length p < fuel)%nat -> check_segments fuel p = None ->
  Forall (fun s => s <> [] /\ s <> [cDOT] /\ s <> [cDOT; cDOT]) (split_on cSLASH [] p).
Proof.
  revert p. induction fuel as [|f IH]; intros p Hf; [lia|]. cbn [check_segments].
  rewrite split_on_acc. destruct (strchr p cSLASH) as [i|] eqn:E; cbn [app].
  - destruct (Nat.eqb_spec (length (take i p)) 0) as [|Hn]; [done|].
    repeat case_bool_decide; try done. intros Hrest. apply Forall_cons. split.
    + split_and!; [by intros X; rewrite X in Hn|done|done].
    + apply IH; [|done]. apply strchr_Some in E as (_ & _ & Hi). rewrite length_drop. lia.
  - destruct (Nat.eqb_spec (length p) 0) as [|Hn]; [done|].
    repeat case_bool_decide; try done. intros _. apply Forall_cons. split; [|constructor].
    split_and!; [by intros ->|done|done].
Qed.

Lemma control_chars_spec s : httpHasControlChars s = false -> Forall (fun c => ~ (c < 32 \/ c = 127)) s.
Proof.
  unfold httpHasControlChars. induction s as [|c s IH]; [constructor|]. cbn. intros H. b2p.
  constructor; [lia|]. by apply IH.
Qed.

Lemma httpCheckPath_safe p : httpCheckPath p = None -> safe_path p.
Proof.
  unfold httpCheckPath. destruct p as [|c r] eqn:Ep; [done|]. rewrite <- Ep.
  destruct (httpHasControlChars p) eqn:H1; [done|]. destruct (Nat.ltb _ _) eqn:H2; [done|].
  destruct (strstr p (bs "://")) eqn:H3; [done|]. destruct (c =? cSLASH); [done|].
  destruct (strchr p cBSLASH) eqn:H4; [done|]. destruct (check_segments _ p) eqn:H5; [done|].
  destruct (negb _ && negb _) eqn:H6; [done|]. intros _.
  unfold HTTP_CAT_PATH_MAX in H2. apply Nat.ltb_ge in H2.
  apply check_segments_spec in H5; [|lia].
  unfold safe_path. split_and!; auto.
  - by rewrite Ep.
  - by apply control_chars_spec.
  - by apply strchr_None.
  - apply andb_false_iff in H6 as [H6|H6]; apply negb_false_iff in H6; by rewrite H6, ?orb_true_r.
Qed.

Lemma media_token_cases m z : media_token m = Some z -> z = HTTP_CAT_MEDIA_CD \/ z = HTTP_CAT_MEDIA_DVD.
Proof.
  destruct m as [|a [|b [|c [|d m]]]]; cbn; try done.
  - intros [= <-]. by right.
  - destruct (_ && _); [|done]. intros [= <-]. by left.
  - destruct (_ && _); [|done]. intros [= <-]. by right.
Qed.

Lemma row_names_title fields title t e p :
  (length title <= 160)%nat -> row_names fields title = (t, e, p) -> (length t <= 160)%nat.
Proof.
  intros Hl. unfold row_names. unfold bufcpy, HTTP_CAT_TITLE_MAX.
  destruct (fields !! 3%nat); [destruct (bool_decide _)|]; try destruct (_ || _); intros [= <- _ _];
    rewrite !length_take; lia.
Qed.

Lemma quoted_field_body f rest :
  head rest <> Some cDQUOTE -> quoted_field (quote_body f ++ cDQUOTE :: rest) = Some (f, rest).
Proof.
  intros Hr. induction f as [|c f IH]; cbn [quote_body app quoted_field].
  - rewrite Z.eqb_refl. destruct rest as [|d r]; [done|].
    destruct (Z.eqb_spec d cDQUOTE) as [->|]; [done|done].
  - destruct (Z.eqb_spec c cDQUOTE) as [->|Hc]; cbn [app quoted_field].
    + rewrite !Z.eqb_refl, IH. done.
    + rewrite (proj2 (Z.eqb_neq c cDQUOTE)) by done. by rewrite IH.
Qed.

Lemma plain_field_app f rest :
  (cCOMMA ∉ f) -> (rest = [] \/ exists r, rest = cCOMMA :: r) -> plain_field (f ++ rest) = (f, rest).
Proof.
  intros H Hr. induction f as [|c f IH]; cbn.
  - destruct Hr as [->|[r ->]]; done.
  - apply not_elem_of_cons in H as [Hc H]. rewrite (proj2 (Z.eqb_neq c cCOMMA)) by done. by rewrite IH.
Qed.

(** one field as the outer loop takes it *)
Lemma split_fields_one left q f rest :
  written_ok (q, f) -> (rest = [] \/ exists r, rest = cCOMMA :: r) ->
  split_fields (S left) (write_field q f ++ rest) =
  match rest with
  | [] => inr [f]
  | _ :: [] => if Nat.eqb left 0 then inl REJ_TOO_MANY_FIELDS else inr [f; []]
  | _ :: r => match split_fields left r with inl e => inl e | inr fs => inr (f :: fs) end
  end.
Proof.
  intros Hok Hr. cbn [split_fields]. destruct q; cbn [write_field].
  - cbn [app head]. rewrite bool_decide_eq_true_2 by done. cbn [tail]. rewrite <- app_assoc. cbn [app].
    rewrite quoted_field_body by (by destruct Hr as [->|[r ->]]).
    destruct Hr as [->|[r ->]]; [done|]. rewrite Z.eqb_refl. cbn [negb]. by destruct r.
  - destruct Hok as [Hc Hh]. rewrite bool_decide_eq_false_2.
    + rewrite plain_field_app by done. destruct Hr as [->|[r ->]]; [done|]. by destruct r.
    + destruct f; [|done]. by destruct Hr as [->|[r ->]].
Qed.

Lemma write_fields_cons q f l : l <> [] -> write_fields ((q, f) :: l) = write_field q f ++ cCOMMA :: write_fields l.
Proof. by destruct l as [|[q' f'] l]. Qed.

Lemma write_fields_nil l : l <> [] -> write_fields l = [] -> l = [(false, [])].
Proof.
  destruct l as [|[q f] l]; [done|]. intros _. destruct (decide (l = [])) as [->|Hl].
  - destruct q; [done|]. cbn. by intros ->.
  - rewrite write_fields_cons by done. by destruct q, f.
Qed.

Lemma split_fields_written l : forall left,
  Forall written_ok l -> l <> [] ->
  split_fields left (write_fields l) =
    if Nat.leb (length l) left then inr (map snd l) else inl REJ_TOO_MANY_FIELDS.
Proof.
  induction l as [|[q f] l IH]; intros left Hok Hne; [done|].
  destruct left as [|left]; [done|]. apply Forall_cons in Hok as [Hx Hok].
  destruct (decide (l = [])) as [->|Hl].
  - cbn [write_fields]. rewrite <- (app_nil_r (write_field q f)), split_fields_one by auto. done.
  - rewrite write_fields_cons, split_fields_one by eauto. cbn [length map snd].
    change (Nat.leb (S (length l)) (S left)) with (Nat.leb (length l) left).
    pose proof (IH left Hok Hl) as IHl. destruct (write_fields l) as [|x r] eqn:E.
    + apply write_fields_nil in E as ->; [|done]. by destruct left.
    + rewrite IHl. by destruct (Nat.leb _ _).
Qed.

(** ** Properties *)

(** Reading inverts writing: 1 to 4 fields joined by commas come back as they
    were, each written plainly (when it has no comma and does not open with a
    quote) or in quotes with its quotes doubled; a fifth field refuses the line. *)
Theorem csv_roundtrip l :
  Forall written_ok l -> l <> [] ->
  httpSplitFields (write_fields l) =
    if Nat.leb (length l) 4 then inr (map snd l) else inl REJ_TOO_MANY_FIELDS.
Proof. intros. by apply split_fields_written. Qed.

(** Every row the parser accepts is safe to request: the path is a bounded
    relative path without control bytes, backslashes, URL scheme, empty, "." or
    ".." segments, it names an .iso or .zso image, and the row is marked
    launchable exactly when it is an .iso; startup and title fit their fields. *)
Theorem accepted_row_safe line row : httpCatalogParseLine line = inr row -> row_ok row.
Proof.
  unfold httpCatalogParseLine. destruct (httpSplitFields line) as [|fields]; [done|]. cbv zeta.
  set (startup := httpTrim (default [] (fields !! 0%nat))).
  destruct (bool_decide (startup = [])) eqn:S1; [done|]. destruct (httpHasControlChars startup); [done|].
  destruct (Nat.ltb _ (length startup)) eqn:S2; [done|].
  set (title := match fields !! 1%nat with Some _ => _ | None => _ end).
  destruct (httpHasControlChars title); [done|]. destruct (Nat.ltb _ (length title)) eqn:T2; [done|].
  destruct (media_token _) as [media|] eqn:M; [|done].
  destruct (row_names fields title) as [[t e] path] eqn:R.
  destruct (httpCheckPath path) eqn:P; [done|]. intros [= <-].
  apply httpCheckPath_safe in P. pose proof P as (_ & Hl & _).
  unfold HTTP_CAT_STARTUP_MAX, HTTP_CAT_TITLE_MAX, HTTP_CAT_PATH_MAX in *. b2p.
  apply row_names_title in R; [|done]. unfold row_ok. cbn [row_startup row_title row_path row_media row_supported].
  rewrite !bufcpy_id by lia. split_and!; auto; try lia.
  - destruct startup; [done|]. cbn. lia.
  - by eapply media_token_cases.
Qed.

(** The fourth field is authoritative: a row that gives a path is accepted
    only with exactly that path, whatever its title says; a row without one gets
    the path made of its own title and extension. *)
Theorem row_path_source line fields row :
  httpSplitFields line = inr fields -> httpCatalogParseLine line = inr row ->
  row_path row = match fields !! 3%nat with
                 | Some f3 => if bool_decide (httpTrim f3 <> []) then httpTrim f3 else row_title row ++ row_extension row
                 | None => row_title row ++ row_extension row
                 end.
Proof.
  intros Hs. unfold httpCatalogParseLine. rewrite Hs. cbv zeta.
  set (startup := httpTrim (default [] (fields !! 0%nat))).
  destruct (bool_decide (startup = [])); [done|]. destruct (httpHasControlChars startup); [done|].
  destruct (Nat.ltb _ (length startup)); [done|].
  set (title := match fields !! 1%nat with Some _ => _ | None => _ end).
  destruct (httpHasControlChars title); [done|]. destruct (Nat.ltb _ (length title)) eqn:T2; [done|].
  destruct (media_token _) as [media|]; [|done].
  destruct (row_names fields title) as [[t e] path] eqn:R.
  destruct (httpCheckPath path) eqn:P; [done|]. intros [= <-].
  apply httpCheckPath_safe in P as (_ & Hl & _). unfold HTTP_CAT_PATH_MAX, HTTP_CAT_TITLE_MAX in *. b2p.
  cbn [row_path row_title row_extension]. rewrite bufcpy_id by lia.
  unfold row_names, HTTP_CAT_TITLE_MAX, HTTP_CAT_PATH_MAX in R.
  assert (Hd : forall (t0 e0 : bytes), (length t0 <= 160)%nat -> (length e0 <= 4)%nat -> bufcpy 256 (t0 ++ e0) = t0 ++ e0).
  { intros t0 e0 H1 H2. apply bufcpy_id. rewrite length_app. lia. }
  destruct (fields !! 3%nat) as [f3|].
  1: destruct (bool_decide (httpTrim f3 <> [])); [by injection R as _ _ <-|].
  all: destruct (_ || _) in R; injection R as <- <- <-; apply Hd; unfold bufcpy;
    rewrite ?length_map, ?length_take; lia.
Qed.

(** ** Witnesses *)

Definition sample_row : bytes :=
  bs "SLUS_200.62," ++ [cDQUOTE] ++ bs "Ready, Set" ++ [cDQUOTE] ++ bs ",dvd, DVD/Ready.ISO ".

Lemma csv_roundtrip_witness :
  httpSplitFields (write_fields [(false, bs "SLUS_200.62"); (true, bs "Ready, Set"); (false, [])]) =
  inr [bs "SLUS_200.62"; bs "Ready, Set"; []].
Proof.
  apply (csv_roundtrip [(false, bs "SLUS_200.62"); (true, bs "Ready, Set"); (false, [])]); [|done].
  repeat (apply Forall_cons; split); [| | |apply Forall_nil_2]; unfold written_ok; cbn [fst snd]; try exact I;
    by apply (bool_decide_unpack _).
Defined.

Definition parsed_sample : http_catalog_row :=
  Row (bs "SLUS_200.62") (bs "Ready, Set") (bs "DVD/Ready.ISO") (bs ".iso") HTTP_CAT_MEDIA_DVD true.

Lemma accepted_row_safe_witness : row_ok parsed_sample.
Proof. apply (accepted_row_safe sample_row parsed_sample). vm_compute. reflexivity. Defined.

Lemma row_path_source_witness : row_path parsed_sample = bs "DVD/Ready.ISO".
Proof.
  apply (row_path_source sample_row
           [bs "SLUS_200.62"; bs "Ready, Set"; bs "dvd"; bs " DVD/Ready.ISO "] parsed_sample);
    vm_compute; reflexivity.
Defined.
