(* ===== verification/LibView.v ===== *)
(** * LibView: the L3 view rings of src/libview.c

    Each page keeps a position in one or two rings of views; L3 stages a move, the
    list rebuild commits it, and the positions are kept in the settings store. *)
From S2P Require Import Prelude CLib ConfigStore.

(** ** Data *)

Definition MODE_COUNT : nat := 15.
Abbreviation APP_MODE := 10.
Abbreviation MMCE_MODE := 11.
Abbreviation FAV_MODE := 12.
Abbreviation UDPFS_MODE := 13.
Abbreviation ETH_MODE := 8.
Abbreviation HDD_MODE := 9.
Abbreviation BDM_MODE := 0.
Abbreviation BDM_MODE_LAST := 7.

Abbreviation LIB_VIEW_ISO := 0.
Abbreviation LIB_VIEW_PS1 := 1.
Abbreviation LIB_VIEW_ELF := 2.
Abbreviation LIB_VIEW_ALL := 3.
Abbreviation LIB_VIEW_MIXED := 4.
Abbreviation LIB_VIEW_PS1_ELF := 5.
Abbreviation LIB_VIEW_COUNT := 6.

Abbreviation GAME_VIEW_BOTH := 0.
Abbreviation GAME_VIEW_ISO := 1.
Abbreviation GAME_VIEW_VCD := 2.
Abbreviation GAME_VIEW_MIXED := 3.
Abbreviation APPS_DISPLAY_SPLIT := 1.

Abbreviation CONFIG_LAST_LIB_VIEW_RETAINED := (bs "lib_view_retained").
Abbreviation CONFIG_LAST_LIB_VIEW_MIXED := (bs "lib_view_mixed").

(** the static arrays of the file and the two global settings they depend on *)
Record libview := LV {
  retainedView : list Z;
  mixedView : list Z;
  mixedViewInitialized : list bool;
  libDirty : list bool;
  pendingView : list Z;
  pendingViewValid : list bool;
  pendingViewUsesMixedRing : list bool;
  gDefaultGameView : Z;
  gAppsDisplay : Z;
}.

Definition zeroes : list Z := replicate MODE_COUNT 0.
Definition falses : list bool := replicate MODE_COUNT false.
Definition libview_start (gv ad : Z) : libview := LV zeroes zeroes falses falses zeroes falses falses gv ad.

Definition at_mode {A} (d : A) (l : list A) (mode : Z) : A := nth (Z.to_nat mode) l d.
Definition upd {A} (l : list A) (mode : Z) (x : A) : list A := <[Z.to_nat mode := x]> l.

Definition mode_ok (mode : Z) : bool := (0 <=? mode) && (mode <? Z.of_nat MODE_COUNT).

(** ** Operations *)

Definition libViewIsDeviceMode (mode : Z) : bool :=
  if (BDM_MODE <=? mode) && (mode <=? BDM_MODE_LAST) then true
  else (mode =? MMCE_MODE) || (mode =? ETH_MODE) || (mode =? HDD_MODE) || (mode =? UDPFS_MODE).

Definition libViewSupported (mode view : Z) : bool :=
  if negb (mode_ok mode) || (view <? 0) || (LIB_VIEW_COUNT <=? view) then false
  else if view =? LIB_VIEW_ISO then true
  else if view =? LIB_VIEW_PS1 then libViewIsDeviceMode mode || (mode =? FAV_MODE)
  else if (view =? LIB_VIEW_ELF) || (view =? LIB_VIEW_ALL) then mode =? FAV_MODE
  else if view =? LIB_VIEW_MIXED then libViewIsDeviceMode mode || (mode =? APP_MODE)
  else if view =? LIB_VIEW_PS1_ELF then mode =? APP_MODE
  else false.

Definition libViewRingSize (s : libview) (mode : Z) : Z :=
  if negb (mode_ok mode) then 1
  else if mode =? FAV_MODE then 4
  else if mode =? APP_MODE then (if gAppsDisplay s =? APPS_DISPLAY_SPLIT then 2 else 1)
  else if negb (libViewIsDeviceMode mode) then 1
  else if gDefaultGameView s =? GAME_VIEW_BOTH then 2
  else if gDefaultGameView s =? GAME_VIEW_MIXED then 3
  else 1.

Definition libViewMixedActive (s : libview) (mode : Z) : Z * libview :=
  let s1 :=
    if negb (at_mode false (mixedViewInitialized s) mode) then
      LV (retainedView s) (upd (mixedView s) mode LIB_VIEW_MIXED) (upd (mixedViewInitialized s) mode true)
         (libDirty s) (pendingView s) (pendingViewValid s) (pendingViewUsesMixedRing s)
         (gDefaultGameView s) (gAppsDisplay s)
    else s in
  (at_mode 0 (mixedView s1) mode, s1).

Definition libViewActive (s : libview) (mode : Z) : Z * libview :=
  if negb (mode_ok mode) then (LIB_VIEW_ISO, s)
  else if mode =? FAV_MODE then (at_mode 0 (retainedView s) mode, s)
  else if mode =? APP_MODE then
    (if gAppsDisplay s =? APPS_DISPLAY_SPLIT then at_mode 0 (retainedView s) mode else LIB_VIEW_MIXED, s)
  else if negb (libViewIsDeviceMode mode) then (LIB_VIEW_ISO, s)
  else if gDefaultGameView s =? GAME_VIEW_ISO then (LIB_VIEW_ISO, s)
  else if gDefaultGameView s =? GAME_VIEW_VCD then (LIB_VIEW_PS1, s)
  else if gDefaultGameView s =? GAME_VIEW_MIXED then libViewMixedActive s mode
  else (if at_mode 0 (retainedView s) mode =? LIB_VIEW_PS1 then LIB_VIEW_PS1 else LIB_VIEW_ISO, s).

Definition libViewRingUsable (s : libview) (mode : Z) : bool := mode_ok mode && (1 <? libViewRingSize s mode).

Definition libViewPending (s : libview) (mode : Z) : bool := mode_ok mode && at_mode false (pendingViewValid s) mode.

(** the stop after [cur] *)
Definition next_view (s : libview) (mode cur : Z) : Z :=
  if mode =? FAV_MODE then
    if cur =? LIB_VIEW_ISO then LIB_VIEW_PS1
    else if cur =? LIB_VIEW_PS1 then LIB_VIEW_ELF
    else if cur =? LIB_VIEW_ELF then LIB_VIEW_ALL
    else LIB_VIEW_ISO
  else if mode =? APP_MODE then (if cur =? LIB_VIEW_PS1_ELF then LIB_VIEW_ISO else LIB_VIEW_PS1_ELF)
  else if gDefaultGameView s =? GAME_VIEW_MIXED then
    if cur =? LIB_VIEW_MIXED then LIB_VIEW_ISO
    else if cur =? LIB_VIEW_ISO then LIB_VIEW_PS1
    else LIB_VIEW_MIXED
  else (if cur =? LIB_VIEW_PS1 then LIB_VIEW_ISO else LIB_VIEW_PS1).

Definition libViewStageAdvance (s : libview) (mode : Z) : bool * libview :=
  if negb (libViewRingUsable s mode) || at_mode false (pendingViewValid s) mode then (false, s)
  else
    let '(cur, s) := libViewActive s mode in
    (true,
     LV (retainedView s) (mixedView s) (mixedViewInitialized s) (upd (libDirty s) mode true)
        (upd (pendingView s) mode (next_view s mode cur)) (upd (pendingViewValid s) mode true)
        (upd (pendingViewUsesMixedRing s) mode
             (negb (mode =? FAV_MODE) && negb (mode =? APP_MODE) && (gDefaultGameView s =? GAME_VIEW_MIXED)))
        (gDefaultGameView s) (gAppsDisplay s)).

Definition libViewPendingTarget (s : libview) (mode : Z) : Z * libview :=
  if libViewPending s mode then (at_mode 0 (pendingView s) mode, s) else libViewActive s mode.

Definition libViewCommitPending (s : libview) (mode : Z) : libview :=
  if negb (libViewPending s mode) then s
  else if at_mode false (pendingViewUsesMixedRing s) mode then
    LV (retainedView s) (upd (mixedView s) mode (at_mode 0 (pendingView s) mode)) (mixedViewInitialized s) (libDirty s)
       (pendingView s) (pendingViewValid s) (pendingViewUsesMixedRing s) (gDefaultGameView s) (gAppsDisplay s)
  else
    LV (upd (retainedView s) mode (at_mode 0 (pendingView s) mode)) (mixedView s) (mixedViewInitialized s) (libDirty s)
       (pendingView s) (pendingViewValid s) (pendingViewUsesMixedRing s) (gDefaultGameView s) (gAppsDisplay s).

Definition libViewFinishPending (s : libview) (mode : Z) : libview :=
  if mode_ok mode then
    LV (retainedView s) (mixedView s) (mixedViewInitialized s) (libDirty s) (pendingView s)
       (upd (pendingViewValid s) mode false) (pendingViewUsesMixedRing s) (gDefaultGameView s) (gAppsDisplay s)
  else s.

Definition set_dirty (s : libview) (d : list bool) : libview :=
  LV (retainedView s) (mixedView s) (mixedViewInitialized s) d (pendingView s) (pendingViewValid s)
     (pendingViewUsesMixedRing s) (gDefaultGameView s) (gAppsDisplay s).

Definition libViewConsumeDirty (s : libview) (mode : Z) : bool * libview :=
  if negb (mode_ok mode) || negb (at_mode false (libDirty s) mode) then (false, s)
  else (true, set_dirty s (upd (libDirty s) mode false)).
Definition libViewMarkDirty (s : libview) (mode : Z) : libview :=
  if mode_ok mode then set_dirty s (upd (libDirty s) mode true) else s.
Definition libViewMarkAllDirty (s : libview) : libview := set_dirty s (replicate MODE_COUNT true).

(** *** Remembering the positions *)

Definition LIB_VIEW_STATE_NONE : Z := cMINUS.

(** one character per mode; [set] is the optional array of flags *)
Definition libViewEncodeRing (view : list Z) (set : option (list bool)) : bytes :=
  map (fun mode => if match set with None => true | Some f => nth mode f false end
                   then 48 + nth mode view 0 else LIB_VIEW_STATE_NONE)
      (seq 0 MODE_COUNT).

(** the loop from mode [mode] on *)
Fixpoint decode_ring (inp : bytes) (mode : nat) (view : list Z) (set : list bool) : list Z * list bool :=
  match inp with
  | [] => (view, set)
  | c :: r =>
    if Nat.leb MODE_COUNT mode then (view, set)
    else
      let value := c - 48 in
      if (value <? 0) || (LIB_VIEW_COUNT <=? value) || negb (libViewSupported (Z.of_nat mode) value)
      then decode_ring r (S mode) view set
      else decode_ring r (S mode) (<[mode := value]> view) (<[mode := true]> set)
  end.
Definition libViewDecodeRing (inp : bytes) (view : list Z) (set : list bool) : list Z * list bool :=
  decode_ring inp 0 view set.

Section Persist.
Context {S : Type} `{!SettingsStore S}.

Definition libViewLoadFromConfig (s : libview) (configLast : S) : libview :=
  let rv := match ss_get configLast CONFIG_LAST_LIB_VIEW_RETAINED with
            | Some v => fst (libViewDecodeRing v (retainedView s) [])
            | None => retainedView s
            end in
  let '(mv, mi) := match ss_get configLast CONFIG_LAST_LIB_VIEW_MIXED with
                   | Some v => libViewDecodeRing v (mixedView s) (mixedViewInitialized s)
                   | None => (mixedView s, mixedViewInitialized s)
                   end in
  LV rv mv mi (libDirty s) (pendingView s) (pendingViewValid s) (pendingViewUsesMixedRing s)
     (gDefaultGameView s) (gAppsDisplay s).

Definition libViewStoreToConfig (s : libview) (configLast : S) : S :=
  let c1 := ss_set configLast CONFIG_LAST_LIB_VIEW_RETAINED (libViewEncodeRing (retainedView s) None) in
  ss_set c1 CONFIG_LAST_LIB_VIEW_MIXED (libViewEncodeRing (mixedView s) (Some (mixedViewInitialized s))).
End Persist.

(** ** The system: any interleaving of the calls and of setting changes *)

Inductive libview_step : libview -> libview -> Prop :=
| step_active s m : libview_step s (snd (libViewActive s m))
| step_stage s m : libview_step s (snd (libViewStageAdvance s m))
| step_commit s m : libview_step s (libViewCommitPending s m)
| step_finish s m : libview_step s (libViewFinishPending s m)
| step_consume s m : libview_step s (snd (libViewConsumeDirty s m))
| step_mark s m : libview_step s (libViewMarkDirty s m)
| step_mark_all s : libview_step s (libViewMarkAllDirty s)
| step_load {S} `{!SettingsStore S} s (c : S) : libview_step s (libViewLoadFromConfig s c)
| step_settings s gv ad :
    libview_step s (LV (retainedView s) (mixedView s) (mixedViewInitialized s) (libDirty s) (pendingView s)
                       (pendingViewValid s) (pendingViewUsesMixedRing s) gv ad).

Definition libview_init (s : libview) : Prop := exists gv ad, s = libview_start gv ad.

(** what the arrays hold: views their mode can show *)
Record libview_ok (s : libview) : Prop := {
  lo_len : length (retainedView s) = MODE_COUNT /\ length (mixedView s) = MODE_COUNT /\
           length (mixedViewInitialized s) = MODE_COUNT /\ length (libDirty s) = MODE_COUNT /\
           length (pendingView s) = MODE_COUNT /\ length (pendingViewValid s) = MODE_COUNT /\
           length (pendingViewUsesMixedRing s) = MODE_COUNT;
  lo_retained m v : retainedView s !! m = Some v -> libViewSupported (Z.of_nat m) v = true;
  lo_mixed m v : mixedView s !! m = Some v -> mixedViewInitialized s !! m = Some true ->
                 libViewSupported (Z.of_nat m) v = true;
  lo_pending m v : pendingView s !! m = Some v -> pendingViewValid s !! m = Some true ->
                   libViewSupported (Z.of_nat m) v = true;
}.

(** the stops of a page under the current settings *)
Definition ring (s : libview) (mode : Z) : list Z :=
  if mode =? FAV_MODE then [LIB_VIEW_ISO; LIB_VIEW_PS1; LIB_VIEW_ELF; LIB_VIEW_ALL]
  else if mode =? APP_MODE then [LIB_VIEW_ISO; LIB_VIEW_PS1_ELF]
  else if gDefaultGameView s =? GAME_VIEW_MIXED then [LIB_VIEW_MIXED; LIB_VIEW_ISO; LIB_VIEW_PS1]
  else [LIB_VIEW_ISO; LIB_VIEW_PS1].

(** one press of L3 and the rebuild that follows it *)
Definition press (s : libview) (mode : Z) : libview :=
  libViewFinishPending (libViewCommitPending (snd (libViewStageAdvance s mode)) mode) mode.
Fixpoint presses (n : nat) (s : libview) (mode : Z) : libview :=
  match n with O => s | S n' => presses n' (press s mode) mode end.

(** ** Lemmas *)

Lemma at_mode_lookup {A} (d : A) l m x : l !! Z.to_nat m = Some x -> at_mode d l m = x.
Proof. intros H. unfold at_mode. erewrite nth_lookup, H. done. Qed.

Lemma at_mode_Some {A} (d : A) l m :
  mode_ok m = true -> length l = MODE_COUNT -> l !! Z.to_nat m = Some (at_mode d l m).
Proof.
  unfold mode_ok, MODE_COUNT. intros Hm Hl. b2p.
  destruct (lookup_lt_is_Some_2 l (Z.to_nat m)) as [x Hx]; [lia|]. by rewrite (at_mode_lookup d l m x).
Qed.

Lemma upd_lookup {A} (l : list A) m x i v :
  upd l m x !! i = Some v -> (i = Z.to_nat m /\ v = x) \/ (i <> Z.to_nat m /\ l !! i = Some v).
Proof. unfold upd. rewrite list_lookup_insert_Some. intros [(-> & -> & _)|[? ?]]; [by left|right; auto]. Qed.

Lemma upd_length {A} (l : list A) m x : length (upd l m x) = length l.
Proof. apply length_insert. Qed.

Lemma at_mode_upd {A} (d : A) l m x :
  mode_ok m = true -> length l = MODE_COUNT -> at_mode d (upd l m x) m = x.
Proof.
  unfold mode_ok, MODE_COUNT. intros Hm Hl. b2p. apply at_mode_lookup. apply list_lookup_insert_eq. lia.
Qed.

(** the four parts of [libview_ok] of an updated record, lengths and unchanged arrays done *)
Ltac libview_parts :=
  constructor; cbn [retainedView mixedView mixedViewInitialized libDirty pendingView pendingViewValid
                    pendingViewUsesMixedRing];
  [split_and!; rewrite ?upd_length; assumption|try assumption..].

Lemma supported_iso m : mode_ok m = true -> libViewSupported m LIB_VIEW_ISO = true.
Proof. intros H. unfold libViewSupported. by rewrite H. Qed.

Lemma device_supports m :
  mode_ok m = true -> libViewIsDeviceMode m = true ->
  libViewSupported m LIB_VIEW_PS1 = true /\ libViewSupported m LIB_VIEW_MIXED = true.
Proof. intros H1 H2. unfold libViewSupported. by rewrite H1, H2. Qed.

Lemma mode_of_nat m : mode_ok m = true -> Z.of_nat (Z.to_nat m) = m.
Proof. unfold mode_ok. intros. b2p. lia. Qed.

Lemma mixed_active_ok s m : libview_ok s -> mode_ok m = true -> libViewIsDeviceMode m = true ->
  libview_ok (snd (libViewMixedActive s m)) /\ libViewSupported m (fst (libViewMixedActive s m)) = true.
Proof.
  intros Hs Hm Hd. pose proof Hs as [(L1 & L2 & L3 & L4 & L5 & L6 & L7) Hr Hmx Hp].
  unfold libViewMixedActive. destruct (at_mode false _ m) eqn:E; cbn [negb fst snd].
  - split; [done|]. rewrite <- (mode_of_nat m Hm). eapply Hmx.
    + rewrite mode_of_nat by done. by apply at_mode_Some.
    + rewrite <- E. by apply at_mode_Some.
  - split.
    + libview_parts.
      intros i v Hv Hi. apply upd_lookup in Hv as [[-> ->]|[Hne Hv]].
        -- rewrite mode_of_nat by done. by apply device_supports.
        -- apply upd_lookup in Hi as [[? _]|[_ Hi]]; [done|]. eauto.
    + cbn [mixedView]. rewrite at_mode_upd by done. by apply device_supports.
Qed.

Lemma active_ok s m : libview_ok s ->
  libview_ok (snd (libViewActive s m)) /\
  (mode_ok m = true -> libViewSupported m (fst (libViewActive s m)) = true).
Proof.
  intros Hs. pose proof Hs as [(L1 & _) Hr _ _]. unfold libViewActive.
  destruct (mode_ok m) eqn:Hm; cbn [negb]; [|done].
  assert (Hret : libViewSupported m (at_mode 0 (retainedView s) m) = true).
  { rewrite <- (mode_of_nat m Hm) at 1. apply Hr. by apply at_mode_Some. }
  pose proof (supported_iso m Hm) as Hiso.
  destruct (m =? FAV_MODE); [done|]. destruct (m =? APP_MODE) eqn:Ha.
  { split; [done|]. intros _. destruct (_ =? APPS_DISPLAY_SPLIT); [done|]. apply Z.eqb_eq in Ha as ->. done. }
  destruct (libViewIsDeviceMode m) eqn:Hd; cbn [negb]; [|done].
  destruct (device_supports m Hm Hd) as [Hps1 _].
  destruct (_ =? GAME_VIEW_ISO); [done|]. destruct (_ =? GAME_VIEW_VCD); [done|].
  destruct (_ =? GAME_VIEW_MIXED).
  - destruct (mixed_active_ok s m Hs Hm Hd). auto.
  - split; [done|]. intros _. by destruct (_ =? LIB_VIEW_PS1).
Qed.

Lemma ring_usable_device s m : libViewRingUsable s m = true ->
  mode_ok m = true /\ (m = FAV_MODE \/ (m = APP_MODE /\ gAppsDisplay s = APPS_DISPLAY_SPLIT) \/
    (m <> FAV_MODE /\ m <> APP_MODE /\ libViewIsDeviceMode m = true /\
     (gDefaultGameView s = GAME_VIEW_BOTH \/ gDefaultGameView s = GAME_VIEW_MIXED))).
Proof.
  unfold libViewRingUsable, libViewRingSize. intros H. b2p. split; [done|]. rewrite H in H0. cbn [negb] in H0.
  destruct (Z.eqb_spec m FAV_MODE); [by left|]. destruct (Z.eqb_spec m APP_MODE).
  - right. left. destruct (Z.eqb_spec (gAppsDisplay s) APPS_DISPLAY_SPLIT); [done|lia].
  - right. right. destruct (libViewIsDeviceMode m); cbn [negb] in H0; [|lia].
    destruct (Z.eqb_spec (gDefaultGameView s) GAME_VIEW_BOTH); [auto|].
    destruct (Z.eqb_spec (gDefaultGameView s) GAME_VIEW_MIXED); [auto|lia].
Qed.

Lemma next_view_supported s m cur :
  libViewRingUsable s m = true -> libViewSupported m (next_view s m cur) = true.
Proof.
  intros H. apply ring_usable_device in H as [Hm H]. pose proof (supported_iso m Hm). unfold next_view.
  destruct H as [->|[[-> _]|(N1 & N2 & Hd & _)]].
  - cbn [Z.eqb]. by repeat case_match.
  - cbn. by case_match.
  - destruct (device_supports m Hm Hd). rewrite !(proj2 (Z.eqb_neq m _)) by done. by repeat case_match.
Qed.

Lemma stage_ok s m : libview_ok s -> libview_ok (snd (libViewStageAdvance s m)).
Proof.
  intros Hs. unfold libViewStageAdvance. destruct (libViewRingUsable s m) eqn:Hu; cbn [negb orb]; [|done].
  destruct (at_mode false _ m); [done|]. pose proof (next_view_supported s m) as Hn.
  destruct (active_ok s m Hs) as [Ha _].
  assert (Hg : gDefaultGameView (snd (libViewActive s m)) = gDefaultGameView s).
  { unfold libViewActive, libViewMixedActive. by repeat case_match. }
  destruct (libViewActive s m) as [cur s1]. cbn [snd] in *.
  assert (Hnx : libViewSupported m (next_view s1 m cur) = true).
  { unfold next_view in *. rewrite Hg. by apply Hn. }
  pose proof Ha as [(L1 & L2 & L3 & L4 & L5 & L6 & L7) Hr Hmx Hp].
  apply ring_usable_device in Hu as [Hm _].
  libview_parts.
  intros i v Hv Hi. apply upd_lookup in Hv as [[-> ->]|[Hne Hv]]; [by rewrite mode_of_nat|].
    apply upd_lookup in Hi as [[? _]|[_ Hi]]; [done|]. eauto.
Qed.

Lemma commit_ok s m : libview_ok s -> libview_ok (libViewCommitPending s m).
Proof.
  intros Hs. unfold libViewCommitPending. destruct (libViewPending s m) eqn:Hpd; cbn [negb]; [|done].
  unfold libViewPending in Hpd. b2p. rename H into Hm, H0 into Hv.
  pose proof Hs as [(L1 & L2 & L3 & L4 & L5 & L6 & L7) Hr Hmx Hp].
  assert (Hsup : libViewSupported m (at_mode 0 (pendingView s) m) = true).
  { rewrite <- (mode_of_nat m Hm) at 1. eapply Hp; [by apply at_mode_Some|]. rewrite <- Hv. by apply at_mode_Some. }
  destruct (at_mode false (pendingViewUsesMixedRing s) m); libview_parts.
  - intros i v Hu Hi. apply upd_lookup in Hu as [[-> ->]|[Hne Hu]]; [by rewrite mode_of_nat|]. eauto.
  - intros i v Hu. apply upd_lookup in Hu as [[-> ->]|[Hne Hu]]; [by rewrite mode_of_nat|]. eauto.
Qed.

Lemma finish_ok s m : libview_ok s -> libview_ok (libViewFinishPending s m).
Proof.
  intros Hs. unfold libViewFinishPending. destruct (mode_ok m); [|done].
  pose proof Hs as [(L1 & L2 & L3 & L4 & L5 & L6 & L7) Hr Hmx Hp].
  libview_parts.
  intros i v Hu Hi. apply upd_lookup in Hi as [[_ ?]|[_ Hi]]; [done|]. eauto.
Qed.

Lemma dirty_ok s d : libview_ok s -> length d = MODE_COUNT -> libview_ok (set_dirty s d).
Proof. intros [(L1 & L2 & L3 & L4 & L5 & L6 & L7) Hr Hmx Hp] Hd. libview_parts. Qed.

(** decoding only ever puts supported views into the array, and flags them *)
Lemma decode_ring_spec inp : forall k view set,
  let '(view', set') := decode_ring inp k view set in
  length view' = length view /\ length set' = length set /\
  (forall m v, view' !! m = Some v -> view !! m = Some v \/ libViewSupported (Z.of_nat m) v = true) /\
  (forall m v, view' !! m = Some v -> set' !! m = Some true ->
     (view !! m = Some v /\ set !! m = Some true) \/ libViewSupported (Z.of_nat m) v = true).
Proof.
  induction inp as [|c inp IH]; intros k view set; cbn [decode_ring]; [split_and!; auto|].
  destruct (Nat.leb MODE_COUNT k); [split_and!; auto|].
  destruct (_ || negb _) eqn:E; [apply IH|].
  apply orb_false_elim in E as [_ Hs]. apply negb_false_iff in Hs.
  specialize (IH (S k) (<[k := c - 48]> view) (<[k := true]> set)).
  destruct (decode_ring inp (S k) _ _) as [view' set']. destruct IH as (I1 & I2 & I3 & I4).
  rewrite !length_insert in *. split_and!; auto.
  - intros m v Hv. destruct (I3 m v Hv) as [Hi|]; [|by right].
    apply list_lookup_insert_Some in Hi as [(<- & <- & _)|[_ ?]]; auto.
  - intros m v Hv Hs'. destruct (I4 m v Hv Hs') as [[Hi Hi']|]; [|by right].
    apply list_lookup_insert_Some in Hi as [(<- & <- & _)|[Hne ?]]; [by right|].
    left. split; [done|]. by rewrite list_lookup_insert_ne in Hi'.
Qed.

Lemma load_ok {S} `{!SettingsStore S} s (c : S) : libview_ok s -> libview_ok (libViewLoadFromConfig s c).
Proof.
  intros [(L1 & L2 & L3 & L4 & L5 & L6 & L7) Hr Hmx Hp]. unfold libViewLoadFromConfig.
  set (rv := match ss_get c CONFIG_LAST_LIB_VIEW_RETAINED with Some _ => _ | None => _ end).
  assert (Hrv : length rv = MODE_COUNT /\ forall m v, rv !! m = Some v -> libViewSupported (Z.of_nat m) v = true).
  { subst rv. destruct (ss_get c _) as [x|]; [|split; [congruence|auto]].
    pose proof (decode_ring_spec x 0 (retainedView s) []) as H. unfold libViewDecodeRing.
    destruct (decode_ring _ _ _ _) as [v' s']. destruct H as (I1 & _ & I3 & _). cbn [fst].
    split; [congruence|]. intros m v Hv. destruct (I3 m v Hv); eauto. }
  destruct Hrv as [Hrl Hrs].
  destruct (ss_get c CONFIG_LAST_LIB_VIEW_MIXED) as [x|].
  - pose proof (decode_ring_spec x 0 (mixedView s) (mixedViewInitialized s)) as H. unfold libViewDecodeRing.
    destruct (decode_ring _ _ _ _) as [v' s']. destruct H as (I1 & I2 & _ & I4).
    constructor; cbn [retainedView mixedView mixedViewInitialized libDirty pendingView pendingViewValid pendingViewUsesMixedRing]; auto.
    + split_and!; congruence.
    + intros m v Hv Hs. destruct (I4 m v Hv Hs) as [[? ?]|]; eauto.
  - libview_parts.
Qed.

Lemma start_ok gv ad : libview_ok (libview_start gv ad).
Proof.
  constructor; cbn [retainedView mixedView mixedViewInitialized libDirty pendingView pendingViewValid pendingViewUsesMixedRing libview_start].
  - by vm_compute.
  - intros m v H. apply lookup_replicate in H as [-> Hm]. apply supported_iso. unfold mode_ok.
    apply andb_true_intro. unfold MODE_COUNT in *. split; [apply Z.leb_le|apply Z.ltb_lt]; lia.
  - intros m v _ H. by apply lookup_replicate in H as [? _].
  - intros m v _ H. by apply lookup_replicate in H as [? _].
Qed.

Lemma libview_step_ok s s' : libview_ok s -> libview_step s s' -> libview_ok s'.
Proof.
  intros Hs Hstep. destruct Hstep.
  - by apply active_ok.
  - by apply stage_ok.
  - by apply commit_ok.
  - by apply finish_ok.
  - unfold libViewConsumeDirty. destruct (_ || _); [done|]. apply dirty_ok; [done|]. rewrite upd_length. apply Hs.
  - unfold libViewMarkDirty. destruct (mode_ok _); [|done]. apply dirty_ok; [done|]. rewrite upd_length. apply Hs.
  - apply dirty_ok; [done|]. apply length_replicate.
  - by apply load_ok.
  - destruct Hs. by constructor.
Qed.

Lemma libview_reachable_ok s : reachable libview_init libview_step s -> libview_ok s.
Proof.
  apply invariant_reachable; [|exact libview_step_ok]. intros s0 (gv & ad & ->). apply start_ok.
Qed.

(** *** Encoding *)

Lemma encode_lookup view set m :
  (m < MODE_COUNT)%nat ->
  libViewEncodeRing view set !! m =
    Some (if match set with None => true | Some f => nth m f false end then 48 + nth m view 0 else LIB_VIEW_STATE_NONE).
Proof.
  intros Hm. unfold libViewEncodeRing. rewrite list_lookup_fmap, lookup_seq_lt by done. done.
Qed.

(** what decoding leaves at a position it reaches *)
Lemma decode_ring_lookup inp : forall k view set m,
  length view = MODE_COUNT -> (k + length inp = MODE_COUNT)%nat -> (m < MODE_COUNT)%nat ->
  let '(view', set') := decode_ring inp k view set in
  let hit := match inp !! (m - k)%nat with
             | Some c => Nat.leb k m && negb (c - 48 <? 0) && negb (LIB_VIEW_COUNT <=? c - 48)
                         && libViewSupported (Z.of_nat m) (c - 48)
             | None => false
             end in
  view' !! m = (if hit then (fun c => c - 48) <$> inp !! (m - k)%nat else view !! m) /\
  ((m < length set)%nat -> set' !! m = if hit then Some true else set !! m).
Proof.
  induction inp as [|c inp IH]; intros k view set m Hl Hk Hm; cbn [decode_ring]; [done|].
  cbn [length] in Hk. destruct (Nat.leb_spec MODE_COUNT k); [lia|].
  destruct (Nat.leb_spec k m) as [Hkm|Hkm].
  - destruct (decide (m = k)) as [->|Hne].
    + rewrite Nat.sub_diag. cbn [lookup list_lookup andb fmap option_fmap option_map].
      assert (Hlater : forall view set, length view = MODE_COUNT ->
        let '(view', set') := decode_ring inp (S k) view set in
        view' !! k = view !! k /\ ((k < length set)%nat -> set' !! k = set !! k)).
      { intros view0 set0 Hl0. specialize (IH (S k) view0 set0 k Hl0 ltac:(lia) Hm).
        replace (k - S k)%nat with O in IH by lia. cbn zeta in IH.
        destruct (decode_ring inp (S k) view0 set0) as [v' s'].
        destruct (Nat.leb_spec (S k) k); [lia|]. by destruct (inp !! 0%nat). }
      destruct (c - 48 <? 0) eqn:E1; destruct (LIB_VIEW_COUNT <=? c - 48) eqn:E2;
        destruct (libViewSupported (Z.of_nat k) (c - 48)) eqn:E3; cbn [orb negb andb];
        try apply (Hlater view set Hl).
      specialize (Hlater (<[k:=c - 48]> view) (<[k:=true]> set)). rewrite length_insert in Hlater. specialize (Hlater Hl).
      destruct (decode_ring inp (S k) _ _) as [v' s']. rewrite length_insert in Hlater. destruct Hlater as [H1 H2].
      rewrite H1, list_lookup_insert_eq by lia. split; [done|]. intros Hs. by rewrite H2, list_lookup_insert_eq.
    + replace (m - k)%nat with (S (m - S k)) by lia. cbn [lookup list_lookup].
      assert (G : forall view0 set0, length view0 = MODE_COUNT -> view0 !! m = view !! m -> set0 !! m = set !! m ->
        length set0 = length set -> _) by
        (intros view0 set0 Hl0 Hv Hs Hls; pose proof (IH (S k) view0 set0 m Hl0 ltac:(lia) Hm) as X;
         rewrite Hv, Hs, Hls in X; exact X).
      cbn zeta in G. replace (Nat.leb (S k) m) with true in G by (symmetry; apply Nat.leb_le; lia).
      replace (Nat.leb k m) with true by (symmetry; apply Nat.leb_le; lia).
      destruct (_ || negb _); apply G; rewrite ?length_insert; try done; by apply list_lookup_insert_ne.
  - replace (m - k)%nat with O by lia. cbn [lookup list_lookup andb].
    assert (G : forall view0 set0, length view0 = MODE_COUNT -> view0 !! m = view !! m -> set0 !! m = set !! m ->
      length set0 = length set ->
      let '(view', set') := decode_ring inp (S k) view0 set0 in
      view' !! m = view !! m /\ ((m < length set)%nat -> set' !! m = set !! m)).
    { intros view0 set0 Hl0 Hv Hs Hls. pose proof (IH (S k) view0 set0 m Hl0 ltac:(lia) Hm) as X.
      rewrite Hv, Hs, Hls in X. destruct (Nat.leb_spec (S k) m); [lia|].
      destruct (decode_ring inp (S k) view0 set0). by destruct (inp !! (m - S k)%nat). }
    destruct (_ || negb _); apply G; rewrite ?length_insert; try done; apply list_lookup_insert_ne; lia.
Qed.

(** *** One press *)

Lemma active_settings s m :
  gDefaultGameView (snd (libViewActive s m)) = gDefaultGameView s /\
  gAppsDisplay (snd (libViewActive s m)) = gAppsDisplay s /\
  pendingViewValid (snd (libViewActive s m)) = pendingViewValid s /\
  retainedView (snd (libViewActive s m)) = retainedView s.
Proof. unfold libViewActive, libViewMixedActive. by repeat case_match. Qed.

(** the settings that decide which ring a page has *)
Definition same_settings (s s' : libview) : Prop :=
  gDefaultGameView s' = gDefaultGameView s /\ gAppsDisplay s' = gAppsDisplay s.

Lemma usable_same s s' m : same_settings s s' -> libViewRingUsable s' m = libViewRingUsable s m.
Proof. intros [H1 H2]. unfold libViewRingUsable, libViewRingSize. by rewrite H1, H2. Qed.

Lemma next_view_same s s' m c : same_settings s s' -> next_view s' m c = next_view s m c.
Proof. intros [H1 _]. unfold next_view. by rewrite H1. Qed.

(** reading the active view does not change it *)
Lemma active_idem s m : libview_ok s -> mode_ok m = true ->
  fst (libViewActive (snd (libViewActive s m)) m) = fst (libViewActive s m).
Proof.
  intros Hs Hm. unfold libViewActive. rewrite Hm. cbn [negb].
  destruct (m =? FAV_MODE) eqn:E1; [done|]. destruct (m =? APP_MODE) eqn:E2; [done|].
  destruct (libViewIsDeviceMode m) eqn:E3; cbn [negb]; [|done].
  destruct (gDefaultGameView s =? GAME_VIEW_ISO) eqn:E4; [cbn; by rewrite E4|].
  destruct (gDefaultGameView s =? GAME_VIEW_VCD) eqn:E5; [cbn; by rewrite E4, E5|].
  destruct (gDefaultGameView s =? GAME_VIEW_MIXED) eqn:E6; [|cbn [snd]; by rewrite E4, E5, E6].
  unfold libViewMixedActive. destruct (at_mode false (mixedViewInitialized s) m) eqn:Ei; cbn [negb snd fst].
  - rewrite E4, E5, E6. by rewrite Ei.
  - cbn [gDefaultGameView]. rewrite E4, E5, E6. cbn [mixedViewInitialized].
    by rewrite at_mode_upd by (done || apply Hs).
Qed.

Lemma active_ext s s' m :
  retainedView s' = retainedView s -> mixedView s' = mixedView s ->
  mixedViewInitialized s' = mixedViewInitialized s -> same_settings s s' ->
  fst (libViewActive s' m) = fst (libViewActive s m).
Proof.
  destruct s, s'. unfold same_settings. cbn. intros -> -> -> [-> ->].
  unfold libViewActive, libViewMixedActive. cbn. by destruct (nth _ _ _), (at_mode false mixedViewInitialized0 m); repeat case_match.
Qed.

(** the state after a successful stage *)
Lemma stage_spec s m : libview_ok s ->
  libViewRingUsable s m = true -> libViewPending s m = false ->
  let s1 := snd (libViewStageAdvance s m) in
  fst (libViewStageAdvance s m) = true /\ same_settings s s1 /\ libViewPending s1 m = true /\
  at_mode 0 (pendingView s1) m = next_view s m (fst (libViewActive s m)) /\
  fst (libViewActive s1 m) = fst (libViewActive s m) /\
  at_mode false (pendingViewUsesMixedRing s1) m =
    (negb (m =? FAV_MODE) && negb (m =? APP_MODE) && (gDefaultGameView s =? GAME_VIEW_MIXED)) /\
  (at_mode false (pendingViewUsesMixedRing s1) m = true -> at_mode false (mixedViewInitialized s1) m = true).
Proof.
  intros Hs Hu Hp. cbv zeta. pose proof (proj1 (ring_usable_device s m Hu)) as Hm.
  destruct (active_settings s m) as (G1 & G2 & G3 & G4). pose proof (proj1 (active_ok s m Hs)) as Hok1.
  unfold libViewPending in Hp. rewrite Hm in Hp. cbn [andb] in Hp.
  unfold libViewStageAdvance. rewrite Hu, Hp. cbn [negb orb].
  assert (Hmx : (negb (m =? FAV_MODE) && negb (m =? APP_MODE) && (gDefaultGameView s =? GAME_VIEW_MIXED)) = true ->
     at_mode false (mixedViewInitialized (snd (libViewActive s m))) m = true).
  { intros E. apply ring_usable_device in Hu as [_ Hu]. b2p. destruct Hu as [?|[[? _]|(_ & _ & Hd & _)]]; [done..|].
    unfold libViewActive. rewrite Hm, Hd, H0. rewrite !(proj2 (Z.eqb_neq m _)) by done. cbn.
    unfold libViewMixedActive. destruct (at_mode false (mixedViewInitialized s) m) eqn:Ei; cbn [negb snd]; [done|].
    cbn [mixedViewInitialized]. apply at_mode_upd; [done|]. apply Hs. }
  assert (Hact : fst (libViewActive (snd (libViewActive s m)) m) = fst (libViewActive s m)).
  { by apply active_idem. }
  destruct (libViewActive s m) as [cur s1]. cbn [fst snd] in *.
  pose proof Hok1 as [(L1 & L2 & L3 & L4 & L5 & L6 & L7) _ _ _].
  unfold same_settings, libViewPending. cbn [gDefaultGameView gAppsDisplay pendingViewValid pendingView pendingViewUsesMixedRing mixedViewInitialized].
  rewrite Hm, !at_mode_upd, G1 by done. split_and!; try done.
  - unfold next_view. by rewrite G1.
  - etransitivity; [|exact Hact]. by apply active_ext.
Qed.

(** a staged view is what the page shows once it is committed *)
Lemma commit_spec s m : libview_ok s ->
  libViewRingUsable s m = true -> libViewPending s m = true ->
  at_mode false (pendingViewUsesMixedRing s) m =
    (negb (m =? FAV_MODE) && negb (m =? APP_MODE) && (gDefaultGameView s =? GAME_VIEW_MIXED)) ->
  (at_mode false (pendingViewUsesMixedRing s) m = true -> at_mode false (mixedViewInitialized s) m = true) ->
  (exists cur, at_mode 0 (pendingView s) m = next_view s m cur) ->
  fst (libViewActive (libViewCommitPending s m) m) = at_mode 0 (pendingView s) m /\
  same_settings s (libViewCommitPending s m).
Proof.
  intros Hs Hu Hp Hr Hi [cur Hc]. pose proof (ring_usable_device s m Hu) as [Hm Hd].
  pose proof Hs as [(L1 & L2 & L3 & L4 & L5 & L6 & L7) _ _ _].
  unfold libViewCommitPending. rewrite Hp. cbn [negb].
  destruct (at_mode false (pendingViewUsesMixedRing s) m) eqn:E; (split; [|done]).
  - symmetry in Hr. b2p. destruct Hd as [?|[[? _]|(_ & _ & Hd & _)]]; [done..|].
    unfold libViewActive. cbn [gDefaultGameView]. rewrite Hm, Hd, H0, !(proj2 (Z.eqb_neq m _)) by done. cbn [negb Z.eqb Pos.eqb].
    unfold libViewMixedActive. cbn [mixedViewInitialized mixedView]. rewrite Hi by done. cbn [negb fst mixedView].
    by rewrite at_mode_upd.
  - unfold libViewActive. cbn [gDefaultGameView gAppsDisplay retainedView]. rewrite Hm. cbn [negb].
    rewrite at_mode_upd by done. destruct Hd as [->|[[-> ->]|(N1 & N2 & Hd & Hg)]]; [done|done|].
    rewrite !(proj2 (Z.eqb_neq m _)) by done. rewrite Hd. cbn [negb].
    rewrite !(proj2 (Z.eqb_neq m _)) in Hr by done. cbn [negb andb] in Hr. symmetry in Hr. b2p.
    destruct Hg as [Hg|?]; [|done]. rewrite Hg. cbn [Z.eqb Pos.eqb].
    rewrite Hc. unfold next_view. rewrite !(proj2 (Z.eqb_neq m _)), Hg by done. cbn [Z.eqb Pos.eqb].
    by destruct (cur =? LIB_VIEW_PS1).
Qed.

Lemma finish_spec s m : libview_ok s -> mode_ok m = true ->
  fst (libViewActive (libViewFinishPending s m) m) = fst (libViewActive s m) /\
  same_settings s (libViewFinishPending s m) /\ libViewPending (libViewFinishPending s m) m = false.
Proof.
  intros Hs Hm. unfold libViewFinishPending. rewrite Hm. split_and!; [|done|].
  - unfold libViewActive, libViewMixedActive. by repeat (case_match; simplify_eq/=).
  - unfold libViewPending. cbn [pendingViewValid]. rewrite at_mode_upd by (done || apply Hs). apply andb_false_r.
Qed.

Lemma press_spec s m : libview_ok s -> libViewRingUsable s m = true -> libViewPending s m = false ->
  fst (libViewActive (press s m) m) = next_view s m (fst (libViewActive s m)) /\
  libview_ok (press s m) /\ same_settings s (press s m) /\ libViewPending (press s m) m = false.
Proof.
  intros Hs Hu Hp. pose proof (proj1 (ring_usable_device s m Hu)) as Hm. unfold press.
  destruct (stage_spec s m Hs Hu Hp) as (_ & Hset & Hp1 & Hv & _ & Hring & Hinit).
  pose proof (stage_ok s m Hs) as Hs1. set (s1 := snd (libViewStageAdvance s m)) in *.
  pose proof Hset as [G1 G2].
  destruct (commit_spec s1 m Hs1) as [Hc Hset2]; auto.
  - by rewrite (usable_same _ _ _ Hset).
  - by rewrite G1.
  - eexists. rewrite Hv. symmetry. by apply next_view_same.
  - pose proof (commit_ok s1 m Hs1) as Hs2. destruct (finish_spec _ m Hs2 Hm) as (Hf & Hset3 & Hp3).
    split_and!; [by rewrite Hf, Hc, Hv|by apply finish_ok| |done].
    destruct Hset2, Hset3. split; congruence.
Qed.

Lemma ring_next s m i cur : libViewRingUsable s m = true -> ring s m !! i = Some cur ->
  libViewRingSize s m = Z.of_nat (length (ring s m)) /\
  ring s m !! (S i mod length (ring s m))%nat = Some (next_view s m cur).
Proof.
  intros Hu. apply ring_usable_device in Hu as [Hm Hd]. unfold ring, next_view, libViewRingSize. rewrite Hm. cbn [negb].
  destruct Hd as [->|[[-> ->]|(N1 & N2 & Hd & Hg)]].
  - do 4 (destruct i as [|i]; [intros [= <-]; done|]). done.
  - do 2 (destruct i as [|i]; [intros [= <-]; done|]). done.
  - rewrite !(proj2 (Z.eqb_neq m _)) by done. rewrite Hd. cbn [negb].
    destruct Hg as [->| ->]; cbn [Z.eqb Pos.eqb].
    + do 2 (destruct i as [|i]; [intros [= <-]; done|]). done.
    + do 3 (destruct i as [|i]; [intros [= <-]; done|]). done.
Qed.

(** ** Properties *)

(** L3 is a ring: on a page whose ring is live and at rest at stop [i], [n]
    presses lead to stop [i + n] modulo the number of stops [libViewRingSize]
    reports, so as many presses as stops lead back. *)
Theorem libview_ring n s m i :
  libview_ok s -> libViewRingUsable s m = true -> libViewPending s m = false ->
  ring s m !! i = Some (fst (libViewActive s m)) ->
  libViewRingSize s m = Z.of_nat (length (ring s m)) /\
  ring s m !! ((i + n) mod length (ring s m))%nat = Some (fst (libViewActive (presses n s m) m)).
Proof.
  revert s i. induction n as [|n IH]; intros s i Hs Hu Hp Hi.
  - destruct (ring_next s m i _ Hu Hi) as [Hl _]. split; [done|].
    rewrite Nat.add_0_r, Nat.mod_small; [done|]. by apply lookup_lt_Some in Hi.
  - destruct (press_spec s m Hs Hu Hp) as (Ha & Hs1 & Hset & Hp1).
    destruct (ring_next s m i _ Hu Hi) as [Hl Hn].
    assert (Er : ring (press s m) m = ring s m) by (destruct Hset as [G1 _]; unfold ring; by rewrite G1).
    destruct (IH (press s m) (S i mod length (ring s m))%nat) as [_ H2]; auto.
    + by rewrite (usable_same _ _ _ Hset).
    + by rewrite Er, Ha.
    + split; [done|]. cbn [presses]. rewrite Er in H2.
      rewrite Nat.Div0.add_mod_idemp_l in H2. by replace (i + S n)%nat with (S i + n)%nat by lia.
Qed.

(** Staging never changes what is on screen: after a press the page still
    shows (and resolves its rows through) the old view and refuses a second press,
    until the rebuild commits; then it shows exactly the announced target. *)
Theorem libview_stage_protocol s m :
  libview_ok s -> libViewRingUsable s m = true -> libViewPending s m = false ->
  let s1 := snd (libViewStageAdvance s m) in
  fst (libViewActive s1 m) = fst (libViewActive s m) /\
  libViewStageAdvance s1 m = (false, s1) /\
  fst (libViewActive (libViewCommitPending s1 m) m) = fst (libViewPendingTarget s1 m).
Proof.
  intros Hs Hu Hp. destruct (stage_spec s m Hs Hu Hp) as (_ & Hset & Hp1 & Hv & Ha & Hring & Hinit).
  cbv zeta. pose proof (stage_ok s m Hs) as Hs1. set (s1 := snd (libViewStageAdvance s m)) in *.
  pose proof Hset as [G1 G2]. split_and!; [done| |].
  - unfold libViewStageAdvance. unfold libViewPending in Hp1. b2p. rewrite H0. by rewrite orb_true_r.
  - unfold libViewPendingTarget. rewrite Hp1. cbn [fst]. apply commit_spec; auto.
    + by rewrite (usable_same _ _ _ Hset).
    + by rewrite G1.
    + eexists. rewrite Hv. symmetry. by apply next_view_same.
Qed.

(** Whatever the calls and setting changes so far, in any order, every page
    shows a view it has a list for. *)
Theorem libview_always_supported s m :
  reachable libview_init libview_step s -> mode_ok m = true ->
  libViewSupported m (fst (libViewActive s m)) = true.
Proof. intros Hr Hm. by apply active_ok; [apply libview_reachable_ok|]. Qed.

Lemma lib_view_keys : key_ok CONFIG_LAST_LIB_VIEW_RETAINED /\ key_ok CONFIG_LAST_LIB_VIEW_MIXED.
Proof. split; by apply (bool_decide_unpack _). Qed.

Lemma encode_length view set : length (libViewEncodeRing view set) = MODE_COUNT.
Proof. unfold libViewEncodeRing. by rewrite length_map, length_seq. Qed.

Lemma supported_bounds m v : libViewSupported m v = true -> 0 <= v < LIB_VIEW_COUNT.
Proof. unfold libViewSupported. destruct (_ || _) eqn:E; [done|]. b2p. lia. Qed.

(** decoding an encoded ring into a fresh one *)
Lemma decode_encode view set m v x :
  length view = MODE_COUNT -> (m < MODE_COUNT)%nat -> view !! m = Some v ->
  (match set with None => True | Some f => length f = MODE_COUNT end) ->
  (match set with None => true | Some f => nth m f false end = true -> libViewSupported (Z.of_nat m) v = true) ->
  x = libViewEncodeRing view set ->
  let '(view', set') := libViewDecodeRing x zeroes falses in
  (match set with None => true | Some f => nth m f false end = true -> view' !! m = Some v) /\
  set' !! m = Some (match set with None => true | Some f => nth m f false end).
Proof.
  intros Hl Hm Hv Hf Hs ->. unfold libViewDecodeRing.
  pose proof (decode_ring_lookup (libViewEncodeRing view set) 0 zeroes falses m) as H.
  destruct (decode_ring _ _ _ _) as [v' s']. rewrite encode_length, Nat.sub_0_r, encode_lookup in H by done.
  erewrite (nth_lookup view), Hv in H. cbn [default from_option id] in H. unfold id in H.
  set (b := match set with None => true | Some f => nth m f false end) in *.
  specialize (H eq_refl eq_refl Hm). cbn zeta in H. destruct H as [H1 H2].
  assert (Hf0 : falses !! m = Some false) by by apply lookup_replicate.
  assert (Hlf : (m < length falses)%nat) by done. specialize (H2 Hlf). destruct b.
  - specialize (Hs eq_refl). pose proof (supported_bounds _ _ Hs) as Hb.
    replace (48 + v - 48) with v in H1, H2 by lia. rewrite Hs in H1, H2.
    rewrite (proj2 (Z.ltb_ge v 0)), (proj2 (Z.leb_gt LIB_VIEW_COUNT v)) in H1, H2 by lia.
    cbn in H1, H2. replace (48 + v - 48) with v in H1 by lia. auto.
  - split; [done|]. rewrite H2. exact Hf0.
Qed.

(** The remembered positions survive a session: storing the state of any
    reachable session in the settings store and loading it at the next start
    restores every page's position and, for the Mixed ring, exactly the visited
    pages and their positions. *)
Theorem libview_remembered {S} `{!SettingsStore S} s (c : S) gv ad :
  reachable libview_init libview_step s -> ss_ok c ->
  let s' := libViewLoadFromConfig (libview_start gv ad) (libViewStoreToConfig s c) in
  retainedView s' = retainedView s /\ mixedViewInitialized s' = mixedViewInitialized s /\
  (forall m, mixedViewInitialized s !! m = Some true -> mixedView s' !! m = mixedView s !! m).
Proof.
  intros Hr Hc. apply libview_reachable_ok in Hr. pose proof Hr as [(L1 & L2 & L3 & _) Hret Hmx _].
  destruct lib_view_keys as [K1 K2]. cbv zeta. unfold libViewLoadFromConfig, libViewStoreToConfig.
  set (e1 := libViewEncodeRing (retainedView s) None). set (e2 := libViewEncodeRing (mixedView s) _).
  pose proof (ss_set_ok c _ e1 Hc K1) as Hc1. pose proof (ss_set_ok _ _ e2 Hc1 K2) as Hc2.
  rewrite !ss_get_map by done. rewrite !ss_set_map by done.
  assert (Hne : CONFIG_LAST_LIB_VIEW_MIXED <> CONFIG_LAST_LIB_VIEW_RETAINED) by (apply (bool_decide_unpack _); by vm_compute).
  rewrite (lookup_insert_eq _ CONFIG_LAST_LIB_VIEW_MIXED), (lookup_insert_ne _ _ _ _ Hne), lookup_insert_eq.
  rewrite !take_ge by (unfold e1, e2; rewrite encode_length; unfold MODE_COUNT; lia).
  cbn [retainedView mixedView mixedViewInitialized libview_start].
  assert (Hone : fst (libViewDecodeRing e1 zeroes []) = retainedView s).
  { apply list_eq. intros m. pose proof (decode_ring_spec e1 0 zeroes []) as Hd.
    pose proof (decode_ring_lookup e1 0 zeroes [] m) as Hlk.
    unfold libViewDecodeRing. destruct (decode_ring e1 0 zeroes []) as [v' s0]. destruct Hd as (Hlen & _). cbn [fst].
    destruct (decide (m < MODE_COUNT)%nat) as [Hm|Hm].
    - specialize (Hlk eq_refl ltac:(unfold e1; rewrite encode_length; done) Hm). cbn zeta in Hlk. destruct Hlk as [Hlk _].
      unfold e1 in Hlk. rewrite Nat.sub_0_r, encode_lookup in Hlk by done.
      destruct (lookup_lt_is_Some_2 (retainedView s) m) as [v Hv]; [by rewrite L1|].
      erewrite (nth_lookup (retainedView s)), Hv in Hlk. cbn [from_option] in Hlk. unfold id in Hlk.
      pose proof (Hret m v Hv) as Hsup. pose proof (supported_bounds _ _ Hsup).
      replace (48 + v - 48) with v in Hlk by lia.
      rewrite Hsup, (proj2 (Z.ltb_ge v 0)), (proj2 (Z.leb_gt LIB_VIEW_COUNT v)) in Hlk by lia.
      cbn in Hlk. replace (48 + v - 48) with v in Hlk by lia. congruence.
    - rewrite !lookup_ge_None_2; [done|lia|rewrite Hlen; change (length zeroes) with MODE_COUNT; lia]. }
  rewrite Hone. pose proof (decode_ring_spec e2 0 zeroes falses) as Hd. fold (libViewDecodeRing e2 zeroes falses) in Hd.
  assert (Htwo : forall m, (m < MODE_COUNT)%nat ->
    let '(mv, mi) := libViewDecodeRing e2 zeroes falses in
    (nth m (mixedViewInitialized s) false = true -> mv !! m = mixedView s !! m) /\
    mi !! m = Some (nth m (mixedViewInitialized s) false)).
  { intros m Hm. destruct (lookup_lt_is_Some_2 (mixedView s) m) as [v Hv]; [by rewrite L2|].
    pose proof (decode_encode (mixedView s) (Some (mixedViewInitialized s)) m v e2 L2 Hm Hv L3) as X.
    cbn beta iota in X. destruct (libViewDecodeRing e2 zeroes falses) as [mv mi]. rewrite Hv. apply X; [|done].
    intros Hn. apply Hmx; [done|].
    destruct (lookup_lt_is_Some_2 (mixedViewInitialized s) m) as [b Hb]; [by rewrite L3|].
    erewrite nth_lookup, Hb in Hn. cbn in Hn. unfold id in Hn. congruence. }
  destruct (libViewDecodeRing e2 zeroes falses) as [mv mi]. destruct Hd as (_ & Hlen & _).
  cbn [retainedView mixedView mixedViewInitialized]. split_and!; [done| |].
  - apply list_eq. intros m. destruct (decide (m < MODE_COUNT)%nat) as [Hm|Hm].
    + destruct (Htwo m Hm) as [_ ->]. destruct (lookup_lt_is_Some_2 (mixedViewInitialized s) m) as [b Hb]; [by rewrite L3|].
      by erewrite nth_lookup, Hb.
    + rewrite !lookup_ge_None_2; [done|lia|rewrite Hlen; change (length falses) with MODE_COUNT; lia].
  - intros m Hb. apply Htwo; [apply lookup_lt_Some in Hb; lia|]. by erewrite nth_lookup, Hb.
Qed.

(** ** Witnesses *)

Definition sample_view : libview := libview_start GAME_VIEW_MIXED APPS_DISPLAY_SPLIT.

Lemma sample_view_reachable : reachable libview_init libview_step (press sample_view 9).
Proof.
  unfold press. eapply reach_step; [|apply step_finish]. eapply reach_step; [|apply step_commit].
  eapply reach_step; [|apply step_stage]. apply reach_init. by exists GAME_VIEW_MIXED, APPS_DISPLAY_SPLIT.
Qed.

Lemma libview_ring_witness :
  Some (fst (libViewActive (presses 7 sample_view 9) 9)) = Some LIB_VIEW_ISO.
Proof.
  symmetry. eapply eq_trans; [|apply (libview_ring 7 sample_view 9 0); [apply start_ok|reflexivity|reflexivity|reflexivity]].
  reflexivity.
Defined.

Lemma libview_stage_protocol_witness :
  libViewStageAdvance (snd (libViewStageAdvance sample_view 12)) 12 = (false, snd (libViewStageAdvance sample_view 12)).
Proof. apply (libview_stage_protocol sample_view 12); [apply start_ok|reflexivity|reflexivity]. Defined.

Lemma libview_always_supported_witness : libViewSupported 9 (fst (libViewActive (press sample_view 9) 9)) = true.
Proof. apply (libview_always_supported (press sample_view 9) 9); [apply sample_view_reachable|reflexivity]. Defined.

Lemma libview_remembered_witness :
  retainedView (libViewLoadFromConfig (libview_start 0 0) (libViewStoreToConfig (press sample_view 9) sample_set)) =
  retainedView (press sample_view 9).
Proof.
  apply (libview_remembered (S := config_set) (press sample_view 9) sample_set 0 0);
    [apply sample_view_reachable|apply sample_set_ok].
Defined.
