(* ===== verification/CheatMan.v ===== *)
(** * CheatMan: the cheat file parser and the cheat list of src/cheatman.c

    A text of cheat names and "ADDRESS VALUE" lines becomes the table [gCheats],
    whose enabled entries are flattened into the fixed array [gCheatList] the EE
    core reads. The table is the list of the entries in use and an entry's codes
    the list of those written: what lies behind them is zero (memset). *)
From S2P Require Import Prelude CLib ConfigStore.

(** ** Data (include/cheatman.h) *)

Definition MAX_CODES : nat := 250.
Definition MAX_CHEATLIST : nat := 510.   (* MAX_HOOKS * 2 + MAX_CODES * 2 *)
Definition CODE_DIGITS : nat := 16.
Definition CHEAT_NAME_MAX : nat := 128.
Definition CHEAT_LINE_MAX : nat := 255.

Record code_t := Code { addr : Z; val : Z }.
Record cheat_entry_t := Cheat { name : bytes; codes : list code_t; enabled : bool }.

Definition zero_code : code_t := Code 0 0.
#[export] Instance code_t_eq_dec : EqDecision code_t.
Proof. solve_decision. Defined.

(** an array whose unwritten tail is zero *)
Definition put_code (l : list code_t) (i : nat) (c : code_t) : list code_t :=
  if Nat.ltb i (length l) then <[i := c]> l else l ++ replicate (i - length l) zero_code ++ [c].

(** ** Lines *)

(** value of the leading hex digits: one "%08X" conversion of at most eight *)
Definition hex_value (s : bytes) : Z := fold_left (fun a c => u32 (a * 16 + fromHex c)) s 0.

Definition make_code (s : bytes) : code_t :=
  let digits := take CODE_DIGITS (base.filter (fun c => isxdigit c = true) s) in
  (* sscanf(digits, "%08X%08X") != 2 when there is no ninth digit *)
  if Nat.leb (length digits) 8 then zero_code
  else Code (hex_value (take 8 digits)) (hex_value (take 8 (drop 8 digits))).

Fixpoint cheat_code_loop (s : bytes) (i : nat) : bool :=
  match s with
  | [] => Nat.eqb i CODE_DIGITS
  | c :: r =>
    if isxdigit c then if Nat.ltb CODE_DIGITS (S i) then false else cheat_code_loop r (S i)
    else if negb (isspace c) then false else cheat_code_loop r i
  end.
Definition is_cheat_code (s : bytes) : bool := cheat_code_loop s 0.

Definition parse_line (line : bytes) : code_t := if is_cheat_code line then make_code line else zero_code.

Definition is_cmt_str (s : bytes) : bool :=
  (Nat.leb 2 (length s) && strneq s (bs "//") 2) || bool_decide (head s = Some cHASH).

(** [chr_idx]: -1 is [None] *)
Definition chr_idx (s : bytes) (c : Z) : option nat := strchr s c.

Fixpoint term_str (s : bytes) : bytes :=
  match s with
  | [] => []
  | c :: r => if is_cmt_str s then [] else c :: term_str r
  end.

Definition is_empty_str (s : bytes) : bool := forallb (fun c => negb (isgraph c)) s.
Definition is_empty_substr (s : bytes) (count : nat) : bool := is_empty_str (take count s).

Definition trim_str (s : bytes) : bytes :=
  if is_empty_str s then s else rdropwhile isspace (dropwhile isspace s).

(** ** The parser *)

(** the locals of [parse_buf] and the table; [cheat_index] is the last entry's *)
Record cheat_parser := CP {
  cp_table : list cheat_entry_t;
  cp_code_index : nat;
  cp_temp_name : bytes;
}.

Definition cheat_index (p : cheat_parser) : Z := Z.of_nat (length (cp_table p)) - 1.

(** [gCheats[cheat_index].codes[code_index] = code] *)
Definition add_code (p : cheat_parser) (c : code_t) : list cheat_entry_t :=
  match last (cp_table p) with
  | Some e => take (length (cp_table p) - 1) (cp_table p) ++ [Cheat (name e) (put_code (codes e) (cp_code_index p) c) (enabled e)]
  | None => cp_table p
  end.

(** the body of the loop for the bytes of one line *)
Definition parse_cheat_line (p : cheat_parser) (raw : bytes) : cheat_parser :=
  let line := trim_str (term_str raw) in
  if negb (is_cheat_code line) && Nat.ltb 0 (length line) then
    CP (cp_table p) 0 (take CHEAT_NAME_MAX line)
  else
    let code := parse_line line in
    if negb ((addr code =? 0) && (val code =? 0)) then
      let p1 :=
        if (cheat_index p + 1 <? Z.of_nat MAX_CODES) && bool_decide (cp_temp_name p <> [])
        then CP (cp_table p ++ [Cheat (take CHEAT_NAME_MAX (cp_temp_name p)) [] true]) (cp_code_index p) []
        else p in
      if (0 <=? cheat_index p1) && Nat.ltb (cp_code_index p1) MAX_CHEATLIST
      then CP (add_code p1 code) (S (cp_code_index p1)) (cp_temp_name p1)
      else p1
    else p.

(** one pass of the scanner: the bytes of the line and what is left *)
Definition scan_line (buf : bytes) : bytes * bytes :=
  let lfIdx := chr_idx buf cLF in
  let len := match lfIdx with Some i => i | None => length buf end in
  let len := if Nat.ltb CHEAT_LINE_MAX len then CHEAT_LINE_MAX else len in
  (take len buf, match lfIdx with None => drop len buf | Some _ => drop (len + 1) buf end).

(** every pass consumes a byte, so the length of the text bounds the passes *)
Fixpoint parse_loop (fuel : nat) (p : cheat_parser) (buf : bytes) : cheat_parser :=
  match fuel, buf with
  | S f, _ :: _ =>
    let '(raw, rest) := scan_line buf in
    parse_loop f (if negb (is_empty_str raw) then parse_cheat_line p raw else p) rest
  | _, _ => p
  end.

Definition parse_buf (buf : bytes) : list cheat_entry_t :=
  cp_table (parse_loop (length buf) (CP [] 0 []) buf).

(** [load_cheats_buf] with the outcome of the table's allocation; the mode decides
    whether the caller shows the selection menu *)
Definition load_cheats_buf (alloc : bool) (gCheatMode : Z) (gCheats : list cheat_entry_t) (buf : option bytes) :
    Z * list cheat_entry_t :=
  match buf with
  | Some b => if alloc then (if gCheatMode =? 0 then 0 else 1, parse_buf b) else (-1, gCheats)
  | None => (-1, gCheats)
  end.

(** ** The list for the EE core *)

(** the inner loop over the codes from [j] on *)
Fixpoint flatten_codes (l : list code_t) (gCheatList : list Z) (cheatCount : nat) : list Z * nat :=
  match l with
  | [] => (gCheatList, cheatCount)
  | c :: r =>
    if negb (addr c =? 0) then
      if Nat.leb (cheatCount + 2) MAX_CHEATLIST
      then flatten_codes r (<[S cheatCount := val c]> (<[cheatCount := addr c]> gCheatList)) (cheatCount + 2)
      else (gCheatList, cheatCount)
    else (gCheatList, cheatCount)
  end.

Fixpoint flatten_cheats (cheats : list cheat_entry_t) (gCheatList : list Z) (cheatCount : nat) : list Z * nat :=
  match cheats with
  | [] => (gCheatList, cheatCount)
  | e :: r =>
    let '(l, n) := if enabled e then flatten_codes (codes e) gCheatList cheatCount else (gCheatList, cheatCount) in
    flatten_cheats r l n
  end.

Definition set_cheats_list (gCheats : option (list cheat_entry_t)) : list Z :=
  let zero := replicate MAX_CHEATLIST 0 in
  match gCheats with
  | None => zero
  | Some cheats =>
    let '(l, cheatCount) := flatten_cheats cheats zero 0 in
    if Nat.ltb cheatCount MAX_CHEATLIST
    then <[S cheatCount := 0]> (<[cheatCount := 0]> l)
    else <[(cheatCount - 1)%nat := 0]> (<[(cheatCount - 2)%nat := 0]> l)
  end.

(** ** Per-game settings *)

Record cheat_cfg := CheatCfg { gCheatSource : Z; gEnableCheat : Z; gCheatMode : Z; gEnableImage : Z }.

Abbreviation CONFIG_ITEM_CHEATSSOURCE := (bs "$CheatsSource").
Abbreviation CONFIG_ITEM_ENABLECHEAT := (bs "$EnableCheat").
Abbreviation CONFIG_ITEM_CHEATMODE := (bs "$CheatMode").
Abbreviation CONFIG_ITEM_ENABLEIMAGE := (bs "$EnableImage").

(** the settings of the set [cs] on top of [gCheatSource = src] *)
Definition read_cheat_cfg (src : Z) (cs : config_set) : cheat_cfg :=
  let en := default 0 (configGetInt cs CONFIG_ITEM_ENABLECHEAT) in
  let mode := if en =? 0 then 0 else default 0 (configGetInt cs CONFIG_ITEM_CHEATMODE) in
  CheatCfg src en mode (default 0 (configGetInt cs CONFIG_ITEM_ENABLEIMAGE)).

(** the globals, and the table: it is freed when cheats are off *)
Definition InitCheatsConfig (configSet configGame : config_set) (gCheats : option (list cheat_entry_t)) :
    cheat_cfg * option (list cheat_entry_t) :=
  let cfg := match configGetInt configSet CONFIG_ITEM_CHEATSSOURCE with
             | Some src => read_cheat_cfg src configSet
             | None => read_cheat_cfg 0 configGame
             end in
  (cfg, if gEnableCheat cfg =? 0 then None else gCheats).

(** ** What the parser and the list promise *)

Definition entry_ok (e : cheat_entry_t) : Prop :=
  (length (name e) <= CHEAT_NAME_MAX)%nat /\ (length (codes e) <= MAX_CHEATLIST)%nat.
Definition table_ok (t : list cheat_entry_t) : Prop := (length t <= MAX_CODES)%nat /\ Forall entry_ok t.

(** the codes the EE core is meant to see: those of the enabled cheats, each up to
    its first zero address *)
Fixpoint until_zero (l : list code_t) : list code_t :=
  match l with c :: r => if addr c =? 0 then [] else c :: until_zero r | [] => [] end.
Definition active_codes (cheats : list cheat_entry_t) : list code_t :=
  concat (map (fun e => if enabled e then until_zero (codes e) else []) cheats).
Definition words (l : list code_t) : list Z := concat (map (fun c => [addr c; val c]) l).

(** "%08X" of a word *)
Definition fmt_08X (w : Z) : bytes :=
  fmt_02X (w / 2 ^ 24) ++ fmt_02X (w / 2 ^ 16 mod 256) ++ fmt_02X (w / 2 ^ 8 mod 256) ++ fmt_02X (w mod 256).
Definition code_text (c : code_t) : bytes := fmt_08X (addr c) ++ [cSP] ++ fmt_08X (val c).
Definition cheat_lines (e : cheat_entry_t) : list bytes := name e :: map code_text (codes e).
Definition lines_text (ls : list bytes) : bytes := concat (map (fun l => l ++ [cLF]) ls).

(** what a text says: its lines without the blank ones and the comments, each without
    the comment at its end and the white space around it *)
Definition skipped (l : bytes) : bool := is_empty_str l || is_cmt_str l.
Definition meaning (ls : list bytes) : list bytes :=
  map (fun l => trim_str (term_str l)) (base.filter (fun l => skipped l = false) ls).

Definition word_ok (w : Z) : Prop := 0 <= w < 2 ^ 32.
Definition code_ok (c : code_t) : Prop := word_ok (addr c) /\ word_ok (val c) /\ c <> zero_code.
(** a name that is a line of its own: printable somewhere, trimmed, no comment in it *)
Definition name_line_ok (n : bytes) : Prop :=
  cstring n /\ (length n <= CHEAT_NAME_MAX)%nat /\ (cLF ∉ n) /\ term_str n = n /\ trim_str n = n /\
  is_empty_str n = false /\ is_cheat_code n = false.
Definition cheat_ok (e : cheat_entry_t) : Prop :=
  name_line_ok (name e) /\ codes e <> [] /\ (length (codes e) <= MAX_CHEATLIST)%nat /\
  Forall code_ok (codes e) /\ enabled e = true.

(** ** Lemmas: the list for the EE core *)

Definition padded (w : list Z) : list Z := w ++ replicate (MAX_CHEATLIST - length w) 0.

Lemma words_length l : length (words l) = (2 * length l)%nat.
Proof. unfold words. induction l as [|c l IH]; [done|]. cbn. rewrite IH. lia. Qed.

Lemma words_app a b : words (a ++ b) = words a ++ words b.
Proof. unfold words. by rewrite map_app, concat_app. Qed.

Lemma put_padded w a b :
  (length w + 2 <= MAX_CHEATLIST)%nat ->
  <[S (length w) := b]> (<[length w := a]> (padded w)) = padded (w ++ [a; b]).
Proof.
  intros H. unfold padded. rewrite length_app. cbn [length].
  replace (MAX_CHEATLIST - length w)%nat with (S (S (MAX_CHEATLIST - (length w + 2)))) by lia.
  cbn [replicate]. rewrite insert_app_r_alt, Nat.sub_diag by lia. cbn [insert list_insert].
  rewrite insert_app_r_alt by lia. replace (S (length w) - length w)%nat with 1%nat by lia.
  cbn [insert list_insert]. by rewrite <- app_assoc.
Qed.

Lemma flatten_codes_spec l : forall k,
  (length k <= 255)%nat ->
  let k' := take 255 (k ++ until_zero l) in
  flatten_codes l (padded (words k)) (2 * length k) = (padded (words k'), (2 * length k')%nat).
Proof.
  induction l as [|c l IH]; intros k Hk; cbv zeta; cbn [flatten_codes until_zero].
  - rewrite app_nil_r, take_ge by lia. done.
  - destruct (addr c =? 0) eqn:E; cbn [negb].
    + rewrite app_nil_r, take_ge by lia. done.
    + unfold MAX_CHEATLIST at 1. destruct (Nat.leb_spec (2 * length k + 2) 510) as [H|H].
      * rewrite <- words_length at 1 2. rewrite put_padded by (rewrite words_length; unfold MAX_CHEATLIST; lia).
        specialize (IH (k ++ [c])). rewrite length_app in IH. cbn [length] in IH.
        specialize (IH ltac:(lia)). cbv zeta in IH. rewrite <- app_assoc in IH. cbn [app] in IH.
        replace (2 * (length k + 1))%nat with (2 * length k + 2)%nat in IH by lia.
        rewrite words_app in IH. exact IH.
      * assert (length k = 255)%nat by lia. rewrite take_app_length' by lia. done.
Qed.

Lemma take_take_app {A} n (a b : list A) : take n (take n a ++ b) = take n (a ++ b).
Proof. rewrite !take_app, take_take, Nat.min_id, length_take. f_equal. f_equal. lia. Qed.

Lemma flatten_cheats_spec cheats : forall k,
  (length k <= 255)%nat ->
  let k' := take 255 (k ++ active_codes cheats) in
  flatten_cheats cheats (padded (words k)) (2 * length k) = (padded (words k'), (2 * length k')%nat).
Proof.
  induction cheats as [|e cheats IH]; intros k Hk; cbv zeta; cbn [flatten_cheats].
  - unfold active_codes. cbn. rewrite app_nil_r, take_ge by lia. done.
  - unfold active_codes. cbn [map concat]. fold (active_codes cheats).
    set (es := if enabled e then until_zero (codes e) else []).
    assert (H : (if enabled e then flatten_codes (codes e) (padded (words k)) (2 * length k)
                 else (padded (words k), (2 * length k)%nat)) =
                (padded (words (take 255 (k ++ es))), (2 * length (take 255 (k ++ es)))%nat)).
    { unfold es. destruct (enabled e); [by apply flatten_codes_spec|].
      rewrite app_nil_r, take_ge by lia. done. }
    rewrite H, IH by (rewrite length_take; lia). by rewrite take_take_app, <- app_assoc.
Qed.

(** ** Lemmas: the parser stays in its arrays *)

Lemma put_code_length l i c : length (put_code l i c) = Nat.max (length l) (S i).
Proof.
  unfold put_code. destruct (Nat.ltb_spec i (length l)).
  - rewrite length_insert. lia.
  - rewrite !length_app, length_replicate. cbn. lia.
Qed.

Lemma parse_cheat_line_ok p raw :
  table_ok (cp_table p) -> table_ok (cp_table (parse_cheat_line p raw)).
Proof.
  intros [Hl Hf]. unfold parse_cheat_line. destruct (negb _ && _); [done|].
  destruct (negb _); [|done].
  set (p1 := if (cheat_index p + 1 <? Z.of_nat MAX_CODES) && _ then _ else p).
  assert (H1 : table_ok (cp_table p1)).
  { unfold p1. destruct (_ && _) eqn:E; [|done]. b2p. unfold cheat_index in *. cbn [cp_table]. split.
    - rewrite length_app. cbn [length]. unfold MAX_CODES in *. lia.
    - apply Forall_app. split; [done|]. constructor; [|constructor]. split; cbn [name codes length]; [|lia].
      rewrite length_take. lia. }
  clearbody p1. destruct H1 as [Hl1 Hf1]. destruct ((0 <=? _) && _) eqn:E; [|done]. b2p. cbn [cp_table].
  unfold add_code. destruct (cp_table p1) as [|e t _] using rev_ind; [done|].
  rewrite last_snoc, length_app. cbn [length]. rewrite Nat.add_sub, take_app_length.
  apply Forall_app in Hf1 as [Ht He]. apply Forall_cons in He as [[Hn Hc] _]. split.
  - rewrite !length_app in *. cbn in *. lia.
  - apply Forall_app. split; [done|]. constructor; [|constructor]. split; cbn [name codes]; [done|].
    rewrite put_code_length. lia.
Qed.

Lemma parse_loop_ok fuel : forall p buf,
  table_ok (cp_table p) -> table_ok (cp_table (parse_loop fuel p buf)).
Proof.
  induction fuel as [|f IH]; intros p buf H; [done|]. destruct buf as [|c buf]; [done|]. cbn [parse_loop].
  destruct (scan_line (c :: buf)) as [raw rest]. apply IH. destruct (negb _); [by apply parse_cheat_line_ok|done].
Qed.

(** ** Lemmas: reading back what is printed *)

Lemma hex_value_byte a b :
  0 <= b < 256 -> 0 <= a -> a * 256 + b < 2 ^ 32 ->
  fold_left (fun a c => u32 (a * 16 + fromHex c)) (fmt_02X b) a = a * 256 + b.
Proof.
  intros Hb Ha H. destruct (hex_pair b Hb) as (E1 & E2 & R1 & R2). unfold fmt_02X. cbn [fold_left].
  rewrite E1, E2. pose proof (Z.div_mod b 16). rewrite (u32_id (a * 16 + _)) by lia. rewrite u32_id by lia. lia.
Qed.

Lemma hex_value_08X w : word_ok w -> hex_value (fmt_08X w) = w.
Proof.
  intros Hw. unfold word_ok in Hw. unfold hex_value, fmt_08X. rewrite !fold_left_app.
  assert (D1 : w / 2 ^ 16 = w / 2 ^ 24 * 256 + w / 2 ^ 16 mod 256).
  { replace (w / 2 ^ 24) with (w / 2 ^ 16 / 256) by (rewrite Z.div_div by lia; done). rewrite Z.mul_comm. apply Z.div_mod. lia. }
  assert (D2 : w / 2 ^ 8 = w / 2 ^ 16 * 256 + w / 2 ^ 8 mod 256).
  { replace (w / 2 ^ 16) with (w / 2 ^ 8 / 256) by (rewrite Z.div_div by lia; done). rewrite Z.mul_comm. apply Z.div_mod. lia. }
  assert (D3 : w = w / 2 ^ 8 * 256 + w mod 256).
  { rewrite Z.mul_comm. apply Z.div_mod. lia. }
  assert (B : 0 <= w / 2 ^ 24 < 256) by (split; [apply Z.div_pos; lia|apply Z.div_lt_upper_bound; lia]).
  pose proof (Z.mod_pos_bound (w / 2 ^ 16) 256 ltac:(lia)). pose proof (Z.mod_pos_bound (w / 2 ^ 8) 256 ltac:(lia)).
  pose proof (Z.mod_pos_bound w 256 ltac:(lia)).
  assert (B1 : 0 <= w / 2 ^ 16 < 2 ^ 16) by (split; [apply Z.div_pos; lia|apply Z.div_lt_upper_bound; lia]).
  assert (B2 : 0 <= w / 2 ^ 8 < 2 ^ 24) by (split; [apply Z.div_pos; lia|apply Z.div_lt_upper_bound; lia]).
  rewrite (hex_value_byte 0 (w / 2 ^ 24)) by lia. replace (0 * 256 + w / 2 ^ 24) with (w / 2 ^ 24) by lia.
  rewrite (hex_value_byte (w / 2 ^ 24)); [rewrite <- D1|lia|lia|rewrite <- D1; lia].
  rewrite (hex_value_byte (w / 2 ^ 16)); [rewrite <- D2|lia|lia|rewrite <- D2; lia].
  rewrite (hex_value_byte (w / 2 ^ 8)); [by rewrite <- D3|lia|lia|rewrite <- D3; lia].
Qed.

Definition hex_chars (s : bytes) : Prop := Forall (fun c => isxdigit c = true) s.

Lemma hex_digit_xdigit d : 0 <= d < 16 -> isxdigit (hex_digit d) = true.
Proof. intros H. unfold isxdigit, hex_digit, isdigit, between. destruct (Z.ltb_spec d 10); lia. Qed.

Lemma fmt_02X_hex b : 0 <= b < 256 -> hex_chars (fmt_02X b).
Proof. intros H. destruct (hex_pair b H) as (_ & _ & R1 & R2). repeat constructor; by apply hex_digit_xdigit. Qed.

Lemma fmt_08X_hex w : word_ok w -> hex_chars (fmt_08X w) /\ length (fmt_08X w) = 8%nat.
Proof.
  intros Hw. split; [|done]. unfold word_ok in Hw. unfold fmt_08X.
  repeat (apply Forall_app; split); apply fmt_02X_hex; try (apply Z.mod_pos_bound; lia).
  split; [apply Z.div_pos; lia|apply Z.div_lt_upper_bound; lia].
Qed.

Lemma cheat_code_loop_hex s r i :
  hex_chars s -> (i + length s <= CODE_DIGITS)%nat -> cheat_code_loop (s ++ r) i = cheat_code_loop r (i + length s).
Proof.
  intros H. revert i. induction H as [|c s Hc Hs IH]; intros i Hi; cbn [app cheat_code_loop length] in *.
  - by rewrite Nat.add_0_r.
  - rewrite Hc. destruct (Nat.ltb_spec CODE_DIGITS (S i)); [lia|]. rewrite IH by lia. f_equal. lia.
Qed.

Lemma filter_hex s : hex_chars s -> base.filter (fun c => isxdigit c = true) s = s.
Proof. induction 1 as [|c s Hc Hs IH]; [done|]. rewrite filter_cons, decide_True by done. by rewrite IH. Qed.

Lemma code_text_code c : code_ok c -> is_cheat_code (code_text c) = true /\ make_code (code_text c) = c.
Proof.
  intros (Ha & Hv & _). destruct (fmt_08X_hex _ Ha) as [H1 L1]. destruct (fmt_08X_hex _ Hv) as [H2 L2].
  unfold is_cheat_code, make_code, code_text. split.
  - rewrite cheat_code_loop_hex by (rewrite ?L1; unfold CODE_DIGITS; auto; lia). rewrite L1.
    cbn [app cheat_code_loop]. change (isxdigit cSP) with false. change (isspace cSP) with true. cbv iota. cbn [negb].
    rewrite <- (app_nil_r (fmt_08X (val c))), cheat_code_loop_hex by (rewrite ?L2; unfold CODE_DIGITS; auto; lia).
    by rewrite L2.
  - rewrite !filter_app, (filter_hex _ H1), (filter_hex _ H2).
    change (base.filter (fun c => isxdigit c = true) [cSP]) with ([] : bytes). cbn [app].
    rewrite take_ge by (rewrite length_app, L1, L2; unfold CODE_DIGITS; lia).
    rewrite length_app, L1, L2. cbn [Nat.leb Nat.add].
    rewrite take_app_length', drop_app_length', take_ge by (rewrite ?L1, ?L2; lia).
    rewrite !hex_value_08X by done. by destruct c.
Qed.

Lemma term_str_id s : (cSLASH ∉ s) -> (cHASH ∉ s) -> term_str s = s.
Proof.
  induction s as [|c s IH]; intros H1 H2; [done|]. cbn [term_str].
  apply not_elem_of_cons in H1 as [N1 H1]. apply not_elem_of_cons in H2 as [N2 H2].
  assert (is_cmt_str (c :: s) = false) as ->.
  { unfold is_cmt_str, strneq. rewrite (bool_decide_eq_false_2 (head (c :: s) = Some cHASH)) by (intros [= ->]; done).
    rewrite (bool_decide_eq_false_2 (take 2 (c :: s) = _)); [by rewrite andb_false_r|]. intros [= -> _]. done. }
  by rewrite IH.
Qed.

Lemma hex_not_special c : isxdigit c = true -> c <> cSLASH /\ c <> cHASH /\ isspace c = false /\ isgraph c = true /\ c <> cLF.
Proof.
  intros H. assert (G : 48 <= c <= 57 \/ 65 <= c <= 70 \/ 97 <= c <= 102).
  { unfold isxdigit, isdigit, between in H. lia. }
  unfold isspace, isgraph, between. split_and!; lia.
Qed.

Lemma code_text_line c : code_ok c ->
  term_str (code_text c) = code_text c /\ trim_str (code_text c) = code_text c /\
  is_empty_str (code_text c) = false /\ (cLF ∉ code_text c) /\ length (code_text c) = 17%nat.
Proof.
  intros (Ha & Hv & _). destruct (fmt_08X_hex _ Ha) as [H1 L1]. destruct (fmt_08X_hex _ Hv) as [H2 L2].
  assert (Hx : forall x, x ∈ code_text c -> x = cSP \/ isxdigit x = true).
  { unfold code_text. intros x. rewrite !elem_of_app. unfold hex_chars in H1, H2. rewrite Forall_forall in H1, H2.
    intros [Hx|[Hx|Hx]]; [right; auto|left|right; auto]. by apply list_elem_of_singleton in Hx. }
  assert (Hno : forall z, z <> cSP -> isxdigit z = false -> z ∉ code_text c).
  { intros z Hz Hz' Hin. destruct (Hx z Hin); congruence. }
  assert (Hemp : is_empty_str (code_text c) = false).
  { unfold is_empty_str, code_text. destruct (fmt_08X (addr c)) as [|x r]; [done|]. apply Forall_cons in H1 as [H1 _].
    cbn. destruct (hex_not_special x H1) as (_ & _ & _ & -> & _). done. }
  split_and!.
  - apply term_str_id; by apply Hno.
  - unfold trim_str. rewrite Hemp. unfold code_text. rewrite dropwhile_id.
    + apply rdropwhile_id. intros x. rewrite !last_app. destruct (last (fmt_08X (val c))) as [y|] eqn:E.
      * intros [= <-]. unfold hex_chars in H2. rewrite Forall_forall in H2.
        apply last_Some_elem_of in E. by apply hex_not_special, H2.
      * destruct (fmt_08X (val c)) as [|? ? _] using rev_ind; [done|]. by rewrite last_snoc in E.
    + destruct (fmt_08X (addr c)) as [|x r]; [done|]. cbn. apply Forall_cons in H1 as [H1 _]. by apply hex_not_special.
  - done.
  - by apply Hno.
  - unfold code_text. rewrite !length_app, L1, L2. done.
Qed.

Definition line_step (p : cheat_parser) (l : bytes) : cheat_parser :=
  if negb (is_empty_str l) then parse_cheat_line p l else p.

Lemma scan_line_lf l rest :
  (cLF ∉ l) -> (length l <= CHEAT_LINE_MAX)%nat -> scan_line (l ++ cLF :: rest) = (l, rest).
Proof.
  intros H Hl. unfold scan_line, chr_idx. rewrite strchr_app by done.
  destruct (Nat.ltb_spec CHEAT_LINE_MAX (length l)); [lia|].
  rewrite take_app_length. f_equal. rewrite drop_app_ge by lia.
  by replace (length l + 1 - length l)%nat with 1%nat by lia.
Qed.

Definition plain_line (l : bytes) : Prop := (cLF ∉ l) /\ (length l <= CHEAT_LINE_MAX)%nat.

Lemma parse_loop_lines ls : forall fuel p,
  Forall plain_line ls -> (length (concat (map (fun l => l ++ [cLF]) ls)) <= fuel)%nat ->
  parse_loop fuel p (concat (map (fun l => l ++ [cLF]) ls)) = fold_left line_step ls p.
Proof.
  induction ls as [|l ls IH]; intros fuel p Hl Hf.
  { by destruct fuel. }
  apply Forall_cons in Hl as [[H1 H2] Hl]. cbn [map concat] in *. rewrite length_app, length_app in Hf. cbn in Hf.
  destruct fuel as [|f]; [lia|]. rewrite <- app_assoc. cbn [app].
  assert (E : parse_loop (S f) p (l ++ cLF :: concat (map (fun l => l ++ [cLF]) ls)) =
    let '(raw, rest) := scan_line (l ++ cLF :: concat (map (fun l => l ++ [cLF]) ls)) in
    parse_loop f (if negb (is_empty_str raw) then parse_cheat_line p raw else p) rest).
  { by destruct l. }
  rewrite E, scan_line_lf by done. cbn [fold_left]. rewrite IH by (done || lia). done.
Qed.

Lemma step_name t k n :
  name_line_ok n -> line_step (CP t k []) n = CP t 0 n.
Proof.
  intros (_ & Hl & _ & Ht & Htr & He & Hc). unfold line_step, parse_cheat_line. rewrite He. cbn [negb].
  rewrite Ht, Htr, Hc. cbn [negb andb cp_table].
  destruct n as [|x n]; [done|]. cbn [length Nat.ltb Nat.leb]. by rewrite take_ge.
Qed.

Lemma parse_code p c : code_ok c ->
  line_step p (code_text c) =
  let p1 := if (cheat_index p + 1 <? Z.of_nat MAX_CODES) && bool_decide (cp_temp_name p <> [])
            then CP (cp_table p ++ [Cheat (take CHEAT_NAME_MAX (cp_temp_name p)) [] true]) (cp_code_index p) []
            else p in
  if (0 <=? cheat_index p1) && Nat.ltb (cp_code_index p1) MAX_CHEATLIST
  then CP (add_code p1 c) (S (cp_code_index p1)) (cp_temp_name p1) else p1.
Proof.
  intros Hc. destruct (code_text_line c Hc) as (Ht & Htr & He & _). destruct (code_text_code c Hc) as [H1 H2].
  unfold line_step, parse_cheat_line. rewrite He, Ht, Htr, H1. unfold parse_line. rewrite H1, H2. cbn [negb andb].
  destruct Hc as (_ & _ & Hnz). replace ((addr c =? 0) && (val c =? 0)) with false; [done|].
  symmetry. apply andb_false_iff. destruct c as [a v]. cbn.
  destruct (Z.eqb_spec a 0) as [->|]; [|by left]. right. apply Z.eqb_neq. by intros ->.
Qed.

Lemma put_code_end l c : put_code l (length l) c = l ++ [c].
Proof. unfold put_code. destruct (Nat.ltb_spec (length l) (length l)); [lia|]. by rewrite Nat.sub_diag. Qed.

Lemma add_code_last t n cs k tmp c :
  k = length cs ->
  add_code (CP (t ++ [Cheat n cs true]) k tmp) c = t ++ [Cheat n (cs ++ [c]) true].
Proof.
  intros ->. unfold add_code. cbn [cp_table cp_code_index]. rewrite last_snoc, length_app. cbn [length].
  by rewrite Nat.add_sub, take_app_length, put_code_end.
Qed.

Lemma cheat_index_snoc t e k tmp : (0 <=? cheat_index (CP (t ++ [e]) k tmp)) = true.
Proof. unfold cheat_index. cbn [cp_table]. rewrite length_app. cbn. apply Z.leb_le. lia. Qed.

Lemma fold_codes t n cs2 : forall cs1,
  Forall code_ok cs2 -> (length cs1 + length cs2 <= MAX_CHEATLIST)%nat ->
  fold_left line_step (map code_text cs2) (CP (t ++ [Cheat n cs1 true]) (length cs1) []) =
  CP (t ++ [Cheat n (cs1 ++ cs2) true]) (length (cs1 ++ cs2)) [].
Proof.
  induction cs2 as [|c cs2 IH]; intros cs1 Hc Hl; [by rewrite app_nil_r|].
  apply Forall_cons in Hc as [Hc1 Hc]. cbn [map fold_left length] in *. rewrite parse_code by done.
  cbn [cp_temp_name]. rewrite (bool_decide_eq_false_2 ([] <> [])) by auto. rewrite andb_false_r. cbn zeta.
  rewrite cheat_index_snoc. cbn [andb cp_code_index cp_temp_name].
  destruct (Nat.ltb_spec (length cs1) MAX_CHEATLIST); [|lia]. rewrite add_code_last by done.
  specialize (IH (cs1 ++ [c]) Hc). rewrite length_app in IH. cbn [length] in IH.
  rewrite Nat.add_1_r in IH. rewrite IH by lia. by rewrite <- app_assoc.
Qed.

Lemma fold_cheat t k e :
  cheat_ok e -> (length t < MAX_CODES)%nat ->
  exists k', fold_left line_step (cheat_lines e) (CP t k []) = CP (t ++ [e]) k' [].
Proof.
  intros (Hn & Hne & Hl & Hc & Hen) Ht. destruct e as [n cs en]. cbn [name codes enabled] in *. subst en.
  destruct cs as [|c cs]; [done|]. apply Forall_cons in Hc as [Hc1 Hc].
  unfold cheat_lines. cbn [name codes map fold_left]. rewrite step_name, parse_code by done.
  unfold cheat_index at 1. cbn [cp_table cp_temp_name cp_code_index].
  assert (n <> []) by (destruct Hn as (_ & _ & _ & _ & _ & He & _); by intros ->).
  rewrite bool_decide_eq_true_2 by done.
  replace (Z.of_nat (length t) - 1 + 1 <? Z.of_nat MAX_CODES) with true by (symmetry; apply Z.ltb_lt; lia).
  cbn [andb]. cbv zeta. rewrite cheat_index_snoc. cbn [andb cp_code_index cp_temp_name].
  change (Nat.ltb 0 MAX_CHEATLIST) with true. cbv iota. rewrite add_code_last by done. cbn [app].
  rewrite take_ge by (destruct Hn as (_ & ? & _); lia).
  pose proof (fold_codes t n cs [c] Hc ltac:(cbn [length] in *; lia)) as F.
  eexists. exact F.
Qed.

Lemma fold_cheats cheats : forall t k,
  Forall cheat_ok cheats -> (length t + length cheats <= MAX_CODES)%nat ->
  exists k', fold_left line_step (concat (map cheat_lines cheats)) (CP t k []) = CP (t ++ cheats) k' [].
Proof.
  induction cheats as [|e cheats IH]; intros t k Hc Hl; [exists k; by rewrite app_nil_r|].
  apply Forall_cons in Hc as [He Hc]. cbn [map concat length] in *. rewrite fold_left_app.
  destruct (fold_cheat t k e He) as [k1 ->]; [lia|].
  destruct (IH (t ++ [e]) k1 Hc) as [k' ->]; [rewrite length_app; cbn; lia|].
  exists k'. by rewrite <- app_assoc.
Qed.

(** a significant line: trimmed, with no comment in it *)
Definition clean_line (l : bytes) : Prop := term_str l = l /\ trim_str l = l /\ is_empty_str l = false.

Lemma cheat_lines_clean e : cheat_ok e -> Forall clean_line (cheat_lines e).
Proof.
  intros ((_ & _ & _ & Ht & Htr & He & _) & _ & _ & Hc & _). constructor; [done|].
  apply Forall_map. eapply Forall_impl; [exact Hc|]. intros c Hcc. by destruct (code_text_line c Hcc) as (? & ? & ? & _).
Qed.

Lemma step_skipped p l : skipped l = true -> line_step p l = p.
Proof.
  unfold skipped, line_step. destruct (is_empty_str l) eqn:E; [done|]. cbn [orb negb]. intros Hc.
  unfold parse_cheat_line. replace (term_str l) with ([] : bytes); [done|]. destruct l; [done|]. cbn [term_str]. by rewrite Hc.
Qed.

(** what stands around a significant line does not matter *)
Lemma step_shows p raw l :
  skipped raw = false -> trim_str (term_str raw) = l -> clean_line l -> line_step p raw = line_step p l.
Proof.
  intros Hs Hl (Ht & Htr & He). apply orb_false_iff in Hs as [Hs _].
  unfold line_step, parse_cheat_line. by rewrite Hs, He, Hl, Ht, Htr.
Qed.

Lemma fold_meaning raws : forall ls p,
  meaning raws = ls -> Forall clean_line ls -> fold_left line_step raws p = fold_left line_step ls p.
Proof.
  induction raws as [|r raws IH]; intros ls p Hm Hc; [by subst ls|]. unfold meaning in *. cbn [fold_left].
  rewrite filter_cons in Hm. case_decide as Hs; cbn [map] in Hm.
  - subst ls. apply Forall_cons in Hc as [Hc1 Hc]. cbn [fold_left]. by rewrite (step_shows p r _ Hs eq_refl Hc1), (IH _ _ eq_refl).
  - rewrite step_skipped by (by destruct (skipped r)). by apply IH.
Qed.

(** ** Properties *)

(** C20. The parser inverts the file format: a text that says at most 250 cheats, each a
    name line followed by its "%08X %08X" code lines, is read as exactly those cheats,
    all enabled. The text may hold blank lines and comment lines anywhere, white space
    around a line and comments behind it; no line is longer than the 255 bytes the
    scanner takes. *)
Theorem cheats_roundtrip cheats raws :
  Forall cheat_ok cheats -> (length cheats <= MAX_CODES)%nat ->
  Forall plain_line raws -> meaning raws = concat (map cheat_lines cheats) ->
  parse_buf (lines_text raws) = cheats.
Proof.
  intros Hc Hl Hp Hm. unfold parse_buf, lines_text. rewrite parse_loop_lines by (done || lia).
  rewrite (fold_meaning raws _ (CP [] 0 []) Hm).
  - destruct (fold_cheats cheats [] 0 Hc Hl) as [k ->]. done.
  - apply Forall_concat, Forall_map. eapply Forall_impl; [exact Hc|]. apply cheat_lines_clean.
Qed.

(** The parser is safe on any input: whatever the text, the table it fills has
    at most 250 entries, with names of at most 128 bytes and at most 510 codes. *)
Theorem parse_buf_bounds buf : table_ok (parse_buf buf).
Proof. apply parse_loop_ok. split; [cbn; lia|constructor]. Qed.

(** The list handed to the EE core is the first 254 codes of the enabled
    cheats, in order, and then zeros to the end of the 510 words: it always fits
    and always ends with a terminator the core stops at. *)
Theorem set_cheats_list_spec cheats :
  set_cheats_list (Some cheats) = padded (words (take 254 (active_codes cheats))) /\
  length (set_cheats_list (Some cheats)) = MAX_CHEATLIST /\
  (forall k, (508 <= k < 510)%nat -> set_cheats_list (Some cheats) !! k = Some 0).
Proof.
  assert (E : set_cheats_list (Some cheats) = padded (words (take 254 (active_codes cheats)))).
  { unfold set_cheats_list. pose proof (flatten_cheats_spec cheats [] ltac:(cbn; lia)) as H.
    change (padded (words [])) with (replicate MAX_CHEATLIST 0) in H.
    change (2 * length (@nil code_t))%nat with O in H. cbn [app] in H. cbv zeta in H |- *. rewrite H.
    set (a := active_codes cheats). rewrite length_take.
    destruct (Nat.ltb_spec (2 * Nat.min 255 (length a)) MAX_CHEATLIST) as [Hlt|Hge]; unfold MAX_CHEATLIST in *.
    - assert (Ha : (length a <= 254)%nat) by lia. rewrite !take_ge by lia.
      replace (Nat.min 255 (length a)) with (length a) by lia.
      rewrite <- words_length. rewrite put_padded by (rewrite words_length; unfold MAX_CHEATLIST; lia).
      unfold padded. rewrite length_app, <- app_assoc. f_equal. cbn [length].
      rewrite words_length. unfold MAX_CHEATLIST.
      replace (510 - 2 * length a)%nat with (S (S (510 - (2 * length a + 2)))) by lia. done.
    - assert (Hlen : length (take 254 a) = 254%nat) by (rewrite length_take; lia).
      destruct (lookup_lt_is_Some_2 a 254) as [c Hc]; [lia|].
      rewrite (take_S_r _ _ _ Hc), words_app.
      replace (2 * Nat.min 255 (length a))%nat with (2 * 255)%nat by lia.
      change (2 * 255 - 1)%nat with (S 508). change (2 * 255 - 2)%nat with 508%nat.
      set (w := words (take 254 a)). assert (Hw : length w = 508%nat) by (unfold w; rewrite words_length; lia).
      unfold padded at 1. rewrite length_app, Hw. change (words [c]) with [addr c; val c]. cbn [length].
      change (replicate (MAX_CHEATLIST - (508 + 2)) 0) with (@nil Z). rewrite app_nil_r.
      rewrite insert_app_r_alt by lia. rewrite Hw, Nat.sub_diag. cbn [insert list_insert].
      rewrite insert_app_r_alt by lia. rewrite Hw. change (S 508 - 508)%nat with 1%nat. cbn [insert list_insert].
      unfold padded. by rewrite Hw. }
  assert (Hwl : (length (words (take 254 (active_codes cheats))) <= 508)%nat) by (rewrite words_length, length_take; lia).
  rewrite E. split; [done|]. split.
  - unfold padded. rewrite length_app, length_replicate. unfold MAX_CHEATLIST. lia.
  - intros k Hk. unfold padded. rewrite lookup_app_r by lia. apply lookup_replicate.
    unfold MAX_CHEATLIST. split; [done|lia].
Qed.

(** A name that no longer fits still costs a cheat its codes: with the table
    full, the name line rewinds the code index and the codes that follow overwrite
    the last entry's, from its first. *)
Theorem full_table_overwrites_last t e k n c :
  length t = (MAX_CODES - 1)%nat -> name_line_ok n -> code_ok c ->
  cp_table (fold_left line_step [n; code_text c] (CP (t ++ [e]) k [])) =
    t ++ [Cheat (name e) (put_code (codes e) 0 c) (enabled e)].
Proof.
  intros Ht Hn Hc. cbn [fold_left]. rewrite step_name, parse_code by done.
  unfold cheat_index at 1. cbn [cp_table cp_temp_name cp_code_index].
  replace (Z.of_nat (length (t ++ [e])) - 1 + 1 <? Z.of_nat MAX_CODES) with false.
  2:{ symmetry. apply Z.ltb_ge. rewrite length_app, Ht. unfold MAX_CODES. cbn. lia. }
  cbn [andb]. cbv zeta. rewrite cheat_index_snoc. cbn [andb cp_code_index cp_temp_name].
  change (Nat.ltb 0 MAX_CHEATLIST) with true. cbv iota. cbn [cp_table]. unfold add_code. cbn [cp_table cp_code_index].
  rewrite last_snoc, length_app. cbn [length]. by rewrite Nat.add_sub, take_app_length.
Qed.

(** A comment behind white space is not skipped: the blanks left of it are
    taken for the name of the next cheat. *)
Theorem indented_comment_becomes_name t k tmp c :
  parse_cheat_line (CP t k tmp) (cSP :: bs "//" ++ c) = CP t 0 [cSP].
Proof. done. Qed.

(** ** Witnesses *)

Definition sample_cheats : list cheat_entry_t := [
  Cheat (bs "Mastercode") [Code 2427456256 0] true;
  Cheat (bs "Infinite health") [Code 538028714 1; Code 537001984 999] true].

Definition sample_lines : list bytes := [
  bs "# made by hand"; [];
  bs "Mastercode // keep"; bs "  90B00B00 00000000"; bs "   ";
  bs "// the useful one"; bs "Infinite health"; bs "2011AAAA 00000001 # on"; []; bs "20020000 000003E7"].

Lemma cheats_roundtrip_witness : parse_buf (lines_text sample_lines) = sample_cheats.
Proof.
  apply (cheats_roundtrip sample_cheats sample_lines); [|vm_compute; lia| |vm_compute; reflexivity].
  - repeat (apply Forall_cons; split); [| |apply Forall_nil_2].
    all: unfold cheat_ok, name_line_ok; cbn [name codes enabled]; split_and!;
      try (apply (bool_decide_unpack _); vm_compute; exact I); try (vm_compute; lia).
  - repeat (apply Forall_cons; split); try apply Forall_nil_2.
    all: split; [apply (bool_decide_unpack _); vm_compute; exact I|vm_compute; lia].
Defined.

Lemma full_table_overwrites_last_witness :
  cp_table (fold_left line_step [bs "one too many"; code_text (Code 538028714 1)]
    (CP (replicate 249 (Cheat (bs "a") [] true) ++ [Cheat (bs "last") [Code 1 2; Code 3 4] true]) 2 [])) =
  replicate 249 (Cheat (bs "a") [] true) ++ [Cheat (bs "last") [Code 538028714 1; Code 3 4] true].
Proof.
  apply (full_table_overwrites_last (replicate 249 (Cheat (bs "a") [] true))
           (Cheat (bs "last") [Code 1 2; Code 3 4] true) 2 (bs "one too many") (Code 538028714 1));
    [done| |].
  - unfold name_line_ok. split_and!; try (apply (bool_decide_unpack _); vm_compute; exact I).
  - unfold code_ok, word_ok. cbn. split_and!; try lia. done.
Defined.
