(* ===== verification/History.v ===== *)
(** * History: the play history of the console (src/OSDHistory.c)

    The table of 21 records the console's own menu keeps on a memory card: how a launch is
    counted, which record a new game takes, and the files around it. [rand] is a sequence of
    numbers; the loop that draws until it meets a free bit takes fuel. *)
From S2P Require Import Prelude CLib.

Definition MAX_HISTORY_ENTRIES : nat := 21.
Definition NAME_SIZE : nat := 16.

(** a [struct HistoryEntry]; the name is the raw array *)
Record HistoryEntry := HEntry {
  name : bytes;
  LaunchCount : Z;
  bitmask : Z;
  ShiftAmount : Z;
  padding : Z;
  DateStamp : Z;
}.
Definition blank : HistoryEntry := HEntry (replicate NAME_SIZE 0) 0 0 0 0 0.

#[export] Instance HistoryEntry_eq_dec : EqDecision HistoryEntry.
Proof. solve_decision. Defined.

Definition OSD_HISTORY_SET_DATE (year month date : Z) : Z :=
  u16 (Z.lor (Z.shiftl year 9) (Z.lor (Z.shiftl (Z.land month 15) 5) (Z.land date 31))).

(** ** A launch *)

Section Launch.
Context (rnd : nat -> Z).

(** [while ((bitmask >> (value = rand() % 6)) & 1)] from the [n]-th number on *)
Fixpoint pick_shift (fuel n : nat) (mask : Z) : option (Z * nat) :=
  match fuel with
  | O => None
  | S fuel => let value := rnd n mod 6 in if Z.testbit mask value then pick_shift fuel (S n) mask else Some (value, S n)
  end.

(** the record of the game itself *)
Definition count_launch (fuel n : nat) (now : Z) (e : HistoryEntry) : option (HistoryEntry * nat) :=
  if negb (Z.land (bitmask e) 0x3F =? 0x3F) then
    let NewLaunchCount := LaunchCount e + 1 in
    let NewLaunchCount := if 0x80 <=? NewLaunchCount then 0x7F else NewLaunchCount in
    if (14 <=? NewLaunchCount) && ((NewLaunchCount - 14) mod 10 =? 0) then
      '(value, n) ← pick_shift fuel n (bitmask e);
      Some (HEntry (name e) NewLaunchCount (u8 (Z.lor (bitmask e) (Z.shiftl 1 value))) value (padding e) now, n)
    else Some (HEntry (name e) NewLaunchCount (bitmask e) (ShiftAmount e) (padding e) now, n)
  else if LaunchCount e <? 0x3F then Some (HEntry (name e) (LaunchCount e + 1) (bitmask e) (ShiftAmount e) (padding e) now, n)
  else Some (HEntry (name e) (Z.land (bitmask e) 0x3F) (bitmask e) 7 (padding e) now, n).

(** the least used record so far, its count and a date *)
Record least := Least { l_rec : nat; l_count : Z; l_stamp : Z }.
Definition INT_MAX : Z := 2 ^ 31 - 1.

Definition least_step (i : nat) (e : HistoryEntry) (l : least) : least :=
  let l := if LaunchCount e <? l_count l then Least i (LaunchCount e) (l_stamp l) else l in
  if (l_count l =? LaunchCount e) && (DateStamp e <? l_stamp l) then Least i (l_count l) (DateStamp e) else l.

Definition same_name (e : HistoryEntry) (nm : bytes) : bool := strneq (cstr (name e)) nm NAME_SIZE.

(** the loop over the records; whether the name is new *)
Fixpoint scan_records (fuel : nat) (now : Z) (nm : bytes) (es : list HistoryEntry) (i n : nat) (l : least) (IsNewRecord : bool) :
  option (list HistoryEntry * nat * least * bool) :=
  match es with
  | [] => Some ([], n, l, IsNewRecord)
  | e :: es =>
    let l := least_step i e l in
    match (if same_name e nm then (fun x => (x.1, x.2, false)) <$> count_launch fuel n now e else Some (e, n, IsNewRecord)) with
    | Some (e, n, new) =>
      match scan_records fuel now nm es (S i) n l new with
      | Some (es, n, l, new) => Some (e :: es, n, l, new)
      | None => None
      end
    | None => None
    end
  end.

Definition is_blank (e : HistoryEntry) : bool := match name e with c :: _ => c =? 0 | [] => true end.
Fixpoint blank_slots (i : nat) (es : list HistoryEntry) : list nat :=
  match es with [] => [] | e :: es => if is_blank e then i :: blank_slots (S i) es else blank_slots (S i) es end.
Definition slots_used (es : list HistoryEntry) : nat := length (base.filter (fun e => is_blank e = false /\ ShiftAmount e = 7) es).

(** [strncpy(name, nm, 15)] and the fields; the last byte of the array stays *)
Definition new_record (nm : bytes) (now : Z) (e : HistoryEntry) : HistoryEntry :=
  let k := (NAME_SIZE - 1)%nat in
  HEntry (take k nm ++ replicate (k - length nm) 0 ++ drop k (name e)) 1 1 0 (padding e) now.

(** the update of the table: the new table, and the record that made room *)
Definition update_history (fuel n : nat) (now : Z) (nm : bytes) (es : list HistoryEntry) : option (list HistoryEntry * option HistoryEntry) :=
  '(es, n, l, new) ← scan_records fuel now nm es 0 n (Least 0 INT_MAX INT_MAX) true;
  if (new : bool) then
    if Nat.eqb (slots_used es) MAX_HISTORY_ENTRIES then Some (es, None)
    else
      let BlankSlotList := blank_slots 0 es in
      if Nat.ltb 0 (length BlankSlotList) then
        slot ← BlankSlotList !! Z.to_nat (rnd n mod Z.of_nat (length BlankSlotList));
        Some (alter (new_record nm now) slot es, None)
      else
        OldHistoryEntry ← es !! l_rec l;
        Some (alter (new_record nm now) (l_rec l) es, Some OldHistoryEntry)
  else Some (es, None).
End Launch.

(** ** The files *)

Definition entry_bytes (e : HistoryEntry) : bytes :=
  name e ++ [LaunchCount e; bitmask e; ShiftAmount e; padding e] ++ le_bytes 2 (DateStamp e).
Definition entry_of_bytes (b : bytes) : HistoryEntry :=
  HEntry (take 16 b) (nth 16 b 0) (nth 17 b 0) (nth 18 b 0) (nth 19 b 0) (le_val (take 2 (drop 20 b))).
Definition ENTRY_SIZE : nat := 22.

Fixpoint entries_of (n : nat) (b : bytes) : list HistoryEntry :=
  match n with O => [] | S n => entry_of_bytes (take ENTRY_SIZE b) :: entries_of n (drop ENTRY_SIZE b) end.
Definition HISTORY_SIZE : nat := (MAX_HISTORY_ENTRIES * ENTRY_SIZE)%nat.
Definition EIO : Z := 5.

(** a memory card: [open] for reading gives the file or its error; the two kinds of write
    give 0, the error of [open] or -EIO; [mcGetInfo] gives the type and the format *)
Class HistoryCard (W : Type) := {
  h_read : W -> bytes -> Z + bytes;
  h_write : W -> bytes -> bytes -> Z * W;
  h_append : W -> bytes -> bytes -> Z * W;
  h_mkdir : W -> bytes -> W;
  mcGetInfo : W -> Z -> Z * Z;
}.
Definition sceMcTypePS2 : Z := 2.
Definition MC_FORMATTED : Z := 1.

Section Files.
Context {W : Type} `{!HistoryCard W}.
(** the icons of the data folder, [GetSystemDataPath], [GetSystemFolderLetter] *)
Context (icon_sys : Z -> bytes) (GetSystemDataPath : bytes) (GetSystemFolderLetter : Z).

Definition CreateSystemDataFolder (w : W) (path : bytes) (FolderRegionLetter : Z) : Z * W :=
  let fullpath := path ++ bs "/icon.sys" in
  match h_read w fullpath with
  | inr _ => (0, w)
  | inl _ => h_write (h_mkdir w path) fullpath (icon_sys FolderRegionLetter)
  end.

Definition LoadHistoryFile (w : W) (path : bytes) : Z + list HistoryEntry :=
  match h_read w (path ++ bs "/history") with
  | inl e => inl e
  | inr b => if Nat.leb HISTORY_SIZE (length b) then inr (entries_of MAX_HISTORY_ENTRIES b) else inl (- EIO)
  end.

Definition SaveHistoryFile (w : W) (path : bytes) (es : list HistoryEntry) : Z * W := h_write w (path ++ bs "/history") (concat (map entry_bytes es)).
Definition AddOldHistoryFileRecord (w : W) (path : bytes) (e : HistoryEntry) : Z * W := h_append w (path ++ bs "/history.old") (entry_bytes e).

(** the first of the two ports with a formatted card *)
Definition find_card (w : W) : option Z :=
  let ok i := bool_decide (mcGetInfo w i = (sceMcTypePS2, MC_FORMATTED)) in if ok 0 then Some 0 else if ok 1 then Some 1 else None.

(** the table, made when there is none: the code to return, or the table *)
Definition open_history (w : W) (path : bytes) : (Z + list HistoryEntry) * W :=
  match LoadHistoryFile w path with
  | inr es => (inr es, w)
  | inl _ =>
    if GetSystemFolderLetter =? 82 then (inl (-2), w)
    else let '(result, w) := CreateSystemDataFolder w path GetSystemFolderLetter in
         if result =? 0 then (inr (replicate MAX_HISTORY_ENTRIES blank), w) else (inl result, w)
  end.

(** [None] while the drawing loop has not ended *)
Definition AddHistoryRecord (rnd : nat -> Z) (fuel : nat) (now : Z) (w : W) (nm : bytes) : option (Z * W) :=
  match find_card w with
  | None => Some (-1, w)
  | Some i =>
    let path := bs "mc" ++ fmt_d i ++ bs ":/" ++ GetSystemDataPath in
    match open_history w path with
    | (inl e, w) => Some (e, w)
    | (inr es, w) =>
      '(es, old) ← update_history rnd fuel 0 now nm es;
      let w := match old with Some e => snd (AddOldHistoryFileRecord w path e) | None => w end in
      Some (SaveHistoryFile w path es)
    end
  end.
End Files.

(** *** The name of the executable in a boot path *)

(** the loop from the end of the path: the position of the last separator behind the first
    character *)
Definition is_sep (c : Z) : bool := (c =? cBSLASH) || (c =? cCOLON) || (c =? cSLASH).
Fixpoint last_sep (bootpath : bytes) (i : nat) : option nat :=
  match i with
  | O => None
  | S j => match bootpath !! i with Some c => if is_sep c then Some i else last_sep bootpath j | None => last_sep bootpath j end
  end.

Definition strip_version (s : bytes) : bytes :=
  match rev s with a :: b :: _ => if (2 <? strlen s) && (a =? 49) && (b =? cSEMI) then take (length s - 2) s else s | _ => s end.

Definition GetBootFilename (bootpath : bytes) : bytes :=
  match last_sep bootpath (length bootpath) with
  | Some i => drop (S i) (strip_version bootpath)
  | None => bootpath
  end.

Definition AddHistoryRecordUsingFullPath {W} `{!HistoryCard W} icon_sys sysdata letter rnd fuel now (w : W) (path : bytes) : option (Z * W) :=
  AddHistoryRecord icon_sys sysdata letter rnd fuel now w (GetBootFilename path).

(** ** Lemmas *)

(** *** The table *)

Definition entry_wf (e : HistoryEntry) : Prop :=
  length (name e) = NAME_SIZE /\ Forall (fun c => 0 <= c < 256) (name e) /\ drop 15 (name e) = [0] /\ 0 <= LaunchCount e < 256 /\ 0 <= bitmask e < 256 /\
  0 <= ShiftAmount e < 256 /\ 0 <= padding e < 256 /\ 0 <= DateStamp e < 65536.
(** 21 records, no game twice *)
Record table_wf (es : list HistoryEntry) : Prop := {
  tw_length : length es = MAX_HISTORY_ENTRIES;
  tw_entries : Forall entry_wf es;
  tw_names i j e f : es !! i = Some e -> es !! j = Some f -> cstr (name e) = cstr (name f) -> cstr (name e) <> [] -> i = j;
}.

(** every value comes again *)
Definition fair (rnd : nat -> Z) : Prop := forall n v, 0 <= v < 6 -> exists m, (n <= m)%nat /\ rnd m mod 6 = v.

(** a name the table can hold *)
Definition name_ok (nm : bytes) : Prop := nm <> [] /\ (length nm < NAME_SIZE)%nat /\ cstring nm.

Lemma cstr_length b : (length (cstr b) <= length b)%nat.
Proof. induction b as [|c b IH]; cbn; [done|]. destruct (c =? 0); cbn; lia. Qed.

Lemma same_name_spec e nm : entry_wf e -> name_ok nm -> same_name e nm = true <-> cstr (name e) = nm.
Proof.
  intros (Hl & _) (_ & Hn & _). unfold same_name, strneq. rewrite bool_decide_eq_true. pose proof (cstr_length (name e)). rewrite !take_ge by lia. done.
Qed.

Lemma is_blank_spec e : entry_wf e -> is_blank e = true <-> cstr (name e) = [].
Proof. intros (Hl & _). unfold is_blank. destruct (name e) as [|c b]; [done|]. cbn. by destruct (c =? 0). Qed.

(** *** A launch of a known game *)

Section Launch.
Context (rnd : nat -> Z) (Hfair : fair rnd).

Lemma pick_shift_found m : forall n mask, (n <= m)%nat -> Z.testbit mask (rnd m mod 6) = false ->
  exists v n', pick_shift rnd (S (m - n)) n mask = Some (v, n') /\ 0 <= v < 6 /\ Z.testbit mask v = false.
Proof.
  intros n mask Hle Hm. remember (m - n)%nat as d eqn:Ed. revert n Hle Ed. induction d as [|d IH]; intros n Hle Ed; cbn [pick_shift].
  - replace n with m by lia. rewrite Hm. eexists _, _. split; [done|]. split; [apply Z.mod_pos_bound; lia|done].
  - destruct (Z.testbit mask (rnd n mod 6)) eqn:E; [|eexists _, _; split; [done|]; split; [apply Z.mod_pos_bound; lia|done]].
    apply (IH (S n)); lia.
Qed.

(** a mask with a free bit *)
Lemma free_bit mask : Z.land mask 0x3F <> 0x3F -> exists v, 0 <= v < 6 /\ Z.testbit mask v = false.
Proof.
  intros H. destruct (forallb (Z.testbit mask) [0; 1; 2; 3; 4; 5]) eqn:E.
  - exfalso. apply H. cbn [forallb] in E. rewrite !andb_true_iff in E. destruct E as (E0 & E1 & E2 & E3 & E4 & E5 & _). apply Z.bits_inj'. intros k Hk. rewrite Z.land_spec.
    destruct (decide (k < 6)) as [Hlt|Hge].
    + assert (k = 0 \/ k = 1 \/ k = 2 \/ k = 3 \/ k = 4 \/ k = 5) as [->|[->|[->|[->|[->| ->]]]]] by lia; rewrite ?E0, ?E1, ?E2, ?E3, ?E4, ?E5; done.
    + assert (E : Z.testbit 0x3F k = false) by (apply Z.bits_above_log2; [done|cbn; lia]). rewrite E. apply andb_false_r.
  - apply not_true_iff_false in E. rewrite forallb_forall in E. destruct (decide (Exists (fun v => Z.testbit mask v = false) [0; 1; 2; 3; 4; 5])) as [Hx|Hx].
    + apply Exists_exists in Hx as (v & Hv & Ev). exists v. split; [|done]. repeat (apply elem_of_cons in Hv as [->|Hv]; [lia|]). by apply not_elem_of_nil in Hv.
    + exfalso. apply E. intros v Hv%list_elem_of_In. apply not_false_iff_true. intros Ev. apply Hx, Exists_exists. by exists v.
Qed.

(** the drawing loop ends, with a bit that was free *)
Lemma pick_shift_ends n mask : Z.land mask 0x3F <> 0x3F -> exists fuel v n', pick_shift rnd fuel n mask = Some (v, n') /\ 0 <= v < 6 /\ Z.testbit mask v = false.
Proof.
  intros (v & Hv & Hb)%free_bit. destruct (Hfair n v Hv) as (m & Hm & Ev). destruct (pick_shift_found m n mask Hm) as (v' & n' & E); [by rewrite Ev|]. by exists (S (m - n)), v', n'.
Qed.

(** what a launch does to the record *)
Definition counted (now : Z) (e e' : HistoryEntry) : Prop :=
  name e' = name e /\ padding e' = padding e /\ DateStamp e' = now /\ 1 <= LaunchCount e' <= 0x7F.

Lemma count_launch_ends n now e : entry_wf e -> 0 <= now < 65536 -> exists fuel e' n', count_launch rnd fuel n now e = Some (e', n') /\ counted now e e' /\ entry_wf e'.
Proof.
  intros (Hl & Hb & Hz & Hc & Hm & Hs & Hp & Hd) Hnow. unfold count_launch. destruct (Z.eqb_spec (Z.land (bitmask e) 0x3F) 0x3F) as [Em|Em]; cbn [negb].
  - exists O. destruct (Z.ltb_spec (LaunchCount e) 0x3F); eexists _, _; (split; [done|]); unfold counted, entry_wf; cbn [name LaunchCount bitmask ShiftAmount padding DateStamp]; rewrite ?Em; (split; [|split_and!; done || lia]); split_and!; done || lia.
  - set (c := if 0x80 <=? LaunchCount e + 1 then 0x7F else LaunchCount e + 1). assert (Hc1 : 1 <= c <= 0x7F) by (unfold c; destruct (Z.leb_spec 0x80 (LaunchCount e + 1)); lia).
    destruct ((14 <=? c) && _).
    + destruct (pick_shift_ends n (bitmask e) Em) as (fuel & v & n' & E & Hv & _). exists fuel. rewrite E. cbn [mbind option_bind]. eexists _, _. split; [done|].
      pose proof (u8_range (Z.lor (bitmask e) (Z.shiftl 1 v))). unfold counted, entry_wf; cbn [name LaunchCount bitmask ShiftAmount padding DateStamp]. split_and!; done || lia.
    + exists O. eexists _, _. split; [done|]. unfold counted, entry_wf; cbn [name LaunchCount bitmask ShiftAmount padding DateStamp]. split_and!; done || lia.
Qed.

(** *** The loop over the records *)

(** the least used record so far: all the records before [i] have at least its count *)
Definition least_of (es : list HistoryEntry) (l : least) : Prop :=
  exists e, es !! l_rec l = Some e /\ LaunchCount e = l_count l /\ Forall (fun f => l_count l <= LaunchCount f) es.

Lemma least_step_ok es e l : es = [] /\ l_count l = INT_MAX \/ least_of es l -> entry_wf e -> least_of (es ++ [e]) (least_step (length es) e l).
Proof.
  intros H (_ & _ & _ & He & _). assert (Hi : (es ++ [e]) !! length es = Some e) by (rewrite lookup_app_r by lia; by rewrite Nat.sub_diag).
  unfold least_step. destruct (Z.ltb_spec (LaunchCount e) (l_count l)) as [Hlt|Hge].
  - cbn [l_count l_rec l_stamp]. rewrite Z.eqb_refl. cbn [andb]. assert (Hall : Forall (fun f => LaunchCount e <= LaunchCount f) (es ++ [e])).
    { apply Forall_app. split; [|by apply Forall_singleton]. destruct H as [[-> _]|(f & _ & _ & Hf)]; [constructor|]. eapply Forall_impl; [exact Hf|]. cbn. lia. }
    destruct (DateStamp e <? l_stamp l); exists e; done.
  - destruct H as [[-> E]|(f & Hf & Ef & Hall)]; [unfold INT_MAX in E; lia|].
    assert (Hall' : Forall (fun f => l_count l <= LaunchCount f) (es ++ [e])) by (apply Forall_app; split; [done|by apply Forall_singleton]).
    destruct (Z.eqb_spec (l_count l) (LaunchCount e)) as [Ee|Ee]; cbn [andb].
    + destruct (DateStamp e <? l_stamp l); [by exists e|]. exists f. split; [by apply lookup_app_l_Some|done].
    + exists f. split; [by apply lookup_app_l_Some|done].
Qed.

(** no record has the name *)
Lemma scan_new fuel now nm n : forall es pre l, Forall entry_wf es -> Forall (fun e => same_name e nm = false) es -> pre = [] /\ l_count l = INT_MAX \/ least_of pre l ->
  exists l', scan_records rnd fuel now nm es (length pre) n l true = Some (es, n, l', true) /\ (es = [] \/ least_of (pre ++ es) l').
Proof.
  induction es as [|e es IH]; intros pre l Hw Hn Hl; cbn [scan_records]; [by exists l; auto|]. apply Forall_cons in Hw as [He Hw]. apply Forall_cons in Hn as [En Hn]. rewrite En.
  pose proof (least_step_ok pre e l Hl He) as Hl'. destruct (IH (pre ++ [e]) (least_step (length pre) e l) Hw Hn (or_intror Hl')) as (l' & E & Hr).
  rewrite length_app in E. cbn [length] in E. rewrite Nat.add_1_r in E. rewrite E. exists l'. split; [done|]. right. rewrite <- app_assoc in Hr. destruct Hr as [->|Hr]; [|exact Hr].
  cbn in E. by injection E as <-.
Qed.

(** the records behind the one with the name *)
Lemma scan_rest fuel now nm n : forall es i l, Forall (fun e => same_name e nm = false) es -> exists l', scan_records rnd fuel now nm es i n l false = Some (es, n, l', false).
Proof.
  induction es as [|e es IH]; intros i l Hn; cbn [scan_records]; [by exists l|]. apply Forall_cons in Hn as [En Hn]. rewrite En.
  destruct (IH (S i) (least_step i e l) Hn) as (l' & E). rewrite E. by exists l'.
Qed.

Lemma scan_found fuel now nm e e' n' es2 : same_name e nm = true -> forall es1 i n l new, count_launch rnd fuel n now e = Some (e', n') ->
  Forall (fun e => same_name e nm = false) es1 -> Forall (fun e => same_name e nm = false) es2 ->
  exists l', scan_records rnd fuel now nm (es1 ++ e :: es2) i n l new = Some (es1 ++ e' :: es2, n', l', false).
Proof.
  intros He. induction es1 as [|f es1 IH]; intros i n l new E H1 H2; cbn [scan_records app].
  - rewrite He, E. cbn. destruct (scan_rest fuel now nm n' es2 (S i) (least_step i e l) H2) as (l' & E'). rewrite E'. by exists l'.
  - apply Forall_cons in H1 as [Ef H1]. rewrite Ef. destruct (IH (S i) n (least_step i f l) new E H1 H2) as (l' & E'). rewrite E'. by exists l'.
Qed.
End Launch.

(** *** A new record *)

Lemma new_record_wf nm now e : name_ok nm -> 0 <= now < 65536 -> entry_wf e ->
  cstr (name (new_record nm now e)) = nm /\ entry_wf (new_record nm now e).
Proof.
  intros (Hne & Hl & Hs) Hnow (Hn & Hb & Hz & _ & _ & _ & Hp & _). unfold NAME_SIZE in *. unfold new_record, entry_wf. cbn [name LaunchCount bitmask ShiftAmount padding DateStamp].
  change (NAME_SIZE - 1)%nat with 15%nat. rewrite Hz, take_ge by lia.
  assert (E : nm ++ replicate (15 - length nm) 0 ++ [0] = nm ++ 0 :: replicate (15 - length nm) 0) by (f_equal; symmetry; apply (replicate_cons_app (15 - length nm) 0)).
  split; [rewrite E; by apply cstr_app_nul|]. unfold NAME_SIZE. rewrite !length_app, length_replicate. cbn [length]. split_and!; try lia.
  - repeat apply Forall_app_2; [|apply Forall_replicate; lia|by apply Forall_singleton]. eapply Forall_impl; [exact Hs|]. cbn. lia.
  - rewrite app_assoc, drop_app_length'; [done|]. rewrite length_app, length_replicate. lia.
Qed.

Lemma blank_slots_ok es : forall k i, i ∈ blank_slots k es -> exists j e, i = (k + j)%nat /\ es !! j = Some e /\ is_blank e = true.
Proof.
  induction es as [|e es IH]; intros k i Hi; cbn in Hi; [by apply not_elem_of_nil in Hi|].
  assert (Hrest : i ∈ blank_slots (S k) es -> exists j f, i = (k + j)%nat /\ (e :: es) !! j = Some f /\ is_blank f = true).
  { intros H. destruct (IH _ _ H) as (j & f & -> & Hj & Hf). exists (S j), f. split; [lia|done]. }
  destruct (is_blank e) eqn:Eb; [|by apply Hrest]. apply elem_of_cons in Hi as [->|Hi]; [|by apply Hrest]. exists O, e. split; [lia|done].
Qed.

Lemma blank_slots_none es : forall k, blank_slots k es = [] -> Forall (fun e => is_blank e = false) es.
Proof. induction es as [|e es IH]; intros k H; [constructor|]. cbn in H. destruct (is_blank e) eqn:E; [done|]. constructor; [done|]. by eapply IH. Qed.

Lemma alter_insert {A} (f : A -> A) (l : list A) : forall (i : nat) x, l !! i = Some x -> alter f i l = <[i := f x]> l.
Proof. induction l as [|y l IH]; intros [|i] x H; cbn in *; [done|done|by injection H as ->|]. f_equal. by apply IH. Qed.

(** one record of the table changes its name to one that is not in it *)
Lemma table_set es i e e' : table_wf es -> es !! i = Some e -> entry_wf e' ->
  (forall j f, es !! j = Some f -> j <> i -> cstr (name f) <> cstr (name e')) -> table_wf (<[i := e']> es).
Proof.
  intros [H1 H2 H3] Hi He' Hn. pose proof (lookup_lt_Some _ _ _ Hi) as Hlt. split; [by rewrite length_insert|by apply Forall_insert|].
  intros j k f g Hj Hk Eq Hne. rewrite list_lookup_insert in Hj, Hk. destruct (decide (i = j /\ _)) as [[<- _]|Hj']; destruct (decide (i = k /\ _)) as [[<- _]|Hk']; simplify_eq.
  - done.
  - exfalso. apply (Hn k g Hk); [|done]. intros ->. by apply Hk'.
  - exfalso. apply (Hn j f Hj); [|done]. intros ->. by apply Hj'.
  - by eapply H3.
Qed.

(** either one record has the name, or none *)
Lemma name_cases es nm : table_wf es -> name_ok nm ->
  Forall (fun e => same_name e nm = false) es \/
  exists l1 e l2, es = l1 ++ e :: l2 /\ same_name e nm = true /\ cstr (name e) = nm /\ Forall (fun e => same_name e nm = false) l1 /\ Forall (fun e => same_name e nm = false) l2.
Proof.
  intros [H1 H2 H3] Hok. destruct (find_index (fun e => same_name e nm) es) as [i|] eqn:Ei; [right|by left; apply find_index_None].
  apply find_index_Some in Ei as ((e & Hi & He) & _). assert (Hw : entry_wf e) by (by eapply Forall_lookup_1). pose proof (proj1 (same_name_spec e nm Hw Hok) He) as En.
  assert (Hother : forall j f, es !! j = Some f -> j <> i -> same_name f nm = false).
  { intros j f Hj Hne. apply not_true_iff_false. intros Hf. apply Hne. assert (Hwf : entry_wf f) by (by eapply Forall_lookup_1). apply (same_name_spec f nm Hwf Hok) in Hf.
    eapply H3; [exact Hj|exact Hi|congruence|]. rewrite Hf. apply Hok. }
  exists (take i es), e, (drop (S i) es). split; [symmetry; by apply take_drop_middle|]. split; [done|]. split; [done|]. split; apply Forall_lookup_2.
  - intros j f Hj%lookup_take_Some. apply (Hother j); [tauto|lia].
  - intros j f Hj. rewrite lookup_drop in Hj. apply (Hother (S i + j)%nat); [done|lia].
Qed.

(** *** The update *)

Section Update.
Context (rnd : nat -> Z) (Hfair : fair rnd).

(** what the record of the game is afterwards, and what was there *)
Definition recorded (now : Z) (nm : bytes) (es es' : list HistoryEntry) (old : option HistoryEntry) : Prop :=
  exists i e e', es !! i = Some e /\ es' = <[i := e']> es /\ cstr (name e') = nm /\ DateStamp e' = now /\ 1 <= LaunchCount e' <= 0x7F /\
    (old = None /\ (cstr (name e) = nm \/ cstr (name e) = []) \/
     old = Some e /\ Forall (fun f => is_blank f = false) es /\ Forall (fun f => LaunchCount e <= LaunchCount f) es).

Lemma update_known n now nm es l1 e l2 : table_wf es -> name_ok nm -> 0 <= now < 65536 -> es = l1 ++ e :: l2 -> same_name e nm = true -> cstr (name e) = nm ->
  Forall (fun e => same_name e nm = false) l1 -> Forall (fun e => same_name e nm = false) l2 ->
  exists fuel es', update_history rnd fuel n now nm es = Some (es', None) /\ table_wf es' /\ recorded now nm es es' None.
Proof.
  intros Ht Hok Hnow -> He En H1 H2. assert (Hi : (l1 ++ e :: l2) !! length l1 = Some e) by (rewrite lookup_app_r by lia; by rewrite Nat.sub_diag).
  assert (Hw : entry_wf e) by (eapply Forall_lookup_1; [apply Ht|exact Hi]). destruct (count_launch_ends rnd Hfair n now e Hw Hnow) as (fuel & e' & n' & E & (En' & _ & Ed & Ec) & Hw').
  destruct (scan_found rnd fuel now nm e e' n' l2 He l1 0 n (Least 0 INT_MAX INT_MAX) true E H1 H2) as (l' & Es). exists fuel, (l1 ++ e' :: l2).
  assert (Ei : l1 ++ e' :: l2 = <[length l1 := e']> (l1 ++ e :: l2)) by (rewrite insert_app_r_alt by lia; by rewrite Nat.sub_diag).
  split; [unfold update_history; by rewrite Es|]. split.
  - rewrite Ei. apply (table_set _ _ e); [done|done|done|]. intros j f Hj Hne. rewrite En'. intros Eq. apply Hne. eapply Ht; [exact Hj|exact Hi|done|]. rewrite Eq, En. apply Hok.
  - exists (length l1), e, e'. rewrite En'. split; [done|]. split; [done|]. auto 10.
Qed.

Lemma update_new n now nm es : table_wf es -> name_ok nm -> 0 <= now < 65536 -> Forall (fun e => same_name e nm = false) es -> 
  exists es' old, update_history rnd 0 n now nm es = Some (es', old) /\ table_wf es' /\ (slots_used es = MAX_HISTORY_ENTRIES /\ es' = es /\ old = None \/ recorded now nm es es' old).
Proof.
  intros Ht Hok Hnow Hn. pose proof (tw_length _ Ht) as Hlen. destruct (scan_new rnd 0 now nm n es [] (Least 0 INT_MAX INT_MAX) (tw_entries _ Ht) Hn) as (l & E & Hl); [by left|]. cbn in E.
  unfold update_history. rewrite E. cbn [mbind option_bind]. cbv zeta. destruct (Nat.eqb_spec (slots_used es) MAX_HISTORY_ENTRIES) as [Eu|Eu]; [exists es, None; split; [done|]; split; [done|]; by left|].
  assert (Hset : forall i e, es !! i = Some e -> alter (new_record nm now) i es = <[i := new_record nm now e]> es /\ cstr (name (new_record nm now e)) = nm /\ table_wf (<[i := new_record nm now e]> es)).
  { intros i e Hi. destruct (new_record_wf nm now e Hok Hnow) as [Hc Hw]; [eapply Forall_lookup_1; [apply Ht|exact Hi]|]. split; [by apply alter_insert|]. split; [done|].
    eapply table_set; [done|exact Hi|done|]. intros j f Hj _. rewrite Hc. intros Ef. assert (Hwf : entry_wf f) by (eapply Forall_lookup_1; [apply Ht|exact Hj]).
    apply (same_name_spec f nm Hwf Hok) in Ef. assert (Enf : same_name f nm = false) by (eapply (Forall_lookup_1 _ _ _ _ Hn Hj)). congruence. }
  destruct (Nat.ltb_spec 0 (length (blank_slots 0 es))) as [Hb|Hb].
  - set (r := rnd n mod Z.of_nat (length (blank_slots 0 es))). assert (Hr : (Z.to_nat r < length (blank_slots 0 es))%nat) by (pose proof (Z.mod_pos_bound (rnd n) (Z.of_nat (length (blank_slots 0 es)))); lia).
    apply lookup_lt_is_Some_2 in Hr as [slot Hs]. rewrite Hs. cbn [mbind option_bind]. destruct (blank_slots_ok es 0 slot) as (j & e & -> & Hj & Hbl); [by eapply list_elem_of_lookup_2|]. cbn [Nat.add].
    destruct (Hset j e Hj) as (-> & Hc & Hw). eexists _, _. split; [done|]. split; [done|]. right. exists j, e, (new_record nm now e). split; [done|]. split; [done|]. split; [done|]. split; [done|].
    split; [cbn; lia|]. left. split; [done|]. right. apply is_blank_spec; [eapply Forall_lookup_1; [apply Ht|exact Hj]|done].
  - destruct Hl as [->|Hl]; [done|]. cbn [app] in Hl. destruct Hl as (e & He & Ec & Hall). rewrite He. cbn [mbind option_bind]. destruct (Hset (l_rec l) e He) as (-> & Hc & Hw).
    eexists _, _. split; [done|]. split; [done|]. right. exists (l_rec l), e, (new_record nm now e). split; [done|]. split; [done|]. split; [done|]. split; [done|]. split; [cbn; lia|]. right.
    split; [done|]. split; [apply (blank_slots_none es 0), nil_length_inv; lia|by rewrite Ec].
Qed.

Lemma update_ok n now nm es : table_wf es -> name_ok nm -> 0 <= now < 65536 ->
  exists fuel es' old, update_history rnd fuel n now nm es = Some (es', old) /\ table_wf es' /\
    (slots_used es = MAX_HISTORY_ENTRIES /\ es' = es /\ old = None \/ recorded now nm es es' old).
Proof.
  intros Ht Hok Hnow. destruct (name_cases es nm Ht Hok) as [Hn|(l1 & e & l2 & El & He & En & H1 & H2)].
  - exists 0%nat. by apply update_new.
  - destruct (update_known n now nm es l1 e l2 Ht Hok Hnow El He En H1 H2) as (fuel & es' & E & Hw & Hr). exists fuel, es', None. auto.
Qed.
End Update.

(** *** The file *)

Lemma record_bytes_length e : entry_wf e -> length (entry_bytes e) = ENTRY_SIZE.
Proof. intros (Hl & _). unfold entry_bytes. rewrite !length_app, le_bytes_length, Hl. done. Qed.

Lemma entry_roundtrip e : entry_wf e -> entry_of_bytes (entry_bytes e) = e.
Proof.
  intros (Hl & _ & _ & _ & _ & _ & _ & Hd). unfold entry_of_bytes, entry_bytes. unfold NAME_SIZE in Hl.
  assert (En : forall k l, nth (16 + k) (name e ++ l) 0 = nth k l 0) by (intros k l; rewrite app_nth2 by lia; f_equal; lia).
  assert (Ed : forall k l, drop (16 + k) (name e ++ l) = drop k l) by (intros k l; rewrite drop_app_ge by lia; f_equal; lia).
  rewrite take_app_length' by done. rewrite (En 0%nat), (En 1%nat), (En 2%nat), (En 3%nat), (Ed 4%nat). cbn [nth app skipn]. rewrite drop_0.
  rewrite take_ge by (rewrite le_bytes_length; lia). rewrite le_val_bytes by (cbn; lia). by destruct e.
Qed.

Lemma entries_roundtrip es : forall r, Forall entry_wf es -> entries_of (length es) (concat (map entry_bytes es) ++ r) = es.
Proof.
  induction es as [|e es IH]; intros r H; cbn [length entries_of map concat]; [done|]. apply Forall_cons in H as [He H]. rewrite <- app_assoc, take_app_length', drop_app_length' by (symmetry; by apply record_bytes_length).
  by rewrite entry_roundtrip, IH.
Qed.

Lemma table_bytes_length es : Forall entry_wf es -> length (concat (map entry_bytes es)) = (length es * ENTRY_SIZE)%nat.
Proof. induction es as [|e es IH]; intros H; [done|]. apply Forall_cons in H as [He H]. cbn [map concat length]. rewrite length_app, record_bytes_length, IH by done. lia. Qed.

(** what was written with success is read back *)
Definition keeps_files W `{!HistoryCard W} : Prop := forall (w w' : W) p b, h_write w p b = (0, w') -> h_read w' p = inr b.

Lemma saved_table {W} `{!HistoryCard W} (w w' : W) path es : keeps_files W -> table_wf es -> SaveHistoryFile w path es = (0, w') -> LoadHistoryFile w' path = inr es.
Proof.
  intros Hk Ht E. unfold LoadHistoryFile. rewrite (Hk _ _ _ _ E). destruct Ht as [Hl Hw _]. rewrite table_bytes_length by done. rewrite Hl. cbn [Nat.leb HISTORY_SIZE].
  unfold HISTORY_SIZE. rewrite Nat.leb_refl. f_equal. rewrite <- Hl, <- (app_nil_r (concat _)). by apply entries_roundtrip.
Qed.

(** *** The boot path *)

Lemma last_sep_none p : forall i, (forall j c, (0 < j <= i)%nat -> p !! j = Some c -> is_sep c = false) -> last_sep p i = None.
Proof.
  induction i as [|i IH]; intros H; cbn; [done|]. destruct (p !! S i) as [c|] eqn:E; [rewrite (H (S i) c) by (done || lia)|]; apply IH; intros j c' Hj; apply H; lia.
Qed.

Lemma last_sep_at p k c : forall i, (0 < k <= i)%nat -> p !! k = Some c -> is_sep c = true -> (forall j c', (k < j <= i)%nat -> p !! j = Some c' -> is_sep c' = false) -> last_sep p i = Some k.
Proof.
  induction i as [|i IH]; intros Hk Hc Hs H; [lia|]. cbn. destruct (decide (k = S i)) as [->|Hne]; [by rewrite Hc, Hs|].
  destruct (p !! S i) as [c'|] eqn:E; [rewrite (H (S i) c') by (done || lia)|]; (apply IH; [lia|done|done|]; intros j d Hj; apply H; lia).
Qed.

Lemma strip_version_app s : (0 < length s)%nat -> strip_version (s ++ bs ";1") = s.
Proof.
  intros Hl. change (bs ";1") with [cSEMI; 49]. unfold strip_version. rewrite rev_app_distr. cbn [rev app]. unfold strlen. rewrite length_app. cbn [length].
  replace (2 <? Z.of_nat (length s + 2)) with true by (symmetry; apply Z.ltb_lt; lia). cbn [andb Z.eqb Pos.eqb]. replace (length s + 2 - 2)%nat with (length s) by lia. by apply take_app_length.
Qed.

(** ** Theorems *)

(** For every table of 21 records with distinct names, every name of up to fifteen
    characters and every source of numbers in which each value comes again, the update ends;
    the game then has exactly one record, dated today, with a count from 1 to 127; all other
    records are unchanged, except that a new game without a free record takes the place of one
    with the least count, which is handed over for the old history; only a table of 21 records
    that are kept for ever takes no new game. *)
Theorem launch_recorded (rnd : nat -> Z) (n : nat) (now : Z) (nm : bytes) (es : list HistoryEntry) :
  fair rnd -> table_wf es -> name_ok nm -> 0 <= now < 65536 ->
  exists fuel es' old, update_history rnd fuel n now nm es = Some (es', old) /\ table_wf es' /\
    (slots_used es = MAX_HISTORY_ENTRIES /\ es' = es /\ old = None \/ recorded now nm es es' old).
Proof. intros Hf. by apply update_ok. Qed.

(** A launch reaches the card: when the table of the card can be opened or made and the
    record is added with success, the file read back is the table with the launch recorded. *)
Theorem launch_survives {W} `{!HistoryCard W} icon sysdata letter (rnd : nat -> Z) (now : Z) (nm : bytes) (w w1 : W) (i : Z) (es : list HistoryEntry) :
  keeps_files W -> fair rnd -> find_card w = Some i -> let path := bs "mc" ++ fmt_d i ++ bs ":/" ++ sysdata in
  open_history icon letter w path = (inr es, w1) -> table_wf es -> name_ok nm -> 0 <= now < 65536 ->
  exists fuel r w', AddHistoryRecord icon sysdata letter rnd fuel now w nm = Some (r, w') /\
    (r = 0 -> exists es' old, LoadHistoryFile w' path = inr es' /\ table_wf es' /\
       (slots_used es = MAX_HISTORY_ENTRIES /\ es' = es /\ old = None \/ recorded now nm es es' old)).
Proof.
  intros Hk Hf Hc path Ho Ht Hok Hnow. destruct (update_ok rnd Hf 0 now nm es Ht Hok Hnow) as (fuel & es' & old & E & Ht' & Hr). exists fuel.
  unfold AddHistoryRecord. rewrite Hc. fold path. rewrite Ho, E. cbn [mbind option_bind]. destruct (SaveHistoryFile _ path es') as [r w'] eqn:Es. exists r, w'. split; [done|].
  intros ->. exists es', old. split; [by eapply saved_table|]. done.
Qed.

(** The name under which a game is recorded: the last part of its boot path, behind the
    device or the directory, without the version. *)
Theorem boot_filename (dir file : bytes) (sep : Z) :
  dir <> [] -> is_sep sep = true -> file <> [] -> Forall (fun c => is_sep c = false) file -> GetBootFilename (dir ++ [sep] ++ file ++ bs ";1") = file.
Proof.
  intros Hd Hs Hf Hn. unfold GetBootFilename. assert (Hdl : (0 < length dir)%nat) by (destruct dir; cbn; [done|lia]).
  assert (Hsep : (dir ++ [sep] ++ file ++ bs ";1") !! length dir = Some sep) by (rewrite lookup_app_r by lia; by rewrite Nat.sub_diag).
  rewrite (last_sep_at _ (length dir) sep); [|rewrite length_app; lia|done|done|].
  - rewrite !app_assoc, strip_version_app by (rewrite !length_app; cbn; lia). rewrite drop_app_length'; [done|]. rewrite length_app. cbn. lia.
  - intros j c Hj Hc. rewrite lookup_app_r in Hc by lia. destruct (j - length dir)%nat as [|k] eqn:Ek; [lia|]. cbn in Hc.
    apply lookup_app_Some in Hc as [Hc|[_ Hc]]; [by eapply (Forall_lookup_1 _ _ _ _ Hn)|]. apply list_elem_of_lookup_2 in Hc. repeat (apply elem_of_cons in Hc as [->|Hc]; [done|]). by apply not_elem_of_nil in Hc.
Qed.

(** ** The theorems on concrete runs *)

(** a card as its files; both ports hold the same *)
#[export] Instance file_card : HistoryCard (list (bytes * bytes)) := {
  h_read w p := from_option (fun x => inr x.2) (inl (-4)) (head (base.filter (fun x => x.1 = p) w));
  h_write w p b := (0, (p, b) :: w);
  h_append w p b := match head (base.filter (fun x => x.1 = p) w) with Some x => (0, (p, x.2 ++ b) :: w) | None => (-4, w) end;
  h_mkdir w p := w;
  mcGetInfo w i := (2, 1);
}.

Lemma file_card_keeps : keeps_files (list (bytes * bytes)).
Proof. intros w w' p b [= <-]. cbn. by rewrite decide_True. Qed.

Lemma count_fair : fair Z.of_nat.
Proof.
  intros n v Hv. exists (6 * n + Z.to_nat v)%nat. split; [lia|]. rewrite Nat2Z.inj_add, Nat2Z.inj_mul, Z2Nat.id by lia. cbn [Z.of_nat].
  rewrite Z.add_comm, Z.mul_comm. change (Z.of_nat 6) with 6. rewrite Z.mod_add by lia. by apply Z.mod_small.
Qed.

#[export] Instance entry_wf_dec e : Decision (entry_wf e).
Proof. unfold entry_wf. apply _. Defined.
Lemma entry_wf_check e : bool_decide (entry_wf e) = true -> entry_wf e.
Proof. apply bool_decide_eq_true. Qed.

Lemma blank_table : table_wf (replicate MAX_HISTORY_ENTRIES blank).
Proof.
  split; [done|apply Forall_replicate; by apply entry_wf_check; vm_compute|]. intros i j e f [-> _]%lookup_replicate [-> _]%lookup_replicate _ Hn. by vm_compute in Hn.
Qed.

(** a table in which one game was started [k] times *)
Definition games_table (k : Z) : list HistoryEntry := HEntry (bs "SLUS_123.45" ++ replicate 5 0) k 1 0 0 1 :: replicate 20 blank.
Lemma games_table_wf : table_wf (games_table 13).
Proof.
  split; [done|apply Forall_cons; split; [by apply entry_wf_check; vm_compute|apply Forall_replicate; by apply entry_wf_check; vm_compute]|].
  assert (Hb : forall j f, games_table 13 !! S j = Some f -> cstr (name f) = []) by (intros j f [-> _]%lookup_replicate; by vm_compute).
  intros [|i] [|j] e f He Hf E Hn; [done| | |].
  - exfalso. apply Hn. rewrite E. by eapply Hb.
  - exfalso. apply Hn. by eapply Hb.
  - exfalso. apply Hn. by eapply Hb.
Qed.

Lemma launch_recorded_witness : exists fuel es' old, update_history Z.of_nat fuel 0 7000 (bs "SLUS_123.45") (games_table 13) = Some (es', old) /\ table_wf es'.
Proof.
  destruct (launch_recorded Z.of_nat 0 7000 (bs "SLUS_123.45") (games_table 13) count_fair games_table_wf) as (fuel & es' & old & E & Hw & _).
  - split; [done|]. split; [by apply Nat.ltb_lt|]. repeat constructor.
  - lia.
  - by exists fuel, es', old.
Defined.

Lemma launch_survives_witness : exists fuel r w', AddHistoryRecord (fun _ => bs "icon") (bs "BADATA-SYSTEM") 65 Z.of_nat fuel 7000 ([] : list (bytes * bytes)) (bs "SLES_543.21") = Some (r, w').
Proof.
  destruct (launch_survives (fun _ => bs "icon") (bs "BADATA-SYSTEM") 65 Z.of_nat 7000 (bs "SLES_543.21") ([] : list (bytes * bytes))
    (snd (open_history (fun _ => bs "icon") 65 ([] : list (bytes * bytes)) (bs "mc0:/BADATA-SYSTEM"))) 0 (replicate MAX_HISTORY_ENTRIES blank) file_card_keeps count_fair) as (fuel & r & w' & E & _).
  - by vm_compute.
  - by vm_compute.
  - exact blank_table.
  - split; [done|]. split; [by apply Nat.ltb_lt|]. repeat constructor.
  - lia.
  - by exists fuel, r, w'.
Defined.

Lemma boot_filename_witness : GetBootFilename (bs "cdrom0:\SLUS_123.45;1") = bs "SLUS_123.45".
Proof. apply (boot_filename (bs "cdrom0:") (bs "SLUS_123.45") cBSLASH); [done|done|done|]. repeat (apply Forall_cons; split; [done|]). constructor. Defined.

(** ** Where the code falls short *)

(** The record that makes room is to be the oldest of those with the least count; but the
    date kept from records with a larger count is not reset: of the two records started
    once, the newer one goes when a record started twice is older than both. *)
Definition full_table : list HistoryEntry :=
  HEntry (bs "A" ++ replicate 15 0) 2 1 0 0 10 :: HEntry (bs "B" ++ replicate 15 0) 1 1 0 0 90 :: HEntry (bs "C" ++ replicate 15 0) 1 1 0 0 80 ::
  map (fun k => HEntry ([68; Z.of_nat k] ++ replicate 14 0) 5 1 0 0 50) (List.seq 1 18).

Example least_not_oldest : exists es' old, update_history Z.of_nat 0 0 100 (bs "NEW") full_table = Some (es', Some old) /\ LaunchCount old = 1 /\ DateStamp old = 90.
Proof. eexists _, _. split; [by vm_compute|done]. Qed.

(** A name of sixteen characters is stored cut to fifteen and never found again: the same
    game fills a record with every launch. *)
Definition launches (k : nat) (nm : bytes) : option (list HistoryEntry) :=
  Nat.iter k (fun es => es ← es; fst <$> update_history Z.of_nat 0 0 100 nm es) (Some (replicate MAX_HISTORY_ENTRIES blank)).

Example long_name_again : (fun es => length (base.filter (fun e => is_blank e = false) es)) <$> launches 3 (bs "SLUS_123.45ABCDE") = Some 3%nat /\
  (fun es => length (base.filter (fun e => is_blank e = false) es)) <$> launches 3 (bs "SLUS_123.45") = Some 1%nat.
Proof. by vm_compute. Qed.
