(* ===== verification/BootCnf.v ===== *)
(** * BootCnf: SYSTEM.CNF and the names of disc images (src/ps2cnf.c, src/supportbase.c)

    The boot file a disc names in its SYSTEM.CNF, the startup name cut out of it, and the
    form of the file name of an image. A pointer into the text is the rest of the text from
    there to its end; the byte at the end is NUL. *)
From S2P Require Import Prelude CLib.

Definition CNF_LEN_MAX : nat := 1024.
Definition CNF_PATH_LEN_MAX : nat := 64.
Definition ENOENT : Z := 2.
Definition EIO : Z := 5.

(** ** SYSTEM.CNF *)

(** the answers of [CNFGetToken]: -1, NULL, or a pointer *)
Inductive token := Eof | NoMatch | At (rest : bytes).

Fixpoint match_key (cnf key : bytes) {struct key} : token :=
  match key with
  | [] => At cnf
  | k :: key =>
    match cnf with
    | [] => Eof
    | c :: cnf => if c =? 0 then Eof else if c =? k then match_key cnf key else NoMatch
    end
  end.
Definition CNFGetToken (cnf key : bytes) : token := match_key (dropwhile isspace cnf) key.

(** the next line, if there is one *)
Fixpoint CNFAdvanceLine (start : bytes) : option bytes :=
  match start with
  | [] => None
  | c :: r => if c =? cLF then match r with [] => None | _ => Some r end else CNFAdvanceLine r
  end.

(** the loop that copies the key: what is stored from [key] on. A character that is neither
    printed nor space is not stepped over *)
Fixpoint key_loop (i : nat) (line key : bytes) : bytes :=
  match i with
  | O => key
  | S i =>
    match line with
    | [] => key
    | c :: r =>
      if c =? 0 then key
      else if isgraph c then key_loop i r (key ++ [c])
      else if isspace c then key ++ [0]
      else key_loop i line key
    end
  end.

(** [None] is -1 *)
Definition CNFGetKey (line : bytes) : option bytes :=
  match dropwhile isspace line with
  | [] => None
  | c :: r => if c =? 0 then None else Some (key_loop CNF_PATH_LEN_MAX (c :: r) [])
  end.

(** the loop over the lines; [None] when the fuel runs out *)
Fixpoint find_boot2 (fuel : nat) (cnf : bytes) : option token :=
  match fuel with
  | O => None
  | S fuel =>
    match CNFGetToken cnf (bs "BOOT2") with
    | NoMatch => match CNFAdvanceLine cnf with None => Some Eof | Some cnf => find_boot2 fuel cnf end
    | t => Some t
    end
  end.

(** a result, with the buffer of the boot file; or a read through NULL *)
Inductive boot_result := Code (r : Z) | Boot (bootfile : bytes) | NullRead.

(** the parser over the text of the file, which is cut to what the buffer holds *)
Definition parse_cnf (text bootfile : bytes) : boot_result :=
  let cnf := take (CNF_LEN_MAX - 1) text in
  match find_boot2 (S (length cnf)) cnf with
  | Some (At p) =>
    match CNFGetToken p (bs "=") with
    | Eof => Code (-1)
    | NoMatch => NullRead
    | At line => match CNFGetKey line with None => Code (-1) | Some key => Boot (blit bootfile 0 key) end
    end
  | _ => Code (-1)
  end.

(** a file that cannot be opened, or read *)
Definition ps2cnfGetBootFile (file : option (option bytes)) (bootfile : bytes) : boot_result :=
  match file with
  | None => Code ENOENT
  | Some None => Code EIO
  | Some (Some text) => parse_cnf text bootfile
  end.

(** ** The startup name (src/supportbase.c) *)

(** up to the first ':', the back-slashes behind it, then up to ';' *)
Fixpoint after_colon (s : bytes) : option bytes :=
  match s with [] => None | c :: r => if c =? cCOLON then Some r else after_colon r end.
Definition not_end (c : Z) : bool := negb (c =? cSEMI).
Fixpoint takewhile (p : Z -> bool) (s : bytes) : bytes := match s with [] => [] | c :: r => if p c then c :: takewhile p r else [] end.

(** [inl] is the result -1 or the code of the parser; [None] where the code reads through
    NULL or behind a buffer without a NUL *)
Definition GetStartupExecName (file : option (option bytes)) (maxlength : nat) : option (Z + bytes) :=
  match ps2cnfGetBootFile file (replicate CNF_PATH_LEN_MAX 0) with
  | NullRead => None
  | Code r => Some (inl r)
  | Boot buf =>
    if bool_decide (0 ∈ buf) then
      match after_colon (cstr buf) with
      | None => Some (inl (-1))
      | Some key =>
        let start := takewhile not_end (dropwhile (fun c => c =? cBSLASH) key) in
        let filename := take maxlength start in
        if bool_decide (filename = []) then Some (inl (-1)) else Some (inr filename)
      end
    else None
  end.

(** *** Names of images *)

Definition GAME_FORMAT_OLD_ISO : Z := 1.
Definition GAME_FORMAT_ISO : Z := 2.

(** the format, and the length of the game's name in the file name *)
Definition isValidIsoName (nm : bytes) : option (Z * nat) :=
  let size := length nm in
  if (size <? 5)%nat then None
  else
    let ext := drop (size - 4) nm in
    if strcaseeq ext (bs ".iso") || strcaseeq ext (bs ".zso") then
      if (17 <=? size)%nat && (nth 4 nm 0 =? cUSCORE) && (nth 8 nm 0 =? cDOT) && (nth 11 nm 0 =? cDOT) then Some (GAME_FORMAT_OLD_ISO, (size - 16)%nat)
      else Some (GAME_FORMAT_ISO, (size - 4)%nat)
    else None.

(** ** Lemmas *)

Lemma match_key_app key rest : cstring key -> match_key (key ++ rest) key = At rest.
Proof.
  induction key as [|k key IH]; intros H; cbn; [done|]. apply Forall_cons in H as [Hk H]. replace (k =? 0) with false by lia. rewrite Z.eqb_refl. by apply IH.
Qed.

Lemma match_key_not d key r : Forall (fun c => c <> cLF /\ 0 < c) d -> Forall (fun c => c <> cLF) key -> d <> [] -> take (length key) d <> key -> match_key (d ++ cLF :: r) key = NoMatch.
Proof.
  revert d. induction key as [|k key IH]; intros d Hd Hk Hne Ht; [by cbn in Ht|]. destruct d as [|c d]; [done|]. apply Forall_cons in Hd as [[Hc Hp] Hd]. apply Forall_cons in Hk as [Hk Hkey]. cbn.
  replace (c =? 0) with false by lia. destruct (Z.eqb_spec c k) as [->|]; [|done]. destruct d as [|c' d].
  - destruct key as [|k' key]; [by cbn in Ht|]. apply Forall_cons in Hkey as [Hk' _]. cbn [app match_key]. change (cLF =? 0) with false. cbn iota. by destruct (Z.eqb_spec cLF k').
  - apply IH; [done|done|done|]. intros E. apply Ht. cbn in *. by rewrite E.
Qed.

Lemma skip_all p (l : bytes) : Forall (fun c => p c = true) l -> forall r, dropwhile p (l ++ r) = dropwhile p r.
Proof. induction 1 as [|c l Hc _ IH]; intros r; cbn; [done|]. by rewrite Hc, IH. Qed.

Lemma dropwhile_app_stop p (l r : bytes) : dropwhile p l <> [] -> dropwhile p (l ++ r) = dropwhile p l ++ r.
Proof. induction l as [|c l IH]; intros H; cbn in *; [done|]. destruct (p c); [by apply IH|done]. Qed.

Lemma dropwhile_nil p (l : bytes) : dropwhile p l = [] -> Forall (fun c => p c = true) l.
Proof. induction l as [|c l IH]; intros H; cbn in *; [constructor|]. destruct (p c) eqn:E; [|done]. constructor; [done|by apply IH]. Qed.

Lemma dropwhile_forall {P : Z -> Prop} p (l : bytes) : Forall P l -> Forall P (dropwhile p l).
Proof. induction 1 as [|c l Hc H IH]; cbn; [constructor|]. destruct (p c); [done|by constructor]. Qed.

(** *** The lines in front of the key *)

Definition line_ok (l : bytes) : Prop := Forall (fun c => c <> cLF /\ 0 < c) l /\ take 5 (dropwhile isspace l) <> bs "BOOT2".
Definition lines_text (pre : list bytes) : bytes := concat (map (fun l => l ++ [cLF]) pre).

Lemma advance_line l r : Forall (fun c => c <> cLF /\ 0 < c) l -> r <> [] -> CNFAdvanceLine (l ++ cLF :: r) = Some r.
Proof. induction 1 as [|c l [Hc _] H IH]; intros Hr; cbn; [by destruct r|]. replace (c =? 10) with false by lia. by apply IH. Qed.

Definition key_line (ws rest : bytes) : bytes := ws ++ bs "BOOT2" ++ rest.

Lemma token_text pre ws rest : Forall line_ok pre -> Forall (fun c => isspace c = true) ws ->
  CNFGetToken (lines_text pre ++ key_line ws rest) (bs "BOOT2") = At rest \/ CNFGetToken (lines_text pre ++ key_line ws rest) (bs "BOOT2") = NoMatch /\ pre <> [].
Proof.
  intros Hp Hw. induction Hp as [|l pre [Hl Hk] Hp IH].
  - left. cbn [lines_text map concat app]. unfold CNFGetToken, key_line. rewrite skip_all by done. cbn [dropwhile bs]. by apply (match_key_app (bs "BOOT2")); repeat constructor.
  - unfold CNFGetToken, lines_text in *. cbn [map concat]. rewrite <- !app_assoc. destruct (decide (dropwhile isspace l = [])) as [El|El].
    + apply dropwhile_nil in El. rewrite skip_all by done. cbn [app dropwhile]. change (isspace 10) with true. cbn iota. destruct IH as [->|[-> _]]; [by left|by right].
    + right. split; [|done]. rewrite dropwhile_app_stop by done. cbn [app]. apply match_key_not; [by apply dropwhile_forall|by repeat constructor|done|exact Hk].
Qed.

Lemma find_boot2_text ws rest : Forall (fun c => isspace c = true) ws -> forall pre fuel, Forall line_ok pre -> (length pre < fuel)%nat ->
  find_boot2 fuel (lines_text pre ++ key_line ws rest) = Some (At rest).
Proof.
  intros Hw. induction pre as [|l pre IH]; intros fuel Hp Hf; (destruct fuel as [|fuel]; [lia|]); cbn [find_boot2].
  - destruct (token_text [] ws rest Hp Hw) as [->|[_ H]]; done.
  - destruct (token_text (l :: pre) ws rest Hp Hw) as [->|[-> _]]; [done|]. apply Forall_cons in Hp as [[Hl _] Hp]. unfold lines_text. cbn [map concat]. rewrite <- !app_assoc. cbn [app].
    rewrite advance_line; [apply IH; [done|cbn in Hf; lia]|done|]. unfold key_line. destruct (concat _), ws; done.
Qed.

Lemma lines_length pre : (length pre <= length (lines_text pre))%nat.
Proof. unfold lines_text. induction pre as [|l pre IH]; cbn; [lia|]. rewrite !length_app. cbn. lia. Qed.

(** *** The key *)

Lemma key_loop_path path s r : Forall (fun c => isgraph c = true) path -> isspace s = true -> forall i key, (length path < i)%nat -> key_loop i (path ++ s :: r) key = key ++ path ++ [0].
Proof.
  intros H Hs. assert (H0 : (s =? 0) = false) by (destruct (Z.eqb_spec s 0) as [->|]; done).
  assert (Hg : isgraph s = false) by (unfold isspace, isgraph, between in *; destruct (Z.eqb_spec s 32); lia).
  induction H as [|c path Hc H IH]; intros i key Hi; (destruct i as [|i]; [cbn in Hi; lia|]); cbn [app key_loop].
  - by rewrite H0, Hg, Hs.
  - assert (E0 : (c =? 0) = false) by (destruct (Z.eqb_spec c 0) as [->|]; done). rewrite E0, Hc. rewrite IH by (cbn in Hi; lia). by rewrite <- app_assoc.
Qed.

Lemma dropwhile_stop p (c : Z) (r : bytes) : p c = false -> dropwhile p (c :: r) = c :: r.
Proof. intros H. cbn. by rewrite H. Qed.

Lemma graph_not_space c : isgraph c = true -> isspace c = false /\ c <> 0.
Proof. unfold isspace, isgraph, between. intros H. split; lia. Qed.

(** ** Theorems *)

(** the text of a SYSTEM.CNF: other lines, the key, the path behind it, and the rest *)
Definition cnf_text (pre : list bytes) (ws sp1 sp2 path : bytes) (s : Z) (rest : bytes) : bytes :=
  lines_text pre ++ key_line ws (sp1 ++ [cEQ] ++ sp2 ++ path ++ s :: rest).
Definition spaces (l : bytes) : Prop := Forall (fun c => isspace c = true) l.

Lemma parse_cnf_path pre ws sp1 sp2 path s rest : Forall line_ok pre -> spaces ws -> spaces sp1 -> spaces sp2 -> isspace s = true ->
  path <> [] -> Forall (fun c => isgraph c = true) path -> (length path < CNF_PATH_LEN_MAX)%nat -> (length (cnf_text pre ws sp1 sp2 path s rest) < CNF_LEN_MAX)%nat ->
  parse_cnf (cnf_text pre ws sp1 sp2 path s rest) (replicate CNF_PATH_LEN_MAX 0) = Boot (path ++ replicate (CNF_PATH_LEN_MAX - length path) 0).
Proof.
  intros Hp Hw H1 H2 Hs Hne Hg Hl Hlen. unfold parse_cnf. rewrite take_ge by lia. unfold cnf_text at 2.
  rewrite find_boot2_text; [|done|done|unfold cnf_text; rewrite length_app; pose proof (lines_length pre); lia].
  unfold CNFGetToken. rewrite skip_all by done. cbn [app]. rewrite dropwhile_stop by done. change (cEQ :: sp2 ++ path ++ s :: rest) with (bs "=" ++ sp2 ++ path ++ s :: rest). rewrite (match_key_app (bs "=") (sp2 ++ path ++ s :: rest)) by (by repeat constructor).
  unfold CNFGetKey. rewrite skip_all by done. destruct path as [|c path]; [done|]. pose proof (graph_not_space c (Forall_inv Hg)) as [Hc H0]. cbn [app dropwhile]. rewrite Hc.
  replace (c =? 0) with false by lia. change (c :: path ++ s :: rest) with ((c :: path) ++ s :: rest). rewrite key_loop_path by done. f_equal. unfold blit. rewrite drop_replicate. cbn [take app].
  assert (E : (CNF_PATH_LEN_MAX - length (c :: path) = S (CNF_PATH_LEN_MAX - (0 + length (c :: path ++ [0%Z]))))%nat) by (cbn [length] in *; rewrite length_app; cbn [length]; lia).
  rewrite E. cbn [replicate]. change (take 0 (replicate CNF_PATH_LEN_MAX 0)) with (@nil Z). cbn [app]. f_equal. by rewrite <- app_assoc.
Qed.

Lemma after_colon_app dev r : Forall (fun c => c <> cCOLON) dev -> after_colon (dev ++ cCOLON :: r) = Some r.
Proof. induction 1 as [|c dev Hc H IH]; cbn [app after_colon]; [by rewrite Z.eqb_refl|]. by replace (c =? cCOLON) with false by lia. Qed.

Lemma takewhile_name nm r : Forall (fun c => c <> cSEMI) nm -> takewhile not_end (nm ++ cSEMI :: r) = nm.
Proof. induction 1 as [|c nm Hc H IH]; cbn [app takewhile]; [done|]. unfold not_end at 1. replace (c =? cSEMI) with false by lia. cbn [negb]. by rewrite IH. Qed.

(** The startup name of a disc is the file its SYSTEM.CNF names: when the line of BOOT2
    stands anywhere in the first 1023 bytes, behind any other lines, with any white space
    around the key and the equals sign, the name is what stands between the back-slashes
    behind the device and the semicolon of the version. *)
Theorem startup_name (pre : list bytes) (ws sp1 sp2 dev slashes nm ver : bytes) (s : Z) (rest : bytes) (maxlength : nat) :
  let path := dev ++ cCOLON :: slashes ++ nm ++ cSEMI :: ver in
  Forall line_ok pre -> spaces ws -> spaces sp1 -> spaces sp2 -> isspace s = true ->
  Forall (fun c => isgraph c = true) path -> Forall (fun c => c <> cCOLON) dev -> Forall (fun c => c = cBSLASH) slashes -> Forall (fun c => c <> cSEMI) nm ->
  head nm <> Some cBSLASH -> nm <> [] -> (length path < CNF_PATH_LEN_MAX)%nat -> (length (cnf_text pre ws sp1 sp2 path s rest) < CNF_LEN_MAX)%nat -> (length nm <= maxlength)%nat ->
  GetStartupExecName (Some (Some (cnf_text pre ws sp1 sp2 path s rest))) maxlength = Some (inr nm).
Proof.
  intros path Hp Hw H1 H2 Hs Hg Hd Hsl Hn Hh Hne Hl Hlen Hm. assert (Hpne : path <> []) by (unfold path; by destruct dev). unfold GetStartupExecName, ps2cnfGetBootFile.
  rewrite parse_cnf_path by done. set (k := (CNF_PATH_LEN_MAX - length path)%nat). destruct k as [|k'] eqn:Ek; [lia|]. rewrite bool_decide_eq_true_2 by (cbn [replicate]; set_solver).
  cbn [replicate]. rewrite cstr_app_nul; [|eapply Forall_impl; [exact Hg|]; cbn; unfold isgraph, between; lia].
  unfold path. rewrite after_colon_app by done. rewrite skip_all by (eapply Forall_impl; [exact Hsl|]; by intros c ->).
  destruct nm as [|c nm]; [done|]. cbn [app]. rewrite dropwhile_stop by (apply Z.eqb_neq; intros ->; by apply Hh). change (c :: nm ++ cSEMI :: ver) with ((c :: nm) ++ cSEMI :: ver).
  rewrite takewhile_name by done. rewrite take_ge by done. by rewrite bool_decide_eq_false_2.
Qed.

(** The name of a game in the old naming form is what stands between the startup name
    and the extension, whatever the case of the extension; any other name keeps all but the
    extension. *)
Theorem iso_name (id nm ext : bytes) : length id = 11%nat -> nth 4 id 0 = cUSCORE -> nth 8 id 0 = cDOT -> nm <> [] -> map tolower ext = bs ".iso" \/ map tolower ext = bs ".zso" ->
  isValidIsoName (id ++ [cDOT] ++ nm ++ ext) = Some (GAME_FORMAT_OLD_ISO, length nm) /\
  isValidIsoName (nm ++ ext) = Some (if (17 <=? length (nm ++ ext))%nat && (nth 4 (nm ++ ext) 0 =? cUSCORE) && (nth 8 (nm ++ ext) 0 =? cDOT) && (nth 11 (nm ++ ext) 0 =? cDOT)
    then (GAME_FORMAT_OLD_ISO, (length nm - 12)%nat) else (GAME_FORMAT_ISO, length nm)).
Proof.
  intros Hl H4 H8 Hn He. assert (Hel : length ext = 4%nat) by (destruct He as [E|E]; rewrite <- (length_map tolower ext), E; done).
  assert (Hx : forall d : bytes, strcaseeq (drop (length (d ++ ext) - 4) (d ++ ext)) (bs ".iso") || strcaseeq (drop (length (d ++ ext) - 4) (d ++ ext)) (bs ".zso") = true).
  { intros d. rewrite length_app, Hel. replace (length d + 4 - 4)%nat with (length d) by lia. rewrite drop_app_length. unfold strcaseeq. destruct He as [-> | ->]; by vm_compute. }
  assert (Hnl : (0 < length nm)%nat) by (destruct nm; cbn; [done|lia]). split; unfold isValidIsoName.
  - pose proof (Hx (id ++ [cDOT] ++ nm)) as Hd. rewrite <- !app_assoc in Hd. rewrite Hd. rewrite !length_app, Hl, Hel. cbn [length].
    replace (11 + (1 + (length nm + 4)) <? 5)%nat with false by (symmetry; apply Nat.ltb_ge; lia). replace (17 <=? 11 + (1 + (length nm + 4)))%nat with true by (symmetry; apply Nat.leb_le; lia).
    rewrite !app_nth1 by lia. rewrite H4, H8. rewrite app_nth2 by lia. rewrite Hl. cbn [Nat.sub nth app]. cbn [andb Z.eqb Pos.eqb]. do 2 f_equal. lia.
  - rewrite Hx. rewrite !length_app, Hel. replace (length nm + 4 <? 5)%nat with false by (symmetry; apply Nat.ltb_ge; lia). destruct (_ && _); do 2 f_equal; lia.
Qed.

(** ** The theorems on concrete texts *)

Definition sample_cnf : bytes := cnf_text [bs "VER = 1.00"; bs ""; bs "VMODE = NTSC"] [] (bs " ") (bs " ") (bs "cdrom0:\SLUS_123.45;1") cCR [cLF].

Lemma startup_name_witness : GetStartupExecName (Some (Some sample_cnf)) 12 = Some (inr (bs "SLUS_123.45")).
Proof.
  apply (startup_name [bs "VER = 1.00"; bs ""; bs "VMODE = NTSC"] [] (bs " ") (bs " ") (bs "cdrom0") [cBSLASH] (bs "SLUS_123.45") (bs "1") cCR [cLF] 12);
    try done; try (by apply (bool_decide_unpack _)); try (by apply Nat.ltb_lt); try (by apply Nat.leb_le).
Defined.

Lemma iso_name_witness : isValidIsoName (bs "SLUS_123.45.My Game.ISO") = Some (GAME_FORMAT_OLD_ISO, 7%nat).
Proof. apply (iso_name (bs "SLUS_123.45") (bs "My Game") (bs ".ISO")); try done. by left. Defined.

(** ** Where the code falls short *)

(** A key that only begins with BOOT2 makes the parser read the path through NULL. *)
Example boot2_prefix_null : parse_cnf (bs "BOOT2X = cdrom0:\A;1" ++ [cLF]) (replicate CNF_PATH_LEN_MAX 0) = NullRead.
Proof. by vm_compute. Qed.

(** A path of 64 characters leaves the buffer without its NUL. *)
Example long_path_unterminated : exists buf, parse_cnf (bs "BOOT2=" ++ replicate 64 65 ++ [cLF]) (replicate CNF_PATH_LEN_MAX 0) = Boot buf /\ 0 ∉ buf.
Proof. eexists. split; [by vm_compute|]. by apply (bool_decide_unpack _). Qed.
