(* ===== verification/GameList.v ===== *)
(** * GameList: the list of games on a device (src/supportbase.c)

    The scan of the CD and DVD folders with its cache file games.bin, the split games of
    ul.cfg, the merge into one list, and the paths of the games of the list. A row keeps the
    raw character arrays of [base_game_info_t]; the two bytes of padding of the struct are
    zero. *)
From S2P Require Import Prelude CLib BootCnf.

Definition UL_GAME_NAME_MAX : nat := 32.
Definition ISO_GAME_NAME_MAX : nat := 160.
Definition ISO_GAME_EXTENSION_MAX : nat := 4.
Definition GAME_STARTUP_MAX : nat := 12.
Definition ISO_GAME_FNAME_MAX : nat := 164.
Definition FOLDER_SUB_MAX : nat := 128.
Definition GAME_FORMAT_USBLD : Z := 0.
Definition GAME_FORMAT_FOLDER : Z := 3.
(** the disc types of libcdvd *)
Definition SCECdPS2CD : Z := 0x12.
Definition SCECdPS2DVD : Z := 0x14.

Record base_game_info_t := Game {
  name : bytes;        (** 161 bytes *)
  startup : bytes;     (** 13 bytes *)
  extension : bytes;   (** 5 bytes *)
  parts : Z;
  media : Z;
  format : Z;
  sizeMB : Z;
}.

(** a string in an array of [n] bytes that was cleared *)
Definition arr (n : nat) (s : bytes) : bytes := s ++ replicate (n - length s) 0.
Definition set_format (parts media format : Z) (g : base_game_info_t) : base_game_info_t := Game (name g) (startup g) (extension g) parts media format 0.

(** ** The device *)

Class GameFS (W : Type) := {
  gf_readdir : W -> bytes -> option (list bytes);   (** the names [readdir] gives; [None] when [opendir] fails *)
  gf_file : W -> bytes -> option bytes;             (** the content of a file that can be opened *)
  gf_write : W -> bytes -> bytes -> W;              (** the file written anew *)
  gf_remove : W -> bytes -> W;
  gf_rename : W -> bytes -> bytes -> W;
  gf_cnf : W -> bytes -> option (option (option bytes));   (** SYSTEM.CNF of the image mounted from a file; [None] when it cannot be mounted *)
}.

(** ** games.bin *)

Definition GAME_SIZE : nat := 188.
Definition game_bytes (g : base_game_info_t) : bytes := name g ++ startup g ++ extension g ++ [parts g; media g; format g; 0; 0] ++ le_bytes 4 (sizeMB g).
Definition game_of_bytes (b : bytes) : base_game_info_t :=
  Game (take 161 b) (take 13 (drop 161 b)) (take 5 (drop 174 b)) (nth 179 b 0) (nth 180 b 0) (nth 181 b 0) (le_val (take 4 (drop 184 b))).
Fixpoint games_of (n : nat) (b : bytes) : list base_game_info_t :=
  match n with O => [] | S n => game_of_bytes (take GAME_SIZE b) :: games_of n (drop GAME_SIZE b) end.

(** the strings of a row *)
Definition g_name (g : base_game_info_t) : bytes := cstr (name g).
Definition g_startup (g : base_game_info_t) : bytes := cstr (startup g).
Definition g_ext (g : base_game_info_t) : bytes := cstr (extension g).

Section Scan.
Context {W : Type} `{!GameFS W}.
Implicit Types w : W.

(** [None] for every error *)
Definition loadISOGameListCache w (path : bytes) : option (list base_game_info_t) :=
  b ← gf_file w (path ++ bs "/games.bin");
  let count := (length b / GAME_SIZE)%nat in
  if Nat.ltb 0 count then Some (games_of count b) else None.

(** the row of the list is compared with the row of the cache at the index of the list, for
    every index of the cache; [behind] is what lies behind the cache in memory *)
Definition same_file (g h : base_game_info_t) : bool :=
  strneq (g_name g) (g_name h) (ISO_GAME_NAME_MAX + 1) && strneq (g_ext g) (g_ext h) (ISO_GAME_EXTENSION_MAX + 1).
Definition row_cached (behind : nat -> base_game_info_t) (cache : list base_game_info_t) (i : nat) (g : base_game_info_t) : bool :=
  existsb (fun _ => same_file (default (behind i) (cache !! i)) g) cache.

Definition list_modified (behind : nat -> base_game_info_t) (cache : option (list base_game_info_t)) (head : list base_game_info_t) (count : nat) : bool :=
  let some := negb (bool_decide (head = [])) && Nat.ltb 0 count in
  match cache with
  | Some c => some && (negb (forallb (fun '(i, g) => row_cached behind c i g) (imap pair (take count head))) || negb (Nat.eqb count (length c)))
  | None => some
  end.

Definition updateISOGameList (behind : nat -> base_game_info_t) w (path : bytes) (cache : option (list base_game_info_t)) (head : list base_game_info_t) (count : nat) : W :=
  if list_modified behind cache head count then
    if negb (bool_decide (head = [])) && Nat.ltb 0 count then gf_write w (path ++ bs "/games.bin") (concat (map game_bytes (take count head)))
    else gf_remove w (path ++ bs "/games.bin")
  else w.

Definition queryISOGameListCache (cache : list base_game_info_t) (filename : bytes) : option base_game_info_t :=
  head (base.filter (fun g => filename = bufcpy (ISO_GAME_FNAME_MAX + 1) (g_name g ++ g_ext g)) cache).

(** ** One directory *)

(** the row of a file: its format, and the file mounted when neither the name nor the cache
    tells the startup name *)
Definition scan_file w (cache : option (list base_game_info_t)) (fullpath d_name : bytes) (fmt : Z) (NameLen : nat) : option base_game_info_t :=
  if fmt =? GAME_FORMAT_OLD_ISO then
    Some (Game (arr 161 (take NameLen (drop GAME_STARTUP_MAX d_name))) (arr 13 (take (GAME_STARTUP_MAX - 1) d_name))
               (arr 5 (take ISO_GAME_EXTENSION_MAX (drop (GAME_STARTUP_MAX + NameLen) d_name))) 0 0 0 0)
  else
    match c ← cache; queryISOGameListCache c d_name with
    | Some g => Some g
    | None =>
      file ← gf_cnf w fullpath;
      match GetStartupExecName file (GAME_STARTUP_MAX - 1) with
      | Some (inr s) => Some (Game (arr 161 (take NameLen d_name)) (arr 13 s) (arr 5 (take ISO_GAME_EXTENSION_MAX (drop NameLen d_name))) 0 0 0 0)
      | _ => None
      end
    end.

Definition folder_row (type : Z) (d_name : bytes) : base_game_info_t := Game (arr 161 (take ISO_GAME_NAME_MAX d_name)) (arr 13 []) (arr 5 []) 0 type GAME_FORMAT_FOLDER 0.

(** what an entry of the directory adds: a game, a folder, or nothing *)
Inductive found := FGame (g : base_game_info_t) | FFolder (g : base_game_info_t) | FNone.

Definition scan_entry w (cache : option (list base_game_info_t)) (path : bytes) (type : Z) (folders : bool) (d_name : bytes) : found :=
  let fullpath := path ++ bs "/" ++ d_name in
  match isValidIsoName d_name with
  | Some (fmt, NameLen) =>
    if (NameLen <=? ISO_GAME_NAME_MAX)%nat then
      if (256 <=? length fullpath)%nat then FNone
      else match scan_file w cache fullpath d_name fmt NameLen with
           | Some g => FGame (set_format 1 type fmt g)
           | None => FNone
           end
    else if folders && negb (nth 0 d_name 0 =? cDOT) && (length d_name <=? ISO_GAME_NAME_MAX)%nat && (length fullpath <? 256)%nat && bool_decide (is_Some (gf_readdir w fullpath))
         then FFolder (folder_row type d_name) else FNone
  | None =>
    if folders && negb (nth 0 d_name 0 =? cDOT) && (length d_name <=? ISO_GAME_NAME_MAX)%nat && (length fullpath <? 256)%nat && bool_decide (is_Some (gf_readdir w fullpath))
    then FFolder (folder_row type d_name) else FNone
  end.

(** the two lists grow at their heads *)
Fixpoint scan_entries w cache path type folders (names : list bytes) (glist folderlist : list base_game_info_t) (count : nat) : list base_game_info_t * list base_game_info_t * nat :=
  match names with
  | [] => (glist, folderlist, count)
  | d :: names =>
    match scan_entry w cache path type folders d with
    | FGame g => scan_entries w cache path type folders names (g :: glist) folderlist (S count)
    | FFolder g => scan_entries w cache path type folders names glist (g :: folderlist) count
    | FNone => scan_entries w cache path type folders names glist folderlist count
    end
  end.

(** [None] when the directory could not be opened *)
Definition scanForISO (behind : nat -> base_game_info_t) w (path : bytes) (type : Z) (folders : bool) (glist folderlist : list base_game_info_t) :
  option nat * list base_game_info_t * list base_game_info_t * W :=
  let cache := loadISOGameListCache w path in
  match gf_readdir w path with
  | None => (None, glist, folderlist, w)
  | Some names =>
    if (255 <=? length path)%nat then (Some 0%nat, glist, folderlist, w)
    else let '(glist, folderlist, count) := scan_entries w cache path type folders names glist folderlist 0 in
         (Some count, glist, folderlist, updateISOGameList behind w path cache glist count)
  end.
End Scan.

(** ** Folders *)

(** the rows behind the first with its name, upper and lower case alike, go *)
Definition same_folder (a b : base_game_info_t) : bool := strcaseeq (g_name b) (g_name a).
Fixpoint dedup (fuel : nat) (l : list base_game_info_t) : list base_game_info_t :=
  match fuel, l with
  | S fuel, a :: l => a :: dedup fuel (base.filter (fun b => same_folder a b = false) l)
  | _, _ => []
  end.
Definition sbDedupFolderList (l : list base_game_info_t) : list base_game_info_t := dedup (length l) l.

(** ** ul.cfg *)

Definition UL_SIZE : nat := 64.
(** the row of a record of 64 bytes: name, "ul.", startup, parts, media, zeros *)
Definition ul_row (e : bytes) : base_game_info_t :=
  Game (arr 161 (take 32 e)) (arr 13 (take 12 (drop 35 e))) (arr 5 []) (nth 47 e 0) (nth 48 e 0) GAME_FORMAT_USBLD 0.

(** the loop [while (size > 0)]: a last part of a record overwrites the front of the buffer
    only *)
Fixpoint ul_rows (fuel : nat) (b GameEntry : bytes) : list base_game_info_t :=
  match fuel, b with
  | S fuel, _ :: _ => let GameEntry := take UL_SIZE b ++ drop (length (take UL_SIZE b)) GameEntry in ul_row GameEntry :: ul_rows fuel (drop UL_SIZE b) GameEntry
  | _, _ => []
  end.

Definition ul_bytes (g : base_game_info_t) : bytes :=
  take 32 (name g) ++ bs "ul." ++ take 12 (startup g) ++ [parts g; media g; 0; 0; 0; 0; 8] ++ replicate 10 0.
(** the rows in their order but for the excluded one *)
Definition ul_kept (excludeID : Z) (l : list base_game_info_t) : list base_game_info_t :=
  map snd (base.filter (fun x => format x.2 = GAME_FORMAT_USBLD /\ Z.of_nat x.1 <> excludeID) (imap pair l)).

Section Read.
Context {W : Type} `{!GameFS W}.
Implicit Types w : W.

(** the list is read again when the size of ul.cfg changed *)
Definition sbIsSameSize w (prefix : bytes) (prevSize : Z) : bool :=
  from_option (fun b => Z.of_nat (length b)) (-1) (gf_file w (bufcpy 256 (prefix ++ bs "ul.cfg"))) =? prevSize.

Definition sbRebuildULCfg w (l : list base_game_info_t) (prefix : bytes) (excludeID : Z) : W :=
  gf_write w (bufcpy 256 (prefix ++ bs "ul.cfg")) (concat (map ul_bytes (ul_kept excludeID l))).

(** ** The list *)

(** the caller's list, the size of ul.cfg it was made from, and its count *)
Record game_list := GList { gl_rows : list base_game_info_t; gl_fsize : Z; gl_count : Z }.

(** the array of [total] rows: the rows of ul.cfg first, then the games, then the folders, as
    far as there is room; [None] when the rows of ul.cfg do not fit *)
Definition merge (ul dlist folders : list base_game_info_t) (total : nat) : option (list base_game_info_t) :=
  if (length ul <=? total)%nat then Some (take total (ul ++ dlist ++ folders)) else None.

(** the subpath of the paths that follow *)
Definition sbSetBrowseSub (sub : option bytes) : bytes := bufcpy FOLDER_SUB_MAX (default [] sub).

(** [junk] is what the buffer of a record holds before the first is read *)
Definition sbReadList (behind : nat -> base_game_info_t) (junk : bytes) (gEnableFolderNav : bool) w (old : game_list) (prefix : bytes) (sub : option bytes) : option (game_list * W) :=
  let atRoot := bool_decide (default [] sub = []) in
  let folders := gEnableFolderNav && bool_decide (is_Some sub) in
  let dir d := bufcpy 256 (if atRoot then prefix ++ d else prefix ++ d ++ bs "/" ++ default [] sub) in
  let '(cdRet, dlist, flist, w) := scanForISO behind w (dir (bs "CD")) SCECdPS2CD folders [] [] in
  let '(dvdRet, dlist, flist, w) := scanForISO behind w (dir (bs "DVD")) SCECdPS2DVD folders dlist flist in
  let count := (default 0 cdRet + default 0 dvdRet)%nat in
  let flist := sbDedupFolderList flist in
  let ulcfg := if atRoot then gf_file w (bufcpy 256 (prefix ++ bs "ul.cfg")) else None in
  match cdRet, dvdRet, ulcfg with
  | None, None, None => Some (old, w)
  | _, _, _ =>
    let size := length (default [] ulcfg) in
    let total := (count + size / UL_SIZE + length flist)%nat in
    let fsize := from_option (fun b => Z.of_nat (length b)) (-1) ulcfg in
    if Nat.eqb total 0 then Some (GList [] fsize 0, w)
    else
      rows ← merge (ul_rows (S size) (default [] ulcfg) junk) dlist flist total;
      Some (GList rows fsize (Z.of_nat total), w)
  end.
End Read.

(** ** Paths *)

(** [USBA_crc32] (src/system.c): the table and the loop; an [int] is negative when its top
    bit is set *)
Fixpoint crc_bits (n : nat) (crc : Z) : Z :=
  match n with
  | O => crc
  | S n => crc_bits n (if 2 ^ 31 <=? crc then u32 (Z.shiftl crc 1) else Z.lxor (u32 (Z.shiftl crc 1)) 0x04C11DB7)
  end.
(** [crctab[i]] is made from the table number [255 - i] *)
Definition crctab (i : Z) : Z := crc_bits 8 (u32 (Z.shiftl (255 - i) 24)).
Definition crc_byte (crc byte : Z) : Z := Z.lxor (crctab (Z.lxor byte (Z.land (Z.shiftr crc 24) 0xFF))) (u32 (Z.shiftl crc 8)).
(** the string with its NUL, and at most 33 bytes *)
Definition USBA_crc32 (s : bytes) : Z := fold_left crc_byte (take 33 (s ++ [0])) (crctab 0).

(** "%08X" and "%02x" *)
Definition hex_digits (digit : Z -> Z) (n : nat) (v : Z) : bytes := map (fun k => digit (Z.land (Z.shiftr v (4 * Z.of_nat k)) 15)) (rev (List.seq 0 n)).
Definition lower_digit (d : Z) : Z := if d <? 10 then 48 + d else 87 + d.
Definition fmt_08X (v : Z) : bytes := hex_digits hex_digit 8 v.
Definition fmt_02x (v : Z) : bytes := hex_digits lower_digit 2 v.

Definition media_dir (g : base_game_info_t) : bytes := if media g =? SCECdPS2CD then bs "CD" else bs "DVD".

Definition sbCreatePath_name (sbBrowseSub : bytes) (g : base_game_info_t) (prefix sep : bytes) (part : Z) (game_name : bytes) : bytes :=
  let subseg := if bool_decide (sbBrowseSub = []) then [] else bufcpy (FOLDER_SUB_MAX + 2) (sbBrowseSub ++ sep) in
  if format g =? GAME_FORMAT_USBLD then bufcpy 256 (prefix ++ bs "ul." ++ fmt_08X (USBA_crc32 game_name) ++ bs "." ++ g_startup g ++ bs "." ++ fmt_02x part)
  else if format g =? GAME_FORMAT_ISO then bufcpy 256 (prefix ++ media_dir g ++ sep ++ subseg ++ game_name ++ g_ext g)
  else if format g =? GAME_FORMAT_OLD_ISO then bufcpy 256 (prefix ++ media_dir g ++ sep ++ subseg ++ g_startup g ++ bs "." ++ game_name ++ g_ext g)
  else [].
Definition sbCreatePath (sbBrowseSub : bytes) (g : base_game_info_t) (prefix sep : bytes) (part : Z) : bytes := sbCreatePath_name sbBrowseSub g prefix sep part (g_name g).

Section Edit.
Context {W : Type} `{!GameFS W}.
Implicit Types w : W.

Fixpoint each_part (n : nat) (part : Z) (f : W -> Z -> W) w : W := match n with O => w | S n => each_part n (part + 1) f (f w part) end.

Definition sbDelete w (sbBrowseSub : bytes) (l : list base_game_info_t) (prefix sep : bytes) (id : nat) : option W :=
  game ← l !! id;
  let w := each_part (Z.to_nat (parts game)) 0 (fun w part => gf_remove w (sbCreatePath sbBrowseSub game prefix sep part)) w in
  Some (if format game =? GAME_FORMAT_USBLD then sbRebuildULCfg w l prefix (Z.of_nat id) else w).

(** [newname] with its NUL and what lies behind it *)
Definition sbRename w (sbBrowseSub : bytes) (l : list base_game_info_t) (prefix sep : bytes) (id : nat) (newname behind : bytes) : option (list base_game_info_t * W) :=
  game ← l !! id;
  let path := sbCreatePath_name sbBrowseSub game prefix sep in
  let w := each_part (Z.to_nat (parts game)) 0 (fun w part => gf_rename w (path part (g_name game)) (path part newname)) w in
  if format game =? GAME_FORMAT_USBLD then
    let nm := take UL_GAME_NAME_MAX (newname ++ [0] ++ behind) in
    let game := Game (nm ++ replicate (33 - length nm) 0 ++ drop 33 (name game)) (startup game) (extension game) (parts game) (media game) (format game) (sizeMB game) in
    let l := <[id := game]> l in
    Some (l, sbRebuildULCfg w l prefix (-1))
  else Some (l, w).
End Edit.

(** ** Lemmas *)

Lemma cstr_arr n s : cstring s -> (length s < n)%nat -> cstr (arr n s) = s.
Proof.
  intros Hs Hl. unfold arr. destruct (n - length s)%nat as [|k] eqn:E; [lia|]. cbn [replicate]. by apply cstr_app_nul.
Qed.

Lemma arr_length n s : (length s <= n)%nat -> length (arr n s) = n.
Proof. intros H. unfold arr. rewrite length_app, length_replicate. lia. Qed.

(** *** The names that are taken *)

Lemma iso_name_parts d fmt n : isValidIsoName d = Some (fmt, n) ->
  (fmt = GAME_FORMAT_OLD_ISO /\ (17 <= length d)%nat /\ n = (length d - 16)%nat /\ nth 11 d 0 = cDOT) \/ (fmt = GAME_FORMAT_ISO /\ (5 <= length d)%nat /\ n = (length d - 4)%nat).
Proof.
  unfold isValidIsoName. destruct (Nat.ltb_spec (length d) 5) as [|Hl]; [done|]. destruct (_ || _); [|done].
  destruct (Nat.leb_spec 17 (length d)) as [H17|]; cbn [andb]; [|intros [= <- <-]; by right].
  destruct (nth 4 d 0 =? cUSCORE); cbn [andb]; [|intros [= <- <-]; by right]. destruct (nth 8 d 0 =? cDOT); cbn [andb]; [|intros [= <- <-]; by right].
  destruct (Z.eqb_spec (nth 11 d 0) cDOT) as [E|]; intros [= <- <-]; [by left|by right].
Qed.

(** rows whose arrays hold strings *)
Definition row_wf (g : base_game_info_t) : Prop := (length (g_name g) <= ISO_GAME_NAME_MAX)%nat /\ (length (g_ext g) <= ISO_GAME_EXTENSION_MAX)%nat.

Lemma query_name cache d g : Forall row_wf cache -> queryISOGameListCache cache d = Some g -> g_name g ++ g_ext g = d.
Proof.
  intros Hw Hq. unfold queryISOGameListCache in Hq. apply head_Some_elem_of, list_elem_of_filter in Hq as [Ed Hin]. rewrite Forall_forall in Hw. destruct (Hw g Hin) as [H1 H2].
  rewrite bufcpy_id in Ed; [done|]. rewrite length_app. unfold ISO_GAME_NAME_MAX, ISO_GAME_EXTENSION_MAX, ISO_GAME_FNAME_MAX in *. lia.
Qed.

(** *** What a scan adds *)

Section Scan.
Context {W : Type} `{!GameFS W} (w : W) (path : bytes) (type : Z).

(** the file a row stands for *)
Definition names_file (g : base_game_info_t) (d : bytes) : Prop :=
  media g = type /\ parts g = 1 /\
  (format g = GAME_FORMAT_ISO /\ g_name g ++ g_ext g = d \/ format g = GAME_FORMAT_OLD_ISO /\ g_startup g ++ bs "." ++ g_name g ++ g_ext g = d).

Lemma scan_entry_file cache folders d g : (forall c, cache = Some c -> Forall row_wf c) -> cstring d -> scan_entry w cache path type folders d = FGame g ->
  names_file g d /\ (length (path ++ bs "/" ++ d) < 256)%nat.
Proof.
  intros Hc Hd H. unfold scan_entry in H. destruct (isValidIsoName d) as [[fmt n]|] eqn:Ev; [|by destruct (_ && _)]. destruct (Nat.leb_spec n ISO_GAME_NAME_MAX) as [Hn|]; [|by destruct (_ && _)].
  destruct (Nat.leb_spec 256 (length (path ++ bs "/" ++ d))) as [|Hlen]; [done|]. destruct (scan_file _ _ _ _ _ _) as [g0|] eqn:Es; [|done]. injection H as <-. split; [|done].
  unfold scan_file in Es. unfold ISO_GAME_NAME_MAX in Hn. apply iso_name_parts in Ev as [(-> & H17 & -> & Edot)|(-> & H5 & ->)].
  - change (GAME_FORMAT_OLD_ISO =? GAME_FORMAT_OLD_ISO) with true in Es. cbn iota in Es. injection Es as <-. split; [done|]. split; [done|]. right. split; [done|]. unfold g_startup, g_name, g_ext, set_format. cbn [name startup extension].
    unfold GAME_STARTUP_MAX, ISO_GAME_EXTENSION_MAX. rewrite !cstr_arr; try (by repeat first [apply cstring_take|apply cstring_drop]); try (rewrite ?length_take, ?length_drop; lia).
    assert (Ed : d = take 11 d ++ [cDOT] ++ drop 12 d).
    { rewrite <- (take_drop 11 d) at 1. f_equal. assert (Hlk : is_Some (d !! 11%nat)) by (apply lookup_lt_is_Some_2; lia). destruct Hlk as [c Hlk]. rewrite (drop_S d c 11 Hlk). cbn. f_equal.
      apply (nth_lookup_Some _ _ 0) in Hlk. congruence. }
    replace (bs ".") with [cDOT] by done. rewrite (take_ge (drop (12 + (length d - 16)) d)) by (rewrite length_drop; lia).
    rewrite <- (drop_drop d (length d - 16) 12), take_drop. symmetry. exact Ed.
  - change (GAME_FORMAT_ISO =? GAME_FORMAT_OLD_ISO) with false in Es. cbn iota in Es. destruct (c ← cache; queryISOGameListCache c d) as [g1|] eqn:Eq.
    + injection Es as <-. destruct cache as [c|]; [|done]. cbn [mbind option_bind] in Eq. split; [done|]. split; [done|]. left. split; [done|]. exact (query_name c d g1 (Hc c eq_refl) Eq).
    + destruct (gf_cnf w _) as [file|]; [|done]. cbn [mbind option_bind] in Es. destruct (GetStartupExecName file _) as [[r|s]|]; [done| |done]. injection Es as <-.
      split; [done|]. split; [done|]. left. split; [done|]. unfold g_name, g_ext, set_format. cbn [name extension]. unfold ISO_GAME_EXTENSION_MAX.
      rewrite !cstr_arr; try (by repeat first [apply cstring_take|apply cstring_drop]); try (rewrite ?length_take, ?length_drop; lia).
      rewrite (take_ge (drop _ d)) by (rewrite length_drop; lia). apply take_drop.
Qed.

Lemma scan_entries_spec cache folders : (forall c, cache = Some c -> Forall row_wf c) -> forall names gl fl n, Forall cstring names ->
  let '(gl', fl', n') := scan_entries w cache path type folders names gl fl n in
  (length gl' + n = length gl + n')%nat /\ (forall g, g ∈ gl' -> g ∈ gl \/ exists d, d ∈ names /\ names_file g d /\ (length (path ++ bs "/" ++ d) < 256)%nat).
Proof.
  intros Hc. induction names as [|d names IH]; intros gl fl n Hn; cbn [scan_entries]; [split; [done|]; by left|]. apply Forall_cons in Hn as [Hd Hn].
  destruct (scan_entry w cache path type folders d) as [g|g|] eqn:E.
  - specialize (IH (g :: gl) fl (S n) Hn). destruct (scan_entries _ _ _ _ _ _ _ _ _) as [[gl' fl'] n']. destruct IH as [Hlen Hin]. cbn [length] in Hlen. split; [lia|]. intros h Hh.
    destruct (Hin h Hh) as [[->|H]%elem_of_cons|(d' & Hd' & H)]; [|by left|].
    + right. exists d. split; [by left|]. by eapply scan_entry_file.
    + right. exists d'. split; [by right|done].
  - specialize (IH gl (g :: fl) n Hn). destruct (scan_entries _ _ _ _ _ _ _ _ _) as [[gl' fl'] n']. destruct IH as [Hlen Hin]. split; [done|]. intros h Hh.
    destruct (Hin h Hh) as [H|(d' & Hd' & H)]; [by left|]. right. exists d'. split; [by right|done].
  - specialize (IH gl fl n Hn). destruct (scan_entries _ _ _ _ _ _ _ _ _) as [[gl' fl'] n']. destruct IH as [Hlen Hin]. split; [done|]. intros h Hh.
    destruct (Hin h Hh) as [H|(d' & Hd' & H)]; [by left|]. right. exists d'. split; [by right|done].
Qed.
End Scan.

(** *** The list is what the scans and ul.cfg say *)

Definition game_of (f : found) : option base_game_info_t := match f with FGame g => Some g | _ => None end.
Definition folder_of (f : found) : option base_game_info_t := match f with FFolder g => Some g | _ => None end.

Section Built.
Context {W : Type} `{!GameFS W}.
Implicit Types w : W.

(** the entries of a directory that is read, in the order they are read *)
Definition dir_found w (path : bytes) (type : Z) (folders : bool) : list found :=
  if (255 <=? length path)%nat then [] else map (scan_entry w (loadISOGameListCache w path) path type folders) (default [] (gf_readdir w path)).
(** the last entry read is the first of the list *)
Definition dir_games w path type folders : list base_game_info_t := rev (omap game_of (dir_found w path type folders)).
Definition dir_folders w path type folders : list base_game_info_t := rev (omap folder_of (dir_found w path type folders)).
(** the device after the directory was scanned *)
Definition scanned (behind : nat -> base_game_info_t) w path type folders : W :=
  if bool_decide (is_Some (gf_readdir w path)) && (length path <? 255)%nat then
    let games := dir_games w path type folders in updateISOGameList behind w path (loadISOGameListCache w path) games (length games)
  else w.

Lemma scan_entries_exact w cache path type folders : forall names gl fl n,
  let fs := map (scan_entry w cache path type folders) names in
  scan_entries w cache path type folders names gl fl n = (rev (omap game_of fs) ++ gl, rev (omap folder_of fs) ++ fl, (length (omap game_of fs) + n)%nat).
Proof.
  induction names as [|d names IH]; intros gl fl n; [done|]. cbn [scan_entries map]. cbn zeta in IH.
  destruct (scan_entry w cache path type folders d) as [g|g|]; rewrite IH; cbn [omap list_omap game_of folder_of rev length]; rewrite <- ?app_assoc; cbn [app]; (f_equal; lia).
Qed.

Lemma update_of_scan behind w path cache (games tl : list base_game_info_t) :
  updateISOGameList behind w path cache (games ++ tl) (length games) = updateISOGameList behind w path cache games (length games).
Proof.
  unfold updateISOGameList, list_modified. rewrite take_app_length. rewrite (take_ge games) by lia. destruct games as [|g games]; [|done].
  cbn [length Nat.ltb Nat.leb]. rewrite !andb_false_r. by destruct cache.
Qed.

Lemma scanForISO_exact behind w path type folders gl fl :
  scanForISO behind w path type folders gl fl =
    (match gf_readdir w path with None => None | Some _ => Some (length (dir_games w path type folders)) end,
     dir_games w path type folders ++ gl, dir_folders w path type folders ++ fl, scanned behind w path type folders).
Proof.
  unfold scanForISO, scanned, dir_games, dir_folders, dir_found. destruct (gf_readdir w path) as [names|]; cbn [default from_option]; [|by destruct (_ <=? _)%nat].
  destruct (Nat.leb_spec 255 (length path)) as [H|H].
  - rewrite (proj2 (Nat.ltb_ge _ _)) by done. by rewrite andb_false_r.
  - rewrite (proj2 (Nat.ltb_lt _ _)) by done. rewrite bool_decide_true by done. cbn [andb]. rewrite scan_entries_exact. cbn zeta beta iota. rewrite Nat.add_0_r.
    set (gs := omap game_of _). rewrite <- (length_rev gs). by rewrite update_of_scan.
Qed.
End Built.

(** *** Folders *)

Definition lower_name (g : base_game_info_t) : bytes := map tolower (g_name g).

Lemma same_folder_spec a b : same_folder a b = true <-> lower_name a = lower_name b.
Proof. unfold same_folder, strcaseeq, lower_name. rewrite bool_decide_eq_true. naive_solver. Qed.
Lemma same_folder_false a b : same_folder a b = false <-> lower_name a <> lower_name b.
Proof. rewrite <- same_folder_spec. by destruct (same_folder a b). Qed.

Lemma dedup_spec : forall fuel l, (length l <= fuel)%nat ->
  NoDup (map lower_name (dedup fuel l)) /\ (forall g, g ∈ dedup fuel l -> g ∈ l) /\ (forall g, g ∈ l -> exists h, h ∈ dedup fuel l /\ lower_name h = lower_name g).
Proof.
  induction fuel as [|fuel IH]; intros l Hl.
  - destruct l; cbn in Hl; [|lia]. cbn. split; [constructor|]. split; [done|]. intros g Hg. inversion Hg.
  - destruct l as [|a l]; cbn [dedup]; [split; [constructor|]; split; [done|]; intros g Hg; inversion Hg|]. cbn in Hl.
    assert (Hf := length_filter (fun b => same_folder a b = false) l). destruct (IH (base.filter (fun b => same_folder a b = false) l)) as (Hd & Hin & Hrep); [lia|]. split; [|split].
    + cbn [map]. constructor; [|done]. intros (b & Eb & Hb)%list_elem_of_fmap. apply Hin, list_elem_of_filter in Hb as [Hb _]. by apply same_folder_false in Hb.
    + intros g [->|Hg]%elem_of_cons; [by left|]. apply Hin, list_elem_of_filter in Hg as [_ Hg]. by right.
    + intros g [->|Hg]%elem_of_cons; [exists a; split; [by left|done]|]. destruct (same_folder a g) eqn:E; [exists a; split; [by left|by apply same_folder_spec]|].
      destruct (Hrep g) as (h & Hh & Eh); [by apply list_elem_of_filter|]. exists h. split; [by right|done].
Qed.

(** *** ul.cfg *)

Fixpoint records (n : nat) (b : bytes) : list bytes := match n with O => [] | S n => take UL_SIZE b :: records n (drop UL_SIZE b) end.

Lemma records_length n b : length (records n b) = n.
Proof. revert b. induction n as [|n IH]; intros b; [done|]. cbn [records length]. by rewrite IH. Qed.

Lemma ul_rows_exact : forall n fuel b junk, length b = (n * UL_SIZE)%nat -> (length junk <= UL_SIZE)%nat -> (n < fuel)%nat -> ul_rows fuel b junk = map ul_row (records n b).
Proof.
  induction n as [|n IH]; intros [|fuel] b junk Hb Hj Hf; try lia; [destruct b; [done|cbn in Hb; lia]|].
  assert (Ht : length (take UL_SIZE b) = UL_SIZE) by (rewrite length_take; unfold UL_SIZE in *; lia).
  destruct b as [|c b]; [unfold UL_SIZE in Hb; cbn in Hb; lia|]. cbn [ul_rows records map]. rewrite Ht. rewrite (drop_ge junk), app_nil_r by done. f_equal. apply IH; [rewrite length_drop; unfold UL_SIZE in *; lia|rewrite Ht; done|lia].
Qed.

Section Built2.
Context {W : Type} `{!GameFS W}.
Implicit Types w : W.

Definition browse_dir (prefix dir : bytes) (sub : option bytes) : bytes := bufcpy 256 (if bool_decide (default [] sub = []) then prefix ++ dir else prefix ++ dir ++ bs "/" ++ default [] sub).

(** what the three places of a device hold: ul.cfg only at the root *)
Definition listed (games_cd games_dvd folders : list base_game_info_t) (ulcfg : option bytes) : game_list :=
  let ul := default [] ulcfg in
  let rows := map ul_row (records (length ul / UL_SIZE) ul) ++ games_dvd ++ games_cd ++ sbDedupFolderList folders in
  GList rows (from_option (fun b => Z.of_nat (length b)) (-1) ulcfg) (Z.of_nat (length rows)).

Lemma unread_dir w path type folders : gf_readdir w path = None -> dir_games w path type folders = [] /\ dir_folders w path type folders = [].
Proof. intros E. unfold dir_games, dir_folders, dir_found. rewrite E. by destruct (_ <=? _)%nat. Qed.

Lemma read_list_exact behind junk nav w old prefix sub :
  let nav' := nav && bool_decide (is_Some sub) in
  let cd := browse_dir prefix (bs "CD") sub in
  let dvd := browse_dir prefix (bs "DVD") sub in
  let w1 := scanned behind w cd SCECdPS2CD nav' in
  let w2 := scanned behind w1 dvd SCECdPS2DVD nav' in
  let ulcfg := if bool_decide (default [] sub = []) then gf_file w2 (bufcpy 256 (prefix ++ bs "ul.cfg")) else None in
  (length (default [] ulcfg) mod UL_SIZE = 0)%nat -> (length junk <= UL_SIZE)%nat ->
  sbReadList behind junk nav w old prefix sub =
    Some (if bool_decide (gf_readdir w cd = None /\ gf_readdir w1 dvd = None /\ ulcfg = None) then (old, w2)
          else (listed (dir_games w cd SCECdPS2CD nav') (dir_games w1 dvd SCECdPS2DVD nav') (dir_folders w1 dvd SCECdPS2DVD nav' ++ dir_folders w cd SCECdPS2CD nav') ulcfg, w2)).
Proof.
  cbn zeta. unfold sbReadList. fold (browse_dir prefix (bs "CD") sub). fold (browse_dir prefix (bs "DVD") sub).
  set (nav' := nav && _). set (cd := browse_dir _ (bs "CD") _). set (dvd := browse_dir _ (bs "DVD") _). rewrite (scanForISO_exact behind w cd). cbn zeta beta iota.
  set (w1 := scanned behind w cd _ _). rewrite (scanForISO_exact behind w1 dvd). cbn zeta beta iota. set (w2 := scanned behind w1 dvd _ _). rewrite !app_nil_r.
  set (fl := dir_folders w1 dvd _ _ ++ _). set (gc := dir_games w cd _ _). set (gd := dir_games w1 dvd _ _). intros Hm Hj.
  assert (Hc : default 0%nat (match gf_readdir w cd with Some _ => Some (length gc) | None => None end) = length gc).
  { destruct (gf_readdir w cd) eqn:E; [done|]. destruct (unread_dir w cd SCECdPS2CD nav' E) as [E1 _]. unfold gc. by rewrite E1. }
  assert (Hd : default 0%nat (match gf_readdir w1 dvd with Some _ => Some (length gd) | None => None end) = length gd).
  { destruct (gf_readdir w1 dvd) eqn:E; [done|]. destruct (unread_dir w1 dvd SCECdPS2DVD nav' E) as [E1 _]. unfold gd. by rewrite E1. }
  rewrite Hc, Hd. clear Hc Hd. set (ulcfg := if bool_decide _ then _ else _) in *. clearbody ulcfg.
  assert (Hrest : forall total, total = (length gc + length gd + length (default [] ulcfg) / UL_SIZE + length (sbDedupFolderList fl))%nat ->
    (if Nat.eqb total 0 then Some (GList [] (from_option (fun b => Z.of_nat (length b)) (-1) ulcfg) 0, w2)
     else rows ← merge (ul_rows (S (length (default [] ulcfg))) (default [] ulcfg) junk) (gd ++ gc) (sbDedupFolderList fl) total;
          Some (GList rows (from_option (fun b => Z.of_nat (length b)) (-1) ulcfg) (Z.of_nat total), w2)) = Some (listed gc gd fl ulcfg, w2)).
  { intros total ->. unfold listed. set (ul := default [] ulcfg) in *. set (n := (length ul / UL_SIZE)%nat).
    assert (Hn : length ul = (n * UL_SIZE)%nat) by (pose proof (Nat.div_mod_eq (length ul) UL_SIZE); unfold n; lia).
    assert (Hlt : (n <= length ul)%nat) by (rewrite Hn; unfold UL_SIZE; lia).
    rewrite (ul_rows_exact n) by (done || lia). set (rows := map ul_row (records n ul) ++ _).
    assert (Hr : length rows = (length gc + length gd + n + length (sbDedupFolderList fl))%nat) by (unfold rows; rewrite !length_app, length_map, records_length; lia).
    rewrite <- Hr. destruct (Nat.eqb_spec (length rows) 0) as [E|_]; [apply nil_length_inv in E; by rewrite E|].
    unfold merge. rewrite (proj2 (Nat.leb_le _ _)) by (rewrite length_map, records_length; lia). cbn [mbind option_bind].
    rewrite <- (app_assoc gd gc). fold rows. by rewrite (take_ge rows) by lia. }
  specialize (Hrest _ eq_refl). destruct (gf_readdir w cd), (gf_readdir w1 dvd), ulcfg as [ul|]; cbn [default from_option] in *; try (rewrite bool_decide_false by naive_solver; exact Hrest).
  by rewrite bool_decide_true by done.
Qed.
End Built2.

(** *** The path of a listed game *)

Section Paths.
Context {W : Type} `{!GameFS W}.
Implicit Types w : W.

(** a device whose directories hold strings, and whose games.bin, if any, holds rows *)
Definition clean w : Prop :=
  (forall path names, gf_readdir w path = Some names -> Forall cstring names) /\ (forall path c, loadISOGameListCache w path = Some c -> Forall row_wf c).

Lemma dir_games_file w path type folders g : clean w -> g ∈ dir_games w path type folders ->
  exists d, d ∈ default [] (gf_readdir w path) /\ names_file type g d /\ (length (path ++ bs "/" ++ d) < 256)%nat /\ (length path < 255)%nat.
Proof.
  intros [Hn Hc] Hg. unfold dir_games, dir_found in Hg. destruct (Nat.leb_spec 255 (length path)) as [|Hl]; [inversion Hg|].
  apply list_elem_of_In, in_rev, list_elem_of_In, list_elem_of_omap in Hg as (f & Hf & Ef). apply list_elem_of_fmap in Hf as (d & -> & Hd). exists d. split; [done|].
  assert (Hs : cstring d) by (destruct (gf_readdir w path) as [names|] eqn:E; [specialize (Hn _ _ E); rewrite Forall_forall in Hn; by apply Hn|inversion Hd]).
  destruct (scan_entry w _ path type folders d) as [g0| |] eqn:E; [|done|done]. injection Ef as ->. destruct (scan_entry_file w path type _ folders d g (Hc path) Hs E) as [H1 H2]. done.
Qed.

Lemma browse_dir_full prefix dir sub : (length (browse_dir prefix dir sub) < 255)%nat ->
  browse_dir prefix dir sub = prefix ++ dir ++ (if bool_decide (default [] sub = []) then [] else bs "/" ++ default [] sub).
Proof.
  unfold browse_dir, bufcpy. rewrite length_take. intros H. rewrite take_ge by (destruct (bool_decide _); lia). destruct (bool_decide _); [by rewrite app_nil_r|done].
Qed.

(** the path composed for a game is the path its file was found at *)
Lemma path_of_file g d prefix dir sub part : names_file (media g) g d -> media_dir g = dir -> (length (default [] sub) < FOLDER_SUB_MAX)%nat ->
  (length (browse_dir prefix dir sub) < 255)%nat -> (length (browse_dir prefix dir sub ++ bs "/" ++ d) < 256)%nat ->
  sbCreatePath (sbSetBrowseSub sub) g prefix (bs "/") part = browse_dir prefix dir sub ++ bs "/" ++ d.
Proof.
  intros (_ & _ & Hf) Hdir Hsub Hl Hlen. rewrite (browse_dir_full _ _ _ Hl) in *. unfold sbSetBrowseSub, sbCreatePath, sbCreatePath_name. rewrite (bufcpy_id FOLDER_SUB_MAX) by done. rewrite Hdir.
  set (s := default [] sub) in *. set (subseg := if bool_decide (s = []) then _ else _).
  assert (Es : bs "/" ++ subseg = (if bool_decide (s = []) then [] else bs "/" ++ s) ++ bs "/").
  { unfold subseg. destruct (bool_decide (s = [])); [by rewrite app_nil_r|]. rewrite bufcpy_id by (rewrite length_app; change (length (bs "/")) with 1%nat; lia). by rewrite app_assoc. }
  assert (Efull : forall x, prefix ++ dir ++ bs "/" ++ subseg ++ x = (prefix ++ dir ++ (if bool_decide (s = []) then [] else bs "/" ++ s)) ++ bs "/" ++ x).
  { intros x. rewrite (app_assoc (bs "/") subseg), Es. by rewrite <- !app_assoc. }
  destruct Hf as [[-> Ed]|[-> Ed]].
  - change (GAME_FORMAT_ISO =? GAME_FORMAT_USBLD) with false. change (GAME_FORMAT_ISO =? GAME_FORMAT_ISO) with true. cbn iota. rewrite Efull, Ed. by apply bufcpy_id.
  - change (GAME_FORMAT_OLD_ISO =? GAME_FORMAT_USBLD) with false. change (GAME_FORMAT_OLD_ISO =? GAME_FORMAT_ISO) with false. change (GAME_FORMAT_OLD_ISO =? GAME_FORMAT_OLD_ISO) with true. cbn iota.
    rewrite Efull, Ed. by apply bufcpy_id.
Qed.

Lemma ul_row_format g n b : g ∈ map ul_row (records n b) -> format g = GAME_FORMAT_USBLD.
Proof. by intros (e & -> & _)%list_elem_of_fmap. Qed.

Lemma dir_folder_format w path type folders g : g ∈ dir_folders w path type folders -> format g = GAME_FORMAT_FOLDER.
Proof.
  intros Hg. unfold dir_folders, dir_found in Hg. destruct (_ <=? _)%nat; [inversion Hg|]. apply list_elem_of_In, in_rev, list_elem_of_In, list_elem_of_omap in Hg as (f & Hf & Ef).
  apply list_elem_of_fmap in Hf as (d & -> & _). unfold scan_entry in Ef. cbn zeta in Ef. destruct (isValidIsoName d) as [[fmt n]|].
  - destruct (_ <=? _)%nat; [destruct (_ <=? _)%nat; [done|]; destruct (scan_file _ _ _ _ _ _); discriminate|]. destruct (_ && _); [|discriminate]. by injection Ef as <-.
  - destruct (_ && _); [|discriminate]. by injection Ef as <-.
Qed.
End Paths.

(** *** ul.cfg written anew *)

(** a row as [ul_row] makes it *)
Record ul_wf (g : base_game_info_t) : Prop := {
  uw_name : exists s, length s = 32%nat /\ name g = s ++ replicate 129 0;
  uw_startup : exists s, length s = 12%nat /\ startup g = s ++ [0];
  uw_ext : extension g = replicate 5 0;
  uw_format : format g = GAME_FORMAT_USBLD;
  uw_size : sizeMB g = 0;
}.

Lemma ul_bytes_row g : ul_wf g -> length (ul_bytes g) = UL_SIZE /\ ul_row (ul_bytes g) = g.
Proof.
  destruct g as [nm st ext pt md fm sz]. intros [(s & Hs & En) (t & Ht & Et) Ee Ef Ez]. cbn [name startup extension format sizeMB] in *. subst.
  assert (Eb : ul_bytes (Game (s ++ replicate 129 0) (t ++ [0]) (replicate 5 0) pt md GAME_FORMAT_USBLD 0) = s ++ bs "ul." ++ t ++ [pt; md; 0; 0; 0; 0; 8] ++ replicate 10 0).
  { unfold ul_bytes. cbn [name startup parts media]. rewrite (take_app_length' s) by done. by rewrite (take_app_length' t) by done. }
  rewrite Eb. split; [rewrite !length_app, Hs, Ht; done|]. unfold ul_row. rewrite (take_app_length' s) by done.
  rewrite (drop_app_ge s) by lia. rewrite Hs. change (drop (35 - 32) (bs "ul." ++ t ++ [pt; md; 0; 0; 0; 0; 8] ++ replicate 10 0)) with (t ++ [pt; md; 0; 0; 0; 0; 8] ++ replicate 10 0).
  rewrite (take_app_length' t) by done. rewrite !(app_nth2 s) by lia. rewrite Hs. change (nth (47 - 32) (bs "ul." ++ t ++ [pt; md; 0; 0; 0; 0; 8] ++ replicate 10 0) 0) with (nth 12 (t ++ [pt; md; 0; 0; 0; 0; 8] ++ replicate 10 0) 0).
  change (nth (48 - 32) (bs "ul." ++ t ++ [pt; md; 0; 0; 0; 0; 8] ++ replicate 10 0) 0) with (nth 13 (t ++ [pt; md; 0; 0; 0; 0; 8] ++ replicate 10 0) 0).
  rewrite !(app_nth2 t) by lia. rewrite Ht. unfold arr. by rewrite Hs, Ht.
Qed.

Lemma records_ul l : Forall ul_wf l -> length (concat (map ul_bytes l)) = (length l * UL_SIZE)%nat /\ map ul_row (records (length l) (concat (map ul_bytes l))) = l.
Proof.
  induction 1 as [|g l Hg Hl [IH1 IH2]]; [done|]. destruct (ul_bytes_row g Hg) as [H1 H2]. cbn [map concat length records]. rewrite length_app, H1, IH1. split; [lia|].
  rewrite (take_app_length' (ul_bytes g)), (drop_app_length' (ul_bytes g)) by done. cbn [map]. by rewrite H2, IH2.
Qed.

Lemma kept_shift ex (k : nat) (l : list base_game_info_t) :
  map snd (base.filter (fun x : nat * base_game_info_t => format x.2 = GAME_FORMAT_USBLD /\ Z.of_nat x.1 <> ex) (imap (fun i g => ((k + i)%nat, g)) l)) =
  match bool_decide (Z.of_nat k <= ex) with
  | true => base.filter (fun g => format g = GAME_FORMAT_USBLD) (delete (Z.to_nat (ex - Z.of_nat k)) l)
  | false => base.filter (fun g => format g = GAME_FORMAT_USBLD) l
  end.
Proof.
  revert k. induction l as [|g l IH]; intros k; [by destruct (bool_decide _)|]. rewrite imap_cons.
  assert (E : imap ((fun i g => ((k + i)%nat, g)) ∘ S) l = imap (fun i g => ((S k + i)%nat, g)) l) by (apply imap_ext; intros i x _; cbn; f_equal; lia).
  rewrite E. clear E. rewrite filter_cons. cbn [fst snd]. rewrite Nat.add_0_r. destruct (bool_decide_reflect (Z.of_nat k <= ex)) as [Hle|Hgt].
  - destruct (decide (Z.of_nat k = ex)) as [Ek|Ek].
    + rewrite decide_False by tauto. rewrite IH, bool_decide_false by lia. replace (Z.to_nat (ex - Z.of_nat k)) with 0%nat by lia. done.
    + replace (Z.to_nat (ex - Z.of_nat k)) with (S (Z.to_nat (ex - Z.of_nat (S k)))) by lia. change (delete (S ?i) (g :: l)) with (g :: delete i l). cbn [delete list_delete]. fold (delete (Z.to_nat (ex - Z.of_nat (S k))) l).
      rewrite filter_cons. destruct (decide (format g = GAME_FORMAT_USBLD)) as [Ef|Ef].
      * rewrite decide_True by done. cbn [map snd]. f_equal. rewrite IH, bool_decide_true by lia. done.
      * rewrite decide_False by tauto. rewrite IH, bool_decide_true by lia. done.
  - rewrite filter_cons. destruct (decide (format g = GAME_FORMAT_USBLD)) as [Ef|Ef].
    + rewrite decide_True by (split; [done|lia]). cbn [map snd]. f_equal. rewrite IH, bool_decide_false by lia. done.
    + rewrite decide_False by tauto. rewrite IH, bool_decide_false by lia. done.
Qed.

Definition split_games (l : list base_game_info_t) : list base_game_info_t := base.filter (fun g => format g = GAME_FORMAT_USBLD) l.

Lemma kept_all l : ul_kept (-1) l = split_games l.
Proof. unfold ul_kept. rewrite (imap_ext pair (fun i g => ((0 + i)%nat, g))) by done. rewrite kept_shift. by rewrite bool_decide_false by lia. Qed.
Lemma kept_but id l : ul_kept (Z.of_nat id) l = split_games (delete id l).
Proof. unfold ul_kept. rewrite (imap_ext pair (fun i g => ((0 + i)%nat, g))) by done. rewrite kept_shift. rewrite bool_decide_true by lia. by replace (Z.to_nat (Z.of_nat id - Z.of_nat 0)) with id by lia. Qed.

Lemma split_games_wf l : Forall (fun g => format g = GAME_FORMAT_USBLD -> ul_wf g) l -> Forall ul_wf (split_games l).
Proof. rewrite !Forall_forall. intros H g [Hf Hg]%list_elem_of_filter. by apply H. Qed.

Section Rewritten.
Context {W : Type} `{!GameFS W}.

(** a file that was written is read back *)
Definition keeps_ul (prefix : bytes) : Prop := forall (w : W) b, gf_file (gf_write w (bufcpy 256 (prefix ++ bs "ul.cfg")) b) (bufcpy 256 (prefix ++ bs "ul.cfg")) = Some b.

Definition ul_file_rows (w : W) (prefix : bytes) : list base_game_info_t :=
  let ul := default [] (gf_file w (bufcpy 256 (prefix ++ bs "ul.cfg"))) in map ul_row (records (length ul / UL_SIZE) ul).

Lemma rebuilt_rows w l prefix ex : keeps_ul prefix -> Forall ul_wf (ul_kept ex l) -> ul_file_rows (sbRebuildULCfg w l prefix ex) prefix = ul_kept ex l.
Proof.
  intros Hk Hl. unfold ul_file_rows, sbRebuildULCfg. rewrite Hk. cbn zeta. cbn [from_option id]. destruct (records_ul _ Hl) as [H1 H2]. rewrite H1. by rewrite Nat.div_mul.
Qed.
End Rewritten.

(** ** Properties *)

Section Props.
Context {W : Type} `{!GameFS W}.
Implicit Types w : W.

(** C17. The list of a device is published whole: when neither directory nor ul.cfg could be
    read the old list stays; otherwise the rows are those of ul.cfg, then the games of the DVD
    and of the CD folder, then the folders, each name once whatever its case, and the count is
    their number. *)
Theorem list_built behind junk nav w old prefix sub :
  let nav' := nav && bool_decide (is_Some sub) in
  let cd := browse_dir prefix (bs "CD") sub in
  let dvd := browse_dir prefix (bs "DVD") sub in
  let w1 := scanned behind w cd SCECdPS2CD nav' in
  let w2 := scanned behind w1 dvd SCECdPS2DVD nav' in
  let ulcfg := if bool_decide (default [] sub = []) then gf_file w2 (bufcpy 256 (prefix ++ bs "ul.cfg")) else None in
  let folders := dir_folders w1 dvd SCECdPS2DVD nav' ++ dir_folders w cd SCECdPS2CD nav' in
  (length (default [] ulcfg) mod UL_SIZE = 0)%nat -> (length junk <= UL_SIZE)%nat ->
  sbReadList behind junk nav w old prefix sub =
    Some (if bool_decide (gf_readdir w cd = None /\ gf_readdir w1 dvd = None /\ ulcfg = None) then (old, w2)
          else (listed (dir_games w cd SCECdPS2CD nav') (dir_games w1 dvd SCECdPS2DVD nav') folders ulcfg, w2)) /\
  NoDup (map lower_name (sbDedupFolderList folders)) /\
  (forall g, g ∈ folders -> exists h, h ∈ sbDedupFolderList folders /\ lower_name h = lower_name g).
Proof.
  cbn zeta. intros Hm Hj. destruct (dedup_spec _ (dir_folders (scanned behind w (browse_dir prefix (bs "CD") sub) SCECdPS2CD (nav && bool_decide (is_Some sub))) (browse_dir prefix (bs "DVD") sub) SCECdPS2DVD (nav && bool_decide (is_Some sub)) ++
    dir_folders w (browse_dir prefix (bs "CD") sub) SCECdPS2CD (nav && bool_decide (is_Some sub))) (le_n _)) as (H1 & _ & H3).
  split; [|by split]. apply (read_list_exact behind junk nav w old prefix sub Hm Hj).
Qed.

(** C18. A game of the list that is one file has the path it was found at: the composed path is
    the directory that was read with the name of one of its entries. *)
Theorem listed_game_path behind junk nav w old prefix sub l w' g part :
  let nav' := nav && bool_decide (is_Some sub) in
  let w1 := scanned behind w (browse_dir prefix (bs "CD") sub) SCECdPS2CD nav' in
  let w2 := scanned behind w1 (browse_dir prefix (bs "DVD") sub) SCECdPS2DVD nav' in
  let ulcfg := if bool_decide (default [] sub = []) then gf_file w2 (bufcpy 256 (prefix ++ bs "ul.cfg")) else None in
  clean w -> clean w1 -> (length (default [] ulcfg) mod UL_SIZE = 0)%nat -> (length junk <= UL_SIZE)%nat -> (length (default [] sub) < FOLDER_SUB_MAX)%nat ->
  sbReadList behind junk nav w old prefix sub = Some (l, w') -> l <> old -> g ∈ gl_rows l -> format g = GAME_FORMAT_ISO \/ format g = GAME_FORMAT_OLD_ISO ->
  exists w0 d, (w0 = w \/ w0 = w1) /\ d ∈ default [] (gf_readdir w0 (browse_dir prefix (media_dir g) sub)) /\
    sbCreatePath (sbSetBrowseSub sub) g prefix (bs "/") part = browse_dir prefix (media_dir g) sub ++ bs "/" ++ d.
Proof.
  cbn zeta. intros Hc1 Hc2 Hm Hj Hs Hr Hold Hg Hf. rewrite (read_list_exact behind junk nav w old prefix sub Hm Hj) in Hr. destruct (bool_decide (gf_readdir w _ = None /\ _)); injection Hr as <- <-; [done|].
  unfold listed in Hg. cbn [gl_rows] in Hg. rewrite !elem_of_app in Hg. destruct Hg as [Hg|[Hg|[Hg|Hg]]].
  - apply ul_row_format in Hg. rewrite Hg in Hf. by destruct Hf.
  - destruct (dir_games_file _ _ _ _ g Hc2 Hg) as (d & Hd & Hn & Hlen & Hl). assert (Em : media g = SCECdPS2DVD) by apply Hn. assert (Ed : media_dir g = bs "DVD") by (unfold media_dir; by rewrite Em).
    eexists _, d. split; [by right|]. rewrite Ed. split; [exact Hd|]. apply path_of_file; [by rewrite Em|done..].
  - destruct (dir_games_file _ _ _ _ g Hc1 Hg) as (d & Hd & Hn & Hlen & Hl). assert (Em : media g = SCECdPS2CD) by apply Hn. assert (Ed : media_dir g = bs "CD") by (unfold media_dir; by rewrite Em).
    eexists _, d. split; [by left|]. rewrite Ed. split; [exact Hd|]. apply path_of_file; [by rewrite Em|done..].
  - apply (proj1 (proj2 (dedup_spec _ _ (le_n _)))) in Hg. apply elem_of_app in Hg as [Hg|Hg]; apply dir_folder_format in Hg; rewrite Hg in Hf; by destruct Hf.
Qed.

(** C19. Deleting and renaming a split game rewrite ul.cfg so that it reads as the list of split
    games without that row, or with the new name in its place and every other field kept. *)
Theorem ul_cfg_edit w sub l prefix sep id g newname behind :
  keeps_ul (W := W) prefix -> Forall (fun h => format h = GAME_FORMAT_USBLD -> ul_wf h) l -> l !! id = Some g -> format g = GAME_FORMAT_USBLD ->
  cstring newname -> (length newname <= UL_GAME_NAME_MAX)%nat ->
  (exists w', sbDelete w sub l prefix sep id = Some w' /\ ul_file_rows w' prefix = split_games (delete id l)) /\
  (exists w' g', sbRename w sub l prefix sep id newname behind = Some (<[id := g']> l, w') /\ ul_file_rows w' prefix = split_games (<[id := g']> l) /\
    g_name g' = newname /\ (startup g', extension g', parts g', media g', format g', sizeMB g') = (startup g, extension g, parts g, media g, format g, sizeMB g)).
Proof.
  intros Hk Hl Hg Hf Hc Hlen. assert (Hgw : ul_wf g) by (rewrite Forall_forall in Hl; apply Hl; [by eapply list_elem_of_lookup_2|done]). split.
  - unfold sbDelete. rewrite Hg. cbn [mbind option_bind]. cbn zeta. rewrite (proj2 (Z.eqb_eq _ _) Hf). eexists. split; [reflexivity|].
    rewrite rebuilt_rows; [by apply kept_but|done|]. rewrite kept_but. apply split_games_wf. apply Forall_delete. exact Hl.
  - unfold sbRename. rewrite Hg. cbn [mbind option_bind]. cbn zeta. rewrite (proj2 (Z.eqb_eq _ _) Hf). eexists _, _. split; [reflexivity|].
    set (nm := take UL_GAME_NAME_MAX _). assert (Hnm : (length nm <= 32)%nat) by (unfold nm; rewrite length_take; unfold UL_GAME_NAME_MAX; lia).
    destruct Hgw as [(s & Hs & En) Hst He _ Hsz]. assert (Edrop : drop 33 (name g) = replicate 128 0).
    { rewrite En, drop_app_ge by lia. by rewrite Hs. }
    assert (Ename : nm ++ replicate (33 - length nm) 0 ++ drop 33 (name g) = (nm ++ replicate (32 - length nm) 0) ++ replicate 129 0).
    { rewrite Edrop. replace (33 - length nm)%nat with ((32 - length nm) + 1)%nat by lia. rewrite replicate_add. by rewrite <- !app_assoc. }
    rewrite Ename. split; [|split; [|done]].
    + rewrite rebuilt_rows; [by apply kept_all|done|]. rewrite kept_all. apply split_games_wf. apply Forall_insert; [exact Hl|]. intros _.
      constructor; cbn [name startup extension format sizeMB]; [|exact Hst|exact He|exact Hf|exact Hsz]. eexists. split; [|reflexivity]. rewrite length_app, length_replicate. lia.
    + unfold g_name. cbn [name]. unfold nm, UL_GAME_NAME_MAX in *. destruct (Nat.eq_dec (length newname) 32) as [E|E].
      * rewrite take_app_length' by lia. rewrite <- app_assoc. rewrite E. change (replicate (32 - 32) 0 ++ replicate 129 0) with (0 :: replicate 128 0). by apply cstr_app_nul.
      * rewrite take_app_ge by lia. destruct (32 - length newname)%nat eqn:Ek; [lia|]. cbn [app take]. rewrite <- !app_assoc. cbn [app]. by apply cstr_app_nul.
Qed.
End Props.

(** ** A device in memory, witnesses *)

#[local] Notation mem := (list (bytes * bytes)).
Definition strip (p f : bytes) : option bytes := if bool_decide (take (length p) f = p) then Some (drop (length p) f) else None.
Definition mem_dir (w : mem) (path : bytes) : option (list bytes) :=
  match omap (strip (path ++ bs "/")) (map fst w) with [] => None | l => Some (remove_dups (map (takewhile (fun c => negb (c =? cSLASH))) l)) end.
Definition mem_file (w : mem) (path : bytes) : option bytes := snd <$> head (base.filter (fun x => x.1 = path) w).
Definition mem_remove (w : mem) (path : bytes) : mem := base.filter (fun x => x.1 <> path) w.
Definition mem_write (w : mem) (path b : bytes) : mem := mem_remove w path ++ [(path, b)].
(** an image is its SYSTEM.CNF *)
#[export] Instance mem_games : GameFS mem := {
  gf_readdir := mem_dir;
  gf_file := mem_file;
  gf_write := mem_write;
  gf_remove := mem_remove;
  gf_rename := fun w a b => match mem_file w a with Some c => mem_write (mem_remove w a) b c | None => w end;
  gf_cnf := fun w path => c ← mem_file w path; Some (Some (Some c));
}.

Lemma mem_keeps prefix : keeps_ul (W := mem) prefix.
Proof.
  intros w b. set (p := bufcpy 256 _). cbn [gf_file gf_write mem_games]. unfold mem_file, mem_write. rewrite filter_app, filter_cons, filter_nil. cbn [fst]. rewrite decide_True by done.
  assert (E : base.filter (fun x : bytes * bytes => x.1 = p) (mem_remove w p) = []).
  { unfold mem_remove. induction w as [|[q c] w IH]; [done|]. rewrite filter_cons. cbn [fst]. destruct (decide (q <> p)) as [Hq|Hq]; [|done]. rewrite filter_cons. cbn [fst]. by rewrite decide_False. }
  by rewrite E.
Qed.

Definition ul_game (nm st : bytes) (media : Z) : base_game_info_t := ul_row (ul_bytes (Game (arr 161 nm) (arr 13 st) (arr 5 []) 2 media 0 0)).
Definition sample_ul : list base_game_info_t := [ul_game (bs "One") (bs "SLUS_000.01") SCECdPS2CD; ul_game (bs "Two") (bs "SLUS_000.02") SCECdPS2DVD].
Definition sample_dev : mem :=
  [(bs "mass0:CD/RPGs/x.iso", []); (bs "mass0:CD/SLUS_123.45.Old Game.iso", []);
   (bs "mass0:DVD/A game.iso", bs "BOOT2 = cdrom0:\SLES_500.01;1"); (bs "mass0:DVD/readme.txt", []); (bs "mass0:DVD/rpgs/y.iso", []);
   (bs "mass0:ul.cfg", concat (map ul_bytes sample_ul))].
Definition no_behind : nat -> base_game_info_t := fun _ => ul_game [] [] 0.
Definition no_list : game_list := GList [] (-1) 0.
Definition names_of (r : option (game_list * mem)) : list (bytes * bytes * Z) := from_option (fun x => map (fun g => (g_name g, g_startup g, format g)) (gl_rows x.1)) [] r.

(** the list of the device: split games, the DVD game, the CD game, one folder *)
Example sample_list : names_of (sbReadList no_behind [] true sample_dev no_list (bs "mass0:") (Some [])) =
  [(bs "One", bs "SLUS_000.01", 0); (bs "Two", bs "SLUS_000.02", 0); (bs "A game", bs "SLES_500.01", 2); (bs "Old Game", bs "SLUS_123.45", 1); (bs "rpgs", [], 3)].
Proof. vm_compute. reflexivity. Qed.

#[export] Instance row_wf_dec g : Decision (row_wf g).
Proof. unfold row_wf. apply _. Defined.

Definition file_ok (x : bytes * bytes) : Prop := cstring x.1 /\ Forall row_wf (games_of (length x.2 / GAME_SIZE) x.2).
#[export] Instance file_ok_dec x : Decision (file_ok x).
Proof. unfold file_ok, cstring. apply _. Defined.

Lemma takewhile_sub p (s : bytes) : cstring s -> cstring (takewhile p s).
Proof. unfold cstring. induction 1 as [|c s Hc Hs IH]; cbn [takewhile]; [constructor|]. destruct (p c); [by constructor|constructor]. Qed.

Lemma mem_clean (w : mem) : Forall file_ok w -> clean w.
Proof.
  intros Hw. rewrite Forall_forall in Hw. split.
  - intros path names Hd. cbn [gf_readdir mem_games] in Hd. unfold mem_dir in Hd. destruct (omap _ _) as [|a l] eqn:E; [done|]. apply (inj Some) in Hd as <-. rewrite Forall_forall. intros d Hd.
    apply elem_of_remove_dups, list_elem_of_fmap in Hd as (f & -> & Hf). apply takewhile_sub. rewrite <- E in Hf. apply list_elem_of_omap in Hf as (x & Hx & Es). unfold strip in Es. case_bool_decide; [|done]. injection Es as <-.
    apply cstring_drop. apply list_elem_of_fmap in Hx as (y & -> & Hy). by apply Hw.
  - intros path c Hl. unfold loadISOGameListCache in Hl. cbn [gf_file mem_games] in Hl. destruct (mem_file w _) as [b|] eqn:E; [|done]. cbn [mbind option_bind] in Hl. cbn zeta in Hl. destruct (Nat.ltb _ _); [|done]. injection Hl as <-.
    unfold mem_file in E. destruct (head _) as [y|] eqn:Eh; [|done]. injection E as <-. apply head_Some_elem_of, list_elem_of_filter in Eh as [_ Hy]. by apply Hw.
Qed.

Lemma list_built_witness : exists l w', sbReadList no_behind [] true sample_dev no_list (bs "mass0:") (Some []) = Some (l, w') /\ gl_count l = 5.
Proof.
  pose (r := default (no_list, []) (sbReadList no_behind [] true sample_dev no_list (bs "mass0:") (Some []))). exists r.1, r.2. split; [|vm_compute; reflexivity].
  destruct (list_built no_behind [] true sample_dev no_list (bs "mass0:") (Some [])) as [E _]; [vm_compute; reflexivity|vm_compute; lia|]. unfold r. rewrite E. apply f_equal, surjective_pairing.
Defined.

Definition sample_result : game_list * mem := default (no_list, []) (sbReadList no_behind [] true sample_dev no_list (bs "mass0:") (Some [])).
Definition dvd_game : base_game_info_t := nth 2 (gl_rows sample_result.1) (no_behind 0%nat).

Lemma listed_game_path_witness : exists w0 d, d ∈ default [] (gf_readdir w0 (bs "mass0:DVD")) /\ sbCreatePath [] dvd_game (bs "mass0:") (bs "/") 0 = bs "mass0:DVD/" ++ d.
Proof.
  destruct (listed_game_path no_behind [] true sample_dev no_list (bs "mass0:") (Some []) sample_result.1 sample_result.2 dvd_game 0) as (w0 & d & _ & Hd & E).
  - apply mem_clean. apply (bool_decide_unpack _). vm_compute. exact I.
  - apply mem_clean. apply (bool_decide_unpack _). vm_compute. exact I.
  - vm_compute. reflexivity.
  - vm_compute. lia.
  - vm_compute. lia.
  - vm_compute. reflexivity.
  - vm_compute. discriminate.
  - apply (list_elem_of_lookup_2 _ 2). vm_compute. reflexivity.
  - left. vm_compute. reflexivity.
  - exists w0, d. exact (conj Hd E).
Defined.

Lemma ul_cfg_edit_witness : exists w', sbDelete sample_dev [] sample_ul (bs "mass0:") (bs "/") 0 = Some w' /\ map g_name (ul_file_rows w' (bs "mass0:")) = [bs "Two"].
Proof.
  destruct (ul_cfg_edit sample_dev [] sample_ul (bs "mass0:") (bs "/") 0 (ul_game (bs "One") (bs "SLUS_000.01") SCECdPS2CD) (bs "New") []) as [(w' & E & Er) _].
  - apply mem_keeps.
  - repeat constructor; try (vm_compute; reflexivity); [exists (take 32 (arr 32 (bs "One")))|exists (take 12 (arr 12 (bs "SLUS_000.01")))|exists (take 32 (arr 32 (bs "Two")))|exists (take 12 (arr 12 (bs "SLUS_000.02")))]; (split; vm_compute; reflexivity).
  - reflexivity.
  - reflexivity.
  - apply (bool_decide_unpack _). vm_compute. exact I.
  - vm_compute. lia.
  - exists w'. split; [exact E|]. rewrite Er. vm_compute. reflexivity.
Defined.

(** ** What the code does not hold *)

(** a ul.cfg of 65 bytes is counted as one row and read as two: the second is written behind
    the list *)
Example short_record_overflows : sbReadList no_behind [] false [(bs "mass0:ul.cfg", concat (map ul_bytes [ul_game (bs "One") (bs "SLUS_000.01") SCECdPS2CD]) ++ [0])] no_list (bs "mass0:") None = None.
Proof. vm_compute. reflexivity. Qed.

(** the same games in another order count as new games: row [i] of the list is compared with row [i] of
    the cache only *)
Example order_is_change : let a := ul_game (bs "A") [] 0 in let b := ul_game (bs "B") [] 0 in
  list_modified no_behind (Some [a; b]) [b; a] 2 = true /\ list_modified no_behind (Some [a; b]) [a; b] 2 = false.
Proof. vm_compute. done. Qed.

(** after the last game of a directory is gone its games.bin stays *)
Example cache_outlives_games : let w := [(bs "mass0:CD/games.bin", game_bytes (no_behind 0%nat))] in
  (scanForISO no_behind w (bs "mass0:CD") SCECdPS2CD false [] []).2 = w.
Proof. vm_compute. reflexivity. Qed.
