(* ===== verification/FolderBrowse.v ===== *)
(** * FolderBrowse: the folder a device page shows (src/folderbrowse.c)

    Per mode the subpath below the CD and DVD folders, its depth and a flag that asks for one
    rescan. The three static arrays are one list of records; the page rescans through
    [sbReadList] of GameList with the subpath. *)
From S2P Require Import Prelude CLib BootCnf GameList.

Definition FOLDER_DEPTH_MAX : Z := 8.
(** enum IO_MODES *)
Definition BDM_MODE : Z := 0.
Definition BDM_MODE_LAST : Z := 7.
Definition MMCE_MODE : Z := 11.
Definition UDPFS_MODE : Z := 13.
Definition MODE_COUNT : Z := 15.

Record folder_state := Folder {
  folderSub : bytes;
  folderDirtyFlag : bool;
  folderLevels : Z;
}.

Definition folderModeSupported (mode : Z) : bool := ((BDM_MODE <=? mode) && (mode <=? BDM_MODE_LAST)) || (mode =? MMCE_MODE) || (mode =? UDPFS_MODE).

#[local] Notation pages := (list folder_state).
Definition at_root : folder_state := Folder [] false 0.
Definition no_folders : pages := replicate (Z.to_nat MODE_COUNT) at_root.

Section Browse.
Context (gEnableFolderNav : bool).

Definition refused (mode : Z) : bool := negb gEnableFolderNav || (mode <? 0) || (MODE_COUNT <=? mode) || negb (folderModeSupported mode).
Definition page (st : pages) (mode : Z) : folder_state := nth (Z.to_nat mode) st at_root.
Definition set_page (st : pages) (mode : Z) (f : folder_state) : pages := <[Z.to_nat mode := f]> st.

Definition folderGetSub (st : pages) (mode : Z) : bytes := if refused mode then [] else folderSub (page st mode).
Definition folderDepth (st : pages) (mode : Z) : Z := if refused mode then 0 else folderLevels (page st mode).

Definition folderDescend (st : pages) (mode : Z) (nm : option bytes) : bool * pages :=
  if refused mode then (false, st)
  else match nm with
  | None | Some [] => (false, st)
  | Some nm =>
    let f := page st mode in
    if FOLDER_DEPTH_MAX <=? folderLevels f then (false, st)
    else
      let joined := match folderSub f with [] => nm | sub => sub ++ bs "/" ++ nm end in
      if (FOLDER_SUB_MAX <=? length joined)%nat then (false, st)
      else (true, set_page st mode (Folder joined true ((folderLevels f + 1) mod 2 ^ 8)))
  end.

(** [strrchr(sub, '/')] *)
Fixpoint last_slash (s : bytes) (i : nat) : option nat :=
  match s with
  | [] => None
  | c :: s => match last_slash s (S i) with Some k => Some k | None => if c =? cSLASH then Some i else None end
  end.

Definition folderAscend (st : pages) (mode : Z) : bool * pages :=
  if refused mode then (false, st)
  else
    let f := page st mode in
    if folderLevels f =? 0 then (false, st)
    else
      let sub := match last_slash (folderSub f) 0 with Some k => take k (folderSub f) | None => [] end in
      (true, set_page st mode (Folder sub true ((folderLevels f - 1) mod 2 ^ 8))).
End Browse.

Definition folderReset (st : pages) (mode : Z) : pages :=
  if (mode <? 0) || (MODE_COUNT <=? mode) then st
  else
    let f := page st mode in
    if negb (bool_decide (folderSub f = [])) || negb (folderLevels f =? 0) then set_page st mode (Folder [] true 0) else st.

Definition folderConsumeDirty (st : pages) (mode : Z) : bool * pages :=
  if (mode <? 0) || (MODE_COUNT <=? mode) || negb (folderDirtyFlag (page st mode)) then (false, st)
  else (true, set_page st mode (Folder (folderSub (page st mode)) false (folderLevels (page st mode)))).

(** ** The path as a stack of names *)

(** the innermost name first *)
Fixpoint joined (stack : list bytes) : bytes :=
  match stack with
  | [] => []
  | [nm] => nm
  | nm :: stack => joined stack ++ bs "/" ++ nm
  end.

Definition segment (nm : bytes) : Prop := nm <> [] /\ cSLASH ∉ nm.

(** what a page's state means *)
Record shows (f : folder_state) (a : list bytes * bool) : Prop := {
  sh_sub : folderSub f = joined a.1;
  sh_levels : folderLevels f = Z.of_nat (length a.1);
  sh_names : Forall segment a.1;
  sh_depth : Z.of_nat (length a.1) <= FOLDER_DEPTH_MAX;
  sh_fits : (length (joined a.1) < FOLDER_SUB_MAX)%nat;
  sh_dirty : folderDirtyFlag f = a.2;
}.

Inductive event := Descend (nm : bytes) | Ascend | Reset | Consume.

Definition do_event (nav : bool) (mode : Z) (st : pages) (e : event) : pages :=
  match e with
  | Descend nm => (folderDescend nav st mode (Some nm)).2
  | Ascend => (folderAscend nav st mode).2
  | Reset => folderReset st mode
  | Consume => (folderConsumeDirty st mode).2
  end.

(** the stack, and whether it changed since the last rescan: a push that is too deep or too
    long is refused *)
Definition abstract_event (a : list bytes * bool) (e : event) : list bytes * bool :=
  let '(stack, dirty) := a in
  match e with
  | Descend nm => if (Z.of_nat (length stack) <? FOLDER_DEPTH_MAX) && (length (joined (nm :: stack)) <? FOLDER_SUB_MAX)%nat then (nm :: stack, true) else a
  | Ascend => match stack with [] => a | _ :: stack => (stack, true) end
  | Reset => match stack with [] => a | _ => ([], true) end
  | Consume => (stack, false)
  end.

Definition event_ok (e : event) : Prop := match e with Descend nm => segment nm | _ => True end.

(** ** Lemmas *)

Lemma joined_cons nm stack : joined (nm :: stack) = match joined stack with [] => match stack with [] => nm | _ => bs "/" ++ nm end | s => s ++ bs "/" ++ nm end.
Proof. destruct stack as [|a stack]; [done|]. change (joined (nm :: a :: stack)) with (joined (a :: stack) ++ bs "/" ++ nm). by destruct (joined (a :: stack)). Qed.

Lemma joined_nonempty stack : Forall segment stack -> joined stack = [] <-> stack = [].
Proof.
  intros H. split; [|by intros ->]. destruct H as [|nm stack [Hn _] H]; [done|]. destruct stack as [|a stack]; [done|].
  change (joined (nm :: a :: stack)) with (joined (a :: stack) ++ bs "/" ++ nm). intros E. apply app_eq_nil in E as [_ E]. done.
Qed.

Lemma joined_push nm stack : Forall segment stack -> joined (nm :: stack) = match joined stack with [] => nm | s => s ++ bs "/" ++ nm end.
Proof.
  intros H. rewrite joined_cons. destruct (joined stack) eqn:E; [|done]. apply joined_nonempty in E; [|done]. by subst.
Qed.

Lemma last_slash_none s i : cSLASH ∉ s -> last_slash s i = None.
Proof.
  revert i. induction s as [|c s IH]; intros i H; [done|]. cbn [last_slash]. apply not_elem_of_cons in H as [Hc Hs]. rewrite IH by done. destruct (Z.eqb_spec c cSLASH); [congruence|done].
Qed.

Lemma last_slash_app s nm i : cSLASH ∉ nm -> last_slash (s ++ cSLASH :: nm) i = Some (i + length s)%nat.
Proof.
  intros H. revert i. induction s as [|c s IH]; intros i; cbn [app last_slash length].
  - rewrite last_slash_none by done. rewrite Z.eqb_refl. f_equal. lia.
  - rewrite IH. f_equal. lia.
Qed.

Lemma cut_last nm stack : Forall segment (nm :: stack) ->
  match last_slash (joined (nm :: stack)) 0 with Some k => take k (joined (nm :: stack)) | None => [] end = joined stack.
Proof.
  intros [[_ Hn] Hs]%Forall_cons. rewrite joined_push by done. destruct (joined stack) as [|c s] eqn:E; [by rewrite last_slash_none|].
  change (bs "/" ++ nm) with (cSLASH :: nm). rewrite last_slash_app by done. rewrite Nat.add_0_l. by rewrite take_app_length.
Qed.

Lemma joined_tail_le nm stack : Forall segment (nm :: stack) -> (length (joined stack) <= length (joined (nm :: stack)))%nat.
Proof. intros [_ Hs]%Forall_cons. rewrite joined_push by done. destruct (joined stack) as [|c s]; [cbn; lia|]. rewrite length_app. lia. Qed.

Section Pages.
Context (nav : bool) (st : pages) (mode : Z).
Hypothesis (Hlen : length st = Z.to_nat MODE_COUNT) (Hmode : refused nav mode = false).

Lemma mode_range : 0 <= mode < MODE_COUNT.
Proof. clear Hlen st. unfold refused in Hmode. destruct (Z.ltb_spec mode 0), (Z.leb_spec MODE_COUNT mode); rewrite ?orb_true_r in Hmode; cbn in Hmode; try discriminate; lia. Qed.

Lemma page_set f : page (set_page st mode f) mode = f.
Proof. unfold page, set_page. pose proof mode_range. apply nth_lookup_Some. apply list_lookup_insert_eq. unfold MODE_COUNT in *. lia. Qed.

Lemma page_set_other m f : 0 <= m -> m <> mode -> page (set_page st mode f) m = page st m.
Proof. clear Hlen. unfold page, set_page. pose proof mode_range. intros Hm Hne. rewrite !nth_lookup. rewrite list_lookup_insert_ne by lia. done. Qed.
End Pages.

(** one event on the page is one event on the stack, and touches no other page *)
Lemma event_refines (nav : bool) (st : pages) (mode : Z) (a : list bytes * bool) (e : event) :
  length st = Z.to_nat MODE_COUNT -> refused nav mode = false -> shows (page st mode) a -> event_ok e ->
  let st' := do_event nav mode st e in
  shows (page st' mode) (abstract_event a e) /\ length st' = Z.to_nat MODE_COUNT /\ (forall m, 0 <= m -> m <> mode -> page st' m = page st m).
Proof.
  intros Hlen Hm Hs He. cbn zeta. pose proof (mode_range nav mode Hm) as Hr.
  assert (Hset : forall f, length (set_page st mode f) = Z.to_nat MODE_COUNT) by (intros f; unfold set_page; by rewrite length_insert).
  assert (Hput : forall f a', shows f a' -> shows (page (set_page st mode f) mode) a' /\ length (set_page st mode f) = Z.to_nat MODE_COUNT /\ (forall m, 0 <= m -> m <> mode -> page (set_page st mode f) m = page st m)).
  { intros f a' Hf. rewrite (page_set nav st mode Hlen Hm). split; [done|]. split; [done|]. intros m H1 H2. by apply (page_set_other nav st mode Hm). }
  destruct a as [stack dirty]. destruct Hs as [Hsub Hlev Hn Hd Hf Hdirty]. cbn [fst snd] in *. assert (Hin : (mode <? 0) || (MODE_COUNT <=? mode) = false).
  { destruct (Z.ltb_spec mode 0); [lia|]. destruct (Z.leb_spec MODE_COUNT mode); [lia|done]. }
  destruct e as [nm| | |]; cbn [do_event abstract_event event_ok] in *.
  - unfold folderDescend. rewrite Hm. assert (Hj : joined (nm :: stack) = match folderSub (page st mode) with [] => nm | sub => sub ++ bs "/" ++ nm end) by (rewrite Hsub; by apply joined_push).
    destruct nm as [|c nm]; [by destruct He|]. cbn zeta. rewrite <- Hj. rewrite Hlev.
    destruct (Z.leb_spec FOLDER_DEPTH_MAX (Z.of_nat (length stack))) as [H1|H1]; [rewrite (proj2 (Z.ltb_ge _ _)) by done; by split|].
    rewrite (proj2 (Z.ltb_lt _ _)) by done. cbn [andb]. destruct (Nat.leb_spec FOLDER_SUB_MAX (length (joined ((c :: nm) :: stack)))) as [H2|H2]; [rewrite (proj2 (Nat.ltb_ge _ _)) by done; by split|].
    rewrite (proj2 (Nat.ltb_lt _ _)) by done. cbn [snd]. apply Hput. unfold FOLDER_DEPTH_MAX in *. constructor; cbn [fst snd folderSub folderLevels folderDirtyFlag]; [done| |by constructor| |done|done]; cbn [length].
    + rewrite Z.mod_small by (change (2 ^ 8) with 256; lia). lia.
    + unfold FOLDER_DEPTH_MAX. lia.
  - unfold folderAscend. rewrite Hm. cbn zeta. rewrite Hlev. destruct stack as [|nm stack]; [by split|]. cbn [length]. rewrite (proj2 (Z.eqb_neq _ _)) by lia. cbn [snd]. apply Hput. rewrite Hsub, cut_last by done.
    pose proof (joined_tail_le nm stack Hn). cbn [length] in Hd. unfold FOLDER_DEPTH_MAX in *. constructor; cbn [fst snd folderSub folderLevels folderDirtyFlag]; [done| |by apply Forall_cons in Hn as [_ Hn]| |lia|done].
    + rewrite Z.mod_small by (change (2 ^ 8) with 256; lia). lia.
    + unfold FOLDER_DEPTH_MAX. lia.
  - unfold folderReset. rewrite Hin. rewrite Hsub, Hlev. destruct stack as [|nm stack].
    + change (negb (bool_decide (joined [] = [])) || negb (Z.of_nat (length (@nil bytes)) =? 0)) with false. by split.
    + cbn [length]. rewrite (proj2 (Z.eqb_neq _ _)) by lia. rewrite orb_true_r. apply Hput. constructor; cbn [fst snd joined length folderSub folderLevels folderDirtyFlag]; [done|done|constructor|done|unfold FOLDER_SUB_MAX; lia|done].
  - unfold folderConsumeDirty. rewrite Hin, Hdirty. cbn [orb]. destruct dirty; cbn [negb snd].
    + apply Hput. by constructor.
    + by split.
Qed.

Lemma events_refine nav mode : refused nav mode = false -> forall es st a, length st = Z.to_nat MODE_COUNT -> shows (page st mode) a -> Forall event_ok es ->
  shows (page (fold_left (do_event nav mode) es st) mode) (fold_left abstract_event es a) /\ (forall m, 0 <= m -> m <> mode -> page (fold_left (do_event nav mode) es st) m = page st m).
Proof.
  intros Hm. induction es as [|e es IH]; intros st a Hlen Hs He; [by split|]. apply Forall_cons in He as [He Hes]. cbn [fold_left].
  destruct (event_refines nav st mode a e Hlen Hm Hs He) as (H1 & H2 & H3). destruct (IH _ _ H2 H1 Hes) as [H4 H5]. split; [done|]. intros m Hm1 Hm2. rewrite H5 by done. by apply H3.
Qed.

Lemma page_initial m : page no_folders m = at_root.
Proof. unfold page, no_folders. rewrite nth_lookup. destruct (_ !! _) eqn:E; [|done]. by apply lookup_replicate in E as [-> _]. Qed.

Lemma shows_root : shows at_root ([], false).
Proof. constructor; cbn; [done|done|constructor|unfold FOLDER_DEPTH_MAX; lia|unfold FOLDER_SUB_MAX; lia|done]. Qed.

(** the directories of the stack, outermost first *)
Lemma joined_path stack : Forall segment stack -> match joined stack with [] => [] | s => bs "/" ++ s end = concat (map (fun nm => bs "/" ++ nm) (rev stack)).
Proof.
  induction stack as [|nm stack IH]; intros H; [done|]. assert (H' := H). apply Forall_cons in H as [[Hn _] Hs]. rewrite joined_push by done. cbn [rev]. rewrite map_app, concat_app. cbn [map concat]. rewrite app_nil_r. rewrite <- IH by done.
  destruct (joined stack) as [|c s] eqn:E; [by destruct nm|]. by destruct (c :: s).
Qed.

(** ** Properties *)

(** Whatever folders are entered, left and reset, the subpath of a page is the stack of the
    names entered, at most eight and as long as fits; the page asks for a rescan exactly when
    the stack changed since the last one; no other page changes; and the directories a rescan
    reads are those of the stack, as far as the path fits. *)
Theorem folders_follow_stack (nav : bool) (mode : Z) (es : list event) (prefix dir : bytes) :
  refused nav mode = false -> Forall event_ok es ->
  let st := fold_left (do_event nav mode) es no_folders in
  let a := fold_left abstract_event es ([], false) in
  shows (page st mode) a /\ (forall m, 0 <= m -> m <> mode -> page st m = at_root) /\ (folderConsumeDirty st mode).1 = a.2 /\
  browse_dir prefix dir (Some (folderGetSub nav st mode)) = bufcpy 256 (prefix ++ dir ++ concat (map (fun nm => bs "/" ++ nm) (rev a.1))).
Proof.
  intros Hm He. cbn zeta. pose proof (mode_range nav mode Hm) as Hr. destruct (events_refine nav mode Hm es no_folders ([], false)) as [Hs Ho]; [done|rewrite page_initial; exact shows_root|done|].
  split; [exact Hs|]. split; [intros m H1 H2; rewrite Ho by done; apply page_initial|]. destruct Hs as [Hsub _ Hn _ _ Hd]. split.
  - unfold folderConsumeDirty. rewrite (proj2 (Z.ltb_ge _ _)) by lia. rewrite (proj2 (Z.leb_gt _ _)) by lia. cbn [orb]. rewrite Hd. by destruct (_.2).
  - unfold browse_dir, folderGetSub. rewrite Hm. cbn [default from_option id]. rewrite Hsub. rewrite <- joined_path by done. destruct (joined _) as [|c s]; [rewrite bool_decide_true by done; by rewrite app_nil_r|]. rewrite bool_decide_false by done. reflexivity.
Qed.

Lemma folders_follow_stack_witness : let st := fold_left (do_event true MMCE_MODE) [Descend (bs "RPGs"); Consume; Descend (bs "SNES"); Ascend; Descend (bs "PSX")] no_folders in
  browse_dir (bs "mmce0:") (bs "CD") (Some (folderGetSub true st MMCE_MODE)) = bs "mmce0:CD/RPGs/PSX" /\ (folderConsumeDirty st MMCE_MODE).1 = true.
Proof.
  destruct (folders_follow_stack true MMCE_MODE [Descend (bs "RPGs"); Consume; Descend (bs "SNES"); Ascend; Descend (bs "PSX")] (bs "mmce0:") (bs "CD")) as (_ & _ & H1 & H2); [reflexivity| |split; [exact H2|exact H1]].
  repeat constructor; try done; apply (bool_decide_unpack _); vm_compute; exact I.
Defined.
