(* ===== verification/Ps1Names.v ===== *)
(** * Ps1Names: the names of PlayStation 1 titles (src/vcdsupport.c, src/cuesupport.c)

    Disc ids in file names and partition labels, the part of a name that is shown and sorted
    by, the later discs of a set, the names that can be launched or given. *)
From S2P Require Import Prelude CLib BootCnf GameList.

(** ** Disc ids *)

Definition POPSTARTER_PREFIXES : list bytes := [bs "XX."; bs "SB."; bs "EL."; bs "SM."].
Definition vcdSkipPopstarterPrefix (nm : bytes) : nat :=
  if (length nm <? 3)%nat then 0%nat else if existsb (fun p => strncaseeq nm p 3) POPSTARTER_PREFIXES then 3%nat else 0%nat.

(** a character of the string or its NUL *)
Definition at_ (s : bytes) (i : nat) : Z := nth i s 0.

(** AAAA_NNN.NN *)
Definition is_strict_id (p : bytes) : bool :=
  forallb (fun i => isalnum (at_ p i)) [0%nat; 1%nat; 2%nat; 3%nat] && (at_ p 4 =? cUSCORE) &&
  forallb (fun i => isdigit (at_ p i)) [5%nat; 6%nat; 7%nat] && (at_ p 8 =? cDOT) && isdigit (at_ p 9) && isdigit (at_ p 10).
Definition is_delimiter (c : Z) : bool := (c =? cDOT) || (c =? cUSCORE) || (c =? 32) || (c =? cMINUS).

(** the id in upper case; [None] stands for the result 0 with an empty string *)
Definition vcdExtractGameId (nm : option bytes) (idSize : Z) : option bytes :=
  if idSize <=? 11 then None
  else
    nm ← nm;
    let p := drop (vcdSkipPopstarterPrefix nm) nm in
    if (length p <? 11)%nat then None
    else if negb (is_strict_id p) then None
    else if negb (at_ p 11 =? 0) && negb (is_delimiter (at_ p 11)) then None
    else Some (map toupper (take 11 p)).

Definition VCD_ID_MAX : Z := 16.

(** PP.<id>.POPS.<name>: the offset of the name, or 0 *)
Definition vcdPopsPartitionTitleOffset (label : bytes) : nat :=
  if negb (strneq label (bs "PP.") 3) then 0%nat
  else
    let tail := drop 3 label in
    let len := length tail in
    if (18 <=? len)%nat && bool_decide (is_Some (vcdExtractGameId (Some tail) VCD_ID_MAX)) && (at_ tail 11 =? cDOT) && strneq (drop 12 tail) (bs "POPS.") 5 && negb (at_ tail 17 =? 0)
    then 20%nat
    else if (len <? 17)%nat then 0%nat
    else if negb (forallb (fun i => isalnum (at_ tail i)) [0%nat; 1%nat; 2%nat; 3%nat]) then 0%nat
    else if negb (at_ tail 4 =? cMINUS) then 0%nat
    else if negb (forallb (fun i => isdigit (at_ tail i)) [5%nat; 6%nat; 7%nat; 8%nat; 9%nat]) then 0%nat
    else
      let marker := if (at_ tail 10 =? cDOT) && isdigit (at_ tail 11) && isdigit (at_ tail 12) then 13%nat else 10%nat in
      if strneq (drop marker tail) (bs ".POPS.") 6 && negb (at_ tail (marker + 6) =? 0) then (3 + marker + 6)%nat else 0%nat.

(** ** What is shown *)

Definition vcdGameIdPrefixLen (nm : bytes) : nat :=
  let prefixLen := vcdSkipPopstarterPrefix nm in
  let p := drop prefixLen nm in
  match vcdExtractGameId (Some p) VCD_ID_MAX with
  | Some _ => if is_delimiter (at_ p 11) then (prefixLen + 12)%nat else (prefixLen + 11)%nat
  | None => 0%nat
  end.

(** [ps1_view]: the page, or the row of a mixed page, shows PlayStation 1 titles *)
Definition vcdDisplayName (gVcdHideGameId ps1_view : bool) (text : bytes) : bytes :=
  if negb gVcdHideGameId || negb ps1_view then text else drop (vcdGameIdPrefixLen text) text.
Definition vcdSortKey (gVcdHideGameId : bool) (nm : bytes) : bytes := if gVcdHideGameId then drop (vcdGameIdPrefixLen nm) nm else nm.

(** [strcasecmp] with the sign of its result *)
Definition strcasecmp (a b : bytes) : Z := strcmp (map tolower a) (map tolower b).
Definition vcdEntryCmp (gVcdHideGameId : bool) (a b : bytes) : Z := strcasecmp (vcdSortKey gVcdHideGameId a) (vcdSortKey gVcdHideGameId b).

(** ** Later discs *)

Definition tokens : list bytes := [bs "(disc"; bs "[disc"; bs "(cd"; bs "[cd"; bs "(disk"; bs "[disk"].
Definition is_space (c : Z) : bool := c =? 32.
(** the loop over the digits, in an [int] *)
Fixpoint disc_number (num : Z) (d : bytes) : Z :=
  match d with
  | c :: d => if isdigit c then disc_number (s32 (s32 (num * 10) + (c - 48))) d else num
  | [] => num
  end.
Definition later_disc (tok p : bytes) : bool :=
  strncaseeq p tok (length tok) &&
  (let d := dropwhile is_space (drop (length tok) p) in isdigit (at_ d 0) && (2 <=? disc_number 0 d)).
Fixpoint later_from (tok p : bytes) : bool := match p with [] => false | _ :: r => later_disc tok p || later_from tok r end.
Definition vcdIsHiddenDisc (nm : bytes) : bool := existsb (fun tok => later_from tok nm) tokens.

(** ** Names that can be given *)

Definition CUE_NAME_LAUNCH_MAX : nat := 180.
Definition has_any (s accept : bytes) : bool := existsb (fun c => existsb (Z.eqb c) accept) s.

Definition cueNameLaunchable (nm : option bytes) : bool :=
  match nm with
  | None | Some [] => false
  | Some nm =>
    if (at_ nm 0 =? cDOT) && (at_ nm 1 =? cDOT) then false
    else if streq nm (bs ".") then false
    else if has_any nm [cSLASH; cCOLON; cBSLASH] then false
    else (length nm <=? CUE_NAME_LAUNCH_MAX)%nat
  end.

Definition vcdValidRenameName (nm : option bytes) : bool :=
  match nm with
  | None | Some [] => false
  | Some nm => if has_any nm [cCOLON; cSLASH; cBSLASH] then false else (length nm <=? ISO_GAME_NAME_MAX)%nat && negb (strcaseeq nm (bs "POPSTARTER"))
  end.

(** ** The selector *)

Definition POPS_FOLDER : bytes := bs "POPS".
Definition VCD_PREFIX_SMB : bytes := bs "SB.".
Definition vcdBuildSelector (prefix nm : option bytes) (outSize : nat) : bytes :=
  let root := if bool_decide (prefix = Some VCD_PREFIX_SMB) then bs "smb:" else bs "mass:" in
  bufcpy outSize (root ++ bs "/" ++ POPS_FOLDER ++ bs "/" ++ default [] prefix ++ default [] nm ++ bs ".ELF").

(** ** Lemmas *)

Lemma at_app_l a b i : (i < length a)%nat -> at_ (a ++ b) i = at_ a i.
Proof. intros H. unfold at_. by apply app_nth1. Qed.
Lemma at_app_r a b i : at_ (a ++ b) (length a + i) = at_ b i.
Proof. unfold at_. rewrite app_nth2 by lia. f_equal. lia. Qed.
Lemma at_drop s k i : at_ (drop k s) i = at_ s (k + i).
Proof. unfold at_. rewrite !nth_lookup, lookup_drop. done. Qed.

Lemma strict_id_app id r : length id = 11%nat -> is_strict_id (id ++ r) = is_strict_id id.
Proof. intros H. unfold is_strict_id. cbn [forallb]. by rewrite !at_app_l by lia. Qed.

Lemma strict_id_take p : (11 <= length p)%nat -> is_strict_id (take 11 p) = is_strict_id p.
Proof. intros H. rewrite <- (take_drop 11 p) at 2. symmetry. apply strict_id_app. rewrite length_take. lia. Qed.

(** no prefix in front of an id: its third character is not a dot *)
Lemma prefix_dot s : vcdSkipPopstarterPrefix s <> 0%nat -> vcdSkipPopstarterPrefix s = 3%nat /\ at_ s 2 = cDOT /\ (3 <= length s)%nat.
Proof.
  unfold vcdSkipPopstarterPrefix. destruct (Nat.ltb_spec (length s) 3) as [|Hl]; [done|]. destruct (existsb _ _) eqn:E; [|done]. intros _. split; [done|]. split; [|done].
  apply existsb_exists in E as (p & Hp & E). unfold strncaseeq in E. apply bool_decide_eq_true in E. destruct s as [|a [|b [|c s]]]; cbn in Hl; try lia. cbn [at_ nth].
  assert (Hc : nth 2 (map tolower (take 3 (a :: b :: c :: s))) 0 = cDOT) by (rewrite E; clear E; repeat (destruct Hp as [<-|Hp]; [reflexivity|]); destruct Hp).
  change (nth 2 (map tolower (take 3 (a :: b :: c :: s))) 0) with (tolower c) in Hc. unfold tolower in Hc. destruct (isupper c) eqn:Eu; [|done]. unfold isupper, between in Eu. lia.
Qed.

Lemma strict_no_prefix p : is_strict_id p = true -> vcdSkipPopstarterPrefix p = 0%nat.
Proof.
  intros H. destruct (Nat.eq_dec (vcdSkipPopstarterPrefix p) 0) as [E|E]; [done|]. apply prefix_dot in E as (_ & E & _). unfold is_strict_id in H. cbn [forallb] in H. rewrite E in H. exfalso. revert H.
  change (isalnum cDOT) with false. by repeat (rewrite andb_false_l || rewrite andb_false_r).
Qed.

(** the names with an id at their front, and only they *)
Lemma extract_front p : vcdSkipPopstarterPrefix p = 0%nat ->
  vcdExtractGameId (Some p) VCD_ID_MAX = if (11 <=? length p)%nat && is_strict_id p && ((at_ p 11 =? 0) || is_delimiter (at_ p 11)) then Some (map toupper (take 11 p)) else None.
Proof.
  intros E. unfold vcdExtractGameId. change (VCD_ID_MAX <=? 11) with false. cbn iota. cbn [mbind option_bind]. rewrite E, drop_0. rewrite Nat.ltb_antisym. destruct (11 <=? length p)%nat; [|done]. cbn [negb andb].
  destruct (is_strict_id p); [|done]. cbn [negb andb]. destruct (at_ p 11 =? 0), (is_delimiter (at_ p 11)); done.
Qed.

(** *** Titles *)

Definition popstarter_prefix (pre : bytes) : Prop := pre = [] \/ length pre = 3%nat /\ vcdSkipPopstarterPrefix pre = 3%nat.
Definition strict_id (id : bytes) : Prop := length id = 11%nat /\ is_strict_id id = true.

Lemma skip_prefix pre r : length pre = 3%nat -> vcdSkipPopstarterPrefix pre = 3%nat -> vcdSkipPopstarterPrefix (pre ++ r) = 3%nat.
Proof.
  intros Hl Hs. unfold vcdSkipPopstarterPrefix in *. rewrite length_app, Hl in *. change (3 + length r <? 3)%nat with false. change (3 <? 3)%nat with false in Hs. cbn iota in *.
  assert (E : existsb (fun p => strncaseeq (pre ++ r) p 3) POPSTARTER_PREFIXES = existsb (fun p => strncaseeq pre p 3) POPSTARTER_PREFIXES).
  { unfold strncaseeq. rewrite (take_app_length' pre) by done. by rewrite (take_ge pre) by lia. }
  by rewrite E.
Qed.

Lemma skip_of_prefix pre r : popstarter_prefix pre -> vcdSkipPopstarterPrefix r = 0%nat -> drop (vcdSkipPopstarterPrefix (pre ++ r)) (pre ++ r) = r.
Proof.
  intros [->|[Hl Hs]] Hr; [cbn [app]; by rewrite Hr|]. rewrite (skip_prefix pre r Hl Hs). by apply drop_app_length'.
Qed.

Lemma prefix_len pre id r : popstarter_prefix pre -> strict_id id -> (at_ r 0 = 0 \/ is_delimiter (at_ r 0) = true) ->
  vcdGameIdPrefixLen (pre ++ id ++ r) = (length pre + 11 + if is_delimiter (at_ r 0) then 1 else 0)%nat /\ vcdExtractGameId (Some (pre ++ id ++ r)) VCD_ID_MAX = Some (map toupper id).
Proof.
  intros Hp [Hl Hi] Hr. assert (Hs : is_strict_id (id ++ r) = true) by (by rewrite strict_id_app). assert (H0 := strict_no_prefix _ Hs).
  assert (Hd := skip_of_prefix pre (id ++ r) Hp H0). assert (E11 : at_ (id ++ r) 11 = at_ r 0) by (rewrite <- (at_app_r id r 0); f_equal; lia).
  assert (Hlen : (11 <=? length (id ++ r))%nat = true) by (apply Nat.leb_le; rewrite length_app; lia).
  assert (Hor : (at_ r 0 =? 0) || is_delimiter (at_ r 0) = true) by (destruct Hr as [-> | ->]; [done|by rewrite orb_true_r]).
  assert (He : vcdExtractGameId (Some (id ++ r)) VCD_ID_MAX = Some (map toupper id)) by (rewrite extract_front by done; rewrite Hlen, Hs, E11, Hor; cbn [andb]; by rewrite take_app_length' by done).
  split.
  - unfold vcdGameIdPrefixLen. cbn zeta. rewrite Hd, He, E11. assert (Hk : vcdSkipPopstarterPrefix (pre ++ id ++ r) = length pre) by (destruct Hp as [->|[H3 Hs3]]; [done|by rewrite (skip_prefix pre _ H3 Hs3)]).
    rewrite Hk. destruct (is_delimiter (at_ r 0)); lia.
  - rewrite <- He. unfold vcdExtractGameId. change (VCD_ID_MAX <=? 11) with false. cbn iota. cbn [mbind option_bind]. rewrite Hd. by rewrite H0, drop_0.
Qed.

(** a name that is cut was one with an id at its front *)
Lemma prefix_len_sound nm : vcdSkipPopstarterPrefix (drop (vcdSkipPopstarterPrefix nm) nm) = 0%nat -> vcdGameIdPrefixLen nm <> 0%nat ->
  exists pre id r, nm = pre ++ id ++ r /\ popstarter_prefix pre /\ strict_id id /\ (at_ r 0 = 0 \/ is_delimiter (at_ r 0) = true).
Proof.
  intros H2 Hn. set (k := vcdSkipPopstarterPrefix nm) in *. assert (Hk : k = 0%nat \/ k = 3%nat /\ (3 <= length nm)%nat).
  { destruct (Nat.eq_dec k 0) as [E|E]; [by left|]. right. destruct (prefix_dot nm E) as (E1 & _ & E2). done. }
  unfold vcdGameIdPrefixLen in Hn. cbn zeta in Hn. fold k in Hn. rewrite (extract_front _ H2) in Hn. set (p := drop k nm) in *.
  destruct ((11 <=? length p)%nat && is_strict_id p && ((at_ p 11 =? 0) || is_delimiter (at_ p 11))) eqn:E; [|done]. apply andb_true_iff in E as [[H11%Nat.leb_le Hi]%andb_true_iff Hd]. clear Hn.
  exists (take k nm), (take 11 p), (drop 11 p). split; [by rewrite take_drop; unfold p; rewrite take_drop|]. split; [|split].
  - destruct Hk as [Hk|[Hk Hl]]; [left; by rewrite Hk|]. right. assert (Ht : length (take k nm) = 3%nat) by (rewrite length_take; lia). split; [done|].
    unfold k in Hk. unfold vcdSkipPopstarterPrefix in Hk |- *. rewrite Ht. change (3 <? 3)%nat with false. cbn iota. destruct (length nm <? 3)%nat; [done|].
    assert (E : existsb (fun q => strncaseeq (take k nm) q 3) POPSTARTER_PREFIXES = existsb (fun q => strncaseeq nm q 3) POPSTARTER_PREFIXES).
    { unfold strncaseeq. rewrite (take_ge (take k nm)) by lia. rewrite length_take in Ht. replace k with 3%nat; [done|]. unfold k, vcdSkipPopstarterPrefix. destruct (existsb _ _); [|done]. by destruct (length nm <? 3)%nat eqn:E3; [apply Nat.ltb_lt in E3; lia|]. }
    rewrite E. by destruct (existsb _ _).
  - split; [rewrite length_take; lia|]. by rewrite strict_id_take.
  - rewrite at_drop. change (11 + 0)%nat with 11%nat. apply orb_true_iff in Hd as [Hd%Z.eqb_eq|Hd]; [by left|by right].
Qed.

(** *** Partition labels *)

(** the two grammars of a disc id in a label: AAAA_NNN.NN, and AAAA-NNNNN with an optional .NN *)
Definition hyphen_id (id : bytes) : Prop :=
  forallb (fun i => isalnum (at_ id i)) [0%nat; 1%nat; 2%nat; 3%nat] = true /\ at_ id 4 = cMINUS /\ forallb (fun i => isdigit (at_ id i)) [5%nat; 6%nat; 7%nat; 8%nat; 9%nat] = true /\
  (length id = 10%nat \/ length id = 13%nat /\ at_ id 10 = cDOT /\ isdigit (at_ id 11) = true /\ isdigit (at_ id 12) = true).
Definition partition_id (id : bytes) : Prop := strict_id id \/ hyphen_id id.
Definition partition_label (id title : bytes) : bytes := bs "PP." ++ id ++ bs ".POPS." ++ title.

Lemma digit_not c : isdigit c = true -> c <> cDOT /\ c <> cMINUS /\ c <> cUSCORE /\ c <> 0 /\ c <> 80.
Proof. unfold isdigit, between. lia. Qed.

Lemma strneq_front s lit n : length lit = n -> strneq s lit n = true -> exists r, s = lit ++ r.
Proof.
  intros Hl H. unfold strneq in H. apply bool_decide_eq_true in H. rewrite (take_ge lit) in H by lia. exists (drop n s). rewrite <- H. by rewrite take_drop.
Qed.
Lemma strneq_app lit r n : length lit = n -> strneq (lit ++ r) lit n = true.
Proof. intros <-. unfold strneq. rewrite take_app_length, take_ge by lia. by apply bool_decide_eq_true. Qed.

Lemma cstring_at s i : cstring s -> (i < length s)%nat -> at_ s i <> 0.
Proof.
  intros Hs Hi. unfold at_. rewrite nth_lookup. destruct (lookup_lt_is_Some_2 s i Hi) as [c Hc]. rewrite Hc. cbn. assert (0 < c < 256) by (apply (Forall_lookup_1 _ _ _ _ Hs Hc)). lia.
Qed.
Lemma at_beyond s i : (length s <= i)%nat -> at_ s i = 0.
Proof. intros H. unfold at_. by apply nth_overflow. Qed.
Lemma at_inside s i : at_ s i <> 0 -> (i < length s)%nat.
Proof. intros H. destruct (Nat.lt_ge_cases i (length s)) as [Hi|Hi]; [done|]. by apply at_beyond in Hi. Qed.

Lemma cut_at (tail : bytes) k n lit title : (k <= length tail)%nat -> drop k tail = lit ++ title -> n = (k + length lit)%nat -> tail = take k tail ++ lit ++ title /\ drop n tail = title.
Proof.
  intros Hk E ->. split; [by rewrite <- E, take_drop|]. rewrite <- (drop_drop tail (length lit) k), E. by apply drop_app_length'.
Qed.

Lemma form_a tail : cstring tail ->
  (18 <=? length tail)%nat && bool_decide (is_Some (vcdExtractGameId (Some tail) VCD_ID_MAX)) && (at_ tail 11 =? cDOT) && strneq (drop 12 tail) (bs "POPS.") 5 && negb (at_ tail 17 =? 0) = true ->
  exists id title, tail = id ++ bs ".POPS." ++ title /\ strict_id id /\ title <> [].
Proof.
  intros Hc H. repeat (apply andb_true_iff in H as [H ?]). apply Nat.leb_le in H. match goal with H : bool_decide _ = true |- _ => apply bool_decide_eq_true in H as [g Hg] end.
  match goal with H : (at_ tail 11 =? cDOT) = true |- _ => apply Z.eqb_eq in H; rename H into Hdot end. match goal with H : strneq _ _ _ = true |- _ => apply (strneq_front _ (bs "POPS.") 5 eq_refl) in H as [title Et] end.
  assert (Hskip : vcdSkipPopstarterPrefix tail = 0%nat).
  { destruct (Nat.eq_dec (vcdSkipPopstarterPrefix tail) 0) as [E|E]; [done|]. exfalso. apply prefix_dot in E as (E & _ & _). unfold vcdExtractGameId in Hg. change (VCD_ID_MAX <=? 11) with false in Hg. cbn iota in Hg. cbn [mbind option_bind] in Hg. rewrite E in Hg.
    destruct (_ <? _)%nat; [done|]. destruct (is_strict_id (drop 3 tail)) eqn:Ei; [|done]. unfold is_strict_id in Ei. repeat (apply andb_true_iff in Ei as [Ei ?]). rewrite !at_drop in *. change (3 + 9)%nat with 12%nat in *.
    assert (H12 : at_ tail 12 = 80) by (change 12%nat with (12 + 0)%nat; rewrite <- at_drop, Et; done). rewrite H12 in *. done. }
  rewrite extract_front in Hg by done. destruct ((11 <=? length tail)%nat && is_strict_id tail && _) eqn:E; [|done]. apply andb_true_iff in E as [[_ Hi]%andb_true_iff _].
  destruct (cut_at tail 12 17 (bs "POPS.") title) as [E1 E2]; [lia|done|done|]. exists (take 11 tail), title. split; [|split; [split; [rewrite length_take; lia|by rewrite strict_id_take by lia]|]].
  - rewrite E1 at 1. assert (Hlk : is_Some (tail !! 11%nat)) by (apply lookup_lt_is_Some_2; lia). destruct Hlk as [c Hlk]. rewrite (take_S_r tail 11 c Hlk).
    assert (c = cDOT) as -> by (unfold at_ in Hdot; rewrite nth_lookup, Hlk in Hdot; done). by rewrite <- app_assoc.
  - intros ->. assert (length (drop 17 tail) = 0%nat) by (by rewrite E2). rewrite length_drop in *. lia.
Qed.

Lemma form_a_complete id title : strict_id id -> cstring title -> title <> [] -> let tail := id ++ bs ".POPS." ++ title in
  (18 <=? length tail)%nat && bool_decide (is_Some (vcdExtractGameId (Some tail) VCD_ID_MAX)) && (at_ tail 11 =? cDOT) && strneq (drop 12 tail) (bs "POPS.") 5 && negb (at_ tail 17 =? 0) = true.
Proof.
  intros Hid Hc Ht tail. assert (Hlen : (1 <= length title)%nat) by (destruct title; [done|cbn; lia]). destruct (prefix_len [] id (bs ".POPS." ++ title)) as [_ He]; [by left|done|by right|]. cbn [app] in He.
  destruct Hid as [Hl Hi]. unfold tail. rewrite (proj2 (Nat.leb_le _ _)) by (rewrite !length_app, Hl; cbn; lia). change (bs ".POPS." ++ title) with ([cDOT] ++ bs "POPS." ++ title) in *. rewrite He. rewrite bool_decide_true by done. cbn [andb].
  replace 11%nat with (length id + 0)%nat at 1 by lia. rewrite at_app_r. change (at_ ([cDOT] ++ bs "POPS." ++ title) 0 =? cDOT) with true. cbn [andb].
  replace (drop 12 (id ++ [cDOT] ++ bs "POPS." ++ title)) with (bs "POPS." ++ title) by (rewrite (app_assoc id); symmetry; apply drop_app_length'; rewrite length_app, Hl; done).
  rewrite strneq_app by done. cbn [andb]. replace 17%nat with (length id + 6)%nat by lia. rewrite at_app_r. change (at_ ([cDOT] ++ bs "POPS." ++ title) 6) with (at_ title 0).
  apply negb_true_iff, Z.eqb_neq. apply cstring_at; [done|lia].
Qed.

Lemma hyphen_app id r : length id = 10%nat \/ length id = 13%nat ->
  forallb (fun i => isalnum (at_ (id ++ r) i)) [0%nat; 1%nat; 2%nat; 3%nat] = forallb (fun i => isalnum (at_ id i)) [0%nat; 1%nat; 2%nat; 3%nat] /\ at_ (id ++ r) 4 = at_ id 4 /\
  forallb (fun i => isdigit (at_ (id ++ r) i)) [5%nat; 6%nat; 7%nat; 8%nat; 9%nat] = forallb (fun i => isdigit (at_ id i)) [5%nat; 6%nat; 7%nat; 8%nat; 9%nat].
Proof. intros H. assert (10 <= length id)%nat by lia. cbn [forallb]. by rewrite !at_app_l by lia. Qed.

(** the code behind the test for the first form *)
Definition form_b (tail : bytes) : nat :=
  if (length tail <? 17)%nat then 0%nat
  else if negb (forallb (fun i => isalnum (at_ tail i)) [0%nat; 1%nat; 2%nat; 3%nat]) then 0%nat
  else if negb (at_ tail 4 =? cMINUS) then 0%nat
  else if negb (forallb (fun i => isdigit (at_ tail i)) [5%nat; 6%nat; 7%nat; 8%nat; 9%nat]) then 0%nat
  else
    let marker := if (at_ tail 10 =? cDOT) && isdigit (at_ tail 11) && isdigit (at_ tail 12) then 13%nat else 10%nat in
    if strneq (drop marker tail) (bs ".POPS.") 6 && negb (at_ tail (marker + 6) =? 0) then (3 + marker + 6)%nat else 0%nat.

Lemma form_b_sound tail : form_b tail <> 0%nat -> exists id title, tail = id ++ bs ".POPS." ++ title /\ hyphen_id id /\ title <> [] /\ form_b tail = (3 + length id + 6)%nat.
Proof.
  unfold form_b. destruct (Nat.ltb_spec (length tail) 17) as [|Hl]; [done|]. destruct (forallb (fun i => isalnum _) _) eqn:Ea; cbn [negb]; [|done]. destruct (Z.eqb_spec (at_ tail 4) cMINUS) as [E4|]; cbn [negb]; [|done].
  destruct (forallb (fun i => isdigit _) _) eqn:Ed; cbn [negb]; [|done]. cbn zeta.
  set (m := if (at_ tail 10 =? cDOT) && isdigit (at_ tail 11) && isdigit (at_ tail 12) then 13%nat else 10%nat). destruct (strneq (drop m tail) (bs ".POPS.") 6) eqn:Es; cbn [andb]; [|done]. destruct (Z.eqb_spec (at_ tail (m + 6)) 0) as [|Hz]; cbn [negb]; [done|]. intros _.
  assert (Hm : (m <= 13)%nat /\ (length (take m tail) = 10%nat \/ length (take m tail) = 13%nat)) by (rewrite length_take; unfold m; destruct (_ && _); lia). destruct Hm as [Hm Hm2].
  apply (strneq_front _ (bs ".POPS.") 6 eq_refl) in Es as [title Et]. destruct (cut_at tail m (m + 6) (bs ".POPS.") title) as [E1 E2]; [lia|done|done|].
  exists (take m tail), title. split; [done|]. split; [|split; [|rewrite length_take, Nat.min_l by lia; lia]].
  - destruct (hyphen_app (take m tail) (drop m tail) Hm2) as (H1 & H2 & H3). rewrite take_drop in H1, H2, H3. split; [by rewrite <- H1|]. split; [by rewrite <- H2|]. split; [by rewrite <- H3|].
    rewrite length_take. unfold m in *. destruct ((at_ tail 10 =? cDOT) && _ && _) eqn:Em; [|left; lia]. right. apply andb_true_iff in Em as [[E10%Z.eqb_eq E11]%andb_true_iff E12].
    assert (Hg : forall i, (i < 13)%nat -> at_ (take 13 tail) i = at_ tail i) by (intros i Hi; rewrite <- (take_drop 13 tail) at 2; symmetry; apply at_app_l; rewrite length_take; lia).
    rewrite !Hg by lia. split; [lia|done].
  - intros ->. apply at_inside in Hz. assert (length (drop (m + 6) tail) = 0%nat) by (by rewrite E2). rewrite length_drop in *. lia.
Qed.

Lemma form_b_complete id title : hyphen_id id -> cstring title -> title <> [] -> form_b (id ++ bs ".POPS." ++ title) = (3 + length id + 6)%nat.
Proof.
  intros (Ha & E4 & Ed & Hl) Hc Ht. set (tail := id ++ bs ".POPS." ++ title). assert (Htl : (1 <= length title)%nat) by (destruct title; [done|cbn; lia]).
  assert (Hl' : length id = 10%nat \/ length id = 13%nat) by tauto. destruct (hyphen_app id (bs ".POPS." ++ title) Hl') as (H1 & H2 & H3). unfold form_b. fold tail in H1, H2, H3.
  rewrite (proj2 (Nat.ltb_ge _ _)) by (unfold tail; rewrite !length_app; change (length (bs ".POPS.")) with 6%nat; lia). rewrite H1, H2, H3, Ha, Ed, E4. cbn [negb Z.eqb Pos.eqb]. cbn zeta.
  assert (Em : (if (at_ tail 10 =? cDOT) && isdigit (at_ tail 11) && isdigit (at_ tail 12) then 13%nat else 10%nat) = length id).
  { destruct Hl as [Hl|(Hl & E10 & E11 & E12)].
    - assert (E : at_ tail 11 = 80) by (unfold tail; replace 11%nat with (length id + 1)%nat by lia; by rewrite at_app_r). rewrite E. by destruct (_ =? _).
    - unfold tail. rewrite !at_app_l by lia. by rewrite E10, E11, E12. }
  rewrite Em. unfold tail at 1. rewrite drop_app_length. rewrite strneq_app by done. cbn [andb]. unfold tail. rewrite at_app_r. change (at_ (bs ".POPS." ++ title) 6) with (at_ title 0).
  rewrite (proj2 (Z.eqb_neq _ _)); [done|]. apply cstring_at; [done|lia].
Qed.

Lemma label_cases label : vcdPopsPartitionTitleOffset label = if strneq label (bs "PP.") 3 then
    let tail := drop 3 label in
    if (18 <=? length tail)%nat && bool_decide (is_Some (vcdExtractGameId (Some tail) VCD_ID_MAX)) && (at_ tail 11 =? cDOT) && strneq (drop 12 tail) (bs "POPS.") 5 && negb (at_ tail 17 =? 0) then 20%nat else form_b tail
  else 0%nat.
Proof. unfold vcdPopsPartitionTitleOffset. by destruct (strneq label (bs "PP.") 3). Qed.

(** *** Later discs *)

Lemma later_from_spec tok p : (0 < length tok)%nat -> later_from tok p = true <-> exists pre r, p = pre ++ r /\ later_disc tok r = true.
Proof.
  intros Ht. induction p as [|c p IH]; cbn [later_from].
  - split; [done|]. intros (pre & r & E & H). symmetry in E. apply app_eq_nil in E as [-> ->]. unfold later_disc, strncaseeq in H. apply andb_true_iff in H as [H _]. apply bool_decide_eq_true in H. destruct tok as [|t tok]; [cbn in Ht; lia|]. by rewrite take_nil in H.
  - rewrite orb_true_iff, IH. split.
    + intros [H|(pre & r & -> & H)]; [exists [], (c :: p); by split|exists (c :: pre), r; by split].
    + intros ([|c' pre] & r & E & H); [left; cbn [app] in E; by rewrite E|]. injection E as -> ->. right. exists pre, r. by split.
Qed.

Lemma disc_number_small d : forall acc r, Forall (fun c => isdigit c = true) d -> match r with [] => True | c :: _ => isdigit c = false end -> 0 <= acc -> digits_val acc d < 2 ^ 31 ->
  disc_number acc (d ++ r) = digits_val acc d.
Proof.
  induction d as [|c d IH]; intros acc r Hd Hr Ha Hv; cbn [app disc_number digits_val].
  - destruct r as [|c r]; [done|]. cbn [disc_number]. by rewrite Hr.
  - apply Forall_cons in Hd as [Hc Hd]. rewrite Hc. cbn [digits_val] in Hv. rewrite Hc in Hv. assert (Hcr : 0 <= c - 48 <= 9) by (unfold isdigit, between in Hc; lia).
    assert (Hmono : forall d acc, 0 <= acc -> acc <= digits_val acc d).
    { clear. induction d as [|c d IH]; intros acc Ha; cbn [digits_val]; [lia|]. destruct (isdigit c) eqn:E; [|lia]. assert (0 <= c - 48) by (unfold isdigit, between in E; lia). specialize (IH (acc * 10 + (c - 48))). lia. }
    pose proof (Hmono d (acc * 10 + (c - 48)) ltac:(lia)). rewrite (s32_id (acc * 10)) by lia. rewrite s32_id by lia. apply IH; [done|done|lia|done].
Qed.

Definition small_numbers (nm : bytes) : Prop := forall pre d r, nm = pre ++ d ++ r -> Forall (fun c => isdigit c = true) d -> digits_val 0 d < 2 ^ 31.

(** a token, blanks, and a number in full *)
Definition disc_tag (tok spaces num rest : bytes) : Prop :=
  map tolower tok ∈ tokens /\ Forall (fun c => c = 32) spaces /\ num <> [] /\ Forall (fun c => isdigit c = true) num /\ match rest with [] => True | c :: _ => isdigit c = false end.

Fixpoint digit_run (s : bytes) : bytes := match s with [] => [] | c :: s => if isdigit c then c :: digit_run s else [] end.
Lemma digit_run_split s : s = digit_run s ++ drop (length (digit_run s)) s /\ Forall (fun c => isdigit c = true) (digit_run s) /\ match drop (length (digit_run s)) s with [] => True | c :: _ => isdigit c = false end.
Proof.
  induction s as [|c s (IH1 & IH2 & IH3)]; cbn [digit_run]; [done|]. destruct (isdigit c) eqn:E; cbn [length drop app]; [|done]. split; [by rewrite <- IH1|]. split; [by constructor|done].
Qed.
Lemma spaces_split s : exists sp, s = sp ++ dropwhile is_space s /\ Forall (fun c => c = 32) sp.
Proof.
  induction s as [|c s (sp & E & H)]; [by exists []|]. cbn [dropwhile]. destruct (is_space c) eqn:Es; [|exists []; by split]. exists (c :: sp). cbn [app]. split; [by rewrite <- E|]. constructor; [by apply Z.eqb_eq in Es|done].
Qed.

Lemma later_disc_spec nm pre p tok : nm = pre ++ p -> small_numbers nm -> tok ∈ tokens ->
  later_disc tok p = true <-> exists tok' sp num rest, p = tok' ++ sp ++ num ++ rest /\ map tolower tok' = tok /\ disc_tag tok' sp num rest /\ 2 <= digits_val 0 num.
Proof.
  intros Hp Hs Ht. assert (Hlow : map tolower tok = tok /\ (0 < length tok)%nat) by (unfold tokens in Ht; repeat (apply elem_of_cons in Ht as [->|Ht]; [split; [reflexivity|cbn; lia]|]); by apply not_elem_of_nil in Ht). destruct Hlow as [Hlow Htl].
  unfold later_disc, strncaseeq. rewrite (take_ge tok) by done. rewrite Hlow. rewrite !andb_true_iff, bool_decide_eq_true. split.
  - intros (Et & Hd & Hn). set (q := drop (length tok) p) in *. destruct (spaces_split q) as (sp & Eq & Hsp). set (d := dropwhile is_space q) in *. destruct (digit_run_split d) as (Ed & Hdig & Hrest).
    assert (Hne : digit_run d <> []) by (destruct d as [|c d]; [done|]; cbn in Hd; cbn [digit_run]; by rewrite Hd).
    exists (take (length tok) p), sp, (digit_run d), (drop (length (digit_run d)) d). assert (E : p = take (length tok) p ++ sp ++ digit_run d ++ drop (length (digit_run d)) d) by (rewrite <- Ed, <- Eq; unfold q; by rewrite take_drop).
    split; [exact E|]. split; [exact Et|]. split; [by rewrite <- Et in Ht|]. rewrite Ed in Hn. rewrite disc_number_small in Hn; [apply Z.leb_le in Hn; lia|done|done|lia|].
    eapply (Hs (pre ++ take (length tok) p ++ sp) _ (drop (length (digit_run d)) d)); [|done]. rewrite Hp. rewrite E at 1. by rewrite <- !app_assoc.
  - intros (tok' & sp & num & rest & -> & Et & (_ & Hsp & Hne & Hdig & Hrest) & Hv). assert (Hl : length tok' = length tok) by (rewrite <- Et; by rewrite length_map). rewrite (take_app_length' tok') by done. rewrite (drop_app_length' tok') by done.
    assert (Ed : dropwhile is_space (sp ++ num ++ rest) = num ++ rest).
    { clear - Hsp Hne Hdig. induction Hsp as [|c sp -> Hsp IH]; cbn [app dropwhile]; [|exact IH]. destruct num as [|c num]; [done|]. cbn [app dropwhile]. apply Forall_cons in Hdig as [Hc _]. replace (is_space c) with false; [done|]. symmetry. apply Z.eqb_neq. unfold isdigit, between in Hc. lia. }
    rewrite Ed. split; [exact Et|]. split; [destruct num as [|c num]; [done|]; by apply Forall_cons in Hdig as [Hc _]|]. rewrite disc_number_small; [apply Z.leb_le; lia|done|done|lia|].
    apply (Hs (pre ++ tok' ++ sp) num rest); [by rewrite Hp, <- !app_assoc|done].
Qed.

(** ** Properties *)

(** Behind a POPSTARTER prefix or none, the disc id of a name and one delimiter are what is
    hidden, and the id is found in upper case; and a name is cut only if an id stands there
    (names with two prefixes apart). *)
Theorem title_shown (pre id : bytes) (sep : Z) (title nm : bytes) :
  popstarter_prefix pre -> strict_id id -> is_delimiter sep = true ->
  (vcdSortKey true (pre ++ id ++ sep :: title) = title /\ vcdExtractGameId (Some (pre ++ id ++ sep :: title)) VCD_ID_MAX = Some (map toupper id)) /\
  (vcdSkipPopstarterPrefix (drop (vcdSkipPopstarterPrefix nm) nm) = 0%nat -> vcdSortKey true nm <> nm ->
   exists pre' id' r, nm = pre' ++ id' ++ r /\ popstarter_prefix pre' /\ strict_id id' /\ vcdSortKey true nm = if is_delimiter (at_ r 0) then tail r else r).
Proof.
  intros Hp Hi Hs. split.
  - destruct (prefix_len pre id (sep :: title) Hp Hi) as [E1 E2]; [by right|]. split; [|exact E2]. unfold vcdSortKey. rewrite E1. cbn [at_ nth]. rewrite Hs. rewrite app_assoc. destruct Hi as [Hl _].
    replace (length pre + 11 + 1)%nat with (length (pre ++ id) + 1)%nat by (rewrite length_app; lia). rewrite drop_app_add. done.
  - intros H2 Hne. assert (Hn : vcdGameIdPrefixLen nm <> 0%nat) by (intros E; apply Hne; unfold vcdSortKey; by rewrite E). destruct (prefix_len_sound nm H2 Hn) as (pre' & id' & r & -> & Hp' & Hi' & Hr). exists pre', id', r.
    split; [done|]. split; [done|]. split; [done|]. destruct (prefix_len pre' id' r Hp' Hi' Hr) as [E _]. unfold vcdSortKey. rewrite E. rewrite app_assoc. destruct Hi' as [Hl _].
    replace (length pre' + 11 + (if is_delimiter (at_ r 0) then 1 else 0))%nat with (length (pre' ++ id') + (if is_delimiter (at_ r 0) then 1 else 0))%nat by (rewrite length_app; lia). rewrite drop_app_add. destruct (is_delimiter (at_ r 0)); [destruct r; reflexivity|reflexivity].
Qed.

(** The offset of a partition label is not zero for the labels PP.<id>.POPS.<title> with an
    id of either grammar and a title, and for no others, and it points at the title. *)
Theorem partition_title (label : bytes) (n : nat) : cstring label ->
  (vcdPopsPartitionTitleOffset label = n /\ n <> 0%nat) <-> exists id title, label = partition_label id title /\ partition_id id /\ title <> [] /\ n = (length id + 9)%nat.
Proof.
  intros Hc. rewrite label_cases. split.
  - intros [<- Hn]. destruct (strneq label (bs "PP.") 3) eqn:E; [|done]. apply (strneq_front _ (bs "PP.") 3 eq_refl) in E as [tail ->]. change (drop 3 (bs "PP." ++ tail)) with tail in *. apply cstring_app in Hc as [_ Hc]. cbn zeta in *.
    destruct (_ && _) eqn:Ea in Hn |- *.
    + apply form_a in Ea as (id & title & -> & Hid & Ht); [|done]. exists id, title. split; [done|]. split; [by left|]. split; [done|]. destruct Hid as [-> _]. done.
    + destruct (form_b_sound tail Hn) as (id & title & -> & Hid & Ht & ->). exists id, title. split; [done|]. split; [by right|]. split; [done|]. lia.
  - intros (id & title & -> & Hid & Ht & ->). split; [|lia]. unfold partition_label in *. apply cstring_app in Hc as [_ Hc]. apply cstring_app in Hc as [_ Hc]. apply cstring_app in Hc as [_ Hc]. rewrite strneq_app by done.
    change (drop 3 (bs "PP." ++ ?x)) with x. cbn zeta. replace (drop 3 (bs "PP." ++ id ++ bs ".POPS." ++ title)) with (id ++ bs ".POPS." ++ title) by done. destruct Hid as [Hid|Hid].
    + rewrite (form_a_complete id title Hid Hc Ht). destruct Hid as [-> _]. done.
    + destruct (_ && _) eqn:Ea; [|rewrite form_b_complete by done; lia]. exfalso. apply andb_true_iff in Ea as [Ea _]. apply andb_true_iff in Ea as [Ea _]. apply andb_true_iff in Ea as [Ea _]. apply andb_true_iff in Ea as [_ Ea]. apply bool_decide_eq_true in Ea as [g Eg].
      assert (H4 : at_ (id ++ bs ".POPS." ++ title) 4 = cMINUS) by (destruct Hid as (_ & E4 & _ & Hl); rewrite at_app_l by lia; exact E4).
      assert (H0 : vcdSkipPopstarterPrefix (id ++ bs ".POPS." ++ title) = 0%nat).
      { destruct (Nat.eq_dec (vcdSkipPopstarterPrefix (id ++ bs ".POPS." ++ title)) 0) as [E|E]; [done|]. apply prefix_dot in E as (_ & E & _). destruct Hid as (Ha & _ & _ & Hl). rewrite at_app_l in E by lia. cbn [forallb] in Ha. rewrite E in Ha. change (isalnum cDOT) with false in Ha. rewrite !andb_false_l, !andb_false_r in Ha. done. }
      rewrite (extract_front _ H0) in Eg. destruct ((11 <=? _)%nat && is_strict_id (id ++ bs ".POPS." ++ title) && _) eqn:E; [|done]. apply andb_true_iff in E as [[_ E]%andb_true_iff _]. unfold is_strict_id in E. rewrite H4 in E. change (cMINUS =? cUSCORE) with false in E. by rewrite andb_false_r in E.
Qed.

(** A name is hidden as a later disc exactly when it holds one of the tokens in any case,
    blanks and a number of two or more. *)
Theorem later_disc_hidden (nm : bytes) : small_numbers nm ->
  vcdIsHiddenDisc nm = true <-> exists pre tok sp num rest, nm = pre ++ tok ++ sp ++ num ++ rest /\ disc_tag tok sp num rest /\ 2 <= digits_val 0 num.
Proof.
  intros Hs. assert (Hpos : forall tok, tok ∈ tokens -> (0 < length tok)%nat) by (intros tok Ht; unfold tokens in Ht; repeat (apply elem_of_cons in Ht as [->|Ht]; [cbn; lia|]); by apply not_elem_of_nil in Ht).
  unfold vcdIsHiddenDisc. rewrite existsb_exists. split.
  - intros (tok & Ht%list_elem_of_In & H). apply later_from_spec in H as (pre & r & E & H); [|by apply Hpos]. apply (later_disc_spec nm pre r tok E Hs Ht) in H as (tok' & sp & num & rest & -> & _ & Htag & Hv). by exists pre, tok', sp, num, rest.
  - intros (pre & tok & sp & num & rest & E & Htag & Hv). assert (Ht := proj1 Htag). exists (map tolower tok). split; [by apply list_elem_of_In|]. apply later_from_spec; [by apply Hpos|]. exists pre, (tok ++ sp ++ num ++ rest). split; [done|].
    apply (later_disc_spec nm pre _ _ E Hs Ht). by exists tok, sp, num, rest.
Qed.

(** ** The theorems on concrete names *)

Lemma title_shown_witness : vcdSortKey true (bs "XX.SLUS_005.51.Title") = bs "Title" /\ vcdExtractGameId (Some (bs "XX.SLUS_005.51.Title")) VCD_ID_MAX = Some (bs "SLUS_005.51").
Proof.
  destruct (title_shown (bs "XX.") (bs "SLUS_005.51") cDOT (bs "Title") []) as [H _]; [right; by split|by split|reflexivity|exact H].
Defined.

Lemma partition_title_witness : vcdPopsPartitionTitleOffset (bs "PP.SLUS-21025.01.POPS.TITLE") = 22%nat /\ drop 22 (bs "PP.SLUS-21025.01.POPS.TITLE") = bs "TITLE".
Proof.
  split; [|reflexivity]. apply (partition_title (bs "PP.SLUS-21025.01.POPS.TITLE") 22); [apply (bool_decide_unpack _); vm_compute; exact I|].
  exists (bs "SLUS-21025.01"), (bs "TITLE"). split; [reflexivity|]. split; [right; split; [reflexivity|]; split; [reflexivity|]; split; [reflexivity|]; right; by split|]. by split.
Defined.

Lemma no_digits_small nm : forallb (fun k => digits_val 0 (digit_run (drop k nm)) <? 2 ^ 31) (List.seq 0 (S (length nm))) = true -> small_numbers nm.
Proof.
  intros H pre d r -> Hd. rewrite forallb_forall in H. specialize (H (length pre)). rewrite drop_app_length in H.
  assert (Hmono : forall d a r, 0 <= a -> Forall (fun c => isdigit c = true) d -> digits_val a d <= digits_val a (digit_run (d ++ r))).
  { clear. induction d as [|c d IH]; intros a r Ha Hd; cbn [digits_val app digit_run].
    - generalize (digit_run r). intros s. revert a Ha. induction s as [|c s IH]; intros a Ha; cbn [digits_val]; [lia|]. destruct (isdigit c) eqn:E; [|lia]. assert (0 <= c - 48) by (unfold isdigit, between in E; lia). specialize (IH (a * 10 + (c - 48)) ltac:(lia)). lia.
    - apply Forall_cons in Hd as [Hc Hd]. rewrite Hc. cbn [digits_val]. rewrite Hc. apply IH; [unfold isdigit, between in Hc; lia|done]. }
  specialize (Hmono d 0 r ltac:(lia) Hd). assert (Hin : In (length pre) (List.seq 0 (S (length (pre ++ d ++ r))))) by (apply in_seq; rewrite length_app; lia). apply H in Hin. apply Z.ltb_lt in Hin. lia.
Qed.

Lemma later_disc_hidden_witness : vcdIsHiddenDisc (bs "Game (Disc 2)") = true /\ vcdIsHiddenDisc (bs "Game (Disc 1)") = false.
Proof.
  split; [|reflexivity]. apply (later_disc_hidden (bs "Game (Disc 2)")); [apply no_digits_small; vm_compute; reflexivity|].
  exists (bs "Game "), (bs "(Disc"), (bs " "), (bs "2"), (bs ")"). split; [reflexivity|]. split; [|vm_compute; discriminate].
  split; [apply list_elem_of_In; vm_compute; by left|]. split; [by constructor|]. split; [done|]. split; [by constructor|reflexivity].
Defined.

(** ** What the code does not hold *)

(** a name with two prefixes is cut inside its id: the prefixes are skipped twice, the length is
    counted once *)
Example two_prefixes : vcdSortKey true (bs "XX.SB.SLUS_005.51.Title") = bs "51.Title".
Proof. vm_compute. reflexivity. Qed.

(** the number of a disc is an [int]: 2^32 + 1 is disc 1 *)
Example disc_number_wraps : vcdIsHiddenDisc (bs "Game (Disc 4294967297)") = false.
Proof. vm_compute. reflexivity. Qed.
