(* ===== verification/Ps1List.v ===== *)
(** * Ps1List: the list of PlayStation 1 titles of a device (src/vcdsupport.c, src/cuesupport.c)

    One list of two libraries: the files POPS/*.VCD and the folders EMBER/games/*. The scans
    tell a directory that is not there from one that could not be read; the list that is shown
    is replaced only when the new one is complete. The memo of disc ids ([vcdNoteScanDir]) is
    for display and not modelled. *)
From stdpp Require Import sorting.
From S2P Require Import Prelude CLib BootCnf GameList Ps1Names.

Definition VCD_NAME_MAX : nat := 256.
Definition VCD_MAX_ITEMS : nat := 2048.
Definition CUE_MAX_ITEMS : nat := 2048.

(** ** The device *)

Inductive dir_result := DirNames (names : list bytes) | DirAbsent | DirUnreadable.

Class Ps1FS (W : Type) := {
  pf_dir : W -> bytes -> dir_result;   (** [opendir] and the names [readdir] gives; [DirAbsent] for ENOENT *)
  pf_open : W -> bytes -> bool;        (** [open] for reading succeeds *)
  pf_rename : W -> bytes -> bytes -> option W;
}.

(** ** [qsort]: any order of equal rows would do; this one keeps it *)

Section Sort.
Context {A : Type} (cmp : A -> A -> Z).
Fixpoint insert_row (x : A) (l : list A) : list A := match l with [] => [x] | y :: l' => if cmp x y <=? 0 then x :: l else y :: insert_row x l' end.
Definition qsort (l : list A) : list A := foldr insert_row [] l.
End Sort.

(** ** The files of POPS *)

(** the title of a directory entry *)
Definition vcd_title (d_name : bytes) : option bytes :=
  let len := length d_name in
  if (len <? 5)%nat || negb (strcaseeq (drop (len - 4) d_name) (bs ".VCD")) then None
  else
    let baseLen := (len - 4)%nat in
    if (ISO_GAME_NAME_MAX <? baseLen)%nat then None
    else if (baseLen =? 10)%nat && strncaseeq d_name (bs "POPSTARTER") 10 then None
    else Some (take baseLen d_name).

Fixpoint collect (title : bytes -> option bytes) (room : nat) (names : list bytes) {struct names} : list bytes :=
  match room, names with
  | S room', d :: names => match title d with Some t => t :: collect title room' names | None => collect title room names end
  | _, _ => []
  end.

(** the settings the lists look at *)
Record ps1_settings := Ps1Set { gAutosort : bool; gVcdHideGameId : bool; gVcdFirstDiscOnly : bool }.

Section Lists.
Context {W : Type} `{!Ps1FS W} (s : ps1_settings).
Implicit Types w : W.

(** [None] for -1 *)
Definition vcdScanOpenDir w (dirPath : bytes) : option (list bytes) :=
  match pf_dir w dirPath with
  | DirAbsent => Some []
  | DirUnreadable => None
  | DirNames names =>
    let l := collect vcd_title VCD_MAX_ITEMS names in
    Some (if gAutosort s then qsort (vcdEntryCmp (gVcdHideGameId s)) l else l)
  end.
Definition vcdScanDir w (devPrefix : bytes) : option (list bytes) := vcdScanOpenDir w (bufcpy 256 (devPrefix ++ POPS_FOLDER)).
Definition vcdScanDirRoot w (dirPath : bytes) : option (list bytes) := vcdScanOpenDir w dirPath.

(** [snprintf] into the arrays of a row that was cleared *)
Definition title_row (ext title : bytes) : base_game_info_t :=
  Game (arr 161 (bufcpy 161 title)) (arr 13 (bufcpy 13 title)) (arr 5 (bufcpy 5 ext)) 1 0 GAME_FORMAT_ISO 0.

(** the result, and the list that is shown *)
Definition vcdFillGameList w (devPrefix : bytes) (outGames : list base_game_info_t) : Z * list base_game_info_t :=
  match vcdScanDir w devPrefix with
  | None => (-1, outGames)
  | Some vcds =>
    let games := map (title_row (bs ".VCD")) (base.filter (fun v => gVcdFirstDiscOnly s && vcdIsHiddenDisc v = false) vcds) in
    (Z.of_nat (length games), games)
  end.

(** ** The folders of EMBER *)

Definition EMBER_FOLDER_DEFAULT : bytes := bs "EMBER".
Definition EMBER_ELF_NAME : bytes := bs "ember.elf".
Definition EMBER_BIOS_NAME : bytes := bs "bios.bin".
Definition EMBER_GAMES_FOLDER : bytes := bs "games".
Definition CUE_ROW_EXTENSION : bytes := bs ".CUE".

Definition cueSep (devPrefix : bytes) : Z := match last devPrefix with Some c => if c =? cBSLASH then cBSLASH else cSLASH | None => cSLASH end.

(** the path and whether it can be opened *)
Definition cueResolveEmberFile w (devPrefix fileName : bytes) (outSize : nat) : bool :=
  pf_open w (bufcpy outSize (devPrefix ++ EMBER_FOLDER_DEFAULT ++ [cueSep devPrefix] ++ fileName)).
Definition cueResolveEmber w (devPrefix : bytes) (outSize : nat) : bool := cueResolveEmberFile w devPrefix EMBER_ELF_NAME outSize.
Definition cueResolveEmberBios w (devPrefix : bytes) (outSize : nat) : bool := cueResolveEmberFile w devPrefix EMBER_BIOS_NAME outSize.
Definition cueBuildGamesDir (devPrefix : bytes) (outSize : nat) : bytes := bufcpy outSize (devPrefix ++ EMBER_FOLDER_DEFAULT ++ [cueSep devPrefix] ++ EMBER_GAMES_FOLDER).

Definition opens w (path : bytes) : bool := match pf_dir w path with DirNames _ => true | _ => false end.
Definition cueEntryIsDir w (devPrefix gamesDir d_name : bytes) : bool := opens w (bufcpy 320 (gamesDir ++ [cueSep devPrefix] ++ d_name)).

Definition cue_title w (devPrefix gamesDir d_name : bytes) : option bytes :=
  if streq d_name (bs ".") || streq d_name (bs "..") then None
  else if negb (cueNameLaunchable (Some d_name)) then None
  else if (ISO_GAME_NAME_MAX <? length d_name)%nat then None
  else if cueEntryIsDir w devPrefix gamesDir d_name then Some (bufcpy 192 d_name) else None.

Definition cueScanDir w (devPrefix : bytes) : option (list bytes) :=
  if negb (cueResolveEmber w devPrefix 288) then Some []
  else
    let gamesDir := cueBuildGamesDir devPrefix 288 in
    match pf_dir w gamesDir with
    | DirAbsent => Some []
    | DirUnreadable => None
    | DirNames names => Some (collect (cue_title w devPrefix gamesDir) CUE_MAX_ITEMS names)
    end.

Definition cueFillGameListUnsorted w (devPrefix : bytes) (outGames : list base_game_info_t) : Z * list base_game_info_t :=
  match cueScanDir w devPrefix with
  | None => (-1, outGames)
  | Some entries => let games := map (title_row CUE_ROW_EXTENSION) entries in (Z.of_nat (length games), games)
  end.

(** ** One list *)

Definition ps1RowCmp (a b : base_game_info_t) : Z :=
  let r := strcasecmp (vcdSortKey (gVcdHideGameId s) (g_name a)) (vcdSortKey (gVcdHideGameId s) (g_name b)) in
  if r =? 0 then strcasecmp (g_ext a) (g_ext b) else r.

Definition cueFillGameList w (devPrefix : bytes) (outGames : list base_game_info_t) : Z * list base_game_info_t :=
  let '(count, games) := cueFillGameListUnsorted w devPrefix outGames in
  (count, if (1 <? count) && gAutosort s then qsort ps1RowCmp games else games).

Definition ps1FillGameList w (devPrefix : bytes) (outGames : list base_game_info_t) : Z * list base_game_info_t :=
  let '(vcdCount, vcdGames) := vcdFillGameList w devPrefix [] in
  let '(cueCount, cueGames) := cueFillGameListUnsorted w devPrefix [] in
  if (vcdCount <? 0) && (cueCount <? 0) then (-1, outGames)
  else
    let vcdGames := if vcdCount <? 0 then [] else vcdGames in
    let vcdCount := if vcdCount <? 0 then 0 else vcdCount in
    let cueGames := if cueCount <? 0 then [] else cueGames in
    let cueCount := if cueCount <? 0 then 0 else cueCount in
    let total := vcdCount + cueCount in
    if total =? 0 then (0, [])
    else
      let merged := vcdGames ++ cueGames in
      (total, if gAutosort s && (1 <? total) then qsort ps1RowCmp merged else merged).
End Lists.

(** ** Rows *)

Definition cueIsCueEntry (game : option base_game_info_t) : bool := match game with Some g => strcaseeq (g_ext g) CUE_ROW_EXTENSION | None => false end.
Definition cueRowIsCueByName (games : list base_game_info_t) (nm : bytes) : Z :=
  match head (base.filter (fun g => g_name g = nm) games) with
  | Some g => if cueIsCueEntry (Some g) then 1 else 0
  | None => -1
  end.

(** ** Launch and rename *)

Section Rename.
Context {W : Type} `{!Ps1FS W}.
Implicit Types w : W.

Definition cueDiscExts : list bytes := [bs ".cue"; bs ".exe"; bs ".bin"].
Definition cueGameHasImage w (devPrefix : bytes) (nm : option bytes) : bool :=
  match nm with
  | None | Some [] => false
  | Some nm =>
    match pf_dir w (bufcpy 320 (cueBuildGamesDir devPrefix 288 ++ [cueSep devPrefix] ++ nm)) with
    | DirNames names => existsb (fun d => negb (length d <? 5)%nat && existsb (fun e => strcaseeq (drop (length d - 4) d) e) cueDiscExts) names
    | _ => true
    end
  end.

(** the separator a directory path uses *)
Definition vcdDirSep (dirPath : bytes) : Z :=
  match strrchr dirPath cBSLASH, strrchr dirPath cSLASH with
  | Some b, Some f => if (f <? b)%nat then cBSLASH else cSLASH
  | Some _, None => cBSLASH
  | None, _ => cSLASH
  end.
(** [None] for -1 *)
Definition vcdJoinDirFile (outSize : nat) (dirPath fileName : bytes) : option bytes :=
  match last dirPath with
  | None => None
  | Some c =>
    let sep := if negb (c =? cSLASH) && negb (c =? cBSLASH) then [vcdDirSep dirPath] else [] in
    let out := dirPath ++ sep ++ fileName in
    if (length out <? outSize)%nat then Some out else None
  end.

Definition is_file_of (oldName d_name : bytes) : bool :=
  (length d_name =? length oldName + 4)%nat && strneq d_name oldName (length oldName) && strcaseeq (drop (length oldName) d_name) (bs ".VCD").

(** [None] for -1 *)
Definition vcdRenameFileInDir w (dirPath : bytes) (oldName newName : option bytes) : option W :=
  if negb (vcdValidRenameName oldName) || negb (vcdValidRenameName newName) then None
  else
    let oldName := default [] oldName in
    let newName := default [] newName in
    match pf_dir w dirPath with
    | DirNames names =>
      oldFile ← head (base.filter (fun d => is_file_of oldName d = true) names);
      let newFile := newName ++ drop (length oldName) oldFile in
      if (VCD_NAME_MAX + 4 <=? length newFile)%nat then None
      else
        oldPath ← vcdJoinDirFile 512 dirPath oldFile;
        newPath ← vcdJoinDirFile 512 dirPath newFile;
        pf_rename w oldPath newPath
    | _ => None
    end.
Definition vcdRenameFile w (devPrefix : bytes) (oldName newName : option bytes) : option W :=
  let dirPath := devPrefix ++ POPS_FOLDER in
  if (256 <=? length dirPath)%nat then None else vcdRenameFileInDir w dirPath oldName newName.

Definition cueRenameGame w (devPrefix : bytes) (oldName newName : option bytes) : option W :=
  if negb (cueNameLaunchable oldName) || negb (cueNameLaunchable newName) then None
  else if bool_decide (oldName = newName) then Some w
  else
    let path n := cueBuildGamesDir devPrefix 288 ++ [cueSep devPrefix] ++ default [] n in
    if (320 <=? length (path oldName))%nat || (320 <=? length (path newName))%nat then None
    else if opens w (path newName) then None
    else pf_rename w (path oldName) (path newName).
End Rename.

(** ** Lemmas *)

(** *** The order of strings *)

Lemma strncmp_antisym a b n : strncmp b a n = - strncmp a b n.
Proof.
  revert a b. induction n as [|n IH]; intros a b; [by destruct a, b|]. destruct a as [|x a], b as [|y b]; cbn [strncmp]; [done|lia|lia|].
  rewrite (Z.eqb_sym y x). destruct (x =? y); [apply IH|lia].
Qed.

Lemma strncmp_more a b n m : (length a < n)%nat -> (n <= m)%nat -> strncmp a b m = strncmp a b n.
Proof.
  revert a b m. induction n as [|n IH]; intros a b m Ha Hm; [lia|]. destruct m as [|m]; [lia|]. destruct a as [|x a], b as [|y b]; cbn [strncmp]; try done. destruct (x =? y); [|done]. apply IH; cbn in Ha; lia.
Qed.

Lemma strncmp_trans a b c n : cstring a -> cstring b -> cstring c -> strncmp a b n <= 0 -> strncmp b c n <= 0 -> strncmp a c n <= 0.
Proof.
  revert a b c. induction n as [|n IH]; intros a b c Ha Hb Hc H1 H2; [by destruct a|]. destruct a as [|x a]; [destruct c as [|z c]; cbn; [lia|]; apply Forall_cons in Hc as [Hz _]; lia|]. apply Forall_cons in Ha as [Hx Ha].
  destruct b as [|y b]; [cbn in H1; lia|]. apply Forall_cons in Hb as [Hy Hb]. destruct c as [|z c]; [cbn in H2; lia|]. apply Forall_cons in Hc as [Hz Hc].
  cbn [strncmp] in *. destruct (Z.eqb_spec x y) as [->|Hxy], (Z.eqb_spec y z) as [->|Hyz].
  - by apply (IH a b c).
  - exact H2.
  - destruct (Z.eqb_spec x z); [done|lia].
  - destruct (Z.eqb_spec x z); lia.
Qed.

Lemma strcmp_at a b n : (length a < n)%nat -> strcmp a b = strncmp a b n.
Proof.
  intros H. unfold strcmp. destruct (Nat.le_ge_cases n (S (length a + length b))); [by apply strncmp_more|]. symmetry. apply strncmp_more; lia.
Qed.

Lemma strcmp_antisym a b : strcmp b a = - strcmp a b.
Proof. unfold strcmp. rewrite (Nat.add_comm (length b)). apply strncmp_antisym. Qed.

Lemma strcmp_trans a b c : cstring a -> cstring b -> cstring c -> strcmp a b <= 0 -> strcmp b c <= 0 -> strcmp a c <= 0.
Proof.
  intros Ha Hb Hc. set (n := S (length a + length b)). rewrite (strcmp_at a b n), (strcmp_at b c n), (strcmp_at a c n) by (unfold n; lia). by apply strncmp_trans.
Qed.

Lemma strcmp_eq a b : cstring a -> cstring b -> strcmp a b = 0 <-> a = b.
Proof. intros Ha Hb. unfold strcmp. rewrite strncmp_zero by done. rewrite !take_ge by lia. done. Qed.

Lemma cstring_lower s : cstring s -> cstring (map tolower s).
Proof. intros H. unfold cstring in *. apply Forall_fmap. eapply Forall_impl; [exact H|]. intros c Hc. cbn. unfold tolower. destruct (isupper c) eqn:E; [|done]. unfold isupper, between in E. lia. Qed.

(** *** [qsort] *)

Section SortLemmas.
Context {A : Type} (cmp : A -> A -> Z) (ok : A -> Prop).
Hypothesis cmp_anti : forall a b, cmp b a = - cmp a b.
Hypothesis cmp_trans : forall a b c, ok a -> ok b -> ok c -> cmp a b <= 0 -> cmp b c <= 0 -> cmp a c <= 0.

Lemma insert_perm x l : insert_row cmp x l ≡ₚ x :: l.
Proof using. induction l as [|y l IH]; cbn [insert_row]; [done|]. destruct (cmp x y <=? 0); [done|]. rewrite IH. apply Permutation_swap. Qed.

Lemma qsort_perm l : qsort cmp l ≡ₚ l.
Proof using. induction l as [|x l IH]; [done|]. cbn. rewrite insert_perm. by f_equiv. Qed.

Lemma insert_sorted x l : ok x -> Forall ok l -> StronglySorted (fun a b => cmp a b <= 0) l -> StronglySorted (fun a b => cmp a b <= 0) (insert_row cmp x l).
Proof using cmp_anti cmp_trans.
  intros Hx Hl Hs. induction Hs as [|y l Hs IH Hy]; cbn [insert_row]; [by repeat constructor|]. apply Forall_cons in Hl as [Hoy Hl]. destruct (Z.leb_spec (cmp x y) 0) as [Hle|Hgt].
  - constructor; [by constructor|]. constructor; [done|]. rewrite Forall_forall in *. intros z Hz. apply (cmp_trans x y z); auto.
  - constructor; [by apply IH|]. rewrite insert_perm. constructor; [rewrite cmp_anti; lia|done].
Qed.

Lemma qsort_sorted l : Forall ok l -> StronglySorted (fun a b => cmp a b <= 0) (qsort cmp l).
Proof using cmp_anti cmp_trans.
  induction l as [|x l IH]; intros Hl; [constructor|]. change (qsort cmp (x :: l)) with (insert_row cmp x (qsort cmp l)). apply Forall_cons in Hl as [Hx Hl]. apply insert_sorted; [done|by rewrite qsort_perm|by apply IH].
Qed.
End SortLemmas.

Lemma qsort_small {A} (cmp : A -> A -> Z) (l : list A) : (length l <= 1)%nat -> qsort cmp l = l.
Proof. destruct l as [|a [|b l]]; cbn; [done|done|lia]. Qed.

(** rows with strings in their arrays *)
Definition row_strings (g : base_game_info_t) : Prop := cstring (g_name g) /\ cstring (g_ext g).

Lemma sort_key_cstring h nm : cstring nm -> cstring (vcdSortKey h nm).
Proof. intros H. unfold vcdSortKey. destruct h; [by apply cstring_drop|done]. Qed.

Lemma row_cmp_anti s a b : ps1RowCmp s b a = - ps1RowCmp s a b.
Proof.
  unfold ps1RowCmp, strcasecmp. rewrite (strcmp_antisym (map tolower (vcdSortKey _ (g_name a)))). set (r := strcmp (map tolower (vcdSortKey _ (g_name a))) _).
  destruct (Z.eqb_spec r 0) as [E|E]; [rewrite (proj2 (Z.eqb_eq _ _)) by lia; apply strcmp_antisym|rewrite (proj2 (Z.eqb_neq _ _)) by lia; done].
Qed.

Lemma row_cmp_trans s a b c : row_strings a -> row_strings b -> row_strings c -> ps1RowCmp s a b <= 0 -> ps1RowCmp s b c <= 0 -> ps1RowCmp s a c <= 0.
Proof.
  intros [Ha Ha'] [Hb Hb'] [Hc Hc']. unfold ps1RowCmp, strcasecmp. set (k g := map tolower (vcdSortKey (gVcdHideGameId s) (g_name g))). fold (k a) (k b) (k c).
  assert (Hk : forall g, cstring (g_name g) -> cstring (k g)) by (intros g Hg; unfold k; by apply cstring_lower, sort_key_cstring).
  assert (Hka := Hk a Ha). assert (Hkb := Hk b Hb). assert (Hkc := Hk c Hc). clear Hk. assert (He : strcmp (map tolower (g_ext a)) (map tolower (g_ext b)) <= 0 -> strcmp (map tolower (g_ext b)) (map tolower (g_ext c)) <= 0 -> strcmp (map tolower (g_ext a)) (map tolower (g_ext c)) <= 0) by (apply strcmp_trans; by apply cstring_lower).
  assert (Ht := strcmp_trans _ _ _ Hka Hkb Hkc). assert (E1 := strcmp_eq _ _ Hka Hkb). assert (E2 := strcmp_eq _ _ Hkb Hkc). assert (E3 := strcmp_eq _ _ Hka Hkc).
  destruct (Z.eqb_spec (strcmp (k a) (k b)) 0) as [H1|H1], (Z.eqb_spec (strcmp (k b) (k c)) 0) as [H2|H2], (Z.eqb_spec (strcmp (k a) (k c)) 0) as [H3|H3]; intros L1 L2; try (by apply He); try (by apply Ht; lia).
  - exfalso. apply H2. apply E2. apply E1 in H1. apply E3 in H3. congruence.
  - exfalso. apply H1. apply E1. apply E2 in H2. apply E3 in H3. congruence.
  - exfalso. apply E3 in H3. rewrite <- H3 in L2, H2. rewrite (strcmp_antisym (k a) (k b)) in *. lia.
Qed.

(** *** What the scans collect *)

Lemma collect_spec title names : forall room t, t ∈ collect title room names -> exists d, d ∈ names /\ title d = Some t.
Proof.
  induction names as [|d names IH]; intros room t Ht; [by destruct room; apply not_elem_of_nil in Ht|]. destruct room as [|room]; [by apply not_elem_of_nil in Ht|]. cbn [collect] in Ht. destruct (title d) as [t'|] eqn:E.
  - apply elem_of_cons in Ht as [->|Ht]; [exists d; split; [by left|done]|]. destruct (IH _ _ Ht) as (d' & Hd & Et). exists d'. split; [by right|done].
  - destruct (IH _ _ Ht) as (d' & Hd & Et). exists d'. split; [by right|done].
Qed.

Lemma collect_all title names : forall room, (length names <= room)%nat -> collect title room names = omap title names.
Proof.
  induction names as [|d names IH]; intros room Hr; [by destruct room|]. destruct room as [|room]; [cbn in Hr; lia|]. cbn [collect omap list_omap]. cbn in Hr. destruct (title d); [f_equal; apply IH; lia|apply IH; lia].
Qed.

Lemma collect_length title names : forall room, (length (collect title room names) <= room)%nat.
Proof. induction names as [|d names IH]; intros [|room]; cbn [collect length]; [lia|lia|lia|]. destruct (title d); cbn [length]; [specialize (IH room)|specialize (IH (S room))]; lia. Qed.

(** a title that is listed: it fits a row, is not the launcher's own name, and is the file's name without its extension *)
Definition vcd_file (t d : bytes) : Prop :=
  exists ext, d = t ++ ext /\ map tolower ext = bs ".vcd" /\ (1 <= length t <= ISO_GAME_NAME_MAX)%nat /\ map tolower t <> bs "popstarter".

Lemma vcd_title_spec d t : vcd_title d = Some t <-> vcd_file t d.
Proof.
  unfold vcd_title, vcd_file, strcaseeq, strncaseeq, ISO_GAME_NAME_MAX. cbn zeta. split.
  - destruct (Nat.ltb_spec (length d) 5) as [|H5]; [done|]. cbn [orb]. destruct (bool_decide_reflect (map tolower (drop (length d - 4) d) = map tolower (bs ".VCD"))) as [Ex|]; cbn [negb]; [|done].
    destruct (Nat.ltb_spec 160 (length d - 4)) as [|Hl]; [done|]. destruct (Nat.eqb_spec (length d - 4) 10) as [El|El]; cbn [andb].
    + case_bool_decide as Ep; [done|]. intros [= <-]. exists (drop (length d - 4) d). split; [by rewrite take_drop|]. split; [exact Ex|]. rewrite length_take. split; [lia|]. rewrite El. intros E. apply Ep. exact E.
    + intros [= <-]. exists (drop (length d - 4) d). split; [by rewrite take_drop|]. split; [exact Ex|]. rewrite length_take. split; [lia|]. intros E. apply (f_equal length) in E. rewrite length_map, length_take in E. cbn in E. lia.
  - intros (ext & -> & Ex & Hl & Hp). assert (He : length ext = 4%nat) by (apply (f_equal length) in Ex; by rewrite length_map in Ex). rewrite length_app, He. replace (length t + 4 - 4)%nat with (length t) by lia.
    rewrite (proj2 (Nat.ltb_ge _ _)) by lia. rewrite drop_app_length, take_app_length. rewrite bool_decide_true by exact Ex. cbn [negb orb]. rewrite (proj2 (Nat.ltb_ge _ _)) by lia.
    destruct (Nat.eqb_spec (length t) 10) as [El|]; cbn [andb]; [|done]. rewrite take_app_length' by done. rewrite bool_decide_false by exact Hp. done.
Qed.

Lemma title_row_strings ext t : cstring ext -> (length ext < 5)%nat -> cstring t -> row_strings (title_row ext t).
Proof.
  intros He Hl Ht. unfold row_strings, g_name, g_ext, title_row. cbn [name extension]. rewrite !cstr_arr; [by split; apply cstring_take| | | |]; try (by apply cstring_take).
  - pose proof (bufcpy_length 5 ext). lia.
  - pose proof (bufcpy_length 161 t). lia.
Qed.
Lemma title_row_name ext t : cstring t -> (length t <= ISO_GAME_NAME_MAX)%nat -> g_name (title_row ext t) = t.
Proof. unfold ISO_GAME_NAME_MAX. intros Ht Hl. unfold g_name, title_row. cbn [name]. rewrite bufcpy_id by lia. apply cstr_arr; [done|lia]. Qed.

Section Ps1.
Context {W : Type} `{!Ps1FS W} (s : ps1_settings).
Implicit Types w : W.

Definition shown (t : bytes) : Prop := gVcdFirstDiscOnly s && vcdIsHiddenDisc t = false.
#[local] Instance shown_dec t : Decision (shown t) := decide (_ = false).

(** the rows of the halves; a half that could not be read has none *)
Definition vcd_rows w (devPrefix : bytes) : list base_game_info_t := map (title_row (bs ".VCD")) (base.filter shown (default [] (vcdScanDir s w devPrefix))).
Definition cue_rows w (devPrefix : bytes) : list base_game_info_t := map (title_row CUE_ROW_EXTENSION) (default [] (cueScanDir w devPrefix)).

Definition dir_strings w : Prop := forall path names, pf_dir w path = DirNames names -> Forall cstring names.

Lemma vcd_scan_title w devPrefix l t : dir_strings w -> vcdScanDir s w devPrefix = Some l -> t ∈ l ->
  cstring t /\ exists names d, pf_dir w (bufcpy 256 (devPrefix ++ POPS_FOLDER)) = DirNames names /\ d ∈ names /\ vcd_file t d.
Proof.
  intros Hd Hs Ht. unfold vcdScanDir, vcdScanOpenDir in Hs. destruct (pf_dir w _) as [names| |] eqn:E; [|injection Hs as <-; by apply not_elem_of_nil in Ht|done]. cbn zeta in Hs. injection Hs as <-.
  assert (Hin : t ∈ collect vcd_title VCD_MAX_ITEMS names) by (destruct (gAutosort s); [by rewrite qsort_perm in Ht|done]). apply collect_spec in Hin as (d & Hdn & Et). apply vcd_title_spec in Et.
  assert (Hc : cstring d) by (specialize (Hd _ _ E); rewrite Forall_forall in Hd; by apply Hd). split; [|by exists names, d]. destruct Et as (ext & -> & _). by apply cstring_app in Hc as [Hc _].
Qed.

Lemma cue_scan_title w devPrefix l t : dir_strings w -> cueScanDir w devPrefix = Some l -> t ∈ l ->
  cstring t /\ cueNameLaunchable (Some t) = true /\ (length t <= ISO_GAME_NAME_MAX)%nat /\ cueEntryIsDir w devPrefix (cueBuildGamesDir devPrefix 288) t = true /\
  exists names, pf_dir w (cueBuildGamesDir devPrefix 288) = DirNames names /\ t ∈ names.
Proof.
  intros Hd Hs Ht. unfold cueScanDir in Hs. destruct (cueResolveEmber w devPrefix 288); cbn [negb] in Hs; [|injection Hs as <-; by apply not_elem_of_nil in Ht]. cbn zeta in Hs.
  destruct (pf_dir w _) as [names| |] eqn:E; [|injection Hs as <-; by apply not_elem_of_nil in Ht|done]. injection Hs as <-. apply collect_spec in Ht as (d & Hdn & Et).
  unfold cue_title in Et. destruct (streq d (bs ".") || streq d (bs "..")); [done|]. destruct (cueNameLaunchable (Some d)) eqn:El; cbn [negb] in Et; [|done].
  destruct (Nat.ltb_spec ISO_GAME_NAME_MAX (length d)) as [|Hl]; [done|]. destruct (cueEntryIsDir w devPrefix _ d) eqn:Ed; [|done]. rewrite bufcpy_id in Et by (unfold ISO_GAME_NAME_MAX in Hl; lia). injection Et as <-.
  split; [specialize (Hd _ _ E); rewrite Forall_forall in Hd; by apply Hd|]. split; [done|]. split; [lia|]. split; [done|]. by exists names.
Qed.

Lemma rows_strings w devPrefix : dir_strings w -> Forall row_strings (vcd_rows w devPrefix ++ cue_rows w devPrefix).
Proof.
  intros Hd. apply Forall_app. unfold vcd_rows, cue_rows. split; rewrite Forall_forall; intros g (t & -> & Ht)%list_elem_of_fmap; (apply title_row_strings; [apply (bool_decide_unpack _); vm_compute; exact I|cbn; lia|]).
  - apply list_elem_of_filter in Ht as [_ Ht]. destruct (vcdScanDir s w devPrefix) as [l|] eqn:E; [|by apply not_elem_of_nil in Ht]. by apply (vcd_scan_title w devPrefix l t Hd E) in Ht as [Hc _].
  - destruct (cueScanDir w devPrefix) as [l|] eqn:E; [|by apply not_elem_of_nil in Ht]. by apply (cue_scan_title w devPrefix l t Hd E) in Ht as [Hc _].
Qed.

Lemma fill_exact w devPrefix old :
  ps1FillGameList s w devPrefix old = if bool_decide (vcdScanDir s w devPrefix = None /\ cueScanDir w devPrefix = None) then (-1, old)
    else let rows := vcd_rows w devPrefix ++ cue_rows w devPrefix in (Z.of_nat (length rows), if gAutosort s then qsort (ps1RowCmp s) rows else rows).
Proof.
  unfold ps1FillGameList, vcdFillGameList, cueFillGameListUnsorted, vcd_rows, cue_rows. cbn zeta. set (f := base.filter _). change (base.filter shown) with f.
  assert (Hend : forall (vs cs : list base_game_info_t), (if Z.of_nat (length vs) + Z.of_nat (length cs) =? 0 then (0, []) else (Z.of_nat (length vs) + Z.of_nat (length cs), if gAutosort s && (1 <? Z.of_nat (length vs) + Z.of_nat (length cs)) then qsort (ps1RowCmp s) (vs ++ cs) else vs ++ cs)) =
    (Z.of_nat (length (vs ++ cs)), if gAutosort s then qsort (ps1RowCmp s) (vs ++ cs) else vs ++ cs)).
  { intros vs cs. rewrite <- Nat2Z.inj_add, <- length_app. destruct (Z.eqb_spec (Z.of_nat (length (vs ++ cs))) 0) as [E|E].
    - assert (E' : vs ++ cs = []) by (apply length_zero_iff_nil; lia). rewrite E'. by destruct (gAutosort s).
    - destruct (gAutosort s); cbn [andb]; [|done]. destruct (Z.ltb_spec 1 (Z.of_nat (length (vs ++ cs)))); [done|]. rewrite qsort_small by lia. done. }
  destruct (vcdScanDir s w devPrefix) as [v|], (cueScanDir w devPrefix) as [c|]; cbn [default from_option id]; rewrite ?(proj2 (Z.ltb_ge (Z.of_nat _) 0)) by lia; cbn [andb Z.ltb Z.compare].
  - rewrite bool_decide_false by naive_solver. apply Hend.
  - rewrite bool_decide_false by naive_solver. apply (Hend _ []).
  - rewrite bool_decide_false by naive_solver. apply (Hend []).
  - by rewrite bool_decide_true.
Qed.

(** one half that was read replaces the list, whatever became of the other *)
Lemma fill_elem w devPrefix old g : vcdScanDir s w devPrefix <> None ->
  g ∈ (ps1FillGameList s w devPrefix old).2 <-> g ∈ vcd_rows w devPrefix ++ cue_rows w devPrefix.
Proof. intros H. rewrite fill_exact, bool_decide_false by tauto. cbn. destruct (gAutosort s); [by rewrite qsort_perm|done]. Qed.

(** a scan of EMBER that failed costs its own rows, not the list: cuesupport.c:194-197 and
    docs/EMBER-INTEGRATION-PLAN.md:448-452 say that the whole old list is kept *)
Lemma half_replaces w devPrefix old : vcdScanDir s w devPrefix <> None -> cueScanDir w devPrefix = None ->
  ps1FillGameList s w devPrefix old = (Z.of_nat (length (vcd_rows w devPrefix)), if gAutosort s then qsort (ps1RowCmp s) (vcd_rows w devPrefix) else vcd_rows w devPrefix).
Proof. intros Hv Hc. rewrite fill_exact, bool_decide_false by tauto. cbn zeta. unfold cue_rows. rewrite Hc. cbn [default from_option id map]. by rewrite app_nil_r. Qed.

Lemma scan_pops w devPrefix names : (length (devPrefix ++ POPS_FOLDER) < 256)%nat -> pf_dir w (devPrefix ++ POPS_FOLDER) = DirNames names ->
  vcdScanDir s w devPrefix = Some (let l := collect vcd_title VCD_MAX_ITEMS names in if gAutosort s then qsort (vcdEntryCmp (gVcdHideGameId s)) l else l).
Proof. intros Hl Hd. unfold vcdScanDir, vcdScanOpenDir. rewrite bufcpy_id by lia. by rewrite Hd. Qed.

(** the rows of the first library are the names with a title that is shown *)
Lemma vcd_rows_elem w devPrefix names g : (length (devPrefix ++ POPS_FOLDER) < 256)%nat -> pf_dir w (devPrefix ++ POPS_FOLDER) = DirNames names ->
  (g ∈ vcd_rows w devPrefix -> exists t d, g = title_row (bs ".VCD") t /\ shown t /\ d ∈ names /\ vcd_title d = Some t) /\
  ((length names <= VCD_MAX_ITEMS)%nat -> forall t d, shown t -> d ∈ names -> vcd_title d = Some t -> title_row (bs ".VCD") t ∈ vcd_rows w devPrefix).
Proof.
  intros Hl Hd. unfold vcd_rows. rewrite (scan_pops w devPrefix names Hl Hd). cbn [default from_option id].
  assert (Hin : forall t, t ∈ (let l := collect vcd_title VCD_MAX_ITEMS names in if gAutosort s then qsort (vcdEntryCmp (gVcdHideGameId s)) l else l) <-> t ∈ collect vcd_title VCD_MAX_ITEMS names).
  { intros t. cbn zeta. destruct (gAutosort s); [by rewrite qsort_perm|done]. }
  split.
  - intros (t & -> & Ht)%list_elem_of_fmap. apply list_elem_of_filter in Ht as [Hs Ht]. apply Hin, collect_spec in Ht as (d & Hdn & Et). by exists t, d.
  - intros Hm t d Hs Hdn Et. apply list_elem_of_fmap. exists t. split; [done|]. apply list_elem_of_filter. split; [done|]. apply Hin. rewrite collect_all by done. apply list_elem_of_omap. by exists d.
Qed.
End Ps1.

(** ** Properties *)

Section Props.
Context {W : Type} `{!Ps1FS W} (s : ps1_settings).
Implicit Types w : W.


(** C26. Every row can be launched under its name: a row of the first library names a file of
    POPS, less its extension, that fits a row, is not the launcher's own name and, with that
    setting, no later disc; a row of the second names a folder of EMBER/games that can be
    opened, with a name Ember accepts as its argument. *)
Theorem ps1_rows_launch w devPrefix g : dir_strings w -> g ∈ vcd_rows s w devPrefix ++ cue_rows w devPrefix ->
  (cueIsCueEntry (Some g) = false /\ (gVcdFirstDiscOnly s = true -> vcdIsHiddenDisc (g_name g) = false) /\
   exists names d, pf_dir w (bufcpy 256 (devPrefix ++ POPS_FOLDER)) = DirNames names /\ d ∈ names /\ vcd_file (g_name g) d) \/
  (cueIsCueEntry (Some g) = true /\ cueNameLaunchable (Some (g_name g)) = true /\ cueEntryIsDir w devPrefix (cueBuildGamesDir devPrefix 288) (g_name g) = true /\
   exists names, pf_dir w (cueBuildGamesDir devPrefix 288) = DirNames names /\ g_name g ∈ names).
Proof.
  intros Hd [Hg|Hg]%elem_of_app; apply list_elem_of_fmap in Hg as (t & -> & Ht).
  - left. split; [reflexivity|]. apply list_elem_of_filter in Ht as [Hsh Ht]. destruct (vcdScanDir s w devPrefix) as [l|] eqn:E; [|by apply not_elem_of_nil in Ht].
    destruct (vcd_scan_title s w devPrefix l t Hd E Ht) as (Hc & names & d & H1 & H2 & H3). rewrite title_row_name; [|done|destruct H3 as (? & _ & _ & [_ H3] & _); exact H3].
    split; [intros Ef; unfold shown in Hsh; by rewrite Ef in Hsh|]. exists names, d. done.
  - right. split; [reflexivity|]. destruct (cueScanDir w devPrefix) as [l|] eqn:E; [|by apply not_elem_of_nil in Ht].
    destruct (cue_scan_title w devPrefix l t Hd E Ht) as (Hc & H1 & H2 & H3 & H4). rewrite title_row_name by done. done.
Qed.

(** the names of a directory in which a file was renamed *)
Definition renamed (names names' : list bytes) (a b : bytes) : Prop := forall n, n ∈ names' <-> n = b \/ n ∈ names /\ n <> a.

(** what a rename that went well asked of the device *)
Lemma rename_asks w dirPath oldName newName w' :
  vcdRenameFileInDir w dirPath (Some oldName) (Some newName) = Some w' ->
  exists names oldFile newFile oldPath newPath, pf_dir w dirPath = DirNames names /\ oldFile ∈ names /\
    vcd_title oldFile = Some oldName /\ vcd_title newFile = Some newName /\ drop (length newName) newFile = drop (length oldName) oldFile /\
    vcdJoinDirFile 512 dirPath oldFile = Some oldPath /\ vcdJoinDirFile 512 dirPath newFile = Some newPath /\ pf_rename w oldPath newPath = Some w'.
Proof.
  unfold vcdRenameFileInDir. destruct (vcdValidRenameName (Some oldName)) eqn:E1; [|done]. destruct (vcdValidRenameName (Some newName)) eqn:E2; [|done]. cbn [negb orb default from_option id]. cbn zeta.
  destruct (pf_dir w dirPath) as [names| |]; [|done..]. destruct (head _) as [oldFile|] eqn:Eh; [|done]. cbn [mbind option_bind]. destruct (_ <=? _)%nat; [done|].
  destruct (vcdJoinDirFile 512 dirPath oldFile) as [oldPath|] eqn:Eo; [|done]. cbn [mbind option_bind]. destruct (vcdJoinDirFile 512 dirPath (newName ++ _)) as [newPath|] eqn:En; [|done]. cbn [mbind option_bind]. intros Hr.
  apply head_Some_elem_of, list_elem_of_filter in Eh as [Hf Hin]. unfold is_file_of in Hf. apply andb_true_iff in Hf as [[Hl%Nat.eqb_eq Hp]%andb_true_iff Hx]. apply (strneq_front _ oldName _ eq_refl) in Hp as [ext ->]. rewrite drop_app_length in *.
  assert (Hv : forall nm, vcdValidRenameName (Some nm) = true -> vcd_title (nm ++ ext) = Some nm).
  { intros nm Hv. apply vcd_title_spec. unfold vcdValidRenameName in Hv. destruct nm as [|c nm]; [done|]. destruct (has_any _ _); [done|]. apply andb_true_iff in Hv as [Hln%Nat.leb_le Hpn]. exists ext. split; [done|].
    split; [unfold strcaseeq in Hx; by apply bool_decide_eq_true in Hx|]. split; [cbn [length] in *; lia|]. intros E. unfold strcaseeq in Hpn. rewrite bool_decide_true in Hpn by (rewrite E; reflexivity). done. }
  exists names, (oldName ++ ext), (newName ++ ext), oldPath, newPath. split; [done|]. split; [done|]. split; [by apply Hv|]. split; [by apply Hv|]. split; [by rewrite !drop_app_length|]. split; [exact Eo|]. split; [exact En|exact Hr].
Qed.

(** the row of a file's title shows that title *)
Lemma listed_name w path names d t : dir_strings w -> pf_dir w path = DirNames names -> d ∈ names -> vcd_title d = Some t -> g_name (title_row (bs ".VCD") t) = t.
Proof.
  intros Hw Hn Hd Ht. apply vcd_title_spec in Ht as (ext & -> & _ & [_ Hl] & _). specialize (Hw _ _ Hn). rewrite Forall_forall in Hw. specialize (Hw _ Hd).
  apply cstring_app in Hw as [Hc _]. by apply title_row_name.
Qed.

(** C27. What is asked of the device is to rename a file of the directory that has the old
    title to one in the same directory that has the new title, with its extension as it was
    spelt. Where the directory then is the old one with that file renamed, and it is not larger
    than a list, the list the page makes has a row of the new title, except that with only
    first discs shown a title that is a later disc is left out; and every other row of the
    library stays. *)
Theorem rename_stays_listed w devPrefix oldName newName w' old :
  dir_strings w -> dir_strings w' ->
  vcdRenameFile w devPrefix (Some oldName) (Some newName) = Some w' ->
  let dirPath := devPrefix ++ POPS_FOLDER in
  exists names oldFile newFile oldPath newPath, pf_dir w dirPath = DirNames names /\ oldFile ∈ names /\
    vcd_title oldFile = Some oldName /\ vcd_title newFile = Some newName /\ drop (length newName) newFile = drop (length oldName) oldFile /\
    vcdJoinDirFile 512 dirPath oldFile = Some oldPath /\ vcdJoinDirFile 512 dirPath newFile = Some newPath /\ pf_rename w oldPath newPath = Some w' /\
    forall names', pf_dir w' dirPath = DirNames names' -> renamed names names' oldFile newFile -> (length names' <= VCD_MAX_ITEMS)%nat ->
      let list := (ps1FillGameList s w' devPrefix old).2 in
      (title_row (bs ".VCD") newName ∈ list <-> gVcdFirstDiscOnly s = false \/ vcdIsHiddenDisc newName = false) /\
      (forall g, g ∈ vcd_rows s w devPrefix -> g_name g <> oldName -> g ∈ list).
Proof.
  intros Hw Hw' Hr dirPath. unfold vcdRenameFile in Hr. fold dirPath in Hr. destruct (Nat.leb_spec 256 (length dirPath)) as [|Hl]; [done|].
  destruct (rename_asks w dirPath oldName newName w' Hr) as (names & oldFile & newFile & oldPath & newPath & H1 & H2 & H3 & H4 & H5 & H6 & H7 & H8).
  exists names, oldFile, newFile, oldPath, newPath. split_and!; try done. intros names' Hn' Hren Hm.
  assert (Hscan : vcdScanDir s w' devPrefix <> None) by (by rewrite (scan_pops s w' devPrefix names' Hl Hn')).
  destruct (vcd_rows_elem s w' devPrefix names' (title_row (bs ".VCD") newName) Hl Hn') as [Ho Hi]. specialize (Hi Hm). cbn zeta. split.
  - rewrite fill_elem by done. split.
    + intros [Hin|Hin]%elem_of_app; [|apply list_elem_of_fmap in Hin as (t & Et & _); apply (f_equal g_ext) in Et; vm_compute in Et; discriminate].
      destruct (Ho Hin) as (t & d & Et & Hs & Hd & Ett). apply (f_equal g_name) in Et. rewrite (listed_name w' _ names' newFile newName Hw' Hn'), (listed_name w' _ names' d t Hw' Hn') in Et; try done; [|apply Hren; by left].
      subst t. unfold shown in Hs. by apply andb_false_iff in Hs.
    + intros Hs. apply elem_of_app. left. apply (Hi newName newFile); [|apply Hren; by left|done]. unfold shown. by apply andb_false_iff.
  - intros g Hg Hne. rewrite fill_elem by done. apply elem_of_app. left. destruct (vcd_rows_elem s w devPrefix names g Hl H1) as [Hg' _].
    destruct (Hg' Hg) as (t & d & -> & Hs & Hd & Ett). rewrite (listed_name w _ names d t Hw H1) in Hne by done.
    apply (Hi t d Hs); [|done]. apply Hren. right. split; [done|]. intros ->. congruence.
Qed.
End Props.

(** ** Devices in memory, witnesses *)

Definition table_fs : Type := list (bytes * list bytes) * list bytes.
(** the directories with their names, and the files that can be opened; a rename changes the
    directory of its two paths *)
Definition table_rename (w : table_fs) (a b : bytes) : option table_fs :=
  let split p := match strrchr p cSLASH with Some k => (take k p, drop (S k) p) | None => ([], p) end in
  if bool_decide ((split a).1 = (split b).1) then
    Some (map (fun x => if bool_decide (x.1 = (split a).1) then (x.1, map (fun d => if bool_decide (d = (split a).2) then (split b).2 else d) x.2) else x) w.1, w.2)
  else None.
#[export] Instance table_ps1 : Ps1FS table_fs := {
  pf_dir := fun w path => match snd <$> head (base.filter (fun x => x.1 = path) w.1) with Some names => DirNames names | None => DirAbsent end;
  pf_open := fun w path => bool_decide (path ∈ w.2);
  pf_rename := table_rename;
}.

Lemma table_strings (w : table_fs) : Forall (fun x => Forall cstring x.2) w.1 -> dir_strings w.
Proof.
  intros H path names Hd. cbn [pf_dir table_ps1] in Hd. destruct (head _) as [x|] eqn:E; [|done]. cbn in Hd. injection Hd as <-. apply head_Some_elem_of, list_elem_of_filter in E as [_ E]. rewrite Forall_forall in H. by apply H.
Qed.

Definition sample_card : table_fs :=
  ([(bs "mass0:/POPS", [bs "Spyro.VCD"; bs "SLUS_005.51.Crash.vcd"; bs "Spyro (Disc 2).VCD"; bs "POPSTARTER.VCD"; bs "readme.txt"]);
    (bs "mass0:/EMBER/games", [bs "."; bs ".."; bs "Doom"; bs "notes.txt"]); (bs "mass0:/EMBER/games/Doom", [bs "Doom.cue"])], [bs "mass0:/EMBER/ember.elf"]).
Definition sample_set : ps1_settings := Ps1Set true true true.

Example sample_titles : map (fun g => (g_name g, g_ext g)) (ps1FillGameList sample_set sample_card (bs "mass0:/") []).2 =
  [(bs "SLUS_005.51.Crash", bs ".VCD"); (bs "Doom", bs ".CUE"); (bs "Spyro", bs ".VCD")].
Proof. vm_compute. reflexivity. Qed.

Lemma sample_strings : dir_strings sample_card.
Proof. apply table_strings. apply (bool_decide_unpack _). vm_compute. exact I. Qed.


Lemma ps1_rows_launch_witness : exists names, pf_dir sample_card (bs "mass0:/EMBER/games") = DirNames names /\ bs "Doom" ∈ names.
Proof.
  destruct (ps1_rows_launch sample_set sample_card (bs "mass0:/") (title_row CUE_ROW_EXTENSION (bs "Doom"))) as [(E & _)|(_ & _ & _ & H)]; [exact sample_strings| |vm_compute in E; discriminate|exact H].
  apply (list_elem_of_lookup_2 _ 2). vm_compute. reflexivity.
Defined.

(** the same card with Spyro under another name *)
Definition renamed_card (file : bytes) : table_fs :=
  ([(bs "mass0:/POPS", [file; bs "SLUS_005.51.Crash.vcd"; bs "Spyro (Disc 2).VCD"; bs "POPSTARTER.VCD"; bs "readme.txt"]);
    (bs "mass0:/EMBER/games", [bs "."; bs ".."; bs "Doom"; bs "notes.txt"]); (bs "mass0:/EMBER/games/Doom", [bs "Doom.cue"])], [bs "mass0:/EMBER/ember.elf"]).

Lemma rename_stays_listed_witness :
  vcdRenameFile sample_card (bs "mass0:/") (Some (bs "Spyro")) (Some (bs "Spyro 1")) = Some (renamed_card (bs "Spyro 1.VCD")) /\
  title_row (bs ".VCD") (bs "Spyro 1") ∈ (ps1FillGameList sample_set (renamed_card (bs "Spyro 1.VCD")) (bs "mass0:/") []).2 /\
  title_row (bs ".VCD") (bs "SLUS_005.51.Crash") ∈ (ps1FillGameList sample_set (renamed_card (bs "Spyro 1.VCD")) (bs "mass0:/") []).2.
Proof.
  assert (E : vcdRenameFile sample_card (bs "mass0:/") (Some (bs "Spyro")) (Some (bs "Spyro 1")) = Some (renamed_card (bs "Spyro 1.VCD"))) by (vm_compute; reflexivity).
  split; [exact E|].
  destruct (rename_stays_listed sample_set sample_card (bs "mass0:/") (bs "Spyro") (bs "Spyro 1") (renamed_card (bs "Spyro 1.VCD")) [] sample_strings) with (2 := E)
    as (names & oldFile & newFile & oldPath & newPath & H1 & H2 & H3 & H4 & H5 & H6 & H7 & H8 & H).
  - apply table_strings. apply (bool_decide_unpack _). vm_compute. exact I.
  - vm_compute in H1. injection H1 as <-.
    assert (Eo : oldFile = bs "Spyro.VCD").
    { vm_compute in H2. repeat (apply elem_of_cons in H2 as [-> |H2]; [first [reflexivity|vm_compute in H3; discriminate]|]). by apply not_elem_of_nil in H2. }
    subst oldFile. assert (En : newFile = bs "Spyro 1.VCD").
    { apply vcd_title_spec in H4 as (ext & -> & _). rewrite drop_app_length in H5. rewrite H5. reflexivity. }
    subst newFile. destruct (H [bs "Spyro 1.VCD"; bs "SLUS_005.51.Crash.vcd"; bs "Spyro (Disc 2).VCD"; bs "POPSTARTER.VCD"; bs "readme.txt"]) as [Hn Ho].
    + vm_compute. reflexivity.
    + intros n. rewrite !elem_of_cons. assert (Hd : forall m, m ∈ [bs "SLUS_005.51.Crash.vcd"; bs "Spyro (Disc 2).VCD"; bs "POPSTARTER.VCD"; bs "readme.txt"] -> m <> bs "Spyro.VCD").
      { intros m Hm. repeat (apply elem_of_cons in Hm as [-> |Hm]; [vm_compute; discriminate|]). by apply not_elem_of_nil in Hm. }
      specialize (Hd n). rewrite !elem_of_cons in Hd. tauto.
    + vm_compute. lia.
    + split; [apply Hn; right; vm_compute; reflexivity|]. apply Ho; [|vm_compute; discriminate].
      apply (list_elem_of_lookup_2 _ 0). vm_compute. reflexivity.
Defined.

(** with only first discs shown, a title renamed to a later disc leaves the list *)
Example rename_to_later_disc_hides : exists w',
  vcdRenameFile sample_card (bs "mass0:/") (Some (bs "Spyro")) (Some (bs "Spyro (Disc 3)")) = Some w' /\
  map g_name (ps1FillGameList sample_set w' (bs "mass0:/") []).2 = [bs "SLUS_005.51.Crash"; bs "Doom"].
Proof. exists (renamed_card (bs "Spyro (Disc 3).VCD")). vm_compute. split; reflexivity. Qed.

(** ** What the code does not hold *)

(** an Ember game may be given a name of 161 to 180 characters, which the scan then skips *)
Example long_rename_vanishes : let nm := replicate 170 97 in
  cueNameLaunchable (Some nm) = true /\ cue_title sample_card (bs "mass0:/") (bs "mass0:/EMBER/games") nm = None /\
  is_Some (cueRenameGame sample_card (bs "mass0:/") (Some (bs "Doom")) (Some nm)).
Proof. split; [reflexivity|]. split; [reflexivity|]. vm_compute. eauto. Qed.
