(* ===== verification/EmberSettings.v ===== *)
(** * EmberSettings: the display mode in settings.txt (src/cuesupport.c)

    [cueApplyDisplaySetting] takes the display line out of the file, puts its own behind the
    other lines, and writes, removes or leaves the file. *)
From S2P Require Import Prelude CLib BootCnf GameList Ps1Names Ps1List.

(** the setting *)
Definition EMBER_DISPLAY_LEAVE : Z := 0.
Definition EMBER_DISPLAY_240 : Z := 1.
Definition EMBER_DISPLAY_480 : Z := 2.
Definition EMBER_SETTINGS_NAME : bytes := bs "settings.txt".
(** the two buffers on the stack *)
Definition BUF : nat := 512.

(** ** The device *)

Class SettingsFile (W : Type) := {
  st_read : W -> bytes -> option bytes;        (** the file opened for reading: what one [read] of 511 bytes gives, empty when it fails *)
  st_write : W -> bytes -> bytes -> option nat * W;   (** opened, truncated and written: [None] when it cannot be opened, else the bytes written *)
  st_unlink : W -> bytes -> W;
}.

(** ** The lines *)

(** the lines between the line feeds, the last one too *)
Fixpoint split_lf (s line : bytes) : list bytes :=
  match s with
  | [] => [line]
  | c :: s => if c =? cLF then line :: split_lf s [] else split_lf s (line ++ [c])
  end.

(** one carriage return at the end goes *)
Definition strip_cr (line : bytes) : bytes := match last line with Some c => if c =? cCR then removelast line else line | None => line end.

(** the comparison reads the buffer from the start of the line; no byte behind its end can match *)
Definition is_display (line : bytes) : bool := strncaseeq line (bs "display:") 8.

(** the lines that are kept, each with a line feed; the loop stops at a line that does not fit *)
Fixpoint keep_lines (lines : list bytes) (after : bytes) : bytes :=
  match lines with
  | [] => after
  | raw :: lines =>
    let line := strip_cr raw in
    if negb (bool_decide (line = [])) && negb (is_display raw) then
      if (BUF <=? length after + length line + 1)%nat then after
      else keep_lines lines (after ++ line ++ [cLF])
    else keep_lines lines after
  end.

Section Apply.
Context {W : Type} `{!SettingsFile W}.
Implicit Types w : W.

(** the file written, and what was there put back when the write fell short *)
Definition write_or_restore w (path before after : bytes) : W :=
  match st_write w path after with
  | (None, w) => w
  | (Some n, w) =>
    if Nat.eqb n (length after) then w
    else if Nat.ltb 0 (length before) then (st_write w path before).2 else w
  end.

Definition cueApplyDisplaySetting w (devPrefix : bytes) (gEmberDisplay : Z) : W :=
  let want := if gEmberDisplay =? EMBER_DISPLAY_480 then bs "display:480" else bs "display:240" in
  let path := bufcpy 320 (devPrefix ++ EMBER_FOLDER_DEFAULT ++ [cueSep devPrefix] ++ EMBER_SETTINGS_NAME) in
  let file := st_read w path in
  if bool_decide (file = None) && (gEmberDisplay =? EMBER_DISPLAY_LEAVE) then w
  else
    let before := default [] file in
    if Nat.eqb (length before) (BUF - 1) then w
    else
      let kept := keep_lines (split_lf before []) [] in
      let line := want ++ [cLF] in
      if negb (gEmberDisplay =? EMBER_DISPLAY_LEAVE) && (BUF - length kept <=? length line)%nat then w
      else
        let after := if gEmberDisplay =? EMBER_DISPLAY_LEAVE then kept else kept ++ line in
        if bool_decide (after = []) then if Nat.ltb 0 (length before) then st_unlink w path else w
        else if bool_decide (after = before) then w
        else write_or_restore w path before after.
End Apply.

(** ** Lemmas *)

Definition other (raw : bytes) : option bytes := let line := strip_cr raw in if negb (bool_decide (line = [])) && negb (is_display raw) then Some line else None.
(** the lines of a file that are not empty and not the display line *)
Definition other_lines (b : bytes) : list bytes := omap other (split_lf b []).
Definition text_of (lines : list bytes) : bytes := concat (map (fun l => l ++ [cLF]) lines).

Lemma last_split (l : bytes) c : last l = Some c -> l = removelast l ++ [c].
Proof. intros (l' & ->)%last_Some. by rewrite removelast_last. Qed.

Lemma strip_cr_length l : (length (strip_cr l) <= length l)%nat.
Proof.
  unfold strip_cr. destruct (last l) as [c|] eqn:E; [|lia]. destruct (c =? cCR); [|lia]. rewrite (last_split l c E) at 2. rewrite length_app. lia.
Qed.

(** the lines of a text with their line feeds are the text and one more *)
Definition size_of (lines : list bytes) : nat := fold_right (fun l n => (length l + 1 + n)%nat) 0%nat lines.

Lemma split_lf_size s : forall line, size_of (split_lf s line) = (length line + length s + 1)%nat.
Proof.
  induction s as [|c s IH]; intros line; cbn [split_lf]; [cbn; lia|]. destruct (c =? cLF); cbn [size_of fold_right length].
  - fold (size_of (split_lf s [])). rewrite IH. cbn [length]. lia.
  - rewrite IH, length_app. cbn. lia.
Qed.

Lemma text_app l1 l2 : text_of (l1 ++ l2) = text_of l1 ++ text_of l2.
Proof. unfold text_of. by rewrite map_app, concat_app. Qed.

(** every line fits *)
Lemma keep_lines_all lines : forall after, (length after + size_of lines < BUF)%nat -> keep_lines lines after = after ++ text_of (omap other lines).
Proof.
  induction lines as [|raw lines IH]; intros after H; cbn [keep_lines omap list_omap]; [by rewrite app_nil_r|]. cbn [size_of fold_right] in H. fold (size_of lines) in H. unfold other at 1. cbn zeta. pose proof (strip_cr_length raw).
  destruct (negb _ && negb _); [|apply IH; lia]. rewrite (proj2 (Nat.leb_gt _ _)) by lia. rewrite IH by (rewrite !length_app; cbn [length]; lia). change (text_of (?x :: ?l)) with ((x ++ [cLF]) ++ text_of l). by rewrite <- !app_assoc.
Qed.

Lemma kept_text b : (length b < BUF - 1)%nat -> keep_lines (split_lf b []) [] = text_of (other_lines b).
Proof. intros H. rewrite keep_lines_all; [done|]. rewrite split_lf_size. cbn [length]. unfold BUF in *. lia. Qed.

Lemma split_lf_line l r : cLF ∉ l -> forall line, split_lf (l ++ cLF :: r) line = (line ++ l) :: split_lf r [].
Proof.
  induction l as [|c l IH]; intros H line; cbn [app split_lf]; [by rewrite Z.eqb_refl, app_nil_r|]. apply not_elem_of_cons in H as [Hc H]. destruct (Z.eqb_spec c cLF); [congruence|]. rewrite IH by done. by rewrite <- app_assoc.
Qed.

Lemma split_lf_text lines r : Forall (fun l => cLF ∉ l) lines -> split_lf (text_of lines ++ r) [] = lines ++ split_lf r [].
Proof.
  induction 1 as [|l lines Hl _ IH]; [done|]. change (text_of (l :: lines)) with ((l ++ [cLF]) ++ text_of lines). rewrite <- !app_assoc. cbn [app]. rewrite split_lf_line by done. cbn [app]. by rewrite IH.
Qed.

Lemma split_lf_free s : forall line, cLF ∉ line -> Forall (fun l => cLF ∉ l) (split_lf s line).
Proof.
  induction s as [|c s IH]; intros line H; cbn [split_lf]; [by repeat constructor|]. destruct (Z.eqb_spec c cLF) as [->|Hc]; [constructor; [done|apply IH; apply not_elem_of_nil]|]. apply IH. rewrite elem_of_app. intros [?|?%list_elem_of_singleton]; [done|congruence].
Qed.

Lemma strip_cr_sub l x : x ∈ strip_cr l -> x ∈ l.
Proof.
  unfold strip_cr. destruct (last l) as [c|] eqn:E; [|done]. destruct (c =? cCR); [|done]. intros H. rewrite (last_split l c E). apply elem_of_app. by left.
Qed.

(** lines that a second pass keeps as they are *)
Definition settled (l : bytes) : Prop := other l = Some l.

Lemma other_settled lines : Forall settled lines -> omap other lines = lines.
Proof. induction 1 as [|l lines Hl _ IH]; [done|]. cbn [omap list_omap]. rewrite Hl. by rewrite IH. Qed.

Lemma strip_display raw : is_display (strip_cr raw) = true -> is_display raw = true.
Proof.
  unfold strip_cr. destruct (last raw) as [c|] eqn:E; [|done]. destruct (c =? cCR); [|done]. rewrite (last_split raw c E) at 2. set (l := removelast raw). unfold is_display, strncaseeq. intros H.
  apply bool_decide_eq_true in H. apply bool_decide_eq_true. destruct (Nat.le_gt_cases 8 (length l)) as [Hl|Hl].
  - by rewrite take_app_le.
  - apply (f_equal length) in H. rewrite !length_map, length_take in H. change (length (take 8 (bs "display:"))) with 8%nat in H. lia.
Qed.

(** a line that was kept and does not end in another carriage return *)
Lemma kept_settled b : Forall (fun l => last l <> Some cCR) (other_lines b) -> Forall settled (other_lines b).
Proof.
  intros H. rewrite Forall_forall in *. intros l Hl. specialize (H l Hl). unfold other_lines in Hl. apply list_elem_of_omap in Hl as (raw & _ & Eo). unfold other in Eo. cbn zeta in Eo. destruct (negb _ && negb _) eqn:E; [|done]. injection Eo as <-.
  apply andb_true_iff in E as [E1 E2]. unfold settled, other. cbn zeta. assert (Es : strip_cr (strip_cr raw) = strip_cr raw).
  { unfold strip_cr at 1. destruct (last (strip_cr raw)) as [c|] eqn:El; [|done]. destruct (Z.eqb_spec c cCR) as [->|]; [done|done]. }
  rewrite Es, E1. cbn [andb]. destruct (is_display (strip_cr raw)) eqn:Ed; [|done]. apply strip_display in Ed. by rewrite Ed in E2.
Qed.

Lemma other_free b : Forall (fun l => cLF ∉ l) (other_lines b).
Proof.
  rewrite Forall_forall. intros l Hl. unfold other_lines in Hl. apply list_elem_of_omap in Hl as (raw & Hr & Eo). unfold other in Eo. cbn zeta in Eo. destruct (negb _ && negb _); [|done]. injection Eo as <-.
  pose proof (split_lf_free b [] (not_elem_of_nil _)) as Hf. rewrite Forall_forall in Hf. intros Hx%strip_cr_sub. by apply (Hf raw Hr).
Qed.

Lemma other_of_text lines d : Forall settled lines -> Forall (fun l => cLF ∉ l) lines -> cLF ∉ d -> is_display d = true -> other_lines (text_of lines ++ d ++ [cLF]) = lines /\ other_lines (text_of lines) = lines.
Proof.
  intros Hs Hf Hd Hdisp. unfold other_lines. split.
  - rewrite split_lf_text by done. rewrite split_lf_line by done. cbn [app split_lf]. rewrite omap_app, other_settled by done. cbn [omap list_omap]. unfold other. cbn zeta. rewrite Hdisp. cbn [negb]. rewrite andb_false_r. cbn. by rewrite app_nil_r.
  - rewrite <- (app_nil_r (text_of lines)). rewrite split_lf_text by done. rewrite omap_app, other_settled by done. cbn. by rewrite app_nil_r.
Qed.

(** ** What the file holds afterwards *)

Definition settings_path (devPrefix : bytes) : bytes := bufcpy 320 (devPrefix ++ EMBER_FOLDER_DEFAULT ++ [cueSep devPrefix] ++ EMBER_SETTINGS_NAME).
Definition display_line (d : Z) : bytes := if d =? EMBER_DISPLAY_480 then bs "display:480" else bs "display:240".

(** the file that is asked for *)
Definition wanted (d : Z) (f : option bytes) : option bytes :=
  let ls := other_lines (default [] f) in
  if d =? EMBER_DISPLAY_LEAVE then match ls, f with [], Some (_ :: _) => None | [], _ => f | _, _ => Some (text_of ls) end
  else if (length (text_of ls ++ display_line d ++ [cLF]) <? BUF)%nat then Some (text_of ls ++ display_line d ++ [cLF]) else f.

Lemma keep_lines_length lines : forall after, (length after + size_of lines < BUF)%nat -> (length (keep_lines lines after) <= length after + size_of lines)%nat.
Proof.
  induction lines as [|raw lines IH]; intros after H; cbn [keep_lines]; [lia|]. cbn [size_of fold_right] in H |- *. fold (size_of lines) in H |- *. cbn zeta. pose proof (strip_cr_length raw). destruct (negb _ && negb _); [|etransitivity; [apply IH; lia|lia]].
  rewrite (proj2 (Nat.leb_gt _ _)) by lia. etransitivity; [apply IH; rewrite !length_app; cbn [length]; lia|]. rewrite !length_app. cbn [length]. lia.
Qed.

Lemma other_text_length b : (length b < BUF - 1)%nat -> (length (text_of (other_lines b)) < BUF)%nat.
Proof.
  intros Hl. rewrite <- (kept_text b Hl). pose proof (split_lf_size b []) as Hsz. cbn [length] in Hsz. pose proof (keep_lines_length (split_lf b []) []) as Hk. rewrite Hsz in Hk. cbn [length] in Hk. unfold BUF in *. lia.
Qed.

(** asking twice asks for nothing new *)
Lemma wanted_again d f : (length (default [] f) < BUF - 1)%nat -> Forall (fun l => last l <> Some cCR) (other_lines (default [] f)) ->
  wanted d (wanted d f) = wanted d f /\ (length (default [] (wanted d f)) <= BUF - 1)%nat.
Proof.
  intros Hl Hcr. apply kept_settled in Hcr. pose proof (other_free (default [] f)) as Hfree. pose proof (other_text_length _ Hl) as Htl. set (ls := other_lines (default [] f)) in *.
  assert (Hdl : cLF ∉ display_line d /\ is_display (display_line d) = true) by (unfold display_line; destruct (_ =? _); (split; [|reflexivity]); apply (bool_decide_unpack _); vm_compute; exact I). destruct Hdl as [Hdf Hdd].
  destruct (other_of_text ls (display_line d) Hcr Hfree Hdf Hdd) as [H1 H2]. unfold wanted at 1 3 4. fold ls. cbn zeta. destruct (d =? EMBER_DISPLAY_LEAVE) eqn:Ed.
  - unfold wanted. fold ls. cbn zeta. rewrite Ed. destruct ls as [|l ls'] eqn:El.
    + destruct f as [[|c b]|]; cbn [default from_option id length]; (split; [reflexivity|unfold BUF; lia]).
    + cbn [default from_option id]. rewrite H2. split; [done|]. unfold BUF in *. lia.
  - unfold wanted. fold ls. cbn zeta. rewrite Ed. destruct (Nat.ltb_spec (length (text_of ls ++ display_line d ++ [cLF])) BUF) as [Hfit|Hfit].
    + cbn [default from_option id]. rewrite H1. rewrite (proj2 (Nat.ltb_lt _ _)) by done. split; [done|]. unfold BUF in *. lia.
    + fold ls. rewrite (proj2 (Nat.ltb_ge _ _)) by done. split; [done|lia].
Qed.

Section Props.
Context {W : Type} `{!SettingsFile W} (content : W -> option bytes) (path : bytes).
Implicit Types w : W.

(** the file behind the calls: what is read is its beginning, what is written replaces it *)
Record settings_laws : Prop := {
  sl_read : forall w, st_read w path = take (BUF - 1) <$> content w;
  sl_write : forall w b n w', st_write w path b = (Some n, w') -> content w' = Some (take n b);
  sl_closed : forall w b w', st_write w path b = (None, w') -> content w' = content w;
  sl_unlink : forall w, content (st_unlink w path) = None;
}.

(** every write is complete *)
Definition writes_all : Prop := forall w b, exists w', st_write w path b = (Some (length b), w').

Lemma display_line_length d : length (display_line d ++ [cLF]) = 12%nat.
Proof. unfold display_line. by destruct (_ =? _). Qed.

Lemma text_nonempty ls : Forall (fun l => l <> []) ls -> text_of ls = [] <-> ls = [].
Proof. destruct 1 as [|l ls Hl _]; [done|]. split; [|done]. intros E. change (text_of (l :: ls)) with ((l ++ [cLF]) ++ text_of ls) in E. by destruct l. Qed.

Lemma text_nil ls : text_of ls = [] -> ls = [].
Proof. destruct ls as [|l ls]; [done|]. intros E. change (text_of (l :: ls)) with ((l ++ [cLF]) ++ text_of ls) in E. by destruct l. Qed.

(** the call, for a file that is read in full *)
Lemma apply_cases w devPrefix d f : settings_laws -> path = settings_path devPrefix -> content w = f -> (length (default [] f) < BUF - 1)%nat ->
  cueApplyDisplaySetting w devPrefix d = if bool_decide (wanted d f = f) then w else match wanted d f with None => st_unlink w path | Some after => write_or_restore w path (default [] f) after end.
Proof.
  intros [Hr _ _ _] Hp Hc Hl. unfold cueApplyDisplaySetting. fold (settings_path devPrefix). rewrite <- Hp. cbn zeta. rewrite Hr, Hc.
  assert (Ef : take (BUF - 1) <$> f = f) by (destruct f as [b|]; [|done]; cbn [fmap option_fmap option_map]; f_equal; apply take_ge; cbn [default from_option id] in Hl; lia). rewrite Ef. set (b := default [] f) in *.
  rewrite (proj2 (Nat.eqb_neq _ _)) by lia. rewrite kept_text by done. fold (display_line d). unfold wanted. fold b. cbn zeta. set (ls := other_lines b). rewrite !length_app. pose proof (display_line_length d) as Hd. rewrite length_app in Hd. rewrite Hd.
  destruct (d =? EMBER_DISPLAY_LEAVE); cbn [negb andb].
  - rewrite andb_true_r. destruct f as [b0|]; cbn [default from_option id] in b.
    + rewrite (bool_decide_false (Some b0 = None)) by done. change b with b0 in *. destruct ls as [|l ls'] eqn:El.
      * change (text_of []) with (@nil Z). rewrite bool_decide_true by done. destruct b0 as [|c b0]; cbn [length Nat.ltb Nat.leb]; [by rewrite bool_decide_true|by rewrite bool_decide_false].
      * rewrite (bool_decide_false (text_of (l :: ls') = [])) by (intros E; by apply text_nil in E). destruct (bool_decide_reflect (text_of (l :: ls') = b0)) as [E|E]; [by rewrite E, bool_decide_true|]. by rewrite bool_decide_false by congruence.
    + rewrite bool_decide_true by done. subst ls. cbn. by rewrite bool_decide_true.
  - rewrite andb_false_r. assert (Hroom : (BUF - length (text_of ls) <=? 12)%nat = negb (length (text_of ls) + 12 <? BUF)%nat) by (unfold BUF in *; destruct (Nat.leb_spec (512 - length (text_of ls)) 12), (Nat.ltb_spec (length (text_of ls) + 12) 512); try done; lia).
    rewrite Hroom. destruct (length (text_of ls) + 12 <? BUF)%nat; cbn [negb]; [|by rewrite bool_decide_true].
    assert (Hne : text_of ls ++ display_line d ++ [cLF] <> []) by (intros E; apply (f_equal length) in E; rewrite !length_app in E; cbn [length] in E; lia). rewrite (bool_decide_false (_ = [])) by done.
    destruct (bool_decide_reflect (text_of ls ++ display_line d ++ [cLF] = b)) as [E|E].
    + destruct f as [b0|]; [|by rewrite E in Hne]. by rewrite bool_decide_true by (f_equal; exact E).
    + rewrite bool_decide_false; [done|]. intros E'. apply E. unfold b. rewrite <- E'. done.
Qed.

(** Where writes are complete, the file ends up as asked for: its other lines in their
    order, and the display line behind them (taken out for the default, with the file itself
    when nothing is left); and the next launch with the same setting does not touch the device,
    unless a line ended in more than one carriage return. *)
Theorem display_applied w devPrefix d :
  settings_laws -> writes_all -> path = settings_path devPrefix -> (length (default [] (content w)) < BUF - 1)%nat ->
  let w' := cueApplyDisplaySetting w devPrefix d in
  content w' = wanted d (content w) /\
  (Forall (fun l => last l <> Some cCR) (other_lines (default [] (content w))) -> cueApplyDisplaySetting w' devPrefix d = w').
Proof.
  intros Hs Hw Hp Hl. cbn zeta. set (f := content w) in *. rewrite (apply_cases w devPrefix d f Hs Hp eq_refl Hl).
  set (w' := if bool_decide _ then w else _). assert (Hc : content w' = wanted d f).
  { unfold w'. destruct (bool_decide_reflect (wanted d f = f)) as [E|E]; [by rewrite E|]. destruct (wanted d f) as [after|]; [|apply (sl_unlink Hs)]. unfold write_or_restore. destruct (Hw w after) as [w2 E2]. rewrite E2, Nat.eqb_refl. rewrite (sl_write Hs _ _ _ _ E2). by rewrite take_ge. }
  split; [exact Hc|]. intros Hcr.
  destruct (wanted_again d f Hl Hcr) as [Hsame Hle]. destruct (Nat.eq_dec (length (default [] (wanted d f))) (BUF - 1)) as [Heq|Hlt'].
  2: { rewrite (apply_cases w' devPrefix d (wanted d f) Hs Hp Hc) by lia. by rewrite bool_decide_true. }
  unfold cueApplyDisplaySetting. fold (settings_path devPrefix). rewrite <- Hp. cbn zeta. rewrite (sl_read Hs), Hc. destruct (wanted d f) as [b|]; [|unfold BUF in Heq; cbn in Heq; lia].
  cbn [fmap option_fmap option_map default from_option id]. cbn [default from_option id] in Heq. rewrite (bool_decide_false (_ = None)) by done. cbn [andb]. rewrite take_ge by lia. rewrite Heq. by rewrite Nat.eqb_refl.
Qed.

(** A write that falls short loses nothing when the original can be written back: the file
    is then what it was. *)
Theorem short_write_restored w devPrefix d b w1 w2 n after :
  settings_laws -> path = settings_path devPrefix -> content w = Some b -> (0 < length b < BUF - 1)%nat -> wanted d (Some b) = Some after -> after <> b ->
  st_write w path after = (Some n, w1) -> (n < length after)%nat -> st_write w1 path b = (Some (length b), w2) ->
  content (cueApplyDisplaySetting w devPrefix d) = content w.
Proof.
  intros Hs Hp Hc Hl Hw Hne E1 Hn E2. rewrite (apply_cases w devPrefix d (Some b) Hs Hp Hc) by (cbn [default from_option id]; lia). rewrite bool_decide_false by congruence. rewrite Hw. unfold write_or_restore. rewrite E1. rewrite (proj2 (Nat.eqb_neq _ _)) by lia.
  cbn [default from_option id]. rewrite (proj2 (Nat.ltb_lt _ _)) by lia. rewrite E2. cbn [snd]. rewrite (sl_write Hs _ _ _ _ E2). rewrite take_ge by lia. by rewrite Hc.
Qed.
End Props.

(** ** A device with one file, witnesses *)

Definition one_file : Type := option bytes.
#[export] Instance one_file_settings : SettingsFile one_file := {
  st_read := fun w _ => take (BUF - 1) <$> w;
  st_write := fun _ _ b => (Some (length b), Some b);
  st_unlink := fun _ _ => None;
}.
Lemma one_file_laws p : settings_laws (W := one_file) (fun w => w) p.
Proof. split; cbn; [done| |done|done]. intros w b n w' [= <- <-]. by rewrite take_ge. Qed.

Definition sample_settings : one_file := Some (bs "volume:7" ++ [cCR; cLF] ++ bs "DISPLAY:240" ++ [cLF] ++ bs "# mine").

Lemma display_applied_witness : let w := cueApplyDisplaySetting sample_settings (bs "mass0:/") EMBER_DISPLAY_480 in
  w = Some (bs "volume:7" ++ [cLF] ++ bs "# mine" ++ [cLF] ++ bs "display:480" ++ [cLF]) /\ cueApplyDisplaySetting w (bs "mass0:/") EMBER_DISPLAY_480 = w.
Proof.
  destruct (display_applied (W := one_file) (fun w => w) (bs "mass0:/EMBER/settings.txt") sample_settings (bs "mass0:/") EMBER_DISPLAY_480) as [H1 H2].
  - apply one_file_laws.
  - intros w b. exists (Some b). reflexivity.
  - reflexivity.
  - vm_compute. lia.
  - split; [etransitivity; [exact H1|vm_compute; reflexivity]|]. apply H2. apply (bool_decide_unpack _). vm_compute. exact I.
Defined.

(** a device whose first write falls short *)
#[local] Instance short_settings : SettingsFile (option bytes * bool) := {
  st_read := fun w _ => take (BUF - 1) <$> w.1;
  st_write := fun w _ b => if w.2 then (Some (length b), (Some b, true)) else (Some 5%nat, (Some (take 5 b), true));
  st_unlink := fun w _ => (None, w.2);
}.

Lemma short_write_restored_witness : (cueApplyDisplaySetting (Some (bs "volume:7"), false) (bs "mass0:/") EMBER_DISPLAY_480).1 = Some (bs "volume:7").
Proof.
  apply (short_write_restored (W := option bytes * bool) fst (bs "mass0:/EMBER/settings.txt") (Some (bs "volume:7"), false) (bs "mass0:/") EMBER_DISPLAY_480 (bs "volume:7")
    (Some (bs "volum"), true) (Some (bs "volume:7"), true) 5%nat (bs "volume:7" ++ [cLF] ++ bs "display:480" ++ [cLF])).
  - split; cbn; [done| |intros [? []] ? ? [=]|done]. intros [f []] b n w' [= <- <-]; cbn; [by rewrite take_ge|done].
  - reflexivity.
  - reflexivity.
  - vm_compute. lia.
  - vm_compute. reflexivity.
  - vm_compute. discriminate.
  - reflexivity.
  - vm_compute. lia.
  - reflexivity.
Defined.

(** ** What the code does not hold *)

(** a file that can be opened and not read counts as empty: its lines are overwritten *)
Definition unreadable : SettingsFile one_file := {|
  st_read := fun w _ => (fun _ => []) <$> w;
  st_write := fun _ _ b => (Some (length b), Some b);
  st_unlink := fun _ _ => None;
|}.
Example failed_read_overwrites : @cueApplyDisplaySetting one_file unreadable (Some (bs "volume:7")) (bs "mass0:/") EMBER_DISPLAY_480 = Some (bs "display:480" ++ [cLF]).
Proof. vm_compute. reflexivity. Qed.
