(* ===== verification/VcdCard.v ===== *)
(** * VcdCard: the launcher's files on the memory card (src/vcdsupport.c)

    Copies and writes gated by the free space of the card, the driver pair with its marker and
    its exchange, the files installed when missing, and the search for the launcher. The calls
    of the file system, of the card and of the device drivers are an interface. *)
From S2P Require Import Prelude CLib GameList Ps1Names Ps1List.

(** ** The calls *)

Class CardIO (W : Type) := {
  io_open : W -> bytes -> bool;                       (** [open] for reading succeeds *)
  io_read : W -> bytes -> nat -> nat -> option bytes; (** [read] at an offset, at most so many bytes; [None] for an error *)
  io_seek_end : W -> bytes -> option Z;               (** the size, where SEEK_END works *)
  io_rewind : W -> bytes -> bool;
  io_create : W -> bytes -> option W;                 (** opened for writing, created and truncated *)
  io_write : W -> bytes -> bytes -> Z * W;            (** [write] at the end of the file opened so *)
  io_unlink : W -> bytes -> W;
  io_opendir : W -> bytes -> bool;
  io_mkdir : W -> bytes -> W;
  io_mcinfo : W -> Z -> Z * Z * Z;                    (** type, free clusters and format of the card in a slot *)
  io_driver : W -> Z -> bytes;                        (** the driver name of mass<n>, empty when there is none *)
  io_load_bdm : W -> Z -> W;                          (** [bdmEnsureSourceModules]: the drivers of a device type are loaded, its mount awaited *)
  io_load_mmce : W -> W;                              (** [mmceLoadModules] *)
}.

Definition VCD_MC_CLUSTER : Z := 1024.
Definition VCD_COPY_MARGIN : Z := 16 * 1024.
Definition VCD_COPY_CHUNK : nat := 16 * 1024.
Definition sceMcTypePS2 : Z := 2.
Definition MC_FORMATTED : Z := 1.

Section Card.
Context {W : Type} `{!CardIO W}.
Implicit Types w : W.

(** ** Space *)

Definition is_letter (s : bytes) (i : nat) (c : Z) : bool := tolower (at_ s i) =? c.
Definition vcdMcFreeBytes w (path : bytes) : Z :=
  if negb (is_letter path 0 109) || negb (is_letter path 1 99) then -1
  else
    let port := if at_ path 2 =? 49 then 1 else 0 in
    let '(type, freeClusters, format) := io_mcinfo w port in
    if negb (type =? sceMcTypePS2) || negb (format =? MC_FORMATTED) || (freeClusters <? 0) then -1 else s32 (freeClusters * VCD_MC_CLUSTER).
Definition vcdMcHasSpace w (path : bytes) (needBytes : Z) : Z :=
  let freeB := vcdMcFreeBytes w path in
  if freeB <? 0 then -1 else if s32 (needBytes + VCD_COPY_MARGIN) <=? freeB then 1 else 0.

(** ** Copies *)

(** the loop over a buffer: the rest is written until nothing is left or a write fails *)
Fixpoint write_all (fuel : nat) w (dst b : bytes) : bool * W :=
  match b with
  | [] => (true, w)
  | _ =>
    match fuel with
    | O => (false, w)
    | S fuel => let '(n, w) := io_write w dst b in if n <=? 0 then (false, w) else write_all fuel w dst (drop (Z.to_nat n) b)
    end
  end.

(** [None]: out of fuel *)
Fixpoint copy_loop (fuel : nat) w (src dst : bytes) (off : nat) : option (Z * W) :=
  match fuel with
  | O => None
  | S fuel =>
    match io_read w src off VCD_COPY_CHUNK with
    | None => Some (-3, w)
    | Some [] => Some (0, w)
    | Some b => let '(ok, w) := write_all (length b) w dst b in if (ok : bool) then copy_loop fuel w src dst (off + length b) else Some (-3, w)
    end
  end.

Definition vcdSafeCopyFile (fuel : nat) w (src dst : bytes) : option (Z * W) :=
  if negb (io_open w src) then Some (-1, w)
  else
    let size := io_seek_end w src in
    if bool_decide (is_Some size) && negb (io_rewind w src) then Some (-1, w)
    else if vcdMcHasSpace w dst (default 0 size) =? 0 then Some (-2, w)
    else
      match io_create w dst with
      | None => Some (-3, w)
      | Some w =>
        '(rc, w) ← copy_loop fuel w src dst 0;
        Some (if rc =? 0 then (0, w) else (rc, io_unlink w dst))
      end.

Definition vcdSafeWriteFile w (dst b : bytes) : Z * W :=
  if vcdMcHasSpace w dst (Z.of_nat (length b)) =? 0 then (-2, w)
  else
    match io_create w dst with
    | None => (-3, w)
    | Some w => let '(ok, w) := write_all (length b) w dst b in if (ok : bool) then (0, w) else (-3, io_unlink w dst)
    end.

(** ** The folder on the card *)

Definition cards : list (bytes * bytes) := [(bs "mc0:/", bs "mc0:/POPSTARTER"); (bs "mc1:/", bs "mc1:/POPSTARTER")].
(** the first card with a root on which the folder can be made *)
Fixpoint make_folder w (l : list (bytes * bytes)) : option bytes * W :=
  match l with
  | [] => (None, w)
  | (root, card) :: l => if io_opendir w root then let w := io_mkdir w card in if io_opendir w card then (Some card, w) else make_folder w l else make_folder w l
  end.
Definition vcdResolvePopstarterMc w : option bytes * W :=
  match head (base.filter (fun c => io_opendir w c = true) (map snd cards)) with
  | Some card => (Some card, w)
  | None => make_folder w cards
  end.

(** ** The driver pair *)

Definition VCD_BDMA_FAT32 : Z := 0.
Definition VCD_BDMA_USBEXFAT : Z := 1.
Definition VCD_BDMA_MODE_COUNT : Z := 6.
Definition VCD_BDMA_SRC_USB : Z := 0.
Definition VCD_BDMA_SRC_MX4SIO : Z := 1.
Definition VCD_BDMA_SRC_MMCE : Z := 2.
Definition VCD_BDMA_SRC_HDD : Z := 3.
Definition VCD_BDMA_SRC_ILINK : Z := 4.
Definition VCD_BDMA_SRC_COUNT : Z := 5.

Definition vcdBdmaSuffixes : list bytes := [bs "fat32"; bs "usbexfat"; bs "mx4sio"; bs "mmce"; bs "ata"; bs "ilink"].
Definition vcdBdmaSuffix (mode : Z) : bytes := nth (Z.to_nat mode) vcdBdmaSuffixes [].
Definition module0 : bytes := bs "usbd.irx".
Definition module1 : bytes := bs "usbhdfsd.irx".
Definition VCD_BDMA_MARKER : bytes := bs "bdma_config.txt".
Definition on_card (mcDir file : bytes) : bytes := bufcpy 96 (mcDir ++ bs "/" ++ file).

Definition vcdWriteBdmaMarker w (mcDir : bytes) (mode : Z) : Z * W :=
  if (mode <? 0) || (VCD_BDMA_MODE_COUNT <=? mode) then (-1, w)
  else vcdSafeWriteFile w (on_card mcDir VCD_BDMA_MARKER) (vcdBdmaSuffix mode).

Definition is_trailing (c : Z) : bool := (c =? cLF) || (c =? cCR) || (c =? 32) || (c =? 9).
Definition vcdReadBdmaMode w : Z * W :=
  let '(mcDir, w) := vcdResolvePopstarterMc w in
  match mcDir with
  | None => (VCD_BDMA_FAT32, w)
  | Some mcDir =>
    let path := on_card mcDir VCD_BDMA_MARKER in
    if negb (io_open w path) then (VCD_BDMA_FAT32, w)
    else
      match io_read w path 0 31 with
      | None | Some [] => (VCD_BDMA_FAT32, w)
      | Some buf =>
        let buf := cstr (rdropwhile is_trailing buf) in
        (from_option Z.of_nat VCD_BDMA_FAT32 (find_index (streq buf) vcdBdmaSuffixes), w)
      end
  end.

(** *** Where the pair comes from *)

Definition BDM_TYPE_UNKNOWN : Z := -1.
Definition BDM_TYPE_USB : Z := 0.
Definition BDM_TYPE_ILINK : Z := 1.
Definition BDM_TYPE_SDC : Z := 2.
Definition BDM_TYPE_ATA : Z := 3.
Definition BDM_TYPE_UDPBD : Z := 4.
Definition MAX_BDM_DEVICES : nat := 8.

Definition bdmDetermineDeviceType (driverName : bytes) : Z :=
  if streq driverName (bs "usb") then BDM_TYPE_USB
  else if streq driverName (bs "sd") || streq driverName (bs "ilink") then BDM_TYPE_ILINK
  else if streq driverName (bs "sdc") || streq driverName (bs "mx4sio") then BDM_TYPE_SDC
  else if streq driverName (bs "ata") then BDM_TYPE_ATA
  else if streq driverName (bs "udp") then BDM_TYPE_UDPBD
  else BDM_TYPE_UNKNOWN.

Definition bdmGetDeviceSlotsByType w (bdmType : Z) : list Z :=
  base.filter (fun i => io_driver w i <> [] /\ bdmDetermineDeviceType (io_driver w i) = bdmType) (map Z.of_nat (List.seq 0 MAX_BDM_DEVICES)).
Definition mass_root (slot : Z) : bytes := bs "mass" ++ fmt_d slot ++ bs ":/".
Definition bdmGetDeviceRootByType w (bdmType : Z) : option bytes := mass_root <$> head (bdmGetDeviceSlotsByType w bdmType).

Definition source_type (source : Z) : Z :=
  if source =? VCD_BDMA_SRC_MX4SIO then BDM_TYPE_SDC
  else if source =? VCD_BDMA_SRC_HDD then BDM_TYPE_ATA
  else if source =? VCD_BDMA_SRC_ILINK then BDM_TYPE_ILINK
  else BDM_TYPE_USB.

(** the settings that are looked at *)
Record pops_settings := PopsSet { custom_device : bool; gPopstarterPath : bytes; gBootDir : bytes }.

(** the folder of the launcher's own path, with its separator *)
Definition custom_folder (path : bytes) : option bytes :=
  let s1 := strrchr path cSLASH in
  let sl := match strrchr path cBSLASH with
            | Some s2 => match s1 with Some s1 => if (s1 <? s2)%nat then Some s2 else Some s1 | None => Some s2 end
            | None => s1
            end in
  match sl with Some k => if (k + 1 <? 96)%nat then Some (take (k + 1) path) else None | None => None end.
(** the POPS folder of the boot device *)
Definition boot_folder (dir : bytes) : option bytes :=
  match strchr dir cCOLON with
  | Some k => if (k + 1 + 7 <? 96)%nat then Some (take (k + 1) dir ++ bs "/POPS/") else None
  | None => None
  end.
Definition pre_folders (s : pops_settings) : list bytes :=
  (if custom_device s && negb (bool_decide (gPopstarterPath s = [])) then from_option (fun x => [x]) [] (custom_folder (gPopstarterPath s)) else []) ++
  (if negb (bool_decide (gBootDir s = [])) then from_option (fun x => [x]) [] (boot_folder (gBootDir s)) else []).

Definition source_file (folder module suffix : bytes) : bytes := bufcpy 96 (folder ++ module ++ bs "." ++ suffix).
(** the first folder that holds both files *)
Definition find_pair w (folders : list bytes) (suffix : bytes) : option (bytes * bytes) :=
  (fun f => (source_file f module0 suffix, source_file f module1 suffix)) <$>
  head (base.filter (fun f => io_open w (source_file f module0 suffix) && io_open w (source_file f module1 suffix) = true) folders).

(** the device families are loaded and searched only when the two folders do not hold the pair *)
Definition bdma_source w (s : pops_settings) (source : Z) (suffix : bytes) : option (bytes * bytes) * W :=
  match find_pair w (pre_folders s) suffix with
  | Some p => (Some p, w)
  | None =>
    if source =? VCD_BDMA_SRC_MMCE then
      let w := io_load_mmce w in
      (find_pair w (map (fun r => r ++ POPS_FOLDER ++ bs "/") (base.filter (fun r => io_opendir w r = true) [bs "mmce0:/"; bs "mmce1:/"])) suffix, w)
    else
      let w := io_load_bdm w (source_type source) in
      (find_pair w (map (fun i => mass_root i ++ POPS_FOLDER ++ bs "/") (bdmGetDeviceSlotsByType w (source_type source))) suffix, w)
  end.

(** *** The exchange *)

(** [None]: out of fuel *)
Definition vcdEquipBdma (fuel : nat) w (s : pops_settings) (source mode : Z) : option (Z * W) :=
  if (mode <? 0) || (VCD_BDMA_MODE_COUNT <=? mode) || (source <? 0) || (VCD_BDMA_SRC_COUNT <=? source) then Some (-1, w)
  else
    let '(mcDir, w) := vcdResolvePopstarterMc w in
    match mcDir with
    | None => Some (-3, w)
    | Some mcDir =>
      let dst0 := on_card mcDir module0 in
      let dst1 := on_card mcDir module1 in
      if mode =? VCD_BDMA_FAT32 then
        let w := io_unlink (io_unlink w dst0) dst1 in
        Some (vcdWriteBdmaMarker w mcDir mode)
      else
        let '(found, w) := bdma_source w s source (vcdBdmaSuffix mode) in
        match found with
        | None => Some (-4, w)
        | Some (src0, src1) =>
          let tmp0 := on_card mcDir (module0 ++ bs ".new") in
          let tmp1 := on_card mcDir (module1 ++ bs ".new") in
          let w := io_unlink (io_unlink w tmp0) tmp1 in
          (* both files are read in full before either module is touched *)
          '(r, w) ← vcdSafeCopyFile fuel w src0 tmp0;
          '(r, w) ← (if r =? 0 then vcdSafeCopyFile fuel w src1 tmp1 else Some (r, w));
          if negb (r =? 0) then Some (r, io_unlink (io_unlink w tmp0) tmp1)
          else
            let w := io_unlink w dst0 in
            '(r, w) ← vcdSafeCopyFile fuel w tmp0 dst0;
            '(r, w) ← (if r =? 0 then vcdSafeCopyFile fuel (io_unlink w dst1) tmp1 dst1 else Some (r, w));
            let w := io_unlink (io_unlink w tmp0) tmp1 in
            if negb (r =? 0) then
              let w := io_unlink (io_unlink w dst0) dst1 in
              Some (r, (vcdWriteBdmaMarker w mcDir VCD_BDMA_FAT32).2)
            else Some (vcdWriteBdmaMarker w mcDir mode)
        end
    end.

(** *** Whether it is needed *)

Definition vcdBdmaPairSig : list (Z * Z) := [(0, 0); (48500, 34508); (48500, 14993); (11841, 19733); (42749, 21837); (48500, 23452)].
Definition pair_sig (mode : Z) : Z * Z := nth (Z.to_nat mode) vcdBdmaPairSig (0, 0).
Definition vcdGetFileSize w (path : bytes) : Z := if io_open w path then default (-1) (io_seek_end w path) else -1.

Definition pair_sizes w (mcDir : bytes) : Z * Z := (vcdGetFileSize w (on_card mcDir module0), vcdGetFileSize w (on_card mcDir module1)).

(** the folder on the card is made on the way *)
Definition vcdBdmaEnvironmentValid w (mode : Z) : bool * W :=
  if (mode <? 0) || (VCD_BDMA_MODE_COUNT <=? mode) then (false, w)
  else
    let '(mcDir, w) := vcdResolvePopstarterMc w in
    match mcDir with
    | None => (false, w)
    | Some mcDir =>
      let '(sz0, sz1) := pair_sizes w mcDir in
      if mode =? VCD_BDMA_FAT32 then ((sz0 <? 0) && (sz1 <? 0), w)
      else
        let '(m, w) := vcdReadBdmaMode w in
        if negb (m =? mode) then (false, w) else (bool_decide ((sz0, sz1) = pair_sig mode), w)
    end.

Definition vcdBdmaManualPairMatches w (mode : Z) : bool * W :=
  if (mode <=? VCD_BDMA_FAT32) || (VCD_BDMA_MODE_COUNT <=? mode) then (false, w)
  else
    let '(mcDir, w) := vcdResolvePopstarterMc w in
    match mcDir with
    | None => (false, w)
    | Some mcDir => if io_open w (on_card mcDir VCD_BDMA_MARKER) then (false, w) else (bool_decide (pair_sizes w mcDir = pair_sig mode), w)
    end.

(** the code of the failure the user is told of, if any; a launch goes on in every case *)
Definition equip_for_launch (fuel : nat) w (s : pops_settings) (source mode : Z) : option (option Z * W) :=
  '(er, w) ← vcdEquipBdma fuel w s source mode;
  if er =? 0 then let '(ok, w) := vcdBdmaEnvironmentValid w mode in Some (if (ok : bool) then None else Some er, w) else Some (Some er, w).

Definition vcdEnsureBdmaForLaunch (fuel : nat) w (s : pops_settings) (gBdmaApplyOnLaunch : bool) (source mode : Z) : option (option Z * W) :=
  if (mode <=? VCD_BDMA_FAT32) || (VCD_BDMA_MODE_COUNT <=? mode) then Some (None, w)
  else
    let '(ok, w) := vcdBdmaEnvironmentValid w mode in
    if (ok : bool) then Some (None, w)
    else
      let '(ok, w) := vcdBdmaManualPairMatches w mode in
      if (ok : bool) then Some (None, w)
      else if negb gBdmaApplyOnLaunch then Some (None, w)
      else equip_for_launch fuel w s source mode.

Definition vcdApplyUsbModeForLaunch (fuel : nat) w (s : pops_settings) (mode : Z) : option (option Z * W) :=
  if negb (mode =? VCD_BDMA_FAT32) && negb (mode =? VCD_BDMA_USBEXFAT) then Some (None, w)
  else
    let '(ok, w) := vcdBdmaEnvironmentValid w mode in
    if (ok : bool) then Some (None, w)
    else
      let '(ok, w) := if mode =? VCD_BDMA_USBEXFAT then vcdBdmaManualPairMatches w mode else (false, w) in
      if (ok : bool) then Some (None, w) else equip_for_launch fuel w s VCD_BDMA_SRC_USB mode.

(** ** Files installed when missing *)

Definition vcdPopstarterMcFile : list bytes :=
  [bs "smbman.irx"; bs "ps2ip.irx"; bs "ps2smap.irx"; bs "ps2dev9.irx"; bs "SMSUTILS.irx"; bs "poweroff.irx"; bs "del.icn"; bs "list.icn"; bs "icon.sys"].
Definition vcdSmbModule : list bytes := [bs "smbman.irx"; bs "ps2ip.irx"; bs "ps2smap.irx"; bs "ps2dev9.irx"].

Definition vcdSep (devPrefix : bytes) : Z := match last devPrefix with Some c => if c =? cBSLASH then cBSLASH else cSLASH | None => cSLASH end.
Definition installed w (mcDir file : bytes) : bool :=
  io_open w (on_card mcDir file) || (streq file (bs "SMSUTILS.irx") && io_open w (on_card mcDir (bs "smsutils.irx"))).

(** the first error, or 0 *)
Fixpoint install_files (fuel : nat) w (devPrefix mcDir : bytes) (files : list bytes) (firstError : Z) : option (Z * W) :=
  match files with
  | [] => Some (firstError, w)
  | f :: files =>
    if installed w mcDir f then install_files fuel w devPrefix mcDir files firstError
    else
      '(result, w) ← vcdSafeCopyFile fuel w (bufcpy 320 (devPrefix ++ POPS_FOLDER ++ [vcdSep devPrefix] ++ f)) (on_card mcDir f);
      install_files fuel w devPrefix mcDir files (if (firstError =? 0) && negb (result =? 0) then result else firstError)
  end.
Definition vcdInstallPopstarterMcAt (fuel : nat) w (devPrefix mcDir : bytes) : option (Z * W) :=
  if bool_decide (devPrefix = []) || bool_decide (mcDir = []) then Some (-1, w) else install_files fuel w devPrefix mcDir vcdPopstarterMcFile 0.
Definition vcdInstallPopstarterMc (fuel : nat) w (devPrefix : bytes) : option (Z * W) :=
  let '(mcDir, w) := vcdResolvePopstarterMc w in
  match mcDir with None => Some (-3, w) | Some mcDir => vcdInstallPopstarterMcAt fuel w devPrefix mcDir end.

Definition vcdSmbModulesPresentAt w (mcDir : bytes) : bool := forallb (fun f => io_open w (on_card mcDir f)) vcdSmbModule.
Definition vcdSmbModulesPresent w : bool := existsb (vcdSmbModulesPresentAt w) (map snd cards).

(** ** Where the launcher is *)

Inductive pops_device := POPS_DEV_DEFAULT | POPS_DEV_MC | POPS_DEV_USB | POPS_DEV_MX4SIO | POPS_DEV_MMCE | POPS_DEV_EXFAT_HDD | POPS_DEV_APA_HDD | POPS_DEV_CUSTOM | POPS_DEV_GAME | POPS_DEV_ILINK.

Definition try_open w (out : bytes) : option bytes := if io_open w out then Some out else None.

Definition vcdTryPopsAtRoot w (root : bytes) (outSize : nat) : option bytes :=
  match try_open w (bufcpy outSize (root ++ bs ":/" ++ POPS_FOLDER ++ bs "/POPSTARTER.ELF")) with
  | Some p => Some p
  | None => try_open w (bufcpy outSize (root ++ bs ":" ++ POPS_FOLDER ++ bs "/POPSTARTER.ELF"))
  end.

(** the root of a device type without what follows its name *)
Definition root_name (root : bytes) : bytes := match strchr root cCOLON with Some k => take k root | None => root end.

Definition type_candidate w (gPopstarterDevice : pops_device) (outSize : nat) : option bytes :=
  let try_type t := root ← bdmGetDeviceRootByType w t; vcdTryPopsAtRoot w (root_name (bufcpy 32 root)) outSize in
  match gPopstarterDevice with
  | POPS_DEV_MC => match vcdTryPopsAtRoot w (bs "mc0") outSize with Some p => Some p | None => vcdTryPopsAtRoot w (bs "mc1") outSize end
  | POPS_DEV_MMCE => match vcdTryPopsAtRoot w (bs "mmce0") outSize with Some p => Some p | None => vcdTryPopsAtRoot w (bs "mmce1") outSize end
  | POPS_DEV_USB => try_type BDM_TYPE_USB
  | POPS_DEV_MX4SIO => try_type BDM_TYPE_SDC
  | POPS_DEV_ILINK => try_type BDM_TYPE_ILINK
  | POPS_DEV_EXFAT_HDD => try_type BDM_TYPE_ATA
  | _ => None
  end.

Definition game_candidate w (devPrefix : option bytes) (outSize : nat) : option bytes :=
  p ← devPrefix; try_open w (bufcpy outSize (p ++ POPS_FOLDER ++ [vcdSep p] ++ bs "POPSTARTER.ELF")).
Definition custom_candidate w (gPopstarterDevice : pops_device) (gPopstarterPath : bytes) (outSize : nat) : option bytes :=
  match gPopstarterDevice with
  | POPS_DEV_CUSTOM => if negb (bool_decide (gPopstarterPath = [])) && io_open w gPopstarterPath then Some (bufcpy outSize gPopstarterPath) else None
  | _ => None
  end.
Definition boot_candidate w (gBootDir : bytes) (outSize : nat) : option bytes :=
  match last gBootDir with
  | None => None
  | Some c => try_open w (bufcpy outSize (gBootDir ++ (if c =? cSLASH then [] else bs "/") ++ POPS_FOLDER ++ bs "/POPSTARTER.ELF"))
  end.

Definition vcdResolvePopstarter w (gPopstarterDevice : pops_device) (gPopstarterPath gBootDir : bytes) (devPrefix : option bytes) (outSize : nat) : option bytes :=
  match gPopstarterDevice with
  | POPS_DEV_GAME => game_candidate w devPrefix outSize
  | dev =>
    match custom_candidate w dev gPopstarterPath outSize with
    | Some p => Some p
    | None =>
      match type_candidate w dev outSize with
      | Some p => Some p
      | None =>
        match game_candidate w devPrefix outSize with
        | Some p => Some p
        | None => boot_candidate w gBootDir outSize
        end
      end
    end
  end.
End Card.

(** ** The file system behind the calls *)

Definition on_mc (p : bytes) : Prop := take 2 p = bs "mc".

Section Laws.
Context {W : Type} `{!CardIO W} (content : W -> bytes -> option bytes).
Implicit Types w : W.

(** what the calls do to the files; the calls for the card and for the drivers leave the files
    of the cards alone *)
Record card_laws : Prop := {
  cl_open : forall w p, io_open w p = true <-> is_Some (content w p);
  cl_read : forall w p off n b, io_read w p off n = Some b ->
    exists c, content w p = Some c /\ b = take (length b) (drop off c) /\ (b = [] -> (0 < n)%nat -> (length c <= off)%nat);
  cl_create : forall w p w', io_create w p = Some w' -> content w' p = Some [] /\ (forall q, q <> p -> content w' q = content w q);
  cl_write : forall w p c b n w', content w p = Some c -> io_write w p b = (n, w') ->
    n <= Z.of_nat (length b) /\ content w' p = Some (c ++ take (Z.to_nat n) b) /\ (forall q, q <> p -> content w' q = content w q);
  cl_unlink : forall w p, content (io_unlink w p) p = None /\ (forall q, q <> p -> content (io_unlink w p) q = content w q);
  cl_mkdir : forall w p q, content (io_mkdir w p) q = content w q;
  cl_load_bdm : forall w t q, on_mc q -> content (io_load_bdm w t) q = content w q;
  cl_load_mmce : forall w q, on_mc q -> content (io_load_mmce w) q = content w q;
}.
Hypothesis L : card_laws.

(** files other than one keep their content *)
Definition only_changes (w w' : W) (p : bytes) : Prop := forall q, q <> p -> content w' q = content w q.

Lemma only_refl w p : only_changes w w p.
Proof using. done. Qed.
Lemma only_trans w1 w2 w3 p : only_changes w1 w2 p -> only_changes w2 w3 p -> only_changes w1 w3 p.
Proof using. intros H1 H2 q Hq. rewrite H2 by done. by apply H1. Qed.
Lemma unlink_gone w p : content (io_unlink w p) p = None.
Proof. apply (cl_unlink L). Qed.
Lemma unlink_only w p : only_changes w (io_unlink w p) p.
Proof. intros q Hq. by apply (cl_unlink L). Qed.
Lemma unlink_other w p q : q <> p -> content (io_unlink w p) q = content w q.
Proof. apply (cl_unlink L). Qed.

(** the loop writes everything, or fails *)
Lemma write_all_spec dst : forall fuel b w c, (length b <= fuel)%nat -> content w dst = Some c ->
  let '(ok, w') := write_all fuel w dst b in
  only_changes w w' dst /\ is_Some (content w' dst) /\ (ok = true -> content w' dst = Some (c ++ b)).
Proof.
  induction fuel as [|fuel IH]; intros b w c Hl Hc.
  - destruct b; [|cbn in Hl; lia]. cbn. rewrite app_nil_r. split; [apply only_refl|]. by rewrite Hc.
  - destruct b as [|x b]; [cbn; rewrite app_nil_r; split; [apply only_refl|]; by rewrite Hc|]. cbn [write_all]. set (b' := x :: b) in *. destruct (io_write w dst b') as [n w1] eqn:E. destruct (cl_write L _ _ _ _ _ _ Hc E) as (Hn & Hc1 & Ho).
    destruct (Z.leb_spec n 0) as [Hle|Hgt]; [split; [exact Ho|]; by rewrite Hc1|]. specialize (IH (drop (Z.to_nat n) b') w1 _ ltac:(rewrite length_drop; lia) Hc1).
    destruct (write_all fuel w1 dst _) as [ok w'] eqn:Ew. destruct IH as (I1 & I2 & I3). split; [by eapply only_trans|]. split; [done|]. intros Hok. rewrite (I3 Hok), <- app_assoc. by rewrite take_drop.
Qed.

(** the copy ends: every round takes at least a byte of the file *)
Lemma copy_loop_spec src dst : src <> dst -> forall fuel w off s c, content w src = Some s -> content w dst = Some c -> (length s - off < fuel)%nat ->
  exists rc w', copy_loop fuel w src dst off = Some (rc, w') /\ only_changes w w' dst /\ is_Some (content w' dst) /\ (rc = 0 /\ content w' dst = Some (c ++ drop off s) \/ rc = -3).
Proof.
  intros Hne. induction fuel as [|fuel IH]; intros w off s c Hs Hc Hf; [lia|]. cbn [copy_loop]. destruct (io_read w src off VCD_COPY_CHUNK) as [b|] eqn:E.
  - destruct (cl_read L _ _ _ _ _ E) as (s' & Hs' & Eb & Hend). rewrite Hs in Hs'. injection Hs' as <-. destruct b as [|x b].
    + exists 0, w. split; [done|]. split; [apply only_refl|]. split; [by rewrite Hc|]. left. split; [done|]. rewrite drop_ge; [by rewrite app_nil_r|]. apply Hend; [done|unfold VCD_COPY_CHUNK; lia].
    + set (b' := x :: b) in *. pose proof (write_all_spec dst (length b') b' w c ltac:(lia) Hc) as Hw. destruct (write_all _ w dst b') as [ok w1]. destruct Hw as (H1 & H2 & H3).
      destruct ok; [|exists (-3), w1; split; [done|]; split; [done|]; split; [done|by right]].
      assert (Hsame : content w1 src = Some s) by (by rewrite H1). specialize (H3 eq_refl). assert (Hlb : (length b' <= length s - off)%nat) by (rewrite Eb, length_take, length_drop; lia).
      destruct (IH w1 (off + length b')%nat s _ Hsame H3) as (rc & w' & E' & I1 & I2 & I3); [unfold b' in *; cbn [length] in *; lia|]. exists rc, w'. split; [done|]. split; [by eapply only_trans|]. split; [done|].
      destruct I3 as [[-> I3]|I3]; [left; split; [done|]|by right]. rewrite I3, <- app_assoc. f_equal. f_equal. rewrite Eb at 1. rewrite <- drop_drop. rewrite <- Eb. set (r := drop off s) in *. rewrite Eb at 1. by rewrite take_drop.
  - exists (-3), w. split; [done|]. split; [apply only_refl|]. split; [by rewrite Hc|by right].
Qed.

(** what a copy leaves: the file in full, nothing changed, or no file *)
Definition copied (w w' : W) (src dst : bytes) (r : Z) : Prop :=
  only_changes w w' dst /\
  (r = 0 /\ content w' dst = content w src /\ is_Some (content w src) \/ r <> 0 /\ w' = w \/ r = -3 /\ content w' dst = None).

Lemma safe_copy_spec fuel w src dst s : src <> dst -> (forall c, content w src = Some c -> (length c < fuel)%nat) -> content w src = s ->
  exists r w', vcdSafeCopyFile fuel w src dst = Some (r, w') /\ copied w w' src dst r.
Proof.
  intros Hne Hf Hs. unfold vcdSafeCopyFile, copied. destruct (io_open w src) eqn:Eo; cbn [negb]; [|exists (-1), w; split; [done|]; split; [apply only_refl|right; left; by split]].
  apply (cl_open L) in Eo as [c Hsrc]. cbn zeta. destruct (bool_decide _ && negb _); [exists (-1), w; split; [done|]; split; [apply only_refl|right; left; by split]|].
  destruct (vcdMcHasSpace w dst _ =? 0); [exists (-2), w; split; [done|]; split; [apply only_refl|right; left; by split]|].
  destruct (io_create w dst) as [w1|] eqn:Ec; [|exists (-3), w; split; [done|]; split; [apply only_refl|right; left; by split]]. destruct (cl_create L _ _ _ Ec) as [Hn Ho].
  assert (Hs1 : content w1 src = Some c) by (by rewrite Ho). destruct (copy_loop_spec src dst Hne fuel w1 0 c [] Hs1 Hn) as (rc & w2 & El & H1 & H2 & H3); [specialize (Hf _ Hsrc); lia|]. rewrite El. cbn [mbind option_bind].
  assert (Ho2 : only_changes w w2 dst) by (by eapply only_trans). destruct (Z.eqb_spec rc 0) as [->|Hrc].
  - exists 0, w2. split; [done|]. split; [done|]. left. split; [done|]. destruct H3 as [[_ H3]|H3]; [|done]. rewrite H3, Hsrc. split; [by rewrite drop_0|done].
  - destruct H3 as [[? _]| ->]; [done|]. exists (-3), (io_unlink w2 dst). split; [done|]. split; [eapply only_trans; [exact Ho2|apply unlink_only]|]. right. right. split; [done|apply unlink_gone].
Qed.

(** the results there are *)
Lemma copy_loop_codes src dst fuel : forall w off r w', copy_loop fuel w src dst off = Some (r, w') -> r = 0 \/ r = -3.
Proof using.
  induction fuel as [|fuel IH]; intros w off r w'; [done|]. cbn [copy_loop]. destruct (io_read w src off VCD_COPY_CHUNK) as [[|x b]|]; [by intros [= <- <-]; left| |by intros [= <- <-]; right].
  destruct (write_all _ w dst _) as [[] w1]; [apply IH|by intros [= <- <-]; right].
Qed.
Lemma safe_copy_codes fuel w src dst r w' : vcdSafeCopyFile fuel w src dst = Some (r, w') -> r = 0 \/ r = -1 \/ r = -2 \/ r = -3.
Proof using.
  unfold vcdSafeCopyFile. destruct (negb _); [intros [= <- _]; lia|]. cbn zeta. destruct (_ && _); [intros [= <- _]; lia|]. destruct (_ =? 0); [intros [= <- _]; lia|]. destruct (io_create w dst) as [w1|]; [|intros [= <- _]; lia].
  destruct (copy_loop fuel w1 src dst 0) as [[rc w2]|] eqn:El; [|done]. cbn. apply copy_loop_codes in El. destruct (Z.eqb_spec rc 0); intros [= <- _]; lia.
Qed.

(** the same for a write *)
Lemma safe_write_spec w dst b : let '(r, w') := vcdSafeWriteFile w dst b in
  only_changes w w' dst /\ (r = 0 /\ content w' dst = Some b \/ r <> 0 /\ w' = w \/ r = -3 /\ content w' dst = None).
Proof.
  unfold vcdSafeWriteFile. destruct (_ =? 0); [split; [apply only_refl|right; left; by split]|]. destruct (io_create w dst) as [w1|] eqn:Ec; [|split; [apply only_refl|right; left; by split]]. destruct (cl_create L _ _ _ Ec) as [Hn Ho].
  pose proof (write_all_spec dst (length b) b w1 [] ltac:(lia) Hn) as Hw. destruct (write_all _ w1 dst b) as [ok w2]. destruct Hw as (H1 & H2 & H3). destruct ok.
  - split; [by eapply only_trans|]. left. split; [done|by apply H3].
  - split; [eapply only_trans; [by eapply only_trans|apply unlink_only]|]. right. right. split; [done|apply unlink_gone].
Qed.
End Laws.

(** *** The paths on the card *)

Definition mc_dir (d : bytes) : Prop := d = bs "mc0:/POPSTARTER" \/ d = bs "mc1:/POPSTARTER".
Definition card_files (d : bytes) : list bytes := [on_card d module0; on_card d module1; on_card d (module0 ++ bs ".new"); on_card d (module1 ++ bs ".new"); on_card d VCD_BDMA_MARKER].

Lemma card_files_nodup d : mc_dir d -> NoDup (card_files d) /\ Forall on_mc (card_files d).
Proof. intros [-> | ->]; (split; [apply (bool_decide_unpack _); vm_compute; exact I|repeat constructor]). Qed.

Lemma bufcpy_short n s t : bufcpy n s = t -> (length t < n - 1)%nat -> s = t.
Proof. unfold bufcpy. intros <- H. rewrite length_take in H. symmetry. apply take_ge. lia. Qed.

(** a file of a source ends in the suffix of its variant, none of the card does *)
Lemma source_not_card folder m mode d p : mc_dir d -> 1 <= mode < 6 -> p ∈ card_files d -> source_file folder m (vcdBdmaSuffix mode) <> p.
Proof.
  intros Hd Hm Hp E. assert (Hl : (length p < 95)%nat /\ take 2 (rev p) <> take 2 (rev (vcdBdmaSuffix mode))).
  { assert (Hmode : mode = 1 \/ mode = 2 \/ mode = 3 \/ mode = 4 \/ mode = 5) by lia.
    destruct Hd as [-> | ->], Hmode as [-> |[-> |[-> |[-> | ->]]]]; repeat (apply elem_of_cons in Hp as [-> |Hp]; [vm_compute; split; [lia|discriminate]|]); by apply not_elem_of_nil in Hp. }
  destruct Hl as [Hl Hlast]. unfold source_file in E. apply bufcpy_short in E; [|lia]. apply Hlast. rewrite <- E. rewrite !app_assoc, rev_app_distr.
  assert (Hmode : mode = 1 \/ mode = 2 \/ mode = 3 \/ mode = 4 \/ mode = 5) by lia. by destruct Hmode as [-> |[-> |[-> |[-> | ->]]]].
Qed.

Section Equip.
Context {W : Type} `{!CardIO W} (content : W -> bytes -> option bytes).
Implicit Types w : W.
Hypothesis L : card_laws content.

Lemma make_folder_spec w l : (forall d, d ∈ map snd l -> mc_dir d) -> let '(d, w1) := make_folder w l in
  (forall q, content w1 q = content w q) /\ (forall x, d = Some x -> mc_dir x).
Proof.
  revert w. induction l as [|[root card] l IH]; intros w Hl; cbn [make_folder]; [by split|]. assert (Hl' : forall d, d ∈ map snd l -> mc_dir d) by (intros d Hd; apply Hl; by right).
  destruct (io_opendir w root); [|by apply IH]. destruct (io_opendir (io_mkdir w card) card).
  - split; [intros q; apply (cl_mkdir _ L)|]. intros x [= <-]. apply Hl. by left.
  - specialize (IH (io_mkdir w card) Hl'). destruct (make_folder (io_mkdir w card) l) as [d w1]. destruct IH as [I1 I2]. split; [|done]. intros q. rewrite I1. apply (cl_mkdir _ L).
Qed.

Lemma cards_mc d : d ∈ map snd cards -> mc_dir d.
Proof using. intros H. repeat (apply elem_of_cons in H as [-> |H]; [unfold mc_dir; tauto|]). by apply not_elem_of_nil in H. Qed.

Lemma resolve_spec w : let '(d, w1) := vcdResolvePopstarterMc w in (forall q, content w1 q = content w q) /\ (forall x, d = Some x -> mc_dir x).
Proof.
  unfold vcdResolvePopstarterMc. destruct (head _) as [c|] eqn:E; [|apply make_folder_spec; apply cards_mc]. split; [done|]. intros x [= <-]. apply head_Some_elem_of, list_elem_of_filter in E as [_ E]. by apply cards_mc.
Qed.

Lemma source_spec w s source suffix : let '(found, w2) := bdma_source w s source suffix in
  (forall q, on_mc q -> content w2 q = content w q) /\ (forall src0 src1, found = Some (src0, src1) -> exists f, src0 = source_file f module0 suffix /\ src1 = source_file f module1 suffix).
Proof.
  assert (Hp : forall w folders src0 src1, find_pair w folders suffix = Some (src0, src1) -> exists f, src0 = source_file f module0 suffix /\ src1 = source_file f module1 suffix).
  { intros w0 folders src0 src1 H. unfold find_pair in H. destruct (head _) as [f|]; [|done]. injection H as <- <-. by exists f. }
  unfold bdma_source. destruct (find_pair w (pre_folders s) suffix) as [[a b]|] eqn:E.
  - split; [done|]. intros src0 src1 [= <- <-]. by apply (Hp w (pre_folders s)).
  - destruct (source =? VCD_BDMA_SRC_MMCE); cbn zeta; (split; [|intros src0 src1 H; eapply Hp; exact H]).
    + intros q Hq. by apply (cl_load_mmce _ L).
    + intros q Hq. by apply (cl_load_bdm _ L).
Qed.

Definition pair_of w (d : bytes) : option bytes * option bytes := (content w (on_card d module0), content w (on_card d module1)).
Definition staging_gone w (d : bytes) : Prop := content w (on_card d (module0 ++ bs ".new")) = None /\ content w (on_card d (module1 ++ bs ".new")) = None.

(** the marker behind a write of a token with the result [r]: the token, or with a failure
    what was there before or nothing *)
Definition marker_state w w' (d token : bytes) (r : Z) : Prop :=
  let mk := on_card d VCD_BDMA_MARKER in
  r = 0 /\ content w' mk = Some token \/ r <> 0 /\ (content w' mk = content w mk \/ content w' mk = None).

(** the state of the pair and its marker: as they were; no pair, and the marker for none
    unless its own write failed; or the two files of one variant, with its marker when all
    went well *)
Inductive pair_state w w2 w' (d suffix : bytes) (found : option (bytes * bytes)) (r : Z) : Prop :=
  | PairKept : r <> 0 -> pair_of w' d = pair_of w d -> content w' (on_card d VCD_BDMA_MARKER) = content w (on_card d VCD_BDMA_MARKER) -> pair_state w w2 w' d suffix found r
  | PairNone rm : pair_of w' d = (None, None) -> r <> 0 -> marker_state w w' d (vcdBdmaSuffix VCD_BDMA_FAT32) rm -> pair_state w w2 w' d suffix found r
  | PairNew src0 src1 b0 b1 : found = Some (src0, src1) -> content w2 src0 = Some b0 -> content w2 src1 = Some b1 -> pair_of w' d = (Some b0, Some b1) ->
      marker_state w w' d suffix r -> pair_state w w2 w' d suffix found r.

Lemma marker_spec w d mode : mc_dir d -> 0 <= mode < VCD_BDMA_MODE_COUNT -> let '(r, w') := vcdWriteBdmaMarker w d mode in
  only_changes content w w' (on_card d VCD_BDMA_MARKER) /\ marker_state w w' d (vcdBdmaSuffix mode) r.
Proof.
  intros Hd Hm. unfold vcdWriteBdmaMarker. rewrite (proj2 (Z.ltb_ge _ _)) by lia. rewrite (proj2 (Z.leb_gt _ _)) by lia. cbn [orb].
  pose proof (safe_write_spec content L w (on_card d VCD_BDMA_MARKER) (vcdBdmaSuffix mode)) as H. destruct (vcdSafeWriteFile _ _ _) as [r w']. destruct H as [H1 H2]. split; [done|].
  destruct H2 as [H2|[[H2 ->]|[-> H2]]]; [by left|right; split; [done|by left]|right; split; [done|by right]].
Qed.

Lemma marker_from w w2 w' d token r : content w2 (on_card d VCD_BDMA_MARKER) = content w (on_card d VCD_BDMA_MARKER) ->
  marker_state w2 w' d token r -> marker_state w w' d token r.
Proof using. unfold marker_state. by intros ->. Qed.

(** two copies, the second only after the first *)
Lemma two_copies fuel w (prep : W -> W) a0 t0 a1 t1 : (forall x, only_changes content x (prep x) t1) -> a0 <> t0 -> a1 <> t0 -> a1 <> t1 -> t0 <> t1 ->
  (forall c, content w a0 = Some c -> (length c < fuel)%nat) -> (forall c, content w a1 = Some c -> (length c < fuel)%nat) ->
  exists r w', ('(r, w) ← vcdSafeCopyFile fuel w a0 t0; if r =? 0 then vcdSafeCopyFile fuel (prep w) a1 t1 else Some (r, w)) = Some (r, w') /\
    (forall q, q <> t0 -> q <> t1 -> content w' q = content w q) /\
    (r = 0 -> content w' t0 = content w a0 /\ is_Some (content w a0) /\ content w' t1 = content w a1 /\ is_Some (content w a1)).
Proof.
  intros Hp H00 H10 H11 Ht Hf0 Hf1. destruct (safe_copy_spec content L fuel w a0 t0 _ H00 Hf0 eq_refl) as (r & w1 & E & Ho & Hc). rewrite E. cbn [mbind option_bind]. destruct (Z.eqb_spec r 0) as [->|Hr].
  - destruct Hc as [(_ & Hc & Hs)|[[? _]|[? _]]]; [|done|done]. assert (Ha1 : content (prep w1) a1 = content w a1) by (rewrite Hp by done; by apply Ho).
    destruct (safe_copy_spec content L fuel (prep w1) a1 t1 _ H11 ltac:(rewrite Ha1; exact Hf1) eq_refl) as (r2 & w2 & E2 & Ho2 & Hc2). exists r2, w2. split; [exact E2|]. split.
    + intros q Hq0 Hq1. rewrite Ho2 by done. rewrite Hp by done. by apply Ho.
    + intros ->. destruct Hc2 as [(_ & Hc2 & Hs2)|[[? _]|[? _]]]; [|done|done]. rewrite Ha1 in Hc2, Hs2. split; [|done]. rewrite Ho2 by done. by rewrite Hp by done.
  - exists r, w1. split; [done|]. split; [intros q Hq _; by apply Ho|done].
Qed.

Lemma unlink_two w p q x : x <> p -> x <> q -> content (io_unlink (io_unlink w p) q) x = content w x.
Proof. intros H1 H2. rewrite (unlink_other content L) by done. by apply (unlink_other content L). Qed.
Lemma unlink_both w p q : p <> q -> content (io_unlink (io_unlink w p) q) p = None /\ content (io_unlink (io_unlink w p) q) q = None.
Proof. intros H. split; [rewrite (unlink_other content L) by done|]; apply (unlink_gone content L). Qed.

(** the part of [vcdEquipBdma] behind the search, for a pair that was found *)
Definition exchange (fuel : nat) w (mcDir : bytes) (mode : Z) (src0 src1 : bytes) : option (Z * W) :=
  let dst0 := on_card mcDir module0 in
  let dst1 := on_card mcDir module1 in
  let tmp0 := on_card mcDir (module0 ++ bs ".new") in
  let tmp1 := on_card mcDir (module1 ++ bs ".new") in
  let w := io_unlink (io_unlink w tmp0) tmp1 in
  '(r, w) ← ('(r, w) ← vcdSafeCopyFile fuel w src0 tmp0; if r =? 0 then vcdSafeCopyFile fuel w src1 tmp1 else Some (r, w));
  if negb (r =? 0) then Some (r, io_unlink (io_unlink w tmp0) tmp1)
  else
    '(r, w) ← ('(r, w) ← vcdSafeCopyFile fuel (io_unlink w dst0) tmp0 dst0; if r =? 0 then vcdSafeCopyFile fuel (io_unlink w dst1) tmp1 dst1 else Some (r, w));
    let w := io_unlink (io_unlink w tmp0) tmp1 in
    if negb (r =? 0) then Some (r, (vcdWriteBdmaMarker (io_unlink (io_unlink w dst0) dst1) mcDir VCD_BDMA_FAT32).2)
    else Some (vcdWriteBdmaMarker w mcDir mode).

Lemma equip_exchange fuel w s source mode d w1 src0 src1 w2 :
  0 <= mode < VCD_BDMA_MODE_COUNT -> mode <> VCD_BDMA_FAT32 -> 0 <= source < VCD_BDMA_SRC_COUNT -> vcdResolvePopstarterMc w = (Some d, w1) -> bdma_source w1 s source (vcdBdmaSuffix mode) = (Some (src0, src1), w2) ->
  vcdEquipBdma fuel w s source mode = exchange fuel w2 d mode src0 src1.
Proof using.
  intros Hm Hn Hs Hr Hb. unfold vcdEquipBdma, exchange. rewrite (proj2 (Z.ltb_ge mode 0)), (proj2 (Z.leb_gt _ mode)), (proj2 (Z.ltb_ge source 0)), (proj2 (Z.leb_gt _ source)) by lia. cbn [orb]. rewrite Hr. rewrite (proj2 (Z.eqb_neq _ _)) by done. rewrite Hb. cbn zeta.
  destruct (vcdSafeCopyFile fuel (io_unlink (io_unlink w2 _) _) src0 _) as [[r x]|]; [|done]. cbn [mbind option_bind]. destruct (if r =? 0 then _ else _) as [[r' x']|]; [|done]. cbn [mbind option_bind]. destruct (negb (r' =? 0)); [done|].
  destruct (vcdSafeCopyFile fuel (io_unlink x' _) _ _) as [[r2 x2]|]; [|done]. cbn [mbind option_bind]. by destruct (if r2 =? 0 then _ else _) as [[r3 x3]|].
Qed.

Lemma exchange_spec fuel w d mode f : mc_dir d -> 1 <= mode < VCD_BDMA_MODE_COUNT -> (forall p c, content w p = Some c -> (length c < fuel)%nat) ->
  let src0 := source_file f module0 (vcdBdmaSuffix mode) in let src1 := source_file f module1 (vcdBdmaSuffix mode) in
  exists r w', exchange fuel w d mode src0 src1 = Some (r, w') /\ pair_state w w w' d (vcdBdmaSuffix mode) (Some (src0, src1)) r /\ staging_gone w' d /\
    (forall q, q ∉ card_files d -> content w' q = content w q).
Proof.
  intros Hd Hm Hf src0 src1. destruct (card_files_nodup d Hd) as [Hnd _]. unfold card_files in Hnd. set (dst0 := on_card d module0) in *. set (dst1 := on_card d module1) in *. set (tmp0 := on_card d (module0 ++ bs ".new")) in *. set (tmp1 := on_card d (module1 ++ bs ".new")) in *. set (mk := on_card d VCD_BDMA_MARKER) in *.
  repeat setoid_rewrite NoDup_cons in Hnd. rewrite !not_elem_of_cons in Hnd. destruct Hnd as ((N1 & N2 & N3 & N4 & _) & (N5 & N6 & N7 & _) & (N8 & N9 & _) & (N10 & _) & _).
  assert (Hsrc : forall m p, p ∈ card_files d -> source_file f m (vcdBdmaSuffix mode) <> p) by (intros m p Hp; by apply (source_not_card f m mode d)).
  assert (Hout : forall q, q ∉ card_files d -> q <> dst0 /\ q <> dst1 /\ q <> tmp0 /\ q <> tmp1 /\ q <> mk).
  { intros q Hq. unfold card_files in Hq. rewrite !not_elem_of_cons in Hq. tauto. }
  assert (HT0 : tmp0 ∈ card_files d) by (unfold card_files; set_solver). assert (HT1 : tmp1 ∈ card_files d) by (unfold card_files; set_solver).
  set (w0 := io_unlink (io_unlink w tmp0) tmp1). assert (Hw0 : forall q, q <> tmp0 -> q <> tmp1 -> content w0 q = content w q) by (intros; by apply unlink_two).
  assert (S0 : content w0 src0 = content w src0) by (apply Hw0; by apply Hsrc). assert (S1 : content w0 src1 = content w src1) by (apply Hw0; by apply Hsrc).
  destruct (two_copies fuel w0 (fun x => x) src0 tmp0 src1 tmp1) as (r & w1 & E1 & O1 & C1); [intros x q _; done|by apply Hsrc|by apply Hsrc|by apply Hsrc|done|rewrite S0; apply Hf|rewrite S1; apply Hf|].
  unfold exchange. fold dst0 dst1 tmp0 tmp1. cbn zeta. fold w0. rewrite E1. cbn [mbind option_bind]. unfold pair_of, staging_gone. fold dst0 dst1 tmp0 tmp1. destruct (Z.eqb_spec r 0) as [->|Hr]; cbn [negb].
  2: { eexists _, _. split; [done|]. split; [|split; [by apply unlink_both|]].
       - apply PairKept; [done| |]; unfold pair_of; fold dst0 dst1 mk; rewrite !unlink_two by done; by rewrite !O1, !Hw0 by done.
       - intros q Hq. destruct (Hout q Hq) as (Q0 & Q1 & Q2 & Q3 & Q4). rewrite unlink_two by done. by rewrite O1, Hw0 by done. }
  destruct (C1 eq_refl) as (B0 & [b0 Hb0] & B1 & [b1 Hb1]). rewrite S0 in B0, Hb0. rewrite S1 in B1, Hb1. rewrite Hb0 in B0. rewrite Hb1 in B1. set (w2 := io_unlink w1 dst0).
  assert (X0 : content w2 tmp0 = Some b0) by (unfold w2; by rewrite (unlink_other content L) by done). assert (X1 : content w2 tmp1 = Some b1) by (unfold w2; by rewrite (unlink_other content L) by done).
  destruct (two_copies fuel w2 (fun x => io_unlink x dst1) tmp0 dst0 tmp1 dst1) as (r2 & w3 & E2 & O2 & C2); [intros x; apply (unlink_only content L)|done|done|done|done|rewrite X0; intros c [= <-]; by apply (Hf src0)|rewrite X1; intros c [= <-]; by apply (Hf src1)|].
  rewrite E2. cbn [mbind option_bind]. set (w4 := io_unlink (io_unlink w3 tmp0) tmp1). destruct (unlink_both w3 tmp0 tmp1) as [G0 G1]; [done|]. fold w4 in G0, G1. destruct (Z.eqb_spec r2 0) as [->|Hr2]; cbn [negb].
  all: assert (W4 : forall q, q <> dst0 -> q <> dst1 -> q <> tmp0 -> q <> tmp1 -> content w4 q = content w q).
  1,3: intros q Q0 Q1 Q2 Q3; unfold w4; rewrite unlink_two, O2 by done; unfold w2; rewrite (unlink_other content L), O1 by done; by apply Hw0.
  - destruct (C2 eq_refl) as (D0 & _ & D1 & _). pose proof (marker_spec w4 d mode Hd ltac:(lia)) as Hmk. destruct (vcdWriteBdmaMarker w4 d mode) as [r3 w5]. destruct Hmk as [M1 M2]. fold mk in M1. exists r3, w5. split; [done|]. split; [|split; [by rewrite !M1 by done|]].
    + apply (PairNew _ _ _ _ _ _ _ src0 src1 b0 b1); [done|done|done| |apply (marker_from w w4); [by apply W4|done]]. unfold pair_of. fold dst0 dst1. rewrite !M1 by done. unfold w4. rewrite !unlink_two by done. by rewrite D0, D1, X0, X1.
    + intros q Hq. destruct (Hout q Hq) as (Q0 & Q1 & Q2 & Q3 & Q4). rewrite M1 by done. by apply W4.
  - set (w6 := io_unlink (io_unlink w4 dst0) dst1). pose proof (marker_spec w6 d VCD_BDMA_FAT32 Hd ltac:(done)) as Hmk. destruct (vcdWriteBdmaMarker _ d VCD_BDMA_FAT32) as [r3 w5]. destruct Hmk as [M1 M2]. fold mk in M1. exists r2, w5. split; [done|].
    destruct (unlink_both w4 dst0 dst1) as [K0 K1]; [done|]. fold w6 in K0, K1. split; [|split; [rewrite !M1 by done; unfold w6; by rewrite !unlink_two by done|]].
    + apply (PairNone _ _ _ _ _ _ _ r3); [|done|apply (marker_from w w6); [fold mk; unfold w6; rewrite unlink_two by done; by apply W4|done]]. unfold pair_of. fold dst0 dst1. rewrite !M1 by done. by rewrite K0, K1.
    + intros q Hq. destruct (Hout q Hq) as (Q0 & Q1 & Q2 & Q3 & Q4). rewrite M1 by done. unfold w6. rewrite unlink_two by done. by apply W4.
Qed.

(** no variant: the modules go, the marker says so *)
Lemma equip_fat32 fuel w s source d w1 : 0 <= source < VCD_BDMA_SRC_COUNT -> vcdResolvePopstarterMc w = (Some d, w1) ->
  exists r w', vcdEquipBdma fuel w s source VCD_BDMA_FAT32 = Some (r, w') /\ pair_of w' d = (None, None) /\
    marker_state w w' d (vcdBdmaSuffix VCD_BDMA_FAT32) r /\
    (forall q, q <> on_card d module0 -> q <> on_card d module1 -> q <> on_card d VCD_BDMA_MARKER -> content w' q = content w q).
Proof.
  intros Hs Hr. pose proof (resolve_spec w) as Hres. rewrite Hr in Hres. destruct Hres as [Hsame Hd]. specialize (Hd d eq_refl).
  destruct (card_files_nodup d Hd) as [Hnd _]. unfold card_files in Hnd. repeat setoid_rewrite NoDup_cons in Hnd. rewrite !not_elem_of_cons in Hnd. destruct Hnd as ((N1 & _ & _ & N4 & _) & (_ & _ & N7 & _) & _).
  unfold vcdEquipBdma. rewrite (proj2 (Z.ltb_ge source 0)), (proj2 (Z.leb_gt _ source)) by lia. change ((VCD_BDMA_FAT32 <? 0) || (VCD_BDMA_MODE_COUNT <=? VCD_BDMA_FAT32)) with false. cbn [orb]. rewrite Hr. cbn zeta. change (VCD_BDMA_FAT32 =? VCD_BDMA_FAT32) with true. cbn iota.
  set (w3 := io_unlink (io_unlink w1 _) _). pose proof (marker_spec w3 d VCD_BDMA_FAT32 Hd ltac:(done)) as Hmk. destruct (vcdWriteBdmaMarker w3 d VCD_BDMA_FAT32) as [r w'] eqn:Em. destruct Hmk as [M1 M2].
  destruct (unlink_both w1 (on_card d module0) (on_card d module1) N1) as [K0 K1]. exists r, w'. split; [done|]. split; [unfold pair_of; rewrite !M1 by done; unfold w3; by rewrite K0, K1|]. split.
  - apply (marker_from w w3); [|done]. unfold w3. rewrite unlink_two by done. apply Hsame.
  - intros q Q0 Q1 Q2. rewrite M1 by done. unfold w3. rewrite unlink_two by done. apply Hsame.
Qed.

(** ** Properties *)

(** C24. A gated copy ends and touches no file but its target. With success the target is the
    source in full. Without a source it reports -1, and where the card has no room for it -2,
    and both leave everything as it was, an old target included; any other failure is -3, and
    then either nothing changed or the target is gone: never a part of a file. *)
Theorem safe_copy_whole fuel w src dst : src <> dst -> (forall c, content w src = Some c -> (length c < fuel)%nat) ->
  exists r w', vcdSafeCopyFile fuel w src dst = Some (r, w') /\ (forall q, q <> dst -> content w' q = content w q) /\
    (r = 0 -> content w' dst = content w src /\ is_Some (content w src)) /\
    (content w src = None -> r = -1) /\
    (is_Some (content w src) -> io_rewind w src = true -> vcdMcHasSpace w dst (default 0 (io_seek_end w src)) = 0 -> r = -2) /\
    (r = 0 \/ r = -1 /\ w' = w \/ r = -2 /\ w' = w \/ r = -3 /\ (w' = w \/ content w' dst = None)).
Proof.
  intros Hne Hf. destruct (safe_copy_spec content L fuel w src dst _ Hne Hf eq_refl) as (r & w' & E & Ho & H). exists r, w'. split; [done|]. split; [exact Ho|]. split_and!.
  - intros ->. by destruct H as [[_ H]|[[? _]|[? _]]].
  - intros Hn. unfold vcdSafeCopyFile in E. destruct (io_open w src) eqn:Eo; [|by injection E as <- _]. apply (cl_open _ L) in Eo. rewrite Hn in Eo. by destruct Eo.
  - intros Hs Hr Hz. unfold vcdSafeCopyFile in E. rewrite (proj2 (cl_open _ L w src) Hs), Hr, andb_false_r, Hz in E. by injection E as <- _.
  - destruct (safe_copy_codes fuel w src dst r w' E) as [?|[?|[?|?]]]; [by left| | |].
    + right; left. destruct H as [[? _]|[[_ H]|[? _]]]; [lia|done|lia].
    + right; right; left. destruct H as [[? _]|[[_ H]|[? _]]]; [lia|done|lia].
    + right; right; right. split; [done|]. destruct H as [[? _]|[[_ H]|[_ H]]]; [lia|by left|by right].
Qed.

(** C23. The exchange of the driver pair on the card is never half done, whatever read or write
    fails on the way. For FAT32 the two modules are gone. For a variant the pair is the old one
    with the old marker; or none; or both files of the variant as they were found, which with
    success it is; and nothing of the staging is left. The marker says what the pair is when its
    own write went well, in particular with success; when only that write failed, the marker is
    the old one or gone. No other file changes: what the search for the variant loads leaves
    the cards alone, and behind it only the two modules, their staging and the marker change. *)
Theorem equip_never_torn fuel w s source mode d w1 : 0 <= mode < VCD_BDMA_MODE_COUNT -> 0 <= source < VCD_BDMA_SRC_COUNT -> vcdResolvePopstarterMc w = (Some d, w1) ->
  let '(found, w2) := bdma_source w1 s source (vcdBdmaSuffix mode) in
  (forall p c, content w2 p = Some c -> (length c < fuel)%nat) ->
  exists r w', vcdEquipBdma fuel w s source mode = Some (r, w') /\
    (mode = VCD_BDMA_FAT32 -> pair_of w' d = (None, None) /\ marker_state w w' d (bs "fat32") r /\
      (forall q, q <> on_card d module0 -> q <> on_card d module1 -> q <> on_card d VCD_BDMA_MARKER -> content w' q = content w q)) /\
    (mode <> VCD_BDMA_FAT32 -> pair_state w w2 w' d (vcdBdmaSuffix mode) found r /\ (found = None -> r = -4 /\ w' = w2) /\ (found <> None -> staging_gone w' d) /\
      (forall q, q ∉ card_files d -> content w' q = content w2 q) /\ (forall q, on_mc q -> content w2 q = content w q)).
Proof.
  intros Hm Hs Hr. destruct (bdma_source w1 s source (vcdBdmaSuffix mode)) as [found w2] eqn:Eb. intros Hf.
  pose proof (resolve_spec w) as Hres. rewrite Hr in Hres. destruct Hres as [Hsame Hd]. specialize (Hd d eq_refl). pose proof (source_spec w1 s source (vcdBdmaSuffix mode)) as Hsrc. rewrite Eb in Hsrc. destruct Hsrc as [Hmc Hsrc].
  destruct (decide (mode = VCD_BDMA_FAT32)) as [->|Hn]; [destruct (equip_fat32 fuel w s source d w1 Hs Hr) as (r & w' & E & H); exists r, w'; by split_and!|].
  destruct (card_files_nodup d Hd) as [_ Hon]. unfold card_files in Hon. rewrite !Forall_cons in Hon. destruct Hon as (O0 & O1 & _ & _ & O4 & _).
  assert (Hmc' : forall q, on_mc q -> content w2 q = content w q) by (intros q Hq; by rewrite Hmc, Hsame).
  assert (Hpair : pair_of w2 d = pair_of w d) by (unfold pair_of; by rewrite !Hmc'). pose proof (Hmc' _ O4) as Hmk.
  destruct found as [[src0 src1]|].
  - destruct (Hsrc src0 src1 eq_refl) as (f & -> & ->). rewrite (equip_exchange fuel w s source mode d w1 _ _ w2 Hm Hn Hs Hr Eb).
    destruct (exchange_spec fuel w2 d mode f Hd) as (r & w' & E & Hp & Hg & Hfr); [unfold VCD_BDMA_FAT32 in Hn; lia|exact Hf|]. exists r, w'. split; [exact E|]. split; [done|]. intros _. split; [|by split_and!].
    destruct Hp as [Hp1 Hp2 Hp3|rm Hp1 Hp2 Hp3|a b b0 b1 H1 H2 H3 H4 H5].
    + apply PairKept; [done|by rewrite Hp2|by rewrite Hp3].
    + apply (PairNone _ _ _ _ _ _ _ rm); [done|done|by apply (marker_from w w2)].
    + eapply PairNew; [done..|by apply (marker_from w w2)].
  - unfold vcdEquipBdma. rewrite (proj2 (Z.ltb_ge mode 0)), (proj2 (Z.leb_gt _ mode)), (proj2 (Z.ltb_ge source 0)), (proj2 (Z.leb_gt _ source)) by lia. cbn [orb]. rewrite Hr. rewrite (proj2 (Z.eqb_neq _ _)) by done. rewrite Eb.
    exists (-4), w2. split; [done|]. split; [done|]. intros _. split_and!; try done. by apply PairKept.
Qed.
End Equip.

(** ** A card in memory, witnesses *)

Record card_mem := CardMem { cm_files : list (bytes * bytes); cm_free : Z }.
Definition on_files (f : list (bytes * bytes) -> list (bytes * bytes)) (w : card_mem) : card_mem := CardMem (f (cm_files w)) (cm_free w).
Definition mem_dirs : list bytes := [bs "mc0:/"; bs "mc0:/POPSTARTER"].
#[export] Instance mem_card : CardIO card_mem := {
  io_open := fun w p => bool_decide (is_Some (mem_file (cm_files w) p));
  io_read := fun w p off n => (fun c => take n (drop off c)) <$> mem_file (cm_files w) p;
  io_seek_end := fun w p => (fun c => Z.of_nat (length c)) <$> mem_file (cm_files w) p;
  io_rewind := fun _ _ => true;
  io_create := fun w p => Some (on_files (fun l => mem_write l p []) w);
  io_write := fun w p b => (Z.of_nat (length b), on_files (fun l => mem_write l p (default [] (mem_file l p) ++ b)) w);
  io_unlink := fun w p => on_files (fun l => mem_remove l p) w;
  io_opendir := fun _ p => bool_decide (p ∈ mem_dirs);
  io_mkdir := fun w _ => w;
  io_mcinfo := fun w port => if port =? 0 then (sceMcTypePS2, cm_free w, MC_FORMATTED) else (0, 0, 0);
  io_driver := fun _ i => if i =? 0 then bs "usb" else [];
  io_load_bdm := fun w _ => w;
  io_load_mmce := fun w => w;
}.

Lemma mem_file_remove (l : list (bytes * bytes)) p q : mem_file (mem_remove l p) q = if bool_decide (p = q) then None else mem_file l q.
Proof.
  unfold mem_file, mem_remove. induction l as [|[x c] l IH]; [by destruct (bool_decide _)|]. rewrite !filter_cons. cbn [fst]. destruct (decide (x <> p)) as [Hx|Hx].
  - rewrite filter_cons. cbn [fst]. destruct (decide (x = q)) as [->|Hq]; [rewrite bool_decide_false by congruence; done|exact IH].
  - rewrite IH. assert (x = p) as -> by (destruct (decide (x = p)); [done|by destruct Hx]). case_bool_decide as E; [done|]. by rewrite decide_False.
Qed.
Lemma mem_file_write (l : list (bytes * bytes)) p b q : mem_file (mem_write l p b) q = if bool_decide (p = q) then Some b else mem_file l q.
Proof.
  pose proof (mem_file_remove l p q) as H. unfold mem_write, mem_file in *. rewrite filter_app, filter_cons, filter_nil. cbn [fst]. case_bool_decide as E.
  - rewrite decide_True by done. destruct (base.filter _ (mem_remove l p)); [done|done].
  - rewrite decide_False by done. by rewrite app_nil_r.
Qed.

Lemma mem_card_laws : card_laws (fun w p => mem_file (cm_files w) p).
Proof.
  split.
  - intros w p. cbn. by rewrite bool_decide_eq_true.
  - intros w p off n b. cbn. destruct (mem_file _ p) as [c|]; [|done]. cbn. intros [= <-]. exists c. split; [done|]. split.
    + rewrite length_take. set (r := drop off c). destruct (Nat.le_ge_cases n (length r)); [by rewrite Nat.min_l by done|]. rewrite Nat.min_r by done. by rewrite !take_ge by lia.
    + intros E Hn. apply (f_equal length) in E. rewrite length_take, length_drop in E. cbn in E. lia.
  - intros w p w'. cbn. intros [= <-]. cbn. rewrite mem_file_write, bool_decide_true by done. split; [done|]. intros q Hq. rewrite mem_file_write, bool_decide_false by done. done.
  - intros w p c b n w' Hc. cbn. intros [= <- <-]. cbn. cbn in Hc. rewrite Hc. cbn [default from_option id]. split; [lia|]. rewrite mem_file_write, bool_decide_true by done. rewrite Nat2Z.id, take_ge by lia. split; [done|]. intros q Hq. rewrite mem_file_write, bool_decide_false by done. done.
  - intros w p. cbn. rewrite mem_file_remove, bool_decide_true by done. split; [done|]. intros q Hq. rewrite mem_file_remove, bool_decide_false by done. done.
  - done.
  - done.
  - done.
Qed.

Definition sample_mc : card_mem := CardMem [(bs "mc0:/POPSTARTER/usbd.irx", bs "old0"); (bs "mass0:/POPS/usbd.irx.usbexfat", bs "new zero"); (bs "mass0:/POPS/usbhdfsd.irx.usbexfat", bs "new one")] 1000.
Definition plain_set : pops_settings := PopsSet false [] [].

Lemma safe_copy_whole_witness : exists r w', vcdSafeCopyFile 20 sample_mc (bs "mass0:/POPS/usbd.irx.usbexfat") (bs "mc0:/x") = Some (r, w') /\ r = 0 /\ mem_file (cm_files w') (bs "mc0:/x") = Some (bs "new zero").
Proof.
  destruct (safe_copy_whole (fun w p => mem_file (cm_files w) p) mem_card_laws 20 sample_mc (bs "mass0:/POPS/usbd.irx.usbexfat") (bs "mc0:/x")) as (r & w' & E & _ & H & _).
  - vm_compute. discriminate.
  - intros c Hc. vm_compute in Hc. injection Hc as <-. cbn. lia.
  - assert (Er : fst <$> vcdSafeCopyFile 20 sample_mc (bs "mass0:/POPS/usbd.irx.usbexfat") (bs "mc0:/x") = Some 0) by (vm_compute; reflexivity). rewrite E in Er. cbn in Er. injection Er as ->. exists 0, w'. split; [exact E|]. split; [done|]. destruct (H eq_refl) as [H1 _]. exact H1.
Defined.

Lemma equip_never_torn_witness : exists w', vcdEquipBdma 20 sample_mc plain_set VCD_BDMA_SRC_USB VCD_BDMA_USBEXFAT = Some (0, w') /\
  (mem_file (cm_files w') (bs "mc0:/POPSTARTER/usbd.irx"), mem_file (cm_files w') (bs "mc0:/POPSTARTER/usbhdfsd.irx")) = (Some (bs "new zero"), Some (bs "new one")).
Proof.
  pose proof (equip_never_torn (fun w p => mem_file (cm_files w) p) mem_card_laws 20 sample_mc plain_set VCD_BDMA_SRC_USB VCD_BDMA_USBEXFAT (bs "mc0:/POPSTARTER") sample_mc ltac:(done) ltac:(done) ltac:(vm_compute; reflexivity)) as H.
  replace (bdma_source sample_mc plain_set VCD_BDMA_SRC_USB (vcdBdmaSuffix VCD_BDMA_USBEXFAT)) with (Some (bs "mass0:/POPS/usbd.irx.usbexfat", bs "mass0:/POPS/usbhdfsd.irx.usbexfat"), sample_mc) in H by (vm_compute; reflexivity).
  destruct H as (r & w' & E & _ & H).
  - intros p c Hc. unfold mem_file in Hc. destruct (head _) as [x|] eqn:Eh; [|done]. injection Hc as <-. apply head_Some_elem_of, list_elem_of_filter in Eh as [_ Hin]. cbn [sample_mc cm_files] in Hin. repeat (apply elem_of_cons in Hin as [-> |Hin]; [vm_compute; lia|]). by apply not_elem_of_nil in Hin.
  - assert (Er : fst <$> vcdEquipBdma 20 sample_mc plain_set VCD_BDMA_SRC_USB VCD_BDMA_USBEXFAT = Some 0) by (vm_compute; reflexivity). rewrite E in Er. cbn in Er. injection Er as ->. exists w'. split; [exact E|].
    destruct H as [[Hk|Hk1 Hk2|a b b0 b1 H1 H2 H3 H4 _] _]; [done|done|done|]. injection H1 as <- <-. vm_compute in H2. vm_compute in H3. injection H2 as <-. injection H3 as <-. exact H4.
Defined.

(** on a full card the old file stays *)
Example full_card_keeps_target :
  vcdSafeCopyFile 20 (CardMem (cm_files sample_mc) 16) (bs "mass0:/POPS/usbd.irx.usbexfat") (bs "mc0:/POPSTARTER/usbd.irx") = Some (-2, CardMem (cm_files sample_mc) 16).
Proof. vm_compute. reflexivity. Qed.
