(* ===== verification/FavStore.v ===== *)
(** * FavStore: the store of favourites (src/favsupport.c)

    The records of favourites.bin with the format of this program in its three versions and the
    format of its relatives, which is imported; adding and removing a favourite. The file
    system is an interface. *)
From S2P Require Import Prelude CLib ConfigStore LibView.

Definition FAV_TEXT_MAX : Z := 256.
Definition FAV_MAX_ITEMS : nat := 512.
Definition FAV_MAGIC : Z := 0x4641464F.
Definition FAV_VERSION : Z := 3.
Definition FAV_KIND_ISO : Z := 0.
Definition FAV_KIND_VCD : Z := 1.
Definition FAV_KIND_CUE : Z := 2.
Definition FAV_KIND_ELF : Z := 3.

(** ** Records *)

Record fav_raw_t := { r_mode : Z; r_id : Z; r_icon : Z; r_text_id : Z; r_kind : Z; r_text : bytes }.
#[export] Instance fav_raw_eq : EqDecision fav_raw_t.
Proof. solve_decision. Defined.

Definition CONFIG_OPL_FILENAME : bytes := bs "settings_riptopl.cfg".

(** the path, next to the configuration *)
Definition favGetFilePath (cfg : option bytes) (outSize : nat) : bytes :=
  let fn := default (bs "mc0:OPL/" ++ CONFIG_OPL_FILENAME) cfg in
  let len := length fn in
  let blen := length CONFIG_OPL_FILENAME in
  if (blen <=? len)%nat && streq (drop (len - blen) fn) CONFIG_OPL_FILENAME then
    let dirLen := Nat.min (len - blen) (outSize - 1) in
    let out := take dirLen fn in
    out ++ take (outSize - length out - 1) (bs "favourites.bin")
  else bufcpy outSize (bs "mc0:OPL/favourites.bin").

(** ** Reading *)

(** [rdBytes]: the bytes the descriptor still gives *)
Definition rdBytes (n : nat) (s : bytes) : option (bytes * bytes) := if (n <=? length s)%nat then Some (take n s, drop n s) else None.
Definition rdU16 (s : bytes) : option (Z * bytes) := '(b, s) ← rdBytes 2 s; Some (le_val b, s).
Definition rdU32 (s : bytes) : option (Z * bytes) := '(b, s) ← rdBytes 4 s; Some (le_val b, s).
Definition rdS32le (b : bytes) : Z := s32 (le_val (take 4 b)).

(** the text field of a record: its last byte is made the NUL *)
Definition text_field (b : bytes) : bytes := cstr (take (length b - 1) b).

Definition favMapWoplMode (m : Z) : Z :=
  if m =? 5 then ETH_MODE
  else if m =? 6 then HDD_MODE
  else if m =? 7 then APP_MODE
  else if m =? 8 then FAV_MODE
  else if m =? 9 then MMCE_MODE
  else m.

Definition WOPL_FAV_STRUCT_SIZE : nat := 32.

(** a record of the relatives' format, [None] where the loop stops *)
Definition read_wopl (s : bytes) : option (fav_raw_t * bytes) :=
  '(st, s) ← rdBytes WOPL_FAV_STRUCT_SIZE s;
  '(tlen, s) ← rdU32 s;
  if (tlen =? 0) || (FAV_TEXT_MAX <? tlen) then None
  else
    '(text, s) ← rdBytes (Z.to_nat tlen) s;
    '(mode, s) ← rdU16 s;
    Some ({| r_mode := favMapWoplMode ((mode + 32768) mod 65536 - 32768); r_id := rdS32le (drop 12 st); r_icon := rdS32le st; r_text_id := rdS32le (drop 8 st); r_kind := FAV_KIND_ISO; r_text := text_field text |}, s).

(** at most [n] records, as long as they can be read *)
Fixpoint read_while (read : bytes -> option (fav_raw_t * bytes)) (n : nat) (s : bytes) : list fav_raw_t :=
  match n with
  | O => []
  | S n => match read s with None => [] | Some (r, s) => r :: read_while read n s end
  end.

(** NULL where nothing was read *)
Definition some_records (l : list fav_raw_t) : option (list fav_raw_t) := match l with [] => None | _ => Some l end.

Definition favReadWoplFile (s : bytes) : option (list fav_raw_t) := some_records (read_while read_wopl FAV_MAX_ITEMS s).

(** the kind of a record read with version [ver] *)
Definition kind_of (ver kindByte mode : Z) : Z :=
  if 3 <=? ver then (if kindByte <=? FAV_KIND_ELF then kindByte else FAV_KIND_ISO)
  else if negb (kindByte =? 0) then FAV_KIND_VCD
  else if mode =? APP_MODE then FAV_KIND_ELF else FAV_KIND_ISO.

Definition read_fav (ver : Z) (s : bytes) : option (fav_raw_t * bytes) :=
  '(mode, s) ← rdU16 s; '(id, s) ← rdU32 s; '(icon, s) ← rdU32 s; '(tid, s) ← rdU32 s;
  '(kindByte, s) ← (if 2 <=? ver then '(b, s) ← rdBytes 1 s; Some (nth 0 b 0, s) else Some (0, s));
  '(tlen, s) ← rdU16 s;
  if (tlen =? 0) || (FAV_TEXT_MAX <? tlen) then None
  else
    '(text, s) ← rdBytes (Z.to_nat tlen) s;
    Some ({| r_mode := mode; r_id := s32 id; r_icon := s32 icon; r_text_id := s32 tid; r_kind := kind_of ver kindByte mode; r_text := text_field text |}, s).

(** the whole file *)
Definition read_header (s : bytes) : option (Z * Z * Z * bytes) := '(magic, s) ← rdU32 s; '(ver, s) ← rdU16 s; '(cnt, s) ← rdU16 s; Some (magic, ver, cnt, s).
Definition parse_favs (s : bytes) : option (list fav_raw_t) :=
  match read_header s with
  | Some (magic, ver, cnt, rest) =>
    if negb (magic =? FAV_MAGIC) then favReadWoplFile s
    else if (ver <? 1) || (FAV_VERSION <? ver) then None
    else if cnt =? 0 then None
    else some_records (read_while (read_fav ver) (Nat.min (Z.to_nat cnt) FAV_MAX_ITEMS) rest)
  | None => favReadWoplFile s
  end.

(** ** Writing *)

Definition text_len (r : fav_raw_t) : Z := Z.min (Z.of_nat (length (r_text r)) + 1) FAV_TEXT_MAX.
Definition fav_bytes (r : fav_raw_t) : bytes :=
  le_bytes 2 (u16 (r_mode r)) ++ le_bytes 4 (u32 (r_id r)) ++ le_bytes 4 (u32 (r_icon r)) ++ le_bytes 4 (u32 (r_text_id r)) ++ [u8 (r_kind r)] ++
  le_bytes 2 (u16 (text_len r)) ++ take (Z.to_nat (text_len r) - 1) (r_text r) ++ [0].
Definition fav_image (recs : list fav_raw_t) : bytes :=
  let recs := take FAV_MAX_ITEMS recs in
  le_bytes 4 FAV_MAGIC ++ le_bytes 2 FAV_VERSION ++ le_bytes 2 (u16 (Z.of_nat (length recs))) ++ concat (map fav_bytes recs).

(** ** The store *)

Class FavFS (W : Type) := {
  ff_read : W -> bytes -> option bytes;          (** the file opened for reading, and what its reads give until one falls short *)
  ff_create : W -> bytes -> option W;            (** opened for writing, created and truncated *)
  ff_write : W -> bytes -> bytes -> Z * W;       (** [write] to the file opened so *)
}.

(** two favourites are one when the device (any slot of the mass storage), the id (the title
    alone for applications), the kind and the text agree *)
Definition favIdsMatchForMode (mode recId liveId : Z) : bool := (mode =? APP_MODE) || (recId =? liveId).
Definition is_bdm (m : Z) : bool := (BDM_MODE <=? m) && (m <=? BDM_MODE_LAST).
Definition favModesMatch (a b : Z) : bool := if is_bdm a && is_bdm b then true else a =? b.

Section Store.
Context {W : Type} `{!FavFS W} (cfg : option bytes).
Implicit Types w : W.

Definition favReadFile w : option (list fav_raw_t) := s ← ff_read w (favGetFilePath cfg 256); parse_favs s.

Definition favWriteFile w (recs : list fav_raw_t) : Z * W :=
  let img := fav_image recs in
  let path := favGetFilePath cfg 256 in
  match ff_create w path with
  | None => (0, w)
  | Some w => let '(written, w) := ff_write w path img in ((if negb (written =? Z.of_nat (length img)) then 0 else 1), w)
  end.

Definition addFavouriteItem w (mode id icon_id text_id : Z) (text : option bytes) (kind : Z) : Z * W :=
  match text with
  | None | Some [] => (0, w)
  | Some text =>
    let recs := default [] (favReadFile w) in
    if existsb (fun r => favModesMatch (r_mode r) mode && favIdsMatchForMode mode (r_id r) id && (r_kind r =? kind) && streq (r_text r) text) recs then (1, w)
    else if (FAV_MAX_ITEMS <? length recs + 1)%nat then (0, w)
    else favWriteFile w (recs ++ [{| r_mode := mode; r_id := id; r_icon := icon_id; r_text_id := text_id; r_kind := kind; r_text := bufcpy (Z.to_nat FAV_TEXT_MAX) text |}])
  end.

Definition removeFavouriteByIdAndText w (mode id : Z) (text : option bytes) (kind : Z) : Z * W :=
  match favReadFile w with
  | None => (0, w)
  | Some recs =>
    favWriteFile w (base.filter (fun r => negb (favIdsMatchForMode mode (r_id r) id && bool_decide (text = Some (r_text r)) && favModesMatch (r_mode r) mode && (r_kind r =? kind)) = true) recs)
  end.
End Store.

(** ** Lemmas: the format *)

Record fav_wf (r : fav_raw_t) : Prop := {
  wf_mode : 0 <= r_mode r < 65536; wf_id : - 2 ^ 31 <= r_id r < 2 ^ 31; wf_icon : - 2 ^ 31 <= r_icon r < 2 ^ 31; wf_tid : - 2 ^ 31 <= r_text_id r < 2 ^ 31;
  wf_kind : 0 <= r_kind r <= FAV_KIND_ELF; wf_text : cstring (r_text r); wf_len : (length (r_text r) < 256)%nat;
}.

(** the record as version [ver] had it, with [b] in the byte after the text id *)
Definition fav_bytes_of (ver b : Z) (r : fav_raw_t) : bytes :=
  le_bytes 2 (u16 (r_mode r)) ++ le_bytes 4 (u32 (r_id r)) ++ le_bytes 4 (u32 (r_icon r)) ++ le_bytes 4 (u32 (r_text_id r)) ++ (if 2 <=? ver then [b] else []) ++
  le_bytes 2 (u16 (text_len r)) ++ take (Z.to_nat (text_len r) - 1) (r_text r) ++ [0].

Lemma rdBytes_app n (a s : bytes) : length a = n -> rdBytes n (a ++ s) = Some (a, s).
Proof. intros <-. unfold rdBytes. rewrite (proj2 (Nat.leb_le _ _)) by (rewrite length_app; lia). by rewrite take_app_length, drop_app_length. Qed.
Lemma rdU16_app z s : 0 <= z < 65536 -> rdU16 (le_bytes 2 z ++ s) = Some (z, s).
Proof. intros Hz. unfold rdU16. rewrite (rdBytes_app 2) by apply le_bytes_length. cbn [mbind option_bind]. rewrite le_val_bytes by lia. done. Qed.
Lemma rdU32_app z s : 0 <= z < 2 ^ 32 -> rdU32 (le_bytes 4 z ++ s) = Some (z, s).
Proof. intros Hz. unfold rdU32. rewrite (rdBytes_app 4) by apply le_bytes_length. cbn [mbind option_bind]. rewrite le_val_bytes by lia. done. Qed.
Lemma s32_u32 z : - 2 ^ 31 <= z < 2 ^ 31 -> s32 (u32 z) = z.
Proof. intros Hz. unfold s32, u32. rewrite Zplus_mod_idemp_l, Z.mod_small; lia. Qed.

Lemma text_len_wf r : fav_wf r -> text_len r = Z.of_nat (length (r_text r)) + 1.
Proof. intros H. pose proof (wf_len _ H). unfold text_len, FAV_TEXT_MAX. lia. Qed.

Lemma text_field_app t : cstring t -> text_field (t ++ [0]) = t.
Proof. intros H. unfold text_field. rewrite length_app. cbn [length]. replace (length t + 1 - 1)%nat with (length t) by lia. rewrite take_app_length. by apply cstr_id. Qed.

Lemma read_fav_bytes ver b r s : fav_wf r -> 1 <= ver -> 0 <= b < 256 ->
  read_fav ver (fav_bytes_of ver b r ++ s) = Some ({| r_mode := r_mode r; r_id := r_id r; r_icon := r_icon r; r_text_id := r_text_id r; r_kind := kind_of ver (if 2 <=? ver then b else 0) (r_mode r); r_text := r_text r |}, s).
Proof.
  intros H Hv Hb. pose proof (text_len_wf r H) as Et. pose proof (wf_len _ H) as Hl. unfold read_fav, fav_bytes_of. rewrite <- !app_assoc. rewrite u16_id by apply H. rewrite rdU16_app by apply H. cbn [mbind option_bind]. rewrite rdU32_app by apply u32_range. cbn [mbind option_bind].
  rewrite rdU32_app by apply u32_range. cbn [mbind option_bind]. rewrite rdU32_app by apply u32_range. cbn [mbind option_bind].
  assert (Hk : forall R, (if 2 <=? ver then '(b0, s0) ← rdBytes 1 ((if 2 <=? ver then [b] else []) ++ R); Some (nth 0 b0 0, s0) else Some (0, (if 2 <=? ver then [b] else []) ++ R)) = Some ((if 2 <=? ver then b else 0), R)).
  { intros R. destruct (2 <=? ver); [|done]. by rewrite (rdBytes_app 1). }
  rewrite Hk. cbn [mbind option_bind]. rewrite u16_id by lia. rewrite rdU16_app by lia. cbn [mbind option_bind]. rewrite (proj2 (Z.eqb_neq _ 0)) by lia. unfold FAV_TEXT_MAX. rewrite (proj2 (Z.ltb_ge 256 _)) by lia. cbn [orb].
  rewrite take_ge by lia. rewrite (app_assoc (r_text r) [0]), rdBytes_app by (rewrite length_app; cbn [length]; lia). cbn [mbind option_bind]. rewrite text_field_app by apply H. rewrite !s32_u32 by apply H. done.
Qed.

Lemma fav_bytes_now r : fav_wf r -> fav_bytes r = fav_bytes_of FAV_VERSION (r_kind r) r.
Proof. intros H. unfold fav_bytes, fav_bytes_of, u8. rewrite Z.mod_small; [done|]. pose proof (wf_kind _ H). unfold FAV_KIND_ELF in *. lia. Qed.

Lemma read_while_all {A} read (enc : A -> bytes) (dec : A -> fav_raw_t) l s : Forall (fun x => forall s, read (enc x ++ s) = Some (dec x, s)) l -> read_while read (length l) (concat (map enc l) ++ s) = map dec l.
Proof. induction 1 as [|x l Hx Hl IH]; [done|]. cbn [length read_while map concat]. rewrite <- app_assoc, Hx. by rewrite IH. Qed.

Lemma header_app ver cnt s : 0 <= ver < 65536 -> 0 <= cnt < 65536 -> read_header (le_bytes 4 FAV_MAGIC ++ le_bytes 2 ver ++ le_bytes 2 cnt ++ s) = Some (FAV_MAGIC, ver, cnt, s).
Proof. intros Hv Hc. unfold read_header. rewrite rdU32_app by (unfold FAV_MAGIC; lia). cbn [mbind option_bind]. rewrite rdU16_app by done. cbn [mbind option_bind]. by rewrite rdU16_app. Qed.

Lemma parse_versions {A} ver (enc : A -> bytes) (dec : A -> fav_raw_t) l : 1 <= ver <= FAV_VERSION -> (length l <= FAV_MAX_ITEMS)%nat -> Forall (fun x => forall s, read_fav ver (enc x ++ s) = Some (dec x, s)) l ->
  parse_favs (le_bytes 4 FAV_MAGIC ++ le_bytes 2 ver ++ le_bytes 2 (Z.of_nat (length l)) ++ concat (map enc l)) = some_records (map dec l).
Proof.
  intros Hv Hl Hr. unfold FAV_MAX_ITEMS, FAV_VERSION in *. unfold parse_favs. rewrite header_app by lia. rewrite Z.eqb_refl. cbn [negb]. rewrite (proj2 (Z.ltb_ge ver 1)) by lia. unfold FAV_VERSION. rewrite (proj2 (Z.ltb_ge 3 ver)) by lia. cbn [orb].
  destruct (Z.eqb_spec (Z.of_nat (length l)) 0) as [E|E]; [by destruct l|]. rewrite Nat2Z.id. unfold FAV_MAX_ITEMS. rewrite Nat.min_l by done. rewrite <- (app_nil_r (concat _)). by rewrite (read_while_all _ enc dec).
Qed.

Lemma parse_image recs : Forall fav_wf recs -> (length recs <= FAV_MAX_ITEMS)%nat -> parse_favs (fav_image recs) = some_records recs.
Proof.
  intros Hw Hl. unfold fav_image. rewrite take_ge by done. rewrite u16_id by (unfold FAV_MAX_ITEMS in *; lia). change (le_bytes 2 FAV_VERSION) with (le_bytes 2 3). rewrite (parse_versions 3 fav_bytes id); [by rewrite map_id|by unfold FAV_VERSION|done|].
  apply (Forall_impl _ _ _ Hw). intros r Hr s. rewrite (fav_bytes_now _ Hr). unfold FAV_VERSION. rewrite read_fav_bytes; [|done|lia|pose proof (wf_kind _ Hr); unfold FAV_KIND_ELF in *; lia]. unfold id. do 2 f_equal. destruct r. f_equal. cbn. pose proof (wf_kind _ Hr) as Hk. cbn in Hk. unfold kind_of. cbn [Z.leb Z.compare]. rewrite (proj2 (Z.leb_le r_kind0 FAV_KIND_ELF)) by lia. done.
Qed.

(** *** What any file gives *)

(** what a record can hold, whatever was in the file *)
Record fav_safe (r : fav_raw_t) : Prop := { safe_len : (length (r_text r) < 256)%nat; safe_text : 0 ∉ r_text r; safe_kind : 0 <= r_kind r <= FAV_KIND_ELF }.

Lemma cstr_safe b : 0 ∉ cstr b.
Proof. induction b as [|c b IH]; [apply not_elem_of_nil|]. cbn [cstr]. destruct (Z.eqb_spec c 0); [apply not_elem_of_nil|]. rewrite elem_of_cons. intros [E|E]; [congruence|done]. Qed.
Lemma cstr_len b : (length (cstr b) <= length b)%nat.
Proof. induction b as [|c b IH]; [done|]. cbn [cstr]. destruct (c =? 0); cbn [length]; lia. Qed.
Lemma text_field_safe b : (0 < length b <= 256)%nat -> (length (text_field b) < 256)%nat /\ 0 ∉ text_field b.
Proof. intros H. unfold text_field. split; [|apply cstr_safe]. pose proof (cstr_len (take (length b - 1) b)) as Hc. rewrite length_take in Hc. lia. Qed.
Lemma rdBytes_length n s a r : rdBytes n s = Some (a, r) -> length a = n /\ s = a ++ r.
Proof. unfold rdBytes. destruct (Nat.leb_spec n (length s)); [|done]. intros [= <- <-]. split; [rewrite length_take; lia|by rewrite take_drop]. Qed.
Lemma kind_of_safe ver b mode : 0 <= b -> 0 <= kind_of ver b mode <= FAV_KIND_ELF.
Proof. intros Hb. unfold kind_of, FAV_KIND_ELF, FAV_KIND_ISO, FAV_KIND_VCD. destruct (3 <=? ver); [destruct (Z.leb_spec b 3); lia|]. destruct (negb _); [lia|]. destruct (mode =? APP_MODE); lia. Qed.

#[local] Notation octets := (Forall (fun b => 0 <= b < 256)).

Lemma rdBytes_octets n s a r : octets s -> rdBytes n s = Some (a, r) -> octets a /\ octets r /\ length a = n.
Proof. intros Hs H. destruct (rdBytes_length _ _ _ _ H) as [Hl ->]. apply Forall_app in Hs as [H1 H2]. done. Qed.
Lemma rdU16_octets s z r : octets s -> rdU16 s = Some (z, r) -> octets r.
Proof. intros Hs H. unfold rdU16 in H. destruct (rdBytes 2 s) as [[a r']|] eqn:E; [|done]. cbn [mbind option_bind] in H. injection H as _ <-. by destruct (rdBytes_octets _ _ _ _ Hs E) as (_ & ? & _). Qed.
Lemma rdU32_octets s z r : octets s -> rdU32 s = Some (z, r) -> octets r.
Proof. intros Hs H. unfold rdU32 in H. destruct (rdBytes 4 s) as [[a r']|] eqn:E; [|done]. cbn [mbind option_bind] in H. injection H as _ <-. by destruct (rdBytes_octets _ _ _ _ Hs E) as (_ & ? & _). Qed.

Lemma tlen_ok tlen : (tlen =? 0) || (FAV_TEXT_MAX <? tlen) = false -> 0 <= tlen -> (0 < Z.to_nat tlen <= 256)%nat.
Proof. intros H H0. apply orb_false_iff in H as [H1%Z.eqb_neq H2%Z.ltb_ge]. unfold FAV_TEXT_MAX in H2. lia. Qed.

Lemma le_val_nonneg b : octets b -> 0 <= le_val b.
Proof. induction 1 as [|c b Hc Hb IH]; cbn [le_val]; lia. Qed.
Lemma rdU16_nonneg s z r : octets s -> rdU16 s = Some (z, r) -> 0 <= z.
Proof. intros Hs H. unfold rdU16 in H. destruct (rdBytes 2 s) as [[a r']|] eqn:E; [|done]. cbn [mbind option_bind] in H. injection H as <- _. apply le_val_nonneg. by destruct (rdBytes_octets _ _ _ _ Hs E). Qed.
Lemma rdU32_nonneg s z r : octets s -> rdU32 s = Some (z, r) -> 0 <= z.
Proof. intros Hs H. unfold rdU32 in H. destruct (rdBytes 4 s) as [[a r']|] eqn:E; [|done]. cbn [mbind option_bind] in H. injection H as <- _. apply le_val_nonneg. by destruct (rdBytes_octets _ _ _ _ Hs E). Qed.

(** one step of a reader, in a hypothesis *)
Ltac rd_step H :=
  match type of H with
  | (mbind _ ?m) = Some _ => let E := fresh "E" in destruct m as [[? ?]|] eqn:E; [cbn [mbind option_bind] in H|discriminate H]
  | (if ?b then None else _) = Some _ => let E := fresh "E" in destruct b eqn:E; [discriminate H|]
  end.

Lemma read_fav_safe ver s r s' : octets s -> read_fav ver s = Some (r, s') -> fav_safe r /\ octets s'.
Proof.
  intros H0 H. unfold read_fav in H. rd_step H. pose proof (rdU16_octets _ _ _ H0 E) as H1. rd_step H. pose proof (rdU32_octets _ _ _ H1 E0) as H2. rd_step H. pose proof (rdU32_octets _ _ _ H2 E1) as H3. rd_step H. pose proof (rdU32_octets _ _ _ H3 E2) as H4.
  rd_step H. assert (H5 : octets l3 /\ 0 <= z3).
  { destruct (2 <=? ver); [|by injection E3 as <- <-]. destruct (rdBytes 1 l2) as [[a x]|] eqn:E4; [|done]. cbn [mbind option_bind] in E3. injection E3 as <- <-. destruct (rdBytes_octets _ _ _ _ H4 E4) as (Ha & Hx & _). split; [done|]. destruct Ha as [|c a Hc Ha]; cbn; lia. }
  destruct H5 as [H5 Hk]. rd_step H. pose proof (rdU16_octets _ _ _ H5 E4) as H6. pose proof (rdU16_nonneg _ _ _ H5 E4) as Ht. rd_step H. rd_step H. destruct (rdBytes_octets _ _ _ _ H6 E6) as (_ & H7 & Hl). injection H as <- <-. split; [|done].
  destruct (text_field_safe l5) as [Hs1 Hs2]; [rewrite Hl; by apply tlen_ok|]. split; [done|done|by apply kind_of_safe].
Qed.

Lemma read_wopl_safe s r s' : octets s -> read_wopl s = Some (r, s') -> fav_safe r /\ octets s'.
Proof.
  intros H0 H. unfold read_wopl in H. rd_step H. destruct (rdBytes_octets _ _ _ _ H0 E) as (_ & H1 & _). rd_step H. pose proof (rdU32_octets _ _ _ H1 E0) as H2. pose proof (rdU32_nonneg _ _ _ H1 E0) as Ht. rd_step H. rd_step H. destruct (rdBytes_octets _ _ _ _ H2 E2) as (_ & H3 & Hl).
  rd_step H. pose proof (rdU16_octets _ _ _ H3 E3) as H4. injection H as <- <-. split; [|done]. destruct (text_field_safe l2) as [Hs1 Hs2]; [rewrite Hl; by apply tlen_ok|]. split; [done|done|unfold FAV_KIND_ISO, FAV_KIND_ELF; cbn; lia].
Qed.

Lemma read_while_safe read n : (forall s r s', octets s -> read s = Some (r, s') -> fav_safe r /\ octets s') -> forall s, octets s -> Forall fav_safe (read_while read n s) /\ (length (read_while read n s) <= n)%nat.
Proof.
  intros Hr. induction n as [|n IH]; intros s Hs; [by split|]. cbn [read_while]. destruct (read s) as [[r s']|] eqn:E; [|split; [constructor|cbn; lia]]. destruct (Hr _ _ _ Hs E) as [H1 H2]. destruct (IH _ H2). split; [by constructor|cbn [length]; lia].
Qed.

(** C33. Whatever bytes the file holds, what is read of it is between one and 512 records, each
    with a text that fits its buffer and ends there, and with a kind that is one. *)
Theorem any_file_is_safe s recs : Forall (fun b => 0 <= b < 256) s -> parse_favs s = Some recs -> (1 <= length recs <= FAV_MAX_ITEMS)%nat /\ Forall fav_safe recs.
Proof.
  intros Hs H. assert (Hl : forall l, some_records l = Some recs -> l = recs /\ (1 <= length l)%nat) by (intros [|r l] E; [done|]; injection E as <-; split; [done|cbn; lia]).
  assert (Hw : forall s, octets s -> favReadWoplFile s = Some recs -> (1 <= length recs <= FAV_MAX_ITEMS)%nat /\ Forall fav_safe recs).
  { intros s1 H1 E. apply Hl in E as [<- Hn]. destruct (read_while_safe read_wopl FAV_MAX_ITEMS read_wopl_safe s1 H1). done. }
  unfold parse_favs in H. destruct (read_header s) as [[[[magic ver] cnt] rest]|] eqn:Eh; [|by apply (Hw s)]. destruct (negb (magic =? FAV_MAGIC)); [by apply (Hw s)|]. destruct (_ || _); [done|]. destruct (cnt =? 0); [done|].
  assert (Hrest : octets rest).
  { unfold read_header in Eh. rd_step Eh. pose proof (rdU32_octets _ _ _ Hs E) as H1. rd_step Eh. pose proof (rdU16_octets _ _ _ H1 E0) as H2. rd_step Eh. pose proof (rdU16_octets _ _ _ H2 E1) as H3. by injection Eh as _ _ _ <-. }
  apply Hl in H as [<- Hn]. destruct (read_while_safe (read_fav ver) (Nat.min (Z.to_nat cnt) FAV_MAX_ITEMS) (read_fav_safe ver) rest Hrest). split; [lia|done].
Qed.

(** ** The set the store stands for *)

Definition same_fav (a b : fav_raw_t) : bool := favModesMatch (r_mode a) (r_mode b) && favIdsMatchForMode (r_mode b) (r_id a) (r_id b) && (r_kind a =? r_kind b) && streq (r_text a) (r_text b).

Lemma modes_match a b : favModesMatch a b = true <-> (is_bdm a = true /\ is_bdm b = true) \/ a = b.
Proof. unfold favModesMatch. destruct (is_bdm a), (is_bdm b); cbn [andb]; rewrite ?Z.eqb_eq; intuition congruence. Qed.

Lemma same_fav_spec a b : same_fav a b = true <-> ((is_bdm (r_mode a) = true /\ is_bdm (r_mode b) = true) \/ r_mode a = r_mode b) /\ (r_mode b = APP_MODE \/ r_id a = r_id b) /\ r_kind a = r_kind b /\ r_text a = r_text b.
Proof. unfold same_fav, favIdsMatchForMode, streq. rewrite !andb_true_iff, orb_true_iff, modes_match, !Z.eqb_eq, bool_decide_eq_true. tauto. Qed.

#[export] Instance same_fav_equiv : Equivalence (fun a b => same_fav a b = true).
Proof.
  assert (Happ : forall m, is_bdm m = true -> m <> APP_MODE) by (intros m H ->; discriminate). split.
  - intros a. apply same_fav_spec. tauto.
  - intros a b. rewrite !same_fav_spec. intros (H1 & H2 & H3 & H4). split; [intuition congruence|]. split; [|by split]. destruct H2 as [H2|H2]; [|by right]. destruct H1 as [[_ H1]|H1]; [by apply Happ in H1|left; congruence].
  - intros a b c. rewrite !same_fav_spec. intros (H1 & H2 & H3 & H4) (K1 & K2 & K3 & K4). split; [intuition congruence|]. split; [|split; congruence]. destruct K2 as [K2|K2]; [by left|]. destruct H2 as [H2|H2]; [|right; congruence].
    left. destruct K1 as [[K1 _]|K1]; [by apply Happ in K1|congruence].
Qed.

Lemma same_sym {a b} : same_fav a b = true -> same_fav b a = true.
Proof. apply (symmetry (R := fun a b => same_fav a b = true)). Qed.
Lemma same_trans {a b c} : same_fav a b = true -> same_fav b c = true -> same_fav a c = true.
Proof. apply (transitivity (R := fun a b => same_fav a b = true)). Qed.

Lemma same_fav_sym a b : same_fav a b = same_fav b a.
Proof. destruct (same_fav a b) eqn:E, (same_fav b a) eqn:F; try done; [by rewrite (same_sym E) in F|by rewrite (same_sym F) in E]. Qed.

(** a favourite is in a list of records *)
Definition listed (l : list fav_raw_t) (x : fav_raw_t) : bool := existsb (fun r => same_fav r x) l.
(** no favourite is in it twice *)
Definition once (l : list fav_raw_t) : Prop := forall i j a b, l !! i = Some a -> l !! j = Some b -> same_fav a b = true -> i = j.

Lemma listed_same l x y : same_fav x y = true -> listed l x = listed l y.
Proof. intros H. unfold listed. induction l as [|r l IH]; [done|]. cbn [existsb]. rewrite IH. f_equal. destruct (same_fav r x) eqn:E, (same_fav r y) eqn:F; try done; [by rewrite (same_trans E H) in F|by rewrite (same_trans F (same_sym H)) in E]. Qed.
Lemma listed_app l1 l2 x : listed (l1 ++ l2) x = listed l1 x || listed l2 x.
Proof. apply existsb_app. Qed.
Lemma listed_elem l x : listed l x = true <-> exists r, r ∈ l /\ same_fav r x = true.
Proof. unfold listed. rewrite existsb_exists. split; intros (r & H1 & H2); exists r; (split; [by apply list_elem_of_In|done]). Qed.

Lemma once_snoc l x : once l -> listed l x = false -> once (l ++ [x]).
Proof.
  intros Ho Hx i j a b Hi Hj Hs. assert (Hno : forall k r, l !! k = Some r -> same_fav r x = true -> False).
  { intros k r Hk Hr. enough (listed l x = true) by congruence. apply listed_elem. exists r. split; [by apply list_elem_of_lookup_2 in Hk|done]. }
  apply lookup_app_Some in Hi as [Hi|[Hi1 Hi]]; apply lookup_app_Some in Hj as [Hj|[Hj1 Hj]].
  - by apply (Ho i j a b).
  - apply list_lookup_singleton_Some in Hj as [_ <-]. by destruct (Hno _ _ Hi Hs).
  - apply list_lookup_singleton_Some in Hi as [_ <-]. destruct (Hno _ _ Hj). by apply (same_sym Hs).
  - apply list_lookup_singleton_Some in Hi as [Hi _]. apply list_lookup_singleton_Some in Hj as [Hj _]. lia.
Qed.

(** what removal keeps *)
Definition without (l : list fav_raw_t) (x : fav_raw_t) : list fav_raw_t := base.filter (fun r => negb (same_fav r x) = true) l.

Lemma once_sub l1 a l2 : once (l1 ++ a :: l2) -> once (l1 ++ l2).
Proof.
  intros Ho i j x y Hi Hj Hs. pose (f := fun k => if (k <? length l1)%nat then k else S k). assert (Hf : forall k z, (l1 ++ l2) !! k = Some z -> (l1 ++ a :: l2) !! f k = Some z).
  { intros k z Hk. unfold f. destruct (Nat.ltb_spec k (length l1)); [rewrite lookup_app_l in Hk |- * by done; done|]. rewrite lookup_app_r in Hk by lia. rewrite lookup_app_r by lia. replace (S k - length l1)%nat with (S (k - length l1)) by lia. done. }
  pose proof (Ho _ _ _ _ (Hf _ _ Hi) (Hf _ _ Hj) Hs) as E. unfold f in E. destruct (Nat.ltb_spec i (length l1)), (Nat.ltb_spec j (length l1)); lia.
Qed.
Lemma once_filter P `{!forall x, Decision (P x)} l2 : forall l1, once (l1 ++ l2) -> once (l1 ++ base.filter P l2).
Proof.
  induction l2 as [|a l2 IH]; intros l1 Ho; [done|]. rewrite filter_cons. case_decide.
  - change (l1 ++ a :: base.filter P l2) with (l1 ++ [a] ++ base.filter P l2). rewrite app_assoc. apply IH. by rewrite <- app_assoc.
  - apply IH. by eapply once_sub.
Qed.
Lemma once_without l x : once l -> once (without l x).
Proof. apply (once_filter _ l []). Qed.

Lemma listed_without l x y : listed (without l x) y = listed l y && negb (same_fav x y).
Proof.
  unfold without. induction l as [|r l IH]; [done|]. rewrite filter_cons. case_decide as H.
  - cbn [listed existsb]. fold (listed (base.filter (fun r => negb (same_fav r x) = true) l) y). rewrite IH. unfold listed. cbn [existsb]. destruct (same_fav r y) eqn:E; [|done]. cbn [orb andb]. destruct (same_fav x y) eqn:F; [|done].
    apply negb_true_iff in H. by rewrite (same_trans E (same_sym F)) in H.
  - rewrite IH. unfold listed. cbn [existsb]. destruct (same_fav r x) eqn:E; [|by cbn in H]. destruct (same_fav r y) eqn:F; [|done]. by rewrite (same_trans (same_sym E) F), !andb_false_r.
Qed.

Section Props.
Context {W : Type} `{!FavFS W} (cfg : option bytes).
Implicit Types w : W.

(** a medium with room *)
Record fav_laws : Prop := {
  law_create : forall w p, exists w', ff_create w p = Some w';
  law_write : forall w p b w1, ff_create w p = Some w1 -> exists w2, ff_write w1 p b = (Z.of_nat (length b), w2) /\ ff_read w2 p = Some b;
}.
Hypothesis laws : fav_laws.

(** the favourites the file holds *)
Definition favourites w : list fav_raw_t := default [] (favReadFile cfg w).

Lemma default_some l : default [] (some_records l) = l.
Proof using. by destruct l. Qed.

Lemma write_reads w recs : Forall fav_wf recs -> (length recs <= FAV_MAX_ITEMS)%nat -> exists w', favWriteFile cfg w recs = (1, w') /\ favReadFile cfg w' = some_records recs.
Proof.
  intros Hw Hl. destruct (law_create laws w (favGetFilePath cfg 256)) as [w1 E1]. destruct (law_write laws w _ (fav_image recs) w1 E1) as (w2 & E2 & E3). exists w2. unfold favWriteFile. rewrite E1, E2, Z.eqb_refl. split; [done|]. unfold favReadFile. rewrite E3. cbn [mbind option_bind]. by apply parse_image.
Qed.

(** an operation on the favourite [x]: added with its icon and label, or removed *)
Inductive fav_op := Add (x : fav_raw_t) | Remove (x : fav_raw_t).
Definition op_fav (o : fav_op) : fav_raw_t := match o with Add x | Remove x => x end.
Definition fav_apply w (o : fav_op) : W :=
  match o with
  | Add x => (addFavouriteItem cfg w (r_mode x) (r_id x) (r_icon x) (r_text_id x) (Some (r_text x)) (r_kind x)).2
  | Remove x => (removeFavouriteByIdAndText cfg w (r_mode x) (r_id x) (Some (r_text x)) (r_kind x)).2
  end.
(** what the operations leave of a favourite *)
Definition member (b : bool) (ops : list fav_op) (x : fav_raw_t) : bool :=
  foldl (fun b o => match o with Add y => b || same_fav y x | Remove y => b && negb (same_fav y x) end) b ops.

Lemma add_spec w x : fav_wf x -> r_text x <> [] -> Forall fav_wf (favourites w) -> (length (favourites w) < FAV_MAX_ITEMS)%nat ->
  favourites (fav_apply w (Add x)) = if listed (favourites w) x then favourites w else favourites w ++ [x].
Proof.
  intros Hx Ht Hw Hl. cbn [fav_apply]. unfold addFavouriteItem. destruct (r_text x) as [|c t] eqn:Etx; [done|]. fold (favourites w).
  replace (existsb _ (favourites w)) with (listed (favourites w) x) by (unfold listed, same_fav; by rewrite Etx). destruct (listed (favourites w) x) eqn:E; [done|]. rewrite (proj2 (Nat.ltb_ge _ _)) by lia.
  rewrite <- Etx. replace {| r_mode := r_mode x; r_id := _; r_icon := _; r_text_id := _; r_kind := _; r_text := bufcpy (Z.to_nat FAV_TEXT_MAX) (r_text x) |} with x.
  - destruct (write_reads w (favourites w ++ [x])) as (w' & -> & Hr); [apply Forall_app; split; [done|by constructor]|rewrite length_app; cbn; lia|]. cbn [snd]. unfold favourites at 1. rewrite Hr. apply default_some.
  - destruct x as [a b c' d e f]. cbn. f_equal. unfold bufcpy, FAV_TEXT_MAX. pose proof (wf_len _ Hx) as Hn. cbn in Hn. symmetry. apply take_ge. lia.
Qed.

Lemma remove_spec w x : Forall fav_wf (favourites w) -> (length (favourites w) <= FAV_MAX_ITEMS)%nat -> favourites (fav_apply w (Remove x)) = without (favourites w) x.
Proof.
  intros Hw Hl. cbn [fav_apply]. unfold removeFavouriteByIdAndText. destruct (favReadFile cfg w) as [recs|] eqn:E; [|cbn [snd]; unfold favourites; by rewrite E]. assert (Ef : favourites w = recs) by (unfold favourites; by rewrite E). rewrite Ef in *.
  replace (base.filter _ recs) with (without recs x).
  - destruct (write_reads w (without recs x)) as (w' & -> & Hr); [by apply Forall_filter|etransitivity; [apply length_filter|done]|]. cbn [snd]. unfold favourites. rewrite Hr. apply default_some.
  - unfold without. apply list_filter_iff. intros r. unfold same_fav, streq. replace (bool_decide (Some (r_text x) = Some (r_text r))) with (bool_decide (r_text r = r_text x)) by (apply bool_decide_ext; split; congruence).
    destruct (favModesMatch (r_mode r) (r_mode x)), (favIdsMatchForMode (r_mode x) (r_id r) (r_id x)), (r_kind r =? r_kind x), (bool_decide (r_text r = r_text x)); done.
Qed.

End Props.

(** A file of any of the three versions reads as the records that were written: with the
    kind as stored in the third, and in the older ones a title of PlayStation 1 where the
    record says so, an application where it is of the APPS page, and a game otherwise. *)
Theorem versions_read ver (recs : list (fav_raw_t * Z)) : 1 <= ver <= FAV_VERSION -> (1 <= length recs <= FAV_MAX_ITEMS)%nat -> Forall (fun p => fav_wf p.1 /\ 0 <= p.2 < 256) recs ->
  parse_favs (le_bytes 4 FAV_MAGIC ++ le_bytes 2 ver ++ le_bytes 2 (Z.of_nat (length recs)) ++ concat (map (fun p => fav_bytes_of ver p.2 p.1) recs)) =
  Some (map (fun p => {| r_mode := r_mode p.1; r_id := r_id p.1; r_icon := r_icon p.1; r_text_id := r_text_id p.1; r_kind := kind_of ver (if 2 <=? ver then p.2 else 0) (r_mode p.1); r_text := r_text p.1 |}) recs).
Proof.
  intros Hv Hl Hw. rewrite (parse_versions ver _ (fun p => {| r_mode := r_mode p.1; r_id := r_id p.1; r_icon := r_icon p.1; r_text_id := r_text_id p.1; r_kind := kind_of ver (if 2 <=? ver then p.2 else 0) (r_mode p.1); r_text := r_text p.1 |})); [by destruct recs; [cbn in Hl; lia|]|done|lia|].
  apply (Forall_impl _ _ _ Hw). intros [r b] [Hr Hb] s. apply read_fav_bytes; [done|lia|done].
Qed.

(** ** The theorems on a concrete file *)

#[local] Instance fav_file : FavFS (option bytes) := {| ff_read w _ := w; ff_create _ _ := Some (Some []); ff_write _ _ b := (Z.of_nat (length b), Some b) |}.

Lemma fav_file_laws : fav_laws (W := option bytes).
Proof. split; [by eauto|]. intros w p b w1 _. by eexists. Qed.

Definition game (mode id : Z) (text : bytes) : fav_raw_t := {| r_mode := mode; r_id := id; r_icon := 3; r_text_id := -1; r_kind := FAV_KIND_ISO; r_text := text |}.

Lemma game_wf mode id text : 0 <= mode < 65536 -> - 2 ^ 31 <= id < 2 ^ 31 -> forallb (fun c => (0 <? c) && (c <? 256)) text = true -> (length text < 256)%nat -> fav_wf (game mode id text).
Proof.
  intros H1 H2 H3 H4. split; cbn; [lia|lia|lia|lia|unfold FAV_KIND_ISO, FAV_KIND_ELF; lia| |lia]. unfold cstring. rewrite forallb_forall in H3. apply Forall_forall. intros c Hc. apply list_elem_of_In in Hc. apply H3 in Hc. b2p. lia.
Qed.


Lemma any_file_is_safe_witness : exists recs, parse_favs (fav_image [game 0 7 (bs "Ico"); game 8 2 (bs "Rez")]) = Some recs /\ Forall fav_safe recs /\ length recs = 2%nat.
Proof.
  exists [game 0 7 (bs "Ico"); game 8 2 (bs "Rez")]. assert (E : parse_favs (fav_image [game 0 7 (bs "Ico"); game 8 2 (bs "Rez")]) = Some [game 0 7 (bs "Ico"); game 8 2 (bs "Rez")]) by (vm_compute; reflexivity).
  split; [exact E|]. split; [|reflexivity]. apply (any_file_is_safe (fav_image [game 0 7 (bs "Ico"); game 8 2 (bs "Rez")])); [|exact E]. apply (bool_decide_eq_true_1 _). vm_compute. reflexivity.
Defined.

Lemma versions_read_witness : parse_favs (le_bytes 4 FAV_MAGIC ++ le_bytes 2 2 ++ le_bytes 2 2 ++ concat (map (fun p => fav_bytes_of 2 p.2 p.1) [(game 10 4 (bs "Tool"), 0); (game 0 1 (bs "Spyro"), 1)])) =
  Some [{| r_mode := 10; r_id := 4; r_icon := 3; r_text_id := -1; r_kind := FAV_KIND_ELF; r_text := bs "Tool" |}; {| r_mode := 0; r_id := 1; r_icon := 3; r_text_id := -1; r_kind := FAV_KIND_VCD; r_text := bs "Spyro" |}].
Proof.
  apply (versions_read 2 [(game 10 4 (bs "Tool"), 0); (game 0 1 (bs "Spyro"), 1)]); [unfold FAV_VERSION; lia|cbn; unfold FAV_MAX_ITEMS; lia|].
  repeat (apply Forall_cons_2; [split; [apply game_wf; [lia|lia|reflexivity|cbn; lia]|cbn; lia]|]). constructor.
Defined.

(** ** What the code does not hold *)

(** a file whose reads fall short after the first record: the favourites behind it are lost
    when one is added *)
#[local] Definition short_reads : FavFS bytes := {| ff_read w _ := Some (take 40 w); ff_create _ _ := Some []; ff_write _ _ b := (Z.of_nat (length b), b) |}.
Example short_read_loses :
  let w := fav_image [game 0 7 (bs "Ico"); game 8 2 (bs "Rez")] in
  let '(r, w') := @addFavouriteItem _ short_reads None w 9 1 3 (-1) (Some (bs "Okami")) FAV_KIND_ISO in
  r = 1 /\ parse_favs w' = Some [game 0 7 (bs "Ico"); game 9 1 (bs "Okami")].
Proof. vm_compute. done. Qed.

(** a file of a later version reads as empty and is overwritten *)
Example later_version_overwritten :
  let w := Some (le_bytes 4 FAV_MAGIC ++ le_bytes 2 4 ++ le_bytes 2 1 ++ fav_bytes (game 0 7 (bs "Ico"))) in
  let '(r, w') := addFavouriteItem None w 9 1 3 (-1) (Some (bs "Okami")) FAV_KIND_ISO in
  r = 1 /\ favourites None w' = [game 9 1 (bs "Okami")].
Proof. vm_compute. done. Qed.
