(* ===== verification/FavList.v ===== *)
(** * FavList: the favourites page (src/favsupport.c, src/libview.c, src/ethsupport.c)

    Every record of the store is resolved to the list of a loaded device; the page shows those
    that resolve and belong on its shelf, and each of its calls is handed to the list the row
    came from. The lists of the devices are records of operations, as [item_list_t] is. *)
From S2P Require Import Prelude CLib ConfigStore LibView Ps1Names FavStore.
From S2P Require VcdCard.

Definition ITEM_VIEW_NATIVE : Z := 0.
Definition ITEM_VIEW_FORCE_ISO : Z := 1.
Definition ITEM_VIEW_FORCE_PS1 : Z := 2.

(** ** The lists of the devices *)

(** [item_list_t]: what favourites use of it; the count, name and startup of an item under the
    view override, the optional hooks *)
Record support := {
  sp_mode : Z; sp_enabled : bool; sp_flags : Z;
  sp_device : option Z;                          (** [priv] with the type of the device *)
  sp_count : option (Z -> Z); sp_name : option (Z -> Z -> option bytes); sp_startup : option (Z -> Z -> option bytes);
  sp_launch : bool; sp_launchVcd : bool; sp_launchCue : bool;
  sp_view : option (Z -> Z); sp_source : option (Z -> Z);
}.

(** a row of a page *)
Record row := { row_id : Z; row_text : option bytes; row_starred : bool }.
(** [opl_io_module_t] *)
Record opl_module := { m_support : option support; m_rows : list row; m_current : option Z }.

(** the lists of the network share *)
Record eth_lists := { gPCShareName : bytes; gNetworkStartup : Z; ethGames : list bytes }.

Record fav_rec_t := { f_owner : Z; f_mode : Z; f_id : Z; f_icon : Z; f_text_id : Z; f_kind : Z; f_text : bytes }.

(** the modules, the views, the page; [s_queue] is the modes whose update was asked for *)
Record fav_state := {
  s_mods : list opl_module; s_views : libview; s_eth : eth_lists;
  favArray : list fav_rec_t; favForceUpdate : bool; favAppsArmed : bool; s_queue : list Z;
}.

(** ** Views of a row (src/libview.c) *)

Definition libListViewActive (s : libview) (sp : option support) (override : Z) : Z * libview :=
  match sp with
  | None => (LIB_VIEW_ISO, s)
  | Some sp => if override =? ITEM_VIEW_FORCE_ISO then (LIB_VIEW_ISO, s) else if override =? ITEM_VIEW_FORCE_PS1 then (LIB_VIEW_PS1, s) else libViewActive s (sp_mode sp)
  end.
Definition libListRowView (s : libview) (sp : option support) (id : Z) : Z * libview :=
  match sp with
  | None => (LIB_VIEW_ISO, s)
  | Some sp' =>
    let view := match sp_view sp' with Some f => f id | None => -1 end in
    if (0 <=? view) && (view <? LIB_VIEW_COUNT) then (view, s) else libListViewActive s sp ITEM_VIEW_NATIVE
  end.
Definition libListSourceId (sp : support) (id : Z) : Z := match sp_source sp with Some f => f id | None => id end.

(** ** Resolving a record *)

Definition oplGetModule (mods : list opl_module) (mode : Z) : option opl_module := mods !! Z.to_nat mode.
Definition loaded (mods : list opl_module) (mode : Z) : option support := m ← oplGetModule mods mode; m_support m.

Definition favKindView (kind : Z) : Z :=
  if (kind =? FAV_KIND_VCD) || (kind =? FAV_KIND_CUE) then LIB_VIEW_PS1 else if kind =? FAV_KIND_ELF then LIB_VIEW_ELF else LIB_VIEW_ISO.
Definition favKindIsNameAddressed (kind : Z) : bool := (kind =? FAV_KIND_VCD) || (kind =? FAV_KIND_CUE).

(** the row of a page that shows an item, by its place *)
Fixpoint find_row (s : libview) (sp : support) (rows : list row) (k : nat) (sourceId : Z) (text : bytes) (wantedView : Z) : option nat * libview :=
  match rows with
  | [] => (None, s)
  | cur :: rows =>
    let '(rowView, s) := libListRowView s (Some sp) (row_id cur) in
    let viewMatches := if wantedView =? LIB_VIEW_ELF then (rowView =? LIB_VIEW_ELF) || (rowView =? LIB_VIEW_PS1_ELF) else rowView =? wantedView in
    if negb viewMatches || negb (bool_decide (row_text cur = Some text)) then find_row s sp rows (S k) sourceId text wantedView
    else if (sp_mode sp =? APP_MODE) || (wantedView =? LIB_VIEW_PS1) || (libListSourceId sp (row_id cur) =? sourceId) then (Some k, s)
    else find_row s sp rows (S k) sourceId text wantedView
  end.
Definition favFindVisibleSource (s : libview) (m : opl_module) (sourceId : Z) (text : bytes) (wantedView : Z) : option nat * libview :=
  match m_support m with None => (None, s) | Some sp => find_row s sp (m_rows m) 0 sourceId text wantedView end.

(** the star of a row set or taken *)
Definition star (on : bool) (m : opl_module) (k : nat) : opl_module :=
  {| m_support := m_support m; m_rows := alter (fun r => {| row_id := row_id r; row_text := row_text r; row_starred := on |}) k (m_rows m); m_current := m_current m |}.
(** the star on the row that is found, in module [mode] *)
Definition mark_star (on : bool) (mods : list opl_module) (s : libview) (mode id : Z) (text : bytes) (wantedView : Z) : list opl_module * libview :=
  match oplGetModule mods mode with
  | None => (mods, s)
  | Some m => let '(k, s) := favFindVisibleSource s m id text wantedView in
    match k with None => (mods, s) | Some k => (<[Z.to_nat mode := star on m k]> mods, s) end
  end.
Definition favVcdMarkStar (mods : list opl_module) (s : libview) (mode id : Z) (text : bytes) : list opl_module * libview := mark_star true mods s mode id text LIB_VIEW_PS1.

(** src/ethsupport.c *)
Definition ethResolveIsoFavourite (e : eth_lists) (id : Z) (name : bytes) : option Z :=
  if (id <? 0) || bool_decide (gPCShareName e = []) || negb (gNetworkStartup e =? 0) then None
  else if bool_decide (ethGames e !! Z.to_nat id = Some name) then Some id else None.

(** the first item of a list of [n] with the name *)
Fixpoint first_named (name_of : Z -> option bytes) (text : bytes) (n : nat) (i : Z) : option Z :=
  match n with
  | O => None
  | S n => if bool_decide (name_of i = Some text) then Some i else first_named name_of text n (i + 1)
  end.

Definition favResolveStoredId (e : eth_lists) (source : support) (id : Z) (text : bytes) (kind : Z) : option Z :=
  match sp_count source, sp_name source with
  | Some count, Some name =>
    if (sp_mode source =? ETH_MODE) && (kind =? FAV_KIND_ISO) then ethResolveIsoFavourite e id text
    else
      let view := if favKindIsNameAddressed kind then ITEM_VIEW_FORCE_PS1 else ITEM_VIEW_FORCE_ISO in
      if sp_mode source =? APP_MODE then first_named (name view) text (Z.to_nat (count view)) 0
      else if (id <? 0) || (count view <=? id) then None
      else if bool_decide (name view id = Some text) then Some id else None
  | _, _ => None
  end.

(** src/bdmsupport.c *)
Definition bdmSupportIsUDPBD (sp : support) : bool :=
  match sp_device sp with None => false | Some type => is_bdm (sp_mode sp) && (type =? VcdCard.BDM_TYPE_UDPBD) end.

Definition favSupportLaunches (sp : option support) (needCue : bool) : bool :=
  match sp with None => false | Some sp => if negb needCue && bdmSupportIsUDPBD sp then false else if needCue then sp_launchCue sp else sp_launchVcd sp end.

Definition bdm_modes : list Z := map Z.of_nat (seq (Z.to_nat BDM_MODE) (Z.to_nat (BDM_MODE_LAST - BDM_MODE + 1))).

(** the device a record resolves to and its id there: a title of PlayStation 1 to a device that
    launches its core, its own first; another one to the device that has it, for mass storage
    in any slot *)
Definition fav_target (mods : list opl_module) (e : eth_lists) (mode id : Z) (text : bytes) (kind : Z) : option (Z * Z) :=
  if favKindIsNameAddressed kind then
    let needCue := kind =? FAV_KIND_CUE in
    (fun m => (m, id)) <$>
      (if is_bdm mode then (if favSupportLaunches (loaded mods mode) needCue then Some mode else List.find (fun m => favSupportLaunches (loaded mods m) needCue) bdm_modes)
       else if (mode <? 0) || (Z.of_nat MODE_COUNT <=? mode) then None
       else if favSupportLaunches (loaded mods mode) needCue then Some mode else None)
  else
    let in_mode m := sp ← loaded mods m; liveId ← favResolveStoredId e sp id text FAV_KIND_ISO; Some (m, liveId) in
    if is_bdm mode then head (omap in_mode bdm_modes)
    else if (mode <? 0) || (Z.of_nat MODE_COUNT <=? mode) then None else in_mode mode.

(** the record resolved; the star of its row is set *)
Definition favResolve (mods : list opl_module) (s : libview) (e : eth_lists) (mode id : Z) (text : bytes) (kind : Z) : option (Z * Z) * list opl_module * libview :=
  match fav_target mods e mode id text kind with
  | None => (None, mods, s)
  | Some (m, liveId) =>
    let '(mods, s) :=
      if favKindIsNameAddressed kind then favVcdMarkStar mods s m id text
      else mark_star true mods s m liveId text (if mode =? APP_MODE then LIB_VIEW_ELF else LIB_VIEW_ISO) in
    (Some (m, liveId), mods, s)
  end.

(** ** The page *)

Definition set_mods (st : fav_state) (mods : list opl_module) (s : libview) : fav_state :=
  {| s_mods := mods; s_views := s; s_eth := s_eth st; favArray := favArray st; favForceUpdate := favForceUpdate st; favAppsArmed := favAppsArmed st; s_queue := s_queue st |}.
Definition set_array (st : fav_state) (l : list fav_rec_t) : fav_state :=
  {| s_mods := s_mods st; s_views := s_views st; s_eth := s_eth st; favArray := l; favForceUpdate := favForceUpdate st; favAppsArmed := favAppsArmed st; s_queue := s_queue st |}.
Definition set_force (st : fav_state) (f : bool) (queue : list Z) : fav_state :=
  {| s_mods := s_mods st; s_views := s_views st; s_eth := s_eth st; favArray := favArray st; favForceUpdate := f; favAppsArmed := favAppsArmed st; s_queue := queue |}.

Definition favNeedsUpdate (st : fav_state) : bool * fav_state :=
  let '(viewToggled, s) := libViewConsumeDirty (s_views st) FAV_MODE in
  let st := set_mods st (s_mods st) s in
  if favForceUpdate st then (true, set_force st false (s_queue st)) else (viewToggled, st).

Definition loadFavourites (st : fav_state) : fav_state := set_force st true (s_queue st ++ [FAV_MODE]).

(** the list of applications is started once when a favourite waits for it. [appInit] also
    drops [appsList] and the visible ids with their count; only the list's own update fills
    them, which is asked of lists that are enabled, and nothing clears [enabled] again: here
    they are still what they are at the start, NULL and 0, and only [enabled] changes *)
Definition enable (m : opl_module) : opl_module :=
  {| m_support := (fun sp => {| sp_mode := sp_mode sp; sp_enabled := true; sp_flags := sp_flags sp; sp_device := sp_device sp; sp_count := sp_count sp; sp_name := sp_name sp; sp_startup := sp_startup sp;
       sp_launch := sp_launch sp; sp_launchVcd := sp_launchVcd sp; sp_launchCue := sp_launchCue sp; sp_view := sp_view sp; sp_source := sp_source sp |}) <$> m_support m; m_rows := m_rows m; m_current := m_current m |}.
Definition arm_apps (st : fav_state) (mode : Z) : fav_state :=
  if negb (mode =? APP_MODE) then st
  else
    match loaded (s_mods st) APP_MODE with
    | Some sp =>
      if negb (favAppsArmed st) && negb (sp_enabled sp) then
        {| s_mods := alter enable (Z.to_nat APP_MODE) (s_mods st); s_views := s_views st; s_eth := s_eth st; favArray := favArray st; favForceUpdate := favForceUpdate st; favAppsArmed := true; s_queue := s_queue st ++ [sp_mode sp] |}
      else st
    | None => st
    end.

(** the loop over the records *)
Fixpoint resolve_all (shelf : Z) (recs : list fav_raw_t) (st : fav_state) : fav_state :=
  match recs with
  | [] => st
  | r :: recs =>
    let '(owner, mods, s) := favResolve (s_mods st) (s_views st) (s_eth st) (r_mode r) (r_id r) (r_text r) (r_kind r) in
    let st := set_mods st mods s in
    if negb (shelf =? LIB_VIEW_ALL) && negb (favKindView (r_kind r) =? shelf) then resolve_all shelf recs st
    else
      match owner with
      | None => resolve_all shelf recs (arm_apps st (r_mode r))
      | Some (m, id) =>
        resolve_all shelf recs (set_array st (favArray st ++ [{| f_owner := m; f_mode := m; f_id := id; f_icon := r_icon r; f_text_id := r_text_id r; f_kind := r_kind r; f_text := r_text r |}]))
      end
  end.

Definition favUpdateItemList (file : option (list fav_raw_t)) (st : fav_state) : Z * fav_state :=
  let st := set_array st [] in
  match file with
  | None => (0, st)
  | Some recs =>
    let '(favShelf, s) := libViewActive (s_views st) FAV_MODE in
    let st := resolve_all favShelf recs (set_mods st (s_mods st) s) in
    (Z.of_nat (length (favArray st)), st)
  end.

Definition favGetItemCount (st : fav_state) : Z := Z.of_nat (length (favArray st)).
(** the record of an index, [favValidIndex] *)
Definition fav_at (st : fav_state) (id : Z) : option fav_rec_t := if id <? 0 then None else favArray st !! Z.to_nat id.

(** the live list of a favourite with its view *)
Definition favOwnerView (st : fav_state) (id : Z) : option (support * Z) :=
  r ← fav_at st id; o ← loaded (s_mods st) (f_owner r);
  Some (o, if favKindIsNameAddressed (f_kind r) then ITEM_VIEW_FORCE_PS1 else ITEM_VIEW_FORCE_ISO).

Definition favGetItemSourceMode (st : fav_state) (id : Z) : Z := match fav_at st id with Some r => f_mode r | None => -1 end.
Definition favGetItemView (st : fav_state) (id : Z) : Z := match fav_at st id with Some r => favKindView (f_kind r) | None => -1 end.
Definition favOwnerHasId (o : support) (view id : Z) : bool := match sp_count o with None => false | Some count => (0 <=? id) && (id <? count view) end.
Definition favGetItemName (st : fav_state) (id : Z) : bytes := match fav_at st id with Some r => f_text r | None => [] end.
Definition favGetItemNameLength (st : fav_state) (id : Z) : Z := match fav_at st id with Some r => Z.of_nat (length (f_text r)) + 1 | None => 0 end.
(** [None] is a null pointer of the owner *)
Definition favGetItemStartup (st : fav_state) (id : Z) : option bytes :=
  match fav_at st id with
  | None => Some []
  | Some r =>
    if favKindIsNameAddressed (f_kind r) then Some (f_text r)
    else
      match favOwnerView st id with
      | None => Some []
      | Some (o, view) => match sp_startup o with Some startup => if favOwnerHasId o view (f_id r) then startup view (f_id r) else Some [] | None => Some [] end
      end
  end.

(** what a launch is handed to *)
Inductive launch := LaunchCue (owner : Z) (name : bytes) | LaunchVcd (owner : Z) (name : bytes) | LaunchItem (owner id view : Z).
Definition favLaunchItem (st : fav_state) (id : Z) : option launch :=
  r ← fav_at st id; '(o, view) ← favOwnerView st id;
  if favKindIsNameAddressed (f_kind r) then
    if f_kind r =? FAV_KIND_CUE then (if sp_launchCue o then Some (LaunchCue (f_owner r) (f_text r)) else None)
    else (if sp_launchVcd o then Some (LaunchVcd (f_owner r) (f_text r)) else None)
  else if negb (sp_launch o) || negb (favOwnerHasId o view (f_id r)) then None
  else Some (LaunchItem (f_owner r) (f_id r) view).

(** the favourite an art request is for: the name or the disc id of a PlayStation 1 title, the
    startup of the others *)
Definition art_matches (st : fav_state) (value : bytes) (k : nat) : bool :=
  match favArray st !! k, favOwnerView st (Z.of_nat k) with
  | Some r, Some (o, view) =>
    if favKindIsNameAddressed (f_kind r) then streq (f_text r) value || bool_decide (vcdExtractGameId (Some (f_text r)) VCD_ID_MAX = Some value)
    else match sp_startup o with Some startup => favOwnerHasId o view (f_id r) && bool_decide (startup view (f_id r) = Some value) | None => false end
  | _, _ => false
  end.
Definition favGetArtMode (st : fav_state) (value : option bytes) : Z :=
  match value with
  | None => -1
  | Some value => match List.find (art_matches st value) (seq 0 (length (favArray st))) with Some k => favGetItemSourceMode st (Z.of_nat k) | None => -1 end
  end.

Definition MODE_FLAG_NO_COMPAT : Z := 0x01.
Definition MODE_FLAG_COMPAT_DMA : Z := 0x02.
Definition MODE_FLAG_NO_UPDATE : Z := 0x04.
Definition favGetFlags (st : fav_state) : Z :=
  match oplGetModule (s_mods st) FAV_MODE ≫= m_current with
  | None => 0
  | Some id =>
    match fav_at st id with
    | None => 0
    | Some r =>
      match favOwnerView st id with
      | Some (o, _) => sp_flags o
      | None => if f_mode r =? APP_MODE then Z.lor MODE_FLAG_NO_COMPAT MODE_FLAG_NO_UPDATE else if f_mode r =? HDD_MODE then MODE_FLAG_COMPAT_DMA else 0
      end
    end
  end.

Definition favShutdown (st : fav_state) : fav_state := set_array st [].

Section Remove.
Context {W : Type} `{!FavFS W} (cfg : option bytes).
(** removal from the page: the star of the row goes, then the record *)
Definition favRemoveByIndex (w : W) (st : fav_state) (favIndex : Z) : W * fav_state :=
  match fav_at st favIndex with
  | None => (w, st)
  | Some r =>
    let '(mods, s) := mark_star false (s_mods st) (s_views st) (f_mode r) (f_id r) (f_text r) (favKindView (f_kind r)) in
    ((removeFavouriteByIdAndText cfg w (f_mode r) (f_id r) (Some (f_text r)) (f_kind r)).2, set_mods st mods s)
  end.
End Remove.

(** ** Lemmas *)

(** a list but for whether it is enabled *)
Definition strip (sp : support) : support :=
  {| sp_mode := sp_mode sp; sp_enabled := false; sp_flags := sp_flags sp; sp_device := sp_device sp; sp_count := sp_count sp; sp_name := sp_name sp; sp_startup := sp_startup sp;
     sp_launch := sp_launch sp; sp_launchVcd := sp_launchVcd sp; sp_launchCue := sp_launchCue sp; sp_view := sp_view sp; sp_source := sp_source sp |}.
(** the same lists, whatever the rows *)
Definition same_lists (a b : list opl_module) : Prop := forall m, strip <$> loaded a m = strip <$> loaded b m.

#[export] Instance same_lists_equiv : Equivalence same_lists.
Proof. split; [by intros a m|by intros a b H m|intros a b c H1 H2 m; by rewrite H1]. Qed.

Lemma launches_strip sp cue : favSupportLaunches (strip <$> sp) cue = favSupportLaunches sp cue.
Proof. by destruct sp. Qed.

#[export] Instance target_proper : Proper (same_lists ==> eq ==> eq ==> eq ==> eq ==> eq ==> eq) fav_target.
Proof.
  intros a b H e ? <- mode ? <- id ? <- text ? <- kind ? <-. unfold fav_target. assert (Hl : forall m cue, favSupportLaunches (loaded a m) cue = favSupportLaunches (loaded b m) cue) by (intros m cue; by rewrite <- launches_strip, H, launches_strip).
  assert (Hi : forall m, (sp ← loaded a m; liveId ← favResolveStoredId e sp id text FAV_KIND_ISO; Some (m, liveId)) = (sp ← loaded b m; liveId ← favResolveStoredId e sp id text FAV_KIND_ISO; Some (m, liveId))).
  { intros m. specialize (H m). destruct (loaded a m) as [x|], (loaded b m) as [y|]; try done. cbn [fmap option_fmap option_map] in H. apply (inj Some) in H. cbn [mbind option_bind].
    change (favResolveStoredId e x id text FAV_KIND_ISO) with (favResolveStoredId e (strip x) id text FAV_KIND_ISO). by rewrite H. }
  destruct (favKindIsNameAddressed kind).
  - rewrite Hl. f_equal. destruct (is_bdm mode); [|done]. destruct (favSupportLaunches (loaded b mode) _); [done|]. generalize bdm_modes. intros l. induction l as [|m l IH]; [done|]. cbn [List.find]. by rewrite Hl, IH.
  - destruct (is_bdm mode); [|by rewrite Hi]. f_equal. generalize bdm_modes. intros l. induction l as [|m l IH]; [done|]. cbn [omap list_omap]. by rewrite Hi, IH.
Qed.

Lemma loaded_insert mods m x k : (m < length mods)%nat -> loaded (<[m := x]> mods) k = if decide (Z.to_nat k = m) then m_support x else loaded mods k.
Proof. intros Hm. unfold loaded, oplGetModule. case_decide as E; [subst m; rewrite list_lookup_insert_eq by done; done|]. by rewrite list_lookup_insert_ne. Qed.

Lemma mark_star_lists on mods s mode id text view : same_lists (mark_star on mods s mode id text view).1 mods.
Proof.
  unfold mark_star. destruct (oplGetModule mods mode) as [m|] eqn:E; [|done]. destruct (favFindVisibleSource s m id text view) as [[k|] s']; [|done]. cbn [fst]. intros x. unfold oplGetModule in E. rewrite loaded_insert by (by eapply lookup_lt_Some). case_decide as Ex; [|done].
  unfold loaded, oplGetModule. rewrite Ex, E. done.
Qed.

Lemma resolve_fst mods s e mode id text kind : (favResolve mods s e mode id text kind).1.1 = fav_target mods e mode id text kind /\ same_lists (favResolve mods s e mode id text kind).1.2 mods.
Proof.
  unfold favResolve, favVcdMarkStar. destruct (fav_target mods e mode id text kind) as [[m liveId]|]; [|done].
  destruct (favKindIsNameAddressed kind).
  - pose proof (mark_star_lists true mods s m id text LIB_VIEW_PS1) as H. by destruct (mark_star _ _ _ _ _ _ _).
  - pose proof (mark_star_lists true mods s m liveId text (if mode =? APP_MODE then LIB_VIEW_ELF else LIB_VIEW_ISO)) as H. by destruct (mark_star _ _ _ _ _ _ _).
Qed.

Lemma arm_lists st mode : same_lists (s_mods (arm_apps st mode)) (s_mods st) /\ s_eth (arm_apps st mode) = s_eth st /\ favArray (arm_apps st mode) = favArray st.
Proof.
  unfold arm_apps. destruct (negb (mode =? APP_MODE)); [done|]. destruct (loaded (s_mods st) APP_MODE) as [sp|] eqn:E; [|done]. destruct (_ && _); [|done]. split; [|done]. intros m. cbn [s_mods]. unfold loaded, oplGetModule.
  destruct (decide (Z.to_nat m = Z.to_nat APP_MODE)) as [Em|Em]; [rewrite Em, list_lookup_alter_eq; destruct (s_mods st !! Z.to_nat APP_MODE) as [x|]; [cbn; destruct (m_support x); done|done]|by rewrite list_lookup_alter_ne].
Qed.

(** ** What the page shows *)

(** the row of a record: where it resolves and is on the shelf *)
Definition shown (mods : list opl_module) (e : eth_lists) (shelf : Z) (r : fav_raw_t) : option fav_rec_t :=
  if negb (shelf =? LIB_VIEW_ALL) && negb (favKindView (r_kind r) =? shelf) then None
  else '(m, id) ← fav_target mods e (r_mode r) (r_id r) (r_text r) (r_kind r);
       Some {| f_owner := m; f_mode := m; f_id := id; f_icon := r_icon r; f_text_id := r_text_id r; f_kind := r_kind r; f_text := r_text r |}.

Lemma shown_lists a b e shelf r : same_lists a b -> shown a e shelf r = shown b e shelf r.
Proof. intros H. unfold shown. by rewrite (target_proper a b H _ _ eq_refl _ _ eq_refl _ _ eq_refl _ _ eq_refl _ _ eq_refl). Qed.

Lemma resolve_all_spec shelf recs : forall st, let st' := resolve_all shelf recs st in
  favArray st' = favArray st ++ omap (shown (s_mods st) (s_eth st) shelf) recs /\ same_lists (s_mods st') (s_mods st) /\ s_eth st' = s_eth st.
Proof.
  induction recs as [|r recs IH]; intros st; cbn [resolve_all omap list_omap]; [by rewrite app_nil_r|]. destruct (favResolve _ _ _ _ _ _ _) as [[owner mods] s] eqn:E.
  destruct (resolve_fst (s_mods st) (s_views st) (s_eth st) (r_mode r) (r_id r) (r_text r) (r_kind r)) as [H1 H2]. rewrite E in H1, H2. cbn [fst snd] in H1, H2.
  assert (Hm : forall mods2, same_lists mods2 mods -> omap (shown mods2 (s_eth st) shelf) recs = omap (shown (s_mods st) (s_eth st) shelf) recs).
  { intros mods2 H. generalize recs. intros l. induction l as [|x l IHl]; [done|]. cbn [omap list_omap]. rewrite (shown_lists mods2 (s_mods st)) by (by transitivity mods). by rewrite IHl. }
  unfold shown at 1. destruct (negb (shelf =? LIB_VIEW_ALL) && _) eqn:Es.
  - destruct (IH (set_mods st mods s)) as (K1 & K2 & K3). cbn [set_mods favArray s_mods s_eth] in *. rewrite K1, (Hm mods) by done. split; [done|]. split; [by transitivity mods|done].
  - rewrite <- H1. destruct owner as [[m id]|]; cbn [mbind option_bind].
    + match goal with |- context [resolve_all shelf recs ?x] => destruct (IH x) as (K1 & K2 & K3) end. cbn [set_array set_mods favArray s_mods s_eth] in *. rewrite K1, (Hm mods) by done. rewrite <- app_assoc. split; [done|]. split; [by transitivity mods|done].
    + destruct (arm_lists (set_mods st mods s) (r_mode r)) as (A1 & A2 & A3). destruct (IH (arm_apps (set_mods st mods s) (r_mode r))) as (K1 & K2 & K3). rewrite K1, K3, A2, A3. cbn [set_mods favArray s_mods s_eth] in *. rewrite (Hm (s_mods (arm_apps (set_mods st mods s) (r_mode r)))) by done.
      split; [done|]. split; [by rewrite K2, A1|done].
Qed.

Lemma target_sound mods e mode id text kind m liveId : fav_target mods e mode id text kind = Some (m, liveId) ->
  exists sp, loaded mods m = Some sp /\ (is_bdm mode = true /\ is_bdm m = true \/ m = mode) /\
    (favKindIsNameAddressed kind = true -> liveId = id /\ favSupportLaunches (Some sp) (kind =? FAV_KIND_CUE) = true) /\
    (favKindIsNameAddressed kind = false -> favResolveStoredId e sp id text FAV_KIND_ISO = Some liveId).
Proof.
  intros H. assert (Hb : forall x, x ∈ bdm_modes -> is_bdm x = true) by (intros x Hx; unfold bdm_modes in Hx; apply list_elem_of_fmap in Hx as (k & -> & Hk%elem_of_seq); unfold is_bdm; rewrite andb_true_iff, !Z.leb_le; lia).
  assert (Hl : forall x cue, favSupportLaunches (loaded mods x) cue = true -> exists sp, loaded mods x = Some sp /\ favSupportLaunches (Some sp) cue = true) by (intros x cue Hx; destruct (loaded mods x) as [sp|]; [by exists sp|done]).
  unfold fav_target in H. destruct (favKindIsNameAddressed kind) eqn:Ek.
  - apply fmap_Some in H as (x & Hx & [= -> ->]). destruct (is_bdm mode) eqn:Em.
    + destruct (favSupportLaunches (loaded mods mode) _) eqn:El.
      * injection Hx as <-. destruct (Hl _ _ El) as (sp & H1 & H2). exists sp. split; [done|]. split; [by left|]. done.
      * apply List.find_some in Hx as [Hx Hf]. destruct (Hl _ _ Hf) as (sp & H1 & H2). exists sp. split; [done|]. split; [left; split; [done|by apply Hb, list_elem_of_In]|]. done.
    + destruct (_ || _); [done|]. destruct (favSupportLaunches (loaded mods mode) _) eqn:El; [|done]. injection Hx as <-. destruct (Hl _ _ El) as (sp & H1 & H2). exists sp. split; [done|]. split; [by right|]. done.
  - assert (Hi : forall x, (sp ← loaded mods x; liveId ← favResolveStoredId e sp id text FAV_KIND_ISO; Some (x, liveId)) = Some (m, liveId) -> x = m /\ exists sp, loaded mods m = Some sp /\ favResolveStoredId e sp id text FAV_KIND_ISO = Some liveId).
    { intros x Hx. destruct (loaded mods x) as [sp|] eqn:Ex; [|done]. cbn [mbind option_bind] in Hx. destruct (favResolveStoredId _ _ _ _ _) as [y|] eqn:Ey; [|done]. injection Hx as -> ->. split; [done|]. by exists sp. }
    destruct (is_bdm mode) eqn:Em.
    + apply head_Some_elem_of, list_elem_of_omap in H as (x & Hx & H). apply Hi in H as [-> (sp & H1 & H2)]. exists sp. split; [done|]. split; [left; split; [done|by apply Hb]|]. done.
    + destruct (_ || _); [done|]. apply Hi in H as [-> (sp & H1 & H2)]. exists sp. split; [done|]. split; [by right|]. done.
Qed.

Lemma first_named_spec name_of text n : forall i j, first_named name_of text n i = Some j -> i <= j < i + Z.of_nat n /\ name_of j = Some text.
Proof.
  induction n as [|n IH]; intros i j H; [done|]. cbn [first_named] in H. case_bool_decide as E; [injection H as <-; split; [lia|done]|]. apply IH in H as [H1 H2]. split; [lia|done].
Qed.

(** a game or application that resolves is an item of its list under its name *)
Lemma stored_id_spec e sp id text liveId : favResolveStoredId e sp id text FAV_KIND_ISO = Some liveId ->
  (sp_mode sp = ETH_MODE /\ ethGames e !! Z.to_nat liveId = Some text) \/
  (sp_mode sp <> ETH_MODE /\ favOwnerHasId sp ITEM_VIEW_FORCE_ISO liveId = true /\ exists name, sp_name sp = Some name /\ name ITEM_VIEW_FORCE_ISO liveId = Some text).
Proof.
  unfold favResolveStoredId, favOwnerHasId. destruct (sp_count sp) as [count|]; [|done]. destruct (sp_name sp) as [name|]; [|done]. destruct (Z.eqb_spec (sp_mode sp) ETH_MODE) as [Em|Em]; cbn [andb]; change (FAV_KIND_ISO =? FAV_KIND_ISO) with true; change (favKindIsNameAddressed FAV_KIND_ISO) with false; cbv iota.
  - unfold ethResolveIsoFavourite. destruct (_ || _); [done|]. case_bool_decide as E; [|done]. intros [= <-]. by left.
  - intros H. right. split; [done|]. destruct (sp_mode sp =? APP_MODE).
    + apply first_named_spec in H as [H1 H2]. split; [rewrite andb_true_iff, Z.leb_le, Z.ltb_lt; lia|by exists name].
    + destruct (Z.ltb_spec id 0); [done|]. destruct (Z.leb_spec (count ITEM_VIEW_FORCE_ISO) id); [done|]. cbn [orb] in H. case_bool_decide as E; [|done]. injection H as <-. split; [rewrite andb_true_iff, Z.leb_le, Z.ltb_lt; lia|by exists name].
Qed.

Lemma update_spec file st : let '(n, st') := favUpdateItemList file st in
  favArray st' = omap (shown (s_mods st) (s_eth st) (libViewActive (s_views st) FAV_MODE).1) (default [] file) /\ n = Z.of_nat (length (favArray st')) /\ same_lists (s_mods st') (s_mods st) /\ s_eth st' = s_eth st.
Proof.
  unfold favUpdateItemList. destruct file as [recs|]; [|done]. change (s_views (set_array st [])) with (s_views st). destruct (libViewActive (s_views st) FAV_MODE) as [shelf s] eqn:E. cbn [fst default from_option id]. cbv zeta.
  destruct (resolve_all_spec shelf recs (set_mods (set_array st []) (s_mods (set_array st [])) s)) as (H1 & H2 & H3). rewrite H1. done.
Qed.

(** ** Properties *)

(** C35. The page is rebuilt from the file: it shows, in the order of the file, exactly the
    records whose kind belongs on the shelf and that resolve to a loaded list; the others stay
    in the file. *)
Theorem page_is_shelf file st : let '(n, st') := favUpdateItemList file st in
  favArray st' = omap (shown (s_mods st) (s_eth st) (libViewActive (s_views st) FAV_MODE).1) (default [] file) /\ n = favGetItemCount st'.
Proof. pose proof (update_spec file st) as H. destruct (favUpdateItemList file st) as [n st']. destruct H as (H1 & H2 & _). done. Qed.


(** A game of a mass storage device is found in whatever slot the device is now: in the
    first slot that has the item under its name, and nowhere only if no slot has it. *)
Theorem moved_device_found mods e mode id text kind b : is_bdm mode = true -> favKindIsNameAddressed kind = false ->
  let has m := exists sp, loaded mods m = Some sp /\ favResolveStoredId e sp id text FAV_KIND_ISO = Some id in
  BDM_MODE <= b <= BDM_MODE_LAST -> has b -> (forall a sp, BDM_MODE <= a < b -> loaded mods a = Some sp -> favResolveStoredId e sp id text FAV_KIND_ISO = None) ->
  fav_target mods e mode id text kind = Some (b, id).
Proof.
  intros Hm Hk has Hb (sp & Hl & Hr) Hno. unfold fav_target. rewrite Hk, Hm. unfold bdm_modes. change (Z.to_nat 0) with 0%nat. set (f := fun m => _). assert (Hf : f b = Some (b, id)) by (unfold f; rewrite Hl; cbn [mbind option_bind]; by rewrite Hr).
  assert (Hn : forall a, 0 <= a < b -> f a = None) by (intros a Ha; unfold f; destruct (loaded mods a) as [x|] eqn:E; [|done]; cbn [mbind option_bind]; by rewrite (Hno a x Ha E)). clear Hno.
  assert (G : forall n i, Z.of_nat i <= b < Z.of_nat (i + n) -> head (omap f (map Z.of_nat (seq i n))) = Some (b, id)).
  { induction n as [|n IH]; intros i Hi; [lia|]. cbn [seq map omap list_omap]. destruct (decide (Z.of_nat i = b)) as [<-|Hne]; [by rewrite Hf|]. rewrite Hn by lia. apply IH. lia. }
  apply G. lia.
Qed.

(** ** Witnesses *)

(** a mass storage device with the games named, and no more hooks than it needs *)
Definition usb (mode type : Z) (games : list bytes) : support :=
  {| sp_mode := mode; sp_enabled := true; sp_flags := 0; sp_device := Some type; sp_count := Some (fun _ => Z.of_nat (length games)); sp_name := Some (fun _ i => games !! Z.to_nat i);
     sp_startup := Some (fun _ i => games !! Z.to_nat i); sp_launch := true; sp_launchVcd := true; sp_launchCue := true; sp_view := None; sp_source := None |}.
Definition page_of (sp : support) (games : list bytes) : opl_module :=
  {| m_support := Some sp; m_rows := imap (fun i g => {| row_id := Z.of_nat i; row_text := Some g; row_starred := false |}) games; m_current := None |}.
Definition two_drives : list opl_module := [page_of (usb 0 4 [bs "Spyro"]) [bs "Spyro"]; page_of (usb 1 0 [bs "Rez"; bs "Ico"]) [bs "Rez"; bs "Ico"]].
Definition no_share : eth_lists := {| gPCShareName := []; gNetworkStartup := -1; ethGames := [] |}.
Definition fav_start : fav_state := {| s_mods := two_drives; s_views := libview_start 0 0; s_eth := no_share; favArray := []; favForceUpdate := true; favAppsArmed := false; s_queue := [] |}.
Definition spyro : fav_raw_t := {| r_mode := 0; r_id := 0; r_icon := 3; r_text_id := -1; r_kind := FAV_KIND_VCD; r_text := bs "Spyro" |}.
Definition fav_file : option (list fav_raw_t) := Some [game 0 1 (bs "Ico"); spyro; game 9 4 (bs "Gone")].
(** the page on its first shelf, the games *)
Definition fav_page : fav_state := (favUpdateItemList fav_file fav_start).2.


(** plugged into the other port, the device has moved from slot 0 to slot 1 *)
Lemma moved_device_found_witness : fav_target two_drives no_share 0 1 (bs "Ico") FAV_KIND_ISO = Some (1, 1).
Proof.
  apply (moved_device_found two_drives no_share 0 1 (bs "Ico") FAV_KIND_ISO 1); [reflexivity|reflexivity|lia| |].
  - eexists. split; [vm_compute; reflexivity|vm_compute; reflexivity].
  - intros a sp Ha Hl. assert (a = 0) as -> by lia. vm_compute in Hl. injection Hl as <-. vm_compute. reflexivity.
Defined.
