(* ===== verification/SubMenu.v ===== *)
(** * SubMenu: the rows of a page (src/menusys.c)

    The rows are doubly linked nodes on the heap. Appending, finding, removing, destroying and
    sorting them, pointer by pointer; [None] is the access to a node that was freed. A list
    that is well linked stands for the sequence of its rows. *)
From Stdlib Require Import Sorting.Sorted.
From S2P Require Import Prelude CLib Ps1Names Ps1List.

Abbreviation addr := nat (only parsing).

(** ** Data *)

Record submenu_item := Item {
  icon_id : Z; text : option bytes; text_id : Z; id : Z;
  cache_id : list Z; cache_uid : list Z; favourited : bool; isFolder : bool;
}.
Record submenu_list := Node { item : submenu_item; prev : option addr; next : option addr }.

(** the nodes allocated, and the address [malloc] gives next *)
Record heap := Heap { cells : gmap addr submenu_list; brk : addr }.

Definition with_item (it : submenu_item) (n : submenu_list) : submenu_list := Node it (prev n) (next n).
Definition with_prev (p : option addr) (n : submenu_list) : submenu_list := Node (item n) p (next n).
Definition with_next (p : option addr) (n : submenu_list) : submenu_list := Node (item n) (prev n) p.

(** a read and a store through a pointer *)
Definition load (h : heap) (a : addr) : option submenu_list := cells h !! a.
Definition store (h : heap) (a : addr) (f : submenu_list -> submenu_list) : option heap :=
  n ← cells h !! a; Some (Heap (<[a := f n]> (cells h)) (brk h)).
(** a store through a pointer that was tested *)
Definition store_if (h : heap) (p : option addr) (f : submenu_list -> submenu_list) : option heap := match p with Some a => store h a f | None => Some h end.

(** the loops run along a list, so as many steps as there are nodes are enough *)
Definition fuel (h : heap) : nat := S (size (cells h)).

Section Theme.
Context (gameCacheCount : nat).

Definition fresh_cache (it : submenu_item) : submenu_item :=
  Item (icon_id it) (text it) (text_id it) (id it) (replicate gameCacheCount (-1)) (replicate gameCacheCount (-1)) (favourited it) (isFolder it).

Fixpoint rebuild_loop (n : nat) (h : heap) (submenu : option addr) : option heap :=
  match submenu, n with
  | None, _ => Some h
  | Some a, S n => h ← store h a (fun x => with_item (fresh_cache (item x)) x); x ← load h a; rebuild_loop n h (next x)
  | Some _, O => None
  end.
Definition submenuRebuildCache (h : heap) (submenu : option addr) : option heap := rebuild_loop (fuel h) h submenu.

Definition submenuAllocItem (h : heap) (icon_id : Z) (text : option bytes) (id text_id : Z) : option (heap * addr) :=
  let it := brk h in
  h ← submenuRebuildCache (Heap (<[it := Node (Item icon_id text text_id id [] [] false false) None None]> (cells h)) (S it)) (Some it);
  Some (h, it).

Fixpoint find_tail (n : nat) (h : heap) (cur : addr) : option addr :=
  match n with
  | O => None
  | S n => x ← load h cur; match next x with Some nx => find_tail n h nx | None => Some cur end
  end.

(** the new head and the new row *)
Definition submenuAppendItem (h : heap) (submenu : option addr) (icon_id : Z) (text : option bytes) (id text_id : Z) : option (heap * option addr * addr) :=
  match submenu with
  | None => '(h, it) ← submenuAllocItem h icon_id text id text_id; Some (h, Some it, it)
  | Some first =>
    cur ← find_tail (fuel h) h first;
    '(h, newitem) ← submenuAllocItem h icon_id text id text_id;
    h ← store h cur (with_next (Some newitem));
    h ← store h newitem (with_prev (Some cur));
    Some (h, submenu, newitem)
  end.
End Theme.

Fixpoint find_item (n : nat) (h : heap) (cur : option addr) (want : Z) (txt : option bytes) : option (option addr) :=
  match cur, n with
  | None, _ => Some None
  | Some a, S n =>
    x ← load h a;
    if (id (item x) =? want) && match txt, text (item x) with Some t, Some u => streq u t | _, _ => false end then Some (Some a) else find_item n h (next x) want txt
  | Some _, O => None
  end.
Definition submenuFindItemByIdAndText (h : heap) (submenu : option addr) (id : Z) (text : option bytes) : option (option addr) := find_item (fuel h) h submenu id text.

Definition submenuDestroyItem (h : heap) (a : addr) : heap := Heap (delete a (cells h)) (brk h).

(** [head] is what [submenu] points to *)
Fixpoint remove_loop (n : nat) (h : heap) (head cur prv : option addr) (want : Z) : option (heap * option addr) :=
  match cur, n with
  | None, _ => Some (h, head)
  | Some a, S n =>
    x ← load h a;
    if id (item x) =? want then
      h ← store_if h prv (with_next (next x));
      let head := if bool_decide (head = Some a) then next x else head in
      remove_loop n (submenuDestroyItem h a) head (next x) prv want
    else remove_loop n h head (next x) (Some a) want
  | Some _, O => None
  end.
Definition submenuRemoveItem (h : heap) (submenu : option addr) (id : Z) : option (heap * option addr) := remove_loop (fuel h) h submenu submenu None id.

Fixpoint destroy_loop (n : nat) (h : heap) (cur : option addr) : option heap :=
  match cur, n with
  | None, _ => Some h
  | Some td, S n => x ← load h td; destroy_loop n (submenuDestroyItem h td) (next x)
  | Some _, O => None
  end.
(** the pointer is cleared as well *)
Definition submenuDestroy (h : heap) (submenu : option addr) : option (heap * option addr) := h ← destroy_loop (fuel h) h submenu; Some (h, None).

(** [b] follows [a] *)
Definition swap (h : heap) (a b : addr) : option heap :=
  xa ← load h a; xb ← load h b;
  let pa := prev xa in
  let nb := next xb in
  h ← store h a (with_next nb);
  h ← store h b (with_prev pa);
  h ← store h b (with_next (Some a));
  h ← store h a (with_prev (Some b));
  h ← store_if h pa (with_next (Some b));
  store_if h nb (with_prev (Some a)).

Section Sort.
(** the title a row is shown under; [None] is a null pointer *)
Context (shown_text : submenu_item -> option bytes).

(** the comparison of two rows, folders first; [None] is a null pointer compared *)
Definition menu_cmp (tip nxt : submenu_item) : option Z :=
  if negb (eqb (isFolder tip) (isFolder nxt)) then Some (if isFolder tip then -1 else 1)
  else txt1 ← shown_text tip; txt2 ← shown_text nxt; Some (strcasecmp txt1 txt2).

(** one run along the list: the heap, the head, whether nothing was swapped *)
Fixpoint sort_pass (n : nat) (h : heap) (head tip : addr) (sorted : bool) : option (heap * addr * bool) :=
  match n with
  | O => None
  | S n =>
    x ← load h tip;
    match next x with
    | None => Some (h, head, sorted)
    | Some nxt =>
      y ← load h nxt;
      cmp ← menu_cmp (item x) (item y);
      if 0 <? cmp then h ← swap h tip nxt; sort_pass n h (if (tip =? head)%nat then nxt else head) tip false
      else sort_pass n h head nxt sorted
    end
  end.
(** until a run swaps nothing *)
Fixpoint sort_loop (n : nat) (h : heap) (head : addr) : option (heap * addr) :=
  match n with
  | O => None
  | S n => '(h, head, sorted) ← sort_pass (fuel h) h head head true; if (sorted : bool) then Some (h, head) else sort_loop n h head
  end.
(** every run but the last exchanges two rows that were in the wrong order: there are at most so many *)
Definition submenuSort (h : heap) (submenu : option addr) : option (heap * option addr) :=
  match submenu with
  | None => Some (h, submenu)
  | Some head =>
    x ← load h head;
    match next x with
    | None => Some (h, submenu)
    | Some _ => '(h, head) ← sort_loop (S (size (cells h) * size (cells h))) h head; Some (h, Some head)
    end
  end.
End Sort.

(** ** The sort on sequences *)

Section Bubble.
Context {A : Type} (gt : A -> A -> bool).

(** what one run makes of [x] before [l], and whether it exchanged anything *)
Fixpoint bubble (x : A) (l : list A) : list A * bool :=
  match l with
  | [] => ([x], false)
  | y :: l => if gt x y then (y :: (bubble x l).1, true) else (x :: (bubble y l).1, (bubble y l).2)
  end.

(** the pairs in the wrong order *)
Fixpoint inversions (l : list A) : nat := match l with [] => 0 | x :: l => length (base.filter (fun y => gt x y = true) l) + inversions l end%nat.

Lemma bubble_perm l : forall x, (bubble x l).1 ≡ₚ x :: l.
Proof. induction l as [|y l IH]; intros x; cbn [bubble]; [done|]. destruct (gt x y); cbn [fst]; rewrite IH; [apply perm_swap|done]. Qed.

Lemma wrong_perm x l1 l2 : l1 ≡ₚ l2 -> length (base.filter (fun y => gt x y = true) l1) = length (base.filter (fun y => gt x y = true) l2).
Proof. intros H. apply Permutation_length. by rewrite H. Qed.

Lemma bubble_inversions (Hanti : forall x y, gt x y = true -> gt y x = false) l : forall x, (inversions (bubble x l).1 <= inversions (x :: l))%nat /\ ((bubble x l).2 = true -> (inversions (bubble x l).1 < inversions (x :: l))%nat).
Proof.
  induction l as [|y l IH]; intros x; cbn [bubble]; [done|]. destruct (gt x y) eqn:E; cbn [fst snd inversions].
  - destruct (IH x) as [H _]. cbn [inversions] in H. rewrite (wrong_perm y _ _ (bubble_perm l x)), !filter_cons. pose proof (Hanti x y E). repeat case_decide; try congruence. cbn [length]. lia.
  - destruct (IH y) as [H1 H2]. cbn [inversions] in H1, H2. rewrite (wrong_perm x _ _ (bubble_perm l y)). split; [lia|]. intros Hs. specialize (H2 Hs). lia.
Qed.

(** a run that exchanges nothing has seen a sorted sequence *)
Lemma bubble_done l : forall x, (bubble x l).2 = false -> (bubble x l).1 = x :: l /\ Sorted (fun a b => gt a b = false) (x :: l).
Proof.
  induction l as [|y l IH]; intros x; cbn [bubble]; [intros _; split; [done|by repeat constructor]|]. destruct (gt x y) eqn:E; [done|]. cbn [fst snd]. intros H. destruct (IH y H) as [-> Hs]. split; [done|]. by constructor; [|constructor].
Qed.

(** rows the comparison does not tell apart keep their order *)
Lemma bubble_stable {K} (key : A -> K) `{!EqDecision K} (Hk : forall x y, gt x y = true -> key x <> key y) k l : forall x,
  base.filter (fun y => key y = k) (bubble x l).1 = base.filter (fun y => key y = k) (x :: l).
Proof.
  induction l as [|y l IH]; intros x; cbn [bubble]; [done|]. destruct (gt x y) eqn:E; cbn [fst].
  - rewrite filter_cons, IH, !filter_cons. specialize (Hk x y E). destruct (decide (key y = k)), (decide (key x = k)); congruence.
  - rewrite filter_cons, IH. by rewrite (filter_cons _ x).
Qed.

Lemma inversions_bound l : (inversions l <= length l * length l)%nat.
Proof. induction l as [|x l IH]; [done|]. cbn [inversions length]. pose proof (length_filter (fun y => gt x y = true) l). nia. Qed.
End Bubble.

(** ** What a list stands for *)

(** [p] is the head of a list whose nodes, in order, carry the rows [xs]; each row is linked to
    the ones beside it *)
Record rows (h : heap) (p : option addr) (xs : list (addr * submenu_item)) : Prop := {
  rows_head : p = xs.*1 !! 0%nat;
  rows_nodup : NoDup xs.*1;
  rows_links : forall i a it, xs !! i = Some (a, it) -> cells h !! a = Some (Node it (match i with O => None | S j => xs.*1 !! j end) (xs.*1 !! S i));
}.
(** [malloc] gives an address that is not in use *)
Definition heap_ok (h : heap) : Prop := forall a, (brk h <= a)%nat -> cells h !! a = None.
(** nothing changes but at the addresses [l] *)
Definition only (l : list addr) (h h' : heap) : Prop := forall a, a ∉ l -> cells h' !! a = cells h !! a.

Lemma fst_lookup (xs : list (addr * submenu_item)) i : xs.*1 !! i = fst <$> xs !! i.
Proof. apply list_lookup_fmap. Qed.

Lemma rows_nil h : rows h None [].
Proof. split; [done|constructor|done]. Qed.

Lemma rows_addr h p xs i a it : rows h p xs -> xs !! i = Some (a, it) -> a ∈ xs.*1.
Proof. intros _ H. apply list_elem_of_fmap. exists (a, it). split; [done|]. by eapply list_elem_of_lookup_2. Qed.

Lemma rows_used h p xs a : rows h p xs -> a ∈ xs.*1 -> is_Some (cells h !! a).
Proof. intros H Ha. apply list_elem_of_fmap in Ha as ([b it] & -> & Hb). apply list_elem_of_lookup in Hb as [i Hi]. cbn. rewrite (rows_links _ _ _ H i b it Hi). done. Qed.

Lemma rows_fuel h p xs : rows h p xs -> (length xs <= size (cells h))%nat.
Proof.
  intros H. replace (length xs) with (size (list_to_set xs.*1 : gset addr)); [|rewrite size_list_to_set by apply (rows_nodup _ _ _ H); apply length_fmap]. rewrite <- size_dom. apply subseteq_size. intros a Ha. apply elem_of_list_to_set in Ha. apply elem_of_dom. by eapply rows_used.
Qed.

(** a list away from what changed *)
Lemma rows_frame h h' p xs l : only l h h' -> (forall a, a ∈ xs.*1 -> a ∉ l) -> rows h p xs -> rows h' p xs.
Proof. intros Ho Hd [H1 H2 H3]. split; [done|done|]. intros i a it Hi. rewrite Ho; [by apply H3|]. apply Hd. apply list_elem_of_fmap. exists (a, it). split; [done|]. by eapply list_elem_of_lookup_2. Qed.

Lemma rows_next h p xs i a it : rows h p xs -> xs !! i = Some (a, it) -> exists n, load h a = Some n /\ next n = xs.*1 !! S i /\ prev n = match i with O => None | S j => xs.*1 !! j end /\ item n = it.
Proof. intros H Hi. exists (Node it (match i with O => None | S j => xs.*1 !! j end) (xs.*1 !! S i)). split; [by apply (rows_links _ _ _ H)|done]. Qed.

Lemma rows_inj h p xs i j a it it' : rows h p xs -> xs !! i = Some (a, it) -> xs !! j = Some (a, it') -> i = j.
Proof. intros H Hi Hj. eapply NoDup_lookup; [apply (rows_nodup _ _ _ H)| |]; rewrite fst_lookup; [by rewrite Hi|by rewrite Hj]. Qed.

Lemma store_spec h a f n : cells h !! a = Some n -> store h a f = Some (Heap (<[a := f n]> (cells h)) (brk h)).
Proof. intros H. unfold store. by rewrite H. Qed.

Lemma lookup_snoc_lt {A} (l : list A) x i : (i < length l)%nat -> (l ++ [x]) !! i = l !! i.
Proof. apply lookup_app_l. Qed.

(** *** Appending *)

Lemma find_tail_spec h p xs n : rows h p xs -> forall i a it, xs !! i = Some (a, it) -> (length xs - i <= n)%nat -> find_tail n h a = last xs.*1.
Proof.
  intros H. induction n as [|n IH]; intros i a it Hi Hn; [apply lookup_lt_Some in Hi; lia|]. cbn [find_tail]. destruct (rows_next _ _ _ _ _ _ H Hi) as (x & -> & Hx & _ & _). cbn [mbind option_bind]. rewrite Hx, fst_lookup. destruct (xs !! S i) as [[b it']|] eqn:Ei; cbn [fmap option_fmap option_map fst].
  - apply (IH (S i) b it' Ei). lia.
  - rewrite last_lookup, length_fmap. apply lookup_ge_None in Ei. apply lookup_lt_Some in Hi as Hl. replace (Nat.pred (length xs)) with i by lia. by rewrite fst_lookup, Hi.
Qed.

Lemma last_fst (xs : list (addr * submenu_item)) a it : last (xs ++ [(a, it)]).*1 = Some a.
Proof. rewrite fmap_app. apply last_snoc. Qed.

Section Alloc.
Context (gameCacheCount : nat).

(** a row as it is made *)
Definition new_item (icon_id : Z) (text : option bytes) (id text_id : Z) : submenu_item :=
  Item icon_id text text_id id (replicate gameCacheCount (-1)) (replicate gameCacheCount (-1)) false false.

Lemma alloc_spec h ic t i ti : submenuAllocItem gameCacheCount h ic t i ti = Some (Heap (<[brk h := Node (new_item ic t i ti) None None]> (cells h)) (S (brk h)), brk h).
Proof.
  unfold submenuAllocItem, submenuRebuildCache, fuel. cbn [cells]. set (m := <[brk h := _]> (cells h)). cbn [rebuild_loop]. unfold store, load. cbn [cells brk]. unfold m. rewrite lookup_insert_eq. cbn [mbind option_bind cells brk]. rewrite lookup_insert_eq. cbn [mbind option_bind next with_item]. destruct (size _); cbn [rebuild_loop mbind option_bind]; by rewrite insert_insert_eq.
Qed.

Lemma append_spec h p xs ic t i ti : heap_ok h -> rows h p xs ->
  exists h', submenuAppendItem gameCacheCount h p ic t i ti = Some (h', Some (match p with Some a => a | None => brk h end), brk h) /\
    rows h' (Some (match p with Some a => a | None => brk h end)) (xs ++ [(brk h, new_item ic t i ti)]) /\ heap_ok h' /\ brk h' = S (brk h) /\ only (brk h :: xs.*1) h h'.
Proof.
  intros Hh H. assert (Hn : brk h ∉ xs.*1) by (intros Hb; destruct (rows_used _ _ _ _ H Hb) as [x Hx]; by rewrite Hh in Hx by lia). assert (Hd : NoDup (xs ++ [(brk h, new_item ic t i ti)]).*1) by (rewrite fmap_app; apply NoDup_app; split; [apply (rows_nodup _ _ _ H)|split; [intros a Ha [->|Ha']%elem_of_cons; [done|by apply elem_of_nil in Ha']|apply NoDup_singleton]]).
  unfold submenuAppendItem. rewrite (rows_head _ _ _ H). destruct xs as [|[a0 it0] xs0] eqn:Exs.
  - cbn [fmap list_fmap lookup list_lookup]. rewrite alloc_spec. cbn [mbind option_bind]. eexists. split; [reflexivity|]. split; [|split; [|split; [done|]]].
    + split; [done|done|]. intros [|j] a it Hj; [|done]. injection Hj as <- <-. cbn. by rewrite lookup_insert_eq.
    + intros a Ha. cbn in *. rewrite lookup_insert_ne by lia. apply Hh. lia.
    + intros a Ha. cbn. apply lookup_insert_ne. set_solver.
  - rewrite <- Exs in *. assert (E0 : xs.*1 !! 0%nat = Some a0) by (by rewrite Exs). rewrite E0. rewrite (find_tail_spec h p xs (fuel h) H 0 a0 it0) by first [by rewrite Exs|pose proof (rows_fuel _ _ _ H); unfold fuel; lia].
    destruct (last xs) as [[l itl]|] eqn:El; [apply last_Some in El as [ys Hys]|by apply last_None in El; rewrite Exs in El]. replace (last xs.*1) with (Some l) by (rewrite Hys; symmetry; apply last_fst). cbn [mbind option_bind]. rewrite alloc_spec. cbn [mbind option_bind].
    assert (Hl : xs !! length ys = Some (l, itl)) by (rewrite Hys; by rewrite lookup_app_r, Nat.sub_diag by lia). pose proof (rows_links _ _ _ H _ _ _ Hl) as Kl. assert (Hlen : length xs = S (length ys)) by (rewrite Hys, length_app; cbn; lia).
    assert (Hlb : l <> brk h) by (intros ->; apply Hn; by eapply rows_addr). rewrite (store_spec _ l _ _ (eq_trans (lookup_insert_ne _ _ _ _ (not_eq_sym Hlb)) Kl)). cbn [mbind option_bind cells brk]. rewrite (store_spec _ (brk h) _ (Node (new_item ic t i ti) None None)) by (cbn [cells]; rewrite lookup_insert_ne by done; apply lookup_insert_eq). cbn [mbind option_bind cells brk].
    eexists. split; [reflexivity|]. split; [|split; [|split; [done|]]].
    + split; [rewrite Exs; done|done|]. intros j a it Hj. cbn [cells]. destruct (decide (j < length xs)%nat) as [Hlt|Hge].
      * rewrite lookup_app_l in Hj by done. assert (Ha : a <> brk h) by (intros ->; apply Hn; by eapply rows_addr). rewrite lookup_insert_ne by done. pose proof (rows_links _ _ _ H _ _ _ Hj) as K. rewrite !fst_lookup. destruct (decide (a = l)) as [->|Hal].
        -- pose proof (rows_inj _ _ _ _ _ _ _ _ H Hj Hl) as ->. rewrite Hj in Hl. injection Hl as <-. rewrite lookup_insert_eq. unfold with_next. cbn [item prev]. f_equal. f_equal; [destruct (length ys) as [|j'] eqn:Ey; [done|]; by rewrite !fst_lookup, lookup_app_l by lia|].
           rewrite (lookup_app_r xs) by lia. replace (S (length ys) - length xs)%nat with 0%nat by lia. done.
        -- rewrite !lookup_insert_ne by done. rewrite K. f_equal. f_equal; [destruct j as [|j']; [done|]; rewrite !fst_lookup, lookup_app_l by lia; done|]. assert (S j < length xs)%nat; [|by rewrite lookup_app_l, fst_lookup]. destruct (decide (j = length ys)) as [->|]; [|lia]. rewrite Hj in Hl. injection Hl as -> ->. done.
      * assert (j = length xs) as -> by (apply lookup_lt_Some in Hj; rewrite length_app in Hj; cbn in Hj; lia). rewrite lookup_app_r, Nat.sub_diag in Hj by lia. injection Hj as <- <-. rewrite lookup_insert_eq. unfold with_prev. cbn [item next]. f_equal. rewrite Hlen. f_equal.
        -- rewrite fst_lookup, lookup_app_l by lia. by rewrite Hl.
        -- rewrite fst_lookup, lookup_ge_None_2; [done|]. rewrite length_app. cbn. lia.
    + intros a Ha. cbn [cells brk] in *. assert (a <> l) by (intros ->; rewrite (Hh l) in Kl by lia; done). rewrite !lookup_insert_ne by lia. apply Hh. lia.
    + intros a Ha. cbn [cells]. assert (a <> l) by (intros ->; apply Ha; right; by eapply rows_addr). rewrite !lookup_insert_ne by set_solver. done.
Qed.
End Alloc.

(** *** Finding and destroying *)

Lemma find_item_spec h p xs want txt : rows h p xs -> forall n i, (length xs - i <= n)%nat ->
  find_item n h (xs.*1 !! i) want txt = Some (fst <$> List.find (fun r => (id r.2 =? want) && match txt, text r.2 with Some t, Some u => streq u t | _, _ => false end) (drop i xs)).
Proof.
  intros H. induction n as [|n IH]; intros i Hn; rewrite fst_lookup; destruct (xs !! i) as [[a it]|] eqn:Ei; cbn [fmap option_fmap option_map fst find_item].
  - apply lookup_lt_Some in Ei. lia.
  - apply lookup_ge_None in Ei. by rewrite drop_ge.
  - destruct (rows_next _ _ _ _ _ _ H Ei) as (x & -> & Hx & _ & Hit). cbn [mbind option_bind]. rewrite Hit, (drop_S _ _ _ Ei). cbn [List.find snd]. destruct (_ && _); [done|]. rewrite Hx. apply IH. lia.
  - apply lookup_ge_None in Ei. by rewrite drop_ge.
Qed.

(** freeing from [i] on; the nodes behind are still there *)
Lemma destroy_loop_spec h p xs : rows h p xs -> forall n h1 i, (length xs - i <= n)%nat -> (forall j a it, (i <= j)%nat -> xs !! j = Some (a, it) -> cells h1 !! a = cells h !! a) ->
  exists h', destroy_loop n h1 (xs.*1 !! i) = Some h' /\ brk h' = brk h1 /\ forall a, cells h' !! a = if decide (a ∈ drop i xs.*1) then None else cells h1 !! a.
Proof.
  intros H. induction n as [|n IH]; intros h1 i Hn Hf; destruct (xs.*1 !! i) as [a|] eqn:Ei; cbn [destroy_loop].
  - apply lookup_lt_Some in Ei. rewrite length_fmap in Ei. lia.
  - exists h1. split; [done|]. split; [done|]. intros a. apply lookup_ge_None in Ei. rewrite drop_ge by done. by rewrite decide_False by apply not_elem_of_nil.
  - rewrite fst_lookup in Ei. destruct (xs !! i) as [[a' it]|] eqn:Ex; [|done]. injection Ei as ->. destruct (rows_next _ _ _ _ _ _ H Ex) as (x & Hx & Hn' & _). unfold load in *. rewrite (Hf i a it) by done. rewrite Hx. cbn [mbind option_bind]. rewrite Hn'.
    destruct (IH (submenuDestroyItem h1 a) (S i)) as (h' & E & Hb & Hc); [lia| |].
    { intros j b itb Hj Hb. cbn [submenuDestroyItem cells]. rewrite lookup_delete_ne; [apply (Hf j b itb); [lia|done]|]. intros ->. pose proof (rows_inj _ _ _ _ _ _ _ _ H Ex Hb). lia. }
    exists h'. split; [done|]. split; [done|]. intros b. rewrite Hc. cbn [submenuDestroyItem cells]. rewrite (drop_S xs.*1 a i) by (by rewrite fst_lookup, Ex). destruct (decide (b = a)) as [->|Hba].
    + rewrite lookup_delete_eq. rewrite (decide_True (P := a ∈ a :: drop (S i) xs.*1)) by (by left). by case_decide.
    + rewrite lookup_delete_ne by done. destruct (decide (b ∈ drop (S i) xs.*1)) as [Hin|Hin]; [rewrite decide_True by (by right)|rewrite decide_False by (intros [?|?]%elem_of_cons; done)]; done.
  - exists h1. split; [done|]. split; [done|]. intros a. apply lookup_ge_None in Ei. rewrite drop_ge by done. by rewrite decide_False by apply not_elem_of_nil.
Qed.

Lemma destroy_spec h p xs : rows h p xs -> exists h', submenuDestroy h p = Some (h', None) /\ brk h' = brk h /\ forall a, cells h' !! a = if decide (a ∈ xs.*1) then None else cells h !! a.
Proof.
  intros H. unfold submenuDestroy. rewrite (rows_head _ _ _ H). pose proof (rows_fuel _ _ _ H). destruct (destroy_loop_spec h p xs H (fuel h) h 0) as (h' & -> & Hb & Hc); [unfold fuel; lia|done|]. exists h'. done.
Qed.

(** *** Exchanging two rows *)

Lemma store_alter h a f : is_Some (cells h !! a) -> store h a f = Some (Heap (alter f a (cells h)) (brk h)).
Proof. intros [n Hn]. rewrite (store_spec _ _ _ _ Hn). f_equal. f_equal. apply map_eq. intros x. destruct (decide (x = a)) as [->|Hx]; [by rewrite lookup_insert_eq, lookup_alter_eq, Hn|by rewrite lookup_insert_ne, lookup_alter_ne]. Qed.

Definition alter_if (p : option addr) (f : submenu_list -> submenu_list) (m : gmap addr submenu_list) : gmap addr submenu_list := match p with Some a => alter f a m | None => m end.

Lemma store_if_alter h p f : (forall a, p = Some a -> is_Some (cells h !! a)) -> store_if h p f = Some (Heap (alter_if p f (cells h)) (brk h)).
Proof. destruct p as [a|]; cbn; [intros H; by apply store_alter, H|]. by destruct h. Qed.

Lemma alter_some {m : gmap addr submenu_list} {f a x} : is_Some (m !! x) -> is_Some (alter f a m !! x).
Proof. intros H. destruct (decide (x = a)) as [->|Hx]; [rewrite lookup_alter_eq; by apply fmap_is_Some|by rewrite lookup_alter_ne]. Qed.
Lemma alter_if_some {m : gmap addr submenu_list} {f p x} : is_Some (m !! x) -> is_Some (alter_if p f m !! x).
Proof. destruct p; [apply alter_some|done]. Qed.

Lemma lookup_alter_if p f m x : alter_if p f m !! x = if decide (p = Some x) then f <$> m !! x else m !! x.
Proof. destruct p as [a|]; cbn [alter_if]; [|by rewrite decide_False]. destruct (decide (a = x)) as [->|Hx]; [rewrite decide_True by done; apply lookup_alter_eq|rewrite decide_False by congruence; by apply lookup_alter_ne]. Qed.

(** the stores of [swap] *)
Lemma swap_stores h a b xa xb : cells h !! a = Some xa -> cells h !! b = Some xb -> (forall x, prev xa = Some x -> is_Some (cells h !! x)) -> (forall x, next xb = Some x -> is_Some (cells h !! x)) ->
  swap h a b = Some (Heap (alter_if (next xb) (with_prev (Some a)) (alter_if (prev xa) (with_next (Some b)) (alter (with_prev (Some b)) a (alter (with_next (Some a)) b (alter (with_prev (prev xa)) b (alter (with_next (next xb)) a (cells h))))))) (brk h)).
Proof.
  intros Ha Hb Hp Hn. unfold swap, load. rewrite Ha, Hb. cbn [mbind option_bind]. rewrite store_alter by done. cbn [mbind option_bind]. rewrite store_alter by (cbn [cells]; by apply alter_some). cbn [mbind option_bind cells brk]. rewrite store_alter by (cbn [cells]; by do 2 apply alter_some). cbn [mbind option_bind cells brk].
  rewrite store_alter by (cbn [cells]; by do 3 apply alter_some). cbn [mbind option_bind cells brk]. rewrite store_if_alter by (intros x Hx; cbn [cells]; do 4 apply alter_some; by apply Hp). cbn [mbind option_bind cells brk]. rewrite store_if_alter; [done|]. intros x Hx. cbn [cells]. apply alter_if_some. do 4 apply alter_some. by apply Hn.
Qed.

(** after the stores, every node has the links of the new sequence *)
Lemma swap_spec h p l1 a ia b ib l2 : rows h p (l1 ++ (a, ia) :: (b, ib) :: l2) ->
  exists h', swap h a b = Some h' /\ rows h' (if decide (l1 = []) then Some b else p) (l1 ++ (b, ib) :: (a, ia) :: l2) /\ brk h' = brk h /\ only (l1 ++ (a, ia) :: (b, ib) :: l2).*1 h h'.
Proof.
  intros H. set (xs := l1 ++ (a, ia) :: (b, ib) :: l2) in *. set (ys := l1 ++ (b, ib) :: (a, ia) :: l2).
  assert (Hp : ys.*1 ≡ₚ xs.*1) by (unfold xs, ys; rewrite !fmap_app; apply Permutation_app_head; cbn; apply perm_swap). assert (Hd : NoDup ys.*1) by (rewrite Hp; apply (rows_nodup _ _ _ H)).
  assert (Ha : xs !! length l1 = Some (a, ia)) by (unfold xs; by rewrite lookup_app_r, Nat.sub_diag by lia). assert (Hb : xs !! S (length l1) = Some (b, ib)) by (unfold xs; rewrite lookup_app_r by lia; by replace (S (length l1) - length l1)%nat with 1%nat by lia).
  pose proof (rows_links _ _ _ H _ _ _ Ha) as Ka. pose proof (rows_links _ _ _ H _ _ _ Hb) as Kb. cbv beta iota in Kb. rewrite (fst_lookup xs (S (length l1))), Hb in Ka. rewrite (fst_lookup xs (length l1)), Ha in Kb. cbn [fmap option_fmap option_map fst] in Ka, Kb.
  assert (Hab : a <> b) by (intros ->; pose proof (rows_inj _ _ _ _ _ _ _ _ H Ha Hb); lia).
  assert (Hpa : forall j x, length l1 = S j -> xs.*1 !! j = Some x -> x <> a /\ x <> b) by (intros j x El Hj; rewrite fst_lookup in Hj; destruct (xs !! j) as [[x' it]|] eqn:Ej; [|done]; injection Hj as ->; split; intros ->; [pose proof (rows_inj _ _ _ _ _ _ _ _ H Ha Ej)|pose proof (rows_inj _ _ _ _ _ _ _ _ H Hb Ej)]; lia).
  assert (Hnb : forall x, xs.*1 !! S (S (length l1)) = Some x -> x <> a /\ x <> b) by (intros x Hj; rewrite fst_lookup in Hj; destruct (xs !! S (S (length l1))) as [[x' it]|] eqn:Ej; [|done]; injection Hj as ->; split; intros ->; [pose proof (rows_inj _ _ _ _ _ _ _ _ H Ha Ej)|pose proof (rows_inj _ _ _ _ _ _ _ _ H Hb Ej)]; lia).
  assert (Hu : forall j x, xs.*1 !! j = Some x -> is_Some (cells h !! x)) by (intros j x Hj; apply (rows_used _ _ _ _ H); by eapply list_elem_of_lookup_2).
  eexists. split; [apply (swap_stores h a b _ _ Ka Kb); cbn [prev next]; [destruct (length l1); [done|]; apply Hu|apply Hu]|]. cbn [prev next].
  set (pa := match length l1 with O => None | S j => xs.*1 !! j end) in *. set (nb := xs.*1 !! S (S (length l1))) in *. set (c' := alter_if nb _ _).
  assert (Hpa' : forall x, pa = Some x -> x <> a /\ x <> b) by (intros x Hx; unfold pa in Hx; destruct (length l1) as [|j]; [done|]; by eapply Hpa).
  assert (Ca : c' !! a = Some (Node ia (Some b) nb)) by (unfold c'; rewrite !lookup_alter_if, !decide_False by (intros E; first [apply Hnb in E|apply Hpa' in E]; naive_solver); rewrite lookup_alter_eq, !lookup_alter_ne, lookup_alter_eq, Ka by done; done).
  assert (Cb : c' !! b = Some (Node ib pa (Some a))) by (unfold c'; rewrite !lookup_alter_if, !decide_False by (intros E; first [apply Hnb in E|apply Hpa' in E]; naive_solver); rewrite lookup_alter_ne, !lookup_alter_eq, lookup_alter_ne, Kb by done; done).
  assert (Co : forall x, x <> a -> x <> b -> c' !! x = (fun n => Node (item n) (if decide (nb = Some x) then Some a else prev n) (if decide (pa = Some x) then Some b else next n)) <$> cells h !! x).
  { intros x Hxa Hxb. unfold c'. rewrite !lookup_alter_if, !lookup_alter_ne by done. destruct (cells h !! x) as [[it p0 n0]|]; repeat case_decide; done. }
  assert (Hys : forall j, j <> length l1 -> j <> S (length l1) -> ys !! j = xs !! j).
  { intros j H1 H2. unfold ys, xs. destruct (decide (j < length l1)%nat); [by rewrite !lookup_app_l|]. rewrite !lookup_app_r by lia. destruct (j - length l1)%nat as [|[|k]] eqn:E; [lia|lia|done]. }
  assert (Hya : ys !! S (length l1) = Some (a, ia)) by (unfold ys; rewrite lookup_app_r by lia; by replace (S (length l1) - length l1)%nat with 1%nat by lia). assert (Hyb : ys !! length l1 = Some (b, ib)) by (unfold ys; by rewrite lookup_app_r, Nat.sub_diag by lia).
  split; [|split; [done|]].
  - split; [|done|].
    + rewrite fst_lookup. case_decide as E; [unfold ys; by rewrite E|]. rewrite (rows_head _ _ _ H), fst_lookup, Hys; [done| |lia]. destruct l1; [done|cbn; lia].
    + intros i x it Hi. cbn [cells]. destruct (decide (i = length l1)) as [->|Hi1]; [|destruct (decide (i = S (length l1))) as [->|Hi2]].
      * rewrite Hyb in Hi. injection Hi as <- <-. rewrite Cb, (fst_lookup ys (S _)), Hya. f_equal. f_equal. unfold pa. destruct (length l1) as [|j]; [done|]. rewrite !fst_lookup, Hys by lia. done.
      * rewrite Hya in Hi. injection Hi as <- <-. rewrite Ca, (fst_lookup ys (length l1)), Hyb. f_equal. f_equal. unfold nb. rewrite !fst_lookup, Hys by lia. done.
      * rewrite Hys in Hi by done. assert (Hxa : x <> a) by (intros ->; pose proof (rows_inj _ _ _ _ _ _ _ _ H Ha Hi); lia). assert (Hxb : x <> b) by (intros ->; pose proof (rows_inj _ _ _ _ _ _ _ _ H Hb Hi); lia).
        rewrite (Co x Hxa Hxb), (rows_links _ _ _ H _ _ _ Hi). cbn [fmap option_fmap option_map item prev next]. f_equal. f_equal.
        -- destruct (decide (i = S (S (length l1)))) as [->|Hi3]; [unfold nb; rewrite !fst_lookup, Hi, Hya; by rewrite decide_True|]. rewrite decide_False; [destruct i as [|i]; [done|]; rewrite !fst_lookup, Hys by lia; done|]. unfold nb. rewrite fst_lookup. intros E. destruct (xs !! S (S (length l1))) as [[x' it']|] eqn:Ex; [|done]. injection E as ->. by pose proof (rows_inj _ _ _ _ _ _ _ _ H Hi Ex).
        -- destruct (decide (S i = length l1)) as [E|Hi3]; [unfold pa; rewrite <- E, (fst_lookup xs i), Hi, decide_True by done; by rewrite fst_lookup, E, Hyb|]. rewrite decide_False; [rewrite !fst_lookup, Hys by lia; done|]. unfold pa. intros E. destruct (length l1) as [|j] eqn:El; [done|]. rewrite fst_lookup in E. destruct (xs !! j) as [[x' it']|] eqn:Ex; [|done]. injection E as ->. pose proof (rows_inj _ _ _ _ _ _ _ _ H Hi Ex). lia.
  - intros x Hx. cbn [cells]. rewrite Co by (intros ->; apply Hx; by eapply rows_addr). assert (Hno : forall j, xs.*1 !! j <> Some x) by (intros j Hj; apply Hx; by eapply list_elem_of_lookup_2).
    destruct (cells h !! x) as [[it0 p0 n0]|]; [|done]. cbn [fmap option_fmap option_map item prev next]. rewrite !decide_False; [done| |apply Hno]. unfold pa. destruct (length l1); [done|apply Hno].
Qed.

(** *** The sort *)

Section SortProofs.
Context (shown_text : submenu_item -> option bytes).

Definition wrong (x y : addr * submenu_item) : bool := match menu_cmp shown_text x.2 y.2 with Some c => 0 <? c | None => false end.
(** every row has a title to compare *)
Definition titled (xs : list (addr * submenu_item)) : Prop := Forall (fun r => is_Some (shown_text r.2)) xs.

Lemma titled_perm {xs ys} : ys ≡ₚ xs -> titled xs -> titled ys.
Proof. intros Hp H. unfold titled in *. by rewrite Hp. Qed.

Lemma titled_cmp xs x y : titled xs -> x ∈ xs -> y ∈ xs -> exists c, menu_cmp shown_text x.2 y.2 = Some c /\ (0 <? c) = wrong x y.
Proof.
  intros Ht Hx Hy. unfold titled in Ht. rewrite Forall_forall in Ht. destruct (Ht x Hx) as [t Et], (Ht y Hy) as [u Eu]. unfold wrong, menu_cmp. destruct (negb _); [by eexists|]. rewrite Et, Eu. cbn [mbind option_bind]. by eexists.
Qed.

Lemma sort_pass_spec n : forall h l1 x l2 head sorted, (length l2 < n)%nat -> titled (l1 ++ x :: l2) -> rows h (Some head) (l1 ++ x :: l2) ->
  exists h' head', sort_pass shown_text n h head x.1 sorted = Some (h', head', sorted && negb (bubble wrong x l2).2) /\
    rows h' (Some head') (l1 ++ (bubble wrong x l2).1) /\ brk h' = brk h /\ only (l1 ++ x :: l2).*1 h h'.
Proof.
  induction n as [|n IH]; intros h l1 x l2 head sorted Hn Ht H; [lia|]. cbn [sort_pass].
  assert (Hx : (l1 ++ x :: l2) !! length l1 = Some x) by (by rewrite lookup_app_r, Nat.sub_diag by lia). destruct x as [a ia]. cbn [fst] in *. destruct (rows_next _ _ _ _ _ _ H Hx) as (na & Hna & Hnn & _ & Hia). rewrite Hna. cbn [mbind option_bind]. rewrite Hnn, fst_lookup.
  destruct l2 as [|[b ib] l2].
  - rewrite (lookup_ge_None_2 _ (S (length l1))) by (rewrite length_app; cbn; lia). cbn [fmap option_fmap option_map bubble snd fst negb]. rewrite andb_true_r. exists h, head. done.
  - assert (Hy : (l1 ++ (a, ia) :: (b, ib) :: l2) !! S (length l1) = Some (b, ib)) by (rewrite lookup_app_r by lia; by replace (S (length l1) - length l1)%nat with 1%nat by lia). rewrite Hy. cbn [fmap option_fmap option_map fst].
    destruct (rows_next _ _ _ _ _ _ H Hy) as (nb & -> & _ & _ & Hib). cbn [mbind option_bind]. rewrite Hia, Hib.
    destruct (titled_cmp _ (a, ia) (b, ib) Ht) as (c & Ec & Hc); [set_solver|set_solver|]. cbn [snd] in Ec. rewrite Ec. cbn [mbind option_bind]. rewrite Hc. cbn [bubble]. destruct (wrong (a, ia) (b, ib)); cbn [fst snd negb].
    + destruct (swap_spec _ _ _ _ _ _ _ _ H) as (h1 & -> & H1 & Hb1 & Ho1). cbn [mbind option_bind].
      assert (Eh : (if decide (l1 = []) then Some b else Some head) = Some (if (a =? head)%nat then b else head)).
      { pose proof (rows_head _ _ _ H) as Hh. rewrite fst_lookup in Hh. case_decide as E; [subst l1; cbn in Hh; injection Hh as ->; by rewrite Nat.eqb_refl|]. destruct (Nat.eqb_spec a head) as [->|]; [|done]. destruct l1 as [|r l1]; [done|]. cbn in Hh. injection Hh as Hh. destruct r as [r0 r1]. cbn in Hh. subst r0. pose proof (rows_inj _ _ _ 0 _ _ r1 _ H eq_refl Hx) as E0. cbn in E0. lia. }
      rewrite Eh in H1. destruct (IH h1 (l1 ++ [(b, ib)]) (a, ia) l2 (if (a =? head)%nat then b else head) false) as (h2 & head2 & E2 & H2 & Hb2 & Ho2); [cbn in Hn; lia| |by rewrite <- app_assoc|].
      { rewrite <- app_assoc. refine (titled_perm _ Ht). apply Permutation_app_head. apply perm_swap. }
      cbn [fst] in E2. exists h2, head2. split; [rewrite E2; by destruct sorted|]. split; [by rewrite <- app_assoc in H2|]. split; [congruence|]. intros y Hyn. rewrite Ho2; [by apply Ho1|]. rewrite <- app_assoc. intros Hin. apply Hyn. rewrite !fmap_app in *. cbn in *. set_solver.
    + destruct (IH h (l1 ++ [(a, ia)]) (b, ib) l2 head sorted) as (h2 & head2 & E2 & H2 & Hb2 & Ho2); [cbn in Hn; lia|by rewrite <- app_assoc|by rewrite <- app_assoc|]. exists h2, head2. split; [done|]. split; [by rewrite <- app_assoc in H2|]. split; [done|]. by rewrite <- app_assoc in Ho2.
Qed.

(** the order that is reached: no two rows side by side in the wrong order *)
Definition in_order (xs : list (addr * submenu_item)) : Prop := Sorted (fun x y => wrong x y = false) xs.

Context (Hanti : forall x y, wrong x y = true -> wrong y x = false).

Lemma sort_loop_spec {K} (key : addr * submenu_item -> K) `{!EqDecision K} (Hk : forall x y, wrong x y = true -> key x <> key y) n : forall h head xs, (inversions wrong xs < n)%nat -> titled xs -> rows h (Some head) xs ->
  exists h' head' ys, sort_loop shown_text n h head = Some (h', head') /\ rows h' (Some head') ys /\ ys ≡ₚ xs /\ in_order ys /\ (forall k, base.filter (fun y => key y = k) ys = base.filter (fun y => key y = k) xs) /\ brk h' = brk h /\ only xs.*1 h h'.
Proof.
  induction n as [|n IH]; intros h head xs Hn Ht H; [lia|]. cbn [sort_loop]. destruct xs as [|x l]; [by pose proof (rows_head _ _ _ H)|].
  assert (E : x.1 = head) by (pose proof (rows_head _ _ _ H) as Hh; cbn in Hh; congruence). replace (sort_pass shown_text (fuel h) h head head true) with (sort_pass shown_text (fuel h) h head x.1 true) by (by rewrite E).
  destruct (sort_pass_spec (fuel h) h [] x l head true) as (h1 & head1 & -> & H1 & Hb1 & Ho1); [pose proof (rows_fuel _ _ _ H) as Hf; cbn in Hf; unfold fuel; lia|done|done|]. cbn [mbind option_bind andb app] in *.
  destruct (bubble wrong x l).2 eqn:Eb; cbn [negb].
  - pose proof (bubble_perm wrong l x) as Hp. destruct (IH h1 head1 (bubble wrong x l).1) as (h2 & head2 & ys & E2 & H2 & Hp2 & Hs & Hst & Hb2 & Ho2); [pose proof (proj2 (bubble_inversions wrong Hanti l x) Eb); lia|by apply (titled_perm Hp)|done|].
    exists h2, head2, ys. split; [done|]. split; [done|]. split; [by rewrite Hp2|]. split; [done|]. split; [intros k; rewrite Hst; by apply bubble_stable|]. split; [congruence|]. intros y Hy. rewrite Ho2; [by apply Ho1|]. by rewrite Hp.
  - destruct (bubble_done wrong l x Eb) as [E1 Hs]. rewrite E1 in H1. exists h1, head1, (x :: l). done.
Qed.

Lemma submenuSort_spec {K} (key : addr * submenu_item -> K) `{!EqDecision K} (Hk : forall x y, wrong x y = true -> key x <> key y) h p xs : titled xs -> rows h p xs ->
  exists h' p' ys, submenuSort shown_text h p = Some (h', p') /\ rows h' p' ys /\ ys ≡ₚ xs /\ in_order ys /\ (forall k, base.filter (fun y => key y = k) ys = base.filter (fun y => key y = k) xs) /\ brk h' = brk h /\ only xs.*1 h h'.
Proof.
  intros Ht H. unfold submenuSort. pose proof (rows_head _ _ _ H) as Hh. destruct p as [head|]; [|destruct xs; [|done]; exists h, None, []; repeat split; try done; constructor].
  destruct xs as [|[a it] l]; [done|]. injection Hh as ->. destruct (rows_next _ _ _ 0 _ _ H eq_refl) as (x & -> & Hx & _). cbn [mbind option_bind]. rewrite Hx, fst_lookup. destruct l as [|y l]; cbn [lookup list_lookup fmap option_fmap option_map].
  - exists h, (Some a), [(a, it)]. repeat split; try done; try apply H. repeat constructor.
  - destruct (sort_loop_spec key Hk (S (size (cells h) * size (cells h))) h a ((a, it) :: y :: l)) as (h' & head' & ys & -> & R); [|done|done|].
    + pose proof (inversions_bound wrong ((a, it) :: y :: l)) as Hi. pose proof (rows_fuel _ _ _ H) as Hf. pose proof (Nat.mul_le_mono _ _ _ _ Hf Hf). lia.
    + cbn [mbind option_bind]. exists h', (Some head'), ys. done.
Qed.
End SortProofs.
