(* ===== verification/MenuPage.v ===== *)
(** * MenuPage: the page of a device and its keys (src/menusys.c, src/gui.c, src/opl.c)

    A page shows the rows of SubMenu with a cursor and the row its visible part starts at. The
    keys move both; the operations queued by the worker append, clear and sort the rows; a
    rebuild queues the rows of the list anew and finds the cursor again. *)
From Stdlib Require Import Sorting.Sorted.
From S2P Require Import Prelude CLib ConfigStore LibView Ps1Names Ps1List FavList SubMenu.

(** ** Data *)

(** the menu item of a device with the list of its module ([p_subMenu], the owner of the rows),
    and the flag that stops the automatic start of the last game *)
Record page := Page {
  p_heap : heap; p_subMenu : option addr;
  p_submenu : option addr; p_current : option addr; p_pagestart : option addr; p_last : option addr;
  p_remindLast : bool; p_DisableCron : bool;
}.

Definition set_cursor (current pagestart : option addr) (pg : page) : page :=
  Page (p_heap pg) (p_subMenu pg) (p_submenu pg) current pagestart (p_last pg) (p_remindLast pg) (p_DisableCron pg).

(** ** The keys *)

Section Keys.
(** [displayedItems] of the theme *)
Context (displayedItems : Z).

(** [while (--itms && cur->prev) cur = cur->prev] *)
Fixpoint back_loop (n : nat) (h : heap) (itms : Z) (cur : addr) : option addr :=
  match n with
  | O => None
  | S n =>
    let itms := itms - 1 in
    if itms =? 0 then Some cur else x ← load h cur; match prev x with Some p => back_loop n h itms p | None => Some cur end
  end.
Fixpoint forward_loop (n : nat) (h : heap) (itms : Z) (cur : addr) : option addr :=
  match n with
  | O => None
  | S n =>
    let itms := itms - 1 in
    if itms =? 0 then Some cur else x ← load h cur; match SubMenu.next x with Some p => forward_loop n h itms p | None => Some cur end
  end.
(** is the cursor among the rows of the page that starts at [cur] *)
Fixpoint on_page (n : nat) (h : heap) (itms : Z) (current cur : option addr) : option bool :=
  match n with
  | O => None
  | S n =>
    let itms := itms - 1 in
    match cur with
    | Some a => if itms =? 0 then Some false else if bool_decide (current = cur) then Some true else x ← load h a; on_page n h itms current (SubMenu.next x)
    | None => Some false
    end
  end.
(** [while (n-- && probe) probe = probe->next] *)
Fixpoint probe_loop (f : nat) (h : heap) (n : Z) (probe : option addr) : option (option addr) :=
  match f with
  | O => None
  | S f => if n =? 0 then Some probe else match probe with Some a => x ← load h a; probe_loop f h (n - 1) (SubMenu.next x) | None => Some None end
  end.

Definition menuFirstPage (pg : page) : option page :=
  match p_current pg with None => Some pg | Some _ => Some (set_cursor (p_submenu pg) (p_submenu pg) pg) end.

Definition menuLastPage (pg : page) : option page :=
  match p_current pg with
  | None => Some pg
  | Some cur =>
    cur ← find_tail (fuel (p_heap pg)) (p_heap pg) cur;
    ps ← back_loop (fuel (p_heap pg)) (p_heap pg) displayedItems cur;
    Some (set_cursor (Some cur) (Some ps) pg)
  end.

(** the field [next] or [prev] of the cursor, where there is one *)
Definition beside (f : submenu_list -> option addr) (pg : page) : option (option addr) :=
  match p_current pg with None => Some None | Some cur => x ← load (p_heap pg) cur; Some (f x) end.

Definition menuNextV (pg : page) : option page :=
  nx ← beside SubMenu.next pg;
  match nx with
  | None => menuFirstPage pg
  | Some _ =>
    let pg := set_cursor nx (p_pagestart pg) pg in
    found ← on_page (S (fuel (p_heap pg))) (p_heap pg) (displayedItems + 1) (p_current pg) (p_pagestart pg);
    Some (if (found : bool) then pg else set_cursor (p_current pg) (p_current pg) pg)
  end.

Definition menuPrevV (pg : page) : option page :=
  pv ← beside SubMenu.prev pg;
  match pv with
  | None => menuLastPage pg
  | Some _ =>
    let cur := p_current pg in
    let pg := set_cursor pv (p_pagestart pg) pg in
    match p_pagestart pg with
    | Some ps => if bool_decide (Some ps = cur) then ps ← back_loop (fuel (p_heap pg)) (p_heap pg) (displayedItems + 1) ps; Some (set_cursor pv (Some ps) pg) else Some pg
    | None => Some pg
    end
  end.

Definition menuNextPage (pg : page) : option page :=
  probe ← probe_loop (S (fuel (p_heap pg))) (p_heap pg) displayedItems (p_pagestart pg);
  match p_pagestart pg, probe with
  | Some cur, Some _ => cur ← forward_loop (fuel (p_heap pg)) (p_heap pg) (displayedItems + 1) cur; Some (set_cursor (Some cur) (Some cur) pg)
  | _, _ => Some pg
  end.

Definition menuPrevPage (pg : page) : option page :=
  match p_pagestart pg with
  | None => menuLastPage pg
  | Some cur =>
    x ← load (p_heap pg) cur;
    match prev x with
    | None => menuLastPage pg
    | Some _ => cur ← back_loop (fuel (p_heap pg)) (p_heap pg) (displayedItems + 1) cur; Some (set_cursor (Some cur) (Some cur) pg)
    end
  end.

(** the moves, whichever keys the theme gives them (a cover flow is turned sideways) *)
Inductive key := Down | Up | PageDown | PageUp | Home | End.
Definition press (pg : page) (k : key) : option page :=
  match k with Down => menuNextV pg | Up => menuPrevV pg | PageDown => menuNextPage pg | PageUp => menuPrevPage pg | Home => menuFirstPage pg | End => menuLastPage pg end.
End Keys.

(** ** The operations of the worker ([guiHandleOp]) *)

Section Ops.
Context (gameCacheCount : nat) (gAutoStartLastPlayed KeyPressedOnce : bool).
(** the strings of the language, the setting that hides ids, and the list of the page *)
Context (lang_strs : list bytes) (gVcdHideGameId : bool) (s : libview) (support : option FavList.support).

Definition submenuItemGetText (it : submenu_item) : option bytes := if 0 <=? text_id it then lang_strs !! Z.to_nat (text_id it) else text it.

Definition vcdDisplayNameForRow (id : Z) (text : option bytes) : option bytes :=
  match text with
  | None => None
  | Some t => if negb gVcdHideGameId || bool_decide (support = None) || negb ((libListRowView s support id).1 =? LIB_VIEW_PS1) then text else Some (drop (vcdGameIdPrefixLen t) t)
  end.
(** what the sort compares *)
Definition sort_text (it : submenu_item) : option bytes :=
  let raw := submenuItemGetText it in
  if isFolder it then raw else vcdDisplayNameForRow (id it) raw.

Inductive gui_op := AppendMenu (icon_id : Z) (text : option bytes) (id text_id : Z) (selected isFolder : bool) | ClearSubmenu | Sort.

(** the row that was appended is marked as a folder *)
Definition set_folder (b : bool) (n : submenu_list) : submenu_list :=
  let it := item n in with_item (Item (icon_id it) (text it) (text_id it) (id it) (cache_id it) (cache_uid it) (favourited it) b) n.

Definition guiHandleOp (pg : page) (op : gui_op) : option page :=
  match op with
  | AppendMenu icon text id text_id selected isFolder =>
    '(h, sub, result) ← submenuAppendItem gameCacheCount (p_heap pg) (p_subMenu pg) icon text id text_id;
    h ← store h result (set_folder isFolder);
    let r := Some result in
    let '(submenu, current, pagestart) :=
      match p_submenu pg with
      | None => if negb selected then (r, r, r) else (r, p_current pg, p_pagestart pg)
      | Some _ => (p_submenu pg, p_current pg, p_pagestart pg)
      end in
    Some (if (selected : bool) then Page h sub submenu r r r true (if gAutoStartLastPlayed && negb KeyPressedOnce then false else p_DisableCron pg)
          else Page h sub submenu current pagestart r (p_remindLast pg) (p_DisableCron pg))
  | ClearSubmenu => '(h, sub) ← submenuDestroy (p_heap pg) (p_subMenu pg); Some (Page h sub None None None None (p_remindLast pg) (p_DisableCron pg))
  | Sort =>
    '(h, sub) ← submenuSort sort_text (p_heap pg) (p_subMenu pg);
    tail ← match sub with None => Some None | Some a => t ← find_tail (fuel h) h a; Some (Some t) end;
    let current := if p_remindLast pg then p_current pg else sub in
    Some (Page h sub sub current current tail (p_remindLast pg) (p_DisableCron pg))
  end.

(** [guiHandleDeferredOps]: the queue is emptied in order *)
Fixpoint guiHandleDeferredOps (pg : page) (queue : list gui_op) : option page :=
  match queue with [] => Some pg | op :: queue => pg ← guiHandleOp pg op; guiHandleDeferredOps pg queue end.
End Ops.

(** ** The rebuild (src/opl.c) *)

Definition clearMenuGameList (pg : page) : option page :=
  match p_subMenu pg with
  | None => Some pg
  | Some _ => '(h, sub) ← submenuDestroy (p_heap pg) (p_subMenu pg); Some (Page h sub None None None None false (p_DisableCron pg))
  end.

(** what the list of the device answers once it was updated: the number of its items, and of
    each the name, the startup name and whether it is a folder *)
Record source := { src_count : Z; src_name : Z -> option bytes; src_startup : Z -> option bytes; src_folder : Z -> bool }.

Definition keep_size : nat := 128.
(** [keepStartup]: the startup name of the row under the cursor, empty without one *)
Definition kept_startup (startup : Z -> option bytes) (pg : page) : option bytes :=
  match p_current pg with
  | None => Some []
  | Some a => x ← load (p_heap pg) a; Some (if isFolder (item x) then [] else match startup (id (item x)) with Some s => bufcpy keep_size s | None => [] end)
  end.

Section Rebuild.
Context (gEnableFolderNav folderMode gRememberLastPlayed gAutosort : bool) (last_played : option bytes).

Definition row_selected (keep : bytes) (src : source) (i : Z) : bool :=
  match src_startup src i with
  | Some st => (negb (bool_decide (keep = [])) && streq keep st) || (bool_decide (keep = []) && gRememberLastPlayed && match last_played with Some t => streq t st | None => false end)
  | None => false
  end.
Definition row_op (keep : bytes) (src : source) (i : Z) : gui_op :=
  let isFolderRow := folderMode && src_folder src i in
  AppendMenu (-1) (src_name src i) i (-1) (if isFolderRow then false else row_selected keep src i) isFolderRow.

(** the rows in the order they are queued: folders first where folders are browsed *)
Definition passes (src : source) : list Z :=
  let ids := map Z.of_nat (seq 0 (Z.to_nat (src_count src))) in
  if gEnableFolderNav && folderMode then base.filter (fun i => src_folder src i = true) ids ++ base.filter (fun i => src_folder src i = false) ids else ids.

Definition queued (keep : bytes) (src : source) : list gui_op :=
  (if 0 <? src_count src then map (row_op keep src) (passes src) else []) ++ (if gAutosort then [Sort] else []).

(** [updateMenuFromGameList] from the rows on; [startup] is the list before its update *)
Definition updateMenuFromGameList (startup : Z -> option bytes) (src : source) (pg : page) : option (page * list gui_op) :=
  keep ← kept_startup startup pg;
  pg ← clearMenuGameList pg;
  Some (pg, queued keep src).
End Rebuild.

(** ** Lemmas *)

(** the page shows the rows [xs] with the cursor on row [c] and row [p] at the top of the visible
    part, which the cursor is in *)
Record shows (displayedItems : Z) (pg : page) (xs : list (addr * submenu_item)) (c p : nat) : Prop := {
  sh_rows : rows (p_heap pg) (p_subMenu pg) xs;
  sh_heap : heap_ok (p_heap pg);
  sh_submenu : p_submenu pg = p_subMenu pg;
  sh_last : p_last pg = last xs.*1;
  sh_current : p_current pg = xs.*1 !! c;
  sh_pagestart : p_pagestart pg = xs.*1 !! p;
  sh_on_page : xs = [] \/ (c < length xs)%nat /\ (p <= c)%nat /\ Z.of_nat c < Z.of_nat p + displayedItems;
}.

Section Walks.
Context {h : heap} {hd : option addr} {xs : list (addr * submenu_item)} (H : rows h hd xs).

Lemma addr_row i a : xs.*1 !! i = Some a -> exists it, xs !! i = Some (a, it).
Proof. rewrite fst_lookup. intros E. destruct (xs !! i) as [[a' it]|]; [|done]. injection E as ->. by exists it. Qed.

Lemma load_addr i a : xs.*1 !! i = Some a -> exists x, load h a = Some x /\ SubMenu.next x = xs.*1 !! S i /\ prev x = match i with O => None | S j => xs.*1 !! j end.
Proof. intros E. destruct (addr_row i a E) as [it Ei]. destruct (rows_next _ _ _ _ _ _ H Ei) as (x & H1 & H2 & H3 & _). by exists x. Qed.

Lemma addr_inj i j a : xs.*1 !! i = Some a -> xs.*1 !! j = Some a -> i = j.
Proof. intros Hi Hj. eapply NoDup_lookup; [apply (rows_nodup _ _ _ H)|exact Hi|exact Hj]. Qed.

Lemma back_loop_spec n : forall itms i a, xs.*1 !! i = Some a -> 1 <= itms -> (i < n)%nat -> back_loop n h itms a = xs.*1 !! (i - Z.to_nat (itms - 1))%nat.
Proof.
  induction n as [|n IH]; intros itms i a Ha Hi Hn; [lia|]. cbn [back_loop]. destruct (Z.eqb_spec (itms - 1) 0) as [E|E]; [by rewrite E, Nat.sub_0_r|]. destruct (load_addr i a Ha) as (x & -> & _ & Hp). cbn [mbind option_bind]. rewrite Hp. destruct i as [|j].
  - by replace (0 - Z.to_nat (itms - 1))%nat with 0%nat by lia.
  - destruct (xs.*1 !! j) as [b|] eqn:Eb; [|apply lookup_lt_Some in Ha; apply lookup_ge_None in Eb; lia]. rewrite (IH (itms - 1) j b Eb) by lia. f_equal. lia.
Qed.

Lemma forward_loop_spec n : forall itms i a, xs.*1 !! i = Some a -> 1 <= itms -> (length xs <= i + n)%nat -> forward_loop n h itms a = xs.*1 !! (Nat.min (i + Z.to_nat (itms - 1)) (length xs - 1))%nat.
Proof.
  induction n as [|n IH]; intros itms i a Ha Hi Hn; apply lookup_lt_Some in Ha as Hl; rewrite length_fmap in Hl; [lia|]. cbn [forward_loop]. destruct (Z.eqb_spec (itms - 1) 0) as [E|E]; [rewrite E, Nat.add_0_r, Nat.min_l by lia; done|]. destruct (load_addr i a Ha) as (x & -> & Hx & _). cbn [mbind option_bind]. rewrite Hx. destruct (xs.*1 !! S i) as [b|] eqn:Eb.
  - rewrite (IH (itms - 1) (S i) b Eb) by lia. f_equal. lia.
  - apply lookup_ge_None in Eb. rewrite length_fmap in Eb. replace (Nat.min _ _) with i by lia. done.
Qed.

Lemma on_page_spec n : forall itms p c, (c < length xs)%nat -> (p <= c)%nat -> 1 <= itms -> (length xs < p + n)%nat -> on_page n h itms (xs.*1 !! c) (xs.*1 !! p) = Some (bool_decide (Z.of_nat c < Z.of_nat p + itms - 1)).
Proof.
  induction n as [|n IH]; intros itms p c Hc Hp Hi Hn; [lia|]. cbn [on_page]. destruct (xs.*1 !! p) as [a|] eqn:Ea; [|apply lookup_ge_None in Ea; rewrite length_fmap in Ea; lia]. destruct (Z.eqb_spec (itms - 1) 0) as [E|E]; [rewrite bool_decide_eq_false_2 by lia; done|]. case_bool_decide as Ec.
  - assert (c = p) as -> by (by eapply addr_inj). rewrite bool_decide_eq_true_2 by lia. done.
  - destruct (load_addr p a Ea) as (x & -> & Hx & _). cbn [mbind option_bind]. assert (p <> c) by (intros ->; congruence). rewrite Hx, IH by lia. f_equal. apply bool_decide_ext. lia.
Qed.

Lemma probe_spec f : forall n p, 0 <= n -> (0 < f)%nat -> (length xs < p + f)%nat -> probe_loop f h n (xs.*1 !! p) = Some (xs.*1 !! (p + Z.to_nat n)%nat).
Proof.
  induction f as [|f IH]; intros n p Hn H0 Hf; [lia|]. cbn [probe_loop]. destruct (Z.eqb_spec n 0) as [->|E]; [by rewrite Nat.add_0_r|]. destruct (xs.*1 !! p) as [a|] eqn:Ea.
  - destruct (load_addr p a Ea) as (x & -> & Hx & _). cbn [mbind option_bind]. apply lookup_lt_Some in Ea. rewrite length_fmap in Ea. rewrite Hx, IH by lia. do 2 f_equal. lia.
  - apply lookup_ge_None in Ea. by rewrite lookup_ge_None_2 by lia.
Qed.

Lemma tail_spec c a : xs.*1 !! c = Some a -> find_tail (fuel h) h a = xs.*1 !! (length xs - 1)%nat.
Proof. intros Ha. destruct (addr_row c a Ha) as [it Ei]. pose proof (rows_fuel _ _ _ H). rewrite (find_tail_spec h hd xs _ H c a it Ei) by (unfold fuel; lia). rewrite last_lookup, length_fmap. f_equal. lia. Qed.
End Walks.

(** a pointer to a row that is there *)
Lemma addr_there (xs : list (addr * submenu_item)) i : (i < length xs)%nat -> exists a, xs.*1 !! i = Some a.
Proof. intros Hi. destruct (xs.*1 !! i) as [a|] eqn:E; [by exists a|]. apply lookup_ge_None in E. rewrite length_fmap in E. lia. Qed.

Section KeySpecs.
Context (d : Z) (Hd : 1 <= d).

(** where the cursor and the top of the page go, of [n] rows *)
Definition last_top (n : nat) : nat := (n - Z.to_nat d)%nat.
Definition moved (n c p : nat) (k : key) : nat * nat :=
  match k with
  | Down => if (S c <? n)%nat then (S c, if Z.of_nat (S c) <? Z.of_nat p + d then p else S c) else (0, 0)%nat
  | Up => match c with O => (n - 1, last_top n)%nat | S c' => (c', if (p =? c)%nat then (p - Z.to_nat d)%nat else p) end
  | PageDown => if (p + Z.to_nat d <? n)%nat then (p + Z.to_nat d, p + Z.to_nat d)%nat else (c, p)
  | PageUp => match p with O => (n - 1, last_top n)%nat | S _ => (p - Z.to_nat d, p - Z.to_nat d)%nat end
  | Home => (0, 0)%nat
  | End => (n - 1, last_top n)%nat
  end.

Lemma moved_on_page n c p k : (c < n)%nat -> (p <= c)%nat -> Z.of_nat c < Z.of_nat p + d -> let '(c', p') := moved n c p k in (c' < n)%nat /\ (p' <= c')%nat /\ Z.of_nat c' < Z.of_nat p' + d.
Proof.
  intros Hc Hp Hq. destruct k; cbn [moved].
  - destruct (Nat.ltb_spec (S c) n); [|lia]. destruct (Z.ltb_spec (Z.of_nat (S c)) (Z.of_nat p + d)); lia.
  - destruct c as [|c]; [unfold last_top; lia|]. destruct (Nat.eqb_spec p (S c)); lia.
  - destruct (Nat.ltb_spec (p + Z.to_nat d) n); lia.
  - destruct p; unfold last_top; lia.
  - lia.
  - unfold last_top; lia.
Qed.

Lemma set_cursor_shows pg xs c p c' p' : shows d pg xs c p -> xs <> [] -> (c' < length xs)%nat -> (p' <= c')%nat -> Z.of_nat c' < Z.of_nat p' + d -> shows d (set_cursor (xs.*1 !! c') (xs.*1 !! p') pg) xs c' p'.
Proof. intros [H1 H2 H3 H4 H5 H6 _] Hx Hc Hp Hq. split; cbn; try done. by right. Qed.

Lemma last_page_spec pg xs c p : shows d pg xs c p -> xs <> [] -> menuLastPage d pg = Some (set_cursor (xs.*1 !! (length xs - 1)%nat) (xs.*1 !! last_top (length xs)) pg).
Proof.
  intros H Hx. destruct (sh_on_page _ _ _ _ _ H) as [?|(Hc & _)]; [done|]. unfold menuLastPage. rewrite (sh_current _ _ _ _ _ H). destruct (addr_there xs c Hc) as [a Ea]. rewrite Ea. pose proof (sh_rows _ _ _ _ _ H) as Hr. rewrite (tail_spec Hr c a Ea).
  destruct (addr_there xs (length xs - 1)) as [l El]; [lia|]. rewrite El. cbn [mbind option_bind]. pose proof (rows_fuel _ _ _ Hr). rewrite (back_loop_spec Hr _ d _ l El) by (unfold fuel; lia). destruct (addr_there xs (last_top (length xs))) as [t Et]; [unfold last_top; lia|].
  replace (length xs - 1 - Z.to_nat (d - 1))%nat with (last_top (length xs)) by (unfold last_top; lia). rewrite Et. done.
Qed.

(** the loops of the keys compute [moved] *)
Lemma key_spec pg xs c p k : shows d pg xs c p -> xs <> [] -> press d pg k = Some (let '(c', p') := moved (length xs) c p k in set_cursor (xs.*1 !! c') (xs.*1 !! p') pg).
Proof.
  intros H Hx. destruct (sh_on_page _ _ _ _ _ H) as [?|(Hc & Hp & Hq)]; [done|]. pose proof (sh_rows _ _ _ _ _ H) as Hr. pose proof (rows_fuel _ _ _ Hr) as Hf. assert (Hfirst : menuFirstPage pg = Some (set_cursor (xs.*1 !! 0%nat) (xs.*1 !! 0%nat) pg)).
  { unfold menuFirstPage. rewrite (sh_current _ _ _ _ _ H). destruct (addr_there xs c Hc) as [a ->]. by rewrite (sh_submenu _ _ _ _ _ H), (rows_head _ _ _ Hr). }
  assert (Hlast := last_page_spec pg xs c p H Hx). assert (Hself : set_cursor (xs.*1 !! c) (xs.*1 !! p) pg = pg) by (rewrite <- (sh_current _ _ _ _ _ H), <- (sh_pagestart _ _ _ _ _ H); by destruct pg).
  destruct (addr_there xs c Hc) as [a Ea]. destruct (load_addr Hr c a Ea) as (x & Ex & Hnx & Hpv). destruct (addr_there xs p) as [b Eb]; [lia|]. destruct (load_addr Hr p b Eb) as (y & Ey & _ & Hpy).
  destruct k; cbn [press moved]; [| | | |done|done].
  - unfold menuNextV, beside. rewrite (sh_current _ _ _ _ _ H), Ea, Ex. cbn [mbind option_bind]. rewrite Hnx. destruct (Nat.ltb_spec (S c) (length xs)) as [Hl|Hl]; [|rewrite lookup_ge_None_2 by (rewrite length_fmap; lia); done]. destruct (addr_there xs (S c) Hl) as [n En]. rewrite En.
    cbn [set_cursor p_heap p_current p_pagestart]. rewrite (sh_pagestart _ _ _ _ _ H), <- En, (on_page_spec Hr) by (unfold fuel; lia). cbn [mbind option_bind].
    replace (Z.of_nat p + (d + 1) - 1) with (Z.of_nat p + d) by lia. destruct (Z.ltb_spec (Z.of_nat (S c)) (Z.of_nat p + d)); [rewrite bool_decide_eq_true_2 by done|rewrite bool_decide_eq_false_2 by lia]; rewrite ?(sh_pagestart _ _ _ _ _ H); done.
  - unfold menuPrevV, beside. rewrite (sh_current _ _ _ _ _ H), Ea, Ex. cbn [mbind option_bind]. rewrite Hpv. destruct c as [|c]; [done|]. destruct (addr_there xs c) as [n En]; [lia|]. rewrite En. cbn [set_cursor p_heap p_current p_pagestart]. rewrite (sh_pagestart _ _ _ _ _ H), Eb.
    destruct (Nat.eqb_spec p (S c)) as [->|Hpc].
    + rewrite Eb in Ea. injection Ea as ->. rewrite bool_decide_eq_true_2 by done. rewrite (back_loop_spec Hr _ (d + 1) (S c) a Eb) by (unfold fuel; lia). destruct (addr_there xs (S c - Z.to_nat d)) as [t Et]; [lia|]. replace (S c - Z.to_nat (d + 1 - 1))%nat with (S c - Z.to_nat d)%nat by lia. rewrite Et. done.
    + rewrite bool_decide_eq_false_2; [by rewrite ?En, ?Eb|]. intros [= ->]. by pose proof (addr_inj Hr _ _ _ Ea Eb).
  - unfold menuNextPage. rewrite (sh_pagestart _ _ _ _ _ H), (probe_spec Hr) by (unfold fuel; lia). cbn [mbind option_bind]. rewrite Eb. destruct (Nat.ltb_spec (p + Z.to_nat d) (length xs)) as [Hl|Hl]; [|rewrite lookup_ge_None_2 by (rewrite length_fmap; lia); by rewrite Hself].
    destruct (addr_there xs _ Hl) as [n En]. rewrite En, (forward_loop_spec Hr _ (d + 1) p b Eb) by (unfold fuel; lia). replace (Nat.min (p + Z.to_nat (d + 1 - 1)) (length xs - 1))%nat with (p + Z.to_nat d)%nat by lia. by rewrite En.
  - unfold menuPrevPage. rewrite (sh_pagestart _ _ _ _ _ H), Eb, Ey. cbn [mbind option_bind]. rewrite Hpy. destruct p as [|p]; [done|]. destruct (addr_there xs p) as [n En]; [lia|]. rewrite En, (back_loop_spec Hr _ (d + 1) (S p) b Eb) by (unfold fuel; lia). destruct (addr_there xs (S p - Z.to_nat d)) as [t Et]; [lia|]. replace (S p - Z.to_nat (d + 1 - 1))%nat with (S p - Z.to_nat d)%nat by lia. by rewrite Et.
Qed.
End KeySpecs.

(** *** The operations *)

Lemma rows_set_item h p xs i a it it' : rows h p xs -> xs !! i = Some (a, it) ->
  exists h', store h a (with_item it') = Some h' /\ rows h' p (<[i := (a, it')]> xs) /\ brk h' = brk h /\ only xs.*1 h h'.
Proof.
  intros H Hi. pose proof (rows_links _ _ _ H _ _ _ Hi) as Ka. rewrite (store_spec _ _ _ _ Ka). eexists. split; [reflexivity|]. assert (E : (<[i := (a, it')]> xs).*1 = xs.*1) by (rewrite list_fmap_insert; apply list_insert_id; by rewrite fst_lookup, Hi).
  split; [|split; [done|]].
  - split; rewrite ?E; [apply H|apply (rows_nodup _ _ _ H)|]. intros j b itb Hj. cbn [cells]. destruct (decide (i = j)) as [<-|Hij].
    + rewrite list_lookup_insert_eq in Hj by (by eapply lookup_lt_Some). injection Hj as <- <-. by rewrite lookup_insert_eq.
    + rewrite list_lookup_insert_ne in Hj by done. rewrite lookup_insert_ne; [by apply (rows_links _ _ _ H)|]. intros ->. by pose proof (rows_inj _ _ _ _ _ _ _ _ H Hi Hj).
  - intros b Hb. cbn [cells]. rewrite lookup_insert_ne; [done|]. intros ->. apply Hb. by eapply rows_addr.
Qed.

Lemma heap_ok_only h h' l : heap_ok h -> (brk h <= brk h')%nat -> only l h h' -> (forall a, a ∈ l -> (a < brk h')%nat) -> heap_ok h'.
Proof. intros H Hb Ho Hl a Ha. rewrite Ho; [apply H; lia|]. intros Hin. specialize (Hl a Hin). lia. Qed.

Lemma rows_below h p xs a : heap_ok h -> rows h p xs -> a ∈ xs.*1 -> (a < brk h)%nat.
Proof. intros Hh H Ha. destruct (rows_used _ _ _ _ H Ha) as [x Hx]. destruct (decide (a < brk h)%nat); [done|]. rewrite Hh in Hx by lia. done. Qed.

Section OpSpecs.
Context (d : Z) (Hd : 1 <= d) (gameCacheCount : nat) (auto pressed : bool) (lang_strs : list bytes) (hide : bool) (s : libview) (support : option FavList.support).
Notation handle := (guiHandleOp gameCacheCount auto pressed lang_strs hide s support).
Notation shown_text := (sort_text lang_strs hide s support).

(** a row as it is appended *)
Definition appended (icon : Z) (text : option bytes) (id text_id : Z) (folder : bool) : submenu_item :=
  Item icon text text_id id (replicate gameCacheCount (-1)) (replicate gameCacheCount (-1)) false folder.

Lemma append_op pg xs c p icon txt i ti selected folder : shows d pg xs c p ->
  exists pg' a, handle pg (AppendMenu icon txt i ti selected folder) = Some pg' /\
    let c' := if selected then length xs else match xs with [] => 0%nat | _ => c end in
    shows d pg' (xs ++ [(a, appended icon txt i ti folder)]) c' (if selected then c' else match xs with [] => 0%nat | _ => p end) /\ p_remindLast pg' = selected || p_remindLast pg.
Proof using Hd.
  intros [H1 H2 H3 H4 H5 H6 H7]. cbn [guiHandleOp]. destruct (append_spec gameCacheCount _ _ _ icon txt i ti H2 H1) as (h1 & -> & R1 & O1 & B1 & F1). cbn [mbind option_bind]. set (a := brk (p_heap pg)) in *. set (hd := Some _) in *.
  assert (Hi : (xs ++ [(a, new_item gameCacheCount icon txt i ti)]) !! length xs = Some (a, new_item gameCacheCount icon txt i ti)) by (by rewrite lookup_app_r, Nat.sub_diag by lia).
  pose proof (rows_links _ _ _ R1 _ _ _ Hi) as Ka.
  destruct (rows_set_item _ _ _ _ _ _ (appended icon txt i ti folder) R1 Hi) as (h2 & E2 & R2 & B2 & F2). rewrite (store_spec _ _ _ _ Ka) in E2. rewrite (store_spec _ _ _ _ Ka). unfold set_folder. cbn [item new_item icon_id text text_id id cache_id cache_uid favourited]. cbn [mbind option_bind]. fold (appended icon txt i ti folder). injection E2 as E2. rewrite E2.
  rewrite insert_app_r_alt, Nat.sub_diag in R2 by lia. cbn [insert list_insert] in R2. set (ys := xs ++ [(a, appended icon txt i ti folder)]) in *.
  assert (O2 : heap_ok h2) by (eapply heap_ok_only; [exact O1|by rewrite B2|exact F2|]; intros x Hx; rewrite B2; by eapply rows_below). assert (Hl : last ys.*1 = Some a) by apply last_fst. assert (Hla : ys.*1 !! length xs = Some a) by (rewrite fst_lookup; unfold ys; by rewrite lookup_app_r, Nat.sub_diag by lia).
  assert (Hlen : length ys = S (length xs)) by (unfold ys; rewrite length_app; cbn; lia).
  assert (Hhd : hd = match p_submenu pg with None => Some a | Some x => Some x end) by (rewrite H3; unfold hd; by destruct (p_subMenu pg)). pose proof (rows_head _ _ _ H1) as Hh.
  destruct (decide (xs = [])) as [->|Hne].
  - cbn in Hh. rewrite H3, Hh in Hhd |- *. cbn [negb]. rewrite Hhd in R2 |- *. destruct selected; cbn [negb]; eexists _, a; (split; [reflexivity|]); cbv zeta; fold ys; (split; [|done]); split; cbn; try done; right; cbn; lia.
  - assert (Em : forall z w : nat, match xs with [] => z | _ :: _ => w end = w) by (by destruct xs). assert (H0 : (0 < length xs)%nat) by (destruct xs; [done|cbn; lia]). destruct (addr_there xs 0 H0) as [h0 Eh0]. rewrite H3, Hh, Eh0 in Hhd |- *. rewrite Hhd in R2 |- *. destruct H7 as [?|(Hc & Hp & Hq)]; [done|]. destruct selected; eexists _, a; (split; [reflexivity|]); cbv zeta; rewrite ?Em; fold ys; (split; [|done]); split; cbn; try done.
    + right. lia.
    + rewrite H5, !fst_lookup. unfold ys. by rewrite lookup_app_l.
    + rewrite H6, !fst_lookup. unfold ys. by rewrite lookup_app_l by lia.
    + right. lia.
Qed.

Lemma clear_heap_ok h h' p xs : heap_ok h -> rows h p xs -> brk h' = brk h -> (forall a, cells h' !! a = if decide (a ∈ xs.*1) then None else cells h !! a) -> heap_ok h'.
Proof. intros Hh _ Hb Hc a Ha. rewrite Hc. case_decide; [done|]. apply Hh. by rewrite <- Hb. Qed.

Lemma clear_op pg xs c p : shows d pg xs c p -> exists pg', handle pg ClearSubmenu = Some pg' /\ shows d pg' [] 0 0.
Proof.
  intros [H1 H2 H3 H4 H5 H6 H7]. cbn [guiHandleOp]. destruct (destroy_spec _ _ _ H1) as (h' & -> & Hb & Hc). cbn [mbind option_bind]. eexists. split; [reflexivity|]. split; cbn; try done; [apply rows_nil|by eapply clear_heap_ok|by left].
Qed.

(** the comparison is antisymmetric, and tells rows apart only by kind and title *)
Definition sort_key (x : addr * submenu_item) : bool * option bytes := (isFolder x.2, map tolower <$> shown_text x.2).

Lemma strcmp_refl a : strcmp a a = 0.
Proof. pose proof (strcmp_antisym a a). lia. Qed.

Lemma wrong_anti x y : wrong shown_text x y = true -> wrong shown_text y x = false.
Proof.
  unfold wrong, menu_cmp. destruct x as [a x], y as [b y]. cbn [snd]. destruct (isFolder x), (isFolder y); cbn [eqb negb]; try done.
  all: destruct (shown_text x) as [t|], (shown_text y) as [u|]; cbn [mbind option_bind]; try done; unfold strcasecmp; rewrite (strcmp_antisym (map tolower u)); intros H; apply Z.ltb_lt in H; apply Z.ltb_ge; lia.
Qed.

Lemma wrong_key x y : wrong shown_text x y = true -> sort_key x <> sort_key y.
Proof.
  unfold wrong, menu_cmp, sort_key. destruct x as [a x], y as [b y]. cbn [snd]. intros H [= E1 E2]. rewrite E1, eqb_reflx in H. cbn [negb] in H. destruct (shown_text x) as [t|], (shown_text y) as [u|]; cbn in E2, H; try done. injection E2 as E2. unfold strcasecmp in H. by rewrite E2, strcmp_refl in H.
Qed.

(** the cursor stays on its row where a title was remembered, and goes to the first otherwise *)
Lemma sort_op pg xs c p : shows d pg xs c p -> titled shown_text xs ->
  exists pg' ys c', handle pg Sort = Some pg' /\ shows d pg' ys c' c' /\ ys ≡ₚ xs /\ in_order shown_text ys /\ (forall k, base.filter (fun y => sort_key y = k) ys = base.filter (fun y => sort_key y = k) xs) /\
    p_remindLast pg' = p_remindLast pg /\ (if p_remindLast pg then ys.*1 !! c' = xs.*1 !! c else c' = 0%nat).
Proof using Hd.
  intros [H1 H2 H3 H4 H5 H6 H7] Ht. cbn [guiHandleOp]. destruct (submenuSort_spec shown_text wrong_anti sort_key wrong_key _ _ _ Ht H1) as (h' & p' & ys & -> & R & Hp & Hs & Hst & Hb & Ho). cbn [mbind option_bind].
  assert (Oh : heap_ok h') by (eapply heap_ok_only; [exact H2|by rewrite Hb|exact Ho|]; intros x Hx; rewrite Hb; by eapply rows_below). assert (Hlen : length ys = length xs) by (by rewrite Hp). pose proof (rows_head _ _ _ R) as Hh.
  assert (Etail : (tail ← match p' with None => Some None | Some a => t ← find_tail (fuel h') h' a; Some (Some t) end; Some tail) = Some (last ys.*1)).
  { rewrite Hh. destruct (ys.*1 !! 0%nat) as [a|] eqn:Ea; [|destruct ys; [done|by rewrite fst_lookup in Ea]]. rewrite (tail_spec R 0 a Ea), last_lookup, length_fmap. replace (Nat.pred (length ys)) with (length ys - 1)%nat by lia. destruct (addr_there ys (length ys - 1)) as [t ->]; [apply lookup_lt_Some in Ea; rewrite length_fmap in Ea; lia|done]. }
  destruct (match p' with None => Some None | Some a => _ end) as [tail|]; [|done]. injection Etail as ->. cbn [mbind option_bind].
  assert (Hc' : exists c', (if p_remindLast pg then p_current pg else p') = ys.*1 !! c' /\ (ys = [] \/ (c' < length ys)%nat) /\ (if p_remindLast pg then ys.*1 !! c' = xs.*1 !! c else c' = 0%nat)).
  { destruct (p_remindLast pg); [|exists 0%nat; split; [done|]; split; [destruct ys; [by left|right; cbn; lia]|done]]. rewrite H5. destruct H7 as [->|(Hc & _)]; [apply Permutation_nil_r in Hp as ->; exists 0%nat; repeat split; by left|]. destruct (addr_there xs c Hc) as [a Ea]. assert (Hin : a ∈ ys.*1) by (rewrite Hp; by eapply list_elem_of_lookup_2). apply list_elem_of_lookup in Hin as [c' Hc']. exists c'. rewrite Ea, Hc'. split; [done|]. split; [right; apply lookup_lt_Some in Hc'; by rewrite length_fmap in Hc'|done]. }
  destruct Hc' as (c' & E1 & E2 & E3). rewrite E1. eexists _, ys, c'. split; [reflexivity|]. split; [|done]. split; cbn; try done. destruct E2 as [E2|E2]; [by left|right; lia].
Qed.
End OpSpecs.

(** *** Rebuilding *)

(** a title that is given to compare is a title that was given *)
Lemma titled_named lang_strs hide s support (xs : list (addr * submenu_item)) : Forall (fun r => is_Some (submenuItemGetText lang_strs r.2)) xs -> titled (sort_text lang_strs hide s support) xs.
Proof.
  intros H. eapply Forall_impl; [exact H|]. intros [a it] [t Ht]. cbn [snd] in *. unfold sort_text, vcdDisplayNameForRow. rewrite Ht. destruct (isFolder it); [by exists t|]. destruct (_ || _); by eexists.
Qed.

Lemma shows_empty d pg c p : shows d pg [] c p -> shows d pg [] 0 0.
Proof. intros [H1 H2 H3 H4 H5 H6 _]. split; try done. by left. Qed.

Lemma clear_list_spec d pg xs c p : shows d pg xs c p -> exists pg', clearMenuGameList pg = Some pg' /\ shows d pg' [] 0 0 /\ p_remindLast pg' = (if decide (xs = []) then p_remindLast pg else false) /\ p_current pg' = None.
Proof.
  intros H. pose proof H as [H1 H2 H3 H4 H5 H6 H7]. unfold clearMenuGameList. pose proof (rows_head _ _ _ H1) as Hh. destruct (p_subMenu pg) as [a|] eqn:E.
  - destruct (destroy_spec _ _ _ H1) as (h' & -> & Hb & Hc). cbn [mbind option_bind]. eexists. split; [reflexivity|]. rewrite decide_False by (intros ->; done). split; [|done]. split; cbn; try done; [apply rows_nil|by eapply clear_heap_ok|by left].
  - destruct xs; [|done]. rewrite decide_True by done. exists pg. split; [done|]. split; [by eapply shows_empty|]. split; [done|]. by rewrite H5.
Qed.

Definition under_cursor (startup : Z -> option bytes) (xs : list (addr * submenu_item)) (c : nat) : bytes :=
  match xs !! c with Some (_, it) => if isFolder it then [] else match startup (id it) with Some s => bufcpy keep_size s | None => [] end | None => [] end.

Lemma kept_spec d startup pg xs c p : shows d pg xs c p -> kept_startup startup pg = Some (under_cursor startup xs c).
Proof.
  intros H. unfold kept_startup, under_cursor. rewrite (sh_current _ _ _ _ _ H), fst_lookup. destruct (xs !! c) as [[a it]|] eqn:E; [|done]. cbn [fmap option_fmap option_map fst]. destruct (rows_next _ _ _ _ _ _ (sh_rows _ _ _ _ _ H) E) as (x & -> & _ & _ & Hi). cbn [mbind option_bind]. by rewrite Hi.
Qed.

Section RebuildSpecs.
Context (d : Z) (Hd : 1 <= d) (gameCacheCount : nat) (auto pressed : bool) (lang_strs : list bytes) (hide : bool) (s : libview) (support : option FavList.support).
Notation drain := (guiHandleDeferredOps gameCacheCount auto pressed lang_strs hide s support).
Context (folderNav folderMode remember : bool) (last_played : option bytes) (keep : bytes) (src : source).

Definition is_folder_row (i : Z) : bool := folderMode && src_folder src i.
(** the row an item of the list becomes, and whether the cursor is wanted on it *)
Definition listed_row (i : Z) : submenu_item := appended gameCacheCount (-1) (src_name src i) i (-1) (is_folder_row i).
Definition wanted (i : Z) : bool := if is_folder_row i then false else row_selected remember last_played keep src i.

Lemma append_all l : forall pg xs c, shows d pg xs c c ->
  exists pg' ys c', drain pg (map (row_op folderMode remember last_played keep src) l) = Some pg' /\ shows d pg' (xs ++ ys) c' c' /\ ys.*2 = map listed_row l /\
    p_remindLast pg' = p_remindLast pg || existsb wanted l /\
    match last (base.filter (fun i => wanted i = true) l) with Some i => (snd <$> (xs ++ ys) !! c') = Some (listed_row i) | None => c' = match xs with [] => 0%nat | _ => c end end.
Proof using Hd.
  induction l as [|i l IH]; intros pg xs c H; cbn [map guiHandleDeferredOps].
  - destruct xs as [|x xs]; [exists pg, [], 0%nat|exists pg, [], c]; (split; [done|]); rewrite app_nil_r, orb_false_r; (split; [first [done|by eapply shows_empty]|]); done.
  - destruct (append_op d Hd gameCacheCount auto pressed lang_strs hide s support pg xs c c (-1) (src_name src i) i (-1) (wanted i) (is_folder_row i) H) as (pg1 & a & E & H1 & R1). unfold row_op, wanted, is_folder_row in *. rewrite E. cbn [mbind option_bind].
    set (w := if folderMode && src_folder src i then false else row_selected remember last_played keep src i) in *. assert (H1' : shows d pg1 (xs ++ [(a, listed_row i)]) (if w then length xs else match xs with [] => 0%nat | _ => c end) (if w then length xs else match xs with [] => 0%nat | _ => c end)) by (by destruct w).
    destruct (IH pg1 _ _ H1') as (pg' & ys & c' & E2 & H2 & Hy & Hr & Hc). exists pg', ((a, listed_row i) :: ys), c'. split; [done|]. rewrite <- app_assoc in H2, Hc. cbn [app] in H2, Hc. split; [done|]. split; [cbn; by rewrite Hy|]. split; [rewrite Hr, R1; cbn [existsb]; fold w; by destruct (p_remindLast pg), w|].
    rewrite filter_cons. fold w. destruct w; cbn [decide].
    + rewrite decide_True by done. rewrite last_cons. destruct (last (base.filter _ l)) as [j|] eqn:El; [done|]. assert (c' = length xs) as -> by (by destruct xs). by rewrite lookup_app_r, Nat.sub_diag by lia.
    + rewrite decide_False by done. destruct (last (base.filter _ l)) as [j|] eqn:El; [done|]. by destruct xs.
Qed.
End RebuildSpecs.

(** ** Runs *)

Section Runs.
Context (displayedItems : Z) (gameCacheCount : nat) (auto pressed : bool) (lang_strs : list bytes) (hide : bool).

(** a key; an operation of the queue, under the views and the list of its moment; the rows
    taken away before a rebuild *)
Inductive event := Press (k : key) | Do (s : libview) (support : option FavList.support) (op : gui_op) | Reread.
Definition apply (pg : page) (e : event) : option page :=
  match e with
  | Press k => press displayedItems pg k
  | Do s support op => guiHandleOp gameCacheCount auto pressed lang_strs hide s support pg op
  | Reread => clearMenuGameList pg
  end.
Fixpoint run (pg : page) (es : list event) : option page := match es with [] => Some pg | e :: es => pg ← apply pg e; run pg es end.

(** what is queued: rows with a title; nothing queues [ClearSubmenu] *)
Definition event_ok (e : event) : Prop :=
  match e with
  | Do _ _ (AppendMenu icon t i ti _ folder) => is_Some (submenuItemGetText lang_strs (appended gameCacheCount icon t i ti folder))
  | Do _ _ ClearSubmenu => False
  | _ => True
  end.

Definition page_ok (pg : page) : Prop := exists xs c p, shows displayedItems pg xs c p /\ Forall (fun r => is_Some (submenuItemGetText lang_strs r.2)) xs /\ (p_remindLast pg = true -> xs <> []).

Lemma apply_ok pg e : 1 <= displayedItems -> page_ok pg -> event_ok e -> exists pg', apply pg e = Some pg' /\ page_ok pg'.
Proof.
  intros Hd (xs & c & p & H & Ht & Hr) He. destruct e as [k|s support [icon t i ti selected folder| |]|]; cbn [apply event_ok] in *; [| |done| |].
  - destruct (decide (xs = [])) as [->|Hx].
    + assert (E : forall f, beside f pg = Some None) by (intros f; unfold beside; by rewrite (sh_current _ _ _ _ _ H)). exists pg. split; [|by exists [], c, p]. assert (Ef : menuFirstPage pg = Some pg) by (unfold menuFirstPage; by rewrite (sh_current _ _ _ _ _ H)). assert (El : menuLastPage displayedItems pg = Some pg) by (unfold menuLastPage; by rewrite (sh_current _ _ _ _ _ H)).
      destruct k; cbn [press]; unfold menuNextV, menuPrevV, menuNextPage, menuPrevPage; rewrite ?E; cbn [mbind option_bind]; try done; rewrite (sh_pagestart _ _ _ _ _ H); cbn [fmap list_fmap lookup list_lookup]; [|done]. destruct (probe_loop _ _ _ _) as [o|] eqn:Ep; [done|]. cbn [probe_loop fuel] in Ep. by destruct (displayedItems =? 0).
    + rewrite (key_spec displayedItems Hd pg xs c p k H Hx). eexists. split; [reflexivity|]. destruct (sh_on_page _ _ _ _ _ H) as [?|(Hc & Hp & Hq)]; [done|]. pose proof (moved_on_page displayedItems Hd (length xs) c p k Hc Hp Hq) as Hm. destruct (moved displayedItems (length xs) c p k) as [c' p']. destruct Hm as (M1 & M2 & M3). exists xs, c', p'. split; [by eapply set_cursor_shows|done].
  - destruct (append_op displayedItems Hd gameCacheCount auto pressed lang_strs hide s support pg xs c p icon t i ti selected folder H) as (pg' & a & -> & H' & _). exists pg'. split; [done|]. eexists _, _, _. split; [exact H'|]. split; [|by destruct xs]. apply Forall_app. split; [done|]. by constructor.
  - destruct (sort_op displayedItems Hd gameCacheCount auto pressed lang_strs hide s support pg xs c p H (titled_named _ _ _ _ _ Ht)) as (pg' & ys & c' & -> & H' & Hp & _ & _ & Er & _). exists pg'. split; [done|]. exists ys, c', c'. split; [done|]. split; [by rewrite Hp|]. rewrite Er. intros Hm ->. apply Permutation_nil in Hp. by apply Hr.
  - destruct (clear_list_spec _ _ _ _ _ H) as (pg' & -> & H' & Er & _). exists pg'. split; [done|]. exists [], 0%nat, 0%nat. split; [done|]. split; [done|]. rewrite Er. case_decide; [|done]. intros Hm. by specialize (Hr Hm).
Qed.
End Runs.

(** a page with no rows, as it is registered *)
Definition empty_page (h : heap) : page := Page h None None None None None false true.

(** ** Properties *)

(** C37. Whatever keys are pressed and whatever rows come and go, no freed row is followed, and
    the cursor stays on a row of the visible part of the page (or there is no row). *)
Theorem cursor_on_page displayedItems gameCacheCount auto pressed lang_strs hide h es : 1 <= displayedItems -> heap_ok h -> Forall (event_ok gameCacheCount lang_strs) es ->
  exists pg xs c p, run displayedItems gameCacheCount auto pressed lang_strs hide (empty_page h) es = Some pg /\ rows (p_heap pg) (p_subMenu pg) xs /\ p_current pg = xs.*1 !! c /\ p_pagestart pg = xs.*1 !! p /\
    (xs = [] \/ (c < length xs)%nat /\ (p <= c)%nat /\ Z.of_nat c < Z.of_nat p + displayedItems).
Proof.
  intros Hd Hh Hes. assert (H0 : page_ok displayedItems lang_strs (empty_page h)) by (exists [], 0%nat, 0%nat; split; [split; cbn; try done; [apply rows_nil|by left]|by split]). revert H0. generalize (empty_page h). induction Hes as [|e es He Hes IH]; intros pg H0.
  - destruct H0 as (xs & c & p & [H1 _ _ _ H5 H6 H7] & _). by exists pg, xs, c, p.
  - cbn [run]. destruct (apply_ok displayedItems gameCacheCount auto pressed lang_strs hide pg e Hd H0 He) as (pg' & -> & H1). by apply IH.
Qed.

(** C39. Down goes from row to row and round again: after [k] presses the cursor is on the row
    [k] further, so that every row is reached. *)
Theorem down_goes_round displayedItems pg xs c p k : 1 <= displayedItems -> shows displayedItems pg xs c p -> xs <> [] ->
  exists pg' p', Nat.iter k (fun o => pg ← o; press displayedItems pg Down) (Some pg) = Some pg' /\ shows displayedItems pg' xs ((c + k) mod length xs) p'.
Proof.
  intros Hd H Hx. assert (Hn : (0 < length xs)%nat) by (destruct xs; [done|cbn; lia]). induction k as [|k (pg1 & p1 & E & H1)].
  - exists pg, p. split; [done|]. rewrite Nat.add_0_r, Nat.mod_small; [done|]. destruct (sh_on_page _ _ _ _ _ H) as [?|[? _]]; done.
  - rewrite Nat.iter_succ, E. cbn [mbind option_bind]. set (c1 := ((c + k) mod length xs)%nat) in *. destruct (sh_on_page _ _ _ _ _ H1) as [?|(Hc & Hp & Hq)]; [done|]. rewrite (key_spec displayedItems Hd pg1 xs c1 p1 Down H1 Hx). pose proof (moved_on_page displayedItems Hd (length xs) c1 p1 Down Hc Hp Hq) as Hm.
    assert (Em : (moved displayedItems (length xs) c1 p1 Down).1 = ((c + S k) mod length xs)%nat).
    { cbn [moved]. replace (c + S k)%nat with (c + k + 1)%nat by lia. rewrite <- (Nat.Div0.add_mod_idemp_l (c + k) 1). fold c1. destruct (Nat.ltb_spec (S c1) (length xs)); cbn [fst]; [rewrite Nat.mod_small by lia; lia|]. replace (c1 + 1)%nat with (length xs) by lia. by rewrite Nat.Div0.mod_same. }
    destruct (moved displayedItems (length xs) c1 p1 Down) as [c' p']. cbn [fst] in Em. subst c'. destruct Hm as (M1 & M2 & M3). eexists _, p'. split; [reflexivity|]. by eapply set_cursor_shows.
Qed.

(** *** The list after a rebuild *)

Section Rebuilt.
Context (d : Z) (gameCacheCount : nat) (auto pressed : bool) (lang_strs : list bytes) (hide : bool) (s : libview) (support : option FavList.support).
Notation drain := (guiHandleDeferredOps gameCacheCount auto pressed lang_strs hide s support).
Notation shown_text := (sort_text lang_strs hide s support).

Lemma drain_app l1 l2 : forall pg, drain pg (l1 ++ l2) = (pg ← drain pg l1; drain pg l2).
Proof. induction l1 as [|o l1 IH]; intros pg; cbn [app guiHandleDeferredOps]; [done|]. destruct (guiHandleOp _ _ _ _ _ _ _ _ _) as [pg'|]; [apply IH|done]. Qed.

(** what the sort tells rows apart by *)
Definition item_key (it : submenu_item) : bool * option bytes := (isFolder it, map tolower <$> shown_text it).

Lemma key_items (xs ys : list (addr * submenu_item)) k : base.filter (fun y => sort_key lang_strs hide s support y = k) ys = base.filter (fun y => sort_key lang_strs hide s support y = k) xs -> base.filter (fun it => item_key it = k) ys.*2 = base.filter (fun it => item_key it = k) xs.*2.
Proof.
  intros H. assert (E : forall l : list (addr * submenu_item), base.filter (fun it => item_key it = k) l.*2 = (base.filter (fun y => sort_key lang_strs hide s support y = k) l).*2).
  { induction l as [|[a it] l IH]; [done|]. rewrite fmap_cons, !filter_cons, IH. unfold sort_key, item_key. cbn [snd]. by case_decide. }
  by rewrite !E, H.
Qed.

(** the row of an address is the same in a permutation *)
Lemma perm_row (xs ys : list (addr * submenu_item)) i j : NoDup ys.*1 -> ys ≡ₚ xs -> ys.*1 !! j = xs.*1 !! i -> (i < length xs)%nat -> ys !! j = xs !! i.
Proof.
  intros Hd Hp He Hi. rewrite !fst_lookup in He. destruct (xs !! i) as [[a it]|] eqn:Ei; [|apply lookup_ge_None in Ei; lia]. destruct (ys !! j) as [[b it']|] eqn:Ej; [|done]. injection He as ->. assert (Hin : (a, it) ∈ ys) by (rewrite Hp; by eapply list_elem_of_lookup_2). apply list_elem_of_lookup in Hin as [j' Ej'].
  assert (j = j') as -> by (eapply NoDup_lookup; [exact Hd| |]; rewrite fst_lookup; [by rewrite Ej|by rewrite Ej']). congruence.
Qed.
End Rebuilt.


(** ** Witnesses *)

Definition h0 : heap := Heap ∅ 1.
Definition names (l : list string) : Z -> option bytes := fun i => bs <$> l !! Z.to_nat i.
Definition shelf : source := {| src_count := 4; src_name := names ["Okami"; "RPGs"; "ico"; "Rez"]%string; src_startup := names ["SLES_544.39"; "dir"; "SCES_507.60"; "SLES_505.69"]%string; src_folder := fun i => i =? 1 |}.
Definition rows_of (pg : page) (n : nat) : list (option bytes) :=
  (fix go n a := match n, a with S n, Some a => match load (p_heap pg) a with Some x => text (item x) :: go n (SubMenu.next x) | None => [] end | _, _ => [] end) n (p_subMenu pg).

(** two rows sorted under the cursor, a list read again, and three other rows with a walk over them *)
Definition sample_events : list event :=
  [Do (libview_start 0 0) None (AppendMenu (-1) (Some (bs "b")) 0 (-1) false false);
   Do (libview_start 0 0) None (AppendMenu (-1) (Some (bs "a")) 1 (-1) true false);
   Press Down; Do (libview_start 0 0) None Sort; Press Up; Reread;
   Do (libview_start 0 0) None (AppendMenu (-1) (Some (bs "z")) 0 (-1) false false);
   Do (libview_start 0 0) None (AppendMenu (-1) (Some (bs "y")) 1 (-1) true false);
   Do (libview_start 0 0) None (AppendMenu (-1) (Some (bs "x")) 2 (-1) false false);
   Do (libview_start 0 0) None Sort; Press Down; Press Down; Press Up].

Lemma cursor_on_page_witness : exists pg xs c p, run 2 0 false false [] false (empty_page h0) sample_events = Some pg /\ rows (p_heap pg) (p_subMenu pg) xs /\
  p_current pg = xs.*1 !! c /\ (c < length xs)%nat /\ (p <= c)%nat /\ Z.of_nat c < Z.of_nat p + 2 /\
  (a ← p_current pg; x ← load (p_heap pg) a; submenuItemGetText [] (item x)) = Some (bs "z").
Proof.
  destruct (cursor_on_page 2 0 false false [] false h0 sample_events) as (pg & xs & c & p & E & H1 & H2 & H3 & H4).
  - lia.
  - intros a _. reflexivity.
  - repeat (apply Forall_cons_2; [first [by eexists|exact I]|]). constructor.
  - exists pg, xs, c, p. split; [exact E|]. split; [exact H1|]. split; [exact H2|].
    assert (Ec : (a ← p_current pg; x ← load (p_heap pg) a; submenuItemGetText [] (item x)) = Some (bs "z")).
    { revert E. vm_compute. intros E. injection E as <-. reflexivity. }
    destruct H4 as [->|(H4 & H5 & H6)]; [|by split_and!]. rewrite H2 in Ec. discriminate.
Defined.

(** three rows, the cursor on the first, the page two rows high *)
Definition three_rows : list (addr * submenu_item) := [(1, Item 0 None 0 10 [] [] false false); (2, Item 0 None 0 11 [] [] false false); (3, Item 0 None 0 12 [] [] false false)]%nat.
Definition three_heap : heap := Heap {[ 1%nat := Node (Item 0 None 0 10 [] [] false false) None (Some 2%nat); 2%nat := Node (Item 0 None 0 11 [] [] false false) (Some 1%nat) (Some 3%nat); 3%nat := Node (Item 0 None 0 12 [] [] false false) (Some 2%nat) None ]} 4.
Definition three_page : page := Page three_heap (Some 1%nat) (Some 1%nat) (Some 1%nat) (Some 1%nat) (Some 3%nat) false true.

Lemma three_shows : shows 2 three_page three_rows 0 0.
Proof.
  split; try done.
  - split; [done|apply (bool_decide_eq_true_1 _); vm_compute; reflexivity|]. intros [|[|[|i]]] a it Hi; cbn in Hi; try (injection Hi as <- <-; vm_compute; reflexivity). done.
  - intros a Ha. cbn [three_page p_heap three_heap brk cells] in *. rewrite !lookup_insert_ne by lia. apply lookup_singleton_ne. lia.
  - right. cbn. lia.
Qed.

Lemma down_goes_round_witness : exists pg' p', Nat.iter 4 (fun o => pg ← o; press 2 pg Down) (Some three_page) = Some pg' /\ shows 2 pg' three_rows 1 p'.
Proof. apply (down_goes_round 2 three_page three_rows 0 0 4); [lia|exact three_shows|done]. Defined.


(** ** What the code does not hold *)

(** a row that is removed stays the predecessor of the next one: moving up from there follows
    the node that was freed *)
Example removed_row_followed :
  exists h p, submenuRemoveItem three_heap (Some 1%nat) 11 = Some (h, p) /\ press 2 (Page h p p (Some 3%nat) (Some 3%nat) (Some 3%nat) false true) Up = None.
Proof. eexists _, _. split; [vm_compute; reflexivity|vm_compute; reflexivity]. Qed.
