(* ===== verification/MenuTabs.v ===== *)
(** * MenuTabs: switching between pages (src/menusys.c, src/opl.c)

    The registered pages in a row, some of them hidden, with the one that is shown. Leaving a
    page takes its folders (FolderBrowse) back to the root, so that only the page that is shown
    is ever inside one. *)
From S2P Require Import Prelude CLib GameList FolderBrowse.

(** ** Data *)

(** the title and the visibility of a [menu_item_t] and the mode of its list *)
Record tab := Tab { tab_mode : Z; visible : bool; tab_text : option bytes; tab_text_id : Z }.
(** [menu] with [selected_item] as a place in it; the folders; [itemConfigId]; the modes whose
    update was asked for *)
Record tabs := Tabs { menu : list tab; selected_item : option nat; folders : list folder_state; itemConfigId : Z; requests : list Z }.

Definition set_tab (st : tabs) (i : nat) (f : tab -> tab) : tabs := Tabs (alter f i (menu st)) (selected_item st) (folders st) (itemConfigId st) (requests st).
Definition select (st : tabs) (i : option nat) : tabs := Tabs (menu st) i (folders st) (itemConfigId st) (requests st).

Section Tabs.
(** [gEnableFolderNav], and the name of a device, the callback [itemTextId] of its list *)
Context (nav : bool) (itemTextId : Z -> Z).

Definition menuAppendItem (st : tabs) (item : tab) : tabs :=
  match menu st with
  | [] => Tabs [item] (Some 0%nat) (folders st) (itemConfigId st) (requests st)
  | _ => Tabs (menu st ++ [item]) (selected_item st) (folders st) (itemConfigId st) (requests st)
  end.

Definition menuSetSelectedItem (st : tabs) (mode : Z) : tabs :=
  match find_index (fun t => tab_mode t =? mode) (menu st) with Some i => select st (Some i) | None => st end.

Definition menuFolderResetLeaving (st : tabs) (leaving : nat) : tabs :=
  match menu st !! leaving with
  | None => st
  | Some t =>
    let mode := tab_mode t in
    if negb (folderModeSupported mode) || (folderDepth nav (folders st) mode =? 0) then st
    else
      let st := Tabs (menu st) (selected_item st) (folderReset (folders st) mode) (itemConfigId st) (requests st) in
      let st := set_tab st leaving (fun t => Tab (tab_mode t) (visible t) None (itemTextId mode)) in
      Tabs (menu st) (selected_item st) (folders st) (itemConfigId st) (requests st ++ [mode])
  end.

(** the nearest visible page behind, and before *)
Definition next_visible (st : tabs) (i : nat) : option nat := (fun k => (S i + k)%nat) <$> find_index visible (drop (S i) (menu st)).
Fixpoint prev_visible (l : list tab) (i : nat) : option nat :=
  match i with
  | O => None
  | S i => match l !! i with Some t => if visible t then Some i else prev_visible l i | None => None end
  end.

Definition go (st : tabs) (i j : nat) : tabs :=
  let st := menuFolderResetLeaving st i in
  Tabs (menu st) (Some j) (folders st) (-1) (requests st).
(** [None] is [selected_item] followed while there is none *)
Definition menuNextH (st : tabs) : option tabs :=
  i ← selected_item st; Some (match next_visible st i with Some j => go st i j | None => st end).
Definition menuPrevH (st : tabs) : option tabs :=
  i ← selected_item st; Some (match prev_visible (menu st) i with Some j => go st i j | None => st end).

Definition is_visible (st : tabs) (i : option nat) : bool := match i ≫= (menu st !!.) with Some t => visible t | None => false end.
Definition refreshMenuPosition (st : tabs) : tabs :=
  if is_visible st (selected_item st) then st
  else match menu st with [] => st | _ => select st (Some (default 0%nat (find_index visible (menu st)))) end.

(** the page that is shown goes into a folder ([itemExecSelect]) and out of it *)
Definition selected_mode (st : tabs) : option Z := i ← selected_item st; t ← menu st !! i; Some (tab_mode t).
Definition set_folders (st : tabs) (mode : Z) (r : bool * list folder_state) : tabs :=
  Tabs (menu st) (selected_item st) r.2 (itemConfigId st) (if r.1 then requests st ++ [mode] else requests st).
Definition enter_folder (st : tabs) (nm : option bytes) : tabs :=
  match selected_mode st with Some mode => set_folders st mode (folderDescend nav (folders st) mode nm) | None => st end.
Definition itemFolderAscend (st : tabs) : tabs :=
  match selected_mode st with
  | Some mode => if folderDepth nav (folders st) mode =? 0 then st else set_folders st mode (folderAscend nav (folders st) mode)
  | None => st
  end.

(** what happens to the row of pages; drivers show and hide pages; [SelectMenu] is the queued
    GUI_OP_SELECT_MENU *)
Inductive tab_event := Next | Prev | Enter (nm : option bytes) | Leave | Show (i : nat) | Hide (i : nat) | Resume | Append (mode : Z) | SelectMenu (mode : Z).
Definition step (st : tabs) (e : tab_event) : option tabs :=
  match e with
  | Next => menuNextH st
  | Prev => menuPrevH st
  | Enter nm => Some (enter_folder st nm)
  | Leave => Some (itemFolderAscend st)
  | Show i => Some (set_tab st i (fun t => Tab (tab_mode t) true (tab_text t) (tab_text_id t)))
  | Hide i => Some (set_tab st i (fun t => Tab (tab_mode t) false (tab_text t) (tab_text_id t)))
  | Resume => Some (refreshMenuPosition st)
  | Append mode => Some (menuAppendItem st (Tab mode true None (itemTextId mode)))
  | SelectMenu mode => Some (menuSetSelectedItem st mode)
  end.

(** ** Lemmas *)

Lemma depth_other st mode m f : 0 <= mode -> 0 <= m -> m <> mode -> folderDepth nav (set_page st mode f) m = folderDepth nav st m.
Proof. intros H1 H2 Hm. unfold folderDepth. destruct (refused nav m); [done|]. unfold page, set_page. rewrite nth_lookup, list_lookup_insert_ne, <- nth_lookup by lia. done. Qed.

Lemma refused_range m : refused nav m = false -> 0 <= m < MODE_COUNT.
Proof. unfold refused. rewrite !orb_false_iff, Z.ltb_ge, Z.leb_gt. lia. Qed.

Lemma depth_range st m : folderDepth nav st m <> 0 -> 0 <= m < MODE_COUNT.
Proof. unfold folderDepth. destruct (refused nav m) eqn:E; [done|]. intros _. by apply refused_range. Qed.

Lemma depth_negative st m : m < 0 -> folderDepth nav st m = 0.
Proof. intros H. unfold folderDepth, refused. rewrite (proj2 (Z.ltb_lt m 0)) by done. by rewrite orb_true_r. Qed.

Lemma depth_set st mode m f : 0 <= mode < MODE_COUNT -> m <> mode -> folderDepth nav (set_page st mode f) m = folderDepth nav st m.
Proof. intros H Hm. destruct (Z.ltb_spec m 0); [by rewrite !depth_negative|]. apply depth_other; [lia|done|done]. Qed.

Lemma reset_depth st mode m : length st = Z.to_nat MODE_COUNT -> folderDepth nav (folderReset st mode) m = if decide (m = mode) then 0 else folderDepth nav st m.
Proof.
  intros Hl. destruct (decide (folderDepth nav st m = 0 /\ folderDepth nav (folderReset st mode) m = 0)) as [[E1 E2]|Hne]; [rewrite E1, E2; by case_decide|].
  unfold folderReset in *. destruct (Z.ltb_spec mode 0); cbn [orb] in *.
  - case_decide as E; [|done]. subst m. by apply depth_negative.
  - destruct (Z.leb_spec MODE_COUNT mode) as [Hm|Hm]; [case_decide as E; [|done]; subst m; unfold folderDepth, refused; rewrite (proj2 (Z.leb_le MODE_COUNT mode)) by done; by rewrite !orb_true_r|].
    destruct (negb (bool_decide (folderSub (page st mode) = [])) || negb (folderLevels (page st mode) =? 0)) eqn:Es.
    + case_decide as E; [subst m; unfold folderDepth; destruct (refused nav mode); [done|]; unfold page, set_page; rewrite nth_lookup, list_lookup_insert_eq by lia; done|]. apply depth_set; [lia|done].
    + case_decide as E; [|done]. subst m. apply orb_false_iff in Es as [_ Es]. apply negb_false_iff, Z.eqb_eq in Es. unfold folderDepth. by destruct (refused nav mode).
Qed.

Lemma reset_length st mode : length (folderReset st mode) = length st.
Proof. unfold folderReset, set_page. destruct (_ || _); [done|]. destruct (_ || _); [apply length_insert|done]. Qed.

Lemma descend_other st mode nm m : m <> mode -> folderDepth nav (folderDescend nav st mode nm).2 m = folderDepth nav st m /\ length (folderDescend nav st mode nm).2 = length st.
Proof.
  intros Hm. unfold folderDescend. destruct (refused nav mode) eqn:E; [done|]. apply refused_range in E. destruct nm as [[|c nm]|]; [done| |done]. destruct (FOLDER_DEPTH_MAX <=? _); [done|]. destruct (FOLDER_SUB_MAX <=? _)%nat; [done|]. cbn [snd]. split; [|apply length_insert].
  by apply depth_set.
Qed.

Lemma ascend_other st mode m : m <> mode -> folderDepth nav (folderAscend nav st mode).2 m = folderDepth nav st m /\ length (folderAscend nav st mode).2 = length st.
Proof.
  intros Hm. unfold folderAscend. destruct (refused nav mode) eqn:E; [done|]. apply refused_range in E. destruct (_ =? 0); [done|]. cbn [snd]. split; [|apply length_insert].
  by apply depth_set.
Qed.

(** every page but the one shown is at its root *)
Record parked (st : tabs) : Prop := {
  pk_len : length (folders st) = Z.to_nat MODE_COUNT;
  pk_selected : forall i, selected_item st = Some i -> (i < length (menu st))%nat;
  pk_root : forall m, folderDepth nav (folders st) m <> 0 -> selected_mode st = Some m;
}.

(** leaving a page, whichever is shown next *)
Lemma leaving_spec st i : let st' := menuFolderResetLeaving st i in
  length (folders st') = length (folders st) /\ length (menu st') = length (menu st) /\ selected_item st' = selected_item st /\ (forall k, tab_mode <$> menu st' !! k = tab_mode <$> menu st !! k) /\ (forall k, visible <$> menu st' !! k = visible <$> menu st !! k).
Proof.
  unfold menuFolderResetLeaving. destruct (menu st !! i) as [t|] eqn:E; [|done]. destruct (_ || _); [done|]. cbn. split; [apply reset_length|]. split; [apply length_alter|]. split; [done|].
  split; intros k; (destruct (decide (k = i)) as [->|Hk]; [by rewrite list_lookup_alter_eq, E|by rewrite list_lookup_alter_ne]).
Qed.

Lemma leaving_depth st i t m : length (folders st) = Z.to_nat MODE_COUNT -> menu st !! i = Some t -> folderDepth nav (folders (menuFolderResetLeaving st i)) m = if decide (m = tab_mode t) then 0 else folderDepth nav (folders st) m.
Proof.
  intros Hl Hi. unfold menuFolderResetLeaving. rewrite Hi. destruct (negb (folderModeSupported (tab_mode t)) || _) eqn:E; [|by apply reset_depth]. case_decide as Em; [|done]. subst m. apply orb_true_iff in E as [E|E]; [|by apply Z.eqb_eq in E].
  unfold folderDepth, refused. rewrite E. by rewrite !orb_true_r.
Qed.

Lemma go_parked st i j : parked st -> selected_item st = Some i -> (j < length (menu st))%nat -> parked (go st i j).
Proof.
  intros [Hl Hs Hr] Hi Hj. destruct (leaving_spec st i) as (L1 & L2 & _). assert (Ht : exists t, menu st !! i = Some t) by (apply lookup_lt_is_Some; by apply Hs). destruct Ht as [t Ht]. split; cbn [go folders menu selected_item].
  - by rewrite L1.
  - intros k [= <-]. by rewrite L2.
  - intros m Hm. rewrite (leaving_depth st i t m Hl Ht) in Hm. case_decide as E; [done|]. exfalso. apply Hr in Hm. unfold selected_mode in Hm. rewrite Hi in Hm. cbn [mbind option_bind] in Hm. rewrite Ht in Hm. cbn in Hm. injection Hm as Hm. by apply E.
Qed.

Lemma next_visible_spec st i j : next_visible st i = Some j -> (i < j)%nat /\ exists t, menu st !! j = Some t /\ visible t = true.
Proof.
  unfold next_visible. intros H. apply fmap_Some in H as (k & Hk & ->). apply find_index_Some in Hk as [(t & Ht & Hv) _]. rewrite lookup_drop in Ht. split; [lia|]. by exists t.
Qed.

Lemma prev_visible_spec l i j : prev_visible l i = Some j -> (j < i)%nat /\ (exists t, l !! j = Some t /\ visible t = true) /\ forall k t, (j < k < i)%nat -> l !! k = Some t -> visible t = false.
Proof.
  induction i as [|i IH]; cbn [prev_visible]; [done|]. destruct (l !! i) as [t|] eqn:E; [|done]. destruct (visible t) eqn:Ev; [intros [= <-]; split; [lia|]; split; [by exists t|]; lia|]. intros H. destruct (IH H) as (H1 & H2 & H3). split; [lia|]. split; [done|].
  intros k u Hk Hu. destruct (decide (k = i)) as [->|]; [congruence|]. apply (H3 k u); [lia|done].
Qed.

Lemma set_tab_mode st i f : (forall t, tab_mode (f t) = tab_mode t) -> selected_mode (set_tab st i f) = selected_mode st.
Proof.
  intros Hf. unfold selected_mode, set_tab. cbn. destruct (selected_item st) as [k|]; [|done]. cbn [mbind option_bind]. destruct (decide (k = i)) as [->|Hk]; [rewrite list_lookup_alter_eq; destruct (menu st !! i); cbn; by rewrite ?Hf|by rewrite list_lookup_alter_ne].
Qed.

(** the pages that are shown without leaving the one before: the settings left while that one
    is hidden, and a page selected. Left out are those of them that leave a page inside a
    folder *)
Definition shown_at_root (st : tabs) : Prop := forall m, selected_mode st = Some m -> folderDepth nav (folders st) m = 0.
Definition parks (st st' : tabs) : Prop := selected_mode st' = selected_mode st \/ shown_at_root st.
Definition step_ok (st : tabs) (e : tab_event) : Prop :=
  match e with
  | Resume => parks st (refreshMenuPosition st)
  | SelectMenu mode => parks st (menuSetSelectedItem st mode)
  | Next | Prev => selected_item st <> None
  | _ => True
  end.

Lemma select_parked st i : parked st -> (i < length (menu st))%nat -> parks st (select st (Some i)) -> parked (select st (Some i)).
Proof.
  intros [Hl Hs Hr] Hi Hp. split; [done|by intros k [= <-]|]. intros m Hm. cbn [select folders] in Hm. specialize (Hr m Hm). destruct Hp as [E|E]; [by rewrite E|]. by specialize (E m Hr).
Qed.

Lemma refresh_cases st : refreshMenuPosition st = st \/ exists i, refreshMenuPosition st = select st (Some i) /\ (i < length (menu st))%nat.
Proof.
  unfold refreshMenuPosition. destruct (is_visible st (selected_item st)); [by left|]. destruct (menu st) as [|t l] eqn:El; [by left|]. right. eexists. split; [reflexivity|]. rewrite <- El.
  destruct (find_index visible (menu st)) as [k|] eqn:Ek; cbn [default from_option id]; [|rewrite El; cbn; lia]. apply find_index_Some in Ek as [(u & Hu & _) _]. by eapply lookup_lt_Some.
Qed.

Lemma step_parked st e : parked st -> step_ok st e -> exists st', step st e = Some st' /\ parked st'.
Proof.
  intros H He. destruct e as [| |nm| |i|i| |mode|mode]; cbn [step step_ok] in *.
  - unfold menuNextH. destruct (selected_item st) as [i|] eqn:Ei; [|done]. eexists. split; [reflexivity|]. destruct (next_visible st i) as [j|] eqn:Ej; [|done]. apply next_visible_spec in Ej as (_ & t & Ht & _). apply go_parked; [done|done|by eapply lookup_lt_Some].
  - unfold menuPrevH. destruct (selected_item st) as [i|] eqn:Ei; [|done]. eexists. split; [reflexivity|]. destruct (prev_visible (menu st) i) as [j|] eqn:Ej; [|done]. apply prev_visible_spec in Ej as (_ & (t & Ht & _) & _). apply go_parked; [done|done|by eapply lookup_lt_Some].
  - eexists. split; [reflexivity|]. unfold enter_folder. destruct (selected_mode st) as [mode|] eqn:Em; [|done]. destruct H as [Hl Hs Hr]. split; cbn; [by rewrite (proj2 (descend_other _ mode nm (mode + 1) ltac:(lia)))|done|]. intros m Hm. change (selected_mode (set_folders st mode _)) with (selected_mode st). destruct (decide (m = mode)) as [->|Hne]; [done|]. rewrite (proj1 (descend_other _ mode nm m Hne)) in Hm. by apply Hr.
  - eexists. split; [reflexivity|]. unfold itemFolderAscend. destruct (selected_mode st) as [mode|] eqn:Em; [|done]. destruct (_ =? 0); [done|]. destruct H as [Hl Hs Hr]. split; cbn; [by rewrite (proj2 (ascend_other _ mode (mode + 1) ltac:(lia)))|done|]. intros m Hm. change (selected_mode (set_folders st mode _)) with (selected_mode st). destruct (decide (m = mode)) as [->|Hne]; [done|]. rewrite (proj1 (ascend_other _ mode m Hne)) in Hm. by apply Hr.
  - eexists. split; [reflexivity|]. destruct H as [Hl Hs Hr]. split; [done|intros k Hk; cbn; rewrite length_alter; by apply Hs|]. intros m Hm. rewrite set_tab_mode by done. by apply Hr.
  - eexists. split; [reflexivity|]. destruct H as [Hl Hs Hr]. split; [done|intros k Hk; cbn; rewrite length_alter; by apply Hs|]. intros m Hm. rewrite set_tab_mode by done. by apply Hr.
  - eexists. split; [reflexivity|]. destruct (refresh_cases st) as [->|(i & E & Hi)]; [done|]. rewrite E in *. by apply select_parked.
  - eexists. split; [reflexivity|]. destruct H as [Hl Hs Hr]. unfold menuAppendItem. destruct (menu st) as [|t0 l] eqn:El.
    + split; cbn; [done|intros k [= <-]; lia|]. intros m Hm. apply Hr in Hm. unfold selected_mode in Hm. destruct (selected_item st) as [k|]; [|done]. cbn in Hm. by rewrite El in Hm.
    + rewrite <- El in *. split; cbn; [done|intros k Hk; rewrite length_app; cbn; specialize (Hs k Hk); lia|]. intros m Hm. apply Hr in Hm. unfold selected_mode in *. cbn. destruct (selected_item st) as [k|] eqn:Ek; [|done]. cbn [mbind option_bind] in *. rewrite lookup_app_l by (by apply Hs). done.
  - eexists. split; [reflexivity|]. unfold menuSetSelectedItem in *. destruct (find_index _ (menu st)) as [i|] eqn:E; [|done]. apply find_index_Some in E as [(t & Ht & _) _]. apply select_parked; [done|by eapply lookup_lt_Some|done].
Qed.

Fixpoint events (st : tabs) (es : list tab_event) : option tabs := match es with [] => Some st | e :: es => st ← step st e; events st es end.
Fixpoint events_ok (st : tabs) (es : list tab_event) : Prop := match es with [] => True | e :: es => step_ok st e /\ match step st e with Some st' => events_ok st' es | None => False end end.

Definition no_tabs : tabs := Tabs [] None no_folders (-1) [].

(** ** Properties *)

(** C40. However pages are registered, selected, shown, hidden and switched and folders entered
    and left, only the page that is shown is inside a folder, so that favourites and the last
    game find the other devices at their root. Two steps show another page without taking the
    one before to its root, and are left out where that one is inside a folder: the settings
    are left while the page they were entered from is hidden ([hidden_page_keeps_folder]), and
    a page is selected by GUI_OP_SELECT_MENU ([selected_page_keeps_folder]), which the program
    queues for the page it starts on and for pages registered when there was none yet. *)
Theorem only_shown_in_folder es : events_ok no_tabs es -> exists st, events no_tabs es = Some st /\ forall m, folderDepth nav (folders st) m <> 0 -> selected_mode st = Some m.
Proof.
  assert (H0 : parked no_tabs).
  { split; [by vm_compute|done|]. intros m Hm. exfalso. apply Hm. unfold folderDepth. destruct (refused nav m) eqn:E; [done|]. apply refused_range in E. unfold page, no_tabs. cbn [folders]. unfold no_folders. by rewrite nth_lookup, lookup_replicate_2 by lia. }
  revert H0. generalize no_tabs. induction es as [|e es IH]; intros st H Hok; [exists st; split; [done|by apply H]|]. cbn [events events_ok] in *. destruct Hok as [He Hok]. destruct (step_parked st e H He) as (st' & E & H'). rewrite E in *. cbn [mbind option_bind]. by apply IH.
Qed.

(** Switching to the next page and back returns to the page: hidden pages are passed in
    both directions. *)
Theorem next_then_prev st i t : selected_item st = Some i -> menu st !! i = Some t -> visible t = true ->
  exists st1 st2, menuNextH st = Some st1 /\ menuPrevH st1 = Some st2 /\ (selected_item st2 = Some i \/ selected_item st1 = Some i).
Proof.
  intros Hi Ht Hv. unfold menuNextH. rewrite Hi. cbn [mbind option_bind]. destruct (next_visible st i) as [j|] eqn:Ej.
  - assert (Hsk : forall k u, (i < k < j)%nat -> menu st !! k = Some u -> visible u = false).
    { unfold next_visible in Ej. apply fmap_Some in Ej as (n & Hn & ->). intros k u Hk Hu. apply (proj2 (find_index_Some visible _ n Hn) (k - S i)%nat u); [lia|]. rewrite lookup_drop. by replace (S i + (k - S i))%nat with k by lia. }
    pose proof (next_visible_spec st i j Ej) as (Hij & u & Hu & _). destruct (leaving_spec st i) as (_ & _ & _ & _ & Hvis). eexists (go st i j), _. split; [done|]. unfold menuPrevH. cbn [go selected_item mbind option_bind]. split; [reflexivity|]. left. cbn [go menu].
    assert (G : forall n, (i < n <= j)%nat -> prev_visible (menu (menuFolderResetLeaving st i)) n = Some i).
    { induction n as [|n IH]; intros Hn; [lia|]. cbn [prev_visible]. specialize (Hvis n). destruct (decide (n = i)) as [->|Hne].
      - rewrite Ht in Hvis. destruct (menu (menuFolderResetLeaving st i) !! i) as [x|]; [|done]. injection Hvis as ->. by rewrite Hv.
      - destruct (menu st !! n) as [y|] eqn:Ey; [|apply lookup_ge_None in Ey; apply lookup_lt_Some in Hu; lia]. assert (Hy : visible y = false) by (apply (Hsk n y); [lia|done]). destruct (menu (menuFolderResetLeaving st i) !! n) as [x|]; [|done]. injection Hvis as ->. rewrite Hy. apply IH. lia. }
    by rewrite G by lia.
  - exists st. unfold menuPrevH. rewrite Hi. cbn [mbind option_bind]. eexists. split; [done|]. split; [reflexivity|]. by right.
Qed.
End Tabs.

(** ** Witnesses *)

Lemma only_shown_in_folder_witness : exists st, events true (fun m => m + 100) no_tabs [Append 0; SelectMenu 0; Append 1; Append 12; Enter (Some (bs "RPGs")); Resume; Hide 1; Next; Hide 2; Resume; Prev; Show 1; Enter (Some (bs "SNES")); SelectMenu 0] = Some st /\ folderDepth true (folders st) 0 = 1 /\ selected_mode st = Some 0.
Proof.
  destruct (only_shown_in_folder true (fun m => m + 100) [Append 0; SelectMenu 0; Append 1; Append 12; Enter (Some (bs "RPGs")); Resume; Hide 1; Next; Hide 2; Resume; Prev; Show 1; Enter (Some (bs "SNES")); SelectMenu 0]) as (st & E & H).
  - vm_compute. repeat (split; [first [exact I|discriminate|left; reflexivity|right; intros m Hm; injection Hm as <-; reflexivity]|]). exact I.
  - exists st. split; [exact E|]. assert (Hd : folderDepth true (folders st) 0 = 1) by (vm_compute in E; injection E as <-; vm_compute; reflexivity). split; [exact Hd|]. apply H. rewrite Hd. discriminate.
Defined.

Lemma next_then_prev_witness : exists st1 st2, menuNextH true (fun m => m) (Tabs [Tab 0 true None 0; Tab 1 false None 1; Tab 12 true None 12] (Some 0%nat) no_folders (-1) []) = Some st1 /\ menuPrevH true (fun m => m) st1 = Some st2 /\ (selected_item st2 = Some 0%nat \/ selected_item st1 = Some 0%nat).
Proof. apply (next_then_prev true (fun m => m) (Tabs [Tab 0 true None 0; Tab 1 false None 1; Tab 12 true None 12] (Some 0%nat) no_folders (-1) []) 0 (Tab 0 true None 0)); reflexivity. Defined.

(** ** What the code does not hold *)

(** the device of the page is taken out while the settings are open: another page is shown, and
    the folder is kept *)
Example hidden_page_keeps_folder : exists st, events true (fun m => m) no_tabs [Append 0; Append 1; Enter (Some (bs "RPGs")); Hide 0; Resume; Show 0] = Some st /\ selected_mode st = Some 1 /\ folderDepth true (folders st) 0 = 1.
Proof. eexists. split; [vm_compute; reflexivity|]. split; vm_compute; reflexivity. Qed.

(** a page is selected while another one is inside a folder *)
Example selected_page_keeps_folder : exists st, events true (fun m => m) no_tabs [Append 0; Append 1; Enter (Some (bs "RPGs")); SelectMenu 1] = Some st /\ selected_mode st = Some 1 /\ folderDepth true (folders st) 0 = 1.
Proof. eexists. split; [vm_compute; reflexivity|]. split; vm_compute; reflexivity. Qed.

(** folders are switched off in the settings, the page is left, and they are switched on again *)
Example switched_off_keeps_folder : exists st st', events true (fun m => m) no_tabs [Append 0; Append 1; Enter (Some (bs "RPGs"))] = Some st /\ events false (fun m => m) st [Next] = Some st' /\ selected_mode st' = Some 1 /\ folderDepth true (folders st') 0 = 1.
Proof. eexists _, _. split; [vm_compute; reflexivity|]. split; [vm_compute; reflexivity|]. split; vm_compute; reflexivity. Qed.
