(* ===== verification/IoMan.v ===== *)
(** * IoMan: the request queue and the worker thread of src/ioman.c

    The queue is a linked list in a heap of nodes with a head and a tail pointer;
    the threads are a step relation whose steps are the sections the semaphores
    [gProcSemaId] (held by the worker while it drains) and [gEndSemaId] make
    atomic. *)
From S2P Require Import Prelude.

(** ** The linked queue *)

Definition loc := positive.
Record node := Node { n_type : Z; n_data : Z; n_next : option loc }.

Record ioq := Q { q_heap : gmap loc node; gReqList : option loc; gReqEnd : option loc }.

Definition empty_queue : ioq := Q ∅ None None.

Definition set_next (nx : option loc) (n : node) : node := Node (n_type n) (n_data n) nx.

(** the part of [ioPutRequest] under [gEndSemaId]: [a] is the node [malloc] returned *)
Definition enqueue (q : ioq) (a : loc) (type data : Z) : ioq :=
  let '(h, list) :=
    match gReqEnd q with
    | None => (q_heap q, Some a)
    | Some e => (alter (set_next (Some a)) e (q_heap q), gReqList q)
    end in
  Q (<[a := Node type data None]> h) list (Some a).

(** the unlinking of [ioWorkerThread]: the head and [free(req)] *)
Definition unlink (q : ioq) (req : loc) : ioq :=
  let next := from_option n_next None (q_heap q !! req) in
  Q (delete req (q_heap q)) next (match next with None => None | Some _ => gReqEnd q end).

(** the loop of [ioRemoveRequests] with its locals *)
Fixpoint remove_loop (fuel : nat) (type : Z) (q : ioq) (req last : option loc) (count : Z) : ioq * Z :=
  match fuel, req with
  | S f, Some a =>
    match q_heap q !! a with
    | None => (q, count)
    | Some n =>
      if n_type n =? type then
        let next := n_next n in
        let h := match last with Some b => alter (set_next next) b (q_heap q) | None => q_heap q end in
        let list := if bool_decide (gReqList q = Some a) then next else gReqList q in
        let tail := if bool_decide (gReqEnd q = Some a) then last else gReqEnd q in
        remove_loop f type (Q (delete a h) list tail) next last (count + 1)
      else remove_loop f type q (n_next n) (Some a) count
    end
  | _, _ => (q, count)
  end.

(** every pass moves on in the list, so the number of nodes bounds the passes *)
Definition remove_requests (q : ioq) (type : Z) : ioq * Z :=
  remove_loop (S (size (q_heap q))) type q (gReqList q) None 0.

Fixpoint count_loop (fuel : nat) (h : gmap loc node) (req : option loc) (count : Z) : Z :=
  match fuel, req with
  | S f, Some a => match h !! a with Some n => count_loop f h (n_next n) (count + 1) | None => count end
  | _, _ => count
  end.
(** [ioGetPendingRequestCount] when nothing runs in between its read of the head
    and its lock *)
Definition ioGetPendingRequestCount (q : ioq) : Z := count_loop (S (size (q_heap q))) (q_heap q) (gReqList q) 0.
Definition ioHasPendingRequests (q : ioq) : bool := bool_decide (gReqList q <> None).

(** ** What the queue is *)

Abbreviation request := (Z * Z)%type.

(** the nodes [l] from [p] up to the pointer [e] *)
Fixpoint lseg (h : gmap loc node) (p : option loc) (l : list (loc * request)) (e : option loc) : Prop :=
  match l with
  | [] => p = e
  | (a, (t, d)) :: r => p = Some a /\ exists nx, h !! a = Some (Node t d nx) /\ lseg h nx r e
  end.

(** the queue holds [l] and the heap nothing else *)
Definition queue_rep (q : ioq) (l : list (loc * request)) : Prop :=
  lseg (q_heap q) (gReqList q) l None /\ NoDup l.*1 /\ gReqEnd q = last l.*1 /\ dom (q_heap q) = list_to_set l.*1.

(** ** Lemmas *)

Lemma lseg_app h p l1 l2 e : lseg h p (l1 ++ l2) e <-> exists m, lseg h p l1 m /\ lseg h m l2 e.
Proof.
  revert p. induction l1 as [|[a [t d]] l1 IH]; intros p; cbn.
  - split; [intros H; by exists p|intros (m & -> & H); done].
  - split.
    + intros (-> & nx & Hn & H). apply IH in H as (m & H1 & H2). exists m. eauto.
    + intros (m & (-> & nx & Hn & H1) & H2). split; [done|]. exists nx. split; [done|]. apply IH. eauto.
Qed.

(** a change outside a segment leaves it *)
Lemma lseg_agree h h' p l e : (forall a, a ∈ l.*1 -> h' !! a = h !! a) -> lseg h p l e -> lseg h' p l e.
Proof.
  revert p. induction l as [|[a [t d]] l IH]; intros p H; cbn; [done|].
  intros (-> & nx & Hn & Hl). split; [done|]. exists nx. split.
  - rewrite H; [done|]. cbn. apply elem_of_cons. by left.
  - apply IH; [|done]. intros b Hb. apply H. cbn. apply elem_of_cons. by right.
Qed.

(** redirecting the last node of a segment moves its end *)
Lemma lseg_redirect h p l a rq e e' :
  NoDup (l ++ [(a, rq)]).*1 -> lseg h p (l ++ [(a, rq)]) e ->
  lseg (alter (set_next e') a h) p (l ++ [(a, rq)]) e'.
Proof.
  rewrite fmap_app. intros Hnd%NoDup_app. destruct Hnd as (_ & Hd & _).
  rewrite !lseg_app. destruct rq as [t d]. intros (m & H1 & -> & nx & Hn & ->). exists (Some a). split.
  - eapply lseg_agree; [|exact H1]. intros b Hb. apply lookup_alter_ne. intros ->.
    apply (Hd _ Hb). cbn. by apply list_elem_of_singleton.
  - cbn. split; [done|]. exists e'. split; [|done]. by rewrite lookup_alter_eq, Hn.
Qed.

Lemma queue_snoc_inv {A} (l : list A) : l = [] \/ exists l' x, l = l' ++ [x].
Proof. destruct l as [|x l _] using rev_ind; [by left|right; eauto]. Qed.

Lemma dom_alter_next (h : gmap loc node) nx (a : loc) : dom (alter (set_next nx) a h) = dom h.
Proof. apply dom_alter_L. Qed.

Lemma enqueue_spec q l a t d :
  queue_rep q l -> q_heap q !! a = None -> queue_rep (enqueue q a t d) (l ++ [(a, (t, d))]).
Proof.
  intros (Hs & Hnd & He & Hdom) Ha.
  assert (Hal : a ∉ l.*1).
  { intros Hin. assert (X : a ∈ dom (q_heap q)) by (rewrite Hdom; by apply elem_of_list_to_set).
    apply elem_of_dom in X as [n Hn]. congruence. }
  unfold queue_rep, enqueue. rewrite fmap_app. cbn [fmap list_fmap fst].
  assert (Hnd' : NoDup (l.*1 ++ [a])).
  { apply NoDup_app. split_and!; [done| |apply NoDup_singleton]. intros x Hx ->%list_elem_of_singleton. done. }
  destruct (queue_snoc_inv l) as [->|(l' & [e rq] & ->)].
  - rewrite He. cbn in *. subst. split_and!; try done.
    + exists None. by rewrite lookup_insert_eq.
    + rewrite dom_insert_L, Hdom. set_solver.
  - rewrite He, fmap_app. cbn [fmap list_fmap fst]. rewrite last_snoc. cbn [q_heap gReqList gReqEnd].
    rewrite fmap_app in Hal, Hnd, Hnd', Hdom. cbn [fmap list_fmap fst] in Hal, Hnd, Hnd', Hdom.
    split_and!.
    + apply lseg_app. exists (Some a). split.
      * eapply lseg_agree.
        2:{ apply (lseg_redirect (q_heap q) (gReqList q) l' e rq None); [|exact Hs]. by rewrite fmap_app. }
        intros b Hb. apply lookup_insert_ne. intros ->. apply Hal. by rewrite fmap_app in Hb.
      * cbn. split; [done|]. exists None. by rewrite lookup_insert_eq.
    + done.
    + by rewrite last_snoc.
    + rewrite dom_insert_L, dom_alter_next, Hdom, (list_to_set_app_L _ [a]). set_solver.
Qed.

Lemma unlink_spec q a t d l :
  queue_rep q ((a, (t, d)) :: l) -> queue_rep (unlink q a) l /\ gReqList q = Some a.
Proof.
  intros ((Hp & nx & Hn & Hs) & Hnd & He & Hdom). cbn [fmap list_fmap fst] in *.
  apply NoDup_cons in Hnd as [Ha Hnd]. split; [|done]. unfold unlink, queue_rep. cbn [q_heap gReqList gReqEnd].
  rewrite Hn. cbn [from_option n_next]. split_and!.
  - eapply lseg_agree; [|exact Hs]. intros b Hb. apply lookup_delete_ne. by intros ->.
  - done.
  - destruct l as [|[b rq] l]; cbn in Hs.
    + by subst nx.
    + destruct rq. destruct Hs as [-> _]. by rewrite He.
  - rewrite dom_delete_L, Hdom. cbn.
    assert (Ha' : a ∉ (list_to_set l.*1 : gset loc)) by (by rewrite elem_of_list_to_set). set_solver.
Qed.

(** the pass over the list: [l1] is kept so far, [l2] lies ahead *)
Lemma remove_loop_spec type l2 : forall fuel q l1 count,
  (length l2 < fuel)%nat ->
  lseg (q_heap q) (gReqList q) (l1 ++ l2) None -> NoDup (l1 ++ l2).*1 -> gReqEnd q = last (l1 ++ l2).*1 ->
  dom (q_heap q) = list_to_set (l1 ++ l2).*1 ->
  exists req, lseg (q_heap q) req l2 None /\
  let '(q', n) := remove_loop fuel type q req (last l1.*1) count in
  queue_rep q' (l1 ++ base.filter (fun x => x.2.1 <> type) l2) /\
  n = count + Z.of_nat (length (base.filter (fun x => x.2.1 = type) l2)).
Proof.
  induction l2 as [|[a [t d]] l2 IH]; intros fuel q l1 count Hf Hs Hnd He Hdom.
  - exists None. split; [done|]. rewrite app_nil_r in *.
    assert (E : remove_loop fuel type q None (last l1.*1) count = (q, count)) by by destruct fuel.
    rewrite E. split; [by split_and!|]. cbn. lia.
  - destruct fuel as [|fuel]; [lia|]. pose proof Hs as Hs0.
    apply lseg_app in Hs as (m & H1 & -> & nx & Hn & H2). exists (Some a). split; [cbn; eauto|].
    cbn [remove_loop]. rewrite Hn. cbn [n_type n_next]. rewrite !filter_cons. cbn [fst snd].
    rewrite fmap_app in Hnd. cbn [fmap list_fmap fst] in Hnd.
    destruct (Z.eqb_spec t type) as [->|Hne].
    + rewrite (decide_False (P := type <> type)), (decide_True (P := type = type)) by auto.
      set (h := match last l1.*1 with Some b => alter (set_next nx) b (q_heap q) | None => q_heap q end).
      set (lst := if bool_decide (gReqList q = Some a) then nx else gReqList q).
      set (tl := if bool_decide (gReqEnd q = Some a) then last l1.*1 else gReqEnd q).
      apply NoDup_app in Hnd as (N1 & N2 & N3). apply NoDup_cons in N3 as [N3 N4].
      assert (Hal1 : a ∉ l1.*1) by (intros X; apply (N2 _ X), elem_of_cons; by left).
      assert (Hd2 : forall x, x ∈ l1.*1 -> x ∉ l2.*1) by (intros x Hx X; apply (N2 _ Hx), elem_of_cons; by right).
      assert (Hseg : lseg (delete a h) lst (l1 ++ l2) None).
      { apply lseg_app. exists nx. destruct (queue_snoc_inv l1) as [->|(l1' & [b rq] & ->)].
        - cbn in H1. subst h lst. cbn [fmap list_fmap last]. rewrite bool_decide_eq_true_2 by done. split; [done|].
          eapply lseg_agree; [|exact H2]. intros x Hx. apply lookup_delete_ne. by intros ->.
        - assert (Hl : last (l1' ++ [(b, rq)]).*1 = Some b) by (rewrite fmap_app; apply last_snoc).
          subst h lst. rewrite Hl.
          assert (Hba : b <> a) by (intros ->; apply Hal1; rewrite fmap_app; apply elem_of_app; right; cbn; by left).
          split.
          + assert (Hlst : gReqList q <> Some a).
            { intros X. rewrite X in H1. destruct l1' as [|[x rx] l1']; cbn in H1.
              - destruct rq. destruct H1 as [[= ->] _]. done.
              - destruct rx. destruct H1 as [[= ->] _]. apply Hal1. cbn. by left. }
            rewrite bool_decide_eq_false_2 by done.
            eapply lseg_agree; [|by eapply lseg_redirect]. intros x Hx. apply lookup_delete_ne. intros ->. done.
          + eapply lseg_agree; [|exact H2]. intros x Hx. rewrite lookup_delete_ne by (by intros ->).
            apply lookup_alter_ne. intros <-. apply (Hd2 b); [|done]. rewrite fmap_app. apply elem_of_app. right. cbn. by left. }
      destruct (IH fuel (Q (delete a h) lst tl) l1 (count + 1)) as (req & Hr & IHr).
      * cbn in Hf. lia.
      * exact Hseg.
      * rewrite fmap_app. by apply NoDup_app.
      * cbn [gReqEnd]. subst tl. rewrite He, !fmap_app. cbn [fmap list_fmap fst].
        destruct (queue_snoc_inv l2) as [->|(l2' & [z rz] & ->)].
        -- cbn [fmap list_fmap]. rewrite last_snoc, bool_decide_eq_true_2 by done. by rewrite app_nil_r.
        -- rewrite !fmap_app. cbn [fmap list_fmap fst]. rewrite app_comm_cons, !app_assoc, !last_snoc.
           rewrite bool_decide_eq_false_2; [done|]. intros [= ->]. apply N3. rewrite fmap_app. apply elem_of_app. right. cbn. by left.
      * cbn [q_heap]. rewrite dom_delete_L. subst h.
        assert (E : dom (match last l1.*1 with Some b => alter (set_next nx) b (q_heap q) | None => q_heap q end) = dom (q_heap q)).
        { destruct (last l1.*1); [apply dom_alter_next|done]. }
        rewrite E, Hdom, !fmap_app, !list_to_set_app_L. cbn.
        assert (a ∉ (list_to_set l1.*1 : gset loc)) by (by rewrite elem_of_list_to_set).
        assert (a ∉ (list_to_set l2.*1 : gset loc)) by (by rewrite elem_of_list_to_set). set_solver.
      * assert (req = nx) as ->.
        { cbn [q_heap] in Hr. destruct l2 as [|[x [tx dx]] l2]; cbn in Hr, H2; [congruence|].
          destruct Hr as [-> _], H2 as [-> _]. done. }
        fold h lst tl. destruct (remove_loop fuel type _ nx (last l1.*1) (count + 1)) as [q' n].
        destruct IHr as [R1 R2]. split; [done|]. rewrite R2. cbn [length]. lia.
    + rewrite (decide_True (P := t <> type)), (decide_False (P := t = type)) by auto.
      destruct (IH fuel q (l1 ++ [(a, (t, d))]) count) as (req & Hr & IHr); try (rewrite <- app_assoc; done).
      * cbn in Hf. lia.
      * rewrite <- app_assoc, fmap_app. done.
      * assert (req = nx) as ->.
        { destruct l2 as [|[x [tx dx]] l2]; cbn in Hr, H2; [congruence|]. destruct Hr as [-> _], H2 as [-> _]. done. }
        rewrite fmap_app in IHr. cbn [fmap list_fmap fst] in IHr. rewrite last_snoc in IHr.
        destruct (remove_loop fuel type q nx (Some a) count) as [q' n]. rewrite <- app_assoc in IHr. exact IHr.
Qed.

Lemma queue_rep_size q l : queue_rep q l -> size (q_heap q) = length l.
Proof.
  intros (_ & Hnd & _ & Hdom). rewrite <- size_dom, Hdom, size_list_to_set by done. by rewrite length_fmap.
Qed.

Lemma remove_requests_spec q l type :
  queue_rep q l ->
  queue_rep (fst (remove_requests q type)) (base.filter (fun x => x.2.1 <> type) l) /\
  snd (remove_requests q type) = Z.of_nat (length (base.filter (fun x => x.2.1 = type) l)).
Proof.
  intros Hq. pose proof (queue_rep_size _ _ Hq) as Hsz. pose proof Hq as (Hs & Hnd & He & Hdom).
  destruct (remove_loop_spec type l (S (size (q_heap q))) q [] 0) as (req & Hr & H); auto; [lia|].
  assert (req = gReqList q) as ->.
  { destruct l as [|[a [t d]] l]; cbn in Hr, Hs; [congruence|]. destruct Hr as [-> _], Hs as [-> _]. done. }
  unfold remove_requests. cbn [fmap list_fmap last] in H.
  destruct (remove_loop _ type q (gReqList q) None 0) as [q' n]. cbn [fst snd app] in *. by destruct H as [? ->].
Qed.

Lemma count_loop_spec l : forall fuel h p c,
  (length l < fuel)%nat -> lseg h p l None -> count_loop fuel h p c = c + Z.of_nat (length l).
Proof.
  induction l as [|[a [t d]] l IH]; intros fuel h p c Hf Hs; (destruct fuel as [|f]; [cbn in Hf; lia|]).
  - cbn in Hs. subst p. cbn. lia.
  - destruct Hs as (-> & nx & Hn & Hs). cbn [count_loop]. rewrite Hn. cbn [n_next]. rewrite (IH f) by (done || cbn in Hf; lia).
    cbn [length]. lia.
Qed.

Lemma pending_spec q l :
  queue_rep q l ->
  ioGetPendingRequestCount q = Z.of_nat (length l) /\ ioHasPendingRequests q = negb (bool_decide (l = [])).
Proof.
  intros Hq. pose proof (queue_rep_size _ _ Hq) as Hsz. pose proof Hq as (Hs & _). split.
  - unfold ioGetPendingRequestCount. rewrite count_loop_spec with (l := l) by (done || lia). lia.
  - unfold ioHasPendingRequests. destruct l as [|[a [t d]] l]; cbn in Hs.
    + by rewrite Hs.
    + destruct Hs as [-> _]. done.
Qed.

(** ** Handlers and counters *)

Definition MAX_IO_HANDLERS : nat := 64.
Definition IO_REQ_TYPE_COUNT : Z := 5.
Definition IO_OK : Z := 0.
Definition IO_ERR_TOO_MANY_HANDLERS : Z := -2.
Definition IO_ERR_DUPLICIT_HANDLER : Z := -3.
Definition IO_ERR_INVALID_HANDLER : Z := -4.
Definition IO_ERR_IO_BLOCKED : Z := -5.
Definition IO_ERR_TOO_MANY_REQUESTS : Z := -6.

(** a handler is a function pointer; NULL is [None] where one is registered *)
Abbreviation handler := Z (only parsing).

Fixpoint ioGetHandler (hs : list (Z * handler)) (type : Z) : option handler :=
  match hs with
  | [] => None
  | (t, h) :: r => if t =? type then Some h else ioGetHandler r type
  end.

Definition ioRegisterHandler (hs : list (Z * handler)) (type : Z) (h : option handler) : Z * list (Z * handler) :=
  match h with
  | None => (IO_ERR_INVALID_HANDLER, hs)
  | Some h =>
    if Nat.leb MAX_IO_HANDLERS (length hs) then (IO_ERR_TOO_MANY_HANDLERS, hs)
    else if existsb (fun x => fst x =? type) hs then (IO_ERR_DUPLICIT_HANDLER, hs)
    else (IO_OK, hs ++ [(type, h)])
  end.

Definition counted (type : Z) : bool := (0 <? type) && (type <? IO_REQ_TYPE_COUNT).

(** the two counter arrays as maps from a counted type *)
Definition bump (f : Z -> Z) (type : Z) : Z -> Z :=
  fun t => if counted type && (t =? type) then f t + 1 else f t.
Definition drop1 (f : Z -> Z) (type : Z) : Z -> Z :=
  fun t => if counted type && (0 <? f type) && (t =? type) then f t - 1 else f t.

Definition ioGetPending (f : Z -> Z) (type : Z) : Z := if counted type then f type else 0.

(** ** The threads *)

Inductive worker_state :=
| WSleep                 (* in SleepThread, no semaphore held *)
| WDrain                 (* holds gProcSemaId, between requests *)
| WRun (req : loc)       (* holds gProcSemaId, in the handler of [req] *)
| WExit.                 (* left the loop; the queue is freed *)

Record iosys := Sys {
  io_q : ioq;
  io_handlers : list (Z * handler);
  gIoPending : Z -> Z;
  gIoTotal : Z -> Z;
  isIOBlocked : bool;
  gIOTerminate : bool;
  io_worker : worker_state;
  io_puts : list request;         (* callers of ioPutRequest past its two checks *)
  (* history *)
  io_run : list request;          (* requests handed to their handlers, in order *)
  io_accepted : list request;     (* requests queued and not removed, in order *)
  io_removed : list request;      (* requests ioRemoveRequests took out *)
}.

Definition with_q (s : iosys) (q : ioq) : iosys :=
  Sys q (io_handlers s) (gIoPending s) (gIoTotal s) (isIOBlocked s) (gIOTerminate s) (io_worker s) (io_puts s)
      (io_run s) (io_accepted s) (io_removed s).
Definition with_worker (s : iosys) (w : worker_state) : iosys :=
  Sys (io_q s) (io_handlers s) (gIoPending s) (gIoTotal s) (isIOBlocked s) (gIOTerminate s) w (io_puts s)
      (io_run s) (io_accepted s) (io_removed s).

(** nobody but the worker holds gProcSemaId between steps *)
Definition proc_free (s : iosys) : Prop := io_worker s = WSleep.

(** the checks of [ioPutRequest]: [None] when the request is refused *)
Definition put_checks (s : iosys) (type : Z) : option Z :=
  if isIOBlocked s then Some IO_ERR_IO_BLOCKED
  else match ioGetHandler (io_handlers s) type with
       | None => Some IO_ERR_INVALID_HANDLER
       | Some _ => None
       end.

(** the queued requests, head first *)
Fixpoint contents_from (fuel : nat) (h : gmap loc node) (p : option loc) : list request :=
  match fuel, p with
  | S f, Some a => match h !! a with
                   | Some n => (n_type n, n_data n) :: contents_from f h (n_next n)
                   | None => []
                   end
  | _, _ => []
  end.
Definition contents (s : iosys) : list request :=
  contents_from (S (size (q_heap (io_q s)))) (q_heap (io_q s)) (gReqList (io_q s)).

(** the accepted requests not handed out yet, by the history alone *)
Definition waiting (s : iosys) : list request := drop (length (io_run s)) (io_accepted s).

Definition run_request (s : iosys) (a : loc) : list request :=
  match q_heap (io_q s) !! a with
  | Some n => match ioGetHandler (io_handlers s) (n_type n) with
              | Some _ => [(n_type n, n_data n)]
              | None => []
              end
  | None => []
  end.

(** the request being handled, still at the head of the queue *)
Definition in_hand (s : iosys) : nat := match io_worker s with WRun _ => 1 | _ => 0 end.

Inductive io_step : iosys -> iosys -> Prop :=
| step_register s type h :
    proc_free s ->
    io_step s (Sys (io_q s) (snd (ioRegisterHandler (io_handlers s) type h)) (gIoPending s) (gIoTotal s)
      (isIOBlocked s) (gIOTerminate s) (io_worker s) (io_puts s) (io_run s) (io_accepted s) (io_removed s))
| step_put_check s type data :
    put_checks s type = None ->
    io_step s (Sys (io_q s) (io_handlers s) (gIoPending s) (gIoTotal s) (isIOBlocked s) (gIOTerminate s)
      (io_worker s) (io_puts s ++ [(type, data)]) (io_run s) (io_accepted s) (io_removed s))
| step_put s p1 type data p2 a :
    io_worker s <> WExit -> io_puts s = p1 ++ (type, data) :: p2 -> q_heap (io_q s) !! a = None ->
    io_step s (Sys (enqueue (io_q s) a type data) (io_handlers s) (bump (gIoPending s) type)
      (bump (gIoTotal s) type) (isIOBlocked s) (gIOTerminate s) (io_worker s) (p1 ++ p2) (io_run s)
      (io_accepted s ++ [(type, data)]) (io_removed s))
| step_put_oom s p1 r p2 :
    io_puts s = p1 ++ r :: p2 ->
    io_step s (Sys (io_q s) (io_handlers s) (gIoPending s) (gIoTotal s) (isIOBlocked s) (gIOTerminate s)
      (io_worker s) (p1 ++ p2) (io_run s) (io_accepted s) (io_removed s))
| step_wake s :
    proc_free s -> gIOTerminate s = false -> io_step s (with_worker s WDrain)
| step_take s a :
    io_worker s = WDrain -> gIOTerminate s = false -> gReqList (io_q s) = Some a ->
    io_step s (Sys (io_q s) (io_handlers s) (gIoPending s) (gIoTotal s) (isIOBlocked s) (gIOTerminate s)
      (WRun a) (io_puts s) (io_run s ++ run_request s a) (io_accepted s) (io_removed s))
| step_unlink s a n :
    io_worker s = WRun a -> q_heap (io_q s) !! a = Some n ->
    io_step s (Sys (unlink (io_q s) a) (io_handlers s) (drop1 (gIoPending s) (n_type n)) (gIoTotal s)
      (isIOBlocked s) (gIOTerminate s) WDrain (io_puts s) (io_run s) (io_accepted s) (io_removed s))
| step_sleep s :
    io_worker s = WDrain -> (gReqList (io_q s) = None \/ gIOTerminate s = true) -> io_step s (with_worker s WSleep)
| step_remove s type :
    proc_free s ->
    io_step s (Sys (fst (remove_requests (io_q s) type)) (io_handlers s) (gIoPending s) (gIoTotal s)
      (isIOBlocked s) (gIOTerminate s) (io_worker s) (io_puts s) (io_run s)
      (io_run s ++ base.filter (fun r => r.1 <> type) (waiting s))
      (io_removed s ++ base.filter (fun r => r.1 = type) (waiting s)))
| step_block s b :
    io_step s (Sys (io_q s) (io_handlers s) (gIoPending s) (gIoTotal s) b (gIOTerminate s) (io_worker s)
      (io_puts s) (io_run s) (io_accepted s) (io_removed s))
| step_end s :
    io_step s (Sys (io_q s) (io_handlers s) (gIoPending s) (gIoTotal s) (isIOBlocked s) true (io_worker s)
      (io_puts s) (io_run s) (io_accepted s) (io_removed s))
| step_exit s :
    io_worker s = WSleep -> gIOTerminate s = true ->
    io_step s (Sys (Q ∅ None (gReqEnd (io_q s))) (io_handlers s) (gIoPending s) (gIoTotal s) (isIOBlocked s)
      true WExit (io_puts s) (io_run s) (io_accepted s) (io_removed s)).

(** [ioInit]: an empty queue and the handler of simple actions *)
Definition IO_CUSTOM_SIMPLEACTION : Z := 1.
Definition ioInit (simple_action : handler) : iosys :=
  Sys empty_queue (snd (ioRegisterHandler [] IO_CUSTOM_SIMPLEACTION (Some simple_action)))
      (fun _ => 0) (fun _ => 0) false false WSleep [] [] [] [].
Definition io_init (s : iosys) : Prop := exists h, s = ioInit h.

Definition count_type (t : Z) (l : list request) : Z := Z.of_nat (length (base.filter (fun r => r.1 = t) l)).

(** what holds between the steps, while the worker lives *)
Record io_inv (s : iosys) : Prop := {
  inv_queue : exists l, queue_rep (io_q s) l /\
    (* what was accepted is what was handled and what waits, in order *)
    io_accepted s = io_run s ++ drop (in_hand s) l.*2 /\
    (* every queued request has a handler *)
    Forall (fun r => ioGetHandler (io_handlers s) r.1 <> None) (l.*2 ++ io_puts s) /\
    match io_worker s with WRun a => exists rq r, l = (a, rq) :: r | _ => True end /\
    forall t, counted t = true -> gIoPending s t = count_type t l.*2 + count_type t (io_removed s);
  inv_handlers : NoDup (io_handlers s).*1 /\ (length (io_handlers s) <= MAX_IO_HANDLERS)%nat;
}.

(** ** Lemmas *)

Lemma contents_rep s l : queue_rep (io_q s) l -> contents s = l.*2.
Proof.
  intros Hq. pose proof (queue_rep_size _ _ Hq) as Hsz. destruct Hq as (Hs & _). unfold contents. rewrite Hsz.
  clear Hsz. revert Hs. generalize (gReqList (io_q s)). intros p.
  assert (G : forall fuel p, (length l < fuel)%nat -> lseg (q_heap (io_q s)) p l None -> contents_from fuel (q_heap (io_q s)) p = l.*2).
  { induction l as [|[a [t d]] l IH]; intros fuel p0 Hf Hs; (destruct fuel as [|f]; [cbn in Hf; lia|]).
    - cbn in Hs. by subst p0.
    - destruct Hs as (-> & nx & Hn & Hs). cbn [contents_from]. rewrite Hn. cbn. f_equal. apply IH; [cbn in Hf; lia|done]. }
  apply G. lia.
Qed.

Lemma get_handler_app hs h t : ioGetHandler hs t <> None -> ioGetHandler (hs ++ [h]) t <> None.
Proof. induction hs as [|[t' h'] hs IH]; cbn; [done|]. destruct (t' =? t); [done|apply IH]. Qed.

Lemma register_spec hs type h :
  NoDup hs.*1 -> (length hs <= MAX_IO_HANDLERS)%nat ->
  let hs' := snd (ioRegisterHandler hs type h) in
  NoDup hs'.*1 /\ (length hs' <= MAX_IO_HANDLERS)%nat /\
  (forall t, ioGetHandler hs t <> None -> ioGetHandler hs' t <> None).
Proof.
  intros Hnd Hl. unfold ioRegisterHandler. destruct h as [h|]; [|done].
  destruct (Nat.leb_spec MAX_IO_HANDLERS (length hs)); [done|].
  destruct (existsb _ hs) eqn:E; [done|]. cbn [snd]. split_and!.
  - rewrite fmap_app. apply NoDup_app. split_and!; [done| |apply NoDup_singleton].
    intros x Hx Hx'. cbn in Hx'. apply list_elem_of_singleton in Hx' as ->.
    apply list_elem_of_fmap in Hx as ([t' h'] & -> & Hin). cbn in E.
    assert (existsb (fun x => fst x =? t') hs = true); [|congruence].
    apply existsb_exists. exists (t', h'). split; [by apply list_elem_of_In|]. apply Z.eqb_refl.
  - rewrite length_app. cbn. lia.
  - intros t. apply get_handler_app.
Qed.

Lemma count_type_app t a b : count_type t (a ++ b) = count_type t a + count_type t b.
Proof. unfold count_type. rewrite filter_app, length_app. lia. Qed.

Lemma count_type_one t r : count_type t [r] = if r.1 =? t then 1 else 0.
Proof.
  unfold count_type. rewrite filter_cons. destruct (Z.eqb_spec r.1 t); [by rewrite decide_True|by rewrite decide_False].
Qed.

Lemma count_type_filter_ne t ty l :
  count_type t (base.filter (fun r => r.1 <> ty) l) + count_type t (base.filter (fun r => r.1 = ty) l) = count_type t l.
Proof.
  unfold count_type. induction l as [|r l IH]; [done|]. rewrite !filter_cons.
  destruct (decide (r.1 = ty)) as [E|E].
  - rewrite (decide_False (P := r.1 <> ty)) by auto. rewrite !filter_cons. destruct (decide (r.1 = t)); cbn [length]; lia.
  - rewrite (decide_True (P := r.1 <> ty)) by auto. rewrite !filter_cons. destruct (decide (r.1 = t)); cbn [length]; lia.
Qed.

Lemma filter_type_snd type (l : list (loc * request)) :
  (base.filter (fun x : loc * request => x.2.1 <> type) l).*2 = base.filter (fun r : request => r.1 <> type) l.*2.
Proof.
  induction l as [|x l IH]; [done|]. cbn [fmap list_fmap]. rewrite !filter_cons.
  repeat case_decide; try done. cbn [fmap list_fmap]. by f_equal.
Qed.

(** ** The invariant *)

Lemma inv_init s : io_init s -> io_inv s.
Proof.
  intros [h ->]. constructor.
  - exists []. split_and!; try done. by split_and!; [|constructor| |].
  - cbn. split; [apply NoDup_singleton|]. unfold MAX_IO_HANDLERS. lia.
Qed.

Lemma inv_register s type h : io_inv s -> proc_free s ->
  io_inv (Sys (io_q s) (snd (ioRegisterHandler (io_handlers s) type h)) (gIoPending s) (gIoTotal s)
    (isIOBlocked s) (gIOTerminate s) (io_worker s) (io_puts s) (io_run s) (io_accepted s) (io_removed s)).
Proof.
  intros [(l & Hq & Ha & Hh & Hw & Hp) [Hnd Hl]] _. destruct (register_spec _ type h Hnd Hl) as (R1 & R2 & R3).
  constructor; [|by split]. exists l. split_and!; auto. eapply Forall_impl; [exact Hh|]. cbn. auto.
Qed.

Lemma inv_put_check s type data : io_inv s -> put_checks s type = None ->
  io_inv (Sys (io_q s) (io_handlers s) (gIoPending s) (gIoTotal s) (isIOBlocked s) (gIOTerminate s)
    (io_worker s) (io_puts s ++ [(type, data)]) (io_run s) (io_accepted s) (io_removed s)).
Proof.
  intros [(l & Hq & Ha & Hh & Hw & Hp) Hhs] Hc. constructor; [|done]. exists l. split_and!; auto.
  cbn [io_handlers io_puts]. rewrite app_assoc. apply Forall_app. split; [done|]. constructor; [|constructor].
  unfold put_checks in Hc. destruct (isIOBlocked s); [done|]. cbn. by destruct (ioGetHandler _ type).
Qed.

Lemma inv_put s p1 type data p2 a : io_inv s ->
  io_puts s = p1 ++ (type, data) :: p2 -> q_heap (io_q s) !! a = None ->
  io_inv (Sys (enqueue (io_q s) a type data) (io_handlers s) (bump (gIoPending s) type)
    (bump (gIoTotal s) type) (isIOBlocked s) (gIOTerminate s) (io_worker s) (p1 ++ p2) (io_run s)
    (io_accepted s ++ [(type, data)]) (io_removed s)).
Proof.
  intros [(l & Hq & Ha & Hh & Hw & Hp) Hhs] Hpu Hfresh. constructor; [|done].
  exists (l ++ [(a, (type, data))]). cbn [io_q io_handlers io_worker io_puts io_accepted io_run io_removed gIoPending].
  rewrite fmap_app. cbn [fmap list_fmap snd]. split_and!.
  - by apply enqueue_spec.
  - rewrite Ha, <- app_assoc. f_equal. change (in_hand _) with (in_hand s). symmetry. apply drop_app_le.
    rewrite length_fmap. unfold in_hand. destruct (io_worker s); try lia. destruct Hw as (rq & r & ->). cbn. lia.
  - rewrite Hpu in Hh. rewrite <- app_assoc. rewrite !Forall_app, Forall_cons in *.
    destruct Hh as (H1 & H2 & H3 & H4). split_and!; auto.
  - destruct (io_worker s); try done. destruct Hw as (rq & r & ->). by exists rq, (r ++ [(a, (type, data))]).
  - intros t Ht. rewrite count_type_app, count_type_one. cbn [fst]. unfold bump.
    rewrite (Z.eqb_sym type t). specialize (Hp t Ht).
    destruct (Z.eqb_spec t type) as [->|Hne]; [rewrite Ht; cbn; lia|]. rewrite andb_false_r. lia.
Qed.

Lemma inv_put_oom s p1 r p2 : io_inv s -> io_puts s = p1 ++ r :: p2 ->
  io_inv (Sys (io_q s) (io_handlers s) (gIoPending s) (gIoTotal s) (isIOBlocked s) (gIOTerminate s)
    (io_worker s) (p1 ++ p2) (io_run s) (io_accepted s) (io_removed s)).
Proof.
  intros [(l & Hq & Ha & Hh & Hw & Hp) Hhs] Hpu. constructor; [|done]. exists l. split_and!; auto.
  cbn [io_handlers io_puts]. rewrite Hpu in Hh. rewrite !Forall_app, Forall_cons in *. tauto.
Qed.

Lemma inv_worker s w : io_inv s -> in_hand s = O -> match w with WRun _ => False | _ => True end ->
  io_inv (with_worker s w).
Proof.
  intros [(l & Hq & Ha & Hh & Hw & Hp) Hhs] H0 Hnr. constructor; [|done]. exists l. split_and!; auto.
  - cbn [with_worker io_accepted io_run]. rewrite Ha, H0. by destruct w.
  - by destruct w.
Qed.

Lemma inv_take s a : io_inv s -> io_worker s = WDrain -> gReqList (io_q s) = Some a ->
  io_inv (Sys (io_q s) (io_handlers s) (gIoPending s) (gIoTotal s) (isIOBlocked s) (gIOTerminate s)
    (WRun a) (io_puts s) (io_run s ++ run_request s a) (io_accepted s) (io_removed s)).
Proof.
  intros [(l & Hq & Ha & Hh & Hw & Hp) Hhs] Hd Hl. pose proof Hq as (Hs & _).
  destruct l as [|[a' [t d]] l]; cbn in Hs; [congruence|]. destruct Hs as (Hl' & nx & Hn & _).
  assert (a' = a) as -> by congruence.
  constructor; [|done]. exists ((a, (t, d)) :: l). split_and!; auto.
  - cbn [io_accepted io_run]. rewrite Ha. unfold in_hand at 1. rewrite Hd. cbn [in_hand io_worker].
    unfold run_request. rewrite Hn. cbn [n_type n_data]. cbn [fmap list_fmap snd app] in Hh. apply Forall_cons in Hh as [Hh _].
    cbn in Hh. destruct (ioGetHandler (io_handlers s) t); [|done]. cbn. by rewrite <- app_assoc.
  - by exists (t, d), l.
Qed.

Lemma inv_unlink s a n : io_inv s -> io_worker s = WRun a -> q_heap (io_q s) !! a = Some n ->
  io_inv (Sys (unlink (io_q s) a) (io_handlers s) (drop1 (gIoPending s) (n_type n)) (gIoTotal s)
    (isIOBlocked s) (gIOTerminate s) WDrain (io_puts s) (io_run s) (io_accepted s) (io_removed s)).
Proof.
  intros [(l & Hq & Ha & Hh & Hw & Hp) Hhs] Hr Hn. rewrite Hr in Hw. destruct Hw as ([t d] & r & ->).
  pose proof Hq as ((_ & nx & Hn' & _) & _). rewrite Hn in Hn'. injection Hn' as ->. cbn [n_type].
  constructor; [|done]. exists r. cbn [io_q io_handlers io_worker io_puts io_accepted io_run io_removed gIoPending].
  split_and!; auto.
  - by apply (unlink_spec _ a t d).
  - rewrite Ha. unfold in_hand. rewrite Hr. done.
  - cbn [fmap list_fmap snd app] in Hh. by apply Forall_cons in Hh as [_ Hh].
  - intros t' Ht'. specialize (Hp t' Ht'). cbn [fmap list_fmap snd] in Hp.
    change ((t, d) :: r.*2) with ([(t, d)] ++ r.*2) in Hp. rewrite count_type_app, count_type_one in Hp. cbn [fst] in Hp.
    unfold drop1. rewrite (Z.eqb_sym t t') in Hp. destruct (Z.eqb_spec t' t) as [Et|Hne].
    + subst t'. rewrite Ht'. cbn [andb].
      assert (0 <= count_type t r.*2 /\ 0 <= count_type t (io_removed s)) by (unfold count_type; lia).
      replace (0 <? gIoPending s t) with true by (symmetry; apply Z.ltb_lt; lia). cbn. lia.
    + rewrite andb_false_r. lia.
Qed.

Lemma inv_remove s type : io_inv s -> proc_free s ->
  io_inv (Sys (fst (remove_requests (io_q s) type)) (io_handlers s) (gIoPending s) (gIoTotal s)
    (isIOBlocked s) (gIOTerminate s) (io_worker s) (io_puts s) (io_run s)
    (io_run s ++ base.filter (fun r => r.1 <> type) (waiting s))
    (io_removed s ++ base.filter (fun r => r.1 = type) (waiting s))).
Proof.
  intros [(l & Hq & Ha & Hh & Hw & Hp) Hhs] Hpf. constructor; [|done].
  assert (Hwait : waiting s = l.*2).
  { unfold waiting. rewrite Ha. unfold in_hand. rewrite Hpf. cbn. apply drop_app_length. }
  rewrite Hwait. exists (base.filter (fun x => x.2.1 <> type) l).
  assert (E : (base.filter (fun x : loc * request => x.2.1 <> type) l).*2 = base.filter (fun r => r.1 <> type) l.*2).
  { apply filter_type_snd. }
  cbn [io_q io_handlers io_worker io_puts io_accepted io_run io_removed gIoPending]. rewrite E. split_and!.
  - by apply remove_requests_spec.
  - unfold in_hand. cbn [io_worker]. rewrite Hpf. done.
  - rewrite !Forall_app in *. destruct Hh. split; [by apply Forall_filter|done].
  - by rewrite Hpf.
  - intros t Ht. rewrite count_type_app, (Hp t Ht). pose proof (count_type_filter_ne t type l.*2). lia.
Qed.

Lemma io_step_inv s s' :
  (io_worker s <> WExit -> io_inv s) -> io_step s s' -> (io_worker s' <> WExit -> io_inv s').
Proof.
  intros Hi Hstep Hex. destruct Hstep; unfold proc_free in *.
  - apply inv_register; auto.
  - apply inv_put_check; auto.
  - by apply (inv_put s p1 type data p2 a); auto.
  - apply (inv_put_oom s p1 r p2); auto.
  - apply inv_worker; [apply Hi; congruence|unfold in_hand; by rewrite H|done].
  - apply inv_take; auto. apply Hi. congruence.
  - apply (inv_unlink s a n); auto. apply Hi. congruence.
  - apply inv_worker; [apply Hi; congruence|unfold in_hand; by rewrite H|done].
  - apply inv_remove; auto.
  - specialize (Hi Hex). destruct Hi as [(l & Hq) Hhs]. constructor; [|done]. by exists l.
  - specialize (Hi Hex). destruct Hi as [(l & Hq) Hhs]. constructor; [|done]. by exists l.
  - done.
Qed.

Lemma io_reachable_inv s : reachable io_init io_step s -> io_worker s <> WExit -> io_inv s.
Proof.
  apply (invariant_reachable io_init io_step (fun s => io_worker s <> WExit -> io_inv s)).
  - intros s0 H _. by apply inv_init.
  - intros s0 s1. apply io_step_inv.
Qed.

(** ** Properties *)

(** C11. The pointer code implements a queue: appending, unlinking the head,
    removing a type and counting do to the list of requests what their names say,
    and the heap holds exactly the queued nodes, so nothing leaks, dangles or is
    freed twice. *)
Theorem io_queue_refines q l a type data :
  queue_rep q l -> q_heap q !! a = None ->
  queue_rep (enqueue q a type data) (l ++ [(a, (type, data))]) /\
  (forall b rq r, l = (b, rq) :: r -> gReqList q = Some b /\ queue_rep (unlink q b) r) /\
  queue_rep (fst (remove_requests q type)) (base.filter (fun x => x.2.1 <> type) l) /\
  snd (remove_requests q type) = Z.of_nat (length (base.filter (fun x => x.2.1 = type) l)) /\
  ioGetPendingRequestCount q = Z.of_nat (length l) /\ ioHasPendingRequests q = negb (bool_decide (l = [])).
Proof.
  intros Hq Ha. split_and!.
  - by apply enqueue_spec.
  - intros b [t d] r ->. by apply unlink_spec in Hq as [? ?].
  - by apply remove_requests_spec.
  - by apply remove_requests_spec.
  - by apply pending_spec.
  - by apply pending_spec.
Qed.


(** The busy counter of a type is not the number of its requests in the queue:
    it is that number plus every request of the type that [ioRemoveRequests] has
    ever taken out, which nothing subtracts. *)
Theorem io_pending_drift s t :
  reachable io_init io_step s -> io_worker s <> WExit -> counted t = true ->
  ioGetPending (gIoPending s) t = count_type t (contents s) + count_type t (io_removed s).
Proof.
  intros Hr Hx Ht. destruct (io_reachable_inv s Hr Hx) as [(l & Hq & _ & _ & _ & Hp) _].
  unfold ioGetPending. rewrite Ht, (contents_rep s l Hq). by apply Hp.
Qed.

(** Blocking drains: while the block is on and no caller is past its checks,
    no caller gets past them, no step makes the queue longer, and each request the
    worker finishes makes it shorter. *)
Theorem io_block_drains s s' :
  reachable io_init io_step s -> io_worker s <> WExit -> io_worker s' <> WExit ->
  isIOBlocked s = true -> io_puts s = [] -> io_step s s' ->
  io_puts s' = [] /\ (length (contents s') <= length (contents s))%nat /\
  (forall a, io_worker s = WRun a -> io_worker s' = WDrain -> (length (contents s') < length (contents s))%nat).
Proof.
  intros Hr Hx Hx' Hb Hp Hstep.
  assert (Hr' : reachable io_init io_step s') by (by eapply reach_step).
  destruct (io_reachable_inv s Hr Hx) as [(l & Hq & _) _].
  destruct (io_reachable_inv s' Hr' Hx') as [(l' & Hq' & _) _].
  rewrite (contents_rep s l Hq), (contents_rep s' l' Hq'). rewrite !length_fmap.
  rewrite <- (queue_rep_size _ _ Hq), <- (queue_rep_size _ _ Hq').
  destruct Hstep; cbn [io_puts io_q io_worker with_worker] in *; try (split_and!; [done|lia|congruence]).
  - unfold put_checks in H. by rewrite Hb in H.
  - rewrite Hp in H0. by destruct p1.
  - rewrite Hp in H. by destruct p1.
  - assert (Hsz : (size (q_heap (unlink (io_q s) a)) < size (q_heap (io_q s)))%nat).
    { unfold unlink. cbn [q_heap]. rewrite map_size_delete, H0.
      assert (size (q_heap (io_q s)) <> 0)%nat; [|lia]. intros E. apply map_size_empty_inv in E. by rewrite E in H0. }
    split_and!; [done|lia|intros; lia].
  - unfold proc_free in H. split_and!; [done| |congruence].
    destruct (remove_requests_spec (io_q s) l type Hq) as [Hrr _].
    rewrite (queue_rep_size _ _ Hrr), (queue_rep_size _ _ Hq). apply length_filter.
  - done.
Qed.

(** [ioGetPendingRequestCount] reads the head before it takes the lock it walks
    the list under: the worker can finish and free that very node while the caller
    waits, and the walk then starts in freed memory. *)
Theorem pending_count_stale_head :
  exists s0 s1 a, reachable io_init io_step s0 /\ rtc io_step s0 s1 /\
    gReqList (io_q s0) = Some a /\ io_worker s0 <> WSleep /\ proc_free s1 /\ q_heap (io_q s1) !! a = None.
Proof.
  pose (s1 := Sys (io_q (ioInit 7)) (io_handlers (ioInit 7)) (fun _ => 0) (fun _ => 0) false false WSleep [(1, 42)] [] [] []).
  pose (s2 := Sys (enqueue empty_queue 1%positive 1 42) (io_handlers s1) (bump (fun _ => 0) 1) (bump (fun _ => 0) 1) false false
                  WSleep [] [] [(1, 42)] []).
  pose (s3 := with_worker s2 WDrain).
  pose (s4 := Sys (io_q s3) (io_handlers s3) (gIoPending s3) (gIoTotal s3) false false (WRun 1%positive) [] [(1, 42)] [(1, 42)] []).
  pose (s5 := Sys (unlink (io_q s4) 1%positive) (io_handlers s4) (drop1 (gIoPending s4) 1) (gIoTotal s4) false false WDrain
                  [] [(1, 42)] [(1, 42)] []).
  exists s4, (with_worker s5 WSleep), 1%positive. split_and!; try done.
  - apply (reach_step _ _ s3); [|by apply (step_take s3 1%positive)].
    apply (reach_step _ _ s2); [|by apply step_wake].
    apply (reach_step _ _ s1); [|by apply (step_put s1 [] 1 42 [] 1%positive)].
    apply (reach_step _ _ (ioInit 7)); [apply reach_init; by exists 7|by apply (step_put_check (ioInit 7) 1 42)].
  - eapply rtc_l; [by apply (step_unlink s4 1%positive (Node 1 42 None))|].
    eapply rtc_l; [apply step_sleep; [done|by left]|]. apply rtc_refl.
Qed.

(** ** Witnesses *)

Lemma io_queue_refines_witness :
  queue_rep (fst (remove_requests (enqueue (enqueue empty_queue 1%positive 3 10) 2%positive 4 20) 3)) [(2%positive, (4, 20))].
Proof.
  assert (H1 : queue_rep (enqueue empty_queue 1%positive 3 10) [(1%positive, (3, 10))]).
  { apply (io_queue_refines empty_queue [] 1%positive 3 10); [by split_and!; [|constructor| |]|done]. }
  assert (H2 : queue_rep (enqueue (enqueue empty_queue 1%positive 3 10) 2%positive 4 20) [(1%positive, (3, 10)); (2%positive, (4, 20))]).
  { apply (io_queue_refines _ _ 2%positive 4 20 H1). done. }
  destruct (io_queue_refines _ _ 3%positive 3 0 H2) as (_ & _ & H & _); [done|exact H].
Defined.

(** a session: one request in the hands of its handler, two more waiting *)
Definition busy_sys : iosys :=
  let q := enqueue (enqueue (enqueue empty_queue 1%positive 1 10) 2%positive 1 20) 3%positive 1 30 in
  Sys q [(1, 7)] (bump (bump (bump (fun _ => 0) 1) 1) 1) (bump (bump (bump (fun _ => 0) 1) 1) 1) false false (WRun 1%positive)
      [] [(1, 10)] [(1, 10); (1, 20); (1, 30)] [].

Lemma busy_sys_reachable : reachable io_init io_step busy_sys.
Proof.
  pose (f n := Nat.iter n (fun g => bump g 1) (fun _ => 0)).
  pose (q1 := enqueue empty_queue 1%positive 1 10). pose (q2 := enqueue q1 2%positive 1 20). pose (q3 := enqueue q2 3%positive 1 30).
  pose (a1 := [(1, 10)]). pose (a2 := a1 ++ [(1, 20)]). pose (a3 := a2 ++ [(1, 30)]).
  pose (mk q n p a := Sys q [(1, 7)] (f n) (f n) false false WSleep p [] a []).
  apply (reach_step _ _ (with_worker (mk q3 3%nat [] a3) WDrain)); [|by apply (step_take (with_worker (mk q3 3%nat [] a3) WDrain) 1%positive)].
  apply (reach_step _ _ (mk q3 3%nat [] a3)); [|by apply (step_wake (mk q3 3%nat [] a3))].
  apply (reach_step _ _ (mk q2 2%nat [(1, 30)] a2)); [|by apply (step_put (mk q2 2%nat [(1, 30)] a2) [] 1 30 [] 3%positive)].
  apply (reach_step _ _ (mk q2 2%nat [] a2)); [|by apply (step_put_check (mk q2 2%nat [] a2) 1 30)].
  apply (reach_step _ _ (mk q1 1%nat [(1, 20)] a1)); [|by apply (step_put (mk q1 1%nat [(1, 20)] a1) [] 1 20 [] 2%positive)].
  apply (reach_step _ _ (mk q1 1%nat [] a1)); [|by apply (step_put_check (mk q1 1%nat [] a1) 1 20)].
  apply (reach_step _ _ (mk empty_queue 0%nat [(1, 10)] [])); [|by apply (step_put (mk empty_queue 0%nat [(1, 10)] []) [] 1 10 [] 1%positive)].
  apply (reach_step _ _ (ioInit 7)); [apply reach_init; by exists 7|by apply (step_put_check (ioInit 7) 1 10)].
Qed.


Lemma io_pending_drift_witness : ioGetPending (gIoPending busy_sys) 1 = count_type 1 (contents busy_sys) + 0.
Proof. apply (io_pending_drift busy_sys 1); [apply busy_sys_reachable|done|done]. Defined.

Definition blocked_sys : iosys :=
  Sys (io_q busy_sys) (io_handlers busy_sys) (gIoPending busy_sys) (gIoTotal busy_sys) true false (io_worker busy_sys)
      (io_puts busy_sys) (io_run busy_sys) (io_accepted busy_sys) (io_removed busy_sys).

Lemma io_block_drains_witness :
  exists s', io_step blocked_sys s' /\ (length (contents s') < length (contents blocked_sys))%nat.
Proof.
  assert (Hr : reachable io_init io_step blocked_sys) by (eapply reach_step; [apply busy_sys_reachable|apply (step_block busy_sys true)]).
  assert (Hs : io_step blocked_sys _) by (apply (step_unlink blocked_sys 1%positive (Node 1 10 (Some 2%positive))); [done|by vm_compute]).
  eexists. split; [exact Hs|].
  eapply (io_block_drains blocked_sys _ Hr); [done| |done|done|exact Hs|reflexivity|reflexivity]. done.
Defined.
