(* ===== verification/Tar.v ===== *)
(** * Tar: the archive index of src/tar.c

    Art, settings and cheats can come from one uncompressed ustar archive per
    device. The header table is indexed once and kept beside the archive in a cache
    file; bodies are read on request. The index of a kind is the list of its entries
    ([None] is the NULL pointer); an entry's name is the C string its array holds. *)
From S2P Require Import Prelude CLib.

(** ** Data (include/tar.h) *)

Definition TAR_BLOCK_SIZE : nat := 512.
Definition MAX_FILE_SIZE : Z := 4 * 1024 * 1024.
Definition ARC_MAGIC : bytes := bs "ARC" ++ [0].
Definition ARC_VERSION : Z := 4.
Definition sizeof_TarCacheHeader : nat := 24.
Definition sizeof_TarEntryBase : nat := 16.

Inductive TarKind := TAR_KIND_ART | TAR_KIND_CFG | TAR_KIND_CHT.
#[export] Instance TarKind_eq_dec : EqDecision TarKind.
Proof. solve_decision. Defined.

Record TarEntry := Entry { te_offset : Z; te_rawSize : Z; te_paddedSize : Z; te_filename : bytes }.

(** [gTarInfo]: path, cache name and [sizeof] of the entry, 8-byte aligned *)
Definition relPath (k : TarKind) : bytes :=
  match k with
  | TAR_KIND_ART => bs "ART/art.tar" | TAR_KIND_CFG => bs "CFG/cfg.tar" | TAR_KIND_CHT => bs "CHT/cht.tar"
  end.
Definition cacheName (k : TarKind) : bytes :=
  match k with
  | TAR_KIND_ART => bs "art_cache.bin" | TAR_KIND_CFG => bs "cfg_cache.bin" | TAR_KIND_CHT => bs "cht_cache.bin"
  end.
Definition entrySize (k : TarKind) : nat := match k with TAR_KIND_ART => 64 | _ => 40 end.
Definition nameMax (k : TarKind) : nat := (entrySize k - sizeof_TarEntryBase - 1)%nat.

(** mount roots in probe order *)
Definition gDevices : list bytes := map bs [
  "mass0:/"; "mass1:/"; "mass2:/"; "mass3:/"; "mass4:/"; "mass5:/"; "mass6:/"; "mass7:/";
  "mmce0:/"; "mmce1:/"; "hdd0:/"; "pfs0:/"; "smb0:/"]%string.

(** ** Headers *)

Fixpoint octal_loop (s : bytes) (val : Z) : Z :=
  match s with
  | [] => val
  | c :: r => if (c <? 48) || (55 <? c) then val else octal_loop r (u64 (u64 (Z.shiftl val 3) + (c - 48)))
  end.
Definition parseOctal (s : bytes) (len : nat) : Z := octal_loop (take len s) 0.

Definition isZeroBlock (header : bytes) : bool := bool_decide (header = replicate TAR_BLOCK_SIZE 0).

(** a fixed field as a string: blanks at its end become NULs until another byte *)
Definition field_string (f : bytes) : bytes :=
  cstr (rdropwhile (fun c => (c =? cSP) || (c =? 0)) f).

Definition header_path (header : bytes) : bytes :=
  let nameBuf := field_string (take 100 header) in
  let prefix := field_string (take 155 (drop 345 header)) in
  if bool_decide (prefix <> []) then bufcpy 256 (prefix ++ [cSLASH] ++ nameBuf) else bufcpy 256 nameBuf.

(** the canonical form of names and of queries: leading directories dropped *)
Definition clean_name (n : bytes) : bytes :=
  let n := if strncaseeq n (bs "./") 2 then drop 2 n else n in
  if strncaseeq n (bs "ART/") 4 || strncaseeq n (bs "CFG/") 4 || strncaseeq n (bs "CHT/") 4 then drop 4 n else n.

(** [strncpy(fname, cleanName, nameMax); fname[nameMax - 1] = 0] *)
Definition store_name (k : TarKind) (n : bytes) : bytes := bufcpy (nameMax k) n.

(** ** The archive on a device *)

Class TarFS (W : Type) := {
  (** [open(path, O_RDONLY) >= 0] *)
  tw_open : W -> bytes -> bool;
  (** [stat]: the size *)
  tw_stat : W -> bytes -> option Z;
  (** [read] of [n] bytes at an offset of the opened file; [None] is an error *)
  tw_read : W -> bytes -> Z -> nat -> option bytes;
  (** the attempt to replace the file by these bytes *)
  tw_write : W -> bytes -> bytes -> W;
}.

Section Parse.
Context {W : Type} `{!TarFS W}.
Implicit Types (w : W) (k : TarKind).

Definition padded (rawSize : Z) : Z := (rawSize + 511) / 512 * 512.

(** what the scan does with one header at [pos]: the entry, if it is indexed *)
Definition scan_header k (header : bytes) (dataOffset : Z) : option TarEntry :=
  let typeflag := header !!! 156%nat in
  let rawSize := parseOctal (drop 124 header) 12 in
  if negb (typeflag =? 0) && negb (typeflag =? cZERO) then None
  else if MAX_FILE_SIZE <? rawSize then None
  else Some (Entry dataOffset (u32 rawSize) (u32 (padded rawSize)) (store_name k (clean_name (header_path header)))).

(** the [while (1)]: [None] is the exit through [fail]; a pass moves at least one
    block on, so a pass per block of the file and one for its end are enough *)
Fixpoint scan_loop (fuel : nat) k w (path : bytes) (pos : Z) (index : list TarEntry) : option (list TarEntry) :=
  match fuel with
  | O => None
  | S f =>
    match tw_read w path pos TAR_BLOCK_SIZE with
    | None => None
    | Some [] => Some index
    | Some header =>
      if negb (Nat.eqb (length header) TAR_BLOCK_SIZE) then None
      else
        let pos := pos + Z.of_nat TAR_BLOCK_SIZE in
        if isZeroBlock header then scan_loop f k w path pos index
        else
          let index := match scan_header k header pos with Some e => index ++ [e] | None => index end in
          scan_loop f k w path (pos + padded (parseOctal (drop 124 header) 12)) index
    end
  end.

(** *** The sidecar cache *)

(** the bytes of an entry; [junk] is what lies in its array behind the copied name *)
Definition entry_bytes k (junk : Z) (e : TarEntry) : bytes :=
  let n := te_filename e in
  le_bytes 8 (te_offset e) ++ le_bytes 4 (te_rawSize e) ++ le_bytes 4 (te_paddedSize e) ++
  n ++ replicate (nameMax k - length n) 0 ++ [junk].

Definition entry_of_bytes (b : bytes) : TarEntry :=
  Entry (le_val (take 8 b)) (le_val (take 4 (drop 8 b))) (le_val (take 4 (drop 12 b)))
        (cstr (drop sizeof_TarEntryBase b)).

(** magic, version, archive size and entry count, with the padding of the struct *)
Definition cache_bytes k (junk : Z) (tarSize : Z) (index : list TarEntry) : bytes :=
  ARC_MAGIC ++ le_bytes 4 ARC_VERSION ++ le_bytes 8 tarSize ++ le_bytes 4 (Z.of_nat (length index)) ++ replicate 4 junk ++
  concat (map (entry_bytes k junk) index).

Fixpoint read_entries k (n : nat) (b : bytes) : list TarEntry :=
  match n with O => [] | S n' => entry_of_bytes (take (entrySize k) b) :: read_entries k n' (drop (entrySize k) b) end.

(** [tarReadCache] of a cache file's bytes for an archive of [tarSize] bytes;
    [None] is -1 *)
Definition cache_index k (buf : bytes) (tarSize : option Z) : option (list TarEntry) :=
  if Nat.ltb (length buf) sizeof_TarCacheHeader then None
  else if negb (bool_decide (take 4 buf = ARC_MAGIC)) || negb (le_val (take 4 (drop 4 buf)) =? ARC_VERSION) then None
  else match tarSize with
       | None => None
       | Some sz =>
         if negb (u64 sz =? le_val (take 8 (drop 8 buf))) then None
         else
           let entryCount := le_val (take 4 (drop 16 buf)) in
           let maxEntries := (Z.of_nat (length buf) - Z.of_nat sizeof_TarCacheHeader) / Z.of_nat (entrySize k) in
           if maxEntries <? entryCount then None
           else
             let entries := read_entries k (Z.to_nat entryCount) (drop sizeof_TarCacheHeader buf) in
             if existsb (fun e => MAX_FILE_SIZE <? te_rawSize e) entries then None else Some entries
       end.

Definition tarReadCache w (cachePath tarPath : bytes) k : option (list TarEntry) :=
  if negb (tw_open w cachePath) then None
  else match tw_stat w cachePath with
       | None => None
       | Some fileSize =>
         if fileSize <? Z.of_nat sizeof_TarCacheHeader then None
         else match tw_read w cachePath 0 (Z.to_nat fileSize) with
              | None => None
              | Some buf => if negb (strlen buf =? fileSize) then None else cache_index k buf (tw_stat w tarPath)
              end
       end.

Definition tarWriteCache w (junk : Z) (cachePath tarPath : bytes) k (index : list TarEntry) : W :=
  match tw_stat w tarPath with
  | None => w
  | Some sz => tw_write w cachePath (cache_bytes k junk sz index)
  end.

Definition cache_path k (path : bytes) : bytes :=
  let dirPath := bufcpy 256 path in
  let dirPath := match strrchr dirPath cSLASH with Some i => take (S i) dirPath | None => dirPath end in
  bufcpy 256 (dirPath ++ cacheName k).

(** [None] is -1; an index with no entries that was scanned leaves [s_index] NULL *)
Definition tarParseFile (fuel : nat) (junk : Z) w k (path : bytes) : option (option (list TarEntry)) * W :=
  match tarReadCache w (cache_path k path) path k with
  | Some index => (Some (Some index), w)
  | None =>
    if negb (tw_open w path) then (None, w)
    else match scan_loop fuel k w path 0 [] with
         | None => (None, w)
         | Some index =>
           (Some (if bool_decide (index = []) then None else Some index), tarWriteCache w junk (cache_path k path) path k index)
         end
  end.

(** ** The state of a kind *)

Record tar_state := TS {
  s_index : option (list TarEntry);
  s_dev : option bytes;
  s_inactive : bool;
  s_exactPath : bytes;
  s_isExact : bool;
}.

Definition tar_start : tar_state := TS None None false [] false.

(** [tarCloseInternal] *)
Definition tarCloseInternal (s : tar_state) : tar_state := TS None None (s_inactive s) [] false.
Definition tarClose (s : tar_state) : tar_state := TS None None false [] false.

Definition s_count (s : tar_state) : nat := length (default [] (s_index s)).
(** [!s_index[kind] || s_count[kind] == 0] *)
Definition no_index (s : tar_state) : bool := Nat.eqb (s_count s) 0.

Definition buildTarPath (dev : option bytes) k : option bytes := (fun d => d ++ relPath k) <$> dev.

Definition tarLoadFile (fuel : nat) (junk : Z) w k (s : tar_state) (path : bytes) : bool * tar_state * W :=
  if s_isExact s && negb (no_index s) && streq (s_exactPath s) path then (true, s, w)
  else
    let s := tarCloseInternal s in
    match tarParseFile fuel junk w k path with
    | (Some index, w) => (true, TS index (s_dev s) (s_inactive s) (bufcpy 256 path) true, w)
    | (None, w) => (false, tarCloseInternal s, w)
    end.

(** the probe of the devices in order: was one found *)
Fixpoint probe_devices (fuel : nat) (junk : Z) w k (devs : list bytes) (s : tar_state) : bool * tar_state * W :=
  match devs with
  | [] => (false, s, w)
  | d :: devs' =>
    let path := d ++ relPath k in
    if negb (tw_open w path) then probe_devices fuel junk w k devs' s
    else match tarParseFile fuel junk w k path with
         | (Some index, w) => (true, TS index (Some d) (s_inactive s) (s_exactPath s) (s_isExact s), w)
         | (None, w) => probe_devices fuel junk w k devs' (tarCloseInternal s)
         end
  end.

Definition tarLoadFromAnyDevice (fuel : nat) (junk : Z) w k (s : tar_state) : bool * tar_state * W :=
  let s := if s_isExact s then tarCloseInternal s else s in
  if s_inactive s then (false, s, w)
  else
    let keep := bool_decide (s_index s <> None) && match s_dev s with Some d => tw_open w (d ++ relPath k) | None => false end in
    if keep then (true, s, w)
    else
      let s := if bool_decide (s_index s <> None) && bool_decide (s_dev s <> None) then tarCloseInternal s else s in
      match probe_devices fuel junk w k gDevices s with
      | (true, s, w) => (true, s, w)
      | (false, s, w) => (false, TS (s_index s) (s_dev s) true (s_exactPath s) (s_isExact s), w)
      end.

(** *** Look-ups *)

Definition base_name (n : bytes) : bytes := match strrchr n cSLASH with Some i => drop (S i) n | None => n end.

Definition name_matches (filename : bytes) (e : TarEntry) : bool :=
  let q := clean_name filename in
  strcaseeq (te_filename e) filename || strcaseeq (te_filename e) q || strcaseeq (base_name (te_filename e)) q.
Definition prefix_matches (prefix : bytes) (e : TarEntry) : bool :=
  strncaseeq (base_name (te_filename e)) prefix (length prefix).

(** the common start of [tarFind] and [tarFindPrefix] *)
Definition ensure (fuel : nat) (junk : Z) w k (s : tar_state) : bool * tar_state * W :=
  let s := if s_isExact s then tarCloseInternal s else s in
  if s_inactive s then (false, s, w)
  else if no_index s then tarLoadFromAnyDevice fuel junk w k s else (true, s, w).

Definition find_entry (p : TarEntry -> bool) (s : tar_state) : option TarEntry :=
  i ← find_index p (default [] (s_index s)); default [] (s_index s) !! i.

Definition tarFind (fuel : nat) (junk : Z) w k (s : tar_state) (filename : bytes) : option TarEntry * tar_state * W :=
  let '(ok, s, w) := ensure fuel junk w k s in
  (if ok : bool then find_entry (name_matches filename) s else None, s, w).
Definition tarFindPrefix (fuel : nat) (junk : Z) w k (s : tar_state) (prefix : bytes) : option TarEntry * tar_state * W :=
  let '(ok, s, w) := ensure fuel junk w k s in
  (if ok : bool then find_entry (prefix_matches prefix) s else None, s, w).
Definition tarFindExact (s : tar_state) (filename : bytes) : option TarEntry :=
  if negb (s_isExact s) || no_index s then None else find_entry (name_matches filename) s.
Definition tarFindPrefixExact (s : tar_state) (prefix : bytes) : option TarEntry :=
  if negb (s_isExact s) || no_index s then None else find_entry (prefix_matches prefix) s.

Definition tarEnsureLoaded (fuel : nat) (junk : Z) w k (s : tar_state) : bool * tar_state * W :=
  if s_inactive s then (false, s, w)
  else if no_index s then tarLoadFromAnyDevice fuel junk w k s else (true, s, w).

(** the loop of [tarRead]: every read that succeeds delivers at least a byte *)
Fixpoint read_body (fuel : nat) w (path : bytes) (pos : Z) (total want : nat) (dst : bytes) : option bytes :=
  if Nat.leb want total then Some dst
  else
    match fuel with
    | O => None
    | S f =>
      match tw_read w path (pos + Z.of_nat total) (want - total) with
      | None | Some [] => None
      | Some b => read_body f w path pos (total + length b) want (dst ++ b)
      end
    end.

(** the path [tarRead] opens *)
Definition read_path k (s : tar_state) : option bytes :=
  if s_isExact s && bool_decide (s_exactPath s <> []) then Some (s_exactPath s)
  else if s_inactive s then None else buildTarPath (s_dev s) k.

(** the bytes left in [dst]; [None] is the result 0 *)
Definition tarRead w k (s : tar_state) (e : TarEntry) (dstSize : Z) : option bytes :=
  if dstSize <? te_rawSize e then None
  else match read_path k s with
       | None => None
       | Some path =>
         if negb (tw_open w path) then None
         else read_body (Z.to_nat (te_rawSize e)) w path (te_offset e) 0 (Z.to_nat (te_rawSize e)) []
       end.

Definition tarGet (fuel : nat) (junk : Z) w k (s : tar_state) (filename : bytes) : option bytes * tar_state * W :=
  if s_inactive s then (None, s, w)
  else
    match tarFind fuel junk w k s filename with
    | (Some e, s, w) => (tarRead w k s e (te_rawSize e), s, w)
    | (None, s, w) => (None, s, w)
    end.
End Parse.

(** ** What an archive is *)

(** a header block and the blocks of its body *)
Record member := Member { m_header : bytes; m_body : bytes }.
Definition archive (ms : list member) : bytes := concat (map (fun m => m_header m ++ m_body m) ms).

Definition raw_size (m : member) : Z := parseOctal (drop 124 (m_header m)) 12.
Definition member_ok (m : member) : Prop :=
  length (m_header m) = TAR_BLOCK_SIZE /\
  (if isZeroBlock (m_header m) then m_body m = [] else Z.of_nat (length (m_body m)) = padded (raw_size m)).

(** the entries an archive should have, each with the bytes it stands for *)
Fixpoint index_of (k : TarKind) (pos : Z) (ms : list member) : list (TarEntry * bytes) :=
  match ms with
  | [] => []
  | m :: r =>
    let next := index_of k (pos + Z.of_nat TAR_BLOCK_SIZE + Z.of_nat (length (m_body m))) r in
    if isZeroBlock (m_header m) then next
    else match scan_header k (m_header m) (pos + Z.of_nat TAR_BLOCK_SIZE) with
         | Some e => (e, take (Z.to_nat (raw_size m)) (m_body m)) :: next
         | None => next
         end
  end.

(** the file at [path] holds [data] and reads deliver it *)
Definition file_is {W} `{!TarFS W} (w : W) (path data : bytes) : Prop :=
  tw_open w path = true /\
  forall off n, 0 <= off -> tw_read w path off n = Some (take n (drop (Z.to_nat off) data)).

(** ** Lemmas *)

Lemma padded_ge r : 0 <= r -> r <= padded r.
Proof. intros H. unfold padded. pose proof (Z.div_mod (r + 511) 512). pose proof (Z.mod_pos_bound (r + 511) 512). lia. Qed.

Lemma octal_loop_nonneg s : forall v, 0 <= v -> 0 <= octal_loop s v.
Proof.
  induction s as [|c s IH]; intros v Hv; cbn [octal_loop]; [done|]. destruct (_ || _); [done|].
  apply IH, u64_range.
Qed.

Lemma parseOctal_nonneg s n : 0 <= parseOctal s n.
Proof. apply octal_loop_nonneg. lia. Qed.

Section Scan.
Context {W : Type} `{!TarFS W}.
Implicit Types (w : W) (k : TarKind).

Lemma archive_cons m ms : archive (m :: ms) = m_header m ++ m_body m ++ archive ms.
Proof. unfold archive. cbn. by rewrite <- app_assoc. Qed.

Lemma scan_loop_spec k w path ms : forall fuel pre index,
  file_is w path (pre ++ archive ms) -> Forall member_ok ms -> (length ms < fuel)%nat ->
  scan_loop fuel k w path (Z.of_nat (length pre)) index =
    Some (index ++ map fst (index_of k (Z.of_nat (length pre)) ms)).
Proof.
  induction ms as [|m ms IH]; intros fuel pre index Hfile Hok Hf; (destruct fuel as [|f]; [cbn in Hf; lia|]); cbn [scan_loop].
  - destruct Hfile as [_ Hr]. rewrite Hr, Nat2Z.id by lia. change (archive []) with ([] : bytes).
    rewrite app_nil_r, drop_ge by done. cbn. by rewrite app_nil_r.
  - destruct m as [hd body]. apply Forall_cons in Hok as [[Hlen Hbody] Hok]. pose proof Hfile as [_ Hr].
    rewrite Hr, Nat2Z.id, drop_app_length, archive_cons by lia. unfold raw_size in Hbody.
    cbn [m_header m_body index_of] in *. rewrite take_app_length' by done.
    assert (exists h hs, hd = h :: hs) as (h & hs & Eh) by (destruct hd; [done|eauto]).
    rewrite Eh. cbv iota beta. rewrite <- !Eh.
    assert (El : Nat.eqb (length hd) TAR_BLOCK_SIZE = true) by (apply Nat.eqb_eq; exact Hlen).
    rewrite El. cbn [negb].
    assert (Hpre : forall b, body = b -> Z.of_nat (length pre) + Z.of_nat TAR_BLOCK_SIZE + Z.of_nat (length b) =
                   Z.of_nat (length (pre ++ hd ++ body))).
    { intros b <-. rewrite !length_app, Hlen. lia. }
    assert (Hfile' : file_is w path ((pre ++ hd ++ body) ++ archive ms)).
    { rewrite archive_cons in Hfile. by rewrite <- !app_assoc. }
    rewrite (Hpre body eq_refl). destruct (isZeroBlock hd).
    + pose proof (Hpre [] Hbody) as Hp. rewrite Z.add_0_r in Hp. rewrite Hp.
      apply IH; auto. cbn [length] in Hf. lia.
    + rewrite <- Hbody, (Hpre body eq_refl). rewrite IH by (auto; cbn [length] in Hf; lia).
      destruct (scan_header k hd _) as [e|]; [|done]. cbn [map fst]. by rewrite <- app_assoc.
Qed.

(** every entry of the index points at its bytes *)
Lemma index_of_reads k ms : forall pre e content,
  Forall member_ok ms -> (e, content) ∈ index_of k (Z.of_nat (length pre)) ms ->
  0 <= te_offset e /\ 0 <= te_rawSize e <= MAX_FILE_SIZE /\ length content = Z.to_nat (te_rawSize e) /\
  take (length content) (drop (Z.to_nat (te_offset e)) (pre ++ archive ms)) = content.
Proof.
  induction ms as [|m ms IH]; intros pre e content Hok Hin; [by apply not_elem_of_nil in Hin|].
  apply Forall_cons in Hok as [[Hlen Hbody] Hok]. cbn [index_of] in Hin. rewrite archive_cons.
  assert (Hpre : Z.of_nat (length pre) + Z.of_nat TAR_BLOCK_SIZE + Z.of_nat (length (m_body m)) =
                 Z.of_nat (length (pre ++ m_header m ++ m_body m))).
  { rewrite !length_app, Hlen. lia. }
  rewrite Hpre in Hin.
  assert (Hlater : (e, content) ∈ index_of k (Z.of_nat (length (pre ++ m_header m ++ m_body m))) ms ->
     0 <= te_offset e /\ 0 <= te_rawSize e <= MAX_FILE_SIZE /\ length content = Z.to_nat (te_rawSize e) /\
     take (length content) (drop (Z.to_nat (te_offset e)) (pre ++ m_header m ++ m_body m ++ archive ms)) = content).
  { intros H. specialize (IH (pre ++ m_header m ++ m_body m) e content Hok H). by rewrite <- !app_assoc in IH. }
  destruct (isZeroBlock (m_header m)); [by apply Hlater|].
  destruct (scan_header k (m_header m) _) as [e'|] eqn:Es; [|by apply Hlater].
  apply elem_of_cons in Hin as [[= -> ->]|Hin]; [|by apply Hlater]. clear Hlater IH.
  unfold scan_header in Es. destruct (_ && _); [done|]. destruct (Z.ltb_spec MAX_FILE_SIZE (parseOctal (drop 124 (m_header m)) 12)); [done|].
  injection Es as <-. cbn [te_offset te_rawSize]. fold (raw_size m) in *. 
  pose proof (parseOctal_nonneg (drop 124 (m_header m)) 12) as H0. fold (raw_size m) in H0.
  unfold MAX_FILE_SIZE in *. rewrite u32_id by lia. pose proof (padded_ge _ H0).
  assert (Hc : length (take (Z.to_nat (raw_size m)) (m_body m)) = Z.to_nat (raw_size m)) by (rewrite length_take; lia).
  split_and!; try lia. rewrite Hc.
  replace (Z.to_nat (Z.of_nat (length pre) + Z.of_nat TAR_BLOCK_SIZE)) with (length (pre ++ m_header m)) by (rewrite length_app, Hlen; lia).
  rewrite app_assoc, drop_app_length, take_app_le by lia. done.
Qed.

Lemma read_body_spec w path data pos want :
  file_is w path data -> 0 <= pos -> length (take want (drop (Z.to_nat pos) data)) = want ->
  read_body want w path pos 0 want [] = Some (take want (drop (Z.to_nat pos) data)).
Proof.
  intros [_ Hr] Hp Hl. destruct want as [|want]; [done|]. cbn [read_body Nat.leb].
  rewrite Z.add_0_r, Nat.sub_0_r, Hr by done. set (b := take (S want) _) in *.
  destruct b as [|c b'] eqn:E; [done|]. rewrite <- E in *. cbn [app].
  destruct want as [|want]; cbn [read_body]; rewrite Hl; [done|].
  by rewrite Nat.add_0_l, Nat.leb_refl.
Qed.
End Scan.

(** *** The cache *)

(** an entry the cache format can hold *)
Definition entry_ok k (e : TarEntry) : Prop :=
  0 <= te_offset e < 2 ^ 64 /\ 0 <= te_rawSize e <= MAX_FILE_SIZE /\ 0 <= te_paddedSize e < 2 ^ 32 /\
  cstring (te_filename e) /\ (length (te_filename e) < nameMax k)%nat.

Lemma entry_bytes_length k junk e : entry_ok k e -> length (entry_bytes k junk e) = entrySize k.
Proof.
  intros (_ & _ & _ & _ & Hn). unfold entry_bytes. rewrite !length_app, !le_bytes_length, length_replicate.
  unfold nameMax, sizeof_TarEntryBase in *. destruct k; cbn [entrySize length] in *; lia.
Qed.

Lemma entry_bytes_read k junk e : entry_ok k e -> entry_of_bytes (entry_bytes k junk e) = e.
Proof.
  intros (Ho & Hr & Hp & Hc & Hn). unfold entry_of_bytes, entry_bytes, MAX_FILE_SIZE in *.
  assert (L8 : length (le_bytes 8 (te_offset e)) = 8%nat) by apply le_bytes_length.
  assert (L4 : forall z, length (le_bytes 4 z) = 4%nat) by (intros; apply le_bytes_length).
  rewrite (take_app_length' (le_bytes 8 _) _ 8), le_val_bytes by (done || lia).
  rewrite (drop_app_length' (le_bytes 8 _) _ 8) by done.
  rewrite (take_app_length' (le_bytes 4 _) _ 4), le_val_bytes by (done || lia).
  replace (drop 12 _) with (le_bytes 4 (te_paddedSize e) ++ te_filename e ++ replicate (nameMax k - length (te_filename e)) 0 ++ [junk]).
  2:{ rewrite (app_assoc (le_bytes 8 _)), drop_app_length'; [done|]. rewrite length_app, L8, L4. done. }
  rewrite (take_app_length' (le_bytes 4 _) _ 4), le_val_bytes by (done || lia).
  replace (drop sizeof_TarEntryBase _) with (te_filename e ++ replicate (nameMax k - length (te_filename e)) 0 ++ [junk]).
  2:{ rewrite (app_assoc (le_bytes 8 _)), (app_assoc (le_bytes 8 _ ++ _)), drop_app_length'; [done|].
      by rewrite !length_app, L8, !L4. }
  replace (nameMax k - length (te_filename e))%nat with (S (nameMax k - length (te_filename e) - 1)) by lia.
  cbn [replicate app]. rewrite cstr_app_nul by done. by destruct e.
Qed.

Lemma read_entries_bytes k junk index :
  Forall (entry_ok k) index -> read_entries k (length index) (concat (map (entry_bytes k junk) index)) = index.
Proof.
  induction 1 as [|e index He Hi IH]; [done|]. cbn [length read_entries map concat].
  pose proof (entry_bytes_length k junk e He) as Hl.
  by rewrite take_app_length', drop_app_length', entry_bytes_read, IH.
Qed.

Lemma concat_entries_length k junk index :
  Forall (entry_ok k) index -> length (concat (map (entry_bytes k junk) index)) = (length index * entrySize k)%nat.
Proof.
  induction 1 as [|e index He Hi IH]; [done|]. cbn [length map concat]. rewrite length_app, IH, entry_bytes_length by done. lia.
Qed.

Lemma read_entries_length k n : forall b, length (read_entries k n b) = n.
Proof. induction n as [|n IH]; intros b; [done|]. cbn. by rewrite IH. Qed.

(** *** The state of a kind *)

Section State.
Context {W : Type} `{!TarFS W}.
Implicit Types (w : W) (k : TarKind) (s : tar_state).

(** the index was made from the archive [tarRead] would open *)
Definition index_from k (path : bytes) (index : option (list TarEntry)) : Prop :=
  exists fuel junk w w', tarParseFile fuel junk w k path = (Some index, w').
Definition tar_inv k s : Prop :=
  (s_index s <> None -> exists path, read_path k s = Some path /\ index_from k path (s_index s)) /\
  (s_isExact s = false -> s_inactive s = true -> s_index s = None).

Inductive tar_step k : tar_state -> tar_state -> Prop :=
| tstep_load_file fuel junk w s path :
    path <> [] -> (length path < 256)%nat -> tar_step k s (snd (fst (tarLoadFile fuel junk w k s path)))
| tstep_load_any fuel junk w s : tar_step k s (snd (fst (tarLoadFromAnyDevice fuel junk w k s)))
| tstep_find fuel junk w s name : tar_step k s (snd (fst (tarFind fuel junk w k s name)))
| tstep_find_prefix fuel junk w s p : tar_step k s (snd (fst (tarFindPrefix fuel junk w k s p)))
| tstep_ensure fuel junk w s : tar_step k s (snd (fst (tarEnsureLoaded fuel junk w k s)))
| tstep_get fuel junk w s name : tar_step k s (snd (fst (tarGet fuel junk w k s name)))
| tstep_close s : tar_step k s (tarClose s).

Lemma close_inv k s : tar_inv k (tarCloseInternal s).
Proof. by split. Qed.

Lemma probe_inv k fuel junk devs : forall w s,
  tar_inv k s -> s_isExact s = false -> s_inactive s = false ->
  let '(ok, s', _) := probe_devices fuel junk w k devs s in
  (ok = true -> tar_inv k s') /\
  (ok = false -> s_isExact s' = false /\ (s_index s' = s_index s \/ s_index s' = None)).
Proof.
  induction devs as [|d devs IH]; intros w s Hs He Hi; cbn [probe_devices]; [split; [done|auto]|].
  destruct (negb _); [by apply IH|]. destruct (tarParseFile fuel junk w k (d ++ relPath k)) as [[index|] w'] eqn:E.
  - split; [|done]. intros _. rewrite He, Hi. split; cbn.
    + intros _. exists (d ++ relPath k). split; [done|]. by exists fuel, junk, w, w'.
    + done.
  - specialize (IH w' (tarCloseInternal s) (close_inv k s) eq_refl Hi).
    destruct (probe_devices _ _ _ _ _ _) as [[ok s'] w2]. destruct IH as [I1 I2]. split; [done|].
    intros Hok. destruct (I2 Hok) as [? [->| ->]]; auto.
Qed.

Lemma load_any_inv k fuel junk w s : tar_inv k s -> tar_inv k (snd (fst (tarLoadFromAnyDevice fuel junk w k s))).
Proof.
  intros Hs. unfold tarLoadFromAnyDevice.
  set (s1 := if s_isExact s then tarCloseInternal s else s).
  assert (H1 : tar_inv k s1 /\ s_isExact s1 = false).
  { subst s1. destruct (s_isExact s) eqn:E; [split; [apply close_inv|done]|done]. }
  clearbody s1. destruct H1 as [H1 He]. destruct (s_inactive s1) eqn:Ei; [done|].
  destruct (bool_decide (s_index s1 <> None) && _) eqn:Ek; [done|].
  set (s2 := if _ && _ then tarCloseInternal s1 else s1).
  assert (H2 : tar_inv k s2 /\ s_isExact s2 = false /\ s_inactive s2 = false /\ s_index s2 = None).
  { subst s2. destruct (bool_decide (s_index s1 <> None)) eqn:Ex.
    - b2p. destruct H1 as [Hp _]. destruct (Hp Ex) as (path & Hr & _). unfold read_path in Hr.
      rewrite He, Ei in Hr. cbn in Hr. destruct (s_dev s1); [|done].
      rewrite bool_decide_eq_true_2 by done. cbn [andb]. split_and!; [apply close_inv|done|done|done].
    - b2p. cbn [andb]. split_and!; auto.
      destruct (s_index s1); [|done]. exfalso. by apply Ex. }
  clearbody s2. destruct H2 as (H2 & He2 & Hi2 & Hx2).
  pose proof (probe_inv k fuel junk gDevices w s2 H2 He2 Hi2) as Hp.
  destruct (probe_devices _ _ _ _ _ _) as [[[] s3] w3]; cbn [fst snd].
  - by apply Hp.
  - destruct Hp as [_ Hp]. destruct (Hp eq_refl) as [He3 [Hx|Hx]]; rewrite Hx; [rewrite Hx2|]; by split.
Qed.

Lemma ensure_inv k fuel junk w s : tar_inv k s -> tar_inv k (snd (fst (ensure fuel junk w k s))).
Proof.
  intros Hs. unfold ensure. set (s1 := if s_isExact s then tarCloseInternal s else s).
  assert (H1 : tar_inv k s1) by (subst s1; destruct (s_isExact s); [apply close_inv|done]).
  clearbody s1. destruct (s_inactive s1); [done|]. destruct (no_index s1); [by apply load_any_inv|done].
Qed.

Lemma find_state fuel junk w k s name :
  snd (fst (tarFind fuel junk w k s name)) = snd (fst (ensure fuel junk w k s)) /\
  snd (fst (tarFindPrefix fuel junk w k s name)) = snd (fst (ensure fuel junk w k s)).
Proof. unfold tarFind, tarFindPrefix. by destruct (ensure _ _ _ _ _) as [[[] ?] ?]. Qed.

Lemma load_file_inv k fuel junk w s path :
  path <> [] -> (length path < 256)%nat -> tar_inv k s ->
  tar_inv k (snd (fst (tarLoadFile fuel junk w k s path))).
Proof.
  intros Hne Hl Hs. unfold tarLoadFile. destruct (_ && _); [done|].
  destruct (tarParseFile fuel junk w k path) as [[index|] w'] eqn:E; cbn [fst snd]; [|by split].
  rewrite bufcpy_id by done. split; [|done]. intros _. exists path. unfold read_path.
  cbn [s_isExact s_exactPath s_index]. rewrite bool_decide_eq_true_2 by done. split; [done|]. by exists fuel, junk, w, w'.
Qed.

Lemma tar_step_inv k s s' : tar_inv k s -> tar_step k s s' -> tar_inv k s'.
Proof.
  intros Hs Hstep. destruct Hstep.
  - by apply load_file_inv.
  - by apply load_any_inv.
  - rewrite (proj1 (find_state _ _ _ _ _ _)). by apply ensure_inv.
  - rewrite (proj2 (find_state _ _ _ _ _ _)). by apply ensure_inv.
  - unfold tarEnsureLoaded. destruct (s_inactive s); [done|]. destruct (no_index s); [by apply load_any_inv|done].
  - unfold tarGet. destruct (s_inactive s); [done|].
    pose proof (ensure_inv k fuel junk w s Hs) as He. rewrite <- (proj1 (find_state fuel junk w k s name)) in He.
    destruct (tarFind fuel junk w k s name) as [[[e|] s'] w']; exact He.
  - by split.
Qed.
End State.

(** ** Properties *)

(** Indexing an archive finds every member and nothing else, and an entry read
    back gives the member's bytes: for any sequence of members (files, directories,
    oversized files, end-of-archive markers anywhere, so concatenated archives too)
    the scan ends with exactly the entries of the files that can be served, and
    [tarRead] of each returns its content. *)
Theorem tar_scan_and_read {W} `{!TarFS W} (w : W) k path ms fuel :
  file_is w path (archive ms) -> Forall member_ok ms -> (length ms < fuel)%nat ->
  scan_loop fuel k w path 0 [] = Some (map fst (index_of k 0 ms)) /\
  (forall s e content dstSize, (e, content) ∈ index_of k 0 ms -> read_path k s = Some path -> te_rawSize e <= dstSize ->
     tarRead w k s e dstSize = Some content).
Proof.
  intros Hf Hok Hfuel. split.
  - apply (scan_loop_spec k w path ms fuel [] []); done.
  - intros s e content dstSize Hin Hp Hd.
    destruct (index_of_reads k ms [] e content Hok Hin) as (H1 & H2 & H3 & H4). cbn [app] in H4.
    unfold tarRead. destruct (Z.ltb_spec dstSize (te_rawSize e)); [lia|]. rewrite Hp, (proj1 Hf). cbn [negb].
    rewrite <- H3, read_body_spec with (data := archive ms); [by rewrite H4|done|done|by rewrite H4].
Qed.

(** The cache file gives back the index it was written from, for an archive of
    the same size. *)
Theorem tar_cache_roundtrip k junk size index :
  Forall (entry_ok k) index -> 0 <= size < 2 ^ 64 -> Z.of_nat (length index) < 2 ^ 32 ->
  cache_index k (cache_bytes k junk size index) (Some size) = Some index.
Proof.
  intros Hok Hs Hn. unfold cache_index, cache_bytes.
  assert (L4 : forall z, length (le_bytes 4 z) = 4%nat) by (intros; apply le_bytes_length).
  assert (L8 : forall z, length (le_bytes 8 z) = 8%nat) by (intros; apply le_bytes_length).
  set (body := concat (map (entry_bytes k junk) index)).
  assert (Hbody : length body = (length index * entrySize k)%nat) by by apply concat_entries_length.
  set (buf := ARC_MAGIC ++ _).
  assert (Hbuf : length buf = (24 + length index * entrySize k)%nat).
  { unfold buf. rewrite !length_app, !L4, L8, length_replicate, Hbody. change (length ARC_MAGIC) with 4%nat. lia. }
  unfold sizeof_TarCacheHeader. destruct (Nat.ltb_spec (length buf) 24); [lia|].
  assert (D4 : drop 4 buf = le_bytes 4 ARC_VERSION ++ le_bytes 8 size ++ le_bytes 4 (Z.of_nat (length index)) ++ replicate 4 junk ++ body) by done.
  assert (D8 : drop 8 buf = le_bytes 8 size ++ le_bytes 4 (Z.of_nat (length index)) ++ replicate 4 junk ++ body) by done.
  assert (D16 : drop 16 buf = le_bytes 4 (Z.of_nat (length index)) ++ replicate 4 junk ++ body) by done.
  assert (D24 : drop 24 buf = body) by done.
  change (take 4 buf) with ARC_MAGIC. rewrite bool_decide_eq_true_2 by done.
  rewrite D4, (take_app_length' (le_bytes 4 _) _ 4), le_val_bytes by (done || unfold ARC_VERSION; lia).
  rewrite Z.eqb_refl. cbn [negb orb].
  rewrite D8, (take_app_length' (le_bytes 8 _) _ 8), le_val_bytes by (done || lia).
  rewrite u64_id, Z.eqb_refl by lia. cbn [negb].
  rewrite D16, (take_app_length' (le_bytes 4 _) _ 4), le_val_bytes by (done || lia).
  rewrite D24, Nat2Z.id, Hbuf.
  assert (Hmax : (Z.of_nat (24 + length index * entrySize k) - Z.of_nat 24) / Z.of_nat (entrySize k) = Z.of_nat (length index)).
  { rewrite Nat2Z.inj_add, Nat2Z.inj_mul.
    replace (Z.of_nat 24 + Z.of_nat (length index) * Z.of_nat (entrySize k) - Z.of_nat 24) with (Z.of_nat (length index) * Z.of_nat (entrySize k)) by lia.
    apply Z.div_mul. destruct k; done. }
  rewrite Hmax, Z.ltb_irrefl. unfold body. rewrite read_entries_bytes by done.
  destruct (existsb _ index) eqn:E; [|done]. apply existsb_exists in E as (e & Hin & He). apply list_elem_of_In in Hin.
  rewrite Forall_forall in Hok. destruct (Hok e Hin) as (_ & Hr & _). b2p. lia.
Qed.

(** A cache is trusted only as far as it can be: whatever its bytes, an index
    taken from it lies inside the file, serves no body above the size limit, and is
    for an archive of the size it was written for. *)
Theorem tar_cache_safe k buf tarSize index :
  cache_index k buf tarSize = Some index ->
  (sizeof_TarCacheHeader + length index * entrySize k <= length buf)%nat /\
  Forall (fun e => te_rawSize e <= MAX_FILE_SIZE) index /\
  (exists sz, tarSize = Some sz /\ u64 sz = le_val (take 8 (drop 8 buf))).
Proof.
  unfold cache_index. destruct (Nat.ltb_spec (length buf) sizeof_TarCacheHeader); [done|].
  destruct (_ || _); [done|]. destruct tarSize as [sz|]; [|done]. destruct (negb (u64 sz =? _)) eqn:Es; [done|].
  cbv zeta. set (n := le_val (take 4 (drop 16 buf))).
  destruct (Z.ltb_spec ((Z.of_nat (length buf) - Z.of_nat sizeof_TarCacheHeader) / Z.of_nat (entrySize k)) n) as [|Hn]; [done|].
  destruct (existsb _ _) eqn:E; [done|]. intros [= <-]. b2p. rewrite read_entries_length. split_and!; [|apply Forall_forall|eauto].
  - assert (He : 0 < Z.of_nat (entrySize k)) by (destruct k; cbn; lia).
    pose proof (Z.mul_div_le (Z.of_nat (length buf) - Z.of_nat sizeof_TarCacheHeader) _ He) as Hm.
    destruct (Z.le_gt_cases n 0) as [Hz|Hz].
    + replace (Z.to_nat n) with O by lia. lia.
    + assert (Z.of_nat (entrySize k) * n <= Z.of_nat (length buf) - Z.of_nat sizeof_TarCacheHeader) by nia. nia.
  - intros e Hin. destruct (Z.leb_spec (te_rawSize e) MAX_FILE_SIZE); [done|].
    assert (X : existsb (fun e => MAX_FILE_SIZE <? te_rawSize e) (read_entries k (Z.to_nat n) (drop sizeof_TarCacheHeader buf)) = true).
    { apply existsb_exists. exists e. split; [by apply list_elem_of_In|]. by apply Z.ltb_lt. }
    congruence.
Qed.

(** The index in use always belongs to the archive the next [tarRead] opens:
    after any sequence of exact loads, device sweeps, look-ups and closes, with the
    devices changing in between, no look-up answers from another archive's index. *)
Theorem tar_index_matches_archive {W} `{!TarFS W} k s :
  reachable (fun s => s = tar_start) (tar_step k) s ->
  s_index s <> None -> exists path, read_path k s = Some path /\ index_from k path (s_index s).
Proof.
  intros Hr. assert (H : tar_inv k s); [|apply H].
  revert Hr. apply invariant_reachable; [|intros; by eapply tar_step_inv]. intros s0 ->. by split.
Qed.

(** ** An in-memory file system and the witnesses *)

#[export] Instance assoc_tarfs : TarFS (list (bytes * bytes)) := {
  tw_open w p := existsb (fun x => streq x.1 p) w;
  tw_stat w p := strlen ∘ snd <$> head (base.filter (fun x => x.1 = p) w);
  tw_read w p off n := (fun x => take n (drop (Z.to_nat off) x.2)) <$> head (base.filter (fun x => x.1 = p) w);
  tw_write w p b := (p, b) :: w;
}.

(** a header block: name, size field and type *)
Definition make_header (n size : bytes) (typeflag : Z) : bytes :=
  n ++ replicate (124 - length n) 0 ++ size ++ [0] ++ replicate 20 0 ++ [typeflag] ++ replicate 355 0.

Definition sample_members : list member := [
  Member (make_header (bs "ART/") (bs "00000000000") 53) [];
  Member (make_header (bs "ART/SLUS_200.62_COV.png") (bs "00000000005") 48) (bs "cover" ++ replicate 507 0);
  Member (replicate 512 0) [];
  Member (make_header (bs "./SLUS_200.62_BG.png") (bs "00000000002") 48) (bs "bg" ++ replicate 510 0)].
Definition sample_path : bytes := bs "mass0:/ART/art.tar".
Definition sample_world : list (bytes * bytes) := [(sample_path, archive sample_members)].

Lemma sample_members_ok : Forall member_ok sample_members.
Proof. repeat (apply Forall_cons; split); [..|apply Forall_nil_2]; (split; [reflexivity|vm_compute; reflexivity]). Qed.

Lemma sample_file : file_is sample_world sample_path (archive sample_members).
Proof. split; [reflexivity|]. intros off n _. reflexivity. Qed.

Definition bg_entry : TarEntry := Entry 2560 2 512 (bs "SLUS_200.62_BG.png").

Lemma tar_scan_and_read_witness :
  tarRead sample_world TAR_KIND_ART (TS None (Some (bs "mass0:/")) false [] false) bg_entry 2 = Some (bs "bg").
Proof.
  destruct (tar_scan_and_read sample_world TAR_KIND_ART sample_path sample_members 9 sample_file sample_members_ok)
    as [_ H]; [vm_compute; lia|].
  apply H; [|reflexivity|vm_compute; discriminate].
  apply (list_elem_of_lookup_2 _ 1). vm_compute. reflexivity.
Defined.

Definition sample_index : list TarEntry := [Entry 1024 5 512 (bs "SLUS_200.62_COV.png"); bg_entry].

Lemma tar_cache_roundtrip_witness :
  cache_index TAR_KIND_ART (cache_bytes TAR_KIND_ART 7 3072 sample_index) (Some 3072) = Some sample_index.
Proof.
  apply (tar_cache_roundtrip TAR_KIND_ART 7 3072 sample_index); [|lia|vm_compute; reflexivity].
  repeat (apply Forall_cons; split); [..|apply Forall_nil_2]; by apply (bool_decide_unpack _).
Defined.

Lemma tar_cache_safe_witness :
  Forall (fun e => te_rawSize e <= MAX_FILE_SIZE) sample_index.
Proof.
  apply (tar_cache_safe TAR_KIND_ART (cache_bytes TAR_KIND_ART 7 3072 sample_index) (Some 3072) sample_index).
  vm_compute. reflexivity.
Defined.

Definition loaded_state : tar_state := snd (fst (tarLoadFromAnyDevice 20 7 sample_world TAR_KIND_ART tar_start)).

Lemma tar_index_matches_archive_witness :
  exists path, read_path TAR_KIND_ART loaded_state = Some path /\
    index_from TAR_KIND_ART path (s_index loaded_state).
Proof.
  apply (tar_index_matches_archive (W := list (bytes * bytes)) TAR_KIND_ART loaded_state).
  - eapply reach_step; [by apply reach_init|]. apply (tstep_load_any TAR_KIND_ART 20 7 sample_world tar_start).
  - vm_compute. discriminate.
Defined.
