(* ===== verification/ArtIndex.v ===== *)
(** * ArtIndex: the directory listings of src/artindex.c

    A missing cover costs a walk of the whole directory, so the art worker keeps
    sorted hashes of up to three listings. The answers are "definitely absent" and
    "go and look"; every doubt is the second. One thread owns the slots; any thread
    may drop them. *)
From S2P Require Import Prelude CLib.
From stdpp Require Import sorting.
#[local] Open Scope Z_scope.

(** ** Data *)

Definition ART_INDEX_SLOTS : nat := 3.
Definition ART_INDEX_MAX_ENTRIES : nat := 4096.
Definition ART_INDEX_DIR_MAX : nat := 192.

Record art_index_dir := Slot {
  sl_dir : bytes;
  sl_hashes : option (list Z);  (** [count] is the length *)
  sl_valid : bool;
}.

Record art_index := AI {
  gArtIndex : list art_index_dir;
  gArtIndexNext : nat;
  gArtIndexAbsentAnswered : Z;
  gArtIndexSweepFailed : Z;
  gArtIndexWrongThread : Z;
  gArtIndexOwnerThread : Z;
  gArtIndexGen : Z;
}.

Definition empty_slot : art_index_dir := Slot [] None false.
Definition art_start : art_index := AI (replicate ART_INDEX_SLOTS empty_slot) 0 0 0 0 (-1) 0.

Definition on_slots (f : list art_index_dir -> list art_index_dir) (s : art_index) : art_index :=
  AI (f (gArtIndex s)) (gArtIndexNext s) (gArtIndexAbsentAnswered s) (gArtIndexSweepFailed s)
     (gArtIndexWrongThread s) (gArtIndexOwnerThread s) (gArtIndexGen s).
Definition count_absent (s : art_index) : art_index :=
  AI (gArtIndex s) (gArtIndexNext s) (u32 (gArtIndexAbsentAnswered s + 1)) (gArtIndexSweepFailed s)
     (gArtIndexWrongThread s) (gArtIndexOwnerThread s) (gArtIndexGen s).
Definition count_failed (s : art_index) : art_index :=
  AI (gArtIndex s) (gArtIndexNext s) (gArtIndexAbsentAnswered s) (u32 (gArtIndexSweepFailed s + 1))
     (gArtIndexWrongThread s) (gArtIndexOwnerThread s) (gArtIndexGen s).
Definition count_wrong (s : art_index) : art_index :=
  AI (gArtIndex s) (gArtIndexNext s) (gArtIndexAbsentAnswered s) (gArtIndexSweepFailed s)
     (u32 (gArtIndexWrongThread s + 1)) (gArtIndexOwnerThread s) (gArtIndexGen s).
Definition bump_gen (s : art_index) : art_index :=
  AI (gArtIndex s) (gArtIndexNext s) (gArtIndexAbsentAnswered s) (gArtIndexSweepFailed s)
     (gArtIndexWrongThread s) (gArtIndexOwnerThread s) (u32 (gArtIndexGen s + 1)).

Definition artIndexSetOwnerThread (threadId : Z) (s : art_index) : art_index :=
  AI (gArtIndex s) (gArtIndexNext s) (gArtIndexAbsentAnswered s) (gArtIndexSweepFailed s)
     (gArtIndexWrongThread s) threadId (gArtIndexGen s).

(** ** Names *)

(** FNV-1a of the upper-cased name *)
Definition artIndexHash (s : bytes) : Z :=
  fold_left (fun h c => u32 (Z.lxor h (toupper c) * 16777619)) s 2166136261.

Definition artIndexCmp (x y : Z) : Z := if x <? y then -1 else if y <? x then 1 else 0.

(** the directory and the base name of a path *)
Definition artIndexSplit (fullPath : bytes) (dirMax : nat) : option (bytes * bytes) :=
  cb ← match strrchr fullPath cSLASH with
       | Some slash => Some (slash, S slash)
       | None => (fun colon => (S colon, S colon)) <$> strchr fullPath cCOLON
       end;
  let '(dirLen, base) := cb in
  if Nat.leb dirLen 0 || Nat.leb dirMax dirLen then None
  else if bool_decide (drop base fullPath = []) then None
  else Some (take dirLen fullPath, drop base fullPath).

(** ** The sweep *)

(** [opendir] and the names [readdir] gives, on the devices as they are *)
Definition listing := bytes -> option (list bytes).

(** the second form of a directory without a slash behind the device *)
Definition alt_dir (dir : bytes) : option bytes :=
  match strchr dir cCOLON with
  | Some i =>
    let alt := take (S i) dir ++ [cSLASH] ++ drop (S i) dir in
    if bool_decide (drop (S i) dir = []) || bool_decide (head (drop (S i) dir) = Some cSLASH) then None
    else if Nat.ltb (length alt) (ART_INDEX_DIR_MAX + 1) then Some alt else None
  | None => None
  end.

Definition open_listing (w : listing) (dir : bytes) : option (list bytes) :=
  match w dir with
  | Some l => Some l
  | None => alt ← alt_dir dir; w alt
  end.

Definition skipped_name (n : bytes) : bool := bool_decide (n = []) || bool_decide (head n = Some 46).

(** the readdir loop; [None] is the overflow *)
Fixpoint sweep_loop (names : list bytes) (hashes : list Z) : option (list Z) :=
  match names with
  | [] => Some hashes
  | e :: r =>
    if skipped_name e then sweep_loop r hashes
    else if Nat.leb ART_INDEX_MAX_ENTRIES (length hashes) then None
    else sweep_loop r (hashes ++ [artIndexHash e])
  end.

(** [qsort] with [artIndexCmp] *)
Definition art_le (x y : Z) : Prop := artIndexCmp x y <= 0.
#[export] Instance art_le_dec x y : Decision (art_le x y).
Proof. unfold art_le. apply _. Defined.
Definition art_sort (l : list Z) : list Z := merge_sort art_le l.

(** *** [artIndexBuild] in the pieces other threads can see *)

(** the slot is taken, its listing freed and its name set *)
Definition build_claim (dir : bytes) (s : art_index) : nat * art_index :=
  let k := gArtIndexNext s in
  (k, AI (<[k := Slot (bufcpy ART_INDEX_DIR_MAX dir) None false]> (gArtIndex s)) ((k + 1) mod ART_INDEX_SLOTS)%nat
     (gArtIndexAbsentAnswered s) (gArtIndexSweepFailed s) (gArtIndexWrongThread s) (gArtIndexOwnerThread s) (gArtIndexGen s)).

(** the sorted hashes of a sweep of [dir], when there is a complete one; [alloc] is [malloc] *)
Definition build_sweep (w : listing) (alloc : bool) (dir : bytes) (s : art_index) : option (list Z) * art_index :=
  match open_listing w dir with
  | None => (None, count_failed s)
  | Some names => (if alloc then art_sort <$> sweep_loop names [] else None, s)
  end.

Definition build_publish (k : nat) (h : list Z) (s : art_index) : art_index :=
  on_slots (alter (fun x => Slot (sl_dir x) (Some h) (sl_valid x)) k) s.
Definition build_valid (k : nat) (s : art_index) : art_index :=
  on_slots (alter (fun x => Slot (sl_dir x) (sl_hashes x) true) k) s.

Definition artIndexBuild (w : listing) (alloc : bool) (dir : bytes) (s : art_index) : nat * art_index :=
  let '(k, s) := build_claim dir s in
  match build_sweep w alloc dir s with
  | (None, s) => (k, s)
  | (Some h, s) => (k, build_valid k (build_publish k h s))
  end.

(** ** The look-up *)

Definition slot_named (dir : bytes) (x : art_index_dir) : bool :=
  negb (bool_decide (sl_dir x = [])) && streq (sl_dir x) dir.

Definition artIndexSlotFor (w : listing) (alloc : bool) (dir : bytes) (s : art_index) : nat * art_index :=
  match find_index (slot_named dir) (gArtIndex s) with
  | Some i => (i, s)
  | None => artIndexBuild w alloc dir s
  end.

(** the binary search: is [want] there *)
Fixpoint search_loop (fuel : nat) (hashes : list Z) (want lo hi : Z) : bool :=
  if hi <? lo then false
  else match fuel with
       | O => false
       | S f =>
         let mid := lo + Z.shiftr (hi - lo) 1 in
         let got := nth (Z.to_nat mid) hashes 0 in
         if got =? want then true
         else if got <? want then search_loop f hashes want (mid + 1) hi
         else search_loop f hashes want lo (mid - 1)
       end.
Definition art_search (hashes : list Z) (want : Z) : bool :=
  search_loop (length hashes) hashes want 0 (Z.of_nat (length hashes) - 1).

(** the hashes of a slot that may be searched *)
Definition slot_hashes (k : nat) (s : art_index) : option (list Z) :=
  x ← gArtIndex s !! k; if sl_valid x then sl_hashes x else None.

(** the paths that are not looked up at all *)
Definition unindexed_path (fullPath : bytes) : bool :=
  bool_decide (fullPath = []) || bool_decide (strchr fullPath cBSLASH <> None) || strneq fullPath (bs "smb") 3.

(** [artIndexMayExist] called by the thread [tid] when no other thread interferes *)
Definition artIndexMayExist (w : listing) (alloc : bool) (tid : Z) (fullPath : bytes) (s : art_index) : Z * art_index :=
  if unindexed_path fullPath then (1, s)
  else if (gArtIndexOwnerThread s <? 0) || negb (tid =? gArtIndexOwnerThread s) then (1, count_wrong s)
  else
    match artIndexSplit fullPath ART_INDEX_DIR_MAX with
    | None => (1, s)
    | Some (dir, base) =>
      let genBefore := gArtIndexGen s in
      let '(k, s) := artIndexSlotFor w alloc dir s in
      match slot_hashes k s with
      | None => (1, s)
      | Some h =>
        if art_search h (artIndexHash base) then (1, s)
        else if negb (gArtIndexGen s =? genBefore) then (1, s)
        else (0, count_absent s)
      end
    end.

(** one slot marked unusable, in the two stores of the loop *)
Definition drop_valid (i : nat) (s : art_index) : art_index :=
  on_slots (alter (fun x => Slot (sl_dir x) (sl_hashes x) false) i) s.
Definition drop_dir (i : nat) (s : art_index) : art_index :=
  on_slots (alter (fun x => Slot [] (sl_hashes x) (sl_valid x)) i) s.

Definition artIndexInvalidate (s : art_index) : art_index :=
  fold_left (fun s i => drop_dir i (drop_valid i s)) (seq 0 ART_INDEX_SLOTS) (bump_gen s).

(** [dirsHeld], [absentAnswered] and [sweepsFailed] *)
Definition artIndexDebug (s : art_index) : nat * Z * Z :=
  (length (base.filter (fun x => sl_valid x = true) (gArtIndex s)), gArtIndexAbsentAnswered s,
   u32 (gArtIndexSweepFailed s + gArtIndexWrongThread s)).

(** ** The parts of a look-up *)

Lemma art_le_iff x y : art_le x y <-> x <= y.
Proof.
  unfold art_le, artIndexCmp. destruct (Z.ltb_spec x y); [split; lia|]. destruct (Z.ltb_spec y x); split; lia.
Qed.

#[export] Instance art_le_total : Total art_le.
Proof. intros x y. rewrite !art_le_iff. lia. Qed.
#[export] Instance art_le_trans : Transitive art_le.
Proof. intros x y z. rewrite !art_le_iff. lia. Qed.

Definition ascending (l : list Z) : Prop := forall i j x y, (i <= j)%nat -> l !! i = Some x -> l !! j = Some y -> x <= y.

Lemma sorted_ascending l : StronglySorted art_le l -> ascending l.
Proof.
  induction 1 as [|z l Hs IH Hz]; intros i j x y Hij Hi Hj; [done|].
  destruct i as [|i], j as [|j]; cbn in Hi, Hj; try lia.
  - simplify_eq. lia.
  - injection Hi as ->. apply art_le_iff. eapply Forall_lookup_1; [exact Hz|exact Hj].
  - apply (IH i j x y); [lia|done|done].
Qed.

Lemma art_sort_ascending l : ascending (art_sort l).
Proof. apply sorted_ascending, StronglySorted_merge_sort; apply _. Qed.
Lemma art_sort_elem l x : x ∈ art_sort l <-> x ∈ l.
Proof. unfold art_sort. by rewrite merge_sort_Permutation. Qed.

Lemma search_loop_spec l want : ascending l -> forall fuel lo hi,
  0 <= lo -> hi < Z.of_nat (length l) -> hi - lo + 1 <= Z.of_nat fuel ->
  (forall i x, l !! i = Some x -> Z.of_nat i < lo -> x < want) ->
  (forall i x, l !! i = Some x -> hi < Z.of_nat i -> want < x) ->
  search_loop fuel l want lo hi = bool_decide (want ∈ l).
Proof.
  intros Ha. induction fuel as [|f IH]; intros lo hi Hlo Hhi Hf Hl Hh; cbn [search_loop];
    destruct (Z.ltb_spec hi lo) as [Hlt|Hge].
  1, 3: symmetry; apply bool_decide_eq_false; intros Hin; apply list_elem_of_lookup in Hin as [i Hi];
    destruct (Z.lt_ge_cases (Z.of_nat i) lo) as [H|H]; [specialize (Hl i want Hi H); lia|];
    specialize (Hh i want Hi); lia.
  - lia.
  - rewrite Z.shiftr_div_pow2 by lia. change (2 ^ 1) with 2.
    set (mid := lo + (hi - lo) / 2).
    assert (lo <= mid <= hi) as Hm.
    { pose proof (Z.div_pos (hi - lo) 2). pose proof (Z.mul_div_le (hi - lo) 2). unfold mid. lia. }
    destruct (lookup_lt_is_Some_2 l (Z.to_nat mid)) as [g Hg]; [lia|].
    rewrite (nth_lookup_Some _ _ _ _ Hg).
    destruct (Z.eqb_spec g want) as [->|Hne].
    { symmetry. apply bool_decide_eq_true. by eapply list_elem_of_lookup_2. }
    destruct (Z.ltb_spec g want) as [Hgw|Hgw]; apply IH; try lia; try done.
    + intros i x Hi Hlt. pose proof (Ha i (Z.to_nat mid) x g) as H. specialize (H ltac:(lia) Hi Hg). lia.
    + intros i x Hi Hlt. pose proof (Ha (Z.to_nat mid) i g x) as H. specialize (H ltac:(lia) Hg Hi). lia.
Qed.

Lemma art_search_spec l want : ascending l -> art_search l want = bool_decide (want ∈ l).
Proof.
  intros Ha. apply search_loop_spec; [done|lia|lia|lia| |].
  - intros i x Hi H. lia.
  - intros i x Hi H. apply lookup_lt_Some in Hi. lia.
Qed.

(** the names a sweep indexes *)
Definition indexed_names (names : list bytes) : list bytes := base.filter (fun n => skipped_name n = false) names.

Lemma sweep_loop_spec names : forall hashes,
  sweep_loop names hashes =
  if Nat.leb (length hashes + length (indexed_names names)) ART_INDEX_MAX_ENTRIES || bool_decide (indexed_names names = [])
  then Some (hashes ++ map artIndexHash (indexed_names names)) else None.
Proof.
  unfold indexed_names. induction names as [|n names IH]; intros hashes; cbn [sweep_loop].
  - rewrite filter_nil, bool_decide_eq_true_2, orb_true_r by done. cbn. by rewrite app_nil_r.
  - rewrite filter_cons. destruct (skipped_name n) eqn:E.
    + rewrite decide_False by done. apply IH.
    + rewrite decide_True by done. rewrite (bool_decide_eq_false_2 (_ :: _ = [])), orb_false_r by done. cbn [length map].
      destruct (Nat.leb_spec ART_INDEX_MAX_ENTRIES (length hashes)).
      * destruct (Nat.leb_spec (length hashes + S (length (base.filter (fun n => skipped_name n = false) names))) ART_INDEX_MAX_ENTRIES); [lia|done].
      * rewrite IH, length_app. cbn [length]. rewrite <- app_assoc. cbn [app].
        replace (length hashes + 1 + _)%nat with (length hashes + S (length (base.filter (fun n => skipped_name n = false) names)))%nat by lia.
        destruct (Nat.leb_spec (length hashes + S (length (base.filter (fun n => skipped_name n = false) names))) ART_INDEX_MAX_ENTRIES) as [|Hgt]; [done|].
        destruct (bool_decide_reflect (base.filter (fun n => skipped_name n = false) names = [])) as [Hn|]; [|done].
        exfalso. rewrite Hn in Hgt. cbn in Hgt. lia.
Qed.

(** the listing is complete: it fits *)
Definition fits (names : list bytes) : Prop := (length (indexed_names names) <= ART_INDEX_MAX_ENTRIES)%nat.

Lemma sweep_all names :
  sweep_loop names [] = if Nat.leb (length (indexed_names names)) ART_INDEX_MAX_ENTRIES then Some (map artIndexHash (indexed_names names)) else None.
Proof.
  rewrite sweep_loop_spec. cbn [length Nat.add app]. destruct (bool_decide_reflect (indexed_names names = [])) as [->|]; [done|].
  by rewrite orb_false_r.
Qed.

(** a name and its case variants have one hash *)
Definition same_name (a b : bytes) : Prop := map toupper a = map toupper b.

Lemma artIndexHash_upper s : artIndexHash s = fold_left (fun h c => u32 (Z.lxor h c * 16777619)) (map toupper s) 2166136261.
Proof.
  unfold artIndexHash. generalize 2166136261. induction s as [|c s IH]; intros h; cbn [fold_left map]; [done|]. apply IH.
Qed.
Lemma same_name_hash a b : same_name a b -> artIndexHash a = artIndexHash b.
Proof. unfold same_name. intros H. by rewrite !artIndexHash_upper, H. Qed.

(** what the hashes of a valid slot say of a listing *)
Definition indexes (names : list bytes) (h : list Z) : Prop := ascending h /\ forall x, x ∈ h <-> x ∈ map artIndexHash (indexed_names names).

Lemma build_sweep_indexes w alloc dir s h s' :
  build_sweep w alloc dir s = (Some h, s') -> exists names, open_listing w dir = Some names /\ indexes names h /\ s' = s.
Proof.
  unfold build_sweep. destruct (open_listing w dir) as [names|]; [|done]. destruct alloc; [|done].
  rewrite sweep_all. destruct (Nat.leb _ _); [|done]. cbn. intros [= <- <-]. exists names. split_and!; [done| |done].
  split; [apply art_sort_ascending|]. intros x. apply art_sort_elem.
Qed.

Lemma indexes_absent names h want :
  indexes names h -> art_search h (artIndexHash want) = false ->
  forall n, n ∈ names -> skipped_name n = false -> ~ same_name n want.
Proof.
  intros [Ha He] Hs n Hn Hsk Hsame. rewrite art_search_spec in Hs by done. apply bool_decide_eq_false in Hs. apply Hs.
  rewrite <- (same_name_hash _ _ Hsame). apply He. apply (list_elem_of_fmap_2 artIndexHash).
  apply list_elem_of_filter. done.
Qed.

(** ** The look-up and the invalidations, interleaved

    The owner thread runs one look-up at a time; invalidations run in any number of
    other threads, each a store at a time. The devices may change at any moment. *)

(** a look-up under way: with the number of the last invalidation that had returned
    and the number of those begun when it sampled the generation *)
Record lookup := Lk { l_dir : bytes; l_base : bytes; l_gen : Z; l_returned : nat; l_begun : nat }.

Inductive art_pc :=
| PIdle
| PFind (l : lookup) (i : nat)              (* about to compare slot [i] *)
| PSweep (l : lookup) (k : nat)             (* slot [k] claimed *)
| PPublish (l : lookup) (k : nat) (h : list Z)
| PValid (l : lookup) (k : nat)
| PProbe (l : lookup) (k : nat)             (* the slot is chosen *)
| PSearch (l : lookup) (k : nat) (h : list Z)
| PCheck (l : lookup) (k : nat)             (* not found *)
| PAbsent (l : lookup) (k : nat) (begun : nat).  (* answered 0 with [begun] invalidations begun *)

(** the last sweep into a slot: what it read, and the invalidations begun by then *)
Record sweep := Sweep { sw_dir : bytes; sw_names : list bytes; sw_begun : nat }.

Record art_sys := ASys {
  a_idx : art_index;
  a_pc : art_pc;
  a_invs : list (nat * nat);  (** the invalidations under way: number and stores made *)
  a_world : listing;
  a_begun : nat;
  a_returned : nat;           (** the highest number of an invalidation that returned *)
  a_sweeps : nat -> sweep;
}.

Definition set_idx (f : art_index -> art_index) (s : art_sys) : art_sys :=
  ASys (f (a_idx s)) (a_pc s) (a_invs s) (a_world s) (a_begun s) (a_returned s) (a_sweeps s).
Definition set_pc (p : art_pc) (s : art_sys) : art_sys :=
  ASys (a_idx s) p (a_invs s) (a_world s) (a_begun s) (a_returned s) (a_sweeps s).
Definition set_world (w : listing) (s : art_sys) : art_sys :=
  ASys (a_idx s) (a_pc s) (a_invs s) w (a_begun s) (a_returned s) (a_sweeps s).
Definition set_sweep (k : nat) (x : sweep) (s : art_sys) : art_sys :=
  ASys (a_idx s) (a_pc s) (a_invs s) (a_world s) (a_begun s) (a_returned s)
       (fun j => if Nat.eqb j k then x else a_sweeps s j).

(** store number [p] of an invalidation: [valid] and [dir] of each slot in turn *)
Definition inv_store (p : nat) (s : art_index) : art_index :=
  if Nat.even p then drop_valid (p / 2) s else drop_dir (p / 2) s.

Inductive art_step : art_sys -> art_sys -> Prop :=
| st_world s w : art_step s (set_world w s)
| st_inv_begin s :
    art_step s (ASys (bump_gen (a_idx s)) (a_pc s) (a_invs s ++ [(S (a_begun s), O)]) (a_world s)
                     (S (a_begun s)) (a_returned s) (a_sweeps s))
| st_inv_store s j m p :
    a_invs s !! j = Some (m, p) -> (p < 2 * ART_INDEX_SLOTS)%nat ->
    art_step s (ASys (inv_store p (a_idx s)) (a_pc s) (<[j := (m, S p)]> (a_invs s)) (a_world s)
                     (a_begun s) (a_returned s) (a_sweeps s))
| st_inv_return s j m :
    a_invs s !! j = Some (m, (2 * ART_INDEX_SLOTS)%nat) ->
    art_step s (ASys (a_idx s) (a_pc s) (delete j (a_invs s)) (a_world s)
                     (a_begun s) (Nat.max m (a_returned s)) (a_sweeps s))
| st_start s fullPath dir base :
    a_pc s = PIdle -> unindexed_path fullPath = false ->
    artIndexSplit fullPath ART_INDEX_DIR_MAX = Some (dir, base) ->
    art_step s (set_pc (PFind (Lk dir base (gArtIndexGen (a_idx s)) (a_returned s) (a_begun s)) 0) s)
| st_find_hit s l i x :
    a_pc s = PFind l i -> gArtIndex (a_idx s) !! i = Some x -> slot_named (l_dir l) x = true ->
    art_step s (set_pc (PProbe l i) s)
| st_find_next s l i x :
    a_pc s = PFind l i -> gArtIndex (a_idx s) !! i = Some x -> slot_named (l_dir l) x = false ->
    art_step s (set_pc (PFind l (S i)) s)
| st_claim s l :
    a_pc s = PFind l ART_INDEX_SLOTS ->
    art_step s (set_pc (PSweep l (gArtIndexNext (a_idx s))) (set_idx (fun t => snd (build_claim (l_dir l) t)) s))
| st_sweep s l k alloc :
    a_pc s = PSweep l k ->
    let r := build_sweep (a_world s) alloc (l_dir l) (a_idx s) in
    art_step s (set_pc (match fst r with Some h => PPublish l k h | None => PProbe l k end)
                 (set_sweep k (Sweep (l_dir l) (default [] (open_listing (a_world s) (l_dir l))) (a_begun s))
                    (set_idx (fun _ => snd r) s)))
| st_publish s l k h :
    a_pc s = PPublish l k h -> art_step s (set_pc (PValid l k) (set_idx (build_publish k h) s))
| st_valid s l k :
    a_pc s = PValid l k -> art_step s (set_pc (PProbe l k) (set_idx (build_valid k) s))
| st_probe_none s l k :
    a_pc s = PProbe l k -> slot_hashes k (a_idx s) = None -> art_step s (set_pc PIdle s)
| st_probe s l k h :
    a_pc s = PProbe l k -> slot_hashes k (a_idx s) = Some h -> art_step s (set_pc (PSearch l k h) s)
| st_found s l k h :
    a_pc s = PSearch l k h -> art_search h (artIndexHash (l_base l)) = true -> art_step s (set_pc PIdle s)
| st_not_found s l k h :
    a_pc s = PSearch l k h -> art_search h (artIndexHash (l_base l)) = false -> art_step s (set_pc (PCheck l k) s)
| st_moved s l k :
    a_pc s = PCheck l k -> gArtIndexGen (a_idx s) <> l_gen l -> art_step s (set_pc PIdle s)
| st_absent s l k :
    a_pc s = PCheck l k -> gArtIndexGen (a_idx s) = l_gen l ->
    art_step s (set_pc (PAbsent l k (a_begun s)) (set_idx count_absent s))
| st_again s l k b : a_pc s = PAbsent l k b -> art_step s (set_pc PIdle s).

Definition art_init (s : art_sys) : Prop :=
  exists w owner, s = ASys (artIndexSetOwnerThread owner art_start) PIdle [] w 0 0 (fun _ => Sweep [] [] 0).

(** *** The invariant *)

(** an invalidation that can no longer touch slot [k] *)
Definition passed (s : art_sys) (k m : nat) : Prop :=
  (m <= a_returned s)%nat \/ exists p, (m, p) ∈ a_invs s /\ (2 * k + 2 <= p)%nat.

Definition claimed (p : art_pc) (k : nat) : Prop := match p with PSweep _ k' => k' = k | _ => False end.

(** what a look-up knows of the slot it uses *)
Definition fresh_for (s : art_sys) (l : lookup) (k : nat) : Prop :=
  sw_dir (a_sweeps s k) = l_dir l /\ (l_returned l <= sw_begun (a_sweeps s k))%nat.

Definition good_lookup (s : art_sys) (l : lookup) : Prop :=
  l_gen l = u32 (Z.of_nat (l_begun l)) /\ (l_returned l <= a_returned s)%nat /\
  l_dir l <> [] /\ (length (l_dir l) < ART_INDEX_DIR_MAX)%nat.

Definition absent_in (s : art_sys) (l : lookup) (k : nat) : Prop :=
  forall n, n ∈ sw_names (a_sweeps s k) -> skipped_name n = false -> ~ same_name n (l_base l).

Definition pc_ok (s : art_sys) : Prop :=
  match a_pc s with
  | PIdle => True
  | PFind l i => good_lookup s l
  | PSweep l k => good_lookup s l /\ (k < ART_INDEX_SLOTS)%nat /\
      (exists x, gArtIndex (a_idx s) !! k = Some x /\ sl_hashes x = None /\ (sl_dir x = l_dir l \/ sl_dir x = []))
  | PPublish l k h => good_lookup s l /\ fresh_for s l k /\ indexes (sw_names (a_sweeps s k)) h
  | PValid l k | PProbe l k => good_lookup s l /\ fresh_for s l k
  | PSearch l k h => good_lookup s l /\ fresh_for s l k /\ indexes (sw_names (a_sweeps s k)) h
  | PCheck l k => good_lookup s l /\ fresh_for s l k /\ absent_in s l k
  | PAbsent l k b => good_lookup s l /\ fresh_for s l k /\ absent_in s l k /\ u32 (Z.of_nat b) = u32 (Z.of_nat (l_begun l))
  end.

Record art_inv (s : art_sys) : Prop := {
  inv_slots : length (gArtIndex (a_idx s)) = ART_INDEX_SLOTS;
  inv_next : (gArtIndexNext (a_idx s) < ART_INDEX_SLOTS)%nat;
  inv_gen : gArtIndexGen (a_idx s) = u32 (Z.of_nat (a_begun s));
  inv_nums : (a_returned s <= a_begun s)%nat /\ forall m p, (m, p) ∈ a_invs s -> (m <= a_begun s)%nat;
  (** a named slot was swept after every invalidation that can no longer drop it had begun *)
  inv_named : forall k x, gArtIndex (a_idx s) !! k = Some x -> sl_dir x <> [] -> ~ claimed (a_pc s) k ->
    sw_dir (a_sweeps s k) = sl_dir x /\ forall m, passed s k m -> (m <= sw_begun (a_sweeps s k))%nat;
  (** the hashes of a slot are those of its last sweep *)
  inv_hashes : forall k x h, gArtIndex (a_idx s) !! k = Some x -> sl_hashes x = Some h ->
    indexes (sw_names (a_sweeps s k)) h;
  inv_pc : pc_ok s;
}.

Lemma u32_succ n : u32 (u32 (Z.of_nat n) + 1) = u32 (Z.of_nat (S n)).
Proof. unfold u32. rewrite Zplus_mod_idemp_l. f_equal. lia. Qed.

Lemma alter_slot {A} (f : A -> A) k (l : list A) j x :
  alter f k l !! j = Some x -> exists y, l !! j = Some y /\ (x = y \/ j = k /\ x = f y).
Proof.
  rewrite list_lookup_alter. case_decide as E; [subst|eauto].
  destruct (l !! _) as [y|] eqn:Hy; cbn; [|done]. intros [= <-]. exists y. eauto.
Qed.

(** facts about a look-up that do not depend on the slots *)
Lemma good_lookup_mono s s' l : (a_returned s <= a_returned s')%nat -> good_lookup s l -> good_lookup s' l.
Proof. intros H (H1 & H2 & H3 & H4). split_and!; try done. lia. Qed.

(** everything but the program counter and the counters is unchanged *)
Lemma inv_frame s s' :
  art_inv s ->
  gArtIndex (a_idx s') = gArtIndex (a_idx s) -> gArtIndexNext (a_idx s') = gArtIndexNext (a_idx s) ->
  gArtIndexGen (a_idx s') = gArtIndexGen (a_idx s) -> a_invs s' = a_invs s -> a_begun s' = a_begun s ->
  a_returned s' = a_returned s -> a_sweeps s' = a_sweeps s ->
  (forall k, claimed (a_pc s) k -> claimed (a_pc s') k) -> pc_ok s' -> art_inv s'.
Proof.
  intros [H1 H2 H3 H4 H5 H6 H7] E1 E2 E3 E4 E5 E6 E7 E8 Hpc.
  split; rewrite ?E1, ?E2, ?E3, ?E4, ?E5, ?E6, ?E7; auto.
  intros k x Hx Hd Hc. destruct (H5 k x Hx Hd) as [Ha Hb]; [auto|]. split; [done|].
  intros m Hm. apply Hb. unfold passed in *. by rewrite E4, E6 in Hm.
Qed.

Lemma drop_dir_slot k i j x :
  gArtIndex (drop_dir k i) !! j = Some x ->
  exists y, gArtIndex i !! j = Some y /\ sl_hashes x = sl_hashes y /\ (sl_dir x = sl_dir y /\ j <> k \/ sl_dir x = []).
Proof.
  unfold drop_dir, on_slots. cbn [gArtIndex]. rewrite list_lookup_alter. case_decide as E; [subst|intros ->; eauto 7].
  destruct (gArtIndex i !! _) as [y|] eqn:Hy; cbn; [|done]. intros [= <-]. exists y. auto.
Qed.

(** an invalidation's store keeps the hashes, and keeps the name or empties it *)
Lemma inv_store_slot p i k x :
  gArtIndex (inv_store p i) !! k = Some x ->
  exists y, gArtIndex i !! k = Some y /\ sl_hashes x = sl_hashes y /\ (sl_dir x = sl_dir y /\ p <> (2 * k + 1)%nat \/ sl_dir x = []).
Proof.
  unfold inv_store. destruct (Nat.even p) eqn:E.
  - unfold drop_valid, on_slots. cbn [gArtIndex]. intros (y & Hy & Hx)%alter_slot. exists y. split; [done|].
    assert (p <> (2 * k + 1)%nat) by (intros ->; rewrite Nat.even_add, Nat.even_mul in E; done).
    destruct Hx as [->|[_ ->]]; auto.
  - intros (y & Hy & Hh & Hx)%drop_dir_slot. exists y. split_and!; [done|done|]. destruct Hx as [[Hx Hk]|Hx]; [left|by right].
    split; [done|]. intros ->. apply Hk. rewrite Nat.mul_comm, Nat.div_add_l by done. cbn. lia.
Qed.

Lemma inv_store_same p i :
  gArtIndexNext (inv_store p i) = gArtIndexNext i /\ gArtIndexGen (inv_store p i) = gArtIndexGen i /\
  length (gArtIndex (inv_store p i)) = length (gArtIndex i).
Proof. unfold inv_store. destruct (Nat.even p); unfold drop_valid, drop_dir, on_slots; cbn; by rewrite length_alter. Qed.

Lemma inv_begin_ok s : art_inv s ->
  art_inv (ASys (bump_gen (a_idx s)) (a_pc s) (a_invs s ++ [(S (a_begun s), O)]) (a_world s)
                (S (a_begun s)) (a_returned s) (a_sweeps s)).
Proof.
  intros [H1 H2 H3 [H4 H4'] H5 H6 H7]. split; cbn; auto.
  - by rewrite H3, u32_succ.
  - split; [lia|]. intros m p [Hin|Hin]%elem_of_app; [apply H4' in Hin; lia|].
    apply list_elem_of_singleton in Hin. simplify_eq. lia.
  - intros k x Hx Hd Hc. destruct (H5 k x Hx Hd Hc) as [Ha Hb]. split; [done|].
    intros m [Hm|(p & Hin & Hp)]; apply Hb; [by left|]. right. cbn [a_invs] in Hin.
    apply elem_of_app in Hin as [Hin|Hin]; [eauto|]. apply list_elem_of_singleton in Hin. simplify_eq. lia.
Qed.

Lemma inv_store_ok s j m p : art_inv s ->
  a_invs s !! j = Some (m, p) ->
  art_inv (ASys (inv_store p (a_idx s)) (a_pc s) (<[j := (m, S p)]> (a_invs s)) (a_world s)
                (a_begun s) (a_returned s) (a_sweeps s)).
Proof.
  intros [H1 H2 H3 [H4 H4'] H5 H6 H7] Hj. destruct (inv_store_same p (a_idx s)) as (E1 & E2 & E3).
  assert (Hin : forall m' p', (m', p') ∈ <[j := (m, S p)]> (a_invs s) -> (m', p') ∈ a_invs s \/ (m', p') = (m, S p)).
  { intros m' p' Hin. apply list_elem_of_lookup in Hin as [i Hi].
    destruct (decide (i = j)) as [->|Hne].
    - rewrite list_lookup_insert_eq in Hi by (by eapply lookup_lt_Some). right. congruence.
    - rewrite list_lookup_insert_ne in Hi by done. left. by eapply list_elem_of_lookup_2. }
  assert (Hmp : (m, p) ∈ a_invs s) by (by eapply list_elem_of_lookup_2).
  split; cbn; rewrite ?E1, ?E2, ?E3; auto.
  - split; [done|]. intros m' p' [Hi|[= -> ->]]%Hin; eauto.
  - intros k x (y & Hy & _ & Hd)%inv_store_slot Hne Hc. destruct Hd as [[Hd Hp]|Hd]; [|done].
    rewrite Hd in *. destruct (H5 k y Hy Hne Hc) as [Ha Hb]. split; [done|].
    intros m' [Hm|(p' & Hi & Hp')]; apply Hb; [by left|]. right. cbn [a_invs] in Hi.
    apply Hin in Hi as [Hi|[= -> ->]]; [eauto|]. exists p. split; [done|lia].
  - intros k x h (y & Hy & Hh & _)%inv_store_slot Hx. rewrite Hh in Hx. eauto.
  - unfold pc_ok in *. cbn [a_pc a_idx] in *. destruct (a_pc s); try exact H7.
    destruct H7 as (Hg & Hk & x & Hx & Hn & Hd). split_and!; [exact Hg|exact Hk|].
    destruct (lookup_lt_is_Some_2 (gArtIndex (inv_store p (a_idx s))) k) as [z Hz].
    { rewrite E3. by eapply lookup_lt_Some. }
    exists z. split; [done|]. destruct (inv_store_slot _ _ _ _ Hz) as (y & Hy & Hh & Hzd). simplify_eq.
    rewrite Hh. split; [done|]. destruct Hzd as [[-> _]| ->]; auto.
Qed.

Lemma inv_return_ok s j m : art_inv s ->
  a_invs s !! j = Some (m, (2 * ART_INDEX_SLOTS)%nat) ->
  art_inv (ASys (a_idx s) (a_pc s) (delete j (a_invs s)) (a_world s) (a_begun s) (Nat.max m (a_returned s)) (a_sweeps s)).
Proof.
  intros [H1 H2 H3 [H4 H4'] H5 H6 H7] Hj.
  assert (Hmp : (m, (2 * ART_INDEX_SLOTS)%nat) ∈ a_invs s) by (by eapply list_elem_of_lookup_2).
  assert (Hin : forall x, x ∈ delete j (a_invs s) -> x ∈ a_invs s).
  { intros x Hx. eapply (sublist_elem_of); [|exact Hx] || (eapply elem_of_submseteq; [exact Hx|apply sublist_submseteq, sublist_delete]). }
  split; [cbn; auto..|].
  - split; [|eauto]. specialize (H4' _ _ Hmp). lia.
  - intros k x Hx Hd Hc. destruct (H5 k x Hx Hd Hc) as [Ha Hb]. split; [done|].
    assert (Hk : (k < ART_INDEX_SLOTS)%nat) by (rewrite <- H1; by eapply lookup_lt_Some).
    intros m' [Hm|(p' & Hi & Hp')]; cbn in *.
    + destruct (Nat.le_gt_cases m' (a_returned s)) as [Hle|Hgt]; [apply Hb; by left|].
      enough (m <= sw_begun (a_sweeps s k))%nat by lia. apply Hb. right. exists (2 * ART_INDEX_SLOTS)%nat. split; [done|]. unfold ART_INDEX_SLOTS in *. lia.
    + apply Hb. right. eauto.
  - set (s' := ASys _ _ _ _ _ _ _). unfold pc_ok in *. change (a_pc s') with (a_pc s).
    assert (Hg : forall l, good_lookup s l -> good_lookup s' l) by (intros l; apply good_lookup_mono; cbn; lia).
    destruct (a_pc s); repeat match goal with H : _ /\ _ |- _ => destruct H end; split_and?; auto; done.
Qed.

Lemma good_lookup_same s s' l : a_returned s' = a_returned s -> good_lookup s l -> good_lookup s' l.
Proof. intros H. apply good_lookup_mono. lia. Qed.

Lemma inv_claim_ok s l : art_inv s -> a_pc s = PFind l ART_INDEX_SLOTS ->
  art_inv (set_pc (PSweep l (gArtIndexNext (a_idx s))) (set_idx (fun t => snd (build_claim (l_dir l) t)) s)).
Proof.
  intros [H1 H2 H3 H4 H5 H6 H7] Hpc. unfold pc_ok in H7. rewrite Hpc in H7.
  assert (Hk : (gArtIndexNext (a_idx s) < length (gArtIndex (a_idx s)))%nat) by lia.
  split; cbn; [by rewrite length_insert|by apply (Nat.mod_upper_bound (gArtIndexNext (a_idx s) + 1) ART_INDEX_SLOTS)|done|done|..].
  - intros k x Hx Hd Hc. rewrite list_lookup_insert_ne in Hx by done.
    apply H5; [done|done|]. rewrite Hpc. by intros [].
  - intros k x h Hx Hh. destruct (decide (gArtIndexNext (a_idx s) = k)) as [<-|Hne].
    + rewrite list_lookup_insert_eq in Hx by done. by simplify_eq.
    + rewrite list_lookup_insert_ne in Hx by done. eauto.
  - split_and!; [exact H7|done|]. rewrite list_lookup_insert_eq by done. eexists. split_and!; [done|done|left].
    cbn. apply bufcpy_id. apply H7.
Qed.

Lemma build_sweep_idx w alloc dir s :
  let s' := snd (build_sweep w alloc dir s) in
  gArtIndex s' = gArtIndex s /\ gArtIndexNext s' = gArtIndexNext s /\ gArtIndexGen s' = gArtIndexGen s.
Proof. unfold build_sweep. by destruct (open_listing w dir). Qed.

Lemma inv_sweep_ok s l k alloc : art_inv s -> a_pc s = PSweep l k ->
  let r := build_sweep (a_world s) alloc (l_dir l) (a_idx s) in
  art_inv (set_pc (match fst r with Some h => PPublish l k h | None => PProbe l k end)
            (set_sweep k (Sweep (l_dir l) (default [] (open_listing (a_world s) (l_dir l))) (a_begun s))
               (set_idx (fun _ => snd r) s))).
Proof.
  intros [H1 H2 H3 H4 H5 H6 H7] Hpc r. unfold pc_ok in H7. rewrite Hpc in H7.
  destruct H7 as (Hg & Hk & x0 & Hx0 & Hn0 & Hd0).
  destruct (build_sweep_idx (a_world s) alloc (l_dir l) (a_idx s)) as (E1 & E2 & E3). fold r in E1, E2, E3.
  destruct H4 as [H4 H4'].
  split; cbn; rewrite ?E1, ?E2, ?E3; auto.
  - intros k' x Hx Hd Hc. destruct (Nat.eqb_spec k' k) as [->|Hne]; cbn.
    + simplify_eq. split; [destruct Hd0 as [?|?]; congruence|]. intros m [Hm|(p & Hi & _)]; cbn in *; [lia|eauto].
    + apply H5; [done|done|]. rewrite Hpc. cbn. congruence.
  - intros k' x h Hx Hh. destruct (Nat.eqb_spec k' k) as [->|Hne]; [|eauto]. congruence.
  - unfold pc_ok. cbn [a_pc set_pc]. assert (Hf : forall s', a_returned s' = a_returned s -> a_begun s' = a_begun s -> a_sweeps s' k = Sweep (l_dir l) (default [] (open_listing (a_world s) (l_dir l))) (a_begun s) -> fresh_for s' l k).
    { intros s' E4 E5 E6. unfold fresh_for. rewrite E6. cbn. destruct Hg as (_ & Hr & _). split; [done|lia]. }
    destruct (fst r) as [h|] eqn:Er.
    + split_and!; [exact Hg|apply Hf; cbn; by rewrite ?Nat.eqb_refl|]. cbn. rewrite Nat.eqb_refl. cbn.
      destruct r as [o s1] eqn:Er'. cbn in Er. subst o. unfold r in Er'.
      destruct (build_sweep_indexes _ _ _ _ _ _ Er') as (names & -> & Hi & _). done.
    + split_and!; [exact Hg|apply Hf; cbn; by rewrite ?Nat.eqb_refl].
Qed.

Lemma inv_publish_ok s l k h : art_inv s -> a_pc s = PPublish l k h ->
  art_inv (set_pc (PValid l k) (set_idx (build_publish k h) s)).
Proof.
  intros [H1 H2 H3 H4 H5 H6 H7] Hpc. unfold pc_ok in H7. rewrite Hpc in H7. destruct H7 as (Hg & Hf & Hi).
  split; cbn; rewrite ?length_alter; auto.
  - intros k' x (y & Hy & Hx)%alter_slot Hd _. assert (sl_dir x = sl_dir y) as E by (by destruct Hx as [->|[_ ->]]).
    rewrite E in *. apply H5; [done|done|]. rewrite Hpc. by intros [].
  - intros k' x h' (y & Hy & Hx)%alter_slot Hh. destruct Hx as [->|[-> ->]]; [eauto|]. by injection Hh as <-.
Qed.

Lemma inv_valid_ok s l k : art_inv s -> a_pc s = PValid l k ->
  art_inv (set_pc (PProbe l k) (set_idx (build_valid k) s)).
Proof.
  intros [H1 H2 H3 H4 H5 H6 H7] Hpc. unfold pc_ok in H7. rewrite Hpc in H7.
  split; cbn; rewrite ?length_alter; auto.
  - intros k' x (y & Hy & Hx)%alter_slot Hd _. assert (sl_dir x = sl_dir y) as E by (by destruct Hx as [->|[_ ->]]).
    rewrite E in *. apply H5; [done|done|]. rewrite Hpc. by intros [].
  - intros k' x h' (y & Hy & Hx)%alter_slot Hh. destruct Hx as [->|[_ ->]]; eauto.
Qed.

Lemma artIndexSplit_dir p n dir base : artIndexSplit p n = Some (dir, base) -> dir <> [] /\ (length dir < n)%nat.
Proof.
  unfold artIndexSplit. destruct (match strrchr p cSLASH with Some _ => _ | None => _ end) as [[c b]|]; [|done]. cbn.
  destruct (Nat.leb c 0 || Nat.leb n c) eqn:E; [done|]. destruct (bool_decide_reflect (drop b p = [])) as [|Hb]; [done|].
  intros [= <- <-]. b2p. rewrite length_take. split; [|lia].
  intros Hnil. apply (f_equal length) in Hnil. rewrite length_take in Hnil. cbn in Hnil.
  assert (length p = 0%nat) by lia. destruct p; [|done]. by rewrite drop_nil in Hb.
Qed.

Lemma art_init_ok s : art_init s -> art_inv s.
Proof.
  intros (w & o & ->). split; cbn; auto; [unfold ART_INDEX_SLOTS; lia|split; [lia|]; intros m p Hin; by apply elem_of_nil in Hin| |].
  - intros k x Hx Hd. by destruct k as [|[|[|k]]]; cbn in Hx; simplify_eq.
  - intros k x h Hx Hh. by destruct k as [|[|[|k]]]; cbn in Hx; simplify_eq.
Qed.

Lemma art_step_ok s s' : art_inv s -> art_step s s' -> art_inv s'.
Proof.
  intros Hi Hs. destruct Hs;
    [ | by apply inv_begin_ok | by apply inv_store_ok | by apply inv_return_ok | | | | by apply inv_claim_ok
    | by apply inv_sweep_ok | by apply inv_publish_ok | by apply inv_valid_ok | ..];
    pose proof (inv_pc s Hi) as Hp; apply (inv_frame s); try done; unfold pc_ok in *; cbn [a_pc set_pc set_world set_idx] in *;
    try match goal with H : a_pc _ = _ |- _ => rewrite H in Hp; try rewrite H end; try done.

  - destruct (artIndexSplit_dir _ _ _ _ H1) as [Hd Hl]. split_and!; try done. by apply inv_gen.
  - split; [done|]. apply andb_prop in H1 as [Ha Hb].
    apply negb_true_iff, bool_decide_eq_false in Ha. apply bool_decide_eq_true in Hb.
    destruct (inv_named s Hi i x H0) as [E1 E2]; [done|rewrite H; by intros []|]. split; [cbn; congruence|]. apply E2. left.
    by destruct Hp as (_ & ? & _).
  - destruct Hp as [Hg Hf]. split_and!; try done. unfold slot_hashes in H0.
    destruct (gArtIndex (a_idx s) !! k) as [x|] eqn:Hx; [|done]. cbn in H0. destruct (sl_valid x); [|done].
    exact (inv_hashes s Hi k x h Hx H0).
  - destruct Hp as (Hg & Hf & Hx). split_and!; [done|done|]. intros n Hn Hsk. by eapply indexes_absent.
  - destruct Hp as (Hg & Hf & Hx). split_and!; [done|done|done|]. rewrite <- (inv_gen s Hi), H0. by destruct Hg as [-> _].
Qed.

Lemma skipped_same n m : same_name n m -> skipped_name n = skipped_name m.
Proof.
  unfold same_name, skipped_name. destruct n as [|a n], m as [|b m]; try done. cbn. intros [= E _].
  assert (H : forall c, (toupper c = 46) <-> c = 46).
  { intros c. unfold toupper, islower, CLib.between. destruct ((97 <=? c) && (c <=? 122)) eqn:F; b2p; [|done]. split; lia. }
  f_equal. apply bool_decide_ext. split; intros [= Hc]; f_equal.
  - apply H. by rewrite <- E, Hc.
  - apply H. by rewrite E, Hc.
Qed.

(** C7. "Absent" is never a guess: whenever the owner's look-up answers that a file
    is not there, the listing it searched was read from that very directory after
    the begin of every invalidation that had returned before the look-up started,
    that listing has no name equal to the file's up to case (names that begin with a
    dot apart), and no invalidation was begun during the look-up (modulo the width of
    the generation counter) - whatever the interleaving with invalidations from other
    threads and changes on the devices. *)
Theorem art_absent_is_absent s l k b :
  reachable art_init art_step s -> a_pc s = PAbsent l k b ->
  sw_dir (a_sweeps s k) = l_dir l /\
  (l_returned l <= sw_begun (a_sweeps s k))%nat /\
  (skipped_name (l_base l) = false -> forall n, n ∈ sw_names (a_sweeps s k) -> ~ same_name n (l_base l)) /\
  u32 (Z.of_nat b) = u32 (Z.of_nat (l_begun l)).
Proof.
  intros Hr Hpc. pose proof (invariant_reachable _ _ art_inv art_init_ok art_step_ok s Hr) as Hi.
  pose proof (inv_pc s Hi) as Hp. unfold pc_ok in Hp. rewrite Hpc in Hp. destruct Hp as (_ & [H1 H2] & H3 & H4).
  split_and!; try done. intros Hsk n Hn Hsame. apply (H3 n Hn); [|done]. by rewrite (skipped_same _ _ Hsame).
Qed.

(** *** The code run alone is a run of the interleaved system *)

Lemma run_probe s l k :
  a_pc s = PProbe l k ->
  exists s', rtc art_step s s' /\
    match slot_hashes k (a_idx s) with
    | None => s' = set_pc PIdle s
    | Some h =>
      if art_search h (artIndexHash (l_base l)) then s' = set_pc PIdle s
      else if negb (gArtIndexGen (a_idx s) =? l_gen l) then s' = set_pc PIdle s
      else s' = set_pc (PAbsent l k (a_begun s)) (set_idx count_absent s)
    end.
Proof.
  intros Hpc. destruct (slot_hashes k (a_idx s)) as [h|] eqn:Hh.
  2:{ eexists. split; [|done]. apply rtc_once. by eapply st_probe_none. }
  assert (S1 : art_step s (set_pc (PSearch l k h) s)) by (by apply st_probe).
  destruct (art_search h _) eqn:Hs.
  { eexists. split; [|done]. eapply rtc_l; [exact S1|]. apply rtc_once.
    exact (st_found (set_pc (PSearch l k h) s) l k h eq_refl Hs). }
  assert (S2 : art_step (set_pc (PSearch l k h) s) (set_pc (PCheck l k) s)).
  { exact (st_not_found (set_pc (PSearch l k h) s) l k h eq_refl Hs). }
  destruct (Z.eqb_spec (gArtIndexGen (a_idx s)) (l_gen l)) as [Hg|Hg]; cbn [negb]; eexists;
    (split; [|reflexivity]); (eapply rtc_l; [exact S1|]); (eapply rtc_l; [exact S2|]); apply rtc_once.
  - exact (st_absent (set_pc (PCheck l k) s) l k eq_refl Hg).
  - exact (st_moved (set_pc (PCheck l k) s) l k eq_refl Hg).
Qed.

Lemma run_find s l i :
  a_pc s = PFind l i -> (i <= length (gArtIndex (a_idx s)))%nat ->
  let n := length (gArtIndex (a_idx s)) in
  match find_index (slot_named (l_dir l)) (drop i (gArtIndex (a_idx s))) with
  | Some j => rtc art_step s (set_pc (PProbe l (i + j)) s)
  | None => rtc art_step s (set_pc (PFind l n) s)
  end.
Proof.
  remember (drop i (gArtIndex (a_idx s))) as r eqn:Hr. revert s i Hr.
  induction r as [|x r IH]; intros s i Hr Hpc Hi n; cbn [find_index].
  - assert (i = n) as <-. { apply (f_equal length) in Hr. rewrite length_drop in Hr. cbn in Hr. unfold n. lia. }
    replace (set_pc (PFind l i) s) with s; [done|]. destruct s; cbn in *. by subst.
  - assert (Hx : gArtIndex (a_idx s) !! i = Some x).
    { replace i with (i + 0)%nat by lia. rewrite <- lookup_drop, <- Hr. done. }
    destruct (slot_named (l_dir l) x) eqn:E.
    + rewrite Nat.add_0_r. apply rtc_once. by eapply st_find_hit.
    + assert (S1 : art_step s (set_pc (PFind l (S i)) s)) by (by eapply st_find_next).
      specialize (IH (set_pc (PFind l (S i)) s) (S i)). cbn in IH.
      assert (Hr' : r = drop (S i) (gArtIndex (a_idx s))).
      { replace (S i) with (i + 1)%nat by lia. rewrite <- drop_drop, <- Hr. done. }
      specialize (IH Hr' eq_refl). apply lookup_lt_Some in Hx. specialize (IH ltac:(lia)).
      destruct (find_index _ r) as [j|]; cbn [fmap option_fmap option_map].
      * eapply rtc_l; [exact S1|]. by replace (i + S j)%nat with (S i + j)%nat by lia.
      * eapply rtc_l; [exact S1|]. exact IH.
Qed.

(** a look-up that nothing interferes with takes the steps of the system *)
Lemma mayExist_run s alloc tid fullPath dir base r t :
  a_pc s = PIdle -> length (gArtIndex (a_idx s)) = ART_INDEX_SLOTS ->
  unindexed_path fullPath = false -> 0 <= gArtIndexOwnerThread (a_idx s) -> tid = gArtIndexOwnerThread (a_idx s) ->
  artIndexSplit fullPath ART_INDEX_DIR_MAX = Some (dir, base) ->
  artIndexMayExist (a_world s) alloc tid fullPath (a_idx s) = (r, t) ->
  exists s', rtc art_step s s' /\ a_idx s' = t /\
    (r = 0 -> exists k, a_pc s' = PAbsent (Lk dir base (gArtIndexGen (a_idx s)) (a_returned s) (a_begun s)) k (a_begun s)) /\
    (r <> 0 -> a_pc s' = PIdle).
Proof.
  intros Hpc Hlen Hu Ho -> Hsp. unfold artIndexMayExist. rewrite Hu, Hsp, Z.eqb_refl. replace (_ <? 0) with false by lia. cbn [negb orb].
  set (l := Lk dir base _ _ _). set (s0 := set_pc (PFind l 0) s).
  assert (S0 : art_step s s0) by (by eapply st_start).
  pose proof (run_find s0 l 0 eq_refl ltac:(lia)) as Hf. cbn [drop a_idx s0 set_pc] in Hf. cbn [l_dir l] in Hf.
  rewrite drop_0 in Hf. unfold artIndexSlotFor.
  assert (Hend : forall s1 k, rtc art_step s s1 -> a_pc s1 = PProbe l k -> a_begun s1 = a_begun s ->
    (match slot_hashes k (a_idx s1) with
     | Some h => if art_search h (artIndexHash base) then (1, a_idx s1)
                 else if negb (gArtIndexGen (a_idx s1) =? gArtIndexGen (a_idx s)) then (1, a_idx s1) else (0, count_absent (a_idx s1))
     | None => (1, a_idx s1)
     end) = (r, t) ->
    exists s', rtc art_step s s' /\ a_idx s' = t /\ (r = 0 -> exists k, a_pc s' = PAbsent l k (a_begun s)) /\ (r <> 0 -> a_pc s' = PIdle)).
  { intros s1 k Hr1 Hp1 Hb1 He. destruct (run_probe s1 l k Hp1) as (s' & Hr2 & H). cbn [l_base l_gen l] in H.
    exists s'. split; [by etrans|].
    destruct (slot_hashes k (a_idx s1)) as [h|]; [destruct (art_search h _); [|destruct (negb _)]|];
      injection He as <- <-; subst s'; cbn; rewrite <- ?Hb1; (split; [done|split; [try done|done]]); eauto. }
  destruct (find_index (slot_named dir) (gArtIndex (a_idx s))) as [i|].
  - apply (Hend (set_pc (PProbe l i) s0) i); [|done|done]. eapply rtc_l; [exact S0|exact Hf].
  - rewrite Hlen in Hf. set (s1 := set_pc (PFind l ART_INDEX_SLOTS) s0) in Hf.
    set (k := gArtIndexNext (a_idx s)).
    set (s2 := set_pc (PSweep l k) (set_idx (fun t => snd (build_claim dir t)) s1)).
    assert (S2 : art_step s1 s2) by (by apply st_claim).
    assert (R2 : rtc art_step s s2).
    { eapply rtc_l; [exact S0|]. eapply rtc_r; [exact Hf|exact S2]. }
    pose proof (st_sweep s2 l k alloc eq_refl) as S3. cbv zeta in S3. cbn [l_dir l] in S3.
    unfold artIndexBuild. rewrite (surjective_pairing (build_claim dir (a_idx s))). change (fst (build_claim dir (a_idx s))) with k.
    change (a_idx s2) with (snd (build_claim dir (a_idx s))) in S3. change (a_world s2) with (a_world s) in S3.
    destruct (build_sweep (a_world s) alloc dir (snd (build_claim dir (a_idx s)))) as [[h|] t1] eqn:Eb; cbn [fst snd] in S3.
    + match type of S3 with art_step _ ?x => set (s3 := x) in S3 end.
      set (s4 := set_pc (PValid l k) (set_idx (build_publish k h) s3)).
      assert (S4 : art_step s3 s4) by (by apply st_publish).
      set (s5 := set_pc (PProbe l k) (set_idx (build_valid k) s4)).
      assert (S5 : art_step s4 s5) by (by apply st_valid).
      apply (Hend s5 k); [|done|done]. do 3 (eapply rtc_r; [|eassumption]). exact R2.
    + match type of S3 with art_step _ ?x => set (s3 := x) in S3 end.
      apply (Hend s3 k); [|done|done]. eapply rtc_r; [exact R2|exact S3].
Qed.

Lemma reachable_rtc {S} (init : S -> Prop) (step : S -> S -> Prop) s s' :
  reachable init step s -> rtc step s s' -> reachable init step s'.
Proof. intros Hr H. induction H; [done|]. apply IHrtc. by eapply reach_step. Qed.

Definition holds_name (names : list bytes) (base : bytes) : bool :=
  bool_decide (artIndexHash base ∈ map artIndexHash (indexed_names names)).

(** a state whose slot [k] answers for [dir] *)
Definition answers (s : art_index) (dir : bytes) (names : list bytes) : Prop :=
  exists k h, find_index (slot_named dir) (gArtIndex s) = Some k /\ slot_hashes k s = Some h /\ indexes names h.

Lemma mayExist_answers s w alloc tid fullPath dir base names :
  unindexed_path fullPath = false -> 0 <= tid -> gArtIndexOwnerThread s = tid ->
  artIndexSplit fullPath ART_INDEX_DIR_MAX = Some (dir, base) -> answers s dir names ->
  artIndexMayExist w alloc tid fullPath s = if holds_name names base then (1, s) else (0, count_absent s).
Proof.
  intros Hu Ht Ho Hsp (k & h & Hf & Hh & Ha & He). unfold artIndexMayExist, artIndexSlotFor, holds_name.
  rewrite Hu, Ho, Z.eqb_refl, Hsp, Hf, Hh, art_search_spec by done. replace (tid <? 0) with false by lia. cbn [negb orb].
  rewrite (bool_decide_ext _ _ (He (artIndexHash base))), Z.eqb_refl. cbn [negb]. by destruct (bool_decide _).
Qed.

Lemma build_answers w dir s names :
  length (gArtIndex s) = ART_INDEX_SLOTS -> (gArtIndexNext s < ART_INDEX_SLOTS)%nat ->
  dir <> [] -> (length dir < ART_INDEX_DIR_MAX)%nat ->
  find_index (slot_named dir) (gArtIndex s) = None -> open_listing w dir = Some names -> fits names ->
  let r := artIndexBuild w true dir s in
  find_index (slot_named dir) (gArtIndex (snd r)) = Some (fst r) /\
  (exists h, slot_hashes (fst r) (snd r) = Some h /\ indexes names h) /\
  gArtIndexOwnerThread (snd r) = gArtIndexOwnerThread s /\ gArtIndexGen (snd r) = gArtIndexGen s.
Proof.
  intros Hl Hn Hd Hdl Hf Hw Hfit. set (k := gArtIndexNext s).
  set (h := art_sort (map artIndexHash (indexed_names names))).
  assert (Er : artIndexBuild w true dir s = (k, build_valid k (build_publish k h (snd (build_claim dir s))))).
  { unfold artIndexBuild. rewrite (surjective_pairing (build_claim dir s)). unfold build_sweep. rewrite Hw, sweep_all.
    by rewrite (proj2 (Nat.leb_le _ _) Hfit). }
  rewrite Er. cbn [fst snd].
  set (t := build_valid k _). assert (E : gArtIndex t = <[k := Slot dir (Some h) true]> (gArtIndex s)).
  { subst t. unfold build_valid, build_publish, build_claim, on_slots. cbn [gArtIndex snd]. rewrite bufcpy_id by done. fold k.
    assert (Hk : (k < length (gArtIndex s))%nat) by (unfold k; lia).
    apply list_eq. intros j. rewrite !list_lookup_alter.
    destruct (decide (k = j)) as [<-|Hne]; [|rewrite ?decide_False by done; by rewrite !list_lookup_insert_ne by done].
    rewrite !list_lookup_insert_eq by done. by rewrite decide_True. }
  assert (Hk : (k < length (gArtIndex s))%nat) by (unfold k; lia).
  split_and!; [|exists h; split|done|done].
  - rewrite E. rewrite insert_take_drop by done.
    rewrite find_index_app; [by rewrite length_take_le by lia| |].
    + apply find_index_None in Hf. by apply Forall_take.
    + unfold slot_named, streq. cbn. by rewrite bool_decide_eq_false_2, bool_decide_eq_true_2.
  - unfold slot_hashes. rewrite E. by rewrite list_lookup_insert_eq.
  - split; [apply art_sort_ascending|]. intros x. apply art_sort_elem.
Qed.

Lemma count_absent_answers s dir names : answers s dir names -> answers (count_absent s) dir names.
Proof. done. Qed.

(** One sweep answers for the whole directory: the first probe of a listed
    directory that is not held reads its listing once, and from then on - whatever
    became of the device - every probe of a path in it is answered from memory, 0
    exactly when no name of the listing has the hash of the base name, so never for
    a file that is listed under any mixture of case. *)
Theorem art_index_answers s w tid fullPath dir base names :
  length (gArtIndex s) = ART_INDEX_SLOTS -> (gArtIndexNext s < ART_INDEX_SLOTS)%nat ->
  0 <= tid -> gArtIndexOwnerThread s = tid ->
  unindexed_path fullPath = false -> artIndexSplit fullPath ART_INDEX_DIR_MAX = Some (dir, base) ->
  find_index (slot_named dir) (gArtIndex s) = None -> open_listing w dir = Some names -> fits names ->
  let '(r, s1) := artIndexMayExist w true tid fullPath s in
  r = (if holds_name names base then 1 else 0) /\
  (forall w2 alloc2 p2 base2, unindexed_path p2 = false -> artIndexSplit p2 ART_INDEX_DIR_MAX = Some (dir, base2) ->
     fst (artIndexMayExist w2 alloc2 tid p2 s1) = (if holds_name names base2 then 1 else 0)) /\
  (forall n, n ∈ names -> skipped_name n = false -> same_name n base -> r = 1).
Proof.
  intros Hl Hn Ht Ho Hu Hsp Hf Hw Hfit. destruct (artIndexSplit_dir _ _ _ _ Hsp) as [Hd Hdl].
  destruct (build_answers w dir s names Hl Hn Hd Hdl Hf Hw Hfit) as (H1 & (h & H2 & H3) & H4 & H5).
  set (b := artIndexBuild w true dir s) in *.
  assert (E : artIndexMayExist w true tid fullPath s =
              if holds_name names base then (1, snd b) else (0, count_absent (snd b))).
  { rewrite <- (mayExist_answers (snd b) w true tid fullPath dir base names Hu Ht ltac:(congruence) Hsp) by (do 2 eexists; eauto).
    unfold artIndexMayExist, artIndexSlotFor. rewrite Hu, H4, Hsp, Hf, H1. fold b. rewrite (surjective_pairing b). cbn [fst snd].
    rewrite H5, Ho, Z.eqb_refl. by replace (tid <? 0) with false by lia. }
  rewrite E. assert (Ha : answers (snd b) dir names) by (do 2 eexists; eauto).
  assert (Hsame : forall n, n ∈ names -> skipped_name n = false -> same_name n base -> holds_name names base = true).
  { intros n Hin Hsk Hs. apply bool_decide_eq_true. rewrite <- (same_name_hash _ _ Hs).
    apply (list_elem_of_fmap_2 artIndexHash). by apply list_elem_of_filter. }
  destruct (holds_name names base) eqn:Hh; split_and!; try done.
  - intros w2 alloc2 p2 base2 Hu2 Hs2. erewrite mayExist_answers by (try done; congruence). by destruct (holds_name names base2).
  - intros w2 alloc2 p2 base2 Hu2 Hs2.
    rewrite (mayExist_answers (count_absent (snd b)) w2 alloc2 tid p2 dir base2 names Hu2 Ht ltac:(change (gArtIndexOwnerThread (snd b) = tid); congruence) Hs2 (count_absent_answers _ _ _ Ha)).
    by destruct (holds_name names base2).
  - intros n Hin Hsk Hs. by specialize (Hsame n Hin Hsk Hs).
Qed.

(** ** Witnesses *)

Definition stick : listing := fun d =>
  if streq d (bs "mass0:/ART") then Some (map bs [".."; "Slus_200.62_COV.PNG"; "SLES_500.01_BG.png"; ".hidden.png"]%string) else None.
Definition worker_idx : art_index := artIndexSetOwnerThread 5 art_start.
Definition missing_path : bytes := bs "mass0:ART/SLUS_999.99_COV.png".

Lemma art_index_answers_witness :
  fst (artIndexMayExist stick true 5 missing_path worker_idx) = 0 /\
  fst (artIndexMayExist (fun _ => None) true 5 (bs "mass0:ART/SLUS_200.62_COV.png")
         (snd (artIndexMayExist stick true 5 missing_path worker_idx))) = 1.
Proof.
  pose proof (art_index_answers worker_idx stick 5 missing_path (bs "mass0:ART") (bs "SLUS_999.99_COV.png")
    (map bs [".."; "Slus_200.62_COV.PNG"; "SLES_500.01_BG.png"; ".hidden.png"]%string)) as H.
  destruct (artIndexMayExist stick true 5 missing_path worker_idx) as [r s1] eqn:E.
  destruct H as (H1 & H2 & _);
    [reflexivity|apply (bool_decide_unpack _); vm_compute; exact I|lia|reflexivity|vm_compute; reflexivity|vm_compute; reflexivity
    |vm_compute; reflexivity|vm_compute; reflexivity|unfold fits; apply (bool_decide_unpack _); vm_compute; exact I|].
  cbn [fst snd]. split; [rewrite H1; vm_compute; reflexivity|].
  rewrite (H2 (fun _ => None) true (bs "mass0:ART/SLUS_200.62_COV.png") (bs "SLUS_200.62_COV.png")) by (vm_compute; reflexivity).
  vm_compute. reflexivity.
Defined.

Definition worker_sys : art_sys := ASys worker_idx PIdle [] stick 0 0 (fun _ => Sweep [] [] 0).

Lemma missing_reached : exists s k,
  reachable art_init art_step s /\ a_pc s = PAbsent (Lk (bs "mass0:ART") (bs "SLUS_999.99_COV.png") 0 0 0) k 0.
Proof.
  destruct (artIndexMayExist stick true 5 missing_path worker_idx) as [r t] eqn:E.
  destruct (mayExist_run worker_sys true 5 missing_path (bs "mass0:ART") (bs "SLUS_999.99_COV.png") r t) as (s & Hs & _ & Ha & _);
    
    [reflexivity|reflexivity|vm_compute; reflexivity|vm_compute; discriminate|reflexivity|vm_compute; reflexivity|exact E|].
  assert (r = 0) as Hr by (vm_compute in E; by injection E).
  destruct (Ha Hr) as [k Hk]. exists s, k. split; [|exact Hk].
  apply (reachable_rtc _ _ worker_sys); [|exact Hs]. apply reach_init. by exists stick, 5.
Qed.

Lemma art_absent_is_absent_witness : exists s k,
  reachable art_init art_step s /\ sw_dir (a_sweeps s k) = bs "mass0:ART" /\
  forall n, n ∈ sw_names (a_sweeps s k) -> ~ same_name n (bs "SLUS_999.99_COV.png").
Proof.
  destruct missing_reached as (s & k & Hr & Hpc). exists s, k.
  destruct (art_absent_is_absent s _ k 0 Hr Hpc) as (H1 & _ & H3 & _).
  split; [exact Hr|]. split; [exact H1|]. apply H3. reflexivity.
Defined.

(** a file whose name begins with a dot is listed and still declared absent *)
Lemma dot_names_hidden :
  bs ".hidden.png" ∈ default [] (open_listing stick (bs "mass0:ART")) /\
  fst (artIndexMayExist stick true 5 (bs "mass0:ART/.hidden.png") worker_idx) = 0.
Proof. split; [|vm_compute; reflexivity]. apply (bool_decide_unpack _). vm_compute. exact I. Qed.
