(* ===== verification/ArtFifo.v ===== *)
(** * ArtFifo: the queue of image requests (src/texcache.c)

    The requests for cover art are linked into a FIFO by pointers of their own, forwards
    and backwards; each operation is one section with interrupts off. A request that is
    not queued keeps stale links, and is told apart by the generation it was queued in.
    The queue implements a sequence. *)
From S2P Require Import Prelude CLib.

Abbreviation addr := nat (only parsing).

(** ** The queue *)

(** the links of a [load_image_request_t] *)
Record links := Links { next : option addr; prev : option addr; queueEpoch : Z }.

Record fifo := Fifo {
  nodes : gmap addr links;          (** of the requests allocated *)
  gArtReqList : option addr;
  gArtReqEnd : option addr;
  gArtQueueEpoch : Z;
  gArtQueuedCount : Z;
}.

Definition set_next (n : option addr) (l : links) : links := Links n (prev l) (queueEpoch l).
Definition set_prev (p : option addr) (l : links) : links := Links (next l) p (queueEpoch l).

(** a store through a pointer that is tested first *)
Definition at_ptr (p : option addr) (f : links -> links) (m : gmap addr links) : gmap addr links :=
  match p with Some a => alter f a m | None => m end.

Definition or_else (p q : option addr) : option addr := match p with Some _ => p | None => q end.

Definition artPush (f : fifo) (req : addr) : fifo :=
  let m := alter (fun _ => Links None (gArtReqEnd f) (gArtQueueEpoch f)) req (nodes f) in
  Fifo (at_ptr (gArtReqEnd f) (set_next (Some req)) m) (match gArtReqEnd f with Some _ => gArtReqList f | None => Some req end)
    (Some req) (gArtQueueEpoch f) (gArtQueuedCount f + 1).

Definition artPushFront (f : fifo) (req : addr) : fifo :=
  let m := alter (fun _ => Links (gArtReqList f) None (gArtQueueEpoch f)) req (nodes f) in
  Fifo (at_ptr (gArtReqList f) (set_prev (Some req)) m) (Some req)
    (match gArtReqList f with Some _ => gArtReqEnd f | None => Some req end) (gArtQueueEpoch f) (gArtQueuedCount f + 1).

(** [current] is [gArtCurrentReq]; the head of the list is there when a request has a
    predecessor in it *)
Definition artPromote (f : fifo) (current : option addr) (req : addr) : fifo :=
  match nodes f !! req with
  | Some (Links n (Some p) e) =>
    if negb (bool_decide (current = Some req)) && (e =? gArtQueueEpoch f) then
      let m := alter (set_next n) p (nodes f) in
      let m := at_ptr n (set_prev (Some p)) m in
      let m := alter (fun l => Links (gArtReqList f) None (queueEpoch l)) req m in
      Fifo (at_ptr (gArtReqList f) (set_prev (Some req)) m) (Some req)
        (match n with Some _ => gArtReqEnd f | None => Some p end) (gArtQueueEpoch f) (gArtQueuedCount f)
    else f
  | _ => f
  end.

(** [artPop] without the worker's counters: the request, unless its cover shares the
    pad's bus while a direction is held *)
Definition artPop (f : fifo) (sio2 : addr -> bool) (gArtNavActive : bool) : option addr * fifo :=
  match gArtReqList f with
  | Some req =>
    if sio2 req && gArtNavActive then (None, f)
    else
      let n := from_option next None (nodes f !! req) in
      let m := at_ptr n (set_prev None) (nodes f) in
      (Some req, Fifo (alter (fun _ => Links None None 0) req m) n (match n with Some _ => gArtReqEnd f | None => None end)
        (gArtQueueEpoch f) (if 0 <? gArtQueuedCount f then gArtQueuedCount f - 1 else gArtQueuedCount f))
  | None => (None, f)
  end.

(** the next generation: never 0, which marks a request out of the queue *)
Definition next_epoch (e : Z) : Z := if u32 (e + 1) =? 0 then 1 else u32 (e + 1).

Definition artDetachAll (f : fifo) : option addr * fifo :=
  (gArtReqList f, Fifo (nodes f) None None (next_epoch (gArtQueueEpoch f)) 0).

(** a request that is allocated, with its links cleared, or freed *)
Definition new_request (f : fifo) (req : addr) : fifo :=
  Fifo (<[req := Links None None 0]> (nodes f)) (gArtReqList f) (gArtReqEnd f) (gArtQueueEpoch f) (gArtQueuedCount f).
Definition free_request (f : fifo) (req : addr) : fifo :=
  Fifo (delete req (nodes f)) (gArtReqList f) (gArtReqEnd f) (gArtQueueEpoch f) (gArtQueuedCount f).

(** ** Segments *)

(** the nodes [xs] from [p] to [q], between [pp] and [qn], all of the generation [e] *)
Fixpoint dseg (m : gmap addr links) (e : Z) (pp p : option addr) (xs : list addr) (q qn : option addr) : Prop :=
  match xs with
  | [] => p = qn /\ pp = q
  | x :: xs => p = Some x /\ exists n, m !! x = Some (Links n pp e) /\ dseg m e (Some x) n xs q qn
  end.

Lemma dseg_app m e xs : forall pp p ys q qn,
  dseg m e pp p (xs ++ ys) q qn <-> exists j jn, dseg m e pp p xs j jn /\ dseg m e j jn ys q qn.
Proof.
  induction xs as [|x xs IH]; intros pp p ys q qn; cbn.
  - split; [intros H; by exists pp, p|]. intros (j & jn & [-> ->] & H). done.
  - split.
    + intros (-> & n & Hx & H). apply IH in H as (j & jn & H1 & H2). exists j, jn. eauto.
    + intros (j & jn & (-> & n & Hx & H1) & H2). split; [done|]. exists n. split; [done|]. apply IH. eauto.
Qed.

(** stores to other nodes *)
Lemma dseg_frame m m' e xs : forall pp p q qn, (forall x, x ∈ xs -> m' !! x = m !! x) -> dseg m e pp p xs q qn -> dseg m' e pp p xs q qn.
Proof.
  induction xs as [|x xs IH]; intros pp p q qn Hf H; cbn in *; [done|]. destruct H as (-> & n & Hx & H).
  split; [done|]. exists n. rewrite Hf by (by left). split; [done|]. apply IH; [|done]. intros y Hy. apply Hf. by right.
Qed.

Lemma dseg_alter m e g y xs pp p q qn : y ∉ xs -> dseg m e pp p xs q qn -> dseg (alter g y m) e pp p xs q qn.
Proof. intros Hy. apply dseg_frame. intros x Hx. apply lookup_alter_ne. by intros ->. Qed.

Lemma dseg_allocated m e xs : forall pp p q qn x, dseg m e pp p xs q qn -> x ∈ xs -> exists l, m !! x = Some l /\ queueEpoch l = e.
Proof.
  induction xs as [|y xs IH]; intros pp p q qn x H Hx; [by apply not_elem_of_nil in Hx|]. destruct H as (-> & n & Hy & H).
  apply elem_of_cons in Hx as [->|Hx]; [|by eapply IH]. rewrite Hy. by eexists.
Qed.

(** the first and the last pointer *)
Lemma dseg_ends m e xs : forall pp p q qn, dseg m e pp p xs q qn -> p = or_else (head xs) qn /\ q = or_else (last xs) pp.
Proof.
  induction xs as [|x xs IH]; intros pp p q qn H; cbn in H; [by destruct H as [-> ->]|]. destruct H as (-> & n & _ & H).
  split; [done|]. apply IH in H as [_ ->]. destruct xs as [|y ys]; [done|]. cbn [last]. assert (E : is_Some (last (y :: ys))) by (apply last_is_Some; done).
  cbn in E. destruct E as [z E]. cbn [last] in *. by rewrite E.
Qed.

(** another successor for the last node, another predecessor for the first *)
Lemma dseg_set_last m e xs l : forall pp p q qn r, NoDup (xs ++ [l]) -> dseg m e pp p (xs ++ [l]) q qn ->
  dseg (alter (set_next r) l m) e pp p (xs ++ [l]) q r.
Proof.
  induction xs as [|x xs IH]; intros pp p q qn r Hd H; cbn in *.
  - destruct H as (-> & n & Hl & -> & <-). split; [done|]. exists r. rewrite lookup_alter_eq, Hl. done.
  - destruct H as (-> & n & Hx & H). apply NoDup_cons in Hd as [Hn Hd]. split; [done|]. exists n. rewrite lookup_alter_ne by set_solver. split; [done|]. by eapply IH.
Qed.

Lemma dseg_set_first m e x xs pp p q qn r : NoDup (x :: xs) -> dseg m e pp p (x :: xs) q qn -> dseg (alter (set_prev r) x m) e r p (x :: xs) q qn.
Proof.
  intros Hd (-> & n & Hx & H). apply NoDup_cons in Hd as [Hn _]. split; [done|]. exists n. rewrite lookup_alter_eq, Hx. split; [done|]. by apply dseg_alter.
Qed.

(** ** The sequence *)

Record fifo_rep (f : fifo) (Q : list addr) : Prop := {
  fr_seg : dseg (nodes f) (gArtQueueEpoch f) None (gArtReqList f) Q (gArtReqEnd f) None;
  fr_nodup : NoDup Q;
  fr_count : gArtQueuedCount f = Z.of_nat (length Q);
  fr_epoch : 0 < gArtQueueEpoch f < 2 ^ 32;
  fr_out a l : nodes f !! a = Some l -> a ∉ Q -> queueEpoch l < gArtQueueEpoch f;
}.

(** what the operations do to the sequence *)
Definition promote (Q : list addr) (a : addr) : list addr := if decide (a ∈ Q) then a :: filter (fun x => x <> a) Q else Q.
Definition pop (Q : list addr) (sio2 : addr -> bool) (nav : bool) : option addr * list addr :=
  match Q with
  | [] => (None, [])
  | a :: Q' => if sio2 a && nav then (None, Q) else (Some a, Q')
  end.

Lemma rep_ends f Q : fifo_rep f Q -> gArtReqList f = head Q /\ gArtReqEnd f = last Q.
Proof.
  intros H. destruct (dseg_ends _ _ _ _ _ _ _ (fr_seg _ _ H)) as [-> ->]. by destruct (head Q), (last Q).
Qed.

Lemma rep_allocated f Q a : fifo_rep f Q -> a ∈ Q -> exists l, nodes f !! a = Some l /\ queueEpoch l = gArtQueueEpoch f.
Proof. intros H. eapply dseg_allocated, (fr_seg _ _ H). Qed.

Lemma snoc_inv {A} (l : list A) : l = [] \/ exists l' x, l = l' ++ [x].
Proof. induction l as [|x l _] using rev_ind; [by left|right; by exists l, x]. Qed.

Lemma at_ptr_other p g m x : p <> Some x -> at_ptr p g m !! x = m !! x.
Proof. destruct p; [|done]. intros H. cbn. apply lookup_alter_ne. congruence. Qed.

(** the nodes outside keep their links when the stores go to nodes of the queue *)
Lemma out_kept f Q (m : gmap addr links) e (Q' : list addr) (H : fifo_rep f Q) : gArtQueueEpoch f = e -> (forall x, x ∈ Q -> x ∈ Q') -> (forall b, b ∉ Q' -> m !! b = nodes f !! b) ->
  forall b l, m !! b = Some l -> b ∉ Q' -> queueEpoch l < e.
Proof. intros <- Hs Hm b l Hb Hn. rewrite Hm in Hb by done. eapply fr_out; [exact H|exact Hb|]. intros Hin. by apply Hn, Hs. Qed.

Lemma artPush_rep f Q a : fifo_rep f Q -> a ∉ Q -> is_Some (nodes f !! a) -> fifo_rep (artPush f a) (Q ++ [a]).
Proof.
  intros H Ha [l0 Hl]. destruct (rep_ends _ _ H) as [El Ee]. unfold artPush. set (m := alter _ a (nodes f)).
  assert (Hma : m !! a = Some (Links None (gArtReqEnd f) (gArtQueueEpoch f))) by (unfold m; by rewrite lookup_alter_eq, Hl).
  assert (Hm : dseg m (gArtQueueEpoch f) None (gArtReqList f) Q (gArtReqEnd f) None) by (unfold m; apply dseg_alter; [done|apply H]).
  split; cbn [nodes gArtReqList gArtReqEnd gArtQueueEpoch gArtQueuedCount].
  - apply dseg_app. exists (gArtReqEnd f), (Some a). destruct (snoc_inv Q) as [->|(Q' & z & ->)].
    + cbn in El, Ee. rewrite Ee in *. cbn. split; [done|]. split; [done|]. exists None. done.
    + rewrite last_snoc in Ee. rewrite Ee in *. cbn [at_ptr]. assert (Hz : a <> z) by (intros ->; apply Ha; set_solver). split.
      * apply dseg_set_last with None; [apply H|exact Hm].
      * cbn. split; [done|]. exists None. by rewrite lookup_alter_ne by done.
  - apply NoDup_app. split; [apply H|]. split; [set_solver|apply NoDup_singleton].
  - rewrite (fr_count _ _ H), length_app. cbn. lia.
  - apply H.
  - apply (out_kept f Q); [done|done|set_solver|]. intros b Hb. rewrite at_ptr_other.
    + apply lookup_alter_ne. set_solver.
    + rewrite Ee. intros E%last_Some_elem_of. set_solver.
Qed.

Lemma artPushFront_rep f Q a : fifo_rep f Q -> a ∉ Q -> is_Some (nodes f !! a) -> fifo_rep (artPushFront f a) (a :: Q).
Proof.
  intros H Ha [l0 Hl]. destruct (rep_ends _ _ H) as [El Ee]. unfold artPushFront. set (m := alter _ a (nodes f)).
  assert (Hma : m !! a = Some (Links (gArtReqList f) None (gArtQueueEpoch f))) by (unfold m; by rewrite lookup_alter_eq, Hl).
  assert (Hm : dseg m (gArtQueueEpoch f) None (gArtReqList f) Q (gArtReqEnd f) None) by (unfold m; apply dseg_alter; [done|apply H]).
  split; cbn [nodes gArtReqList gArtReqEnd gArtQueueEpoch gArtQueuedCount].
  - split; [done|]. destruct Q as [|x Q]; cbn in El; rewrite El in *; cbn [at_ptr].
    + exists None. by rewrite Hma.
    + exists (Some x). rewrite lookup_alter_ne by set_solver. split; [done|]. destruct Hm as (_ & Hm). apply dseg_set_first with None; [apply H|]. by split.
  - apply NoDup_cons. split; [done|apply H].
  - rewrite (fr_count _ _ H). cbn [length]. lia.
  - apply H.
  - apply (out_kept f Q); [done|done|set_solver|]. intros b Hb. rewrite at_ptr_other.
    + apply lookup_alter_ne. set_solver.
    + rewrite El. intros E%head_Some_elem_of. set_solver.
Qed.

Lemma promote_split Q1 a Q2 : NoDup (Q1 ++ a :: Q2) -> promote (Q1 ++ a :: Q2) a = a :: Q1 ++ Q2.
Proof.
  intros H. assert (K : forall l : list addr, a ∉ l -> filter (fun x => x <> a) l = l).
  { induction l as [|x l IH]; intros Hn; [done|]. rewrite filter_cons_True by set_solver. f_equal. apply IH. set_solver. }
  apply NoDup_app in H as (_ & H1 & [H2 _]%NoDup_cons). unfold promote. rewrite decide_True by set_solver. f_equal.
  rewrite filter_app, filter_cons_False by (intros E; by apply E). rewrite !K; [done|done|]. intros Hin. apply (H1 a Hin). by left.
Qed.

(** a node of the queue, between its neighbours *)
Lemma rep_node f Q1 a Q2 : fifo_rep f (Q1 ++ a :: Q2) ->
  nodes f !! a = Some (Links (head Q2) (last Q1) (gArtQueueEpoch f)) /\
  dseg (nodes f) (gArtQueueEpoch f) None (gArtReqList f) Q1 (last Q1) (Some a) /\
  dseg (nodes f) (gArtQueueEpoch f) (Some a) (head Q2) Q2 (gArtReqEnd f) None.
Proof.
  intros H. pose proof (fr_seg _ _ H) as Hs. apply dseg_app in Hs as (j & jn & H1 & (-> & n & Hn & H2)).
  destruct (dseg_ends _ _ _ _ _ _ _ H1) as [_ Ej]. destruct (dseg_ends _ _ _ _ _ _ _ H2) as [En _].
  assert (Ej' : j = last Q1) by (rewrite Ej; by destruct (last Q1)). assert (En' : n = head Q2) by (rewrite En; by destruct (head Q2)). rewrite <- Ej', <- En'. split; [exact Hn|]. split; [exact H1|exact H2].
Qed.

Section Splice.
Variables (m : gmap addr links) (e : Z) (Q1' : list addr) (p a : addr) (Q2 : list addr).
Context (Hd : NoDup ((Q1' ++ [p]) ++ a :: Q2)).

(** the stores of [artPromote] *)
Definition spliced (list : option addr) (n : option addr) : gmap addr links :=
  let m := alter (set_next n) p m in
  let m := at_ptr n (set_prev (Some p)) m in
  let m := alter (fun l => Links list None (queueEpoch l)) a m in
  at_ptr list (set_prev (Some a)) m.

Lemma spliced_other h x : x ∉ (Q1' ++ [p]) ++ a :: Q2 -> head (Q1' ++ [p]) = Some h -> spliced (Some h) (head Q2) !! x = m !! x.
Proof.
  intros Hx Hh. assert (Hin : h ∈ Q1' ++ [p]) by (by apply head_Some_elem_of). unfold spliced. cbn [at_ptr].
  rewrite lookup_alter_ne by set_solver. rewrite lookup_alter_ne by set_solver. rewrite at_ptr_other; [apply lookup_alter_ne; set_solver|].
  intros E%head_Some_elem_of. set_solver.
Qed.

Lemma spliced_front h j : head (Q1' ++ [p]) = Some h -> dseg m e None (Some h) (Q1' ++ [p]) j (Some a) ->
  dseg (spliced (Some h) (head Q2)) e (Some a) (Some h) (Q1' ++ [p]) j (head Q2).
Proof.
  intros Hh H. apply NoDup_app in Hd as (Hd1 & H12 & [Ha Hd2]%NoDup_cons). unfold spliced. cbn [at_ptr].
  apply (dseg_set_last _ _ _ _ _ _ _ _ (head Q2) Hd1) in H.
  apply (dseg_frame _ (alter (fun l => Links (Some h) None (queueEpoch l)) a (at_ptr (head Q2) (set_prev (Some p)) (alter (set_next (head Q2)) p m)))) in H.
  2:{ intros x Hx. rewrite lookup_alter_ne by (intros ->; apply (H12 _ Hx); by left). apply at_ptr_other. intros E%head_Some_elem_of. apply (H12 _ Hx). by right. }
  destruct (Q1' ++ [p]) as [|h' Q1''] eqn:E; [done|]. cbn in Hh. injection Hh as ->. by eapply dseg_set_first.
Qed.

Lemma spliced_rest h q : head (Q1' ++ [p]) = Some h -> dseg m e (Some a) (head Q2) Q2 q None ->
  dseg (spliced (Some h) (head Q2)) e (Some p) (head Q2) Q2 (match head Q2 with Some _ => q | None => Some p end) None.
Proof.
  intros Hh H. apply head_Some_elem_of in Hh. apply NoDup_app in Hd as (Hd1 & H12 & [Ha Hd2]%NoDup_cons). destruct Q2 as [|y Q2']; cbn [head]; [by split|].
  unfold spliced. cbn [at_ptr]. apply dseg_alter; [intros Hy; apply (H12 h Hh); by right|]. apply dseg_alter; [done|].
  eapply dseg_set_first; [done|]. apply dseg_alter; [|exact H]. intros Hp. apply (H12 p); [set_solver|by right].
Qed.

Lemma spliced_node h : is_Some (m !! a) -> head (Q1' ++ [p]) = Some h -> (forall l, m !! a = Some l -> queueEpoch l = e) ->
  spliced (Some h) (head Q2) !! a = Some (Links (Some h) None e).
Proof.
  intros [l Hl] Hh He. apply head_Some_elem_of in Hh. apply NoDup_app in Hd as (Hd1 & H12 & [Ha Hd2]%NoDup_cons). unfold spliced. cbn [at_ptr].
  rewrite lookup_alter_ne by (intros ->; apply (H12 _ Hh); by left). rewrite lookup_alter_eq, at_ptr_other, lookup_alter_ne.
  - rewrite Hl. cbn. by rewrite (He l Hl).
  - intros ->. apply (H12 a); [set_solver|by left].
  - intros E%head_Some_elem_of. done.
Qed.
End Splice.

Lemma artPromote_rep f Q current a : fifo_rep f Q -> (forall c, current = Some c -> c ∉ Q) -> fifo_rep (artPromote f current a) (promote Q a).
Proof.
  intros H Hc. unfold artPromote. destruct (decide (a ∈ Q)) as [Hin|Hn].
  - apply list_elem_of_split in Hin as (Q1 & Q2 & ->). destruct (rep_node _ _ _ _ H) as (Ha & H1 & H2). destruct (rep_ends _ _ H) as [El _].
    rewrite promote_split by apply H. rewrite Ha. destruct (snoc_inv Q1) as [->|(Q1' & p & ->)]; [cbn [last app] in *; exact H|]. rewrite last_snoc in *.
    rewrite bool_decide_eq_false_2, Z.eqb_refl by (intros E; apply (Hc a E); set_solver). cbn [negb andb].
    assert (Hh : exists h, head (Q1' ++ [p]) = Some h) by (destruct Q1'; by eexists). destruct Hh as [h Hh].
    assert (El' : gArtReqList f = Some h) by (rewrite El; destruct Q1'; cbn in *; congruence). rewrite El' in *.
    change (fifo_rep (Fifo (spliced (nodes f) p a (Some h) (head Q2)) (Some a) (match head Q2 with Some _ => gArtReqEnd f | None => Some p end) (gArtQueueEpoch f) (gArtQueuedCount f)) (a :: (Q1' ++ [p]) ++ Q2)).
    pose proof (fr_nodup _ _ H) as Hd. assert (Hperm : a :: (Q1' ++ [p]) ++ Q2 ≡ₚ (Q1' ++ [p]) ++ a :: Q2) by (apply Permutation_middle).
    split; cbn [nodes gArtReqList gArtReqEnd gArtQueueEpoch gArtQueuedCount].
    + split; [done|]. exists (Some h). split; [apply (spliced_node _ _ Q1'); [done|by eexists|done|intros l; rewrite Ha; by intros [= <-]]|].
      apply dseg_app. exists (Some p), (head Q2). split; [by apply spliced_front|by apply (spliced_rest _ _ Q1')].
    + by rewrite Hperm.
    + rewrite (fr_count _ _ H). by rewrite Hperm.
    + apply H.
    + apply (out_kept f ((Q1' ++ [p]) ++ a :: Q2)); [done|done|intros x; by rewrite Hperm|]. intros b Hb. apply (spliced_other _ Q1'); [done| |done]. intros Hin. apply Hb. by rewrite Hperm.
  - unfold promote. rewrite decide_False by done. destruct (nodes f !! a) as [[n [p|] e]|] eqn:Ea; try done.
    pose proof (fr_out _ _ H _ _ Ea Hn) as Ho. cbn in Ho. replace (e =? gArtQueueEpoch f) with false by lia. by rewrite andb_false_r.
Qed.

Lemma artPop_rep f Q sio2 nav : fifo_rep f Q -> fst (artPop f sio2 nav) = fst (pop Q sio2 nav) /\ fifo_rep (snd (artPop f sio2 nav)) (snd (pop Q sio2 nav)).
Proof.
  intros H. destruct (rep_ends _ _ H) as [El Ee]. unfold artPop. rewrite El. destruct Q as [|a Q]; cbn [head pop]; [done|].
  destruct (sio2 a && nav); [done|]. split; [done|]. cbn [fst snd].
  destruct (rep_node f [] a Q H) as (Ha & _ & H2). rewrite Ha. cbn [from_option next]. pose proof (fr_nodup _ _ H) as Hd. apply NoDup_cons in Hd as [Hn Hd].
  set (m := alter _ a _). assert (Hm : forall b, b ∉ a :: Q -> m !! b = nodes f !! b).
  { intros b Hb. unfold m. rewrite lookup_alter_ne by set_solver. apply at_ptr_other. intros E%head_Some_elem_of. set_solver. }
  split; cbn [nodes gArtReqList gArtReqEnd gArtQueueEpoch gArtQueuedCount].
  - unfold m. apply dseg_alter; [done|]. destruct Q as [|y Q]; cbn [head] in *; [by split|]. cbn [at_ptr]. eapply dseg_set_first; [done|exact H2].
  - done.
  - rewrite (fr_count _ _ H). cbn [length]. destruct (Z.ltb_spec 0 (Z.of_nat (S (length Q)))); lia.
  - apply H.
  - intros b l Hb Hin. destruct (decide (b = a)) as [->|Hne].
    + unfold m in Hb. rewrite lookup_alter_eq, at_ptr_other, Ha in Hb by (intros E%head_Some_elem_of; done). injection Hb as <-. apply H.
    + rewrite Hm in Hb by set_solver. eapply fr_out; [exact H|exact Hb|]. set_solver.
Qed.

(** a chain that was taken out of the queue, followed by its forward links *)
Fixpoint chain (m : gmap addr links) (p : option addr) (xs : list addr) : Prop :=
  match xs with
  | [] => p = None
  | x :: xs => p = Some x /\ exists l, m !! x = Some l /\ chain m (next l) xs
  end.

Lemma chain_frame m m' xs : forall p, (forall x, x ∈ xs -> m' !! x = m !! x) -> chain m p xs -> chain m' p xs.
Proof.
  induction xs as [|x xs IH]; intros p Hf H; cbn in *; [done|]. destruct H as (-> & l & Hx & H).
  split; [done|]. exists l. rewrite Hf by (by left). split; [done|]. apply IH; [|done]. intros y Hy. apply Hf. by right.
Qed.

Lemma dseg_chain m e xs : forall pp p q, dseg m e pp p xs q None -> chain m p xs.
Proof.
  induction xs as [|x xs IH]; intros pp p q H; cbn in *; [by destruct H|]. destruct H as (-> & n & Hx & H). split; [done|].
  eexists. split; [exact Hx|]. by eapply IH.
Qed.

Lemma next_epoch_id e : 0 < e -> e + 1 < 2 ^ 32 -> next_epoch e = e + 1.
Proof. intros H1 H2. unfold next_epoch. rewrite u32_id by lia. by replace (e + 1 =? 0) with false by lia. Qed.

Lemma artDetachAll_rep f Q : fifo_rep f Q -> gArtQueueEpoch f + 1 < 2 ^ 32 ->
  fifo_rep (snd (artDetachAll f)) [] /\ chain (nodes (snd (artDetachAll f))) (fst (artDetachAll f)) Q.
Proof.
  intros H He. pose proof (fr_epoch _ _ H). unfold artDetachAll. cbn [fst snd nodes]. split; [|eapply dseg_chain, H].
  rewrite next_epoch_id by lia. split; cbn [nodes gArtReqList gArtReqEnd gArtQueueEpoch gArtQueuedCount]; try done; [apply NoDup_nil_2|lia|].
  intros b l Hb _. destruct (decide (b ∈ Q)) as [Hin|Hin].
  - destruct (rep_allocated _ _ _ H Hin) as (l' & Hl & El). rewrite Hl in Hb. injection Hb as <-. lia.
  - pose proof (fr_out _ _ H _ _ Hb Hin). lia.
Qed.

Lemma new_request_rep f Q a : fifo_rep f Q -> a ∉ Q -> fifo_rep (new_request f a) Q.
Proof.
  intros H Ha. split; cbn [nodes new_request gArtReqList gArtReqEnd gArtQueueEpoch gArtQueuedCount]; try apply H.
  - eapply dseg_frame; [|apply H]. intros x Hx. apply lookup_insert_ne. by intros ->.
  - intros b l Hb Hn. destruct (decide (b = a)) as [->|Hne].
    + rewrite lookup_insert_eq in Hb. injection Hb as <-. apply H.
    + rewrite lookup_insert_ne in Hb by done. by eapply fr_out.
Qed.

Lemma free_request_rep f Q a : fifo_rep f Q -> a ∉ Q -> fifo_rep (free_request f a) Q.
Proof.
  intros H Ha. split; cbn [nodes free_request gArtReqList gArtReqEnd gArtQueueEpoch gArtQueuedCount]; try apply H.
  - eapply dseg_frame; [|apply H]. intros x Hx. apply lookup_delete_ne. by intros ->.
  - intros b l Hb Hn. apply lookup_delete_Some in Hb as [_ Hb]. by eapply fr_out.
Qed.

(** ** What the operations leave alone *)

(** no operation touches the links of a request that is neither queued nor its own *)
Lemma artPush_other f Q a x : fifo_rep f Q -> x ∉ Q -> x <> a -> nodes (artPush f a) !! x = nodes f !! x.
Proof.
  intros H Hx Hne. destruct (rep_ends _ _ H) as [_ Ee]. cbn. rewrite at_ptr_other; [by apply lookup_alter_ne|]. rewrite Ee. by intros E%last_Some_elem_of.
Qed.

Lemma artPushFront_other f Q a x : fifo_rep f Q -> x ∉ Q -> x <> a -> nodes (artPushFront f a) !! x = nodes f !! x.
Proof.
  intros H Hx Hne. destruct (rep_ends _ _ H) as [El _]. cbn. rewrite at_ptr_other; [by apply lookup_alter_ne|]. rewrite El. by intros E%head_Some_elem_of.
Qed.

Lemma artPromote_other f Q c a x : fifo_rep f Q -> (forall c', c = Some c' -> c' ∉ Q) -> x ∉ Q -> nodes (artPromote f c a) !! x = nodes f !! x.
Proof.
  intros H Hc Hx. destruct (decide (a ∈ Q)) as [Hin|Hn].
  - pose proof Hin as Hin'. apply list_elem_of_split in Hin' as (Q1 & Q2 & ->). destruct (rep_node _ _ _ _ H) as (Ha & _). destruct (rep_ends _ _ H) as [El _].
    unfold artPromote. rewrite Ha. destruct (last Q1) as [p|] eqn:Ep; [|done]. apply last_Some_elem_of in Ep. destruct (_ && _); [|done]. cbn [nodes].
    rewrite at_ptr_other by (rewrite El; intros E%head_Some_elem_of; done).
    rewrite lookup_alter_ne by (intros ->; done). rewrite at_ptr_other by (intros E%head_Some_elem_of; set_solver). apply lookup_alter_ne. set_solver.
  - unfold artPromote. destruct (nodes f !! a) as [[n [p|] e]|] eqn:Ea; try done.
    pose proof (fr_out _ _ H _ _ Ea Hn) as Ho. cbn in Ho. replace (e =? gArtQueueEpoch f) with false by lia. by rewrite andb_false_r.
Qed.

Lemma artPop_other f Q sio2 nav x : fifo_rep f Q -> x ∉ Q -> nodes (snd (artPop f sio2 nav)) !! x = nodes f !! x.
Proof.
  intros H Hx. destruct (rep_ends _ _ H) as [El _]. unfold artPop. rewrite El. destruct Q as [|a Q]; cbn [head]; [done|]. destruct (sio2 a && nav); [done|].
  destruct (rep_node f [] a Q H) as (Ha & _). rewrite Ha. cbn. rewrite lookup_alter_ne by set_solver. apply at_ptr_other. intros E%head_Some_elem_of. set_solver.
Qed.

(** and none allocates or frees one *)
Lemma dom_at_ptr p g m : dom (at_ptr p g m) = dom m.
Proof. destruct p; cbn; [apply dom_alter_L|done]. Qed.

Lemma dom_artPush f a : dom (nodes (artPush f a)) = dom (nodes f).
Proof. cbn. rewrite dom_at_ptr. apply dom_alter_L. Qed.
Lemma dom_artPushFront f a : dom (nodes (artPushFront f a)) = dom (nodes f).
Proof. cbn. rewrite dom_at_ptr. apply dom_alter_L. Qed.
Lemma dom_artPromote f c a : dom (nodes (artPromote f c a)) = dom (nodes f).
Proof. unfold artPromote. destruct (nodes f !! a) as [[n [p|] e]|]; try done. destruct (_ && _); [|done]. cbn [nodes]. by rewrite dom_at_ptr, dom_alter_L, dom_at_ptr, dom_alter_L. Qed.
Lemma dom_artPop f sio2 nav : dom (nodes (snd (artPop f sio2 nav))) = dom (nodes f).
Proof. unfold artPop. destruct (gArtReqList f); [|done]. destruct (_ && _); [done|]. cbn. by rewrite dom_alter_L, dom_at_ptr. Qed.

(** ** Refinement *)

Section Refinement.
Context (sio2 : addr -> bool).

Inductive fifo_op :=
  | Alloc (a : addr) | Free (a : addr)
  | Push (a : addr) | PushFront (a : addr) | Promote (current : option addr) (a : addr)
  | Pop (nav : bool) | Detach.

Definition fifo_exec (f : fifo) (o : fifo_op) : fifo * option addr :=
  match o with
  | Alloc a => (new_request f a, None)
  | Free a => (free_request f a, None)
  | Push a => (artPush f a, None)
  | PushFront a => (artPushFront f a, None)
  | Promote c a => (artPromote f c a, None)
  | Pop nav => let '(r, f) := artPop f sio2 nav in (f, r)
  | Detach => let '(r, f) := artDetachAll f in (f, r)
  end.

(** the specification: a sequence, and the requests that are allocated outside of it *)
Record art_queue := ArtQueue { seq : list addr; outside : gset addr }.

(** [None] where the caller breaks its part of the contract *)
Definition spec_exec (s : art_queue) (o : fifo_op) : option (art_queue * option addr) :=
  match o with
  | Alloc a => if decide (a ∈ seq s \/ a ∈ outside s) then None else Some (ArtQueue (seq s) ({[a]} ∪ outside s), None)
  | Free a => if decide (a ∈ outside s) then Some (ArtQueue (seq s) (outside s ∖ {[a]}), None) else None
  | Push a => if decide (a ∈ outside s) then Some (ArtQueue (seq s ++ [a]) (outside s ∖ {[a]}), None) else None
  | PushFront a => if decide (a ∈ outside s) then Some (ArtQueue (a :: seq s) (outside s ∖ {[a]}), None) else None
  | Promote c a => if decide (Forall (fun x => c <> Some x) (seq s)) then Some (ArtQueue (promote (seq s) a) (outside s), None) else None
  | Pop nav => let '(r, q) := pop (seq s) sio2 nav in Some (ArtQueue q (outside s ∪ match r with Some a => {[a]} | None => ∅ end), r)
  | Detach => Some (ArtQueue [] (list_to_set (seq s) ∪ outside s), head (seq s))
  end.

Record queue_sim (f : fifo) (s : art_queue) : Prop := {
  qs_rep : fifo_rep f (seq s);
  qs_dom : dom (nodes f) = list_to_set (seq s) ∪ outside s;
  qs_disj : forall a, a ∈ outside s -> a ∉ seq s;
}.

Lemma promote_perm Q a : NoDup Q -> promote Q a ≡ₚ Q.
Proof.
  intros H. destruct (decide (a ∈ Q)) as [Hin|Hn]; [|unfold promote; by rewrite decide_False].
  apply list_elem_of_split in Hin as (Q1 & Q2 & ->). rewrite promote_split by done. apply Permutation_middle.
Qed.

Lemma allocated_sim f s a : queue_sim f s -> a ∈ outside s -> is_Some (nodes f !! a).
Proof. intros H Ha. apply elem_of_dom. rewrite (qs_dom _ _ H). set_solver. Qed.

Lemma exec_sim f s o s' r : queue_sim f s -> gArtQueueEpoch f + 1 < 2 ^ 32 -> spec_exec s o = Some (s', r) ->
  queue_sim (fst (fifo_exec f o)) s' /\ snd (fifo_exec f o) = r.
Proof.
  intros [Hr Hd Hj] He E. destruct o as [a|a|a|a|c a|nav|]; cbn [spec_exec fifo_exec] in *; [..| |].
  - destruct (decide _) as [|Hn]; [done|]. injection E as <- <-. split; [split; cbn|done]; [apply new_request_rep; set_solver|set_solver|set_solver].
  - destruct (decide _) as [Ha|]; [|done]. injection E as <- <-. split; [split; cbn|done]; [apply free_request_rep; [done|by apply Hj]| |set_solver].
    rewrite dom_delete_L, Hd. apply Hj in Ha. set_solver.
  - destruct (decide _) as [Ha|]; [|done]. injection E as <- <-. split; [split|done]; cbn [seq outside fst].
    + apply artPush_rep; [done|by apply Hj|by eapply (allocated_sim f s); [split|]].
    + rewrite dom_artPush, Hd. rewrite list_to_set_app_L. apply set_eq. intros x. destruct (decide (x = a)); set_solver.
    + set_solver.
  - destruct (decide _) as [Ha|]; [|done]. injection E as <- <-. split; [split|done]; cbn [seq outside fst].
    + apply artPushFront_rep; [done|by apply Hj|by eapply (allocated_sim f s); [split|]].
    + rewrite dom_artPushFront, Hd. apply set_eq. intros x. destruct (decide (x = a)); set_solver.
    + set_solver.
  - destruct (decide _) as [Hc|]; [|done]. injection E as <- <-. pose proof (promote_perm (seq s) a (fr_nodup _ _ Hr)) as Hp. split; [split|done]; cbn [seq outside fst].
    + apply artPromote_rep; [done|]. intros c' -> Hin. rewrite Forall_forall in Hc. by apply (Hc c').
    + rewrite dom_artPromote, Hd. f_equal. apply set_eq. intros x. rewrite !elem_of_list_to_set. by rewrite Hp.
    + intros x Hx Hin. rewrite Hp in Hin. by apply (Hj x).
  - destruct (artPop_rep f (seq s) sio2 nav Hr) as [E1 E2]. pose proof (dom_artPop f sio2 nav) as Ed. destruct (artPop f sio2 nav) as [r' f'].
    cbn [fst snd] in *. destruct (pop (seq s) sio2 nav) as [r'' q] eqn:Ep. cbn [fst snd] in *. subst r''. injection E as <- <-. split; [|done].
    pose proof (fr_nodup _ _ Hr) as Hnd. unfold pop in Ep. destruct (seq s) as [|x Q]; [injection Ep as <- <-; split; cbn; [done|set_solver|set_solver]|].
    destruct (sio2 x && nav); injection Ep as <- <-; (split; cbn; [done|set_solver|]); [set_solver|]. apply NoDup_cons in Hnd as [Hx _]. set_solver.
  - destruct (artDetachAll_rep f (seq s) Hr He) as [E1 _]. destruct (rep_ends _ _ Hr) as [El _]. unfold artDetachAll in *. cbn [fst snd] in *. injection E as <- <-. split; [|done].
    split; cbn; [done|set_solver|set_solver].
Qed.

Fixpoint fifo_run (f : fifo) (os : list fifo_op) : fifo * list (option addr) :=
  match os with
  | [] => (f, [])
  | o :: os => let '(f, r) := fifo_exec f o in let '(f, rs) := fifo_run f os in (f, r :: rs)
  end.

Fixpoint spec_run (s : art_queue) (os : list fifo_op) : option (art_queue * list (option addr)) :=
  match os with
  | [] => Some (s, [])
  | o :: os => '(s, r) ← spec_exec s o; '(s, rs) ← spec_run s os; Some (s, r :: rs)
  end.

Definition no_requests : fifo := Fifo ∅ None None 1 0.

Lemma exec_epoch f o : 0 < gArtQueueEpoch f -> gArtQueueEpoch f + 1 < 2 ^ 32 -> gArtQueueEpoch f <= gArtQueueEpoch (fst (fifo_exec f o)) <= gArtQueueEpoch f + 1.
Proof.
  intros H0 He. destruct o as [a|a|a|a|c a|nav|]; cbn [fifo_exec fst]; cbn; try lia.
  - unfold artPromote. destruct (nodes f !! a) as [[n [p|] e]|]; try (cbn; lia). destruct (_ && _); cbn; lia.
  - unfold artPop. destruct (gArtReqList f); [|cbn; lia]. destruct (_ && _); cbn; lia.
  - rewrite next_epoch_id; lia.
Qed.

Lemma run_sim os : forall f s s' rs, queue_sim f s -> gArtQueueEpoch f + Z.of_nat (length os) < 2 ^ 32 -> spec_run s os = Some (s', rs) ->
  queue_sim (fst (fifo_run f os)) s' /\ snd (fifo_run f os) = rs.
Proof.
  induction os as [|o os IH]; intros f s s' rs Hs He E; cbn [spec_run fifo_run length] in *; [by injection E as <- <-|].
  destruct (spec_exec s o) as [[s1 r]|] eqn:E1; [|done]. cbn [mbind option_bind] in E. destruct (spec_run s1 os) as [[s2 rs']|] eqn:E2; [|done].
  injection E as <- <-. pose proof (fr_epoch _ _ (qs_rep _ _ Hs)) as Hp. destruct (exec_sim f s o s1 r Hs ltac:(lia) E1) as [Hs1 Hr].
  pose proof (exec_epoch f o ltac:(lia) ltac:(lia)) as Hee. destruct (fifo_exec f o) as [f1 r1]. cbn [fst snd] in *. subst r1.
  destruct (IH f1 s1 s2 rs' Hs1 ltac:(lia) E2) as [Hs2 Hr2]. destruct (fifo_run f1 os) as [f2 rs2]. cbn [fst snd] in *. by subst rs2.
Qed.

(** The linked requests implement a sequence: whatever requests are allocated,
    queued at either end, promoted, taken, detached and freed, every operation answers as
    the sequence does, the links and the count are those of the sequence, and a promotion
    of a request that is not in it does nothing. *)
Theorem art_queue_refines (os : list fifo_op) (s : art_queue) (rs : list (option addr)) :
  spec_run (ArtQueue [] ∅) os = Some (s, rs) -> Z.of_nat (length os) < 2 ^ 32 - 1 ->
  let '(f, rs') := fifo_run no_requests os in
  rs' = rs /\ gArtQueuedCount f = Z.of_nat (length (seq s)) /\ gArtReqList f = head (seq s) /\ gArtReqEnd f = last (seq s) /\
  dseg (nodes f) (gArtQueueEpoch f) None (gArtReqList f) (seq s) (gArtReqEnd f) None /\ dom (nodes f) = list_to_set (seq s) ∪ outside s.
Proof.
  intros E Hl. destruct (run_sim os no_requests (ArtQueue [] ∅) s rs) as [[H Hd _] Hr]; [|cbn; lia|done|].
  { split; cbn; [|set_solver|set_solver]. split; cbn; try done. apply NoDup_nil_2. }
  destruct (fifo_run no_requests os) as [f rs']. cbn [fst snd] in *. destruct (rep_ends _ _ H) as [El Ee]. split; [done|]. split; [apply H|].
  split; [done|]. split; [done|]. split; [apply H|done].
Qed.
End Refinement.

(** three covers; the last is promoted, the first shares the pad's bus while a direction is held *)
Definition sample_ops : list fifo_op :=
  [Alloc 1; Alloc 2; Alloc 3; Push 1; Push 2; PushFront 3; Promote None 2; Pop true; Promote (Some 2%nat) 2; Pop false; Pop true; Alloc 4; Push 4; Detach; Promote None 4].

Lemma art_queue_refines_witness :
  snd (fifo_run (fun a => Nat.eqb a 1) no_requests sample_ops) =
    [None; None; None; None; None; None; None; Some 2%nat; None; Some 3%nat; None; None; None; Some 1%nat; None].
Proof.
  destruct (spec_run (fun a => Nat.eqb a 1) (ArtQueue [] ∅) sample_ops) as [[s rs]|] eqn:E; [|exfalso; revert E; vm_compute; congruence].
  pose proof (art_queue_refines (fun a => Nat.eqb a 1) sample_ops s rs E ltac:(cbn; lia)) as H.
  destruct (fifo_run _ no_requests sample_ops) as [f rs']. destruct H as [-> _]. cbn [snd].
  apply (f_equal (option_map snd)) in E. cbn [option_map snd] in E. assert (E' : Some rs = Some [None; None; None; None; None; None; None; Some 2%nat; None; Some 3%nat; None; None; None; Some 1%nat; None]) by (rewrite <- E; vm_compute; reflexivity).
  by injection E'.
Defined.
