(* ===== verification/TexCache.v ===== *)
(** * TexCache: the cover art cache (src/texcache.c)

    The slots of the caches, the requests that fill them, and the code on both sides: the
    GUI thread, which looks covers up, claims slots and queues requests; and the art
    thread, which takes requests, loads and publishes. The queue is the one of ArtFifo.
    The last part says who runs when: a step relation whose states are the places where one
    thread can preempt another. *)
From S2P Require Import Prelude CLib ArtFifo.

Abbreviation HDD_MODE := 9.
Abbreviation APP_MODE := 10.
Abbreviation MMCE_MODE := 11.
Abbreviation FAV_MODE := 12.

Definition ERR_BAD_FILE : Z := -1.
Definition ART_MIN_SETTLE_FRAMES : Z := 8.
Definition ART_CANCEL_STALE_FRAMES : Z := 20.
Definition KEY_SIZE : nat := 128.

(** ** What the cache asks of the supports *)

(** an [item_list_t] *)
Record item_list_t := ItemList { list_id : nat; mode : Z; delay : Z }.

(** the answers of the supports at one moment; [itemGetArtArchivePath] is [None] for a
    support that does not have it *)
Record art_support := ArtSupport {
  favGetArtMode : bytes -> Z;
  appGetArtMode : bytes -> Z;
  bdmModeIsSIO2 : Z -> bool;
  itemGetArtArchivePath : item_list_t -> option (Z * bytes);
  hddGetArtArchivePath : item_list_t -> Z * bytes;
}.

(** FAV and APP rows stand for rows of another device *)
Definition art_mode (sup : art_support) (l : item_list_t) (value : bytes) : Z :=
  let m := mode l in
  let m := if m =? FAV_MODE then if 0 <=? favGetArtMode sup value then favGetArtMode sup value else m else m in
  if m =? APP_MODE then if 0 <=? appGetArtMode sup value then appGetArtMode sup value else m else m.

Definition cacheRequestIsSIO2 (sup : art_support) (l : item_list_t) (value : bytes) : bool :=
  let m := art_mode sup l value in (m =? MMCE_MODE) || bdmModeIsSIO2 sup m.

(** the archive that must serve a row: 1 and its path, -1 when it has a home that is not
    there, 0 for the sweep of all devices *)
Definition cacheResolveArtArchive (sup : art_support) (l : item_list_t) (value : bytes) : Z * bytes :=
  match itemGetArtArchivePath sup l with
  | Some a => a
  | None => if art_mode sup l value =? HDD_MODE then hddGetArtArchivePath sup l else (0, [])
  end.

(** the resolution at the claim of a slot *)
Definition resolve_archive (sup : art_support) (gEnableArtTar : bool) (l : item_list_t) (value : bytes) : Z * option bytes :=
  if gEnableArtTar then
    let '(m, p) := cacheResolveArtArchive sup l value in
    if m =? 1 then match p with [] => (-1, None) | _ => (1, Some p) end else (m, None)
  else (0, None).

(** ** Slots and requests *)

Section Cache.
Context {T : Type}.

(** a [cache_entry_t]; the texture is [None] when [texture.Mem] is NULL. [claimed_for] is
    not in the code: the value the slot was last claimed for, which [key] only holds when
    it is short enough *)
Record cache_entry_t := Entry {
  texture : option T;
  qr : option addr;
  lastUsed : Z;
  UID : Z;
  key : bytes;
  failEpoch : Z;
  claimed_for : bytes;
}.

Definition cleared : cache_entry_t := Entry None None (-1) 0 [] 0 [].
Definition cacheClearItem (e : cache_entry_t) : cache_entry_t := cleared.

Record image_cache_t := Cache {
  prefix : option bytes;
  isPrefixRelative : bool;
  suffix : bytes;
  nextUID : Z;
  content : list cache_entry_t;
  activeRequests : Z;
}.

Definition cacheInitCache (prefix : option bytes) (isPrefixRelative : bool) (suffix : bytes) (count : nat) : image_cache_t :=
  Cache prefix isPrefixRelative suffix 1 (replicate count cleared) 0.

(** a [load_image_request_t] without its links *)
Record request := Request {
  rq_cache : nat;
  rq_entry : nat;             (** the slot *)
  rq_list : item_list_t;
  rq_value : bytes;
  cacheUID : Z;
  epoch : Z;
  rq_failEpoch : Z;
  focusEpoch : Z;
  abortRequested : bool;
  sio2 : bool;
  artArchive : Z;
  artArchivePath : option bytes;
}.

Definition set_focus (e : Z) (r : request) : request :=
  Request (rq_cache r) (rq_entry r) (rq_list r) (rq_value r) (cacheUID r) (epoch r) (rq_failEpoch r) e (abortRequested r) (sio2 r) (artArchive r) (artArchivePath r).
Definition set_abort (r : request) : request :=
  Request (rq_cache r) (rq_entry r) (rq_list r) (rq_value r) (cacheUID r) (epoch r) (rq_failEpoch r) (focusEpoch r) true (sio2 r) (artArchive r) (artArchivePath r).

(** the rest of the module's variables *)
Record globals := Globals {
  gArtRunning : bool;
  gArtTerminate : bool;
  gArtShutdownAbandoned : bool;
  gCacheLoadsCancelled : bool;
  gArtNavActive : bool;
  gEnableArtTar : bool;
  gArtFailEpoch : Z;
  gArtEpoch : Z;
  gArtFocusEpoch : Z;
  gArtFocus : option (nat * Z * Z);   (** the list, the hash and the length of the selected value *)
  guiFrameId : Z;
  guiInactiveFrames : Z;
}.

(** [faulted] tells that a request that was freed has been used *)
Record art := Art {
  queue : fifo;
  requests : gmap addr request;
  caches : gmap nat image_cache_t;
  gArtCurrentReq : option addr;
  gArtActiveCount : Z;
  faulted : bool;
  vars : globals;
}.

Definition put_queue (s : art) (f : fifo) : art := Art f (requests s) (caches s) (gArtCurrentReq s) (gArtActiveCount s) (faulted s) (vars s).
Definition put_vars (s : art) (g : globals) : art := Art (queue s) (requests s) (caches s) (gArtCurrentReq s) (gArtActiveCount s) (faulted s) g.
Definition fault (s : art) : art := Art (queue s) (requests s) (caches s) (gArtCurrentReq s) (gArtActiveCount s) true (vars s).

(** a store through a pointer to a request, a cache or a slot *)
Definition upd_request (s : art) (a : addr) (g : request -> request) : art :=
  Art (queue s) (alter g a (requests s)) (caches s) (gArtCurrentReq s) (gArtActiveCount s) (faulted s) (vars s).
Definition upd_cache (s : art) (c : nat) (g : image_cache_t -> image_cache_t) : art :=
  Art (queue s) (requests s) (alter g c (caches s)) (gArtCurrentReq s) (gArtActiveCount s) (faulted s) (vars s).
Definition set_content (g : list cache_entry_t -> list cache_entry_t) (k : image_cache_t) : image_cache_t :=
  Cache (prefix k) (isPrefixRelative k) (suffix k) (nextUID k) (g (content k)) (activeRequests k).
Definition set_active (n : Z) (k : image_cache_t) : image_cache_t :=
  Cache (prefix k) (isPrefixRelative k) (suffix k) (nextUID k) (content k) n.
Definition upd_entry (s : art) (c i : nat) (g : cache_entry_t -> cache_entry_t) : art := upd_cache s c (set_content (alter g i)).

Definition entry_at (s : art) (c i : nat) : option cache_entry_t := k ← caches s !! c; content k !! i.

Definition set_used (n : Z) (e : cache_entry_t) : cache_entry_t := Entry (texture e) (qr e) n (UID e) (key e) (failEpoch e) (claimed_for e).
Definition set_qr (r : option addr) (e : cache_entry_t) : cache_entry_t := Entry (texture e) r (lastUsed e) (UID e) (key e) (failEpoch e) (claimed_for e).

(** ** The focus *)

Definition artFocusHashValue (value : bytes) : Z := fold_left (fun h c => u32 (Z.lxor h c * 16777619)) value 2166136261.

Definition artUpdateFocus (g : globals) (l : item_list_t) (value : bytes) : globals :=
  let new := (list_id l, artFocusHashValue value, Z.of_nat (length value)) in
  if bool_decide (gArtFocus g = Some new) then g
  else Globals (gArtRunning g) (gArtTerminate g) (gArtShutdownAbandoned g) (gCacheLoadsCancelled g) (gArtNavActive g) (gEnableArtTar g)
         (gArtFailEpoch g) (gArtEpoch g) (next_epoch (gArtFocusEpoch g)) (Some new) (guiFrameId g) (guiInactiveFrames g).

(** ** Looking a cover up: the GUI thread *)

(** the end of a call: what is drawn, and the row's identifiers *)
Record drawn := Drawn { d_tex : option (option T); d_id : Z; d_uid : Z; d_art : art }.

(** a pending request that is still wanted joins the new generation, and the selected one
    goes to the front *)
Definition adopt (s : art) (a : addr) (isPriority : bool) : art :=
  match requests s !! a with
  | Some r =>
    let s := upd_request s a (set_focus (gArtFocusEpoch (vars s))) in
    if isPriority && negb (sio2 r && gArtNavActive (vars s)) then put_queue s (artPromote (queue s) (gArtCurrentReq s) a) else s
  | None => fault s
  end.

(** the row's own slot, when it is still the row's; otherwise [None] *)
Definition cover_by_id (s : art) (c : nat) (cacheId uid : Z) (isPriority : bool) : option drawn :=
  if cacheId <? 0 then None
  else
    e ← entry_at s c (Z.to_nat cacheId);
    if UID e =? uid then
      let s' := upd_entry s c (Z.to_nat cacheId) (set_used (guiFrameId (vars s))) in
      match qr e with
      | Some r => Some (Drawn None cacheId uid (adopt s' r isPriority))
      | None =>
        if lastUsed e =? 0 then Some (Drawn None (-2) (s32 (gArtFailEpoch (vars s))) s)
        else Some (Drawn (Some (texture e)) cacheId uid s')
      end
    else None.

(** reunion by value: the first slot with the row's key *)
Definition cover_by_key (s : art) (c : nat) (value : bytes) (isPriority : bool) : option drawn :=
  if (length value <? KEY_SIZE)%nat then
    k ← caches s !! c;
    i ← find_index (fun e => negb (bool_decide (key e = [])) && streq (key e) value) (content k);
    e ← content k !! i;
    let s' := upd_entry s c i (set_used (guiFrameId (vars s))) in
    match qr e with
    | Some r => Some (Drawn None (Z.of_nat i) (UID e) (adopt s' r isPriority))
    | None =>
      if lastUsed e =? 0 then
        if failEpoch e =? gArtFailEpoch (vars s) then Some (Drawn None (-2) (s32 (gArtFailEpoch (vars s))) s) else None
      else if bool_decide (texture e = None) then None
      else Some (Drawn (Some (texture e)) (Z.of_nat i) (UID e) s')
    end
  else None.

(** a background cache of one slot: the load of another value is told to stop *)
Definition abort_other_background (s : art) (c : nat) (value : bytes) : art :=
  match caches s !! c with
  | Some k =>
    match content k with
    | [e] =>
      if streq (suffix k) (bs "BG") then
        match qr e with
        | Some r =>
          if negb (bool_decide (key e = [])) && negb (streq (key e) value) then
            if bool_decide (is_Some (requests s !! r)) then upd_request s r set_abort else fault s
          else s
        | None => s
        end
      else s
    | _ => s
    end
  | None => s
  end.

(** the slot to claim: free, or the one used longest ago; never one that is loading, and
    while a direction is held on the pad's bus never one that holds an image *)
Fixpoint claim_scan (l : list cache_entry_t) (i : nat) (hold : bool) (rtime : Z) (best : option nat) : option nat :=
  match l with
  | [] => best
  | e :: l =>
    match qr e with
    | Some _ => claim_scan l (S i) hold rtime best
    | None =>
      if hold && (0 <? lastUsed e) then claim_scan l (S i) hold rtime best
      else if lastUsed e <? rtime then claim_scan l (S i) hold (lastUsed e) (Some i)
      else claim_scan l (S i) hold rtime best
    end
  end.

(** the claim of slot [i] for [value] by the new request [a] *)
Definition claim (s : art) (sup : art_support) (c i : nat) (l : item_list_t) (value : bytes) (isSio2 isPriority : bool) (a : addr) : art :=
  match caches s !! c with
  | Some k =>
    let g := vars s in
    let uid := nextUID k in
    let '(am, ap) := resolve_archive sup (gEnableArtTar g) l value in
    let r := Request c i l value uid (gArtEpoch g) (gArtFailEpoch g) (gArtFocusEpoch g) false isSio2 am ap in
    let e := Entry None (Some a) (guiFrameId g) uid (if (length value <? KEY_SIZE)%nat then value else []) 0 value in
    let k := Cache (prefix k) (isPrefixRelative k) (suffix k) (s32 (uid + 1)) (<[i := e]> (content k)) (activeRequests k + 1) in
    let f := new_request (queue s) a in
    let f := if isPriority && negb (isSio2 && gArtNavActive g) then artPushFront f a else artPush f a in
    Art f (<[a := r]> (requests s)) (<[c := k]> (caches s)) (gArtCurrentReq s) (gArtActiveCount s) (faulted s) g
  | None => s
  end.

(** the last part of [cacheGetTextureEx]: queue a request, if one may be; [alloc] is the
    answer of [malloc] *)
Definition request_cover (s : art) (sup : art_support) (c : nat) (l : item_list_t) (uid : Z) (value : bytes) (isPriority : bool) (alloc : option addr) : drawn :=
  let isSio2 := cacheRequestIsSIO2 sup l value in
  let g := vars s in
  if isSio2 && (guiInactiveFrames g <? Z.max (delay l) ART_MIN_SETTLE_FRAMES) then Drawn None (-1) uid s
  else
    let s := abort_other_background s c value in
    match caches s !! c with
    | None => Drawn None (-1) uid s
    | Some k =>
      match claim_scan (content k) 0 (isSio2 && gArtNavActive g) (guiFrameId g) None with
      | None => Drawn None (-1) uid s
      | Some i =>
        if gArtRunning g then
          match alloc with
          | None => Drawn None (-1) uid s
          | Some a => Drawn None (Z.of_nat i) (nextUID k) (claim s sup c i l value isSio2 isPriority a)
          end
        else Drawn None (Z.of_nat i) uid s
      end
    end.

Definition cacheGetTextureEx (s : art) (sup : art_support) (c : nat) (l : item_list_t) (cacheId uid : Z) (value : bytes) (isPriority : bool) (alloc : option addr) : drawn :=
  if bool_decide (value = []) then Drawn None cacheId uid s
  else
    let s := if isPriority then put_vars s (artUpdateFocus (vars s) l value) else s in
    if (cacheId =? -2) && (u32 uid =? gArtFailEpoch (vars s)) then Drawn None cacheId uid s
    else
      let by_id := if (cacheId =? -2) || (cacheId =? -1) then None else cover_by_id s c cacheId uid isPriority in
      match by_id with
      | Some d => d
      | None =>
        match cover_by_key s c value isPriority with
        | Some d => d
        | None => request_cover s sup c l uid value isPriority alloc
        end
      end.

(** [cacheLookupTexture]: never a claim *)
Definition cacheLookupTexture (s : art) (c : nat) (cacheId uid : Z) : option (option T) * art :=
  if cacheId <? 0 then (None, s)
  else
    match entry_at s c (Z.to_nat cacheId) with
    | Some e =>
      if negb (UID e =? uid) || negb (bool_decide (qr e = None)) || (lastUsed e =? 0) || bool_decide (texture e = None) then (None, s)
      else (Some (texture e), upd_entry s c (Z.to_nat cacheId) (set_used (guiFrameId (vars s))))
    | None => (None, s)
    end.

(** ** Taking and loading: the art thread *)

Definition put_current (s : art) (c : option addr) (n : Z) : art := Art (queue s) (requests s) (caches s) c n (faulted s) (vars s).

(** [artPop] with the worker's part: the request becomes current and counts as active *)
Definition worker_pop (s : art) : option addr * art :=
  match artPop (queue s) (fun a => from_option sio2 false (requests s !! a)) (gArtNavActive (vars s)) with
  | (Some a, f) => (Some a, put_current (put_queue s f) (Some a) (gArtActiveCount s + 1))
  | (None, f) => (None, put_queue s f)
  end.

(** the tests of [cacheLoadImage] before any device is touched, in their order *)
Inductive verdict := DropOnly | DropAndClear | Load.

Definition load_checks (s : art) (r : request) (e : cache_entry_t) : verdict :=
  let g := vars s in
  if gCacheLoadsCancelled g then DropOnly
  else if negb (cacheUID r =? UID e) then DropOnly
  else if negb (focusEpoch r =? gArtFocusEpoch g) then DropAndClear
  else if ART_CANCEL_STALE_FRAMES <? u32 (guiFrameId g - lastUsed e) then DropAndClear
  else if negb (epoch r =? gArtEpoch g) then DropAndClear
  else if abortRequested r then DropAndClear
  else Load.

(** what follows a load: publish the image, clear the slot, or park it as absent *)
Inductive outcome := Abandon | Publish | ClearSlot | Park.

Definition load_outcome (s : art) (r : request) (result : Z) : outcome :=
  if gArtShutdownAbandoned (vars s) then Abandon
  else if 0 <=? result then Publish
  else if abortRequested r then ClearSlot
  else if negb (result =? ERR_BAD_FILE) then ClearSlot
  else Park.

Definition publish (g : globals) (t : option T) (e : cache_entry_t) : cache_entry_t := Entry t (qr e) (guiFrameId g) (UID e) (key e) (failEpoch e) (claimed_for e).
Definition park (r : request) (e : cache_entry_t) : cache_entry_t := Entry (texture e) (qr e) 0 (UID e) (key e) (rq_failEpoch r) (claimed_for e).

(** the first section of [artReleaseRequest] *)
Definition release (s : art) (a : addr) : art :=
  put_current s (if bool_decide (gArtCurrentReq s = Some a) then None else gArtCurrentReq s) (if 0 <? gArtActiveCount s then gArtActiveCount s - 1 else gArtActiveCount s).

(** [free(req)] *)
Definition free_art (s : art) (a : addr) : art :=
  Art (free_request (queue s) a) (delete a (requests s)) (caches s) (gArtCurrentReq s) (gArtActiveCount s) (faulted s) (vars s).

(** the load itself, over the devices: the archives of tar.c, then the support's own files *)
Class ArtLoader (W : Type) := {
  artTarLoadImageExact : W -> bytes -> bytes -> bytes -> Z * option T * W;
  artTarLoadImage : W -> bytes -> bytes -> Z * option T * W;
  itemGetImage : W -> item_list_t -> option bytes -> bool -> bytes -> bytes -> Z * option T * W;
}.

Definition load_image `{!ArtLoader W} (w : W) (gEnableArtTar : bool) (r : request) (k : image_cache_t) : Z * option T * W :=
  let '(result, t, w) :=
    if gEnableArtTar then
      if artArchive r <? 0 then (-1, None, w)
      else match artArchivePath r with
           | Some p => if 0 <? artArchive r then artTarLoadImageExact w (rq_value r) (suffix k) p else artTarLoadImage w (rq_value r) (suffix k)
           | None => artTarLoadImage w (rq_value r) (suffix k)
           end
    else (-1, None, w) in
  if result <? 0 then itemGetImage w (rq_list r) (prefix k) (isPrefixRelative k) (rq_value r) (suffix k) else (result, t, w).

(** ** Cancelling *)

Definition abort_current (s : art) (p : request -> bool) : art :=
  match gArtCurrentReq s with
  | Some a => match requests s !! a with
              | Some r => if p r then upd_request s a set_abort else s
              | None => fault s
              end
  | None => s
  end.

(** the queue is taken as a chain *)
Definition detach (s : art) : option addr * art := let '(p, f) := artDetachAll (queue s) in (p, put_queue s f).

(** [artFreeChain] of one request: its slot, if it is still loading it *)
Definition free_slot (s : art) (a : addr) : art :=
  match requests s !! a with
  | Some r =>
    match entry_at s (rq_cache r) (rq_entry r) with
    | Some e => if bool_decide (qr e = Some a) then upd_entry s (rq_cache r) (rq_entry r) cacheClearItem else s
    | None => s
    end
  | None => fault s
  end.

(** a store to the link of a request out of the queue *)
Definition link_to (s : art) (a : addr) (n : option addr) : art :=
  put_queue s (Fifo (alter (set_next n) a (nodes (queue s))) (gArtReqList (queue s)) (gArtReqEnd (queue s)) (gArtQueueEpoch (queue s)) (gArtQueuedCount (queue s))).

Definition next_of (s : art) (a : addr) : option addr := from_option next None (nodes (queue s) !! a).

(** ** The module's switches *)

Definition with_frame (frame inactive : Z) (g : globals) : globals :=
  Globals (gArtRunning g) (gArtTerminate g) (gArtShutdownAbandoned g) (gCacheLoadsCancelled g) (gArtNavActive g) (gEnableArtTar g)
    (gArtFailEpoch g) (gArtEpoch g) (gArtFocusEpoch g) (gArtFocus g) frame inactive.
(** [cacheTickArt]: a direction is held *)
Definition cacheTickArt (nav : bool) (g : globals) : globals :=
  Globals (gArtRunning g) (gArtTerminate g) (gArtShutdownAbandoned g) (gCacheLoadsCancelled g) nav (gEnableArtTar g)
    (gArtFailEpoch g) (gArtEpoch g) (gArtFocusEpoch g) (gArtFocus g) (guiFrameId g) (guiInactiveFrames g).
Definition cacheInvalidateFailMemo (g : globals) : globals :=
  Globals (gArtRunning g) (gArtTerminate g) (gArtShutdownAbandoned g) (gCacheLoadsCancelled g) (gArtNavActive g) (gEnableArtTar g)
    (next_epoch (gArtFailEpoch g)) (gArtEpoch g) (gArtFocusEpoch g) (gArtFocus g) (guiFrameId g) (guiInactiveFrames g).
Definition cacheDropQueuedArt (g : globals) : globals :=
  Globals (gArtRunning g) (gArtTerminate g) (gArtShutdownAbandoned g) (gCacheLoadsCancelled g) (gArtNavActive g) (gEnableArtTar g)
    (gArtFailEpoch g) (u32 (gArtEpoch g + 1)) (gArtFocusEpoch g) (gArtFocus g) (guiFrameId g) (guiInactiveFrames g).
(** teardown: loads cancelled, the worker told to end, the worker abandoned, the worker gone *)
Definition with_cancelled (g : globals) : globals :=
  Globals (gArtRunning g) (gArtTerminate g) (gArtShutdownAbandoned g) true (gArtNavActive g) (gEnableArtTar g)
    (gArtFailEpoch g) (gArtEpoch g) (gArtFocusEpoch g) (gArtFocus g) (guiFrameId g) (guiInactiveFrames g).
Definition with_terminate (g : globals) : globals :=
  Globals (gArtRunning g) true (gArtShutdownAbandoned g) (gCacheLoadsCancelled g) (gArtNavActive g) (gEnableArtTar g)
    (gArtFailEpoch g) (gArtEpoch g) (gArtFocusEpoch g) (gArtFocus g) (guiFrameId g) (guiInactiveFrames g).
Definition with_abandoned (g : globals) : globals :=
  Globals (gArtRunning g) (gArtTerminate g) true (gCacheLoadsCancelled g) (gArtNavActive g) (gEnableArtTar g)
    (gArtFailEpoch g) (gArtEpoch g) (gArtFocusEpoch g) (gArtFocus g) (guiFrameId g) (guiInactiveFrames g).
Definition with_stopped (g : globals) : globals :=
  Globals false (gArtTerminate g) (gArtShutdownAbandoned g) (gCacheLoadsCancelled g) (gArtNavActive g) (gEnableArtTar g)
    (gArtFailEpoch g) (gArtEpoch g) (gArtFocusEpoch g) (gArtFocus g) (guiFrameId g) (guiInactiveFrames g).
End Cache.

Arguments cache_entry_t : clear implicits.
Arguments image_cache_t : clear implicits.
Arguments art : clear implicits.
Arguments drawn : clear implicits.
Arguments ArtLoader : clear implicits.

(** ** Who runs when *)

Section Run.
Context {T W : Type} `{!ArtLoader T W}.

(** a row of a list on the screen, with the identifiers it keeps for a cache *)
Record row := Row { rw_cache : nat; rw_list : item_list_t; rw_value : bytes; rw_id : Z; rw_uid : Z }.

(** where the art thread is in [cacheArtWorkerThread] and [cacheLoadImage]: each state is
    a place where the GUI thread can preempt it *)
Inductive worker :=
  | WIdle                                          (** before [artPop] *)
  | WHave (a : addr)                               (** [a] was taken *)
  | WClear (a : addr)                              (** its slot will be cleared *)
  | WLoading (a : addr)                            (** in the device read *)
  | WLoaded (a : addr) (result : Z) (t : option T) (** the image is staged *)
  | WPublished (a : addr)                          (** the slot is filled, [qr] not yet cleared *)
  | WRelease (a : addr)
  | WTest (a : addr)                               (** tests [activeRequests] *)
  | WRead (a : addr)                               (** reads it *)
  | WStore (a : addr) (v : Z)                      (** stores it decremented *)
  | WFree (a : addr)
  | WDead.

(** a thread that frees requests: [artFreeChain] from [p] on, and for
    [cacheAbortMmceImageLoadsTimed] what is left of the chain and the requests it keeps *)
Inductive task :=
  | TFree (p : option addr)
  | TTest (a : addr) (nx : option addr)
  | TRead (a : addr) (nx : option addr)
  | TStore (a : addr) (nx : option addr) (v : Z)
  | TKill (a : addr) (nx : option addr).
Record job := Job { j_task : task; j_split : option (option addr * option addr * option addr) }.

Record sys := Sys { st : art T; rows : gmap nat row; wk : worker; jobs : list job; world : W }.

Definition put_st (s : sys) (x : art T) : sys := Sys x (rows s) (wk s) (jobs s) (world s).
Definition put_wk (s : sys) (x : art T) (w : worker) : sys := Sys x (rows s) w (jobs s) (world s).
Definition put_rows (s : sys) (x : art T) (r : gmap nat row) : sys := Sys x r (wk s) (jobs s) (world s).
Definition put_jobs (s : sys) (x : art T) (j : list job) : sys := Sys x (rows s) (wk s) j (world s).
Definition put_globals (s : sys) (g : globals -> globals) : sys := put_st s (put_vars (st s) (g (vars (st s)))).

(** *** The GUI thread *)

(** a row is drawn: what is shown, and the row with its new identifiers *)
Definition draw (s : sys) (n : nat) (sup : art_support) (isPriority : bool) (alloc : option addr) : option (option (option T) * sys) :=
  r ← rows s !! n;
  let d := cacheGetTextureEx (st s) sup (rw_cache r) (rw_list r) (rw_id r) (rw_uid r) (rw_value r) isPriority alloc in
  Some (d_tex d, put_rows s (d_art d) (<[n := Row (rw_cache r) (rw_list r) (rw_value r) (d_id d) (d_uid d)]> (rows s))).

Definition lookup_row (s : sys) (n : nat) : option (option (option T) * sys) :=
  r ← rows s !! n;
  let '(t, x) := cacheLookupTexture (st s) (rw_cache r) (rw_id r) (rw_uid r) in Some (t, put_st s x).

(** *** The art thread *)

Definition request_of (s : sys) (a : addr) : option (request * cache_entry_t T * image_cache_t T) :=
  r ← requests (st s) !! a; k ← caches (st s) !! rq_cache r; e ← content k !! rq_entry r; Some (r, e, k).

Definition active_of (s : art T) (a : addr) : option Z := r ← requests s !! a; k ← caches s !! rq_cache r; Some (activeRequests k).
Definition store_active (s : art T) (a : addr) (v : Z) : art T :=
  match requests s !! a with Some r => upd_cache s (rq_cache r) (set_active v) | None => s end.

(** one step; [None] where a request or its slot is gone *)
Definition worker_step (s : sys) : option sys :=
  let g := vars (st s) in
  match wk s with
  | WIdle =>
    if gArtTerminate g then Some (put_wk s (put_vars (st s) (with_stopped g)) WDead)
    else let '(p, x) := worker_pop (st s) in Some (put_wk s x (match p with Some a => WHave a | None => WIdle end))
  | WHave a =>
    '(r, e, _) ← request_of s a;
    Some (put_wk s (st s) (match load_checks (st s) r e with DropOnly => WRelease a | DropAndClear => WClear a | Load => WLoading a end))
  | WClear a =>
    '(r, _, _) ← request_of s a;
    Some (put_wk s (upd_entry (st s) (rq_cache r) (rq_entry r) cacheClearItem) (WRelease a))
  | WLoading a =>
    '(r, _, k) ← request_of s a;
    let '(result, t, w) := load_image (world s) (gEnableArtTar g) r k in
    Some (Sys (st s) (rows s) (WLoaded a result t) (jobs s) w)
  | WLoaded a result t =>
    '(r, _, _) ← request_of s a;
    match load_outcome (st s) r result with
    | Abandon =>
      let x := free_art (release (st s) a) a in Some (put_wk s (put_vars x (with_terminate (vars x))) WIdle)
    | Publish => Some (put_wk s (upd_entry (st s) (rq_cache r) (rq_entry r) (publish g t)) (WPublished a))
    | ClearSlot => Some (put_wk s (st s) (WClear a))
    | Park => Some (put_wk s (upd_entry (st s) (rq_cache r) (rq_entry r) (park r)) (WPublished a))
    end
  | WPublished a =>
    '(r, _, _) ← request_of s a;
    Some (put_wk s (upd_entry (st s) (rq_cache r) (rq_entry r) (set_qr None)) (WRelease a))
  | WRelease a => Some (put_wk s (release (st s) a) (WTest a))
  | WTest a => v ← active_of (st s) a; Some (put_wk s (st s) (if 0 <? v then WRead a else WFree a))
  | WRead a => v ← active_of (st s) a; Some (put_wk s (st s) (WStore a v))
  | WStore a v => Some (put_wk s (store_active (st s) a (v - 1)) (WFree a))
  | WFree a => Some (put_wk s (free_art (st s) a) WIdle)
  | WDead => None
  end.

(** *** The threads that cancel *)

(** one step of a job: the job it becomes, or [None] when it is done *)
Definition job_step (s : art T) (j : job) : option (art T * option job) :=
  let '(Job t sp) := j in
  match t with
  | TFree (Some a) => Some (free_slot s a, Some (Job (TTest a (next_of s a)) sp))
  | TTest a nx => v ← active_of s a; Some (s, Some (Job (if 0 <? v then TRead a nx else TKill a nx) sp))
  | TRead a nx => v ← active_of s a; Some (s, Some (Job (TStore a nx v) sp))
  | TStore a nx v => Some (store_active s a (v - 1), Some (Job (TKill a nx) sp))
  | TKill a nx => Some (free_art s a, Some (Job (TFree nx) sp))
  | TFree None =>
    match sp with
    | None => Some (s, None)
    | Some (Some a, kh, kt) =>
      r ← requests s !! a;
      let nx := next_of s a in
      let s := link_to s a None in
      if sio2 r then Some (s, Some (Job (TFree (Some a)) (Some (nx, kh, kt))))
      else
        let s := match kt with Some t => link_to s t (Some a) | None => s end in
        Some (s, Some (Job (TFree None) (Some (nx, match kt with Some _ => kh | None => Some a end, Some a))))
    | Some (None, Some a, kt) =>
      Some (put_queue s (artPush (queue s) a), Some (Job (TFree None) (Some (None, next_of s a, kt))))
    | Some (None, None, _) => Some (s, None)
    end
  end.

(** [cacheCancelPendingImageLoadsTimed], [cacheAbortMmceImageLoadsTimed] up to their waits *)
Definition start_cancel (s : sys) : sys :=
  let '(p, x) := detach (abort_current (st s) (fun _ => true)) in put_jobs s x (Job (TFree p) None :: jobs s).
Definition start_abort_sio2 (s : sys) : sys :=
  let '(p, x) := detach (abort_current (st s) sio2) in put_jobs s x (Job (TFree None) (Some (p, None, None)) :: jobs s).
(** [cacheShutdownArtLoads] *)
Definition start_shutdown (s : sys) : sys :=
  start_cancel (put_globals s with_cancelled).

(** a malloc never answers with memory in use *)
Definition alloc_ok (s : sys) (alloc : option addr) : Prop := match alloc with Some a => requests (st s) !! a = None | None => True end.

Inductive cover_step : sys -> sys -> Prop :=
  | StepDraw s n sup isPriority alloc t s' : alloc_ok s alloc -> draw s n sup isPriority alloc = Some (t, s') -> cover_step s s'
  | StepLookup s n t s' : lookup_row s n = Some (t, s') -> cover_step s s'
  | StepRow s n c l v uid : cover_step s (put_rows s (st s) (<[n := Row c l v (-1) uid]> (rows s)))
  | StepTick s nav : cover_step s (put_globals s (cacheTickArt nav))
  | StepFrame s inactive : cover_step s (put_globals s (fun g => with_frame (s32 (guiFrameId g + 1)) inactive g))
  | StepMemo s : cover_step s (put_globals s cacheInvalidateFailMemo)
  | StepDrop s : cover_step s (put_globals s cacheDropQueuedArt)
  | StepCache s c p b sfx n : caches (st s) !! c = None ->
      cover_step s (put_st s (Art (queue (st s)) (requests (st s)) (<[c := cacheInitCache p b sfx n]> (caches (st s)))
        (gArtCurrentReq (st s)) (gArtActiveCount (st s)) (faulted (st s)) (vars (st s))))
  | StepWorker s s' : worker_step s = Some s' -> cover_step s s'
  | StepWorld s w : cover_step s (Sys (st s) (rows s) (wk s) (jobs s) w)
  | StepJob s j1 j j2 x j' : jobs s = j1 ++ j :: j2 -> job_step (st s) j = Some (x, j') ->
      cover_step s (put_jobs s x (j1 ++ from_option (fun y => [y]) [] j' ++ j2))
  | StepCancel s : gArtRunning (vars (st s)) = true -> cover_step s (start_cancel s)
  | StepAbort s : gArtRunning (vars (st s)) = true -> cover_step s (start_abort_sio2 s)
  | StepShutdown s : cover_step s (start_shutdown s)
  | StepEnd s : gCacheLoadsCancelled (vars (st s)) = true -> cover_step s (put_globals s with_terminate)
  | StepAbandon s : gArtTerminate (vars (st s)) = true -> cover_step s (put_globals s with_abandoned).

(** runs in which no counter of the module wraps *)
Definition in_range (s : sys) : Prop :=
  gArtQueueEpoch (queue (st s)) + 1 < 2 ^ 32 /\ forall c k, caches (st s) !! c = Some k -> nextUID k + 1 < 2 ^ 31.
Definition run_step (s s' : sys) : Prop := in_range s /\ cover_step s s'.

(** after [cacheInit], without caches or rows *)
Definition cover_start (s : sys) : Prop :=
  st s = Art no_requests ∅ ∅ None 0 false (Globals true false false false false (gEnableArtTar (vars (st s))) 1 0 1 None 0 0) /\
  rows s = ∅ /\ wk s = WIdle /\ jobs s = [].
End Run.

Arguments sys : clear implicits.
