(* ===== verification/TexInv.v ===== *)
(** * TexInv: what holds of the cover art cache

    The invariant of the threads of TexCache: where every request is, what its slot says of
    it, and what the slots and the rows of the lists agree on; it survives every step up to
    the shutdown of the module. *)
From S2P Require Import Prelude CLib ArtFifo TexCache.

(** ** Counting who has a request *)

Definition one (a x : addr) : nat := if decide (a = x) then 1 else 0.
Fixpoint cnt (a : addr) (l : list addr) : nat := match l with [] => 0%nat | x :: l => (one a x + cnt a l)%nat end.

Lemma one_same a : one a a = 1%nat.
Proof. unfold one. by rewrite decide_True. Qed.
Lemma one_ne a x : a <> x -> one a x = 0%nat.
Proof. intros H. unfold one. by rewrite decide_False. Qed.
Lemma cnt_app a l1 l2 : cnt a (l1 ++ l2) = (cnt a l1 + cnt a l2)%nat.
Proof. induction l1 as [|x l1 IH]; cbn; [done|]. rewrite IH. lia. Qed.
Lemma cnt_in a l : a ∈ l <-> (0 < cnt a l)%nat.
Proof.
  induction l as [|x l IH]; cbn; [rewrite elem_of_nil; lia|]. rewrite elem_of_cons, IH. unfold one. destruct (decide (a = x)); [|split; [intros [?|?]; [done|lia]|intros; right; lia]].
  split; [lia|]. by left.
Qed.
Lemma cnt_perm a l1 l2 : l1 ≡ₚ l2 -> cnt a l1 = cnt a l2.
Proof. induction 1; cbn; lia. Qed.

(** ** What holds of the slots and the requests *)

Section Slots.
Context {T W : Type} `{!ArtLoader T W}.
Abbreviation entry := (cache_entry_t T).
Abbreviation cachemap := (gmap nat (image_cache_t T)).

(** [t] was loaded for [value] from the files of a cache with this suffix *)
Definition image_of (value sfx : bytes) (t : T) : Prop :=
  exists (w w' : W) b r k result, rq_value r = value /\ suffix k = sfx /\ 0 <= result /\ load_image w b r k = (result, Some t, w').

Definition ent (cs : cachemap) (c i : nat) : option entry := k ← cs !! c; content k !! i.

Record slots_ok (rqs : gmap addr request) (cs : cachemap) (L : list addr) : Prop := {
  so_entry c i e : ent cs c i = Some e -> exists k, cs !! c = Some k /\ 0 <= UID e < nextUID k /\
    (key e <> [] -> key e = claimed_for e /\ 0 < UID e) /\ (forall t, texture e = Some t -> image_of (claimed_for e) (suffix k) t);
  so_qr c i e a : ent cs c i = Some e -> qr e = Some a ->
    a ∈ L /\ exists r, rqs !! a = Some r /\ rq_cache r = c /\ rq_entry r = i /\ cacheUID r = UID e;
  so_req a r : rqs !! a = Some r -> exists k e, cs !! rq_cache r = Some k /\ ent cs (rq_cache r) (rq_entry r) = Some e /\ 0 < cacheUID r < nextUID k /\
    (a ∈ L -> cacheUID r = UID e -> qr e = Some a /\ claimed_for e = rq_value r);
}.

(** how the caches may change between two draws of a row *)
Record cs_le (cs cs' : cachemap) : Prop := {
  le_cache c k : cs !! c = Some k -> exists k', cs' !! c = Some k' /\ nextUID k <= nextUID k' /\ suffix k' = suffix k;
  le_entry c k i e' : cs !! c = Some k -> ent cs' c i = Some e' ->
    exists e, ent cs c i = Some e /\ (UID e' = UID e /\ claimed_for e' = claimed_for e \/ UID e' = 0 \/ nextUID k <= UID e');
}.

Definition row_ok (r : row) (cs : cachemap) : Prop := 0 <= rw_id r ->
  exists k, cs !! rw_cache r = Some k /\ 0 < rw_uid r < nextUID k /\
    forall e, ent cs (rw_cache r) (Z.to_nat (rw_id r)) = Some e -> UID e = rw_uid r -> claimed_for e = rw_value r.
Definition rows_ok (rows : gmap nat row) (cs : cachemap) : Prop := forall n r, rows !! n = Some r -> row_ok r cs.

Lemma row_ok_le r cs cs' : cs_le cs cs' -> row_ok r cs -> row_ok r cs'.
Proof.
  intros [H1 H2] H Hid. destruct (H Hid) as (k & Hk & Hu & He). destruct (H1 _ _ Hk) as (k' & Hk' & Hle & _).
  exists k'. split; [done|]. split; [lia|]. intros e' He' Eu. destruct (H2 _ _ _ _ Hk He') as (e & Hee & [[E1 E2]|[E|E]]); [|lia|lia].
  rewrite E2. apply He; [done|]. by rewrite <- E1.
Qed.

Lemma rows_ok_le rows cs cs' : cs_le cs cs' -> rows_ok rows cs -> rows_ok rows cs'.
Proof. intros Hle H n r Hr. eapply row_ok_le; [exact Hle|by eapply H]. Qed.

Lemma cs_le_refl cs : cs_le cs cs.
Proof. split; [intros c k Hk; exists k; split; [done|]; split; [lia|done]|]. intros c k i e' _ He. exists e'. split; [done|]. by left. Qed.

(** the request [a] still fills a slot *)
Definition fills (cs : cachemap) (a : addr) : Prop := exists c i e, ent cs c i = Some e /\ qr e = Some a.
Definition keeps (a : addr) (cs cs' : cachemap) : Prop := forall c i e, ent cs c i = Some e -> qr e = Some a -> exists e', ent cs' c i = Some e' /\ qr e' = Some a.

(** *** A store to one slot *)

Definition upd_slot (cs : cachemap) (c i : nat) (g : entry -> entry) : cachemap := alter (set_content (alter g i)) c cs.

Lemma ent_upd cs c i g c' i' : ent (upd_slot cs c i g) c' i' = if decide (c' = c /\ i' = i) then g <$> ent cs c i else ent cs c' i'.
Proof.
  unfold ent, upd_slot. destruct (decide (c' = c)) as [->|Hc].
  - rewrite lookup_alter_eq. destruct (cs !! c) as [k|] eqn:E; cbn; [|by destruct (decide _) as [[_ ->]|]].
    destruct (decide (i' = i)) as [->|Hi]; [rewrite decide_True by done; apply list_lookup_alter_eq|rewrite decide_False by (intros [_ ?]; done); by apply list_lookup_alter_ne].
  - rewrite decide_False by (intros [? _]; done). by rewrite lookup_alter_ne by congruence.
Qed.

Lemma upd_slot_cache cs c i g c' k : upd_slot cs c i g !! c' = Some k -> exists k0, cs !! c' = Some k0 /\ nextUID k = nextUID k0 /\ suffix k = suffix k0.
Proof.
  unfold upd_slot. destruct (decide (c' = c)) as [->|Hc]; [|rewrite lookup_alter_ne by congruence; eauto].
  rewrite lookup_alter_eq. destruct (cs !! c) as [k0|]; [|done]. cbn. intros [= <-]. by exists k0.
Qed.

Lemma upd_slot_cache' cs c i g c' k0 : cs !! c' = Some k0 -> exists k, upd_slot cs c i g !! c' = Some k /\ nextUID k = nextUID k0 /\ suffix k = suffix k0.
Proof.
  intros H. unfold upd_slot. destruct (decide (c' = c)) as [->|Hc]; [|rewrite lookup_alter_ne by congruence; eauto].
  rewrite lookup_alter_eq, H. cbn. by eexists.
Qed.

(** what a store may do to the slot that held [e]; [L'] are the requests that are still
    to fill theirs *)
Record slot_change (sfx : bytes) (L' : list addr) (e e' : entry) : Prop := {
  sc_uid : UID e' = UID e /\ claimed_for e' = claimed_for e \/ UID e' = 0 /\ qr e' = None;
  sc_key : key e' <> [] -> key e' = claimed_for e' /\ 0 < UID e';
  sc_tex t : texture e' = Some t -> image_of (claimed_for e') sfx t;
  sc_qr a : qr e' = Some a -> qr e = Some a /\ a ∈ L';
  sc_keep a : qr e = Some a -> a ∈ L' -> qr e' = Some a;
}.

Lemma slots_upd rqs cs L L' c i e g : slots_ok rqs cs L -> ent cs c i = Some e ->
  (forall k, cs !! c = Some k -> slot_change (suffix k) L' e (g e)) -> (forall a, a ∈ L' -> a ∈ L) ->
  (forall a, a ∈ L -> a ∉ L' -> qr e = Some a \/ ~ fills cs a) ->
  slots_ok rqs (upd_slot cs c i g) L' /\ cs_le cs (upd_slot cs c i g) /\ (forall a, a ∈ L' -> keeps a cs (upd_slot cs c i g)).
Proof.
  intros H He Hch Hsub Hgone. destruct (so_entry _ _ _ H _ _ _ He) as (k0 & Hk0 & Hu0 & _). specialize (Hch k0 Hk0). destruct Hch as [Huid Hkey Htex Hqr Hkeep].
  assert (Hstay : forall a c' i' e', ent cs c' i' = Some e' -> qr e' = Some a -> ~ (c' = c /\ i' = i) -> a ∈ L').
  { intros a c' i' e' He' Hq Hne. destruct (so_qr _ _ _ H _ _ _ _ He' Hq) as [HP (r & Hr & Ec & Ei & _)]. destruct (decide (a ∈ L')) as [|Hn]; [done|exfalso].
    destruct (Hgone a HP Hn) as [E|E]; [|apply E; by exists c', i', e']. destruct (so_qr _ _ _ H _ _ _ _ He E) as [_ (r' & Hr' & Ec' & Ei' & _)]. apply Hne. split; congruence. }
  split; [split|split; [split|]].
  - intros c' i' e' He'. rewrite ent_upd in He'. destruct (decide _) as [[-> ->]|Hne].
    + rewrite He in He'. injection He' as <-. destruct (upd_slot_cache' _ c i g _ _ Hk0) as (k & Hk & En & Es). exists k. rewrite En, Es.
      split; [done|]. split; [destruct Huid as [[-> _]|[-> _]]; lia|done].
    + destruct (so_entry _ _ _ H _ _ _ He') as (k & Hk & Hr). destruct (upd_slot_cache' _ c i g _ _ Hk) as (k' & Hk' & En & Es). exists k'. by rewrite En, Es.
  - intros c' i' e' a He' Hq. rewrite ent_upd in He'. destruct (decide _) as [[-> ->]|Hne].
    + rewrite He in He'. injection He' as <-. destruct (Hqr a Hq) as [Hq0 HL]. split; [done|]. destruct (so_qr _ _ _ H _ _ _ _ He Hq0) as [_ (r & Hr & Ec & Ei & Eu)].
      exists r. destruct Huid as [[-> _]|[_ Hn]]; [done|congruence].
    + split; [by eapply Hstay|]. by destruct (so_qr _ _ _ H _ _ _ _ He' Hq) as [_ Hx].
  - intros a r Hr. destruct (so_req _ _ _ H _ _ Hr) as (k & e1 & Hk & He1 & Hu & Hp). destruct (upd_slot_cache' _ c i g _ _ Hk) as (k' & Hk' & En & Es).
    rewrite ent_upd. destruct (decide _) as [[Ec Ei]|Hne].
    + rewrite Ec, Ei in He1. rewrite He in He1. injection He1 as <-. rewrite He. exists k', (g e). split; [done|]. split; [done|]. rewrite En. split; [done|].
      intros HL Eu. destruct Huid as [[E1 E2]|[E1 _]]; [|lia]. rewrite E1 in Eu. destruct (Hp (Hsub _ HL) Eu) as [Hq Hv]. split; [by apply Hkeep|by rewrite E2].
    + exists k', e1. split; [done|]. split; [done|]. rewrite En. split; [done|]. intros HL. by apply Hp, Hsub.
  - intros c' k Hk. destruct (upd_slot_cache' _ c i g _ _ Hk) as (k' & Hk' & En & Es). exists k'. split; [done|]. split; [lia|done].
  - intros c' k i' e' Hk He'. rewrite ent_upd in He'. destruct (decide _) as [[-> ->]|Hne].
    + rewrite He in He'. injection He' as <-. exists e. split; [done|]. destruct Huid as [Hs|[E _]]; auto.
    + exists e'. split; [done|]. by left.
  - intros a HL c' i' e' He' Hq. rewrite ent_upd. destruct (decide _) as [[-> ->]|Hne]; [|by exists e'].
    rewrite He in *. injection He' as <-. exists (g e). split; [done|]. by apply Hkeep.
Qed.

(** the requests may change in what they do not share with their slots *)
Definition same_slot (r r' : request) : Prop := rq_cache r' = rq_cache r /\ rq_entry r' = rq_entry r /\ rq_value r' = rq_value r /\ cacheUID r' = cacheUID r.

Lemma slots_requests rqs rqs' cs L : slots_ok rqs cs L -> (forall a r', rqs' !! a = Some r' -> exists r, rqs !! a = Some r /\ same_slot r r') ->
  (forall a, a ∈ L -> is_Some (rqs !! a) -> is_Some (rqs' !! a)) -> slots_ok rqs' cs L.
Proof.
  intros H Hb Hf. split.
  - apply H.
  - intros c i e a He Hq. destruct (so_qr _ _ _ H _ _ _ _ He Hq) as [HL (r & Hr & Ec & Ei & Eu)]. split; [done|].
    destruct (Hf a HL (mk_is_Some _ _ Hr)) as [r' Hr']. destruct (Hb a r' Hr') as (r0 & Hr0 & (E1 & E2 & E3 & E4)). rewrite Hr in Hr0. injection Hr0 as <-. exists r'. by rewrite E1, E2, E4.
  - intros a r' Hr'. destruct (Hb a r' Hr') as (r & Hr & (E1 & E2 & E3 & E4)). rewrite E1, E2, E3, E4. by apply (so_req _ _ _ H).
Qed.

(** the list of pending requests only matters as a set *)
Lemma slots_pending rqs cs L L' : slots_ok rqs cs L -> (forall a, a ∈ L <-> a ∈ L') -> slots_ok rqs cs L'.
Proof.
  intros H HL. split; [apply H|..].
  - intros c i e a He Hq. destruct (so_qr _ _ _ H _ _ _ _ He Hq) as [Ha Hr]. split; [by apply HL|done].
  - intros a r Hr. destruct (so_req _ _ _ H _ _ Hr) as (k & e & Hk & He & Hu & Hp). exists k, e. split; [done|]. split; [done|]. split; [done|]. intros Ha. by apply Hp, HL.
Qed.

(** a request that fills nothing is done with *)
Lemma slots_done rqs cs L L' : slots_ok rqs cs L -> (forall a, a ∈ L' -> a ∈ L) -> (forall a, a ∈ L -> a ∉ L' -> ~ fills cs a) -> slots_ok rqs cs L'.
Proof.
  intros H Hs Hg. split; [apply H|..].
  - intros c i e a He Hq. destruct (so_qr _ _ _ H _ _ _ _ He Hq) as [Ha Hr]. split; [|done].
    destruct (decide (a ∈ L')) as [|Hn]; [done|]. exfalso. apply (Hg a Ha Hn). by exists c, i, e.
  - intros a r Hr. destruct (so_req _ _ _ H _ _ Hr) as (k & e & Hk & He & Hu & Hp). exists k, e. split; [done|]. split; [done|]. split; [done|]. intros Ha. by apply Hp, Hs.
Qed.

(** a pending request fills its slot exactly when the slot still has its number *)
Lemma pending_fills rqs cs L a r e : slots_ok rqs cs L -> rqs !! a = Some r -> ent cs (rq_cache r) (rq_entry r) = Some e -> cacheUID r <> UID e -> ~ fills cs a.
Proof.
  intros H Hr He Hne (c & i & e' & He' & Hq). destruct (so_qr _ _ _ H _ _ _ _ He' Hq) as [_ (r' & Hr' & Ec & Ei & Eu)].
  rewrite Hr in Hr'. injection Hr' as <-. rewrite Ec, Ei, He' in He. by injection He as <-.
Qed.

Lemma fills_own rqs cs L a r e : slots_ok rqs cs L -> rqs !! a = Some r -> ent cs (rq_cache r) (rq_entry r) = Some e -> qr e <> Some a -> ~ fills cs a.
Proof.
  intros H Hr He Hne (c & i & e' & He' & Hq). destruct (so_qr _ _ _ H _ _ _ _ He' Hq) as [_ (r' & Hr' & Ec & Ei & _)].
  rewrite Hr in Hr'. injection Hr' as <-. rewrite Ec, Ei, He' in He. congruence.
Qed.

(** *** A claim *)

Definition claimed (k : image_cache_t T) (i : nat) (e : entry) : image_cache_t T :=
  Cache (prefix k) (isPrefixRelative k) (suffix k) (s32 (nextUID k + 1)) (<[i := e]> (content k)) (activeRequests k + 1).

Lemma ent_claimed cs c k i e c' i' : (i < length (content k))%nat -> cs !! c = Some k ->
  ent (<[c := claimed k i e]> cs) c' i' = if decide (c' = c /\ i' = i) then Some e else ent cs c' i'.
Proof.
  intros Hi Hk. unfold ent. destruct (decide (c' = c)) as [->|Hc].
  - rewrite lookup_insert_eq, Hk. cbn. destruct (decide (i' = i)) as [->|Hne].
    + rewrite decide_True by done. by apply list_lookup_insert_eq.
    + rewrite decide_False by (intros [_ ?]; done). by apply list_lookup_insert_ne.
  - rewrite lookup_insert_ne by congruence. by rewrite decide_False by (intros [? _]; done).
Qed.

Lemma slots_claim rqs cs L c k i e0 e r a : slots_ok rqs cs L -> cs !! c = Some k -> content k !! i = Some e0 -> qr e0 = None -> nextUID k + 1 < 2 ^ 31 ->
  rqs !! a = None -> qr e = Some a -> UID e = nextUID k -> texture e = None -> (key e <> [] -> key e = claimed_for e) ->
  rq_cache r = c -> rq_entry r = i -> cacheUID r = nextUID k -> rq_value r = claimed_for e ->
  let cs' := <[c := claimed k i e]> cs in
  slots_ok (<[a := r]> rqs) cs' (a :: L) /\ cs_le cs cs' /\ (forall b, keeps b cs cs').
Proof.
  intros H Hk Hi Hq0 Hmax Hnew Hq Hu Ht Hkey Ec Ei Er Ev cs'. pose proof (lookup_lt_Some _ _ _ Hi) as Hlt.
  assert (He0 : ent cs c i = Some e0) by (unfold ent; rewrite Hk; exact Hi).
  destruct (so_entry _ _ _ H _ _ _ He0) as (k0 & Hk0 & Hu0 & _). rewrite Hk in Hk0. injection Hk0 as <-.
  assert (Hs : s32 (nextUID k + 1) = nextUID k + 1) by (apply s32_id; lia).
  assert (Hcs : forall c' k', cs !! c' = Some k' -> exists k1, cs' !! c' = Some k1 /\ nextUID k' <= nextUID k1 /\ suffix k1 = suffix k').
  { intros c' k' Hk'. unfold cs'. destruct (decide (c' = c)) as [->|Hne].
    - rewrite lookup_insert_eq. rewrite Hk in Hk'. injection Hk' as <-. eexists. split; [done|]. cbn. rewrite Hs. split; [lia|done].
    - rewrite lookup_insert_ne by congruence. exists k'. split; [done|]. split; [lia|done]. }
  assert (Hk' : cs' !! c = Some (claimed k i e)) by (unfold cs'; apply lookup_insert_eq).
  split; [split|split; [split|]].
  - intros c' i' e' He'. unfold cs' in He'. rewrite ent_claimed in He' by done. destruct (decide _) as [[-> ->]|Hne].
    + injection He' as <-. exists (claimed k i e). split; [done|]. cbn. rewrite Hs, Hu. split; [lia|]. split; [intros Hn; split; [by apply Hkey|lia]|]. intros t. by rewrite Ht.
    + destruct (so_entry _ _ _ H _ _ _ He') as (k1 & Hk1 & Hu1 & Hky & Htx). destruct (Hcs _ _ Hk1) as (k2 & Hk2 & Hle & Es). exists k2. rewrite Es. split; [done|]. split; [lia|done].
  - intros c' i' e' b He' Hqb. unfold cs' in He'. rewrite ent_claimed in He' by done. destruct (decide _) as [[-> ->]|Hne].
    + injection He' as <-. rewrite Hq in Hqb. injection Hqb as <-. split; [by left|]. exists r. rewrite lookup_insert_eq. rewrite Er, Hu. done.
    + destruct (so_qr _ _ _ H _ _ _ _ He' Hqb) as [HL (r' & Hr' & Hx)]. split; [by right|]. exists r'. by rewrite lookup_insert_ne by (intros ->; congruence).
  - intros b rb Hb. destruct (decide (b = a)) as [->|Hne].
    + rewrite lookup_insert_eq in Hb. injection Hb as <-. exists (claimed k i e), e. rewrite Ec, Ei. unfold cs' at 2. rewrite ent_claimed, decide_True by done.
      split; [done|]. split; [done|]. rewrite Er. cbn. split; [lia|]. by rewrite Ev.
    + rewrite lookup_insert_ne in Hb by congruence. destruct (so_req _ _ _ H _ _ Hb) as (k1 & e1 & Hk1 & He1 & Hu1 & Hp). destruct (Hcs _ _ Hk1) as (k2 & Hk2 & Hle & _).
      unfold cs' at 2. rewrite ent_claimed by done. destruct (decide _) as [[E1 E2]|Hno].
      * exists k2, e. split; [done|]. split; [done|]. split; [lia|]. intros _ E. exfalso. rewrite E1, Hk in Hk1. injection Hk1 as <-. lia.
      * exists k2, e1. split; [done|]. split; [done|]. split; [lia|]. intros Hin. apply elem_of_cons in Hin as [->|Hin]; [done|]. by apply Hp.
  - done.
  - intros c' k1 i' e' Hk1 He'. unfold cs' in He'. rewrite ent_claimed in He' by done. destruct (decide _) as [[-> ->]|Hno].
    + injection He' as <-. exists e0. split; [done|]. right. right. rewrite Hk in Hk1. injection Hk1 as <-. lia.
    + exists e'. split; [done|]. by left.
  - intros b c' i' e' He' Hqb. unfold cs'. rewrite ent_claimed by done. destruct (decide _) as [[-> ->]|Hno]; [|by exists e'].
    rewrite He0 in He'. injection He' as <-. congruence.
Qed.

Lemma keeps_trans a cs1 cs2 cs3 : keeps a cs1 cs2 -> keeps a cs2 cs3 -> keeps a cs1 cs3.
Proof. intros H1 H2 c i e He Hq. destruct (H1 c i e He Hq) as (e' & He' & Hq'). by apply (H2 c i e'). Qed.
Lemma cs_le_trans cs1 cs2 cs3 : cs_le cs1 cs2 -> cs_le cs2 cs3 -> cs_le cs1 cs3.
Proof.
  intros [A1 A2] [B1 B2]. split.
  - intros c k Hk. destruct (A1 c k Hk) as (k' & Hk' & Hn & Hs). destruct (B1 c k' Hk') as (k2 & Hk2 & Hn2 & Hs2). exists k2. split; [done|]. split; [lia|congruence].
  - intros c k i e3 Hk He3. destruct (A1 c k Hk) as (k' & Hk' & Hn & _). destruct (B2 c k' i e3 Hk' He3) as (e2 & He2 & Hc2). destruct (A2 c k i e2 Hk He2) as (e1 & He1 & Hc1).
    exists e1. split; [done|]. destruct Hc2 as [[E1 E2]|[E|E]]; [|by right; left|right; right; lia]. rewrite E1, E2. exact Hc1.
Qed.

(** the counters of a cache are not part of its slots *)
Lemma ent_active cs c n c' i : ent (alter (set_active n) c cs) c' i = ent cs c' i.
Proof.
  unfold ent. destruct (decide (c' = c)) as [->|Hne]; [|by rewrite lookup_alter_ne by congruence]. rewrite lookup_alter_eq. by destruct (cs !! c).
Qed.

Lemma cache_active (cs : cachemap) c n c' k : alter (set_active n) c cs !! c' = Some k -> exists k0, cs !! c' = Some k0 /\ nextUID k = nextUID k0 /\ suffix k = suffix k0.
Proof.
  destruct (decide (c' = c)) as [->|Hne]; [|rewrite lookup_alter_ne by congruence; eauto]. rewrite lookup_alter_eq. destruct (cs !! c) as [k0|]; [|done]. cbn. intros [= <-]. by exists k0.
Qed.

Lemma cache_active' (cs : cachemap) c n c' k0 : cs !! c' = Some k0 -> exists k, alter (set_active n) c cs !! c' = Some k /\ nextUID k = nextUID k0 /\ suffix k = suffix k0.
Proof.
  intros H. destruct (decide (c' = c)) as [->|Hne]; [|rewrite lookup_alter_ne by congruence; eauto]. rewrite lookup_alter_eq, H. cbn. by eexists.
Qed.

Lemma slots_active rqs cs L c n : slots_ok rqs cs L -> slots_ok rqs (alter (set_active n) c cs) L /\ cs_le cs (alter (set_active n) c cs) /\ forall a, keeps a cs (alter (set_active n) c cs).
Proof.
  intros H. split; [split|split; [split|]].
  - intros c' i e He. rewrite ent_active in He. destruct (so_entry _ _ _ H _ _ _ He) as (k & Hk & Hr). destruct (cache_active' _ c n _ _ Hk) as (k' & Hk' & En & Es). exists k'. by rewrite En, Es.
  - intros c' i e a. rewrite ent_active. apply H.
  - intros a r Hr. destruct (so_req _ _ _ H _ _ Hr) as (k & e & Hk & He & Hx). destruct (cache_active' _ c n _ _ Hk) as (k' & Hk' & En & Es). exists k', e. rewrite En, ent_active. done.
  - intros c' k Hk. destruct (cache_active' _ c n _ _ Hk) as (k' & Hk' & En & Es). exists k'. split; [done|]. split; [lia|done].
  - intros c' k i e _. rewrite ent_active. intros He. exists e. split; [done|]. by left.
  - intros a c' i e He Hq. rewrite ent_active. by exists e.
Qed.

(** a new cache *)
Lemma slots_new_cache rqs cs L c p b sfx n : slots_ok rqs cs L -> cs !! c = None ->
  let cs' := <[c := cacheInitCache p b sfx n]> cs in
  slots_ok rqs cs' L /\ cs_le cs cs' /\ forall a, keeps a cs cs'.
Proof.
  intros H Hc cs'. assert (Hold : forall c' k, cs !! c' = Some k -> cs' !! c' = Some k) by (intros c' k Hk; unfold cs'; rewrite lookup_insert_ne; [done|congruence]).
  assert (Hent : forall c' i e, ent cs' c' i = Some e -> (c' = c /\ e = cleared) \/ ent cs c' i = Some e).
  { intros c' i e. unfold ent, cs'. destruct (decide (c' = c)) as [->|Hne]; [|rewrite lookup_insert_ne by congruence; by right].
    rewrite lookup_insert_eq. cbn. intros He%lookup_replicate_1. left. split; [done|]. by destruct He. }
  assert (Hent' : forall c' i e, ent cs c' i = Some e -> ent cs' c' i = Some e).
  { intros c' i e. unfold ent. destruct (cs !! c') as [k|] eqn:Hk; [|done]. by rewrite (Hold _ _ Hk). }
  split; [split|split; [split|]].
  - intros c' i e He. destruct (Hent _ _ _ He) as [[-> ->]|He'].
    + eexists. split; [unfold cs'; apply lookup_insert_eq|]. cbn. split; [lia|done].
    + destruct (so_entry _ _ _ H _ _ _ He') as (k & Hk & Hx). exists k. by rewrite (Hold _ _ Hk).
  - intros c' i e a He Hq. destruct (Hent _ _ _ He) as [[-> ->]|He']; [done|]. by apply (so_qr _ _ _ H c' i e).
  - intros a r Hr. destruct (so_req _ _ _ H _ _ Hr) as (k & e & Hk & He & Hx). exists k, e. rewrite (Hold _ _ Hk), (Hent' _ _ _ He). done.
  - intros c' k Hk. exists k. rewrite (Hold _ _ Hk). split; [done|]. split; [lia|done].
  - intros c' k i e Hk He. destruct (Hent _ _ _ He) as [[-> ->]|He']; [congruence|]. exists e. split; [done|]. by left.
  - intros a c' i e He Hq. exists e. split; [by apply Hent'|done].
Qed.
End Slots.

(** ** The invariant *)

Section Invariant.
Context {T W : Type} `{!ArtLoader T W}.
Implicit Types (x : art T).

(** the requests that the art thread still has to fill a slot with, and the one it is
    done with *)
Definition wk_pend (w : worker (T := T)) : list addr :=
  match w with WHave a | WClear a | WLoading a | WLoaded a _ _ | WPublished a => [a] | _ => [] end.
Definition wk_fin (w : worker (T := T)) : list addr :=
  match w with WRelease a | WTest a | WRead a | WStore a _ | WFree a => [a] | _ => [] end.
Definition wk_current (w : worker (T := T)) : option addr :=
  match w with WHave a | WClear a | WLoading a | WLoaded a _ _ | WPublished a | WRelease a => Some a | _ => None end.
(** the request whose slot passed the checks *)
Definition wk_fills (w : worker (T := T)) : option addr :=
  match w with WClear a | WLoading a | WLoaded a _ _ | WPublished a => Some a | _ => None end.

(** the requests of a job: [P] still to be freed or queued again, [F] just freed from its slot *)
Definition task_rep (m : gmap addr links) (t : task) (P F : list addr) : Prop :=
  match t with
  | TFree p => chain m p P /\ F = []
  | TTest a nx | TRead a nx | TStore a nx _ | TKill a nx => F = [a] /\ chain m nx P
  end.
Definition split_rep (m : gmap addr links) (sp : option (option addr * option addr * option addr)) (P : list addr) : Prop :=
  match sp with
  | None => P = []
  | Some (p, kh, kt) => exists P1 P2, P = P1 ++ P2 /\ chain m p P1 /\ chain m kh P2 /\ (P1 <> [] -> kt = last P2)
  end.
Definition job_rep (m : gmap addr links) (j : job) (P F : list addr) : Prop :=
  exists P1 P2, P = P1 ++ P2 /\ task_rep m (j_task j) P1 F /\ split_rep m (j_split j) P2.
Definition jobs_rep (m : gmap addr links) (jobs : list job) (js : list (list addr * list addr)) : Prop := Forall2 (fun j y => job_rep m j y.1 y.2) jobs js.

Definition pendl (w : worker (T := T)) (Q : list addr) (js : list (list addr * list addr)) : list addr := wk_pend w ++ Q ++ concat js.*1.
Definition finl (w : worker (T := T)) (js : list (list addr * list addr)) : list addr := wk_fin w ++ concat js.*2.

Record inv x (rows : gmap nat row) (w : worker) (jobs : list job) (Q : list addr) (js : list (list addr * list addr)) : Prop := {
  i_rep : fifo_rep (queue x) Q;
  i_dom : dom (nodes (queue x)) = dom (requests x);
  i_jobs : jobs_rep (nodes (queue x)) jobs js;
  i_cnt a : (cnt a (pendl w Q js) + cnt a (finl w js))%nat = if decide (is_Some (requests x !! a)) then 1%nat else 0%nat;
  i_slots : slots_ok (requests x) (caches x) (pendl w Q js);
  i_rows : rows_ok rows (caches x);
  i_wk a : wk_fills w = Some a -> fills (caches x) a;
  i_img a result t : w = WLoaded a result (Some t) -> 0 <= result ->
    exists r k, requests x !! a = Some r /\ caches x !! rq_cache r = Some k /\ image_of (rq_value r) (suffix k) t;
  i_cur : gArtCurrentReq x = wk_current w /\ gArtActiveCount x = match wk_current w with Some _ => 1 | None => 0 end;
  i_flags : faulted x = false /\ gArtTerminate (vars x) = false /\ gArtShutdownAbandoned (vars x) = false;
}.

Definition sys_inv (s : sys T W) : Prop := exists Q js, inv (st s) (rows s) (wk s) (jobs s) Q js.

Section Facts.
Context {x : art T} {rows : gmap nat row} {w : worker (T := T)} {jobs : list job} {Q : list addr} {js : list (list addr * list addr)}.
Context (H : inv x rows w jobs Q js).

Lemma pend_allocated a : a ∈ pendl w Q js -> exists r, requests x !! a = Some r.
Proof.
  intros Ha%cnt_in. pose proof (i_cnt _ _ _ _ _ _ H a) as Hc. destruct (decide (is_Some (requests x !! a))) as [[r Hr]|Hn]; [by exists r|lia].
Qed.

Lemma pend_once a : (cnt a (wk_pend w) + cnt a (wk_fin w) + cnt a Q + cnt a (concat js.*1) + cnt a (concat js.*2) <= 1)%nat.
Proof.
  pose proof (i_cnt _ _ _ _ _ _ H a) as Hc. unfold pendl, finl in Hc. rewrite !cnt_app in Hc. destruct (decide _); lia.
Qed.

Lemma current_not_queued c : gArtCurrentReq x = Some c -> c ∉ Q.
Proof.
  destruct (i_cur _ _ _ _ _ _ H) as [-> _]. intros E Hin%cnt_in. pose proof (pend_once c) as Hc. destruct w; cbn in *; try done; injection E as ->; rewrite one_same in Hc; lia.
Qed.

Lemma jobs_not_queued a : a ∈ concat js.*1 -> a ∉ Q.
Proof. intros H1%cnt_in H2%cnt_in. pose proof (pend_once a). lia. Qed.

Lemma queued_node a : a ∈ pendl w Q js -> is_Some (nodes (queue x) !! a).
Proof. intros Ha. destruct (pend_allocated a Ha) as [r Hr]. apply elem_of_dom. rewrite (i_dom _ _ _ _ _ _ H). apply elem_of_dom. by exists r. Qed.
End Facts.

Lemma task_frame m m' t P F : (forall a, a ∈ P -> m' !! a = m !! a) -> task_rep m t P F -> task_rep m' t P F.
Proof. intros Hf. destruct t; cbn; intros [H1 H2]; (split; [|]); try done; by eapply chain_frame. Qed.
Lemma split_frame m m' sp P : (forall a, a ∈ P -> m' !! a = m !! a) -> split_rep m sp P -> split_rep m' sp P.
Proof.
  intros Hf. destruct sp as [[[p kh] kt]|]; cbn; [|done]. intros (P1 & P2 & -> & H1 & H2 & H3). exists P1, P2. split; [done|].
  split; [eapply chain_frame; [|exact H1]; intros a Ha; apply Hf; set_solver|]. split; [eapply chain_frame; [|exact H2]; intros a Ha; apply Hf; set_solver|done].
Qed.
Lemma job_frame m m' j P F : (forall a, a ∈ P -> m' !! a = m !! a) -> job_rep m j P F -> job_rep m' j P F.
Proof.
  intros Hf (P1 & P2 & -> & H1 & H2). exists P1, P2. split; [done|]. split; [eapply task_frame; [|exact H1]|eapply split_frame; [|exact H2]]; intros a Ha; apply Hf; set_solver.
Qed.
Lemma jobs_frame m m' jobs js : (forall a, a ∈ concat js.*1 -> m' !! a = m !! a) -> jobs_rep m jobs js -> jobs_rep m' jobs js.
Proof.
  intros Hf H. induction H as [|j y jobs js Hj H IH]; [constructor|]. constructor.
  - eapply job_frame; [|exact Hj]. intros a Ha. apply Hf. cbn. set_solver.
  - apply IH. intros a Ha. apply Hf. cbn. set_solver.
Qed.

(** *** The GUI thread *)

Lemma inv_vars x g rows w jobs Q js : inv x rows w jobs Q js -> gArtTerminate g = gArtTerminate (vars x) -> gArtShutdownAbandoned g = gArtShutdownAbandoned (vars x) ->
  inv (put_vars x g) rows w jobs Q js.
Proof. intros [] E1 E2. split; cbn; try done. by rewrite E1, E2. Qed.

Lemma inv_rows x rows w jobs Q js n r : inv x rows w jobs Q js -> row_ok r (caches x) -> inv x (<[n := r]> rows) w jobs Q js.
Proof.
  intros [] Hn. split; try done. intros m r' Hm. destruct (decide (m = n)) as [->|Hne].
  - rewrite lookup_insert_eq in Hm. by injection Hm as <-.
  - rewrite lookup_insert_ne in Hm by congruence. by apply (i_rows0 m).
Qed.

(** a store to one slot by a thread that leaves the requests alone *)
Lemma inv_entry x rows w jobs Q js c i e g : inv x rows w jobs Q js -> ent (caches x) c i = Some e ->
  (forall k, caches x !! c = Some k -> slot_change (suffix k) (pendl w Q js) e (g e)) ->
  inv (upd_entry x c i g) rows w jobs Q js /\ cs_le (caches x) (caches (upd_entry x c i g)).
Proof.
  intros H He Hg. destruct (slots_upd _ _ _ _ c i e g (i_slots _ _ _ _ _ _ H) He Hg) as (Hs & Hle & Hk); [done|done|]. split; [|exact Hle].
  destruct H. split; try done.
  - by eapply rows_ok_le.
  - intros a Ha. destruct (i_wk0 a Ha) as (c' & i' & e' & He' & Hq). destruct (so_qr _ _ _ i_slots0 _ _ _ _ He' Hq) as [HL _]. destruct (Hk a HL c' i' e' He' Hq) as (e2 & He2 & Hq2). by exists c', i', e2.
  - intros a res t Hw Hres. destruct (i_img0 a res t Hw Hres) as (r & k & Hr & Hkk & Him). destruct (le_cache _ _ Hle _ _ Hkk) as (k' & Hk' & _ & Es). exists r, k'. by rewrite Es.
Qed.

Lemma inv_touch x rows w jobs Q js c i e n : inv x rows w jobs Q js -> ent (caches x) c i = Some e ->
  inv (upd_entry x c i (set_used n)) rows w jobs Q js /\ cs_le (caches x) (caches (upd_entry x c i (set_used n))).
Proof.
  intros H He. apply (inv_entry _ _ _ _ _ _ _ _ e); [done|done|]. intros k Hk. destruct (so_entry _ _ _ (i_slots _ _ _ _ _ _ H) _ _ _ He) as (k' & Hk' & Hu & Hkey & Htex).
  rewrite Hk in Hk'. injection Hk' as <-. split; cbn; auto. intros a Hq. split; [done|]. by apply (so_qr _ _ _ (i_slots _ _ _ _ _ _ H) _ _ _ _ He Hq).
Qed.

(** a change of a request that its slot does not see *)
Lemma inv_request x rows w jobs Q js a g : inv x rows w jobs Q js -> (forall r, same_slot r (g r)) -> inv (upd_request x a g) rows w jobs Q js.
Proof.
  intros H Hg. assert (Hlook : forall b r', alter g a (requests x) !! b = Some r' -> exists r, requests x !! b = Some r /\ same_slot r r').
  { intros b r'. destruct (decide (b = a)) as [->|Hne]; [|rewrite lookup_alter_ne by congruence; intros Hb; exists r'; repeat split; done].
    rewrite lookup_alter_eq. destruct (requests x !! a) as [r|]; [|done]. cbn. intros [= <-]. exists r. split; [done|]. apply Hg. }
  assert (Hsome : forall b, is_Some (alter g a (requests x) !! b) <-> is_Some (requests x !! b)).
  { intros b. destruct (decide (b = a)) as [->|Hne]; [|by rewrite lookup_alter_ne by congruence]. by rewrite lookup_alter_eq, fmap_is_Some. }
  destruct H. split; cbn; try done.
  - by rewrite dom_alter_L.
  - intros b. rewrite i_cnt0. apply decide_ext. symmetry. apply Hsome.
  - eapply slots_requests; [exact i_slots0|exact Hlook|]. intros b _. apply Hsome.
  - intros b res t Hw Hres. destruct (i_img0 b res t Hw Hres) as (r & k & Hr & Hkk & Him). assert (Hb : is_Some (alter g a (requests x) !! b)) by (apply Hsome; by exists r).
    destruct Hb as [r' Hr']. destruct (Hlook b r' Hr') as (r0 & Hr0 & (E1 & _ & E3 & _)). rewrite Hr in Hr0. injection Hr0 as <-. exists r', k. by rewrite E1, E3.
Qed.

Lemma pendl_perm (w : worker (T := T)) Q Q' js : Q' ≡ₚ Q -> forall a, a ∈ pendl w Q' js <-> a ∈ pendl w Q js.
Proof. intros HQ a. unfold pendl. by rewrite HQ. Qed.

(** the queue in another order *)
Lemma inv_queue x rows w jobs Q js f' Q' : inv x rows w jobs Q js -> fifo_rep f' Q' -> Q' ≡ₚ Q -> dom (nodes f') = dom (nodes (queue x)) ->
  (forall b, b ∉ Q -> nodes f' !! b = nodes (queue x) !! b) -> inv (put_queue x f') rows w jobs Q' js.
Proof.
  intros H Hf HQ Hdom Hother. pose proof (pendl_perm w Q Q' js HQ) as Hp. assert (Hj : forall b, b ∈ concat js.*1 -> b ∉ Q) by (intros b; by apply (jobs_not_queued H)).
  destruct H. split; cbn; try done.
  - congruence.
  - eapply jobs_frame; [|exact i_jobs0]. intros b Hb. by apply Hother, Hj.
  - intros b. rewrite <- i_cnt0. unfold pendl. rewrite !cnt_app. by rewrite (cnt_perm b _ _ HQ).
  - eapply slots_pending; [exact i_slots0|]. intros b. symmetry. apply Hp.
Qed.

Lemma inv_adopt x rows w jobs Q js a isPriority : inv x rows w jobs Q js -> a ∈ pendl w Q js ->
  exists Q', inv (adopt x a isPriority) rows w jobs Q' js /\ caches (adopt x a isPriority) = caches x.
Proof.
  intros H Ha. unfold adopt. destruct (pend_allocated H a Ha) as [r Hr]. rewrite Hr.
  assert (H1 : inv (upd_request x a (set_focus (gArtFocusEpoch (vars x)))) rows w jobs Q js) by (apply inv_request; [done|by repeat split]).
  destruct (_ && _); [|by exists Q]. exists (promote Q a). split; [|done].
  pose proof (i_rep _ _ _ _ _ _ H1) as Hrep. cbn [queue upd_request] in Hrep.
  assert (Hc : forall c, gArtCurrentReq x = Some c -> c ∉ Q) by (intros c; by apply (current_not_queued H)).
  eapply inv_queue; [exact H1|apply artPromote_rep; done|apply promote_perm, (fr_nodup _ _ Hrep)|apply dom_artPromote|].
  intros b Hb. cbn. by eapply artPromote_other.
Qed.

Lemma inv_abort x rows w jobs Q js c v : inv x rows w jobs Q js ->
  inv (abort_other_background x c v) rows w jobs Q js /\ caches (abort_other_background x c v) = caches x.
Proof.
  intros H. unfold abort_other_background. destruct (caches x !! c) as [k|] eqn:Hk; [|done]. destruct (content k) as [|e [|]] eqn:Ek; [done| |done].
  destruct (streq _ _); [|done]. destruct (qr e) as [a|] eqn:Hq; [|done]. destruct (_ && _); [|done].
  assert (He : ent (caches x) c 0 = Some e) by (unfold ent; rewrite Hk; cbn; by rewrite Ek).
  destruct (so_qr _ _ _ (i_slots _ _ _ _ _ _ H) _ _ _ _ He Hq) as [_ (r & Hr & _)]. rewrite bool_decide_eq_true_2 by (by exists r).
  split; [|done]. apply inv_request; [done|by repeat split].
Qed.

Lemma claim_scan_spec (l : list (cache_entry_t T)) : forall i hold rtime best j, claim_scan l i hold rtime best = Some j ->
  best = Some j \/ exists e, (i <= j)%nat /\ l !! (j - i)%nat = Some e /\ qr e = None.
Proof.
  induction l as [|e l IH]; intros i hold rtime best j E; cbn in E; [by left|].
  assert (Hnext : forall rt b, claim_scan l (S i) hold rt b = Some j -> b = Some j \/ exists e', (i <= j)%nat /\ (e :: l) !! (j - i)%nat = Some e' /\ qr e' = None).
  { intros rt b Eb. destruct (IH _ _ _ _ _ Eb) as [|(e' & Hij & Hl & Hq)]; [by left|right]. exists e'. split; [lia|]. replace (j - i)%nat with (S (j - S i)) by lia. done. }
  destruct (qr e) as [a|] eqn:Hq; [by apply Hnext in E|]. destruct (hold && _); [by apply Hnext in E|]. destruct (_ <? _).
  - apply Hnext in E as [[= <-]|E]; [|by right]. right. exists e. split; [lia|]. by rewrite Nat.sub_diag.
  - by apply Hnext in E.
Qed.

Lemma inv_claim x rows w jobs Q js sup c i l v sio prio a k e0 : inv x rows w jobs Q js -> caches x !! c = Some k -> content k !! i = Some e0 -> qr e0 = None ->
  nextUID k + 1 < 2 ^ 31 -> requests x !! a = None ->
  exists Q', inv (claim x sup c i l v sio prio a) rows w jobs Q' js /\ cs_le (caches x) (caches (claim x sup c i l v sio prio a)) /\
    row_ok (Row c l v (Z.of_nat i) (nextUID k)) (caches (claim x sup c i l v sio prio a)).
Proof.
  intros H Hk Hi Hq0 Hmax Hnew. unfold claim. rewrite Hk. destruct (resolve_archive sup (gEnableArtTar (vars x)) l v) as [am ap]. set (g := vars x).
  set (e := Entry None (Some a) (guiFrameId g) (nextUID k) (if (length v <? KEY_SIZE)%nat then v else []) 0 v).
  set (r := Request c i l v (nextUID k) (gArtEpoch g) (gArtFailEpoch g) (gArtFocusEpoch g) false sio am ap).
  pose proof (lookup_lt_Some _ _ _ Hi) as Hlt. assert (He0 : ent (caches x) c i = Some e0) by (unfold ent; rewrite Hk; exact Hi).
  destruct (so_entry _ _ _ (i_slots _ _ _ _ _ _ H) _ _ _ He0) as (k0 & Hk0 & Hu0 & _). rewrite Hk in Hk0. injection Hk0 as <-.
  destruct (slots_claim _ _ _ c k i e0 e r a (i_slots _ _ _ _ _ _ H) Hk Hi Hq0 Hmax Hnew) as (Hs & Hle & Hkeep); try done.
  { unfold e. cbn [key claimed_for]. by destruct (length v <? KEY_SIZE)%nat. }
  change (Cache (prefix k) (isPrefixRelative k) (suffix k) (s32 (nextUID k + 1)) (<[i := e]> (content k)) (activeRequests k + 1)) with (claimed k i e).
  set (f0 := new_request (queue x) a).
  assert (Hna : a ∉ pendl w Q js) by (intros Ha; destruct (pend_allocated H a Ha); congruence). unfold pendl in Hna.
  assert (HaQ : a ∉ Q) by set_solver. assert (Haj : a ∉ concat js.*1) by set_solver.
  pose proof (new_request_rep _ _ a (i_rep _ _ _ _ _ _ H) HaQ) as Hrep0. fold f0 in Hrep0. assert (Hin0 : is_Some (nodes f0 !! a)) by (cbn; rewrite lookup_insert_eq; done).
  set (f := if prio && negb (sio && gArtNavActive g) then artPushFront f0 a else artPush f0 a).
  assert (HQ : exists Q', fifo_rep f Q' /\ Q' ≡ₚ a :: Q).
  { unfold f. destruct (_ && _); [exists (a :: Q); split; [by apply artPushFront_rep|done]|]. exists (Q ++ [a]). split; [by apply artPush_rep|]. symmetry. apply Permutation_cons_append. }
  destruct HQ as (Q' & Hrep & HQ).
  assert (Hdom : dom (nodes f) = {[a]} ∪ dom (nodes (queue x))) by (unfold f; destruct (_ && _); rewrite ?dom_artPushFront, ?dom_artPush; cbn; apply dom_insert_L).
  assert (Hoth : forall b, b ∉ Q -> b <> a -> nodes f !! b = nodes (queue x) !! b).
  { intros b Hb Hne. assert (E0 : nodes f0 !! b = nodes (queue x) !! b) by (cbn; by apply lookup_insert_ne). unfold f. destruct (_ && _); rewrite <- E0; [by eapply artPushFront_other|by eapply artPush_other]. }
  exists Q'. split; [|split; [exact Hle|]].
  - assert (Hjq : forall b, b ∈ concat js.*1 -> b ∉ Q) by (intros b; by apply (jobs_not_queued H)). destruct H. split; cbn; try done.
    + rewrite Hdom, dom_insert_L. by rewrite i_dom0.
    + eapply jobs_frame; [|exact i_jobs0]. intros b Hb. apply Hoth; [by apply Hjq|]. intros ->. done.
    + intros b. unfold pendl. rewrite !cnt_app, (cnt_perm b _ _ HQ). cbn [cnt]. pose proof (i_cnt0 b) as Hc. unfold pendl in Hc. rewrite !cnt_app in Hc.
      destruct (decide (b = a)) as [->|Hne].
      * rewrite one_same, lookup_insert_eq. rewrite (decide_True (P := is_Some (Some r))) by done. rewrite decide_False in Hc by (rewrite Hnew; by intros [? ?]). lia.
      * rewrite (one_ne b a Hne), lookup_insert_ne by congruence. lia.
    + eapply slots_pending; [exact Hs|]. intros b. unfold pendl. rewrite !elem_of_app, HQ, elem_of_cons, !elem_of_cons. rewrite !elem_of_app. tauto.
    + by eapply rows_ok_le.
    + intros b Hb. destruct (i_wk0 b Hb) as (c' & i' & e' & He' & Hq'). destruct (Hkeep b c' i' e' He' Hq') as (e2 & He2 & Hq2). by exists c', i', e2.
    + intros b res t Hw Hres. destruct (i_img0 b res t Hw Hres) as (r' & k' & Hr' & Hk' & Him). destruct (le_cache _ _ Hle _ _ Hk') as (k2 & Hk2 & _ & Es).
      exists r', k2. rewrite lookup_insert_ne by congruence. by rewrite Es.
  - intros _. cbn [rw_cache rw_id rw_uid rw_value caches]. exists (claimed k i e). split; [apply lookup_insert_eq|].
    cbn. rewrite s32_id by lia. split; [lia|]. intros e2. rewrite Nat2Z.id, ent_claimed, decide_True by done. intros [= <-] _. done.
Qed.

(** the outcome of drawing a row of value [v] *)
Record draw_ok (rows : gmap nat row) (w : worker (T := T)) (jobs : list job) (js : list (list addr * list addr)) (c : nat) (l : item_list_t) (v : bytes) (d : drawn T) : Prop := {
  do_inv : exists Q', inv (d_art d) rows w jobs Q' js;
  do_row : row_ok (Row c l v (d_id d) (d_uid d)) (caches (d_art d));
  do_tex t : d_tex d = Some (Some t) -> exists k, caches (d_art d) !! c = Some k /\ image_of v (suffix k) t;
}.

Lemma row_no_id c l v uid cs id : id < 0 -> row_ok (T := T) (Row c l v id uid) cs.
Proof. intros H Hid. cbn in Hid. lia. Qed.

(** the cases in which a slot answers *)
Lemma slot_answers x rows w jobs Q js c l v i e p : inv x rows w jobs Q js -> ent (caches x) c i = Some e -> claimed_for e = v -> 0 < UID e ->
  let x' := upd_entry x c i (set_used (guiFrameId (vars x))) in
  match qr e with
  | Some a => draw_ok rows w jobs js c l v (Drawn None (Z.of_nat i) (UID e) (adopt x' a p))
  | None => draw_ok rows w jobs js c l v (Drawn (Some (texture e)) (Z.of_nat i) (UID e) x')
  end.
Proof.
  intros H He Hv Hu x'. destruct (inv_touch _ _ _ _ _ _ c i e (guiFrameId (vars x)) H He) as [Hi Hle]. fold x' in Hi, Hle.
  destruct (so_entry _ _ _ (i_slots _ _ _ _ _ _ H) _ _ _ He) as (k & Hk & Hn & _ & Htex). destruct (le_cache _ _ Hle _ _ Hk) as (k' & Hk' & Hnn & Es).
  assert (Hrow : row_ok (Row c l v (Z.of_nat i) (UID e)) (caches x')).
  { intros _. cbn [rw_cache rw_id rw_uid rw_value]. exists k'. split; [done|]. split; [lia|]. rewrite Nat2Z.id. intros e' He' _.
    change (caches x') with (upd_slot (caches x) c i (set_used (guiFrameId (vars x)))) in He'. rewrite ent_upd, decide_True, He in He' by done. by injection He' as <-. }
  destruct (qr e) as [a|] eqn:Hq.
  - destruct (so_qr _ _ _ (i_slots _ _ _ _ _ _ H) _ _ _ _ He Hq) as [Ha _]. destruct (inv_adopt _ _ _ _ _ _ a p Hi Ha) as (Q' & Hi' & Ec).
    split; cbn; [by exists Q'|by rewrite Ec|done].
  - split; cbn; [by exists Q|done|]. intros t [= Ht]. exists k'. split; [done|]. rewrite Es, <- Hv. by apply Htex.
Qed.

Lemma by_id_ok x rows w jobs Q js c l v id uid p d : inv x rows w jobs Q js -> row_ok (Row c l v id uid) (caches x) ->
  cover_by_id x c id uid p = Some d -> draw_ok rows w jobs js c l v d.
Proof.
  intros H Hrow E. unfold cover_by_id in E. destruct (Z.ltb_spec id 0) as [|Hid]; [done|]. destruct (entry_at x c (Z.to_nat id)) as [e|] eqn:He; [|done]. cbn [mbind option_bind] in E.
  destruct (Z.eqb_spec (UID e) uid) as [Eu|]; [|done]. destruct (Hrow Hid) as (k & Hk & Hu & Hc). cbn [rw_cache rw_id rw_uid rw_value] in *.
  pose proof (slot_answers _ _ _ _ _ _ c l v (Z.to_nat id) e p H He (Hc e He Eu) ltac:(lia)) as Ha. rewrite Z2Nat.id, Eu in Ha by done.
  destruct (qr e) as [a|]; [by injection E as <-|]. destruct (lastUsed e =? 0); injection E as <-; [|done].
  split; cbn; [by exists Q|by apply row_no_id|done].
Qed.

Lemma by_key_ok x rows w jobs Q js c l v p d : inv x rows w jobs Q js -> cover_by_key x c v p = Some d -> draw_ok rows w jobs js c l v d.
Proof.
  intros H E. unfold cover_by_key in E. destruct (_ <? _)%nat; [|done]. destruct (caches x !! c) as [k|] eqn:Hk; [|done]. cbn [mbind option_bind] in E.
  destruct (find_index _ (content k)) as [i|] eqn:Hf; [|done]. cbn [mbind option_bind] in E. apply find_index_Some in Hf as ((e & Hi & Hkey) & _). rewrite Hi in E. cbn [mbind option_bind] in E.
  apply andb_prop in Hkey as [Hne Hv]. apply negb_true_iff, bool_decide_eq_false in Hne. apply bool_decide_eq_true in Hv.
  assert (He : ent (caches x) c i = Some e) by (unfold ent; rewrite Hk; exact Hi).
  destruct (so_entry _ _ _ (i_slots _ _ _ _ _ _ H) _ _ _ He) as (k' & Hk' & Hu & Hky & _). destruct (Hky Hne) as [Ec Hpos].
  pose proof (slot_answers _ _ _ _ _ _ c l v i e p H He ltac:(congruence) Hpos) as Ha.
  destruct (qr e) as [a|]; [by injection E as <-|]. destruct (lastUsed e =? 0).
  - destruct (_ =? _); [|done]. injection E as <-. split; cbn; [by exists Q|by apply row_no_id|done].
  - destruct (bool_decide _); [done|]. by injection E as <-.
Qed.

Lemma request_ok (s : sys T W) Q js sup c l uid v p alloc : inv (st s) (rows s) (wk s) (jobs s) Q js -> in_range s -> alloc_ok s alloc -> gArtRunning (vars (st s)) = true ->
  draw_ok (rows s) (wk s) (jobs s) js c l v (request_cover (st s) sup c l uid v p alloc).
Proof.
  intros H [_ Hr] Ha Hrun. unfold request_cover. assert (Hno : forall x, inv x (rows s) (wk s) (jobs s) Q js -> draw_ok (rows s) (wk s) (jobs s) js c l v (Drawn None (-1) uid x)).
  { intros x Hx. split; cbn; [by exists Q|by apply row_no_id|done]. }
  destruct (_ && _); [by apply Hno|]. destruct (inv_abort _ _ _ _ _ _ c v H) as [H1 Ec]. rewrite Ec.
  destruct (caches (st s) !! c) as [k|] eqn:Hk; [|by apply Hno]. destruct (claim_scan _ _ _ _ _) as [i|] eqn:Hs; [|by apply Hno]. rewrite Hrun.
  destruct alloc as [a|]; [|by apply Hno]. apply claim_scan_spec in Hs as [|(e & _ & Hi & Hq)]; [done|]. rewrite Nat.sub_0_r in Hi.
  destruct (inv_claim _ _ _ _ _ _ sup c i l v (cacheRequestIsSIO2 sup l v) p a k e H1) as (Q' & Hi' & Hle & Hrow); [by rewrite Ec|done|done|by eapply Hr| |].
  { cbn in Ha. unfold abort_other_background. rewrite Hk. destruct (content k) as [|e' [|]]; try done. destruct (streq _ _); [|done]. destruct (qr e') as [b|]; [|done].
    destruct (_ && _); [|done]. destruct (bool_decide _); [|done]. cbn. destruct (decide (a = b)) as [->|Hne]; [by rewrite lookup_alter_eq, Ha|by rewrite lookup_alter_ne by congruence]. }
  split; cbn; [by exists Q'|exact Hrow|done].
Qed.

Lemma draw_spec (s : sys T W) Q js n sup p alloc r t s' : inv (st s) (rows s) (wk s) (jobs s) Q js -> in_range s -> alloc_ok s alloc -> gArtRunning (vars (st s)) = true ->
  rows s !! n = Some r -> draw s n sup p alloc = Some (t, s') ->
  sys_inv s' /\ forall i, t = Some (Some i) -> exists k, caches (st s') !! rw_cache r = Some k /\ image_of (rw_value r) (suffix k) i.
Proof.
  intros H Hr Ha Hrun Hn E. unfold draw in E. rewrite Hn in E. cbn [mbind option_bind] in E. injection E as <- <-.
  set (d := cacheGetTextureEx _ _ _ _ _ _ _ _ _). pose proof (i_rows _ _ _ _ _ _ H n r Hn) as Hrow.
  assert (Hd : draw_ok (rows s) (wk s) (jobs s) js (rw_cache r) (rw_list r) (rw_value r) d).
  { unfold d, cacheGetTextureEx. destruct (bool_decide _); [split; cbn; [by exists Q|by destruct r|done]|].
    set (s1 := if p then put_st s (put_vars (st s) (artUpdateFocus (vars (st s)) (rw_list r) (rw_value r))) else s).
    assert (Es1 : (if p then put_vars (st s) (artUpdateFocus (vars (st s)) (rw_list r) (rw_value r)) else st s) = st s1) by (unfold s1; by destruct p). rewrite Es1.
    assert (Hfl : gArtTerminate (artUpdateFocus (vars (st s)) (rw_list r) (rw_value r)) = gArtTerminate (vars (st s)) /\
      gArtShutdownAbandoned (artUpdateFocus (vars (st s)) (rw_list r) (rw_value r)) = gArtShutdownAbandoned (vars (st s)) /\
      gArtRunning (artUpdateFocus (vars (st s)) (rw_list r) (rw_value r)) = gArtRunning (vars (st s))) by (unfold artUpdateFocus; by destruct (bool_decide _)).
    assert (H1 : inv (st s1) (rows s1) (wk s1) (jobs s1) Q js) by (unfold s1; destruct p; [|done]; apply inv_vars; [done|tauto..]).
    assert (Hc1 : caches (st s1) = caches (st s)) by (unfold s1; by destruct p).
    assert (Hrun1 : gArtRunning (vars (st s1)) = true) by (unfold s1; destruct p; [cbn; destruct Hfl as (_ & _ & ->)|]; done).
    assert (Hr1 : in_range s1) by (unfold s1; by destruct p). assert (Ha1 : alloc_ok s1 alloc) by (unfold s1; by destruct p).
    replace (rows s) with (rows s1) by (unfold s1; by destruct p). replace (wk s) with (wk s1) by (unfold s1; by destruct p). replace (jobs s) with (jobs s1) by (unfold s1; by destruct p).
    rewrite <- Hc1 in Hrow. clearbody s1. destruct (Z.eqb_spec (rw_id r) (-2)) as [E2|E2]; cbn [andb orb].
    - destruct (_ =? _); [split; cbn; [by exists Q|apply row_no_id; lia|done]|].
      destruct (cover_by_key _ _ _ _) as [d'|] eqn:Ek; [by eapply by_key_ok|]. by apply (request_ok s1 Q).
    - destruct (Z.eqb_spec (rw_id r) (-1)) as [E1|E1].
      + destruct (cover_by_key _ _ _ _) as [d'|] eqn:Ek; [by eapply by_key_ok|]. by apply (request_ok s1 Q).
      + destruct (cover_by_id _ _ _ _ _) as [d'|] eqn:Ei; [eapply by_id_ok; [exact H1| |exact Ei]; by destruct r|].
        destruct (cover_by_key _ _ _ _) as [d'|] eqn:Ek; [by eapply by_key_ok|]. by apply (request_ok s1 Q). }
  destruct Hd as [[Q' Hi] Hro Htx]. split; [|intros i Hi'; by apply Htx]. exists Q', js. cbn. by apply inv_rows.
Qed.

(** *** The art thread *)

Lemma inv_wk x rows w w' jobs Q js : inv x rows w jobs Q js -> wk_pend w' = wk_pend w -> wk_fin w' = wk_fin w -> wk_current w' = wk_current w ->
  (forall a, wk_fills w' = Some a -> fills (caches x) a) ->
  (forall a result t, w' = WLoaded a result (Some t) -> 0 <= result -> exists r k, requests x !! a = Some r /\ caches x !! rq_cache r = Some k /\ image_of (rq_value r) (suffix k) t) ->
  inv x rows w' jobs Q js.
Proof.
  intros [] Ep Ef Ec Hf Hi. assert (El : pendl w' Q js = pendl w Q js) by (unfold pendl; by rewrite Ep). assert (Efl : finl w' js = finl w js) by (unfold finl; by rewrite Ef).
  split; try done; rewrite ?El, ?Efl; try done. by rewrite Ec.
Qed.

(** the art thread is done with the slot of [a] *)
Lemma inv_finish x rows w w' jobs Q js a cs' : inv x rows w jobs Q js -> wk_pend w = [a] -> wk_fin w = [] -> wk_pend w' = [] -> wk_fin w' = [a] ->
  wk_current w' = wk_current w -> wk_fills w' = None -> (forall b r t, w' <> WLoaded b r t) ->
  slots_ok (requests x) cs' (pendl w' Q js) -> cs_le (caches x) cs' ->
  inv (Art (queue x) (requests x) cs' (gArtCurrentReq x) (gArtActiveCount x) (faulted x) (vars x)) rows w' jobs Q js.
Proof.
  intros [] Ep Ef Ep' Ef' Ec Hf Hl Hs Hle. split; cbn; try done.
  - intros b. rewrite <- i_cnt0. unfold pendl, finl. rewrite Ep, Ef, Ep', Ef'. rewrite !cnt_app. cbn. lia.
  - by eapply rows_ok_le.
  - intros b. by rewrite Hf.
  - intros b res t Hw. by destruct (Hl _ _ _ Hw).
  - by rewrite Ec.
Qed.

(** the same art, written with its fields *)
Lemma art_eta x : Art (queue x) (requests x) (caches x) (gArtCurrentReq x) (gArtActiveCount x) (faulted x) (vars x) = x.
Proof. by destruct x. Qed.

(** the slot of a request that passed the checks *)
Lemma wk_slot x rows w jobs Q js a : inv x rows w jobs Q js -> wk_fills w = Some a ->
  exists r k e, requests x !! a = Some r /\ caches x !! rq_cache r = Some k /\ ent (caches x) (rq_cache r) (rq_entry r) = Some e /\
    qr e = Some a /\ claimed_for e = rq_value r /\ a ∈ pendl w Q js.
Proof.
  intros H Hf. destruct (i_wk _ _ _ _ _ _ H a Hf) as (c & i & e & He & Hq). destruct (so_qr _ _ _ (i_slots _ _ _ _ _ _ H) _ _ _ _ He Hq) as [Ha (r & Hr & <- & <- & Eu)].
  destruct (so_req _ _ _ (i_slots _ _ _ _ _ _ H) _ _ Hr) as (k & e' & Hk & He' & _ & Hp). rewrite He in He'. injection He' as <-. destruct (Hp Ha Eu) as [_ Hv]. exists r, k, e. done.
Qed.

Lemma request_of_some (s : sys T W) a r e k : request_of s a = Some (r, e, k) ->
  requests (st s) !! a = Some r /\ caches (st s) !! rq_cache r = Some k /\ ent (caches (st s)) (rq_cache r) (rq_entry r) = Some e.
Proof.
  unfold request_of, ent. destruct (requests (st s) !! a) as [r'|]; [|done]. cbn. destruct (caches (st s) !! rq_cache r') as [k'|] eqn:Hk; [|done]. cbn.
  destruct (content k' !! rq_entry r') as [e'|] eqn:He; [|done]. cbn. intros [= <- <- <-]. rewrite Hk. done.
Qed.

(** what the art thread's own stores do to its slot *)
Lemma own_slot_change rqs cs L c i e k e' : slots_ok rqs cs L -> ent cs c i = Some e -> cs !! c = Some k -> UID e' = UID e -> claimed_for e' = claimed_for e ->
  key e' = key e -> qr e' = qr e -> (forall t, texture e' = Some t -> image_of (claimed_for e) (suffix k) t) -> slot_change (suffix k) L e e'.
Proof.
  intros H He Hk Eu Ec Ek Eq Ht. destruct (so_entry _ _ _ H _ _ _ He) as (k' & Hk' & _ & Hkey & _). split.
  - by left.
  - by rewrite Ek, Ec, Eu.
  - by rewrite Ec.
  - intros a. rewrite Eq. intros Hq. split; [done|]. by apply (so_qr _ _ _ H _ _ _ _ He Hq).
  - intros a. by rewrite Eq.
Qed.

Lemma drop_slot_change sfx L' (e e' : cache_entry_t T) a : qr e = Some a -> a ∉ L' -> qr e' = None ->
  (e' = cleared \/ UID e' = UID e /\ claimed_for e' = claimed_for e /\ (key e' <> [] -> key e' = claimed_for e' /\ 0 < UID e') /\ (forall t, texture e' = Some t -> image_of (claimed_for e') sfx t)) ->
  slot_change sfx L' e e'.
Proof.
  intros Hq Ha Hq' Hc. split.
  - destruct Hc as [->|(E1 & E2 & _)]; [by right|by left].
  - destruct Hc as [->|(_ & _ & Hk & _)]; [done|exact Hk].
  - destruct Hc as [->|(_ & _ & _ & Ht)]; [done|exact Ht].
  - intros b. by rewrite Hq'.
  - intros b Hb HL. rewrite Hq in Hb. by injection Hb as <-.
Qed.

Lemma pop_cases Q (p : addr -> bool) nav : pop Q p nav = (None, Q) \/ exists a Q', Q = a :: Q' /\ pop Q p nav = (Some a, Q').
Proof. destruct Q as [|a Q]; [by left|]. cbn. destruct (p a && nav); [by left|]. right. by exists a, Q. Qed.

Lemma pop_ok x rows jobs Q js : inv x rows WIdle jobs Q js ->
  let '(p, x') := worker_pop x in exists Q', inv x' rows (match p with Some a => WHave a | None => WIdle end) jobs Q' js.
Proof.
  intros H. unfold worker_pop. set (sf := fun a => from_option sio2 false (requests x !! a)). set (nav := gArtNavActive (vars x)).
  destruct (artPop_rep (queue x) Q sf nav (i_rep _ _ _ _ _ _ H)) as [E1 E2]. pose proof (dom_artPop (queue x) sf nav) as Hdom.
  pose proof (artPop_other (queue x) Q sf nav) as Hoth. specialize (fun b => Hoth b (i_rep _ _ _ _ _ _ H)). destruct (artPop (queue x) sf nav) as [p f]. cbn [fst snd] in *.
  assert (Hj : forall b, b ∈ concat js.*1 -> b ∉ Q) by (intros b; by apply (jobs_not_queued H)).
  destruct (pop_cases Q sf nav) as [Ep|(a & Q' & -> & Ep)]; rewrite Ep in *; cbn [fst snd] in *; subst p.
  - exists Q. by eapply inv_queue.
  - exists Q'. destruct H. destruct i_cur0 as [Ec Ea]. cbn in Ec, Ea. split; cbn; try done.
    + congruence.
    + eapply jobs_frame; [|exact i_jobs0]. intros b Hb. by apply Hoth, Hj.
    + split; [done|lia].
Qed.

(** the request the art thread is done with is no longer pending *)
Lemma fin_not_pending x rows w jobs Q js a w' : inv x rows w jobs Q js -> wk_pend w = [a] -> wk_pend w' = [] -> a ∉ pendl w' Q js.
Proof.
  intros H Ep Ep'. pose proof (pend_once H a) as Hone. rewrite Ep in Hone. cbn in Hone. rewrite one_same in Hone. unfold pendl. rewrite Ep'. cbn [app].
  rewrite elem_of_app. intros [Ha%cnt_in|Ha%cnt_in]; lia.
Qed.

Lemma pendl_finish w w' Q js a : wk_pend w = [a] -> wk_pend w' = [] ->
  (forall b, b ∈ pendl w' Q js -> b ∈ pendl w Q js) /\ (forall b, b ∈ pendl w Q js -> b ∉ pendl w' Q js -> b = a).
Proof. intros E E'. unfold pendl. rewrite E, E'. cbn. split; [set_solver|]. intros b [->|Hb]%elem_of_cons Hn; done. Qed.

Section Worker.
Context (s : sys T W) (Q : list addr) (js : list (list addr * list addr)).

Lemma have_ok a s' : inv (st s) (rows s) (WHave a) (jobs s) Q js -> gCacheLoadsCancelled (vars (st s)) = false -> wk s = WHave a -> worker_step s = Some s' -> sys_inv s'.
Proof.
  intros H Hlive Hw E. unfold worker_step in E. rewrite Hw in E. pose proof (i_slots _ _ _ _ _ _ H) as Hs.
  destruct (request_of s a) as [[[r e] k]|] eqn:Er; [|done]. injection E as <-. apply request_of_some in Er as (Hr & Hk & He).
  destruct (pendl_finish (WHave a) (WRelease a) Q js a eq_refl eq_refl) as [Hsub Hgone].
  assert (Hfin : ~ fills (caches (st s)) a -> sys_inv (put_wk s (st s) (WRelease a))).
  { intros Hnf. exists Q, js. cbn. rewrite <- (art_eta (st s)). eapply (inv_finish _ _ (WHave a) (WRelease a)); try done; [|apply cs_le_refl].
    eapply slots_done; [exact Hs|done|]. intros b Hb Hn. by rewrite (Hgone b Hb Hn). }
  assert (Hpass : cacheUID r = UID e -> fills (caches (st s)) a).
  { intros Eu. destruct (so_req _ _ _ Hs _ _ Hr) as (k' & e' & _ & He' & _ & Hp). rewrite He in He'. injection He' as <-. destruct (Hp ltac:(unfold pendl; cbn; set_solver) Eu) as [Hq _].
    by exists (rq_cache r), (rq_entry r), e. }
  unfold load_checks. rewrite Hlive. destruct (Z.eqb_spec (cacheUID r) (UID e)) as [Eu|Eu]; cbn [negb]; [|apply Hfin; by eapply pending_fills].
  assert (Hgo : forall w', w' = WClear a \/ w' = WLoading a -> sys_inv (put_wk s (st s) w')).
  { intros w' Hw'. exists Q, js. cbn. eapply (inv_wk _ _ (WHave a)); [exact H|destruct Hw' as [->| ->]; done..| |].
    - intros b Hb. destruct Hw' as [->| ->]; injection Hb as <-; by apply Hpass.
    - intros b res t Hx. destruct Hw' as [->| ->]; done. }
  destruct (negb _); [apply Hgo; by left|]. destruct (_ <? _); [apply Hgo; by left|]. destruct (negb _); [apply Hgo; by left|]. destruct (abortRequested r); apply Hgo; [by left|by right].
Qed.

(** the two places where the art thread lets go of its slot *)
Lemma let_go_ok a w (g : cache_entry_t T -> cache_entry_t T) s' : inv (st s) (rows s) w (jobs s) Q js -> (w = WClear a /\ g = cacheClearItem \/ w = WPublished a /\ g = set_qr None) -> wk s = w ->
  worker_step s = Some s' -> sys_inv s'.
Proof.
  intros H Hwg Hw E. pose proof (i_slots _ _ _ _ _ _ H) as Hs. assert (Hf : wk_fills w = Some a) by (destruct Hwg as [[-> _]|[-> _]]; done).
  assert (Hp : wk_pend w = [a]) by (destruct Hwg as [[-> _]|[-> _]]; done). destruct (wk_slot _ _ _ _ _ _ a H Hf) as (r & k & e & Hr & Hk & He & Hq & _).
  destruct (pendl_finish w (WRelease a) Q js a Hp eq_refl) as [Hsub Hgone].
  destruct (slots_upd _ _ _ (pendl (WRelease a) Q js) _ _ e g Hs He) as (Hs' & Hle & _).
  { intros k2 Hk2. apply drop_slot_change with a; [done|by eapply fin_not_pending|by destruct Hwg as [[_ ->]|[_ ->]]|]. destruct Hwg as [[_ ->]|[_ ->]]; [by left|right].
    destruct (so_entry _ _ _ Hs _ _ _ He) as (k3 & Hk3 & _ & Hky & Htx). rewrite Hk2 in Hk3. by injection Hk3 as <-. }
  { done. }
  { intros b Hb Hn. left. by rewrite (Hgone b Hb Hn). }
  assert (Es : s' = put_wk s (upd_entry (st s) (rq_cache r) (rq_entry r) g) (WRelease a)).
  { unfold worker_step in E. rewrite Hw in E. destruct Hwg as [[-> ->]|[-> ->]]; (destruct (request_of s a) as [[[r' e'] k']|] eqn:Er; [|done]); injection E as <-;
      apply request_of_some in Er as (Hr' & _ & _); rewrite Hr in Hr'; by injection Hr' as <-. }
  subst s'. exists Q, js. cbn. eapply (inv_finish _ _ w (WRelease a)); try done; by destruct Hwg as [[-> _]|[-> _]].
Qed.

Lemma loading_ok a s' : inv (st s) (rows s) (WLoading a) (jobs s) Q js -> wk s = WLoading a -> worker_step s = Some s' -> sys_inv s'.
Proof.
  intros H Hw E. unfold worker_step in E. rewrite Hw in E. destruct (request_of s a) as [[[r e] k]|] eqn:Er; [|done].
  apply request_of_some in Er as (Hr & Hk & _). cbn [mbind option_bind] in E.
  destruct (load_image (world s) (gEnableArtTar (vars (st s))) r k) as [[result t] w2] eqn:El. injection E as <-. exists Q, js. cbn.
  eapply (inv_wk _ _ (WLoading a)); [exact H|done..| |].
  - intros b [= <-]. by apply (i_wk _ _ _ _ _ _ H).
  - intros b res t' [= <- <- ->] Hres. exists r, k. split; [done|]. split; [done|]. exists (world s), w2, (gEnableArtTar (vars (st s))), r, k, result. done.
Qed.

Lemma loaded_ok a result t s' : inv (st s) (rows s) (WLoaded a result t) (jobs s) Q js -> wk s = WLoaded a result t -> worker_step s = Some s' -> sys_inv s'.
Proof.
  intros H Hw E. unfold worker_step in E. rewrite Hw in E. destruct (i_flags _ _ _ _ _ _ H) as (_ & _ & Hab). pose proof (i_slots _ _ _ _ _ _ H) as Hs.
  destruct (wk_slot _ _ _ _ _ _ a H eq_refl) as (r & k & e & Hr & Hk & He & Hq & Hv & _). destruct (request_of s a) as [[[r' e'] k']|] eqn:Er; [|done].
  apply request_of_some in Er as (Hr' & _ & _). rewrite Hr in Hr'. injection Hr' as <-. cbn [mbind option_bind] in E. unfold load_outcome in E. rewrite Hab in E.
  assert (Hfl : forall x', (inv x' (rows s) (WLoaded a result t) (jobs s) Q js) -> inv x' (rows s) (WPublished a) (jobs s) Q js).
  { intros x' Hx. eapply (inv_wk _ _ (WLoaded a result t)); [exact Hx|done..| |done]. intros b [= <-]. by apply (i_wk _ _ _ _ _ _ Hx). }
  assert (Hst : forall (g : cache_entry_t T -> cache_entry_t T), (forall e0 : cache_entry_t T, UID (g e0) = UID e0 /\ claimed_for (g e0) = claimed_for e0 /\ key (g e0) = key e0 /\ qr (g e0) = qr e0) ->
    (forall t', texture (g e) = Some t' -> image_of (claimed_for e) (suffix k) t') -> sys_inv (put_wk s (upd_entry (st s) (rq_cache r) (rq_entry r) g) (WPublished a))).
  { intros g Hg Ht. exists Q, js. cbn. apply Hfl. apply (inv_entry _ _ _ _ _ _ _ _ e); [done|done|]. intros k2 Hk2. rewrite Hk in Hk2. injection Hk2 as <-. destruct (Hg e) as (E1 & E2 & E3 & E4).
    by apply (own_slot_change (requests (st s)) (caches (st s)) _ (rq_cache r) (rq_entry r)). }
  assert (Hc : sys_inv (put_wk s (st s) (WClear a))).
  { exists Q, js. cbn. eapply (inv_wk _ _ (WLoaded a result t)); [exact H|done..| |done]. intros b [= <-]. by apply (i_wk _ _ _ _ _ _ H). }
  destruct (Z.leb_spec 0 result) as [Hres|_].
  - injection E as <-. apply Hst; [done|]. cbn. intros t' ->. rewrite Hv. destruct (i_img _ _ _ _ _ _ H a result t' eq_refl Hres) as (r2 & k2 & Hr2 & Hk2 & Him).
    rewrite Hr in Hr2. injection Hr2 as <-. rewrite Hk in Hk2. by injection Hk2 as <-.
  - destruct (abortRequested r); [by injection E as <-|]. destruct (negb _); [by injection E as <-|]. injection E as <-. apply Hst; [done|]. cbn. intros t' Ht.
    destruct (so_entry _ _ _ Hs _ _ _ He) as (k3 & Hk3 & _ & _ & Htx). rewrite Hk in Hk3. injection Hk3 as <-. by apply Htx.
Qed.
End Worker.

(** the counter of a cache *)
Lemma inv_active x rows w jobs Q js c n : inv x rows w jobs Q js -> inv (upd_cache x c (set_active n)) rows w jobs Q js.
Proof.
  intros []. destruct (slots_active _ _ _ c n i_slots0) as (Hs & Hle & Hk). split; cbn; try done.
  - by eapply rows_ok_le.
  - intros a Ha. destruct (i_wk0 a Ha) as (c' & i & e & He & Hq). destruct (Hk a c' i e He Hq) as (e' & He' & Hq'). by exists c', i, e'.
  - intros a res t Hw Hres. destruct (i_img0 a res t Hw Hres) as (r & k & Hr & Hkk & Him). destruct (le_cache _ _ Hle _ _ Hkk) as (k' & Hk' & _ & Es). exists r, k'. by rewrite Es.
Qed.

Lemma inv_store x rows w jobs Q js a n : inv x rows w jobs Q js -> inv (store_active x a n) rows w jobs Q js.
Proof. intros H. unfold store_active. destruct (requests x !! a); [by apply inv_active|done]. Qed.

(** a request that fills no slot is freed *)
Lemma slots_free rqs (cs : gmap nat (image_cache_t T)) L a : slots_ok rqs cs L -> a ∉ L -> slots_ok (delete a rqs) cs L.
Proof.
  intros H Ha. eapply slots_requests; [exact H|..].
  - intros b r [_ Hb]%lookup_delete_Some. by exists r.
  - intros b Hb. rewrite lookup_delete_ne; [done|]. by intros ->.
Qed.

Lemma inv_free x rows w w' jobs jobs' Q js js' a : inv x rows w jobs Q js ->
  (forall b, (cnt b (pendl w Q js) + cnt b (finl w js) = one b a + (cnt b (pendl w' Q js') + cnt b (finl w' js')))%nat) ->
  (forall b, b ∈ pendl w' Q js' <-> b ∈ pendl w Q js) -> a ∉ pendl w Q js ->
  jobs_rep (nodes (queue x)) jobs' js' -> wk_current w' = wk_current w -> wk_fills w' = wk_fills w -> (forall b r t, w' = WLoaded b r t -> w = w') ->
  inv (free_art x a) rows w' jobs' Q js'.
Proof.
  intros H Hc Hp Ha Hj Ecur Ef Hl. assert (HaQ : a ∉ Q) by (intros Hin; apply Ha; unfold pendl; set_solver).
  assert (Haj : a ∉ concat js'.*1) by (intros Hin; apply Ha, Hp; unfold pendl; set_solver).
  assert (Hal : is_Some (requests x !! a)).
  { destruct (decide (is_Some (requests x !! a))) as [|Hn]; [done|]. pose proof (i_cnt _ _ _ _ _ _ H a) as Hca. rewrite (Hc a), one_same, decide_False in Hca by done. lia. }
  destruct H. split; cbn; try done.
  - by apply free_request_rep.
  - by rewrite !dom_delete_L, i_dom0.
  - eapply jobs_frame; [|exact Hj]. intros b Hb. apply lookup_delete_ne. by intros ->.
  - intros b. pose proof (i_cnt0 b) as Hcb. rewrite Hc in Hcb. destruct (decide (b = a)) as [->|Hne].
    + rewrite one_same, decide_True in Hcb by done. rewrite lookup_delete_eq, decide_False by (by intros [? ?]). lia.
    + rewrite one_ne in Hcb by done. rewrite lookup_delete_ne by congruence. lia.
  - apply slots_free; [|by rewrite Hp]. eapply slots_pending; [exact i_slots0|]. intros b. symmetry. apply Hp.
  - intros b. rewrite Ef. apply i_wk0.
  - intros b res t Hw Hres. rewrite <- (Hl _ _ _ Hw) in Hw. destruct (i_img0 b res t Hw Hres) as (r & k & Hr & Hk & Him). exists r, k. split; [|done].
    rewrite lookup_delete_ne; [done|]. intros <-. apply Ha. unfold pendl. rewrite Hw. cbn. by left.
  - by rewrite Ecur.
Qed.

Lemma worker_ok (s s' : sys T W) Q js : inv (st s) (rows s) (wk s) (jobs s) Q js -> gCacheLoadsCancelled (vars (st s)) = false -> worker_step s = Some s' -> sys_inv s'.
Proof.
  intros H Hlive E. destruct (i_flags _ _ _ _ _ _ H) as (_ & Hterm & _). destruct (wk s) as [|a|a|a|a result t|a|a|a|a|a v|a|] eqn:Hw;
    [|by eapply have_ok|by eapply (let_go_ok s Q js a _ cacheClearItem); eauto|by eapply loading_ok|by eapply loaded_ok|by eapply (let_go_ok s Q js a _ (set_qr None)); eauto|..];
    unfold worker_step in E; rewrite Hw in E.
  - rewrite Hterm in E. pose proof (pop_ok _ _ _ _ _ H) as Hp. destruct (worker_pop (st s)) as [p x]. injection E as <-. destruct Hp as [Q' Hp]. by exists Q', js.
  - injection E as <-. exists Q, js. cbn. destruct H. destruct i_cur0 as [Ec Ea]. cbn in Ec, Ea. split; cbn; try done. unfold release. cbn. rewrite Ec, Ea. by rewrite bool_decide_eq_true_2.
  - destruct (active_of (st s) a) as [v|]; [|done]. injection E as <-. exists Q, js. cbn. destruct (0 <? v); (eapply (inv_wk _ _ (WTest a)); done).
  - destruct (active_of (st s) a) as [v|]; [|done]. injection E as <-. exists Q, js. cbn. eapply (inv_wk _ _ (WRead a)); done.
  - injection E as <-. exists Q, js. cbn. apply inv_store. eapply (inv_wk _ _ (WStore a v)); done.
  - injection E as <-. exists Q, js. cbn. pose proof (pend_once H a) as Hone. cbn in Hone. rewrite one_same in Hone. eapply (inv_free _ _ (WFree a) WIdle); try done.
    + intros b. unfold pendl, finl. cbn. lia.
    + unfold pendl. cbn. rewrite elem_of_app. intros [Ha%cnt_in|Ha%cnt_in]; lia.
    + apply H.
  - done.
Qed.

(** *** The threads that cancel *)

(** requests change hands; the slots may have changed with them *)
Lemma inv_regroup x rows w jobs jobs' Q Q' js js' f' cs' : inv x rows w jobs Q js -> fifo_rep f' Q' -> dom (nodes f') = dom (nodes (queue x)) -> jobs_rep (nodes f') jobs' js' ->
  (forall b, (cnt b (pendl w Q' js') + cnt b (finl w js') = cnt b (pendl w Q js) + cnt b (finl w js))%nat) ->
  slots_ok (requests x) cs' (pendl w Q' js') -> cs_le (caches x) cs' -> (forall a, wk_fills w = Some a -> keeps a (caches x) cs') ->
  inv (Art f' (requests x) cs' (gArtCurrentReq x) (gArtActiveCount x) (faulted x) (vars x)) rows w jobs' Q' js'.
Proof.
  intros [] Hf Hd Hj Hc Hs Hle Hk. split; cbn; try done.
  - by rewrite Hd.
  - intros b. by rewrite Hc.
  - by eapply rows_ok_le.
  - intros a Ha. destruct (i_wk0 a Ha) as (c & i & e & He & Hq). destruct (Hk a Ha c i e He Hq) as (e' & He' & Hq'). by exists c, i, e'.
  - intros a res t Hw Hres. destruct (i_img0 a res t Hw Hres) as (r & k & Hr & Hkk & Him). destruct (le_cache _ _ Hle _ _ Hkk) as (k' & Hk' & _ & Es). exists r, k'. by rewrite Es.
Qed.

(** only the job moved *)
Lemma inv_rejob x rows w jobs jobs' Q js js' : inv x rows w jobs Q js -> jobs_rep (nodes (queue x)) jobs' js' ->
  concat js'.*1 = concat js.*1 -> concat js'.*2 = concat js.*2 -> inv x rows w jobs' Q js'.
Proof.
  intros H Hj E1 E2. assert (Ep : pendl w Q js' = pendl w Q js) by (unfold pendl; by rewrite E1). assert (Ef : finl w js' = finl w js) by (unfold finl; by rewrite E2).
  rewrite <- (art_eta x). eapply inv_regroup; [exact H|apply H|done|exact Hj|..].
  - intros b. by rewrite Ep, Ef.
  - rewrite Ep. apply H.
  - apply cs_le_refl.
  - intros a _ c i e He Hq. by exists e.
Qed.

Lemma wk_fills_pend (w : worker (T := T)) a : wk_fills w = Some a -> wk_pend w = [a].
Proof. destruct w; cbn; congruence. Qed.

(** the slot of a request that is let go by [artFreeChain] *)
Lemma inv_free_slot x rows w jobs jobs' Q js js' a : inv x rows w jobs Q js -> jobs_rep (nodes (queue x)) jobs' js' ->
  a ∈ concat js.*1 -> a ∉ concat js'.*1 -> (forall b, (cnt b (concat js'.*1) + one b a = cnt b (concat js.*1))%nat) ->
  (forall b, (cnt b (concat js'.*2) = one b a + cnt b (concat js.*2))%nat) -> inv (free_slot x a) rows w jobs' Q js'.
Proof.
  intros H Hj Hin Hout C1 C2. pose proof (i_slots _ _ _ _ _ _ H) as Hs. pose proof (pend_once H a) as Hone. apply cnt_in in Hin as Hcnt.
  assert (Hp : a ∈ pendl w Q js) by (unfold pendl; set_solver). destruct (pend_allocated H a Hp) as [r Hr].
  assert (Hin' : forall b, b ∈ pendl w Q js' -> b ∈ pendl w Q js).
  { intros b. rewrite !cnt_in. unfold pendl. rewrite !cnt_app. specialize (C1 b). lia. }
  assert (Hgone : forall b, b ∈ pendl w Q js -> b ∉ pendl w Q js' -> b = a).
  { intros b Hb Hn. destruct (decide (b = a)) as [|Hne]; [done|exfalso]. apply Hn. rewrite cnt_in in *. revert Hb. unfold pendl. rewrite !cnt_app. specialize (C1 b). rewrite (one_ne b a Hne) in C1. lia. }
  assert (Hna : a ∉ pendl w Q js').
  { rewrite cnt_in. unfold pendl. rewrite !cnt_app. apply (not_iff_compat (cnt_in a _)) in Hout. lia. }
  assert (Hcs : forall b, (cnt b (pendl w Q js') + cnt b (finl w js') = cnt b (pendl w Q js) + cnt b (finl w js))%nat).
  { intros b. unfold pendl, finl. rewrite !cnt_app. specialize (C1 b). specialize (C2 b). lia. }
  destruct (so_req _ _ _ Hs _ _ Hr) as (k & e & Hk & He & _). unfold free_slot. rewrite Hr. change (entry_at x (rq_cache r) (rq_entry r)) with (ent (caches x) (rq_cache r) (rq_entry r)). rewrite He.
  assert (Hwk : forall b, wk_fills w = Some b -> b ∈ pendl w Q js').
  { intros b Hb%wk_fills_pend. unfold pendl. rewrite Hb. by left. }
  destruct (bool_decide (qr e = Some a)) eqn:Eq.
  - apply bool_decide_eq_true in Eq. destruct (slots_upd _ _ _ (pendl w Q js') _ _ e cacheClearItem Hs He) as (Hs' & Hle & Hkeep).
    + intros k2 _. apply drop_slot_change with a; [done|done|done|by left].
    + done.
    + intros b Hb Hn. left. by rewrite (Hgone b Hb Hn).
    + eapply inv_regroup; [exact H|apply H|done|exact Hj|exact Hcs|exact Hs'|exact Hle|]. intros b Hb. by apply Hkeep, Hwk.
  - apply bool_decide_eq_false in Eq. rewrite <- (art_eta x). eapply inv_regroup; [exact H|apply H|done|exact Hj|exact Hcs| |apply cs_le_refl|].
    + eapply slots_done; [exact Hs|exact Hin'|]. intros b Hb Hn. rewrite (Hgone b Hb Hn). by eapply fills_own.
    + intros b _ c i e2 He2 Hq2. by exists e2.
Qed.

Lemma jobs_split m j1 j j2 js : jobs_rep m (j1 ++ j :: j2) js ->
  exists js1 P F js2, js = js1 ++ (P, F) :: js2 /\ jobs_rep m j1 js1 /\ job_rep m j P F /\ jobs_rep m j2 js2.
Proof. intros (js1 & [|[P F] js2] & H1 & H2 & ->)%Forall2_app_inv_l; inversion H2; subst. exists js1, P, F, js2. done. Qed.

Lemma jobs_join m j1 j j2 js1 P F js2 : jobs_rep m j1 js1 -> job_rep m j P F -> jobs_rep m j2 js2 -> jobs_rep m (j1 ++ [j] ++ j2) (js1 ++ (P, F) :: js2).
Proof. intros H1 Hj H2. apply Forall2_app; [done|]. by constructor. Qed.

Lemma cnt_P b (js1 : list (list addr * list addr)) P F js2 : cnt b (concat (js1 ++ (P, F) :: js2).*1) = (cnt b (concat js1.*1) + cnt b P + cnt b (concat js2.*1))%nat.
Proof. rewrite fmap_app, concat_app, cnt_app. cbn. rewrite cnt_app. lia. Qed.
Lemma cnt_F b (js1 : list (list addr * list addr)) P F js2 : cnt b (concat (js1 ++ (P, F) :: js2).*2) = (cnt b (concat js1.*2) + cnt b F + cnt b (concat js2.*2))%nat.
Proof. rewrite fmap_app, concat_app, cnt_app. cbn. rewrite cnt_app. lia. Qed.

Section Job.
Context {x : art T} {rows : gmap nat row} {w : worker (T := T)} {j1 : list job} {j : job} {j2 : list job} {Q : list addr} {js1 js2 : list (list addr * list addr)} {P F : list addr}.
Context (H : inv x rows w (j1 ++ j :: j2) Q (js1 ++ (P, F) :: js2)).
Context (H1 : jobs_rep (nodes (queue x)) j1 js1) (H2 : jobs_rep (nodes (queue x)) j2 js2).

Definition job_done x' (j' : option job) : Prop := exists Q' js', inv x' rows w (j1 ++ from_option (fun y => [y]) [] j' ++ j2) Q' js'.

Lemma job_once b : (cnt b P + cnt b F + cnt b Q + cnt b (concat js1.*1) + cnt b (concat js2.*1) <= 1)%nat.
Proof. pose proof (pend_once H b) as Hb. rewrite cnt_P, cnt_F in Hb. lia. Qed.

Lemma job_moved j' : job_rep (nodes (queue x)) j' P F -> job_done x (Some j').
Proof. intros Hj. exists Q, (js1 ++ (P, F) :: js2). eapply inv_rejob; [exact H|by apply jobs_join|done|done]. Qed.

Lemma job_frees a P' j' : P ≡ₚ a :: P' -> F = [] -> job_rep (nodes (queue x)) j' P' [a] -> job_done (free_slot x a) (Some j').
Proof.
  intros HP HF Hj. exists Q, (js1 ++ (P', [a]) :: js2). pose proof (job_once a) as Ho. rewrite (cnt_perm a _ _ HP) in Ho. cbn in Ho. rewrite one_same in Ho.
  eapply inv_free_slot; [exact H|by apply jobs_join|..].
  - rewrite cnt_in, cnt_P, (cnt_perm a _ _ HP). cbn. rewrite one_same. lia.
  - rewrite cnt_in, cnt_P. lia.
  - intros b. rewrite !cnt_P, (cnt_perm b _ _ HP). cbn. lia.
  - intros b. rewrite !cnt_F, HF. cbn. lia.
Qed.

Lemma job_kills a j' : F = [a] -> job_rep (nodes (queue x)) j' P [] -> job_done (free_art x a) (Some j').
Proof.
  intros HF Hj. exists Q, (js1 ++ (P, []) :: js2). pose proof (pend_once H a) as Ho. rewrite cnt_P, cnt_F, HF in Ho. cbn in Ho. rewrite one_same in Ho.
  eapply inv_free; [exact H|..].
  - intros b. unfold pendl, finl. rewrite !cnt_app, !cnt_P, !cnt_F, HF. cbn. lia.
  - intros b. rewrite !cnt_in. unfold pendl. rewrite !cnt_app, !cnt_P. done.
  - rewrite cnt_in. unfold pendl. rewrite !cnt_app, !cnt_P. lia.
  - by apply jobs_join.
  - done.
  - done.
  - by intros b r t ->.
Qed.

(** a store to the links of the requests of the job itself *)
Lemma job_relinks f' j' P' : P' ≡ₚ P -> fifo_rep f' Q -> dom (nodes f') = dom (nodes (queue x)) -> (forall b, b ∉ P -> nodes f' !! b = nodes (queue x) !! b) ->
  job_rep (nodes f') j' P' F -> job_done (put_queue x f') (Some j').
Proof.
  intros HP Hf Hd Ho Hj. exists Q, (js1 ++ (P', F) :: js2).
  assert (Hfr : forall (js : list (list addr * list addr)), js = js1 \/ js = js2 -> forall b, b ∈ concat js.*1 -> nodes f' !! b = nodes (queue x) !! b).
  { intros js Hjs b Hb%cnt_in. apply Ho. rewrite cnt_in. pose proof (job_once b). destruct Hjs as [-> | ->]; lia. }
  assert (Hc : forall b, cnt b (pendl w Q (js1 ++ (P', F) :: js2)) = cnt b (pendl w Q (js1 ++ (P, F) :: js2))).
  { intros b. unfold pendl. rewrite !cnt_app, !cnt_P. by rewrite (cnt_perm b _ _ HP). }
  eapply (inv_regroup x); [exact H|exact Hf|exact Hd|..].
  - apply jobs_join; [|done|]; (eapply jobs_frame; [|eassumption]); apply Hfr; auto.
  - intros b. rewrite Hc. unfold finl. by rewrite !cnt_app, !cnt_F.
  - eapply slots_pending; [apply H|]. intros b. by rewrite !cnt_in, Hc.
  - apply cs_le_refl.
  - intros a _ c i e He Hq. by exists e.
Qed.

(** a request that is kept goes back to the queue *)
Lemma job_pushes a P' j' : P = a :: P' -> job_rep (nodes (queue x)) j' P' F -> job_done (put_queue x (artPush (queue x) a)) (Some j').
Proof.
  intros HP Hj. exists (Q ++ [a]), (js1 ++ (P', F) :: js2). pose proof (job_once a) as Ho. rewrite HP in Ho. cbn in Ho. rewrite one_same in Ho.
  assert (HQ : a ∉ Q) by (rewrite cnt_in; lia). pose proof (i_rep _ _ _ _ _ _ H) as Hrep.
  assert (Hn : is_Some (nodes (queue x) !! a)) by (apply (queued_node H); rewrite cnt_in; unfold pendl; rewrite !cnt_app, cnt_P, HP; cbn; rewrite one_same; lia).
  assert (Hoth : forall b, (0 < cnt b P' + cnt b (concat js1.*1) + cnt b (concat js2.*1))%nat -> nodes (artPush (queue x) a) !! b = nodes (queue x) !! b).
  { intros b Hb. pose proof (job_once b) as Hob. rewrite HP in Hob. cbn in Hob. eapply artPush_other; [exact Hrep|rewrite cnt_in; lia|]. intros ->. lia. }
  assert (Hc : forall b, cnt b (pendl w (Q ++ [a]) (js1 ++ (P', F) :: js2)) = cnt b (pendl w Q (js1 ++ (P, F) :: js2))).
  { intros b. unfold pendl. rewrite !cnt_app, !cnt_P, HP. cbn. lia. }
  eapply (inv_regroup x); [exact H|by apply artPush_rep|apply dom_artPush|..].
  - apply jobs_join; [eapply jobs_frame; [|exact H1]|eapply job_frame; [|exact Hj]|eapply jobs_frame; [|exact H2]]; intros b Hb%cnt_in; apply Hoth; lia.
  - intros b. rewrite Hc. unfold finl. by rewrite !cnt_app, !cnt_F.
  - eapply slots_pending; [apply H|]. intros b. by rewrite !cnt_in, Hc.
  - apply cs_le_refl.
  - intros b _ c i e He Hq. by exists e.
Qed.

Lemma job_ends : P = [] -> F = [] -> job_done x None.
Proof.
  intros HP HF. exists Q, (js1 ++ js2). eapply inv_rejob; [exact H|by apply Forall2_app|..]; rewrite ?HP, ?HF; by rewrite !fmap_app, !concat_app.
Qed.
End Job.

(** stores to the links of a request out of the queue *)
Definition relink (f : fifo) (a : addr) (n : option addr) : fifo := Fifo (alter (set_next n) a (nodes f)) (gArtReqList f) (gArtReqEnd f) (gArtQueueEpoch f) (gArtQueuedCount f).

Lemma relink_rep f Q a n : fifo_rep f Q -> a ∉ Q -> fifo_rep (relink f a n) Q.
Proof.
  intros H Ha. split; cbn; try apply H; [apply dseg_alter, H; done|]. intros b l. destruct (decide (b = a)) as [->|Hne]; [|rewrite lookup_alter_ne by congruence; apply (fr_out _ _ H)].
  rewrite lookup_alter_eq. destruct (nodes f !! a) as [l0|] eqn:E; [|done]. cbn. intros [= <-] Hb. by apply (fr_out _ _ H a l0).
Qed.

(** the same, in a list of its own *)
Lemma chain_unlink m a p n xs : a ∉ xs -> chain m p xs -> chain (alter (set_next n) a m) p xs.
Proof. intros Ha. apply chain_frame. intros b Hb. apply lookup_alter_ne. by intros ->. Qed.

Lemma chain_single m a : is_Some (m !! a) -> chain (alter (set_next None) a m) (Some a) [a].
Proof. intros [l Hl]. split; [done|]. exists (set_next None l). by rewrite lookup_alter_eq, Hl. Qed.

Lemma chain_snoc m t a : forall xs p, t ∉ xs -> NoDup xs -> a <> t -> a ∉ xs -> (exists l, m !! a = Some l /\ next l = None) -> chain m p (xs ++ [t]) ->
  chain (alter (set_next (Some a)) t m) p (xs ++ [t] ++ [a]).
Proof.
  intros xs. induction xs as [|y xs IH]; intros p Ht Hn Hne Ha (la & Hla & En) Hc; cbn in Hc |- *.
  - destruct Hc as (-> & l & Hl & _). split; [done|]. exists (set_next (Some a) l). rewrite lookup_alter_eq, Hl. split; [done|]. split; [done|].
    exists la. rewrite lookup_alter_ne by congruence. done.
  - destruct Hc as (-> & l & Hl & Hc). split; [done|]. exists l. rewrite lookup_alter_ne by set_solver. split; [done|]. apply NoDup_cons in Hn as [_ Hn].
    apply IH; [set_solver|done|done|set_solver|by exists la|done].
Qed.

Lemma next_of_chain x a xs : chain (nodes (queue x)) (Some a) (a :: xs) -> chain (nodes (queue x)) (next_of x a) xs.
Proof. intros (_ & l & Hl & Hc). unfold next_of. by rewrite Hl. Qed.

Lemma cnt_nodup l : (forall b, (cnt b l <= 1)%nat) -> NoDup l.
Proof.
  induction l as [|y l IH]; intros Hl; [constructor|]. constructor.
  - intros Hy%cnt_in. specialize (Hl y). cbn in Hl. rewrite one_same in Hl. lia.
  - apply IH. intros b. specialize (Hl b). cbn in Hl. lia.
Qed.

(** the walk over the chain: one more request is freed or kept *)
Lemma walk_ok x rows w j1 a kh kt j2 Q js1 P F js2 x' j' : let j := Job (TFree None) (Some (Some a, kh, kt)) in
  inv x rows w (j1 ++ j :: j2) Q (js1 ++ (P, F) :: js2) -> jobs_rep (nodes (queue x)) j1 js1 -> job_rep (nodes (queue x)) j P F -> jobs_rep (nodes (queue x)) j2 js2 ->
  job_step x j = Some (x', j') -> job_done (rows := rows) (w := w) (j1 := j1) (j2 := j2) x' j'.
Proof.
  intros j H H1 (P1 & P2 & HP & [Hp1 HF] & (R1 & R2 & -> & Hc & Hk & Hl)) H2 E. cbn in Hp1. destruct P1 as [|? ?]; [|by destruct Hp1]. cbn [app] in HP.
  destruct R1 as [|b R1]; [by cbn in Hc|]. pose proof Hc as (Hab & la & Hla & _). injection Hab as <-. pose proof (next_of_chain x a R1 Hc) as Hnx.
  assert (Hd : NoDup P) by (apply cnt_nodup; intros b; pose proof (job_once H b); lia). rewrite HP in Hd. cbn in Hd. apply NoDup_cons in Hd as [Hna Hd]. apply NoDup_app in Hd as (_ & Hdis & Hd2).
  assert (HaQ : forall b, b ∈ P -> b ∉ Q) by (intros b Hb%cnt_in Hq%cnt_in; pose proof (job_once H b); lia).
  pose proof (i_rep _ _ _ _ _ _ H) as Hrep. assert (Hrep' : fifo_rep (relink (queue x) a None) Q) by (apply relink_rep; [done|apply HaQ; rewrite HP; by left]).
  assert (Hoth : forall b, b ∉ P -> nodes (relink (queue x) a None) !! b = nodes (queue x) !! b) by (intros b Hb; apply lookup_alter_ne; intros ->; apply Hb; rewrite HP; by left).
  cbn in E. destruct (requests x !! a) as [r|]; [|done]. cbn in E. destruct (sio2 r).
  - injection E as <- <-. eapply (job_relinks H H1 H2 (relink (queue x) a None)); [|exact Hrep'|apply dom_alter_L|exact Hoth|].
    + by rewrite HP.
    + exists [a], (R1 ++ R2). split; [done|]. split; [split; [apply chain_single; by exists la|done]|]. exists R1, R2. split; [done|].
      split; [apply chain_unlink; [set_solver|done]|]. split; [apply chain_unlink; [set_solver|done]|]. intros _. by apply Hl.
  - specialize (Hl ltac:(done)). assert (HPp : R1 ++ (R2 ++ [a]) ≡ₚ P) by (rewrite HP, app_assoc; symmetry; apply Permutation_cons_append).
    assert (Hla' : nodes (relink (queue x) a None) !! a = Some (set_next None la)) by (cbn; by rewrite lookup_alter_eq, Hla).
    destruct kt as [t|].
    + injection E as <- <-. symmetry in Hl. apply last_Some in Hl as [R2' ->]. apply NoDup_app in Hd2 as (Hd2 & Ht & _).
      assert (Htn : t ∉ R2') by (intros Hin; apply (Ht t Hin); by left). assert (Hta : a <> t) by set_solver.
      eapply (job_relinks H H1 H2 (relink (relink (queue x) a None) t (Some a))); [exact HPp|..].
      * apply relink_rep; [done|]. apply HaQ. rewrite HP. set_solver.
      * cbn. by rewrite !dom_alter_L.
      * intros b Hb. rewrite <- Hoth by done. apply lookup_alter_ne. intros ->. apply Hb. rewrite HP. set_solver.
      * exists [], (R1 ++ ((R2' ++ [t]) ++ [a])). split; [done|]. split; [done|]. exists R1, ((R2' ++ [t]) ++ [a]). split; [done|].
        split; [apply chain_unlink; [set_solver|]; apply chain_unlink; [set_solver|done]|]. split; [|intros _; by rewrite last_snoc].
        rewrite <- app_assoc. apply chain_snoc; [done|done|done|set_solver|by eexists|]. apply chain_unlink; [set_solver|done].
    + injection E as <- <-. symmetry in Hl. apply last_None in Hl as ->. eapply (job_relinks H H1 H2 (relink (queue x) a None)); [exact HPp|exact Hrep'|apply dom_alter_L|exact Hoth|].
      exists [], (R1 ++ [a]). split; [done|]. split; [done|]. exists R1, [a]. split; [done|]. split; [apply chain_unlink; [set_solver|done]|]. split; [apply chain_single; by exists la|done].
Qed.

Lemma job_ok x rows w j1 j j2 Q js x' j' : inv x rows w (j1 ++ j :: j2) Q js -> job_step x j = Some (x', j') ->
  exists Q' js', inv x' rows w (j1 ++ from_option (fun y => [y]) [] j' ++ j2) Q' js'.
Proof.
  intros H E. destruct (jobs_split _ _ _ _ _ (i_jobs _ _ _ _ _ _ H)) as (js1 & P & F & js2 & -> & H1 & Hj & H2).
  destruct j as [t sp]. pose proof Hj as (P1 & P2 & HP & Ht & Hs). cbn [j_task j_split] in Ht, Hs.
  assert (Hmove : forall t' P', task_rep (nodes (queue x)) t' P' F -> P' = P1 -> x' = x -> j' = Some (Job t' sp) -> job_done (rows := rows) (w := w) (j1 := j1) (j2 := j2) x' j').
  { intros t' P' Ht' -> -> ->. apply (job_moved H H1 H2). by exists P1, P2. }
  destruct t as [[a|]|a nx|a nx|a nx v|a nx]; cbn in E.
  - injection E as <- <-. destruct Ht as [Hc HF]. destruct P1 as [|b P1]; [done|]. pose proof Hc as (Hab & _). injection Hab as <-. apply (job_frees H H1 H2 a (P1 ++ P2)); [by rewrite HP|done|].
    exists P1, P2. split; [done|]. split; [|done]. split; [done|]. by apply next_of_chain.
  - destruct sp as [[[[a|] kh] kt]|]; [by eapply (walk_ok x rows w j1 a kh kt)| |].
    + destruct Ht as [Hc HF]. destruct P1 as [|? ?]; [|by destruct Hc]. destruct Hs as (R1 & R2 & -> & Hc1 & Hc2 & _). destruct R1 as [|? ?]; [|by destruct Hc1]. cbn [app] in HP. destruct kh as [a|].
      * injection E as <- <-. destruct R2 as [|b R2]; [done|]. pose proof Hc2 as (Hab & _). injection Hab as <-. apply (job_pushes H H1 H2 a R2); [done|].
        exists [], R2. split; [done|]. split; [done|]. exists [], R2. split; [done|]. split; [done|]. split; [by apply next_of_chain|done].
      * injection E as <- <-. destruct R2 as [|? ?]; [|by destruct Hc2]. by apply (job_ends H H1 H2).
    + injection E as <- <-. destruct Ht as [Hc HF]. destruct P1 as [|? ?]; [|by destruct Hc]. cbn in Hs. subst P2. by apply (job_ends H H1 H2).
  - destruct (active_of x a) as [v|]; [|done]. injection E as <- <-. by apply (Hmove (if 0 <? v then TRead a nx else TKill a nx) P1); [destruct (0 <? v)| | |].
  - destruct (active_of x a) as [v|]; [|done]. injection E as <- <-. by apply (Hmove (TStore a nx v) P1).
  - injection E as <- <-. destruct (job_moved H H1 H2 (Job (TKill a nx) sp)) as (Q' & js' & Hi); [by exists P1, P2|]. exists Q', js'. by apply inv_store.
  - injection E as <- <-. destruct Ht as [HF Hc]. apply (job_kills H H1 H2 a); [done|]. exists P1, P2. split; [done|]. split; done.
Qed.

(** *** Every step *)

Lemma inv_abort_current x rows w jobs Q js p : inv x rows w jobs Q js -> inv (abort_current x p) rows w jobs Q js /\ queue (abort_current x p) = queue x /\ vars (abort_current x p) = vars x.
Proof.
  intros H. unfold abort_current. destruct (gArtCurrentReq x) as [a|] eqn:Ec; [|done].
  assert (Ha : is_Some (requests x !! a)).
  { pose proof (i_cnt _ _ _ _ _ _ H a) as Hc. destruct (decide _) as [|_]; [done|exfalso]. destruct (i_cur _ _ _ _ _ _ H) as [E _]. rewrite Ec in E.
    unfold pendl, finl in Hc. rewrite !cnt_app in Hc. destruct w; cbn in E, Hc; try done; injection E as ->; rewrite one_same in Hc; lia. }
  destruct Ha as [r Hr]. rewrite Hr. destruct (p r); [|done]. split; [|done]. apply inv_request; [done|by repeat split].
Qed.

Lemma inv_detach x rows w jobs Q js t sp : inv x rows w jobs Q js -> gArtQueueEpoch (queue x) + 1 < 2 ^ 32 ->
  (forall m, chain m (fst (artDetachAll (queue x))) Q -> job_rep m (Job t sp) Q []) -> inv (snd (detach x)) rows w (Job t sp :: jobs) [] ((Q, []) :: js).
Proof.
  intros H Hr Hj. destruct (artDetachAll_rep _ _ (i_rep _ _ _ _ _ _ H) Hr) as [Hrep Hc]. apply Hj in Hc.
  assert (E : forall b, cnt b (pendl w [] ((Q, []) :: js)) = cnt b (pendl w Q js)) by (intros b; unfold pendl; cbn; rewrite !cnt_app; lia).
  eapply (inv_regroup x); [exact H|exact Hrep|done|..].
  - constructor; [exact Hc|]. apply H.
  - intros b. by rewrite E.
  - eapply slots_pending; [apply H|]. intros b. rewrite (cnt_in b (pendl w [] _)), E. apply cnt_in.
  - apply cs_le_refl.
  - intros a _ c i e He Hq. by exists e.
Qed.

Lemma cancel_ok (s : sys T W) : sys_inv s -> in_range s -> sys_inv (start_cancel s) /\ sys_inv (start_abort_sio2 s).
Proof.
  intros (Q & js & H) [Hr _]. split.
  - destruct (inv_abort_current _ _ _ _ _ _ (fun _ => true) H) as (H1 & Eq & _). exists [], ((Q, []) :: js). unfold start_cancel.
    destruct (detach (abort_current (st s) (fun _ => true))) as [p y] eqn:E. cbn. change y with (snd (p, y)). rewrite <- E. apply inv_detach; [done|by rewrite Eq|].
    intros m Hm. exists Q, []. rewrite app_nil_r. injection E as <- _. done.
  - destruct (inv_abort_current _ _ _ _ _ _ sio2 H) as (H1 & Eq & _). exists [], ((Q, []) :: js). unfold start_abort_sio2.
    destruct (detach (abort_current (st s) sio2)) as [p y] eqn:E. cbn. change y with (snd (p, y)). rewrite <- E. apply inv_detach; [done|by rewrite Eq|].
    intros m Hm. exists [], Q. injection E as <- _. split; [done|]. split; [done|]. exists Q, []. rewrite app_nil_r. done.
Qed.

(** the art module runs and is not being shut down *)
Definition live (s : sys T W) : Prop := gArtRunning (vars (st s)) = true /\ gCacheLoadsCancelled (vars (st s)) = false.

Lemma put_globals_inv (s : sys T W) g : sys_inv s -> (forall v, gArtTerminate (g v) = gArtTerminate v) -> (forall v, gArtShutdownAbandoned (g v) = gArtShutdownAbandoned v) -> sys_inv (put_globals s g).
Proof. intros (Q & js & H) E1 E2. exists Q, js. by apply inv_vars. Qed.

Lemma lookup_row_ok (s s' : sys T W) n t : sys_inv s -> lookup_row s n = Some (t, s') -> sys_inv s'.
Proof.
  intros (Q & js & H) E. unfold lookup_row in E. destruct (rows s !! n) as [r|]; [|done]. cbn [mbind option_bind] in E. unfold cacheLookupTexture in E.
  destruct (_ <? 0); [injection E as <- <-; by exists Q, js|]. destruct (entry_at _ _ _) as [e|] eqn:He; [|injection E as <- <-; by exists Q, js].
  destruct (_ || _); injection E as <- <-; exists Q, js; [done|]. by eapply inv_touch.
Qed.

Lemma new_cache_ok (s : sys T W) c p b sfx n : sys_inv s -> caches (st s) !! c = None ->
  sys_inv (put_st s (Art (queue (st s)) (requests (st s)) (<[c := cacheInitCache p b sfx n]> (caches (st s))) (gArtCurrentReq (st s)) (gArtActiveCount (st s)) (faulted (st s)) (vars (st s)))).
Proof.
  intros (Q & js & H) Hc. destruct (slots_new_cache _ _ _ c p b sfx n (i_slots _ _ _ _ _ _ H) Hc) as (Hs & Hle & Hk). exists Q, js.
  eapply inv_regroup; [exact H|apply H|done|apply H|done|exact Hs|exact Hle|]. intros a _. apply Hk.
Qed.

Lemma step_ok (s s' : sys T W) : sys_inv s -> live s -> in_range s -> cover_step s s' -> sys_inv s'.
Proof.
  intros H [Hrun Hlive] Hr Hs. destruct Hs as [s n sup p alloc t s' Ha Hd|s n t s' Hl|s n c l v uid|s nav|s ina|s|s|s c p b sfx n Hc|s s' Hw|s w|s j1 j j2 x j' Ej Hj|s _|s _|s|s Hc|s Ht].
  - destruct H as (Q & js & H). destruct (rows s !! n) as [r|] eqn:Hn; [by eapply draw_spec|]. unfold draw in Hd. by rewrite Hn in Hd.
  - by eapply lookup_row_ok.
  - destruct H as (Q & js & H). exists Q, js. apply inv_rows; [done|]. by apply row_no_id.
  - by apply put_globals_inv.
  - by apply put_globals_inv.
  - by apply put_globals_inv.
  - by apply put_globals_inv.
  - by apply new_cache_ok.
  - destruct H as (Q & js & H). by eapply worker_ok.
  - done.
  - destruct H as (Q & js & H). rewrite Ej in H. destruct (job_ok _ _ _ _ _ _ _ _ _ _ H Hj) as (Q' & js' & H'). by exists Q', js'.
  - by apply cancel_ok.
  - by apply cancel_ok.
  - apply cancel_ok; [by apply put_globals_inv|done].
  - congruence.
  - destruct H as (Q & js & H). destruct (i_flags _ _ _ _ _ _ H) as (_ & E & _). congruence.
Qed.

Lemma cover_start_ok (s : sys T W) : cover_start s -> sys_inv s.
Proof.
  intros (Hst & Hrows & Hwk & Hjobs). exists [], []. rewrite Hrows, Hwk, Hjobs, Hst. split; cbn; try done.
  - split; cbn; try done. constructor.
  - constructor.
Qed.

(** *** Up to the shutdown *)

Lemma adopt_vars x a p : vars (adopt x a p) = vars x.
Proof. unfold adopt. destruct (requests x !! a); [|done]. by destruct (_ && _). Qed.
Lemma abort_other_vars x c v : vars (abort_other_background x c v) = vars x.
Proof.
  unfold abort_other_background. destruct (caches x !! c) as [k|]; [|done]. destruct (content k) as [|e [|]]; try done. destruct (streq _ _); [|done].
  destruct (qr e); [|done]. destruct (_ && _); [|done]. by destruct (bool_decide _).
Qed.
Lemma claim_vars x sup c i l v sio p a : vars (claim x sup c i l v sio p a) = vars x.
Proof. unfold claim. destruct (caches x !! c); [|done]. by destruct (resolve_archive _ _ _ _). Qed.

(** what the two flags were before a step *)
Definition flags (x : art T) : bool * bool := (gArtRunning (vars x), gCacheLoadsCancelled (vars x)).

Lemma draw_flags x sup c l id uid v p alloc : flags (d_art (cacheGetTextureEx x sup c l id uid v p alloc)) = flags x.
Proof.
  unfold cacheGetTextureEx. destruct (bool_decide (v = [])); [done|]. set (x1 := if p then _ else _). replace (flags x) with (flags x1) by (unfold x1, flags; destruct p; [cbn; unfold artUpdateFocus; by destruct (bool_decide _)|done]).
  clearbody x1. destruct (_ && _); [done|]. assert (Hq : forall d, request_cover x1 sup c l uid v p alloc = d -> flags (d_art d) = flags x1).
  { intros d <-. unfold request_cover. destruct (_ && _); [done|]. pose proof (abort_other_vars x1 c v) as Ev. set (y := abort_other_background x1 c v) in *.
    replace (flags x1) with (flags y) by (unfold flags; by rewrite Ev). clearbody y. destruct (caches y !! c); [|done]. destruct (claim_scan _ _ _ _ _); [|done].
    destruct (gArtRunning (vars x1)); [|done]. destruct alloc; [|done]. unfold flags. cbn. by rewrite claim_vars. }
  assert (Hk : forall d, cover_by_key x1 c v p = Some d -> flags (d_art d) = flags x1).
  { intros d. unfold cover_by_key. destruct (_ <? _)%nat; [|done]. destruct (caches x1 !! c) as [k|]; [|done]. cbn [mbind option_bind]. destruct (find_index _ _) as [i|]; [|done]. cbn [mbind option_bind].
    destruct (content k !! i) as [e|]; [|done]. cbn [mbind option_bind]. destruct (qr e); [intros [= <-]; unfold flags; cbn; by rewrite adopt_vars|]. destruct (_ =? 0); [destruct (_ =? _); [|done]; by intros [= <-]|].
    destruct (bool_decide _); [done|]. by intros [= <-]. }
  assert (Hi : forall d, cover_by_id x1 c id uid p = Some d -> flags (d_art d) = flags x1).
  { intros d. unfold cover_by_id. destruct (id <? 0); [done|]. destruct (entry_at x1 c _) as [e|]; [|done]. cbn [mbind option_bind]. destruct (_ =? uid); [|done].
    destruct (qr e); [intros [= <-]; unfold flags; cbn; by rewrite adopt_vars|]. destruct (_ =? 0); by intros [= <-]. }
  destruct (if _ || _ then None else _) as [d|] eqn:E1; [destruct (_ || _); [done|by apply Hi]|]. destruct (cover_by_key x1 c v p) as [d|] eqn:E2; [by apply Hk|by apply Hq].
Qed.

Lemma job_flags x j x' j' : job_step x j = Some (x', j') -> flags x' = flags x.
Proof.
  destruct j as [[[a|]|a nx|a nx|a nx v|a nx] sp]; cbn.
  - intros [= <- _]. unfold free_slot. destruct (requests x !! a) as [r|]; [|done]. destruct (entry_at _ _ _) as [e|]; [|done]. by destruct (bool_decide _).
  - destruct sp as [[[[a|] [b|]] kt]|]; [| | | |by intros [= <- _]].
    + destruct (requests x !! a) as [r|]; [|done]. cbn. destruct (sio2 r); [|destruct kt]; by intros [= <- _].
    + destruct (requests x !! a) as [r|]; [|done]. cbn. destruct (sio2 r); [|destruct kt]; by intros [= <- _].
    + by intros [= <- _].
    + by intros [= <- _].
  - destruct (active_of x a); [|done]. by intros [= <- _].
  - destruct (active_of x a); [|done]. by intros [= <- _].
  - intros [= <- _]. unfold store_active. by destruct (requests x !! a).
  - by intros [= <- _].
Qed.

(** a step of the art thread only stops the module when it was told to *)
Lemma worker_flags (s s' : sys T W) : worker_step s = Some s' -> (live s' -> live s) /\ (wk s' = WDead -> gArtRunning (vars (st s')) = false).
Proof.
  unfold live, worker_step. destruct (wk s) as [|a|a|a|a result t|a|a|a|a|a v|a|].
  - destruct (gArtTerminate _); [intros [= <-]; split; [intros [? _]|]; done|]. unfold worker_pop. destruct (artPop _ _ _) as [[a|] f]; by intros [= <-].
  - destruct (request_of s a) as [[[r e] k]|]; [|done]. intros [= <-]. split; [done|]. cbn. by destruct (load_checks _ _ _).
  - destruct (request_of s a) as [[[r e] k]|]; [|done]. by intros [= <-].
  - destruct (request_of s a) as [[[r e] k]|]; [|done]. cbn. destruct (load_image _ _ _ _) as [[? ?] ?]. by intros [= <-].
  - destruct (request_of s a) as [[[r e] k]|]; [|done]. cbn. destruct (load_outcome _ _ _); by intros [= <-].
  - destruct (request_of s a) as [[[r e] k]|]; [|done]. by intros [= <-].
  - by intros [= <-].
  - destruct (active_of _ _) as [v|]; [|done]. intros [= <-]. split; [done|]. cbn. by destruct (0 <? v).
  - destruct (active_of _ _); [|done]. by intros [= <-].
  - intros [= <-]. split; [|done]. unfold store_active. cbn. by destruct (requests (st s) !! a).
  - by intros [= <-].
  - done.
Qed.

Definition calm (s s' : sys T W) : Prop := wk s' = wk s /\ gArtRunning (vars (st s')) = gArtRunning (vars (st s)) /\ (gCacheLoadsCancelled (vars (st s')) = false -> gCacheLoadsCancelled (vars (st s)) = false).

Lemma flags_calm (s s' : sys T W) : flags (st s') = flags (st s) -> wk s' = wk s -> calm s s'.
Proof. unfold flags, calm. intros [= -> ->]. done. Qed.

Lemma step_calm (s s' : sys T W) : cover_step s s' -> worker_step s = Some s' \/ calm s s'.
Proof.
  intros Hs. destruct Hs as [s n sup p alloc t s' _ Hd|s n t s' Hl|s n c l v uid|s nav|s ina|s|s|s c p b sfx n Hc|s s' Hw|s w|s j1 j j2 x j' _ Hj|s _|s _|s|s Hc|s Ht]; try (by left); right; try done.
  - unfold draw in Hd. destruct (rows s !! n) as [r|]; [|done]. cbn [mbind option_bind] in Hd. injection Hd as _ <-. apply flags_calm; [|done]. cbn [st put_rows]. apply draw_flags.
  - unfold lookup_row, cacheLookupTexture in Hl. destruct (rows s !! n) as [r|]; [|done]. cbn [mbind option_bind] in Hl. destruct (_ <? 0); [by injection Hl as <- <-|].
    destruct (entry_at _ _ _); [|by injection Hl as <- <-]. destruct (_ || _); by injection Hl as <- <-.
  - apply flags_calm; [|done]. cbn [st put_jobs]. by eapply job_flags.
  - apply flags_calm; unfold start_cancel, detach, abort_current; (destruct (gArtCurrentReq _); [|done]; by destruct (requests _ !! _)).
  - apply flags_calm; unfold start_abort_sio2, detach, abort_current; (destruct (gArtCurrentReq _); [|done]; destruct (requests _ !! _) as [r|]; [|done]; by destruct (sio2 r)).
  - unfold calm, start_shutdown, start_cancel, detach, abort_current. cbn. destruct (gArtCurrentReq _); [|done]. by destruct (requests _ !! _) as [r|].
Qed.

Lemma live_before (s s' : sys T W) : cover_step s s' -> live s' -> live s.
Proof. intros [Hw|(_ & E & Hc)]%step_calm; [by apply worker_flags|]. unfold live. rewrite E. intros [? ?]. auto. Qed.

(** the art thread only ends when the module stops *)
Lemma reachable_dead (s0 s : sys T W) : cover_start s0 -> rtc run_step s0 s -> wk s = WDead -> gArtRunning (vars (st s)) = false.
Proof.
  intros (_ & _ & H0 & _) Hr. revert s Hr. apply (rtc_ind_r (fun s => wk s = WDead -> _)); [by rewrite H0|].
  intros s1 s2 _ [_ Hs] IH. destruct (step_calm _ _ Hs) as [Hw|(Ew & Er & _)]; [by apply worker_flags in Hw as [_ Hw]|]. rewrite Ew, Er. done.
Qed.

(** every reachable state before the shutdown *)
Lemma reachable_ok (s0 s : sys T W) : cover_start s0 -> rtc run_step s0 s -> live s -> sys_inv s.
Proof.
  intros H0 Hr. revert s Hr. apply (rtc_ind_r (fun s => live s -> sys_inv s)); [intros _; by apply cover_start_ok|].
  intros s1 s2 _ [Hin Hs] IH Hl. pose proof (live_before _ _ Hs Hl) as Hl1. by eapply step_ok; [apply IH|..].
Qed.
End Invariant.
