(* ===== verification/TexThms.v ===== *)
(** * TexThms: what the cover art cache promises

    That a row never shows another game's cover, that no request is lost or used after it
    was freed, and that the art thread empties its queue; with the runs that show where the
    code does not do what its comments say. *)
From S2P Require Import Prelude CLib ArtFifo TexCache TexInv.

Section Drain.
Context {T W : Type} `{!ArtLoader T W}.
Implicit Types s : sys T W.

(** nothing left to do *)
Definition idle s : bool := match wk s with WIdle => bool_decide (gArtReqList (queue (st s)) = None) | _ => false end.

(** the art thread alone, until it sleeps *)
Fixpoint worker_run (n : nat) s : sys T W :=
  match n with
  | O => s
  | S n => if idle s then s else match worker_step s with Some s' => worker_run n s' | None => s end
  end.

(** how far a request is from its end *)
Definition rank (w : worker (T := T)) : nat :=
  match w with
  | WIdle | WDead => 0 | WHave _ => 10 | WLoading _ => 9 | WLoaded _ _ _ => 8 | WClear _ | WPublished _ => 7
  | WRelease _ => 6 | WTest _ => 5 | WRead _ => 4 | WStore _ _ => 3 | WFree _ => 2
  end.
Definition queued s : nat := Z.to_nat (gArtQueuedCount (queue (st s))).
Definition work s : nat := (11 * queued s + rank (wk s))%nat.

(** what a step of the art thread leaves alone *)
Definition advances s s' : Prop := vars (st s') = vars (st s) /\ jobs s' = jobs s /\ (work s' < work s)%nat.

Lemma held_request s Q js a : inv (st s) (rows s) (wk s) (jobs s) Q js -> a ∈ wk_pend (wk s) ++ wk_fin (wk s) -> exists r e k, request_of s a = Some (r, e, k).
Proof.
  intros H Ha. pose proof (i_cnt _ _ _ _ _ _ H a) as Hc. unfold pendl, finl in Hc. rewrite !cnt_app in Hc. apply cnt_in in Ha. rewrite cnt_app in Ha.
  destruct (decide _) as [[r Hr]|]; [|lia]. destruct (so_req _ _ _ (i_slots _ _ _ _ _ _ H) _ _ Hr) as (k & e & Hk & He & _).
  exists r, e, k. unfold request_of. rewrite Hr. cbn. rewrite Hk. cbn. unfold ent in He. rewrite Hk in He. cbn in He. by rewrite He.
Qed.

Lemma held_active s Q js a : inv (st s) (rows s) (wk s) (jobs s) Q js -> a ∈ wk_pend (wk s) ++ wk_fin (wk s) -> exists v, active_of (st s) a = Some v.
Proof.
  intros H Ha. destruct (held_request s Q js a H Ha) as (r & e & k & E). unfold request_of in E. unfold active_of. destruct (requests (st s) !! a) as [r'|]; [|done]. cbn in *.
  destruct (caches (st s) !! rq_cache r') as [k'|]; [|done]. cbn. by eexists.
Qed.

Local Ltac advance Hw := eexists; split; [done|]; split; [done|]; split; [done|]; unfold work, queued; cbn -[Nat.mul]; rewrite Hw; cbn [rank]; try lia.

Lemma pop_advances s Q js : inv (st s) (rows s) (wk s) (jobs s) Q js -> wk s = WIdle -> gArtNavActive (vars (st s)) = false -> idle s = false ->
  exists s', worker_step s = Some s' /\ advances s s'.
Proof.
  intros H Hw Hnav Hi. destruct (i_flags _ _ _ _ _ _ H) as (_ & Ht & _). unfold worker_step. rewrite Hw, Ht. destruct (rep_ends _ _ (i_rep _ _ _ _ _ _ H)) as [El _].
  unfold idle in Hi. rewrite Hw in Hi. apply bool_decide_eq_false in Hi. destruct Q as [|a Q]; [done|]. cbn in El.
  set (sf := fun b => from_option sio2 false (requests (st s) !! b)). destruct (artPop_rep (queue (st s)) (a :: Q) sf false (i_rep _ _ _ _ _ _ H)) as [E1 E2].
  unfold worker_pop. rewrite Hnav. fold sf. destruct (artPop (queue (st s)) sf false) as [p f]. cbn [fst snd pop] in E1, E2. rewrite andb_false_r in E1, E2. cbn in E1, E2. subst p.
  eexists. split; [done|]. split; [done|]. split; [done|]. unfold work, queued. cbn -[Nat.mul]. rewrite Hw.
  rewrite (fr_count _ _ E2), (fr_count _ _ (i_rep _ _ _ _ _ _ H)). rewrite !Nat2Z.id. cbn [length rank]. lia.
Qed.

Lemma worker_advances s Q js : inv (st s) (rows s) (wk s) (jobs s) Q js -> wk s <> WDead -> gArtNavActive (vars (st s)) = false -> idle s = false ->
  exists s', worker_step s = Some s' /\ advances s s'.
Proof.
  intros H Hd Hnav Hi. destruct (wk s) as [|a|a|a|a result t|a|a|a|a|a v|a|] eqn:Hw; [eapply pop_advances; [by rewrite Hw|done..]|..|done];
    pose proof H as H'; rewrite <- Hw in H'; try (destruct (held_request s Q js a H' ltac:(rewrite Hw; by left)) as (r & e & k & Er));
    try (destruct (held_active s Q js a H' ltac:(rewrite Hw; by left)) as (n & Ea)); unfold worker_step; rewrite Hw, ?Er, ?Ea; cbn [mbind option_bind].
  - advance Hw. destruct (load_checks _ _ _); cbn [rank]; lia.
  - advance Hw.
  - destruct (load_image _ _ _ _) as [[result t] w2]. advance Hw.
  - destruct (i_flags _ _ _ _ _ _ H) as (_ & _ & Hab). unfold load_outcome. rewrite Hab. destruct (0 <=? result); [|destruct (abortRequested r); [|destruct (negb _)]]; advance Hw.
  - advance Hw.
  - advance Hw.
  - advance Hw. destruct (0 <? n); cbn [rank]; lia.
  - advance Hw.
  - unfold store_active. destruct (requests (st s) !! a); advance Hw.
  - advance Hw.
Qed.

Lemma worker_run_ok n : forall s, sys_inv s -> live s -> wk s <> WDead -> gArtNavActive (vars (st s)) = false -> (work s < n)%nat ->
  sys_inv (worker_run n s) /\ idle (worker_run n s) = true /\ jobs (worker_run n s) = jobs s.
Proof.
  induction n as [|n IH]; intros s (Q & js & H) Hl Hd Hnav Hn; [lia|]. cbn [worker_run]. destruct (idle s) eqn:Hi; [split; [by exists Q, js|done]|].
  destruct (worker_advances s Q js H Hd Hnav Hi) as (s' & E & Ev & Ej & Hwk). rewrite E, <- Ej. apply IH.
  - eapply worker_ok; [exact H|apply Hl|exact E].
  - unfold live. by rewrite Ev.
  - intros Hd'. destruct (worker_flags _ _ E) as [_ Hx]. specialize (Hx Hd'). rewrite Ev in Hx. destruct Hl. congruence.
  - by rewrite Ev.
  - lia.
Qed.

Lemma idle_empty s : sys_inv s -> idle s = true -> jobs s = [] ->
  wk s = WIdle /\ gArtReqList (queue (st s)) = None /\ requests (st s) = ∅ /\ gArtActiveCount (st s) = 0 /\ forall c i e, entry_at (st s) c i = Some e -> qr e = None.
Proof.
  intros (Q & js & H) Hi Hj. unfold idle in Hi. destruct (wk s) eqn:Hw; try done. apply bool_decide_eq_true in Hi. destruct (rep_ends _ _ (i_rep _ _ _ _ _ _ H)) as [El _].
  rewrite Hi in El. destruct Q as [|a Q]; [|done]. pose proof (i_jobs _ _ _ _ _ _ H) as Hjs. rewrite Hj in Hjs. inversion Hjs; subst.
  split; [done|]. split; [done|]. split; [|split].
  - apply map_eq. intros a. pose proof (i_cnt _ _ _ _ _ _ H a) as Hc. cbn in Hc. destruct (decide _) as [|Hn]; [done|]. rewrite lookup_empty. by apply eq_None_not_Some.
  - by destruct (i_cur _ _ _ _ _ _ H) as [_ ->].
  - intros c i e He. destruct (qr e) as [a|] eqn:Hq; [|done]. destruct (so_qr _ _ _ (i_slots _ _ _ _ _ _ H) c i e a He Hq) as [Ha _]. by apply not_elem_of_nil in Ha.
Qed.
End Drain.

(** ** Runs that can be executed *)

(** a support that owns no archive *)
Definition plain_support : art_support := ArtSupport (fun _ => -1) (fun _ => -1) (fun _ => false) (fun _ => None) (fun _ => (0, [])).

Section Moves.
Context {T W : Type} `{!ArtLoader T W}.

Inductive move :=
  | MCache (c : nat) (sfx : bytes) (n : nat)
  | MRow (n c : nat) (l : item_list_t) (v : bytes)
  | MDraw (n : nat) (isPriority : bool) (alloc : option addr)
  | MFrame | MMemo | MWorker | MJob | MCancel | MShutdown
  | MWorld (w : W).

Definition in_range_b (s : sys T W) : bool :=
  (gArtQueueEpoch (queue (st s)) + 1 <? 2 ^ 32) && bool_decide (map_Forall (fun _ k => nextUID k + 1 < 2 ^ 31) (caches (st s))).

Definition exec_move (s : sys T W) (m : move) : option (sys T W) :=
  match m with
  | MCache c sfx n =>
    if bool_decide (caches (st s) !! c = None) then
      Some (put_st s (Art (queue (st s)) (requests (st s)) (<[c := cacheInitCache None false sfx n]> (caches (st s)))
        (gArtCurrentReq (st s)) (gArtActiveCount (st s)) (faulted (st s)) (vars (st s))))
    else None
  | MRow n c l v => Some (put_rows s (st s) (<[n := Row c l v (-1) (-1)]> (rows s)))
  | MDraw n p alloc =>
    if match alloc with Some a => bool_decide (requests (st s) !! a = None) | None => true end then snd <$> draw s n plain_support p alloc else None
  | MFrame => Some (put_globals s (fun g => with_frame (s32 (guiFrameId g + 1)) 0 g))
  | MMemo => Some (put_globals s cacheInvalidateFailMemo)
  | MWorker => worker_step s
  | MJob => match jobs s with j :: j2 => '(x, j') ← job_step (st s) j; Some (put_jobs s x (from_option (fun y => [y]) [] j' ++ j2)) | [] => None end
  | MCancel => if gArtRunning (vars (st s)) then Some (start_cancel s) else None
  | MShutdown => Some (start_shutdown s)
  | MWorld w => Some (Sys (st s) (rows s) (wk s) (jobs s) w)
  end.

Fixpoint exec_moves (ms : list move) (s : sys T W) : option (sys T W) :=
  match ms with
  | [] => Some s
  | m :: ms => if in_range_b s then s' ← exec_move s m; exec_moves ms s' else None
  end.

Lemma in_range_b_ok s : in_range_b s = true -> in_range s.
Proof. intros [H1%Z.ltb_lt H2%bool_decide_eq_true]%andb_prop. split; [done|]. intros c k Hk. by apply (H2 c k). Qed.

Lemma exec_move_step s m s' : exec_move s m = Some s' -> cover_step s s'.
Proof.
  destruct m; cbn.
  - destruct (bool_decide _) eqn:E; [|done]. apply bool_decide_eq_true in E. intros [= <-]. by apply StepCache.
  - intros [= <-]. apply StepRow.
  - intros E. destruct (draw s n plain_support isPriority alloc) as [[t s2]|] eqn:Ed; [|by destruct alloc; [destruct (bool_decide _)|]].
    eapply StepDraw; [|destruct alloc as [a|]; [destruct (bool_decide _); [|done]|]; by injection E as <-]. destruct alloc as [a|]; [|done].
    destruct (bool_decide _) eqn:Eb; [|done]. by apply bool_decide_eq_true in Eb.
  - intros [= <-]. apply (StepFrame s 0).
  - intros [= <-]. apply StepMemo.
  - apply StepWorker.
  - destruct (jobs s) as [|j j2] eqn:Ej; [done|]. destruct (job_step (st s) j) as [[x j']|] eqn:E; [|done]. cbn. intros [= <-]. by apply (StepJob s [] j j2 x j').
  - destruct (gArtRunning _) eqn:E; [|done]. intros [= <-]. by apply StepCancel.
  - intros [= <-]. apply StepShutdown.
  - intros [= <-]. apply StepWorld.
Qed.

Lemma exec_moves_run ms : forall s s', exec_moves ms s = Some s' -> rtc run_step s s'.
Proof.
  induction ms as [|m ms IH]; intros s s' E; cbn in E; [injection E as <-; constructor|]. destruct (in_range_b s) eqn:Er; [|done].
  destruct (exec_move s m) as [s1|] eqn:Em; [|done]. cbn in E. eapply rtc_l; [split; [by apply in_range_b_ok|by apply (exec_move_step s m)]|by apply IH].
Qed.

Definition fresh (w : W) : sys T W := Sys (Art no_requests ∅ ∅ None 0 false (Globals true false false false false false 1 0 1 None 0 0)) ∅ WIdle [] w.
Lemma fresh_start w : cover_start (fresh w).
Proof. done. Qed.
End Moves.
Arguments move : clear implicits.

(** a device whose files are the names of [w]; the image of a name is its length *)
Definition sample_loader : ArtLoader Z (list bytes) := {|
  artTarLoadImageExact w _ _ _ := (-1, None, w);
  artTarLoadImage w _ _ := (-1, None, w);
  itemGetImage w _ _ _ v _ := if bool_decide (v ∈ w) then (0, Some (Z.of_nat (length v)), w) else (-1, None, w);
|}.
#[local] Existing Instance sample_loader.
Definition games : item_list_t := ItemList 0 0 0.

(** one load, from the queue to the end *)
Definition one_load : list (move (list bytes)) := replicate 10 MWorker.

(** ** Theorems *)

Section Theorems.
Context {T W : Type} `{!ArtLoader T W}.
Implicit Types s : sys T W.

(** a state of a run from the start of the module that is not yet being shut down *)
Definition before_shutdown s : Prop := exists s0, cover_start s0 /\ rtc run_step s0 s /\ live s.

(** C8. In every run of the GUI thread, the art thread and the cancelling threads, before
    the shutdown: when a row of a list is drawn with an image, that image was read for this
    row's value from the files with the suffix of the cache it is drawn from, whatever
    slots were reused, lists rebuilt or loads cancelled in between. *)
Theorem cover_matches_row (s s' : sys T W) (n : nat) (sup : art_support) (isPriority : bool) (alloc : option addr) (t : T) :
  before_shutdown s -> in_range s -> alloc_ok s alloc ->
  draw s n sup isPriority alloc = Some (Some (Some t), s') ->
  exists r k, rows s !! n = Some r /\ caches (st s') !! rw_cache r = Some k /\ image_of (rw_value r) (suffix k) t.
Proof.
  intros (s0 & H0 & Hr & Hl) Hin Ha Hd. destruct (reachable_ok s0 s H0 Hr Hl) as (Q & js & H). destruct (rows s !! n) as [r|] eqn:Hn; [|unfold draw in Hd; by rewrite Hn in Hd].
  destruct (draw_spec s Q js n sup isPriority alloc r _ s' H Hin Ha (proj1 Hl) Hn Hd) as [_ Ht]. destruct (Ht t eq_refl) as (k & Hk & Hi). by exists r, k.
Qed.

(** C9. Before the shutdown no freed request is ever used; the queue holds distinct
    requests and counts them; a slot that waits for a request names one that is allocated,
    that was made for this slot under its present number, and that is still in the queue, at
    the art thread or with a thread that cancels; and with no thread cancelling, the
    allocated requests are exactly those of the queue and the one of the art thread, so a
    slot is never left waiting for ever. *)
Theorem requests_accounted (s : sys T W) : before_shutdown s ->
  faulted (st s) = false /\ gArtActiveCount (st s) = (if gArtCurrentReq (st s) then 1 else 0) /\
  exists Q, fifo_rep (queue (st s)) Q /\
    (forall c i e a, entry_at (st s) c i = Some e -> qr e = Some a ->
       (exists r, requests (st s) !! a = Some r /\ rq_cache r = c /\ rq_entry r = i /\ cacheUID r = UID e) /\
       (a ∈ Q \/ a ∈ wk_pend (wk s) \/ jobs s <> [])) /\
    (jobs s = [] -> forall a, is_Some (requests (st s) !! a) <-> a ∈ Q \/ a ∈ wk_pend (wk s) ++ wk_fin (wk s)).
Proof.
  intros (s0 & H0 & Hr & Hl). destruct (reachable_ok s0 s H0 Hr Hl) as (Q & js & H). split; [apply H|]. destruct (i_cur _ _ _ _ _ _ H) as [Ec En].
  split; [rewrite En, Ec; by destruct (wk_current (wk s))|]. exists Q. split; [apply H|].
  assert (Hj : jobs s = [] -> js = []) by (intros Hj; pose proof (i_jobs _ _ _ _ _ _ H) as Hjs; rewrite Hj in Hjs; by inversion Hjs). split.
  - intros c i e a He Hq. destruct (so_qr _ _ _ (i_slots _ _ _ _ _ _ H) c i e a He Hq) as [Ha Hx]. split; [done|]. unfold pendl in Ha.
    apply elem_of_app in Ha as [Ha|[Ha|Ha]%elem_of_app]; [by right; left|by left|]. right. right. intros Hn. rewrite (Hj Hn) in Ha. by apply not_elem_of_nil in Ha.
  - intros Hn a. pose proof (i_cnt _ _ _ _ _ _ H a) as Hc. rewrite (Hj Hn) in Hc. unfold pendl, finl in Hc. cbn [fmap list_fmap concat] in Hc. rewrite !app_nil_r, cnt_app in Hc.
    rewrite elem_of_app, !cnt_in. destruct (decide _) as [Hs|Hs]; (split; [intros ?; try done; lia|intros ?; try done; lia]).
Qed.

(** C10. The art thread empties its queue: from any state before the shutdown in which no
    thread is cancelling and no direction is held, it is asleep after at most eleven steps
    for each queued request and eleven more, whatever the device answers; then nothing is
    queued, no request is left and every slot can be drawn or claimed again. *)
Theorem worker_drains (s : sys T W) : before_shutdown s -> jobs s = [] -> gArtNavActive (vars (st s)) = false ->
  let s' := worker_run (11 * Z.to_nat (gArtQueuedCount (queue (st s))) + 11) s in
  wk s' = WIdle /\ gArtReqList (queue (st s')) = None /\ requests (st s') = ∅ /\ gArtActiveCount (st s') = 0 /\
  forall c i e, entry_at (st s') c i = Some e -> qr e = None.
Proof.
  intros (s0 & H0 & Hr & Hl) Hj Hnav s'. pose proof (reachable_ok s0 s H0 Hr Hl) as H. destruct (worker_run_ok (11 * Z.to_nat (gArtQueuedCount (queue (st s))) + 11) s) as (H' & Hi & Hj'); try done.
  - intros Hd. pose proof (reachable_dead s0 s H0 Hr Hd). destruct Hl. congruence.
  - unfold work, queued. assert (rank (wk s) <= 10)%nat by (destruct (wk s); cbn; lia). lia.
  - apply idle_empty; [done|done|]. unfold s'. by rewrite Hj'.
Qed.
End Theorems.

(** ** The theorems on concrete runs *)

(** two rows share a cache of one slot: the second one's cover takes the slot of the first,
    and the first is loaded again *)
Definition sample_run : list (move (list bytes)) :=
  [MCache 0 (bs "_COV") 1; MFrame; MRow 0 0 games (bs "SLUS_1"); MRow 1 0 games (bs "SLES_20"); MDraw 0 true (Some 100%nat)] ++ one_load ++
  [MFrame; MDraw 0 true None; MFrame; MDraw 1 true (Some 101%nat)] ++ one_load ++ [MFrame; MDraw 1 true None; MFrame; MDraw 0 false (Some 102%nat)] ++ one_load ++ [MFrame].
Definition sample_start : sys Z (list bytes) := fresh [bs "SLUS_1"; bs "SLES_20"].
Definition sample_end : option (sys Z (list bytes)) := exec_moves sample_run sample_start.

Lemma run_before_shutdown ms s : exec_moves ms sample_start = Some s -> live s -> before_shutdown s.
Proof. intros E Hl. exists sample_start. split; [by apply fresh_start|]. split; [by apply (exec_moves_run ms)|done]. Qed.

Lemma sample_end_ok : exists s s', sample_end = Some s /\ draw s 0 plain_support false None = Some (Some (Some 6), s') /\ live s /\ in_range_b s = true /\
  (fun r => (rw_cache r, rw_value r)) <$> rows s !! 0%nat = Some (0%nat, bs "SLUS_1").
Proof. eexists _, _. split; [vm_compute; reflexivity|]. split; [vm_compute; reflexivity|]. by vm_compute. Qed.

Lemma cover_matches_row_witness : exists s s' k, sample_end = Some s /\ draw s 0 plain_support false None = Some (Some (Some 6), s') /\
  caches (st s') !! 0%nat = Some k /\ image_of (bs "SLUS_1") (suffix k) 6.
Proof.
  destruct sample_end_ok as (s & s' & E & Ed & Hl & Hr & Hv).
  destruct (cover_matches_row s s' 0 plain_support false None 6) as (r & k & Hn & Hk & Hi); [by apply (run_before_shutdown sample_run)|by apply in_range_b_ok|done|done|].
  rewrite Hn in Hv. injection Hv as Hc Hv. rewrite Hc in Hk. rewrite Hv in Hi. exists s, s', k. exact (conj E (conj Ed (conj Hk Hi))).
Defined.

(** a queue of two, the art thread in the middle of a third *)
Definition busy_run : list (move (list bytes)) :=
  [MCache 0 (bs "_COV") 3; MFrame; MRow 0 0 games (bs "SLUS_1"); MRow 1 0 games (bs "SLES_20"); MRow 2 0 games (bs "SLPM_3");
   MDraw 0 false (Some 100%nat); MWorker; MWorker; MWorker; MDraw 1 true (Some 101%nat); MDraw 2 true (Some 102%nat)].
Definition busy_end : option (sys Z (list bytes)) := exec_moves busy_run sample_start.

Lemma requests_accounted_witness : exists s, busy_end = Some s /\ faulted (st s) = false /\ gArtQueuedCount (queue (st s)) = 2 /\
  exists Q, fifo_rep (queue (st s)) Q /\ forall a, is_Some (requests (st s) !! a) <-> a ∈ Q \/ a ∈ wk_pend (wk s) ++ wk_fin (wk s).
Proof.
  destruct busy_end as [s|] eqn:E; [|vm_compute in E; discriminate].
  assert (Hs : live s /\ jobs s = [] /\ gArtQueuedCount (queue (st s)) = 2) by (vm_compute in E; by injection E as <-). destruct Hs as (Hl & Hj & Hq).
  destruct (requests_accounted s (run_before_shutdown busy_run s E Hl)) as (Hf & _ & Q & HQ & _ & Ha).
  exists s. split; [done|]. split; [done|]. split; [done|]. exists Q. split; [done|]. by apply Ha.
Defined.

Lemma worker_drains_witness : exists s, busy_end = Some s /\ Z.to_nat (gArtQueuedCount (queue (st s))) = 2%nat /\ requests (st (worker_run (11 * 2 + 11) s)) = ∅.
Proof.
  destruct busy_end as [s|] eqn:E; [|vm_compute in E; discriminate].
  assert (Hs : live s /\ jobs s = [] /\ gArtNavActive (vars (st s)) = false /\ Z.to_nat (gArtQueuedCount (queue (st s))) = 2%nat) by (vm_compute in E; by injection E as <-). destruct Hs as (Hl & Hj & Hn & Hq).
  pose proof (worker_drains s (run_before_shutdown busy_run s E Hl) Hj Hn) as (_ & _ & Hr & _). rewrite Hq in Hr. exists s. exact (conj eq_refl (conj Hq Hr)).
Defined.

(** ** Where the code falls short of its comments *)

(** The memo of an absent cover is stamped with the generation the answer belongs to, so
    that a later one asks again; but the row's own slot answers without looking at the
    stamp and gives the row the present generation. The read found no file under generation
    1; the memo was invalidated and the file is there now; the row is not asked for again
    until the next invalidation. *)
Definition stale_run : list (move (list bytes)) :=
  [MCache 0 (bs "_COV") 1; MFrame; MRow 0 0 games (bs "SLPM_3"); MDraw 0 true (Some 100%nat)] ++ one_load ++
  [MWorld [bs "SLPM_3"]; MMemo; MFrame; MDraw 0 true (Some 101%nat); MFrame; MDraw 0 true (Some 101%nat)].

Example stale_absence_parked : exists s e r, exec_moves stale_run sample_start = Some s /\ entry_at (st s) 0 0 = Some e /\ failEpoch e = 1 /\
  gArtFailEpoch (vars (st s)) = 2 /\ rows s !! 0%nat = Some r /\ rw_id r = -2 /\ rw_uid r = 2 /\ requests (st s) = ∅.
Proof.
  destruct (exec_moves stale_run sample_start) as [s|] eqn:E; [|vm_compute in E; discriminate]. vm_compute in E. injection E as <-.
  eexists _, _, _. split; [done|]. by vm_compute.
Qed.

(** The counter of a cache's requests is decremented by the art thread outside any section:
    a claim of the GUI thread between the read and the store is lost, and the cache counts
    no request while one waits in the queue. *)
Definition race_run : list (move (list bytes)) :=
  [MCache 0 (bs "_COV") 2; MFrame; MRow 0 0 games (bs "SLUS_1"); MRow 1 0 games (bs "SLES_20"); MDraw 0 true (Some 100%nat)] ++ replicate 8 MWorker ++ [MDraw 1 true (Some 101%nat); MWorker; MWorker].

Example active_requests_race : exists s k r, exec_moves race_run sample_start = Some s /\ caches (st s) !! 0%nat = Some k /\ activeRequests k = 0 /\
  requests (st s) !! 101%nat = Some r /\ rq_cache r = 0%nat /\ gArtQueuedCount (queue (st s)) = 1.
Proof.
  destruct (exec_moves race_run sample_start) as [s|] eqn:E; [|vm_compute in E; discriminate]. vm_compute in E. injection E as <-.
  eexists _, _, _. split; [done|]. by vm_compute.
Qed.

(** After the shutdown the art thread frees the request it holds and leaves its slot as it
    is; the comment says that the slot's pointer is never followed, but the next draw of the
    row stores through it. *)
Definition shutdown_run : list (move (list bytes)) :=
  [MCache 0 (bs "_COV") 1; MFrame; MRow 0 0 games (bs "SLUS_1"); MDraw 0 true (Some 100%nat); MWorker; MShutdown] ++ replicate 6 MWorker ++ [MFrame; MDraw 0 true None].

Example shutdown_dangling : exists s, exec_moves shutdown_run sample_start = Some s /\ requests (st s) = ∅ /\ faulted (st s) = true.
Proof.
  destruct (exec_moves shutdown_run sample_start) as [s|] eqn:E; [|vm_compute in E; discriminate]. vm_compute in E. injection E as <-.
  eexists. split; [done|]. by vm_compute.
Qed.
