(* ===== verification/ArtTar.v ===== *)
(** * ArtTar: covers from an archive (src/texcache.c over src/tar.c)

    [artTarLoadImageExact] and [artTarLoadImage]: the member "<value>_<suffix>.*" of the
    archive a row's art lives in, decoded. Together with a support's own files they are the
    loader of the art thread (TexCache). *)
From S2P Require Import Prelude CLib Tar ArtFifo TexCache.

Section ArtTar.
Context {W T : Type} `{!TarFS W}.
(** [texLoadFromMemory]: the image decoder; and [malloc] of the buffer of a member *)
Context (texLoadFromMemory : bytes -> Z * option T).
Implicit Types (w : W) (s : tar_state).

(** the [snprintf] into a buffer of 64 bytes *)
Definition art_prefix (value suffix : bytes) : option bytes :=
  let p := value ++ bs "_" ++ suffix ++ bs "." in if (64 <=? length p)%nat then None else Some p.

(** the member is read whole and decoded *)
Definition load_entry w s (e : TarEntry) : Z * option T :=
  let buffer := tarRead w TAR_KIND_ART s e (te_rawSize e) in
  if negb (from_option (fun _ => te_rawSize e) 0 buffer =? te_rawSize e) then (-1, None) else texLoadFromMemory (default [] buffer).

Definition artTarLoadImageExact (fuel : nat) (junk : Z) (ws : W * tar_state) (value suffix exactPath : bytes) : Z * option T * (W * tar_state) :=
  let '(w, s) := ws in
  match art_prefix value suffix with
  | None => (-1, None, (w, s))
  | Some prefix =>
    let '(ok, s, w) := tarLoadFile fuel junk w TAR_KIND_ART s exactPath in
    if negb ok then (-1, None, (w, s))
    else match tarFindPrefixExact s prefix with
         | None => (-1, None, (w, s))
         | Some e => (load_entry w s e, (w, s))
         end
  end.

Definition artTarLoadImage (fuel : nat) (junk : Z) (ws : W * tar_state) (value suffix : bytes) : Z * option T * (W * tar_state) :=
  let '(w, s) := ws in
  match art_prefix value suffix with
  | None => (-1, None, (w, s))
  | Some prefix =>
    match tarFindPrefix fuel junk w TAR_KIND_ART s prefix with
    | (None, s, w) => (-1, None, (w, s))
    | (Some e, s, w) => (load_entry w s e, (w, s))
    end
  end.

(** the loader of the art thread: the archives, then the files of the support *)
Definition art_loader (fuel : nat) (junk : Z) (itemGetImage : W * tar_state -> item_list_t -> option bytes -> bool -> bytes -> bytes -> Z * option T * (W * tar_state)) : ArtLoader T (W * tar_state) :=
  {| TexCache.artTarLoadImageExact := artTarLoadImageExact fuel junk; TexCache.artTarLoadImage := artTarLoadImage fuel junk; TexCache.itemGetImage := itemGetImage |}.

(** ** What is loaded *)

(** the body of the first member whose base name begins so, upper and lower case alike *)
Definition first_member (prefix : bytes) (l : list (TarEntry * bytes)) : option bytes :=
  i ← find_index (fun x => prefix_matches prefix x.1) l; snd <$> l !! i.

Lemma find_index_fst {A B} (p : A -> bool) (l : list (A * B)) : find_index p (map fst l) = find_index (fun x => p x.1) l.
Proof. induction l as [|[x y] l IH]; cbn; [done|]. by rewrite IH. Qed.

Lemma find_entry_first prefix s l : default [] (s_index s) = map fst l ->
  match find_entry (prefix_matches prefix) s with
  | Some e => exists content, first_member prefix l = Some content /\ (e, content) ∈ l
  | None => first_member prefix l = None
  end.
Proof.
  intros E. unfold find_entry, first_member. rewrite E, find_index_fst. destruct (find_index _ l) as [i|] eqn:Ei; [|done]. cbn [mbind option_bind].
  apply find_index_Some in Ei as ((x & Hx & _) & _). rewrite list_lookup_fmap, Hx. cbn. exists x.2. split; [done|].
  destruct x. by eapply list_elem_of_lookup_2.
Qed.

(** reading an indexed member *)
Lemma load_entry_content w s path ms e content : file_is w path (archive ms) -> Forall member_ok ms -> read_path TAR_KIND_ART s = Some path ->
  (e, content) ∈ index_of TAR_KIND_ART 0 ms -> load_entry w s e = texLoadFromMemory content.
Proof.
  intros Hf Hok Hp Hin. destruct (index_of_reads TAR_KIND_ART ms [] e content Hok Hin) as (H1 & H2 & H3 & H4). cbn [app] in H4.
  unfold load_entry, tarRead. rewrite Z.ltb_irrefl, Hp, (proj1 Hf). cbn [negb]. rewrite <- H3, (read_body_spec w path (archive ms)) by (try done; by rewrite H4).
  rewrite H4. cbn. by rewrite Z.eqb_refl.
Qed.

(** after a first load of an archive without a cache file, the index is the archive's *)
Lemma load_file_index fuel junk w s path ms : file_is w path (archive ms) -> Forall member_ok ms -> (length ms < fuel)%nat -> path <> [] -> (length path < 256)%nat ->
  s_isExact s = false -> tarReadCache w (cache_path TAR_KIND_ART path) path TAR_KIND_ART = None ->
  exists s', tarLoadFile fuel junk w TAR_KIND_ART s path = (true, s', tarWriteCache w junk (cache_path TAR_KIND_ART path) path TAR_KIND_ART (map fst (index_of TAR_KIND_ART 0 ms))) /\
    default [] (s_index s') = map fst (index_of TAR_KIND_ART 0 ms) /\ s_isExact s' = true /\ read_path TAR_KIND_ART s' = Some path.
Proof.
  intros Hf Hok Hfuel Hne Hlen Hex Hc. unfold tarLoadFile. rewrite Hex. cbn [andb]. unfold tarParseFile. rewrite Hc, (proj1 Hf). cbn [negb].
  pose proof (scan_loop_spec TAR_KIND_ART w path ms fuel [] [] Hf Hok Hfuel) as E. cbn [app length] in E. change (Z.of_nat 0) with 0 in E. rewrite E.
  eexists. split; [done|]. cbn [s_index s_isExact]. split; [by case_bool_decide as Hn; [rewrite Hn|]|]. split; [done|].
  unfold read_path. cbn [s_isExact s_exactPath]. rewrite bufcpy_id by done. by rewrite bool_decide_eq_true_2.
Qed.

(** The cover of a row whose art lives in one archive is the first member of that
    archive whose name is the row's value and the kind of art, decoded, and there is none
    when the archive has no such member; provided that the archive is well formed, has no
    cache file yet and the one written now does not overwrite it. *)
Theorem exact_archive_cover (w : W) (s : tar_state) (fuel : nat) (junk : Z) (path value suffix prefix : bytes) (ms : list member) :
  file_is w path (archive ms) -> Forall member_ok ms -> (length ms < fuel)%nat -> path <> [] -> (length path < 256)%nat -> s_isExact s = false ->
  tarReadCache w (cache_path TAR_KIND_ART path) path TAR_KIND_ART = None ->
  file_is (tarWriteCache w junk (cache_path TAR_KIND_ART path) path TAR_KIND_ART (map fst (index_of TAR_KIND_ART 0 ms))) path (archive ms) ->
  art_prefix value suffix = Some prefix ->
  fst (artTarLoadImageExact fuel junk (w, s) value suffix path) = from_option texLoadFromMemory (-1, None) (first_member prefix (index_of TAR_KIND_ART 0 ms)).
Proof.
  intros Hf Hok Hfuel Hne Hlen Hex Hc Hf' Hp. unfold artTarLoadImageExact. rewrite Hp.
  destruct (load_file_index fuel junk w s path ms Hf Hok Hfuel Hne Hlen Hex Hc) as (s' & E & Ei & Ex & Er). rewrite E. cbn [negb].
  pose proof (find_entry_first prefix s' _ Ei) as Hfe. unfold tarFindPrefixExact. rewrite Ex. cbn [negb orb]. unfold no_index, s_count. rewrite Ei.
  destruct (Nat.eqb_spec (length (map fst (index_of TAR_KIND_ART 0 ms))) 0) as [En|_].
  { rewrite length_map in En. apply nil_length_inv in En. by rewrite En. }
  destruct (find_entry _ s') as [e|]; [|by rewrite Hfe]. destruct Hfe as (content & -> & Hin). cbn. by eapply load_entry_content.
Qed.
End ArtTar.

(** a decoder that takes a file for the number of its bytes *)
Definition count_decoder (b : bytes) : Z * option Z := (0, Some (strlen b)).

Lemma exact_archive_cover_witness :
  fst (artTarLoadImageExact count_decoder 9 7 (sample_world, tar_start) (bs "SLUS_200.62") (bs "BG") sample_path) = (0, Some 2) /\
  fst (artTarLoadImageExact count_decoder 9 7 (sample_world, tar_start) (bs "SLUS_200.63") (bs "BG") sample_path) = (-1, None).
Proof.
  split.
  - rewrite (exact_archive_cover count_decoder sample_world tar_start 9 7 sample_path (bs "SLUS_200.62") (bs "BG") (bs "SLUS_200.62_BG.") sample_members
      sample_file sample_members_ok); [by vm_compute|cbn; lia|done|cbn; lia|done|by vm_compute| |by vm_compute]. split; [by vm_compute|]. intros off n _. reflexivity.
  - rewrite (exact_archive_cover count_decoder sample_world tar_start 9 7 sample_path (bs "SLUS_200.63") (bs "BG") (bs "SLUS_200.63_BG.") sample_members
      sample_file sample_members_ok); [by vm_compute|cbn; lia|done|cbn; lia|done|by vm_compute| |by vm_compute]. split; [by vm_compute|]. intros off n _. reflexivity.
Defined.
