(* ===== verification/McEmu.v ===== *)
(** * McEmu: the virtual memory cards of modules/mcemu

    A game's SIO2 packets for a memory card are answered from an image file, page by
    page. The two cards have their own descriptor and ECC buffer and share one page
    buffer. The image is behind [DeviceReadPage] and [DeviceWritePage]. *)
From S2P Require Import Prelude CLib.

(** ** Data (modules/mcemu/mcemu.h) *)

Record McSpec := Spec { PageSize : Z; BlockSize : Z; CardSize : Z }.

(** [dbufp] is [mcdatabuf] for both cards; [cbuf] is the card's row of [mceccbuf] *)
Record MemoryCard := MC {
  mcnum : Z;
  rpage : Z; rdoff : Z;
  wpage : Z; wroff : Z;
  rcoff : Z; wcoff : Z;
  tcode : Z;
  cspec : McSpec;
  flags : Z;
  cbuf : bytes;
}.

Record McImageSpec := Image { vs_active : Z; vs_flags : Z; vs_cspec : McSpec }.

Definition with_read (mcd : MemoryCard) (page doff coff : Z) : MemoryCard :=
  MC (mcnum mcd) page doff (wpage mcd) (wroff mcd) coff (wcoff mcd) (tcode mcd) (cspec mcd) (flags mcd) (cbuf mcd).
Definition with_write (mcd : MemoryCard) (page doff coff : Z) : MemoryCard :=
  MC (mcnum mcd) (rpage mcd) (rdoff mcd) page doff (rcoff mcd) coff (tcode mcd) (cspec mcd) (flags mcd) (cbuf mcd).
Definition with_ecc (mcd : MemoryCard) (cb : bytes) : MemoryCard :=
  MC (mcnum mcd) (rpage mcd) (rdoff mcd) (wpage mcd) (wroff mcd) (rcoff mcd) (wcoff mcd) (tcode mcd) (cspec mcd) (flags mcd) cb.
Definition with_tcode (mcd : MemoryCard) (t : Z) : MemoryCard :=
  MC (mcnum mcd) (rpage mcd) (rdoff mcd) (wpage mcd) (wroff mcd) (rcoff mcd) (wcoff mcd) t (cspec mcd) (flags mcd) (cbuf mcd).

(** one card of the loop of [mc_configure] *)
Definition configure_card (i : Z) (s : McImageSpec) (mcd : MemoryCard) : MemoryCard :=
  if vs_active s =? 1 then
    MC i (rpage mcd) (rdoff mcd) (wpage mcd) (wroff mcd) (rcoff mcd) (wcoff mcd) 90 (vs_cspec s) (vs_flags s) (cbuf mcd)
  else MC (-1) (rpage mcd) (rdoff mcd) (wpage mcd) (wroff mcd) (rcoff mcd) (wcoff mcd) (tcode mcd) (cspec mcd) (flags mcd) (cbuf mcd).

Definition mc_configure (s0 s1 : McImageSpec) (c0 c1 : MemoryCard) : Z * (MemoryCard * MemoryCard) :=
  if (vs_active s0 =? 0) && (vs_active s1 =? 0) then (0, (c0, c1))
  else (1, (configure_card 0 s0 c0, configure_card 1 s1 c1)).

(** ** Check codes (modules/mcemu/mcemu_sys.c) *)

Definition GetInt (p : bytes) : Z := s32 (le_val (take 4 p)).

Definition CalculateEDC (buf : bytes) (size : nat) : Z := Z.land (fold_left Z.lxor (take size buf) 0) 255.

Definition xortable : list Z := [
  0; 135; 150; 17; 165; 34; 51; 180; 180; 51; 34; 165; 17; 150; 135; 0;
  195; 68; 85; 210; 102; 225; 240; 119; 119; 240; 225; 102; 210; 85; 68; 195;
  210; 85; 68; 195; 119; 240; 225; 102; 102; 225; 240; 119; 195; 68; 85; 210;
  17; 150; 135; 0; 180; 51; 34; 165; 165; 34; 51; 180; 0; 135; 150; 17;
  225; 102; 119; 240; 68; 195; 210; 85; 85; 210; 195; 68; 240; 119; 102; 225;
  34; 165; 180; 51; 135; 0; 17; 150; 150; 17; 0; 135; 51; 180; 165; 34;
  51; 180; 165; 34; 150; 17; 0; 135; 135; 0; 17; 150; 34; 165; 180; 51;
  240; 119; 102; 225; 85; 210; 195; 68; 68; 195; 210; 85; 225; 102; 119; 240;
  240; 119; 102; 225; 85; 210; 195; 68; 68; 195; 210; 85; 225; 102; 119; 240;
  51; 180; 165; 34; 150; 17; 0; 135; 135; 0; 17; 150; 34; 165; 180; 51;
  34; 165; 180; 51; 135; 0; 17; 150; 150; 17; 0; 135; 51; 180; 165; 34;
  225; 102; 119; 240; 68; 195; 210; 85; 85; 210; 195; 68; 240; 119; 102; 225;
  17; 150; 135; 0; 180; 51; 34; 165; 165; 34; 51; 180; 0; 135; 150; 17;
  210; 85; 68; 195; 119; 240; 225; 102; 102; 225; 240; 119; 195; 68; 85; 210;
  195; 68; 85; 210; 102; 225; 240; 119; 119; 240; 225; 102; 210; 85; 68; 195;
  0; 135; 150; 17; 165; 34; 51; 180; 180; 51; 34; 165; 17; 150; 135; 0 ].

(** [c1], [c2] and [c3] after the bytes of [buf] from index [i] on *)
Fixpoint ecc_loop (buf : bytes) (i c1 c2 c3 : Z) : Z * Z * Z :=
  match buf with
  | [] => (c1, c2, c3)
  | x :: r =>
    let b := nth (Z.to_nat x) xortable 0 in
    if negb (Z.land b 128 =? 0) then ecc_loop r (i + 1) (Z.lxor c1 b) (Z.lxor c2 (Z.lnot i)) (Z.lxor c3 i)
    else ecc_loop r (i + 1) (Z.lxor c1 b) c2 c3
  end.

(** the three bytes stored in [chk] *)
Definition CalculateECC (buf : bytes) : bytes :=
  let '(c1, c2, c3) := ecc_loop (take 128 buf) 0 0 0 0 in
  [Z.land (Z.lnot c1) 119; Z.land (Z.lnot c2) 127; Z.land (Z.lnot c3) 127].

(** ** The image *)

Class PageDevice (W : Type) := {
  (** [DeviceReadPage]: the bytes put in the page buffer *)
  DeviceReadPage : W -> Z -> Z -> option bytes;
  (** [DeviceWritePage] with the page buffer: the world it leaves *)
  DeviceWritePage : W -> Z -> bytes -> Z -> option W;
}.

Section McEmu.
Context {W : Type} `{!PageDevice W}.
Implicit Types (w : W) (mcd : MemoryCard) (dbuf : bytes).

(** ** Pages *)

(** the loop of [MceEraseBlock] *)
Fixpoint erase_loop (n : nat) w mcd dbuf (page : Z) : bool * W :=
  match n with
  | O => (true, w)
  | S n' =>
    match DeviceWritePage w (mcnum mcd) dbuf (u32 page) with
    | None => (false, w)
    | Some w' => erase_loop n' w' mcd dbuf (page + 1)
    end
  end.

Definition erase_byte mcd : Z := if Z.land (flags mcd) 16 =? 0 then 255 else 0.
Definition ecc_fill mcd : Z := if Z.land (flags mcd) 16 =? 0 then 0 else 255.

Definition MceEraseBlock w dbuf mcd (page : Z) : bool * W * bytes :=
  let dbuf := blit dbuf 0 (replicate (Z.to_nat (PageSize (cspec mcd))) (erase_byte mcd)) in
  (erase_loop (Z.to_nat (BlockSize (cspec mcd))) w mcd dbuf page, dbuf).

(** the ECC of each 128 bytes of a page, three bytes apart *)
Definition page_ecc (pageSize : Z) dbuf (cb : bytes) : bytes :=
  fold_left (fun cb k => blit cb (3 * k) (CalculateECC (drop (128 * k) dbuf))) (seq 0 (Z.to_nat ((pageSize + 127) / 128))) cb.

Definition do_read w dbuf mcd : bool * bytes * MemoryCard :=
  let cb := blit (cbuf mcd) 0 (replicate 16 (ecc_fill mcd)) in
  match DeviceReadPage w (mcnum mcd) (u32 (rpage mcd)) with
  | None => (false, dbuf, with_ecc mcd cb)
  | Some data =>
    let dbuf := blit dbuf 0 data in
    (true, dbuf, with_ecc mcd (page_ecc (PageSize (cspec mcd)) dbuf cb))
  end.

Definition MceStartRead mcd (page : Z) : MemoryCard := with_read mcd page 0 0.

(** [MceRead] from [restart] on: the result, the bytes put in [buf], the page buffer
    and the card. A pass that restarts has finished a page. *)
Fixpoint mce_read (fuel : nat) w dbuf mcd (tot_size size : Z) (out : bytes) : option (bool * bytes * bytes * MemoryCard) :=
  match fuel with
  | O => None
  | S f =>
    let ecc := negb (rcoff mcd =? 0) && (rdoff mcd =? 0) in
    let csize := if size <? 16 then size else 16 in
    let out := if ecc then out ++ take (Z.to_nat csize) (cbuf mcd) else out in
    let mcd := if ecc then with_read mcd (rpage mcd) (rdoff mcd) (if 12 <? csize then 0 else rcoff mcd - csize) else mcd in
    let size := if ecc then size - csize else size in
    if ecc && (size =? 0) then Some (true, out, dbuf, mcd)
    else
      let '(ok, size, out, dbuf, mcd) :=
        if rdoff mcd <? PageSize (cspec mcd) then
          let '(ok, dbuf, mcd) := if rdoff mcd =? 0 then do_read w dbuf mcd else (true, dbuf, mcd) in
          if negb ok then (false, size, out, dbuf, mcd)
          else
            let size := if PageSize (cspec mcd) <? u32 (size + rdoff mcd) then PageSize (cspec mcd) - rdoff mcd else size in
            (true, size, out ++ take (Z.to_nat size) (drop (Z.to_nat (rdoff mcd)) dbuf), dbuf,
             with_read mcd (rpage mcd) (rdoff mcd + size) (rcoff mcd + 3))
        else (true, size, out, dbuf, mcd) in
      if negb ok then Some (false, out, dbuf, mcd)
      else if rdoff mcd =? PageSize (cspec mcd) then
        let mcd := with_read mcd (rpage mcd + 1) 0 (rcoff mcd) in
        if 0 <? u32 (tot_size - size) then mce_read f w dbuf mcd tot_size (u32 (tot_size - size)) out
        else Some (true, out, dbuf, mcd)
      else Some (true, out, dbuf, mcd)
  end.

Definition MceRead (fuel : nat) w dbuf mcd (size : Z) : option (bool * bytes * bytes * MemoryCard) :=
  mce_read fuel w dbuf mcd size size [].

Definition MceStartWrite mcd (page : Z) : MemoryCard := with_write mcd page 0 0.

(** [MceWrite] from [restart] on, with what is left of [buf] *)
Fixpoint mce_write (fuel : nat) w dbuf mcd (tot_size size : Z) (buf : bytes) : option (bool * W * bytes * MemoryCard) :=
  match fuel with
  | O => None
  | S f =>
    let ecc := negb (wcoff mcd =? 0) && (wroff mcd =? 0) in
    let csize := if size <? 16 then size else 16 in
    let mcd := if ecc then with_write mcd (wpage mcd) (wroff mcd) (if 12 <? csize then 0 else wcoff mcd - csize) else mcd in
    let buf := if ecc then drop (Z.to_nat csize) buf else buf in
    let size := if ecc then size - csize else size in
    if ecc && (size =? 0) then Some (true, w, dbuf, mcd)
    else
      let '(size, dbuf, mcd) :=
        if wroff mcd <? PageSize (cspec mcd) then
          let size := if PageSize (cspec mcd) <? u32 (size + wroff mcd) then PageSize (cspec mcd) - wroff mcd else size in
          (size, blit dbuf (Z.to_nat (wroff mcd)) (take (Z.to_nat size) buf),
           with_write mcd (wpage mcd) (wroff mcd + size) (wcoff mcd + 3))
        else (size, dbuf, mcd) in
      if wroff mcd =? PageSize (cspec mcd) then
        let buf := drop (Z.to_nat size) buf in
        let mcd := with_write mcd (wpage mcd) 0 (wcoff mcd) in
        match DeviceWritePage w (mcnum mcd) dbuf (u32 (wpage mcd)) with
        | None => Some (false, w, dbuf, mcd)
        | Some w =>
          let mcd := with_write mcd (wpage mcd + 1) (wroff mcd) (wcoff mcd) in
          if 0 <? u32 (tot_size - size) then mce_write f w dbuf mcd tot_size (u32 (tot_size - size)) buf
          else Some (true, w, dbuf, mcd)
        end
      else Some (true, w, dbuf, mcd)
  end.

Definition MceWrite (fuel : nat) w dbuf mcd (buf : bytes) (size : Z) : option (bool * W * bytes * MemoryCard) :=
  mce_write fuel w dbuf mcd size size buf.

(** ** Packets *)

(** what [SioResponse] writes at the start of [buf] *)
Definition SioResponse mcd (length : Z) : bytes :=
  if length <? 2 then [] else replicate (Z.to_nat (length - 2)) 255 ++ [43; u8 (tcode mcd)].

(** "0x81 0x26": the flags, the spec, its EDC and the termination code *)
Definition spec_bytes (s : McSpec) : bytes := le_bytes 2 (PageSize s) ++ le_bytes 2 (BlockSize s) ++ le_bytes 4 (CardSize s).
Definition spec_response mcd : bytes :=
  [255; 255; Z.land (flags mcd) 255] ++ spec_bytes (cspec mcd) ++ [CalculateEDC (spec_bytes (cspec mcd)) 8; u8 (tcode mcd)].

(** what a descriptor leaves: the result, the image, the page buffer, the card and
    the read buffer from this descriptor's slot on *)
Definition sio_out : Type := Z * W * bytes * MemoryCard * bytes.

(** the read command "0x81 0x43" *)
Definition sio_read (fuel : nat) w dbuf mcd (len result : Z) (rdma : bytes) : option sio_out :=
  let n := Z.to_nat len in
  let rdma := blit rdma 0 (SioResponse mcd 5) in
  '(result, dbuf, mcd, rdma) ←
    (if negb (result =? 0) then
       '(ok, out, dbuf, mcd) ← MceRead fuel w dbuf mcd len;
       Some (if ok : bool then 1 else 0, dbuf, mcd, blit rdma 4 out)
     else Some (result, dbuf, mcd, rdma));
  let rdma := if result =? 0 then blit rdma 4 (replicate n 255) else rdma in
  let rdma := blit rdma (n + 4) [CalculateEDC (drop 4 rdma) n] in
  let rdma := blit rdma (n + 5) [u8 (tcode mcd)] in
  Some (result, w, dbuf, mcd, rdma).

(** the write command "0x81 0x42" *)
Definition sio_write (fuel : nat) w dbuf mcd (wdma : bytes) (length result : Z) (rdma : bytes) : option sio_out :=
  let rdma := blit rdma 0 (SioResponse mcd length) in
  if negb (result =? 0) then
    '(ok, w, dbuf, mcd) ← MceWrite fuel w dbuf mcd (drop 3 wdma) (nth 2 wdma 0);
    Some (if ok : bool then 1 else 0, w, dbuf, mcd, rdma)
  else Some (result, w, dbuf, mcd, rdma).

(** the switch on the command code of an active card *)
Definition sio_command (fuel : nat) w dbuf mcd (wdma : bytes) (length result : Z) (rdma : bytes) : option sio_out :=
  let cmd := nth 1 wdma 0 in
  let page := GetInt (drop 2 wdma) in
  if cmd =? 0x21 then
    let '(ok, w, dbuf) := MceEraseBlock w dbuf mcd page in
    Some (if ok : bool then 1 else 0, w, dbuf, mcd, blit rdma 0 (SioResponse mcd length))
  else if cmd =? 0x22 then Some (1, w, dbuf, MceStartWrite mcd page, blit rdma 0 (SioResponse mcd length))
  else if cmd =? 0x23 then Some (1, w, dbuf, MceStartRead mcd page, blit rdma 0 (SioResponse mcd length))
  else if cmd =? 0x26 then Some (1, w, dbuf, mcd, blit rdma 0 (spec_response mcd))
  else if cmd =? 0x27 then
    let mcd := with_tcode mcd (nth 2 wdma 0) in
    Some (1, w, dbuf, mcd, blit rdma 0 (SioResponse mcd length))
  else if cmd =? 0x28 then Some (1, w, dbuf, mcd, blit (blit rdma 0 (SioResponse mcd 4)) 4 [u8 (tcode mcd)])
  else if cmd =? 0x42 then sio_write fuel w dbuf mcd wdma length result rdma
  else if cmd =? 0x43 then sio_read fuel w dbuf mcd (nth 2 wdma 0) result rdma
  else
    let known := (cmd =? 0x12) || (cmd =? 0x11) || (cmd =? 0x81) || (cmd =? 0x82) || (cmd =? 0xBF) || (cmd =? 0xF3) in
    Some (if known then 1 else 0, w, dbuf, mcd, blit rdma 0 (SioResponse mcd length)).

Record sio_packet := Packet {
  sp_ctrl : list Z;
  sp_wdma : bytes; sp_wrwords : nat; sp_wrcount : nat;
  sp_rdwords : nat;
}.

(** the emulator: the image, the page buffer and the two cards *)
Record mcemu := Emu { e_w : W; e_dbuf : bytes; e_cards : list MemoryCard }.

(** the loop of [Sio2McEmu] over the descriptors: the result, the number done, the
    emulator and the read buffer *)
Fixpoint sio_loop (fuel : nat) (ctrl : list Z) (wrcount : nat) (p : sio_packet) (wdma : bytes) (roff : nat)
    (result : Z) (ddi : Z) (s : mcemu) (rbuf : bytes) : option (Z * Z * mcemu * bytes) :=
  match ctrl, wrcount with
  | c :: ctrl', S n' =>
    if c =? 0 then Some (result, ddi, s, rbuf)
    else
      let rdma := drop roff rbuf in
      '(result, s, rdma) ←
        (if nth 0 wdma 0 =? 0x81 then
           let i := Z.to_nat (Z.land c 1) in
           mcd ← e_cards s !! i;
           if negb (mcnum mcd =? -1) then
             '(result, w, dbuf, mcd, rdma) ←
               sio_command fuel (e_w s) (e_dbuf s) mcd wdma (Z.land (Z.shiftr c 18) 511) result rdma;
             Some (result, Emu w dbuf (<[i := mcd]> (e_cards s)), rdma)
           else Some (0, s, blit rdma 0 (replicate (sp_rdwords p * 4) 255))
         else Some (0, s, rdma));
      sio_loop fuel ctrl' n' p (drop (sp_wrwords p * 4) wdma) (roff + sp_rdwords p * 4) result (ddi + 1) s
        (take roff rbuf ++ rdma)
  | _, _ => Some (result, ddi, s, rbuf)
  end.

(** [Sio2McEmu]: [iostatus], the emulator and the read buffer; [ctrl] has 16 entries *)
Definition Sio2McEmu (fuel : nat) (p : sio_packet) (s : mcemu) (rbuf : bytes) : option (Z * mcemu * bytes) :=
  if Z.land (nth 0 (sp_ctrl p) 0) 0xF0 =? 0x70 then
    '(result, ddi, s, rbuf) ← sio_loop fuel (take 16 (sp_ctrl p)) (sp_wrcount p) p (sp_wdma p) 0 1 0 s rbuf;
    Some (Z.lor (if 0 <? result then 0x1000 else 0x1D000) (Z.shiftl (Z.land ddi 15) 8), s, rbuf)
  else Some (0x1D100, s, rbuf).

(** [hookSio2man]: is the packet the emulator's; [pwr] is the PIO buffer *)
Definition hookSio2man (p : sio_packet) (pwr : bytes) (cards : list MemoryCard) : bool :=
  let ctrl := nth 0 (sp_ctrl p) 0 in
  match cards !! Z.to_nat (Z.land ctrl 1) with
  | Some mcd =>
    negb (mcnum mcd =? -1) &&
    ((if Z.land ctrl 0xF0 =? 0x70 then nth 0 (sp_wdma p) 0 else if Z.land ctrl 0xF0 =? 0x40 then nth 0 pwr 0 else 0) =? 0x81)
  | None => false
  end.
End McEmu.

(** ** The page code of the hard disk image (modules/mcemu/device-hdd.c) *)

Record pfs_block := Block { bl_number : Z; bl_subpart : nat; bl_count : Z }.

(** the loop of [Mcpage_to_Apasector] over the inode's extents; [starts] are the
    starts of the five partitions *)
Fixpoint apa_loop (blocks : list pfs_block) (starts : list Z) (mc_page ubound sector : Z) : Z :=
  match blocks with
  | [] => sector
  | b :: r =>
    let lbound := ubound in
    let ubound := u32 (ubound + bl_count b) in
    let sector :=
      if (u32 (Z.shiftl lbound 4) <=? mc_page) && (mc_page <? u32 (Z.shiftl ubound 4))
      then u32 (nth (bl_subpart b) starts 0 + u32 (Z.shiftl (bl_number b) 4) + (mc_page - u32 (Z.shiftl lbound 4))) else sector in
    apa_loop r starts mc_page ubound sector
  end.

Definition Mcpage_to_Apasector (blocks : list pfs_block) (starts : list Z) (mc_page : Z) : Z :=
  apa_loop (take 10 blocks) starts mc_page 0 0.

(** the sectors of the image in order: 16 for each block of an extent *)
Definition extent_sectors (starts : list Z) (b : pfs_block) : list Z :=
  map (fun i => u32 (nth (bl_subpart b) starts 0 + bl_number b * 16 + Z.of_nat i)) (seq 0 (Z.to_nat (bl_count b * 16))).
Definition image_sectors (starts : list Z) (blocks : list pfs_block) : list Z := concat (map (extent_sectors starts) blocks).

Definition block_ok (b : pfs_block) : Prop := 0 <= bl_number b < 2 ^ 28 /\ 0 <= bl_count b < 2 ^ 16 /\ (bl_subpart b < 5)%nat.

Lemma apa_loop_miss blocks : forall starts page ub sector,
  Forall block_ok blocks -> 0 <= page < ub * 16 -> (0 <= ub) -> ub + 65535 * Z.of_nat (length blocks) < 2 ^ 27 ->
  apa_loop blocks starts page ub sector = sector.
Proof.
  induction blocks as [|b r IH]; intros starts page ub sector Hok Hp Hu Hb; [done|].
  apply Forall_cons in Hok as [(_ & Hc & _) Hok]. cbn [apa_loop length] in *. rewrite !Z.shiftl_mul_pow2 by lia. change (2 ^ 4) with 16.
  rewrite (u32_id (ub * 16)), (u32_id (ub + bl_count b)) by lia.
  replace (ub * 16 <=? page) with false by lia. cbn [andb]. apply IH; [done|lia..].
Qed.

Lemma apa_loop_spec blocks : forall starts page ub sector,
  Forall block_ok blocks -> 0 <= ub -> ub + 65535 * Z.of_nat (length blocks) < 2 ^ 27 -> ub * 16 <= page ->
  apa_loop blocks starts page ub sector = nth (Z.to_nat (page - ub * 16)) (image_sectors starts blocks) sector.
Proof.
  induction blocks as [|b r IH]; intros starts page ub sector Hok Hu Hb Hp; [by destruct (Z.to_nat _)|].
  apply Forall_cons in Hok as [(Hn & Hc & _) Hok]. cbn [apa_loop length] in *. rewrite !Z.shiftl_mul_pow2 by lia. change (2 ^ 4) with 16.
  rewrite (u32_id (ub * 16)), (u32_id (ub + bl_count b)), (u32_id ((ub + bl_count b) * 16)), (u32_id (bl_number b * 16)) by lia.
  replace (ub * 16 <=? page) with true by lia. cbn [andb].
  unfold image_sectors. cbn [map concat].
  assert (Hl : length (extent_sectors starts b) = Z.to_nat (bl_count b * 16)) by (unfold extent_sectors; by rewrite length_map, length_seq).
  destruct (Z.ltb_spec page ((ub + bl_count b) * 16)) as [Hlt|Hge].
  - rewrite apa_loop_miss by (try done; lia). rewrite app_nth1 by lia. unfold extent_sectors.
    symmetry. apply nth_lookup_Some. change (map ?f ?l) with (f <$> l). rewrite list_lookup_fmap, lookup_seq_lt by lia.
    cbn [fmap option_fmap option_map]. do 2 f_equal. lia.
  - rewrite IH by (try done; lia). rewrite app_nth2 by lia. fold (image_sectors starts r). f_equal. lia.
Qed.

(** ** Error-correcting code *)

Definition flip (buf : bytes) (i : nat) (k : Z) : bytes := alter (fun x => Z.lxor x (2 ^ k)) i buf.

(** what a flipped bit changes in the three code bytes: the byte's column code, and
    its index twice, complemented and plain *)
Definition syndrome (i : nat) (k : Z) : list Z :=
  [Z.land (nth (Z.to_nat (2 ^ k)) xortable 0) 119; Z.lxor (Z.of_nat i) 127; Z.of_nat i].

Lemma xortable_flip x k : 0 <= x < 256 -> 0 <= k < 8 ->
  nth (Z.to_nat (Z.lxor x (2 ^ k))) xortable 0 = Z.lxor (nth (Z.to_nat x) xortable 0) (nth (Z.to_nat (2 ^ k)) xortable 0) /\
  0 <= Z.lxor x (2 ^ k) < 256.
Proof.
  intros Hx Hk.
  assert (H : forallb (fun k => forallb (fun x =>
    (nth (Z.to_nat (Z.lxor (Z.of_nat x) (2 ^ Z.of_nat k))) xortable 0 =? Z.lxor (nth x xortable 0) (nth (Z.to_nat (2 ^ Z.of_nat k)) xortable 0)) &&
    (0 <=? Z.lxor (Z.of_nat x) (2 ^ Z.of_nat k)) && (Z.lxor (Z.of_nat x) (2 ^ Z.of_nat k) <? 256))
    (seq 0 256)) (seq 0 8) = true) by (vm_compute; reflexivity).
  rewrite forallb_forall in H. specialize (H (Z.to_nat k)). rewrite forallb_forall in H by (apply in_seq; lia).
  specialize (H ltac:(apply in_seq; lia) (Z.to_nat x)). rewrite !Z2Nat.id in H by lia.
  specialize (H ltac:(apply in_seq; lia)). b2p. done.
Qed.

(** every single bit has an odd column: it enters the index codes *)
Lemma xortable_bit k : 0 <= k < 8 -> Z.land (nth (Z.to_nat (2 ^ k)) xortable 0) 128 = 128.
Proof.
  intros Hk. assert (H : forallb (fun k => Z.land (nth (Z.to_nat (2 ^ Z.of_nat k)) xortable 0) 128 =? 128) (seq 0 8) = true) by (vm_compute; reflexivity).
  rewrite forallb_forall in H. specialize (H (Z.to_nat k) ltac:(apply in_seq; lia)). rewrite Z2Nat.id in H by lia. by apply Z.eqb_eq in H.
Qed.

Ltac bitwise := apply Z.bits_inj'; intros ?n ?Hn; rewrite ?Z.lxor_spec, ?Z.land_spec, ?Z.lnot_spec, ?Z.lxor_spec by lia;
  repeat match goal with |- context [Z.testbit ?a ?b] => destruct (Z.testbit a b) end; try done.

Lemma ecc_loop_xor buf : forall i c1 c2 c3 d1 d2 d3,
  ecc_loop buf i (Z.lxor c1 d1) (Z.lxor c2 d2) (Z.lxor c3 d3) =
  let '(x, y, z) := ecc_loop buf i c1 c2 c3 in (Z.lxor x d1, Z.lxor y d2, Z.lxor z d3).
Proof.
  assert (S : forall c d b, Z.lxor (Z.lxor c d) b = Z.lxor (Z.lxor c b) d) by (intros c d b; bitwise).
  induction buf as [|x r IH]; intros i c1 c2 c3 d1 d2 d3; cbn [ecc_loop]; [done|].
  rewrite (S c1 d1). destruct (negb _); [rewrite (S c2 d2), (S c3 d3)|]; apply IH.
Qed.

Lemma ecc_loop_flip buf k : forall j i c1 c2 c3,
  Forall (fun x => 0 <= x < 256) buf -> 0 <= k < 8 -> (j < length buf)%nat ->
  ecc_loop (flip buf j k) i c1 c2 c3 =
  let '(x, y, z) := ecc_loop buf i c1 c2 c3 in
  (Z.lxor x (nth (Z.to_nat (2 ^ k)) xortable 0), Z.lxor y (Z.lnot (i + Z.of_nat j)), Z.lxor z (i + Z.of_nat j)).
Proof.
  induction buf as [|x r IH]; intros j i c1 c2 c3 Hb Hk Hj; [cbn in Hj; lia|].
  apply Forall_cons in Hb as [Hx Hb]. destruct j as [|j].
  - unfold flip. change (alter ?f 0%nat (x :: r)) with (f x :: r). cbn [ecc_loop]. rewrite Z.add_0_r.
    destruct (xortable_flip x k Hx Hk) as [-> _]. pose proof (xortable_bit k Hk) as Ht.
    set (t := nth (Z.to_nat (2 ^ k)) xortable 0) in *. set (b := nth (Z.to_nat x) xortable 0).
    assert (Hbit : Z.land (Z.lxor b t) 128 = Z.lxor (Z.land b 128) 128).
    { transitivity (Z.lxor (Z.land b 128) (Z.land t 128)); [bitwise|by rewrite Ht]. }
    assert (Hcase : Z.land b 128 = 0 \/ Z.land b 128 = 128).
    { destruct (Z.testbit b 7) eqn:E; [right|left]; apply Z.bits_inj'; intros n Hn; rewrite Z.land_spec;
        change 128 with (2 ^ 7); rewrite Z.pow2_bits_eqb by lia; rewrite ?Z.bits_0;
        destruct (Z.eqb_spec 7 n) as [<-|]; rewrite ?E, ?andb_false_r; done. }
    assert (A1 : Z.lxor c1 (Z.lxor b t) = Z.lxor (Z.lxor c1 b) t) by bitwise.
    rewrite Hbit, A1. destruct Hcase as [-> | ->]; cbn [Z.lxor Z.eqb negb].
    + change (negb (Z.lxor 0 128 =? 0)) with true. cbn [negb]. by rewrite ecc_loop_xor.
    + change (negb (Z.lxor 128 128 =? 0)) with false. cbv iota.
      rewrite <- (ecc_loop_xor r (i + 1) (Z.lxor c1 b) (Z.lxor c2 (Z.lnot i)) (Z.lxor c3 i) t (Z.lnot i) i).
      f_equal; bitwise.
  - unfold flip in *. change (alter ?f (S j) (x :: r)) with (x :: alter f j r). cbn [ecc_loop].
    replace (i + Z.of_nat (S j)) with (i + 1 + Z.of_nat j) by lia.
    destruct (negb _); apply IH; try done; cbn in Hj; lia.
Qed.

Lemma land_127 i : 0 <= i < 128 -> Z.land i 127 = i /\ Z.land (Z.lnot i) 127 = Z.lxor i 127.
Proof.
  intros Hi. change 127 with (Z.ones 7). split; [rewrite Z.land_ones by lia; by apply Z.mod_small|].
  apply Z.bits_inj'. intros n Hn. rewrite Z.land_spec, Z.lnot_spec, Z.lxor_spec by done.
  destruct (Z.ltb_spec n 7).
  - rewrite Z.ones_spec_low by lia. destruct (Z.testbit i n); done.
  - rewrite Z.ones_spec_high by lia.
    rewrite (Z.bits_above_log2 i n); [done|lia|].
    destruct (Z.eq_dec i 0) as [->|]; [cbn; lia|]. assert (Z.log2 i < 7) by (apply Z.log2_lt_pow2; lia). lia.
Qed.

Lemma flip_code buf i k :
  Forall (fun x => 0 <= x < 256) buf -> (i < 128)%nat -> (i < length buf)%nat -> 0 <= k < 8 ->
  zip_with Z.lxor (CalculateECC buf) (CalculateECC (flip buf i k)) = syndrome i k.
Proof.
  intros Hb Hi Hl Hk. unfold CalculateECC.
  replace (take 128 (flip buf i k)) with (flip (take 128 buf) i k).
  2:{ unfold flip. apply list_eq. intros j. destruct (Nat.lt_ge_cases j 128).
      - rewrite lookup_take_lt by done. rewrite !list_lookup_alter, !lookup_take_lt by lia. done.
      - rewrite lookup_take_ge by done. rewrite list_lookup_alter_ne by lia. by rewrite lookup_take_ge. }
  rewrite ecc_loop_flip; [|by apply Forall_take|done|rewrite length_take; lia].
  destruct (ecc_loop (take 128 buf) 0 0 0 0) as [[x y] z]. rewrite Z.add_0_l. unfold syndrome. cbn [zip_with].
  destruct (land_127 (Z.of_nat i)) as [L1 L2]; [lia|].
  assert (E1 : forall t, Z.lxor (Z.land (Z.lnot x) 119) (Z.land (Z.lnot (Z.lxor x t)) 119) = Z.land t 119) by (intros t; bitwise).
  assert (E2 : forall v m t, Z.lxor (Z.land (Z.lnot v) m) (Z.land (Z.lnot (Z.lxor v t)) m) = Z.land t m) by (intros v m t; bitwise).
  by rewrite E1, !E2, L1, L2.
Qed.

Lemma syndrome_inj i j k l : 0 <= k < 8 -> 0 <= l < 8 -> syndrome i k = syndrome j l -> i = j /\ k = l.
Proof.
  assert (G : forall a b c a' b' c' : Z, [a; b; c] = [a'; b'; c'] -> a = a' /\ c = c') by (intros; by simplify_eq).
  intros Hk Hl H. unfold syndrome in H. apply G in H as [H1 H3]. split; [lia|]. clear G.
  assert (C : forallb (fun k => forallb (fun l =>
    negb (Z.land (nth (Z.to_nat (2 ^ Z.of_nat k)) xortable 0) 119 =? Z.land (nth (Z.to_nat (2 ^ Z.of_nat l)) xortable 0) 119) || Nat.eqb k l)
    (seq 0 8)) (seq 0 8) = true) by (vm_compute; reflexivity).
  rewrite forallb_forall in C. specialize (C (Z.to_nat k) ltac:(apply in_seq; lia)).
  rewrite forallb_forall in C. specialize (C (Z.to_nat l) ltac:(apply in_seq; lia)).
  rewrite !Z2Nat.id in C by lia. rewrite H1, Z.eqb_refl in C. cbn in C. apply Nat.eqb_eq in C. lia.
Qed.

(** ** The image as pages *)

Class PageImage (W : Type) `{!PageDevice W} := {
  (** the pages of a card's image *)
  has_page : Z -> Z -> Prop;
  (** the 512 bytes of a page *)
  page_of : W -> Z -> Z -> bytes;
  page_of_length w n p : length (page_of w n p) = 512%nat;
  read_page_law w n p d : DeviceReadPage w n p = Some d -> d = page_of w n p;
  write_page_law w n b p w' : has_page n p -> length b = 512%nat -> DeviceWritePage w n b p = Some w' ->
    page_of w' n p = b /\ forall m q, has_page m q -> (m, q) <> (n, p) -> page_of w' m q = page_of w m q;
}.

(** the 16 spare bytes a card serves behind a page *)
Definition spare (fill : Z) (data : bytes) : bytes :=
  concat (map (fun k => CalculateECC (drop (128 * k) data)) (seq 0 4)) ++ replicate 4 fill.

Lemma CalculateECC_three buf : exists a b c, CalculateECC buf = [a; b; c].
Proof. unfold CalculateECC. destruct (ecc_loop _ _ _ _ _) as [[x y] z]. eauto. Qed.

Lemma page_ecc_spare fill data cb :
  (16 <= length cb)%nat ->
  let cb' := page_ecc 512 data (blit cb 0 (replicate 16 fill)) in
  take 16 cb' = spare fill data /\ length cb' = length cb.
Proof.
  intros H. unfold page_ecc, spare. change (seq 0 (Z.to_nat ((512 + 127) / 128))) with [0; 1; 2; 3]%nat.
  change (seq 0 4) with [0; 1; 2; 3]%nat. cbn [fold_left map].
  destruct (CalculateECC_three (drop (128 * 0) data)) as (a0 & b0 & c0 & ->).
  destruct (CalculateECC_three (drop (128 * 1) data)) as (a1 & b1 & c1 & ->).
  destruct (CalculateECC_three (drop (128 * 2) data)) as (a2 & b2 & c2 & ->).
  destruct (CalculateECC_three (drop (128 * 3) data)) as (a3 & b3 & c3 & ->).
  assert (E : blit cb 0 (replicate 16 fill) = replicate 16 fill ++ drop 16 cb) by done.
  assert (L : length cb = (16 + length (drop 16 cb))%nat) by (rewrite length_drop; lia). rewrite E, L.
  generalize (drop 16 cb). intros t. split; reflexivity.
Qed.

(** what the emulator's calls leave of a card *)
Definition std_card (mcd : MemoryCard) : Prop := PageSize (cspec mcd) = 512 /\ (16 <= length (cbuf mcd))%nat.
Definition same_card (a b : MemoryCard) : Prop :=
  mcnum a = mcnum b /\ cspec a = cspec b /\ flags a = flags b /\ length (cbuf a) = length (cbuf b) /\ tcode a = tcode b.

#[export] Instance same_card_equiv : Equivalence same_card.
Proof.
  split; [by intros a|by intros a b (? & ? & ? & ? & ?)|].
  intros a b c (H1 & H2 & H3 & H4 & H5) (G1 & G2 & G3 & G4 & G5). split_and!; congruence.
Qed.

Lemma same_std a b : same_card a b -> std_card a -> std_card b.
Proof. intros (_ & H1 & _ & H2 & _) [G1 G2]. split; [congruence|lia]. Qed.

Section Pages.
Context {W : Type} `{!PageDevice W, !PageImage W}.
Implicit Types (w : W) (mcd : MemoryCard) (dbuf : bytes).

(** reads of the given sizes, one after the other *)
Fixpoint read_run w dbuf mcd (ns : list Z) : option (bytes * bytes * MemoryCard) :=
  match ns with
  | [] => Some ([], dbuf, mcd)
  | n :: r =>
    '(ok, out, dbuf, mcd) ← MceRead 2 w dbuf mcd n;
    if ok : bool then '(out', dbuf, mcd) ← read_run w dbuf mcd r; Some (out ++ out', dbuf, mcd) else None
  end.

Lemma read_run_app w ns1 ns2 : forall dbuf mcd,
  read_run w dbuf mcd (ns1 ++ ns2) =
  ('(o1, dbuf, mcd) ← read_run w dbuf mcd ns1; '(o2, dbuf, mcd) ← read_run w dbuf mcd ns2; Some (o1 ++ o2, dbuf, mcd)).
Proof.
  induction ns1 as [|n r IH]; intros dbuf mcd; cbn [read_run app].
  - cbn. by destruct (read_run w dbuf mcd ns2) as [[[? ?] ?]|].
  - destruct (MceRead 2 w dbuf mcd n) as [[[[[] o] d] c]|]; cbn; [|done|done]. rewrite IH.
    destruct (read_run w d c r) as [[[o1 d1] c1]|]; cbn; [|done].
    destruct (read_run w d1 c1 ns2) as [[[o2 d2] c2]|]; cbn; [|done]. by rewrite app_assoc.
Qed.

(** in the middle of page [p]: [o] bytes read *)
Definition mid_page w dbuf mcd (p o : Z) : Prop :=
  rpage mcd = p /\ rdoff mcd = o /\ std_card mcd /\ length dbuf = 512%nat /\ 0 <= rcoff mcd /\ (o = 0 -> rcoff mcd = 0) /\
  (0 < o -> dbuf = page_of w (mcnum mcd) (u32 p) /\ take 16 (cbuf mcd) = spare (ecc_fill mcd) dbuf).
(** page [p] read, its spare bytes not *)
Definition spare_next w dbuf mcd (p : Z) : Prop :=
  rpage mcd = p + 1 /\ rdoff mcd = 0 /\ std_card mcd /\ length dbuf = 512%nat /\ 0 < rcoff mcd /\
  take 16 (cbuf mcd) = spare (ecc_fill mcd) (page_of w (mcnum mcd) (u32 p)).

Lemma do_read_ok w dbuf mcd :
  std_card mcd -> length dbuf = 512%nat -> is_Some (DeviceReadPage w (mcnum mcd) (u32 (rpage mcd))) ->
  exists cb, do_read w dbuf mcd = (true, page_of w (mcnum mcd) (u32 (rpage mcd)), with_ecc mcd cb) /\
    take 16 cb = spare (ecc_fill mcd) (page_of w (mcnum mcd) (u32 (rpage mcd))) /\ length cb = length (cbuf mcd).
Proof.
  intros [Hs Hl] Hd [d Hr]. unfold do_read. rewrite Hr. rewrite (read_page_law _ _ _ _ Hr).
  pose proof (page_of_length w (mcnum mcd) (u32 (rpage mcd))) as Hp.
  rewrite Hs. assert (E : blit dbuf 0 (page_of w (mcnum mcd) (u32 (rpage mcd))) = page_of w (mcnum mcd) (u32 (rpage mcd))).
  { unfold blit. rewrite drop_ge by lia. by rewrite app_nil_r. }
  rewrite E. eexists. split; [done|]. by apply page_ecc_spare.
Qed.

Lemma read_chunk w dbuf mcd p o n :
  mid_page w dbuf mcd p o -> 0 <= o -> 0 < n -> o + n <= 512 -> is_Some (DeviceReadPage w (mcnum mcd) (u32 p)) ->
  let data := page_of w (mcnum mcd) (u32 p) in
  exists dbuf' mcd', MceRead 2 w dbuf mcd n = Some (true, take (Z.to_nat n) (drop (Z.to_nat o) data), dbuf', mcd') /\
    same_card mcd mcd' /\
    (if o + n <? 512 then mid_page w dbuf' mcd' p (o + n) else spare_next w dbuf' mcd' p).
Proof.
  intros (<- & <- & Hc & Hd & Hr & H0 & Hm) Ho Hn Hle Hdev data. unfold MceRead. cbn [mce_read].
  assert (Hecc : negb (rcoff mcd =? 0) && (rdoff mcd =? 0) = false).
  { destruct (Z.eqb_spec (rdoff mcd) 0) as [E|]; [|by rewrite andb_false_r]. by rewrite H0. }
  rewrite Hecc. cbn [andb]. destruct Hc as [Hs Hl]. rewrite Hs. replace (rdoff mcd <? 512) with true by lia.
  assert (R : exists cb, (if rdoff mcd =? 0 then do_read w dbuf mcd else (true, dbuf, mcd)) = (true, data, with_ecc mcd cb) /\
    take 16 cb = spare (ecc_fill mcd) data /\ length cb = length (cbuf mcd)).
  { destruct (Z.eqb_spec (rdoff mcd) 0) as [E|E].
    - destruct (do_read_ok w dbuf mcd) as (cb & H1 & H2); [done|done|done|]. eauto.
    - destruct Hm as [-> Ht]; [lia|]. exists (cbuf mcd). split; [|done]. by destruct mcd. }
  destruct R as (cb & -> & Hcb & Hlen). cbn [negb].
  change (rdoff (with_ecc mcd cb)) with (rdoff mcd). change (cspec (with_ecc mcd cb)) with (cspec mcd). rewrite Hs.
  rewrite u32_id by lia. replace (512 <? n + rdoff mcd) with false by lia. cbn [negb].
  cbn [rdoff with_read cspec with_ecc]. rewrite Hs.
  pose proof (page_of_length w (mcnum mcd) (u32 (rpage mcd))) as Hpl.
  destruct (Z.ltb_spec (rdoff mcd + n) 512) as [Hlt|Hge].
  - replace (rdoff mcd + n =? 512) with false by lia. eexists _, _. split; [done|]. split; [by split_and!|].
    split_and!; cbn; try done; try lia; split; cbn; [done|lia].
  - replace (rdoff mcd + n =? 512) with true by lia. rewrite Z.sub_diag. cbn [Z.ltb]. change (0 <? u32 0) with false. cbv iota.
    eexists _, _. split; [done|]. split; [by split_and!|]. split_and!; cbn; try done; try lia; split; cbn; [done|lia].
Qed.

Lemma read_spare w dbuf mcd p :
  spare_next w dbuf mcd p ->
  exists mcd', MceRead 2 w dbuf mcd 16 = Some (true, spare (ecc_fill mcd) (page_of w (mcnum mcd) (u32 p)), dbuf, mcd') /\
    same_card mcd mcd' /\ mid_page w dbuf mcd' (p + 1) 0.
Proof.
  intros (H1 & H2 & H3 & H4 & H5 & H6). unfold MceRead. cbn [mce_read]. rewrite H2.
  replace (negb (rcoff mcd =? 0)) with true by lia. cbn [andb Z.eqb]. change (16 <? 16) with false. cbv iota.
  change (12 <? 16) with true. cbv iota. change (16 - 16 =? 0) with true. cbn [app]. rewrite <- H6.
  eexists. split; [done|]. split; [by split_and!|]. split_and!; cbn; try done; lia.
Qed.

Lemma sum_nonneg ns : Forall (fun n => 0 < n) ns -> 0 <= foldr Z.add 0 ns.
Proof. induction 1; cbn; lia. Qed.

Lemma read_chunks w ns : forall dbuf mcd p o,
  mid_page w dbuf mcd p o -> 0 <= o -> Forall (fun n => 0 < n) ns -> o + foldr Z.add 0 ns = 512 -> ns <> [] ->
  is_Some (DeviceReadPage w (mcnum mcd) (u32 p)) ->
  exists dbuf' mcd', read_run w dbuf mcd ns = Some (drop (Z.to_nat o) (page_of w (mcnum mcd) (u32 p)), dbuf', mcd') /\
    same_card mcd mcd' /\ spare_next w dbuf' mcd' p.
Proof.
  induction ns as [|n r IH]; intros dbuf mcd p o Hm Ho Hns Hsum Hne Hdev; [done|].
  apply Forall_cons in Hns as [Hn Hns]. cbn [foldr] in Hsum.
  pose proof (sum_nonneg r Hns) as Hr.
  destruct (read_chunk w dbuf mcd p o n Hm Ho Hn ltac:(lia) Hdev) as (d1 & c1 & E & Hsame & Hst).
  cbn [read_run]. rewrite E. cbn [mbind option_bind].
  pose proof Hsame as (Hnum & _).
  destruct (Z.ltb_spec (o + n) 512) as [Hlt|Hge].
  - destruct (IH d1 c1 p (o + n)) as (d2 & c2 & E2 & Hs2 & Hst2); [done|lia|done|lia| |by rewrite <- Hnum|].
    { intros ->. cbn in Hsum. lia. }
    rewrite E2. cbn. rewrite <- Hnum. exists d2, c2. split; [|split; [by etrans|done]].
    do 3 f_equal. rewrite <- (take_drop (Z.to_nat n) (drop (Z.to_nat o) _)) at 2. rewrite drop_drop. do 2 f_equal. lia.
  - assert (r = []) as ->.
    { destruct r as [|m r]; [done|]. apply Forall_cons in Hns as [Hm' Hns]. cbn in Hsum.
      assert (0 <= foldr Z.add 0 r) by (by apply sum_nonneg). lia. }
    cbn. exists d1, c1. split; [|done]. rewrite app_nil_r, take_ge; [done|]. rewrite length_drop, page_of_length. lia.
Qed.

(** pages with their spare bytes, as a game reads them *)
Fixpoint raw_pages w (num fill : Z) (n : nat) (p : Z) : bytes :=
  match n with
  | O => []
  | S n' => page_of w num (u32 p) ++ spare fill (page_of w num (u32 p)) ++ raw_pages w num fill n' (p + 1)
  end.

(** a page in any pieces, and its spare bytes in one *)
Definition page_reads (ns : list Z) : Prop := Forall (fun n => 0 < n) ns /\ foldr Z.add 0 ns = 512.

(** writes of the given pieces, one after the other *)
Fixpoint write_run w dbuf mcd (bufs : list bytes) : option (W * bytes * MemoryCard) :=
  match bufs with
  | [] => Some (w, dbuf, mcd)
  | b :: r =>
    '(ok, w, dbuf, mcd) ← MceWrite 2 w dbuf mcd b (strlen b);
    if ok : bool then write_run w dbuf mcd r else None
  end.

Lemma write_run_app bufs1 bufs2 : forall w dbuf mcd,
  write_run w dbuf mcd (bufs1 ++ bufs2) = ('(w, dbuf, mcd) ← write_run w dbuf mcd bufs1; write_run w dbuf mcd bufs2).
Proof.
  induction bufs1 as [|b r IH]; intros w dbuf mcd; cbn [write_run app]; [done|].
  destruct (MceWrite 2 w dbuf mcd b (strlen b)) as [[[[[] w1] d] c]|]; cbn; [|done|done]. by rewrite IH.
Qed.

(** in the middle of page [p]: [front] written *)
Definition mid_write dbuf mcd (p : Z) (front : bytes) : Prop :=
  wpage mcd = p /\ wroff mcd = strlen front /\ std_card mcd /\ length dbuf = 512%nat /\ 0 <= wcoff mcd /\
  (front = [] -> wcoff mcd = 0) /\ take (length front) dbuf = front.
Definition skip_spare dbuf mcd (p : Z) : Prop :=
  wpage mcd = p + 1 /\ wroff mcd = 0 /\ std_card mcd /\ length dbuf = 512%nat /\ 0 < wcoff mcd.

Lemma write_chunk w dbuf mcd p front b :
  mid_write dbuf mcd p front -> b <> [] -> (length front + length b <= 512)%nat ->
  exists dbuf' mcd', same_card mcd mcd' /\
    if Nat.ltb (length front + length b) 512 then
      MceWrite 2 w dbuf mcd b (strlen b) = Some (true, w, dbuf', mcd') /\ mid_write dbuf' mcd' p (front ++ b)
    else forall w', DeviceWritePage w (mcnum mcd) (front ++ b) (u32 p) = Some w' ->
      MceWrite 2 w dbuf mcd b (strlen b) = Some (true, w', dbuf', mcd') /\ skip_spare dbuf' mcd' p.
Proof.
  intros (<- & Ho & [Hs Hl] & Hd & Hr & H0 & Hf) Hb Hle. unfold MceWrite. cbn [mce_write].
  assert (Hbl : 0 < strlen b) by (unfold strlen; destruct b; [done|cbn; lia]).
  assert (Hecc : negb (wcoff mcd =? 0) && (wroff mcd =? 0) = false).
  { destruct (Z.eqb_spec (wroff mcd) 0) as [E|]; [|by rewrite andb_false_r]. rewrite H0; [done|].
    destruct front; [done|]. unfold strlen in Ho. cbn in Ho. lia. }
  rewrite Hecc. cbn [andb]. rewrite Hs. unfold strlen in *. replace (wroff mcd <? 512) with true by lia.
  rewrite u32_id by lia. replace (512 <? Z.of_nat (length b) + wroff mcd) with false by lia.
  rewrite Nat2Z.id, (take_ge b) by lia. rewrite Ho, Nat2Z.id.
  destruct (blit_append dbuf (length front) b ltac:(lia)) as [B1 B2]. rewrite Hf in B1.
  cbn [wroff with_write cspec]. rewrite Hs.
  destruct (Nat.ltb_spec (length front + length b) 512) as [Hlt|Hge].
  - replace (Z.of_nat (length front) + Z.of_nat (length b) =? 512) with false by lia.
    eexists _, _. split; [|split; [done|]]; [by split_and!|].
    split_and!; cbn; try done; try lia.
    + unfold strlen. rewrite length_app. lia.
    + intros E. apply app_eq_nil in E as [_ ->]. done.
    + by rewrite length_app.
  - replace (Z.of_nat (length front) + Z.of_nat (length b) =? 512) with true by lia.
    assert (E : blit dbuf (length front) b = front ++ b) by (rewrite <- B1, take_ge by lia; done).
    rewrite E. cbn [mcnum with_write wpage]. rewrite Z.sub_diag. change (0 <? u32 0) with false.
    eexists _, _. split; [|intros w' ->; split; [done|]]; [by split_and!|]. rewrite E in B2.
    split_and!; cbn; try done; try lia.
Qed.

Lemma write_spare w dbuf mcd p s :
  skip_spare dbuf mcd p -> length s = 16%nat ->
  exists mcd', MceWrite 2 w dbuf mcd s (strlen s) = Some (true, w, dbuf, mcd') /\ same_card mcd mcd' /\ mid_write dbuf mcd' (p + 1) [].
Proof.
  intros (H1 & H2 & H3 & H4 & H5) Hs. unfold MceWrite, strlen. rewrite Hs. cbn [mce_write]. rewrite H2.
  replace (negb (wcoff mcd =? 0)) with true by lia. cbn [andb Z.eqb]. change (Z.of_nat 16 <? 16) with false. cbv iota.
  change (12 <? 16) with true. change (Z.of_nat 16 - 16 =? 0) with true. cbv iota.
  eexists. split; [done|]. split; [by split_and!|]. split_and!; cbn; try done; lia.
Qed.

Lemma write_chunks bufs : forall w dbuf mcd p front,
  mid_write dbuf mcd p front -> Forall (fun b => b <> []) bufs -> (length (front ++ concat bufs) = 512)%nat -> bufs <> [] ->
  (forall w b, length b = 512%nat -> is_Some (DeviceWritePage w (mcnum mcd) b (u32 p))) ->
  exists w' dbuf' mcd', write_run w dbuf mcd bufs = Some (w', dbuf', mcd') /\
    DeviceWritePage w (mcnum mcd) (front ++ concat bufs) (u32 p) = Some w' /\ same_card mcd mcd' /\ skip_spare dbuf' mcd' p.
Proof.
  induction bufs as [|b r IH]; intros w dbuf mcd p front Hm Hb Hl Hne Hdev; [done|].
  apply Forall_cons in Hb as [Hb1 Hb]. cbn [concat] in *. rewrite !length_app in Hl.
  destruct (write_chunk w dbuf mcd p front b Hm Hb1 ltac:(lia)) as (d1 & c1 & Hsame & H).
  cbn [write_run]. destruct (Nat.ltb_spec (length front + length b) 512) as [Hlt|Hge].
  - destruct H as [E Hst]. rewrite E. cbn [mbind option_bind]. pose proof Hsame as (Hn & _).
    destruct (IH w d1 c1 p (front ++ b)) as (w2 & d2 & c2 & E2 & W2 & Hs2 & Hst2); [done|done| | |by rewrite <- Hn|].
    { rewrite !length_app. lia. }
    { intros ->. cbn in Hl. lia. }
    exists w2, d2, c2. rewrite Hn, app_assoc. split_and!; try done. by etrans.
  - assert (r = []) as ->.
    { destruct r as [|x r]; [done|]. apply Forall_inv in Hb. destruct x; [done|]. cbn in Hl. lia. }
    cbn [concat]. rewrite app_nil_r. destruct (Hdev w (front ++ b)) as [w' Hw].
    { rewrite length_app. cbn in Hl. lia. }
    destruct (H w' Hw) as [E Hst]. exists w', d1, c1. by rewrite E.
Qed.

(** a page in pieces and 16 spare bytes, which are not stored *)
Definition page_writes (x : list bytes * bytes) : Prop :=
  Forall (fun b => b <> []) (fst x) /\ length (concat (fst x)) = 512%nat /\ length (snd x) = 16%nat.

Fixpoint stored w (num p : Z) (l : list bytes) : Prop :=
  match l with [] => True | d :: r => page_of w num p = d /\ stored w num (p + 1) r end.

(** the pages from [p] on are of the card's image *)
Definition has_pages (num p : Z) (n : nat) : Prop :=
  0 <= p /\ p + Z.of_nat n <= 2 ^ 32 /\ forall q, p <= q < p + Z.of_nat n -> has_page num q.

Lemma has_pages_S num p n : has_pages num p (S n) -> u32 p = p /\ has_page num p /\ has_pages num (p + 1) n.
Proof. intros (H0 & Hp & H). split_and!; [apply u32_id; lia|apply H; lia|]. split_and!; [lia..|]. intros q Hq. apply H. lia. Qed.

Lemma read_pages w nss : forall dbuf mcd p,
  mid_page w dbuf mcd p 0 -> Forall page_reads nss -> has_pages (mcnum mcd) p (length nss) ->
  (forall q, has_page (mcnum mcd) q -> is_Some (DeviceReadPage w (mcnum mcd) q)) ->
  exists dbuf' mcd', read_run w dbuf mcd (concat (map (fun ns => ns ++ [16]) nss)) =
    Some (raw_pages w (mcnum mcd) (ecc_fill mcd) (length nss) p, dbuf', mcd') /\ same_card mcd mcd'.
Proof.
  induction nss as [|ns nss IH]; intros dbuf mcd p Hm Hok Hpg Hdev; [by exists dbuf, mcd|].
  apply Forall_cons in Hok as [[Hns Hsum] Hok]. cbn [map concat length raw_pages] in *. rewrite <- app_assoc.
  destruct (has_pages_S _ _ _ Hpg) as (Hu & Hp & Hrest).
  destruct (read_chunks w ns dbuf mcd p 0) as (d1 & c1 & E1 & Hs1 & Hst1); try done; [by intros ->|rewrite Hu; by auto|].
  rewrite read_run_app, E1. cbn [mbind option_bind].
  destruct (read_spare w d1 c1 p Hst1) as (c2 & E2 & Hs2 & Hst2).
  rewrite read_run_app. cbn [read_run]. rewrite E2. cbn [mbind option_bind].
  assert (Hc : same_card mcd c2) by (by etrans). pose proof Hc as (N & _).
  destruct (IH d1 c2 (p + 1) Hst2 Hok) as (d3 & c3 & E3 & Hs3); [by rewrite <- N|by rewrite <- N|]. rewrite E3. cbn.
  destruct Hs1 as (N1 & _ & F1 & _), Hc as (N2 & C2 & F2 & L2).
  exists d3, c3. split; [|by transitivity c2].
  rewrite <- N1, <- N2. unfold ecc_fill. rewrite <- F1, <- F2. do 3 f_equal. by rewrite app_nil_r.
Qed.

Lemma write_pages l : forall w dbuf mcd p,
  mid_write dbuf mcd p [] -> Forall page_writes l -> has_pages (mcnum mcd) p (length l) ->
  (forall w b q, has_page (mcnum mcd) q -> length b = 512%nat -> is_Some (DeviceWritePage w (mcnum mcd) b q)) ->
  exists w' dbuf' mcd', write_run w dbuf mcd (concat (map (fun x => fst x ++ [snd x]) l)) = Some (w', dbuf', mcd') /\
    same_card mcd mcd' /\ length dbuf' = 512%nat /\ stored w' (mcnum mcd) p (map (fun x => concat (fst x)) l) /\
    forall m q, has_page m q -> ~ (m = mcnum mcd /\ p <= q < p + Z.of_nat (length l)) -> page_of w' m q = page_of w m q.
Proof.
  induction l as [|[cs s] l IH]; intros w dbuf mcd p Hm Hok Hpg Hdev.
  { exists w, dbuf, mcd. split_and!; try done. by destruct Hm as (_ & _ & _ & ? & _). }
  apply Forall_cons in Hok as [(Hcs & Hlen & Hsl) Hok]. cbn [fst snd] in *. cbn [map concat length fst snd] in *.
  destruct (has_pages_S _ _ _ Hpg) as (Hu & Hp & Hrest). rewrite <- app_assoc.
  destruct (write_chunks cs w dbuf mcd p [] Hm Hcs) as (w1 & d1 & c1 & E1 & W1 & Hs1 & Hst1); [done|by intros ->|rewrite Hu; by auto|].
  rewrite write_run_app, E1. cbn [mbind option_bind]. rewrite write_run_app. cbn [write_run].
  destruct (write_spare w1 d1 c1 p s Hst1 Hsl) as (c2 & E2 & Hs2 & Hst2). rewrite E2. cbn [mbind option_bind].
  assert (Hc : same_card mcd c2) by (by etrans). pose proof Hc as (N2 & _).
  destruct (IH w1 d1 c2 (p + 1)) as (w3 & d3 & c3 & E3 & Hs3 & Hd3 & Hst3 & Ho3); [done|done|by rewrite <- N2|by rewrite <- N2|].
  exists w3, d3, c3. cbn [app] in W1. rewrite Hu in W1. destruct (write_page_law _ _ _ _ _ Hp Hlen W1) as [P1 P2].
  split_and!; try done; [by transitivity c2| |].
  - cbn [stored]. split; [|by rewrite N2]. rewrite Ho3; [done|done|]. rewrite N2. lia.
  - intros m q Hq Hmq. rewrite Ho3; [|done|].
    + apply P2; [done|]. intros [= -> ->]. apply Hmq. split; [done|lia].
    + intros [-> Hq2]. apply Hmq. split; [by rewrite N2|lia].
Qed.

Lemma stored_raw w num fill l : forall p,
  has_pages num p (length l) -> stored w num p l -> raw_pages w num fill (length l) p = concat (map (fun d => d ++ spare fill d) l).
Proof.
  induction l as [|d r IH]; intros p Hp; cbn [stored length raw_pages map concat]; [done|].
  intros [H1 H2]. cbn [length] in Hp. apply has_pages_S in Hp as (-> & _ & Hp). rewrite H1, IH by done. by rewrite app_assoc.
Qed.

(** the sizes and results of a game's calls: pages written from page [p] on, then read back *)
Definition write_pages_cmd w dbuf mcd (p : Z) (l : list (list bytes * bytes)) :=
  write_run w dbuf (MceStartWrite mcd p) (concat (map (fun x => fst x ++ [snd x]) l)).
Definition read_pages_cmd w dbuf mcd (p : Z) (nss : list (list Z)) :=
  read_run w dbuf (MceStartRead mcd p) (concat (map (fun ns => ns ++ [16]) nss)).

(** C5. Pages written to a virtual card from a page of the image on (a write command,
    then each page in pieces of any size followed by its 16 spare bytes) read back
    (in pieces of any other sizes, each page followed by 16 spare bytes) as the data
    written, and the spare bytes read are the four check codes of the page and the
    card's fill, whatever spare bytes were written. No other page of the image, of
    this card or the other, changes. *)
Theorem vmc_write_read w dbuf mcd p l nss :
  std_card mcd -> length dbuf = 512%nat -> has_pages (mcnum mcd) p (length l) ->
  Forall page_writes l -> Forall page_reads nss -> length nss = length l ->
  (forall w b q, has_page (mcnum mcd) q -> length b = 512%nat -> is_Some (DeviceWritePage w (mcnum mcd) b q)) ->
  (forall w q, has_page (mcnum mcd) q -> is_Some (DeviceReadPage w (mcnum mcd) q)) ->
  exists w1 d1 m1 d2 m2,
    write_pages_cmd w dbuf mcd p l = Some (w1, d1, m1) /\
    read_pages_cmd w1 d1 m1 p nss =
      Some (concat (map (fun x => concat (fst x) ++ spare (ecc_fill mcd) (concat (fst x))) l), d2, m2) /\
    forall m q, has_page m q -> ~ (m = mcnum mcd /\ p <= q < p + Z.of_nat (length l)) -> page_of w1 m q = page_of w m q.
Proof.
  intros Hc Hd Hp Hl Hn Hlen Hw Hr.
  destruct (write_pages l w dbuf (MceStartWrite mcd p) p) as (w1 & d1 & m1 & E1 & Hs1 & Hd1 & Hst & Ho); [by split_and!|done..|].
  pose proof (same_std _ _ Hs1 ltac:(done)) as Hc1.
  destruct (read_pages w1 nss d1 (MceStartRead m1 p) p) as (d2 & m2 & E2 & _).
  { split_and!; cbn; try done; lia. }
  { done. }
  { cbn. destruct Hs1 as [<- _]. by rewrite Hlen. }
  { cbn. destruct Hs1 as [<- _]. intros q Hq. by apply Hr. }
  exists w1, d1, m1, d2, m2. split; [done|]. split; [|done]. unfold read_pages_cmd. rewrite E2.
  destruct Hs1 as (N1 & _ & F1 & _). cbn in N1, F1. unfold ecc_fill. cbn [mcnum flags MceStartRead with_read]. rewrite <- N1, <- F1, Hlen.
  rewrite <- (length_map (fun x => concat (fst x)) l), stored_raw; [|by rewrite length_map|done]. by rewrite map_map.
Qed.
End Pages.

(** ** Packets over pages *)

(** the slot of a read command: status bytes, the chunk, its check byte and the
    termination code *)
Definition read_slot (chunk : bytes) (t : Z) : bytes :=
  [255; 255; 255; 43] ++ chunk ++ [CalculateEDC chunk (length chunk); u8 t].

Lemma read_slot_spec rdma chunk mcd n :
  n = length chunk -> (n + 6 <= length rdma)%nat ->
  let r := blit (blit rdma 0 (SioResponse mcd 5)) 4 chunk in
  blit (blit r (n + 4) [CalculateEDC (drop 4 r) n]) (n + 5) [u8 (tcode mcd)] = read_slot chunk (tcode mcd) ++ drop (n + 6) rdma.
Proof.
  intros Hn Hl r. set (h := [255; 255; 255; 43]). set (t := u8 (tcode mcd)).
  assert (E : exists m a b, length m = n /\ blit rdma 0 (SioResponse mcd 5) = h ++ m ++ [a; b] ++ drop (n + 6) rdma).
  { destruct rdma as [|x0 [|x1 [|x2 [|x3 [|x4 rest]]]]]; try (cbn in Hl; lia). cbn [length] in Hl.
    exists (take n (t :: rest)). destruct (drop n (t :: rest)) as [|a [|b tl]] eqn:Ed;
      apply (f_equal length) in Ed as El; rewrite length_drop in El; cbn [length] in El; try lia.
    exists a, b. split; [rewrite length_take; cbn; lia|].
    change (blit (x0 :: x1 :: x2 :: x3 :: x4 :: rest) 0 (SioResponse mcd 5)) with (h ++ t :: rest). f_equal.
    rewrite <- (take_drop n (t :: rest)) at 1. rewrite Ed. f_equal. cbn [app]. do 2 f_equal.
    rewrite (Nat.add_comm n 6). change (drop (6 + n) (x0 :: x1 :: x2 :: x3 :: x4 :: rest)) with (drop (S n) rest).
    apply (f_equal (drop 2)) in Ed. rewrite drop_drop in Ed. rewrite Nat.add_comm in Ed. by cbn in Ed. }
  destruct E as (m & a & b & Hm & E). unfold r. rewrite E.
  rewrite (blit_at h m) by (subst; done). cbn [drop]. change (drop 4 (h ++ ?x)) with x.
  unfold CalculateEDC at 1. rewrite take_app_length' by done.
  rewrite (app_assoc h chunk). change ([a; b] ++ ?x) with ([a] ++ [b] ++ x).
  rewrite (blit_at (h ++ chunk) [a]) by (rewrite ?length_app; cbn; subst; lia).
  rewrite (app_assoc _ [_] ([b] ++ _)).
  rewrite (blit_at ((h ++ chunk) ++ _) [b]) by (rewrite ?length_app; cbn; subst; lia).
  unfold read_slot, CalculateEDC. fold h. rewrite <- !app_assoc. by rewrite firstn_all.
Qed.

Section Slots.
Context {W : Type} `{!PageDevice W, !PageImage W}.
Implicit Types (w : W) (mcd : MemoryCard) (dbuf rdma : bytes).

Lemma mce_read_fails w dbuf mcd n :
  rdoff mcd = 0 -> rcoff mcd = 0 -> std_card mcd -> DeviceReadPage w (mcnum mcd) (u32 (rpage mcd)) = None ->
  exists mcd', MceRead 2 w dbuf mcd n = Some (false, [], dbuf, mcd') /\ same_card mcd mcd' /\ rpage mcd' = rpage mcd.
Proof.
  intros H1 H2 [H3 H4] H5. unfold MceRead. cbn [mce_read]. rewrite H1, H2. cbn [Z.eqb negb andb]. rewrite H1, H3.
  change (0 <? 512) with true. cbv iota. unfold do_read. rewrite H5. cbn [negb]. eexists. split; [done|]. split; [|done].
  split_and!; try done. cbn [with_ecc cbuf]. by rewrite blit_length by (rewrite length_replicate; lia).
Qed.

(** A read command (0x81 0x43) answered by the emulator inside a page: the slot
    holds the status bytes, the bytes of the page at the read offset, their XOR check
    byte and the termination code, the rest of the buffer is untouched, and the
    offset moves on (to the spare bytes, at the page's end). When the device cannot
    read the page the result is 0 and the slot has the same form over 0xFF bytes. *)
Theorem sio_read_answer w dbuf mcd p o n wdma len result rdma :
  mid_page w dbuf mcd p o -> 0 <= o -> 0 < n -> o + n <= 512 -> nth 1 wdma 0 = 0x43 -> nth 2 wdma 0 = n ->
  result <> 0 -> (Z.to_nat n + 6 <= length rdma)%nat -> (o = 0 \/ is_Some (DeviceReadPage w (mcnum mcd) (u32 p))) ->
  let tail := drop (Z.to_nat n + 6) rdma in
  exists dbuf' mcd', same_card mcd mcd' /\
    match DeviceReadPage w (mcnum mcd) (u32 p) with
    | Some _ =>
      sio_command 2 w dbuf mcd wdma len result rdma =
        Some (1, w, dbuf', mcd', read_slot (take (Z.to_nat n) (drop (Z.to_nat o) (page_of w (mcnum mcd) (u32 p)))) (tcode mcd) ++ tail) /\
      (if o + n <? 512 then mid_page w dbuf' mcd' p (o + n) else spare_next w dbuf' mcd' p)
    | None =>
      sio_command 2 w dbuf mcd wdma len result rdma =
        Some (0, w, dbuf', mcd', read_slot (replicate (Z.to_nat n) 255) (tcode mcd) ++ tail) /\ rpage mcd' = p
    end.
Proof.
  intros Hm Ho Hn Hle Hc Hlen Hres Hl Hdev tail.
  destruct (DeviceReadPage w (mcnum mcd) (u32 p)) as [d|] eqn:Er.
  - destruct (read_chunk w dbuf mcd p o n Hm Ho Hn Hle ltac:(by eexists)) as (d1 & c1 & E & Hs & Hst).
    exists d1, c1. split; [done|]. split; [|done]. unfold sio_command. rewrite Hc. cbn [Z.eqb Pos.eqb]. unfold sio_read.
    rewrite Hlen. replace (negb (result =? 0)) with true by lia. rewrite E. cbn [mbind option_bind]. change (1 =? 0) with false. cbv iota zeta.
    pose proof Hs as (_ & _ & _ & _ & <-). rewrite read_slot_spec; [done| |done].
    rewrite length_take, length_drop, page_of_length. lia.
  - destruct Hdev as [->|[? ?]]; [|done]. destruct Hm as (<- & Hd & Hstd & _ & _ & H0 & _).
    destruct (mce_read_fails w dbuf mcd n Hd ltac:(by apply H0) Hstd Er) as (c1 & E & Hs & Hp).
    exists dbuf, c1. split; [done|]. split; [|done]. unfold sio_command. rewrite Hc. cbn [Z.eqb Pos.eqb]. unfold sio_read.
    rewrite Hlen. replace (negb (result =? 0)) with true by lia. rewrite E. cbn [mbind option_bind]. change (0 =? 0) with true. cbv iota zeta.
    pose proof Hs as (_ & _ & _ & _ & <-).
    unfold tail. rewrite <- (read_slot_spec rdma (replicate (Z.to_nat n) 255) mcd (Z.to_nat n)); [|by rewrite length_replicate|done].
    by rewrite (blit_nil _ 4).
Qed.
End Slots.

Lemma flip_flip buf i k : flip (flip buf i k) i k = buf.
Proof.
  unfold flip. rewrite list_alter_alter_eq. apply list_alter_id. intros x. cbn.
  rewrite Z.lxor_assoc, Z.lxor_nilpotent. apply Z.lxor_0_r.
Qed.

(** The three code bytes of 128 bytes of data locate any single flipped bit: the
    codes of the data and of the damaged data differ by a syndrome that no other bit
    of the chunk has, so that flipping the bit it names gives the data back. *)
Theorem ecc_locates_bit buf i k :
  Forall (fun x => 0 <= x < 256) buf -> length buf = 128%nat -> (i < 128)%nat -> 0 <= k < 8 ->
  zip_with Z.lxor (CalculateECC buf) (CalculateECC (flip buf i k)) = syndrome i k /\
  CalculateECC (flip buf i k) <> CalculateECC buf /\
  forall j l, 0 <= l < 8 -> syndrome i k = syndrome j l -> flip (flip buf i k) j l = buf.
Proof.
  intros Hb Hlen Hi Hk. pose proof (flip_code buf i k Hb Hi ltac:(lia) Hk) as Hs. split_and!; [done| |].
  - intros E. rewrite E in Hs. destruct (CalculateECC buf) as [|a [|b [|c r]]]; try done.
    cbn in Hs. rewrite !Z.lxor_nilpotent in Hs. unfold syndrome in Hs. destruct r; [|done]. injection Hs as _ H1 H2.
    rewrite <- H2 in H1. done.
  - intros j l Hl E. destruct (syndrome_inj i j k l Hk Hl E) as [<- <-]. apply flip_flip.
Qed.

Lemma ecc_locates_bit_witness :
  let buf := map Z.of_nat (seq 0 128) in
  CalculateECC (flip buf 77 5) <> CalculateECC buf /\ flip (flip buf 77 5) 77 5 = buf.
Proof.
  split.
  - apply (ecc_locates_bit (map Z.of_nat (seq 0 128)) 77 5); [|done|lia|lia]. apply (bool_decide_unpack _). vm_compute. exact I.
  - apply (ecc_locates_bit (map Z.of_nat (seq 0 128)) 77 5); [|done|lia|lia|lia|done]. apply (bool_decide_unpack _). vm_compute. exact I.
Defined.

(** ** The hard disk image *)

(** the disk behind [sceAtaDmaTransfer], one sector at a time *)
Class SectorDevice (D : Type) := {
  sector_of : D -> Z -> bytes;
  ata_read : D -> Z -> option bytes;
  ata_write : D -> Z -> bytes -> option D;
  sector_of_length s l : length (sector_of s l) = 512%nat;
  ata_read_law s l b : ata_read s l = Some b -> b = sector_of s l;
  ata_write_law s l b s' : length b = 512%nat -> ata_write s l b = Some s' ->
    sector_of s' l = b /\ forall l', l' <> l -> sector_of s' l' = sector_of s l';
}.

(** the image files of the two cards: partition starts and extents of each *)
Class HddImages := {
  vstarts : Z -> list Z;
  vblocks : Z -> list pfs_block;
}.

Definition vmc_sectors `{!HddImages} (n : Z) : list Z := image_sectors (vstarts n) (take 10 (vblocks n)).

(** the images were looked up on the disk: extents in range, no sector in two places *)
Class HddImagesOk `{!HddImages} := {
  vblocks_ok n : Forall block_ok (take 10 (vblocks n));
  vmc_sectors_nodup : NoDup (vmc_sectors 0 ++ vmc_sectors 1);
}.

Section Hdd.
Context {D : Type} `{!SectorDevice D, !HddImages}.

Definition hdd_ReadPage (s : D) (mc_num page_num : Z) : option bytes :=
  ata_read s (Mcpage_to_Apasector (vblocks mc_num) (vstarts mc_num) page_num).
Definition hdd_WritePage (s : D) (mc_num : Z) (buf : bytes) (page_num : Z) : option D :=
  ata_write s (Mcpage_to_Apasector (vblocks mc_num) (vstarts mc_num) page_num) buf.

#[export] Instance hdd_device : PageDevice D := { DeviceReadPage := hdd_ReadPage; DeviceWritePage := hdd_WritePage }.

(** The sector of a page of a card's image on the hard disk: the page-th sector of
    the image file, the extents taken in order and each block 16 sectors from its
    partition's start; a page behind the last of the ten extents is given sector 0,
    the disk's first. *)
Theorem apa_sector_map blocks starts page :
  Forall block_ok (take 10 blocks) -> 0 <= page ->
  Mcpage_to_Apasector blocks starts page = nth (Z.to_nat page) (image_sectors starts (take 10 blocks)) 0.
Proof.
  intros Hb Hp. unfold Mcpage_to_Apasector. rewrite apa_loop_spec; [|done|lia| |lia].
  - by rewrite Z.mul_0_l, Z.sub_0_r.
  - rewrite length_take. lia.
Qed.

Lemma page_sector `{!HddImagesOk} n p : 0 <= p -> Mcpage_to_Apasector (vblocks n) (vstarts n) p = nth (Z.to_nat p) (vmc_sectors n) 0.
Proof.
  intros Hp. unfold Mcpage_to_Apasector. rewrite apa_loop_spec; [|apply vblocks_ok|lia| |lia].
  - by rewrite Z.mul_0_l, Z.sub_0_r.
  - rewrite length_take. lia.
Qed.

Definition hdd_has_page (n p : Z) : Prop := (n = 0 \/ n = 1) /\ 0 <= p < Z.of_nat (length (vmc_sectors n)).

Lemma hdd_page_lookup n p : hdd_has_page n p ->
  (vmc_sectors 0 ++ vmc_sectors 1) !! (Z.to_nat p + if (n =? 0)%Z then 0 else length (vmc_sectors 0))%nat =
  Some (nth (Z.to_nat p) (vmc_sectors n) 0).
Proof.
  intros [Hn Hp]. assert (Hl : vmc_sectors n !! Z.to_nat p = Some (nth (Z.to_nat p) (vmc_sectors n) 0)).
  { destruct (nth_lookup_or_length (vmc_sectors n) (Z.to_nat p) 0); [done|lia]. }
  destruct Hn as [-> | ->]; cbn [Z.eqb].
  - rewrite Nat.add_0_r, lookup_app_l by lia. done.
  - rewrite lookup_app_r by lia. by rewrite Nat.add_sub.
Qed.

Lemma hdd_page_inj `{!HddImagesOk} n p m q :
  hdd_has_page n p -> hdd_has_page m q -> nth (Z.to_nat p) (vmc_sectors n) 0 = nth (Z.to_nat q) (vmc_sectors m) 0 -> (n, p) = (m, q).
Proof.
  intros Hp Hq E. pose proof (hdd_page_lookup n p Hp) as L1. pose proof (hdd_page_lookup m q Hq) as L2. rewrite E in L1.
  pose proof (NoDup_lookup _ _ _ _ vmc_sectors_nodup L1 L2) as Hi.
  destruct Hp as [[-> | ->] Hp], Hq as [[-> | ->] Hq]; cbn [Z.eqb] in Hi; f_equal; lia.
Qed.

(** the hard disk keeps the interface's promises on the pages of the images *)
#[export, refine] Instance hdd_pages `{!HddImagesOk} : PageImage D := {
  has_page := hdd_has_page;
  page_of s n p := sector_of s (Mcpage_to_Apasector (vblocks n) (vstarts n) p);
  page_of_length := _; read_page_law := _; write_page_law := _;
}.
Proof.
  - intros w n p. apply sector_of_length.
  - intros w n p d. apply ata_read_law.
  - intros w n b p w' Hp Hb Hw. destruct (ata_write_law _ _ _ _ Hb Hw) as [H1 H2]. split; [done|].
    intros m q Hq Hne. apply H2. rewrite !page_sector by (destruct Hp, Hq; lia).
    intros E. apply Hne. by apply hdd_page_inj.
Defined.
End Hdd.

(** ** A disk of 2^13 sectors, for the examples *)

#[export, refine] Instance disk_sectors : SectorDevice (gmap Z bytes) := {
  sector_of s l := resize 512 0 (default [] (s !! l));
  ata_read s l := if l <? 8192 then Some (resize 512 0 (default [] (s !! l))) else None;
  ata_write s l b := if l <? 8192 then Some (<[l := b]> s) else None;
  sector_of_length := _; ata_read_law := _; ata_write_law := _;
}.
Proof.
  - intros s l. apply length_resize.
  - intros s l b. destruct (l <? 8192); [by intros [= <-]|done].
  - intros s l b s' Hb. destruct (l <? 8192); [intros [= <-]|done]. split.
    + rewrite lookup_insert_eq. cbn. rewrite <- Hb. apply resize_all.
    + intros l' Hl. by rewrite lookup_insert_ne.
Defined.

#[export] Instance two_images : HddImages := {
  vstarts n := if n =? 0 then [1000; 5000] else [3000];
  vblocks n := if n =? 0 then [Block 10 0 1; Block 3 1 2] else [Block 1 0 1];
}.

#[export] Instance two_images_ok : HddImagesOk.
Proof.
  split; [|apply (bool_decide_unpack _); vm_compute; exact I].
  intros n. cbn. destruct (n =? 0); repeat constructor; cbn; lia.
Defined.

(** ** Erasing a block *)

Section Erase.
Context {W : Type} `{!PageDevice W, !PageImage W}.

Lemma erase_loop_spec n : forall w mcd b p w',
  length b = 512%nat -> has_pages (mcnum mcd) p n -> erase_loop n w mcd b p = (true, w') ->
  stored w' (mcnum mcd) p (replicate n b) /\
  forall m q, has_page m q -> ~ (m = mcnum mcd /\ p <= q < p + Z.of_nat n) -> page_of w' m q = page_of w m q.
Proof.
  induction n as [|n IH]; intros w mcd b p w' Hb Hp; cbn [erase_loop]; [by intros [= <-]|].
  apply has_pages_S in Hp as (-> & Hp & Hr). destruct (DeviceWritePage w (mcnum mcd) b p) as [w1|] eqn:Ew; [|done].
  intros E. destruct (IH w1 mcd b (p + 1) w' Hb Hr E) as [Hs Ho].
  destruct (write_page_law _ _ _ _ _ Hp Hb Ew) as [P1 P2]. split.
  - cbn [replicate stored]. split; [|done]. by rewrite Ho; [|done|lia].
  - intros m q Hq Hm. rewrite Ho; [|done|intros [-> ?]; apply Hm; lia]. apply P2; [done|]. intros [= -> ->]. apply Hm. lia.
Qed.

(** An erase command (0x81 0x21) that reports success leaves every page of the
    block filled with the card's erase byte (0xFF, or 0 for a card with flag 0x10) and
    no other page changed; it reports failure, in its result, as soon as a page could
    not be written. *)
Theorem erase_block_fills w dbuf mcd wdma len result rdma :
  let page := GetInt (drop 2 wdma) in
  let n := Z.to_nat (BlockSize (cspec mcd)) in
  PageSize (cspec mcd) = 512 -> length dbuf = 512%nat -> has_pages (mcnum mcd) page n -> nth 1 wdma 0 = 0x21 ->
  exists r w' dbuf', sio_command 2 w dbuf mcd wdma len result rdma = Some (r, w', dbuf', mcd, blit rdma 0 (SioResponse mcd len)) /\
    (r = 1 -> stored w' (mcnum mcd) page (replicate n (replicate 512 (erase_byte mcd))) /\
      forall m q, has_page m q -> ~ (m = mcnum mcd /\ page <= q < page + Z.of_nat n) -> page_of w' m q = page_of w m q) /\
    (r = 0 <-> fst (erase_loop n w mcd (replicate 512 (erase_byte mcd)) page) = false).
Proof.
  intros page n Hs Hd Hp Hc. unfold sio_command. rewrite Hc. cbn [Z.eqb Pos.eqb]. unfold MceEraseBlock. rewrite Hs. fold page n.
  change (Z.to_nat 512) with 512%nat.
  assert (E : blit dbuf 0 (replicate 512 (erase_byte mcd)) = replicate 512 (erase_byte mcd)).
  { unfold blit. rewrite drop_ge by (rewrite length_replicate; lia). by rewrite app_nil_r. }
  rewrite E. destruct (erase_loop n w mcd (replicate 512 (erase_byte mcd)) page) as [ok w1] eqn:El.
  eexists _, w1, _. split; [done|]. split; [|by destruct ok].
  destruct ok; [|done]. intros _. by apply (erase_loop_spec n w mcd _ page w1).
Qed.
End Erase.

(** ** The theorems on the example disk *)

Definition card0 : MemoryCard := MC 0 0 0 0 0 0 0 90 (Spec 512 2 48) 43 (replicate 32 7).
Definition page_bytes (x : Z) : bytes := replicate 500 x ++ replicate 12 (x + 1).
Definition blank : bytes := replicate 512 0.

Lemma card0_pages : has_pages 0 15 2.
Proof.
  split_and!; [lia|lia|]. intros q Hq. split; [by left|].
  change (Z.of_nat (length (vmc_sectors 0))) with 48. lia.
Qed.

Lemma sector_lt (n : Z) (q : Z) : hdd_has_page n q -> Mcpage_to_Apasector (vblocks n) (vstarts n) q < 8192.
Proof.
  intros [Hn Hq]. rewrite page_sector by lia.
  assert (H : Forall (fun s => s < 8192) (vmc_sectors n)).
  { destruct Hn as [-> | ->]; apply (bool_decide_unpack _); vm_compute; exact I. }
  rewrite Forall_forall in H. apply H. apply list_elem_of_In, nth_In. lia.
Qed.

Lemma disk_reads (s : gmap Z bytes) n q : hdd_has_page n q -> is_Some (DeviceReadPage s n q).
Proof. intros H. apply sector_lt in H. cbn in *. replace (_ <? 8192) with true by lia. by eexists. Qed.
Lemma disk_writes (s : gmap Z bytes) n b q : hdd_has_page n q -> is_Some (DeviceWritePage s n b q).
Proof. intros H. apply sector_lt in H. cbn in *. replace (_ <? 8192) with true by lia. by eexists. Qed.

Lemma vmc_write_read_witness :
  let l := [([replicate 500 3; replicate 12 4], replicate 16 9); ([page_bytes 5], replicate 16 8)] in
  exists w1 d1 m1 d2 m2,
    write_pages_cmd (∅ : gmap Z bytes) blank card0 15 l = Some (w1, d1, m1) /\
    read_pages_cmd w1 d1 m1 15 [[128; 128; 256]; [512]] =
      Some (page_bytes 3 ++ spare 0 (page_bytes 3) ++ page_bytes 5 ++ spare 0 (page_bytes 5), d2, m2) /\
    page_of w1 1 3 = page_of (∅ : gmap Z bytes) 1 3.
Proof.
  intros l.
  destruct (vmc_write_read (∅ : gmap Z bytes) blank card0 15 l [[128; 128; 256]; [512]]) as (w1 & d1 & m1 & d2 & m2 & E1 & E2 & Ho).
  - split; [done|]. cbn. lia.
  - done.
  - apply card0_pages.
  - repeat constructor; try done; cbn; intros [=].
  - repeat constructor.
  - done.
  - intros w b q Hq _. by apply disk_writes.
  - intros w q Hq. by apply disk_reads.
  - exists w1, d1, m1, d2, m2. split; [done|]. split; [|apply Ho; [|cbn; lia]].
    + rewrite E2. do 3 f_equal.
    + split; [by right|]. change (Z.of_nat (length (vmc_sectors 1))) with 16. lia.
Defined.

Lemma sio_read_answer_witness :
  let card := MceStartRead card0 20 in
  let rdma := replicate 140 0 in
  exists dbuf' mcd',
    sio_command 2 (<[5052 := page_bytes 6]> ∅ : gmap Z bytes) blank card [0x81; 0x43; 128; 0; 0; 0] 134 1 rdma =
    Some (1, <[5052 := page_bytes 6]> ∅, dbuf', mcd', read_slot (replicate 128 6) 90 ++ replicate 6 0).
Proof.
  intros card rdma.
  destruct (sio_read_answer (<[5052 := page_bytes 6]> ∅ : gmap Z bytes) blank card 20 0 128 [0x81; 0x43; 128; 0; 0; 0] 134 1 rdma)
    as (d & m & _ & H).
  - repeat split; cbn; try done; lia.
  - lia.
  - lia.
  - lia.
  - done.
  - done.
  - done.
  - cbn. lia.
  - by left.
  - exists d, m. assert (E : DeviceReadPage (<[5052 := page_bytes 6]> ∅ : gmap Z bytes) (mcnum card) (u32 20) = Some (page_bytes 6)) by (vm_compute; reflexivity).
    rewrite E in H. destruct H as [-> _].
    assert (E2 : page_of (<[5052 := page_bytes 6]> ∅ : gmap Z bytes) (mcnum card) (u32 20) = page_bytes 6) by (vm_compute; reflexivity).
    by rewrite E2.
Defined.

Lemma apa_sector_map_witness :
  Mcpage_to_Apasector (vblocks 0) (vstarts 0) 20 = 5052 /\ Mcpage_to_Apasector (vblocks 0) (vstarts 0) 48 = 0.
Proof.
  split; (rewrite apa_sector_map; [vm_compute; reflexivity|apply two_images_ok|lia]).
Defined.

Lemma erase_block_fills_witness :
  exists w' dbuf', sio_command 2 (∅ : gmap Z bytes) blank card0 [0x81; 0x21; 15; 0; 0; 0] 9 1 (replicate 9 0) =
    Some (1, w', dbuf', card0, SioResponse card0 9) /\ page_of w' 0 16 = replicate 512 255.
Proof.
  destruct (erase_block_fills (∅ : gmap Z bytes) blank card0 [0x81; 0x21; 15; 0; 0; 0] 9 1 (replicate 9 0))
    as (r & w' & d & E & H1 & H2); [done|done|apply card0_pages|done|].
  assert (Hr : r = 1).
  { vm_compute in E. congruence. }
  subst r. exists w', d. split; [done|]. destruct (H1 eq_refl) as [Hs _]. apply Hs.
Defined.
