(* ===== verification/GenVmc.v ===== *)
(** * GenVmc: creation of virtual memory cards (modules/vmc/genvmc/genvmc.c)

    The formatter lays out an empty card image: super block, indirect FAT clusters, FAT
    clusters, root directory. The copier dumps a real card. Both run on a thread of their own,
    write the image cluster by cluster under a semaphore, and can be aborted between two
    writes. *)
From S2P Require Import Prelude CLib.

(** ** The super block *)

Definition SUPERBLOCK_MAGIC : bytes := bs "Sony PS2 Memory Card Format ".
Definition SUPERBLOCK_VERSION : bytes := bs "1.2.0.0".

Record MCDevInfo := {
  magic : bytes; version : bytes;
  pagesize : Z; pages_per_cluster : Z; blocksize : Z; unused : Z; clusters_per_card : Z;
  alloc_offset : Z; alloc_end : Z; rootdir_cluster : Z; backup_block1 : Z; backup_block2 : Z; unused2 : bytes;
  ifc_list : list Z; bad_block_list : list Z;
  cardtype : Z; cardflags : Z; unused3 : Z; cluster_size : Z; FATentries_per_cluster : Z; clusters_per_block : Z; cardform : Z;
  rootdir_cluster2 : Z; unknown1 : Z; unknown2 : Z; max_allocatable_clusters : Z; unknown3 : Z; unknown4 : Z; unknown5 : Z;
}.

(** the bytes of the structure *)
Definition info_bytes (m : MCDevInfo) : bytes :=
  magic m ++ version m ++
  le_bytes 2 (pagesize m) ++ le_bytes 2 (pages_per_cluster m) ++ le_bytes 2 (blocksize m) ++ le_bytes 2 (unused m) ++
  word_bytes [clusters_per_card m; alloc_offset m; alloc_end m; rootdir_cluster m; backup_block1 m; backup_block2 m] ++ unused2 m ++
  word_bytes (ifc_list m) ++ word_bytes (bad_block_list m) ++
  [cardtype m; cardflags m] ++ le_bytes 2 (unused3 m) ++
  word_bytes [cluster_size m; FATentries_per_cluster m; clusters_per_block m; cardform m; rootdir_cluster2 m; unknown1 m; unknown2 m; max_allocatable_clusters m; unknown3 m; unknown4 m; unknown5 m].

(** and back, the [memcpy] of the copier *)
Definition word_at (b : bytes) (off : nat) : Z := le_val (take 4 (drop off b)).
Definition half_at (b : bytes) (off : nat) : Z := le_val (take 2 (drop off b)).
Definition info_of_bytes (b : bytes) : MCDevInfo :=
  {| magic := take 28 b; version := take 12 (drop 28 b);
     pagesize := (half_at b 40 + 32768) mod 65536 - 32768; pages_per_cluster := half_at b 42; blocksize := half_at b 44; unused := half_at b 46; clusters_per_card := word_at b 48;
     alloc_offset := word_at b 52; alloc_end := word_at b 56; rootdir_cluster := word_at b 60; backup_block1 := word_at b 64; backup_block2 := word_at b 68; unused2 := take 8 (drop 72 b);
     ifc_list := map (fun k => word_at b (80 + 4 * k)) (seq 0 32); bad_block_list := map (fun k => s32 (word_at b (208 + 4 * k))) (seq 0 32);
     cardtype := nth 336 b 0; cardflags := nth 337 b 0; unused3 := half_at b 338; cluster_size := word_at b 340; FATentries_per_cluster := word_at b 344; clusters_per_block := word_at b 348; cardform := s32 (word_at b 352);
     rootdir_cluster2 := word_at b 356; unknown1 := word_at b 360; unknown2 := word_at b 364; max_allocatable_clusters := word_at b 368; unknown3 := word_at b 372; unknown4 := word_at b 376; unknown5 := s32 (word_at b 380) |}.

Definition BLOCKKB : Z := 16.

(** ** Numbers *)

(** the high and low word of the product, with the [long]s of the IOP *)
Definition long_multiply (v1 v2 : Z) : Z * Z :=
  let a := Z.land (Z.shiftr v1 16) 0xffff in
  let b := Z.land v1 0xffff in
  let c := Z.land (Z.shiftr v2 16) 0xffff in
  let d := Z.land v2 0xffff in
  let LO := u32 (b * d) in
  let x := s32 (a * d + c * b) in
  let y := s32 (Z.land (Z.shiftr LO 16) 0xffff + x) in
  let LO := Z.lor (Z.land LO 0xffff) (u32 (Z.shiftl (Z.land y 0xffff) 16)) in
  let HI := Z.land (Z.shiftr y 16) 0xffff in
  (u32 (HI + a * c), LO).

(** ** The clock *)

Record cd_clock := { stat : Z; second : Z; minute : Z; hour : Z; day : Z; month : Z; year : Z }.
Record sceMcStDateTime := { Resv2 : Z; Sec : Z; Min : Z; Hour : Z; Day : Z; Month : Z; Year : Z }.
Definition btoi (b : Z) : Z := b / 16 * 10 + b mod 16.
Definition time_bytes (t : sceMcStDateTime) : bytes := [Resv2 t; Sec t; Min t; Hour t; Day t; Month t] ++ le_bytes 2 (Year t).

(** ** The calls *)

Class VmcIO (W : Type) := {
  vm_open : W -> bool * W;                     (** the image opened, created and truncated *)
  vm_write : W -> Z -> bytes -> Z * W;         (** [lseek] and [write]: the bytes written *)
  vm_remove : W -> W;
  vm_abort : W -> bool * W;                    (** [genvmc_abort] as the thread finds it, which the thread of the caller sets *)
  vm_alloc : W -> Z -> bool;                   (** [AllocSysMemory] gives a block of the size *)
  vm_clock : W -> cd_clock -> bool * cd_clock * W;   (** [sceCdRC] *)
  mc_detect : W -> Z -> Z;                     (** [McDetectCard] *)
  mc_type : W -> Z -> Z;                       (** [McGetMcType] *)
  mc_readpage : W -> Z -> Z -> option bytes;   (** [McReadPage]: the 512 bytes of a page, [None] for an error *)
}.

Section GenVmc.
Context {W : Type} `{!VmcIO W}.

(** the thread: the calls, the count of [genvmc_abort_sema], the super block in memory and what
    the status call reports *)
Record gen := { g_w : W; g_sema : Z; g_info : MCDevInfo; g_progress : Z; g_msg : bytes }.

(** a computation of the thread: [None] when it never ends (a wait on the semaphore that nobody
    signals, a division by zero), [inl] for the jump to the error exit *)
Definition M (A : Type) : Type := gen -> option ((Z + A) * gen).
#[local] Instance M_ret : MRet M := fun A a s => Some (inr a, s).
#[local] Instance M_bind : MBind M := fun A B k m s =>
  match m s with None => None | Some (inl r, s) => Some (inl r, s) | Some (inr a, s) => k a s end.
Definition fail {A} (r : Z) : M A := fun s => Some (inl r, s).
Definition hang {A} : M A := fun _ => None.
Definition set_w (w : W) : M unit := fun s => Some (inr tt, {| g_w := w; g_sema := g_sema s; g_info := g_info s; g_progress := g_progress s; g_msg := g_msg s |}).
Definition set_info (i : MCDevInfo) : M unit := fun s => Some (inr tt, {| g_w := g_w s; g_sema := g_sema s; g_info := i; g_progress := g_progress s; g_msg := g_msg s |}).
Definition set_progress (p : Z) : M unit := fun s => Some (inr tt, {| g_w := g_w s; g_sema := g_sema s; g_info := g_info s; g_progress := p; g_msg := g_msg s |}).
Definition set_msg (b : bytes) : M unit := fun s => Some (inr tt, {| g_w := g_w s; g_sema := g_sema s; g_info := g_info s; g_progress := g_progress s; g_msg := b |}).
Definition get : M gen := fun s => Some (inr s, s).
(** an unsigned division *)
Definition udiv (a b : Z) : M Z := if b =? 0 then hang else mret (a / b).

Definition mc_getmcrtime_loop := fix loop (retries : nat) (w : W) (cdtime : cd_clock) : cd_clock * W :=
  match retries with
  | O => (cdtime, w)
  | S retries => let '(ok, cdtime, w) := vm_clock w cdtime in if ok then (cdtime, w) else loop retries w cdtime
  end.
Definition mc_getmcrtime (w : W) (uninit : cd_clock) : sceMcStDateTime * W :=
  let '(cdtime, w) := mc_getmcrtime_loop 64 w uninit in
  (if negb (Z.land (stat cdtime) 0x80 =? 0) then {| Resv2 := 0; Sec := 7; Min := 6; Hour := 5; Day := 4; Month := 3; Year := 2000 |}
   else {| Resv2 := 0; Sec := u8 (btoi (second cdtime)); Min := u8 (btoi (minute cdtime)); Hour := u8 (btoi (hour cdtime)); Day := u8 (btoi (day cdtime));
           Month := if negb (Z.land (month cdtime) 0x10 =? 0) then Z.land (month cdtime) 0xf + 0xa else Z.land (month cdtime) 0xf;
           Year := u16 (btoi (year cdtime) + 2000) |}, w).

(** a failed write leaves without a signal *)
Definition mc_writecluster (cluster : Z) (buf : bytes) (dup : Z) : M Z := fun s =>
  if g_sema s =? 0 then None
  else
    let '(aborted, w) := vm_abort (g_w s) in
    if aborted then (set_w w ;; mret (-2)) s
    else
      let size := s32 (u32 (cluster_size (g_info s) * dup)) in
      let '(r, w) := vm_write w (s32 (u32 (cluster * cluster_size (g_info s)))) (take (Z.to_nat size) buf) in
      if negb (r =? size) then Some (inr (-1), {| g_w := w; g_sema := 0; g_info := g_info s; g_progress := g_progress s; g_msg := g_msg s |})
      else (set_w w ;; mret 0) s.

(** the test behind each call *)
Definition checked (code : Z) (m : M Z) : M unit := r ← m; if r <? 0 then (if r =? -2 then fail (-1000) else fail code) else mret tt.

(** ** Format *)

Definition info_specs (old : MCDevInfo) (size_kb block : Z) : MCDevInfo :=
  let csize := 1024 in
  let ppc := 2 in
  {| magic := SUPERBLOCK_MAGIC; version := SUPERBLOCK_VERSION ++ replicate 5 0;
     pagesize := csize / ppc; pages_per_cluster := ppc; blocksize := u16 block; unused := unused old;
     clusters_per_card := u32 (s32 (size_kb * 1024)) / csize;
     alloc_offset := alloc_offset old; alloc_end := alloc_end old; rootdir_cluster := rootdir_cluster old;
     backup_block1 := backup_block1 old; backup_block2 := backup_block2 old; unused2 := unused2 old;
     ifc_list := ifc_list old; bad_block_list := replicate 32 (-1);
     cardtype := 0x02; cardflags := 0x2b; unused3 := unused3 old; cluster_size := csize; FATentries_per_cluster := csize / 4;
     clusters_per_block := u16 block / ppc; cardform := -1;
     rootdir_cluster2 := rootdir_cluster2 old; unknown1 := unknown1 old; unknown2 := unknown2 old; max_allocatable_clusters := max_allocatable_clusters old;
     unknown3 := unknown3 old; unknown4 := unknown4 old; unknown5 := unknown5 old |}.
Definition info_layout (m : MCDevInfo) (ifc : list Z) (b1 b2 max : Z) : MCDevInfo :=
  {| magic := magic m; version := version m; pagesize := pagesize m; pages_per_cluster := pages_per_cluster m; blocksize := blocksize m; unused := unused m;
     clusters_per_card := clusters_per_card m; alloc_offset := alloc_offset m; alloc_end := alloc_end m; rootdir_cluster := rootdir_cluster m; backup_block1 := b1;
     backup_block2 := b2; unused2 := unused2 m; ifc_list := ifc; bad_block_list := bad_block_list m; cardtype := cardtype m; cardflags := cardflags m; unused3 := unused3 m;
     cluster_size := cluster_size m; FATentries_per_cluster := FATentries_per_cluster m; clusters_per_block := clusters_per_block m; cardform := cardform m;
     rootdir_cluster2 := rootdir_cluster2 m; unknown1 := unknown1 m; unknown2 := unknown2 m; max_allocatable_clusters := max; unknown3 := unknown3 m; unknown4 := unknown4 m;
     unknown5 := unknown5 m |}.
Definition info_alloc (m : MCDevInfo) (offset root : Z) : MCDevInfo :=
  {| magic := magic m; version := version m; pagesize := pagesize m; pages_per_cluster := pages_per_cluster m; blocksize := blocksize m; unused := unused m;
     clusters_per_card := clusters_per_card m; alloc_offset := offset; alloc_end := alloc_end m; rootdir_cluster := root; backup_block1 := backup_block1 m;
     backup_block2 := backup_block2 m; unused2 := unused2 m; ifc_list := ifc_list m; bad_block_list := bad_block_list m; cardtype := cardtype m; cardflags := cardflags m;
     unused3 := unused3 m; cluster_size := cluster_size m; FATentries_per_cluster := FATentries_per_cluster m; clusters_per_block := clusters_per_block m;
     cardform := cardform m; rootdir_cluster2 := rootdir_cluster2 m; unknown1 := unknown1 m; unknown2 := unknown2 m; max_allocatable_clusters := max_allocatable_clusters m;
     unknown3 := unknown3 m; unknown4 := unknown4 m; unknown5 := unknown5 m |}.
Definition info_alloc_end (m : MCDevInfo) (e : Z) : MCDevInfo :=
  {| magic := magic m; version := version m; pagesize := pagesize m; pages_per_cluster := pages_per_cluster m; blocksize := blocksize m; unused := unused m;
     clusters_per_card := clusters_per_card m; alloc_offset := alloc_offset m; alloc_end := e; rootdir_cluster := rootdir_cluster m; backup_block1 := backup_block1 m;
     backup_block2 := backup_block2 m; unused2 := unused2 m; ifc_list := ifc_list m; bad_block_list := bad_block_list m; cardtype := cardtype m; cardflags := cardflags m;
     unused3 := unused3 m; cluster_size := cluster_size m; FATentries_per_cluster := FATentries_per_cluster m; clusters_per_block := clusters_per_block m;
     cardform := cardform m; rootdir_cluster2 := rootdir_cluster2 m; unknown1 := unknown1 m; unknown2 := unknown2 m; max_allocatable_clusters := max_allocatable_clusters m;
     unknown3 := unknown3 m; unknown4 := unknown4 m; unknown5 := unknown5 m |}.
Definition info_root2 (m : MCDevInfo)  : MCDevInfo :=
  {| magic := magic m; version := version m; pagesize := pagesize m; pages_per_cluster := pages_per_cluster m; blocksize := blocksize m; unused := unused m;
     clusters_per_card := clusters_per_card m; alloc_offset := alloc_offset m; alloc_end := alloc_end m; rootdir_cluster := rootdir_cluster m; backup_block1 := backup_block1 m;
     backup_block2 := backup_block2 m; unused2 := unused2 m; ifc_list := ifc_list m; bad_block_list := bad_block_list m; cardtype := cardtype m; cardflags := cardflags m;
     unused3 := unused3 m; cluster_size := cluster_size m; FATentries_per_cluster := FATentries_per_cluster m; clusters_per_block := clusters_per_block m;
     cardform := cardform m; rootdir_cluster2 := rootdir_cluster m; unknown1 := 0; unknown2 := 0; max_allocatable_clusters := max_allocatable_clusters m;
     unknown3 := unknown3 m; unknown4 := unknown4 m; unknown5 := -1 |}.
Definition info_form (m : MCDevInfo) (form : Z) : MCDevInfo :=
  {| magic := magic m; version := version m; pagesize := pagesize m; pages_per_cluster := pages_per_cluster m; blocksize := blocksize m; unused := unused m;
     clusters_per_card := clusters_per_card m; alloc_offset := alloc_offset m; alloc_end := alloc_end m; rootdir_cluster := rootdir_cluster m; backup_block1 := backup_block1 m;
     backup_block2 := backup_block2 m; unused2 := unused2 m; ifc_list := ifc_list m; bad_block_list := bad_block_list m; cardtype := cardtype m; cardflags := cardflags m;
     unused3 := unused3 m; cluster_size := cluster_size m; FATentries_per_cluster := FATentries_per_cluster m; clusters_per_block := clusters_per_block m; cardform := form;
     rootdir_cluster2 := rootdir_cluster2 m; unknown1 := unknown1 m; unknown2 := unknown2 m; max_allocatable_clusters := max_allocatable_clusters m; unknown3 := unknown3 m;
     unknown4 := unknown4 m; unknown5 := unknown5 m |}.

(** every cluster set to ones *)
Fixpoint erase_loop (fuel : nat) (i : Z) : M unit :=
  match fuel with
  | O => hang
  | S fuel =>
    s ← get;
    let C := clusters_per_card (g_info s) in
    if u32 i <? C then
      d ← udiv C 99; p ← udiv (u32 i) d; set_progress p ;;
      checked (-102) (mc_writecluster i (replicate (Z.to_nat (BLOCKKB * 1024)) 0xff) BLOCKKB) ;;
      erase_loop fuel (s32 (i + BLOCKKB))
    else mret tt
  end.

(** [fat_length] and [ifc_length] *)
Definition fat_lengths (m : MCDevInfo) : Z * Z :=
  let fat_length := s32 (u32 (u32 (u32 (Z.shiftl (clusters_per_card m) 2) - 1) / cluster_size m + 1)) in
  let ifc_length := s32 (u32 (u32 (s32 (Z.shiftl fat_length 2) - 1) / cluster_size m + 1)) in
  if negb (ifc_length <=? 32) then (s32 (u32 (Z.shiftl (FATentries_per_cluster m) 5)), 32) else (fat_length, ifc_length).

(** the words of the indirect clusters, [None] when they run past the card *)
Fixpoint ifc_words (n : nat) (i C : Z) : option (list Z) :=
  match n with
  | O => Some []
  | S n => if C <=? u32 i then None else cons (u32 i) <$> ifc_words n (i + 1) C
  end.

Fixpoint write_ifc (n : nat) (z : nat) (ifc_mem : bytes) : M unit :=
  match n with
  | O => mret tt
  | S n =>
    s ← get;
    let cs := cluster_size (g_info s) in
    checked (-105) (mc_writecluster (s32 (nth z (ifc_list (g_info s)) 0)) (drop (z * Z.to_nat cs) ifc_mem) 1) ;;
    write_ifc n (S z) ifc_mem
  end.

(** the FAT: free clusters but for the root directory; gives [z], the entries made *)
Fixpoint fat_loop (fuel : nat) (i j z fat_index : Z) : M Z :=
  match fuel with
  | O => hang
  | S fuel =>
    s ← get;
    let m := g_info s in
    let end_ := u32 (i * clusters_per_block m) in
    if u32 j <? end_ then
      let sz_u32 := s32 (u32 (end_ - j)) in
      let sz_u32 := if FATentries_per_cluster m <? u32 sz_u32 then FATentries_per_cluster m else sz_u32 in
      let fc := replicate (Z.to_nat sz_u32) 0x7fffffff ++ replicate (Z.to_nat (cluster_size m / 4) - Z.to_nat sz_u32) 0 in
      fc ← (if z =? 0 then set_info (info_alloc m (u32 j) 0) ;; mret (<[0%nat := 0xffffffff]> fc) else mret fc);
      checked (-107) (mc_writecluster fat_index (word_bytes fc) 1) ;;
      fat_loop fuel i (s32 (u32 (j + FATentries_per_cluster m))) (z + sz_u32) (fat_index + 1)
    else mret z
  end.

(** ** The root directory *)

Definition sceMcFileAttrReadable : Z := 0x0001.
Definition sceMcFileAttrWriteable : Z := 0x0002.
Definition sceMcFileAttrExecutable : Z := 0x0004.
Definition sceMcFileAttrSubdir : Z := 0x0020.
Definition sceMcFile0400 : Z := 0x0400.
Definition sceMcFileAttrHidden : Z := 0x2000.
Definition sceMcFileAttrExists : Z := 0x8000.

(** an [McFsEntry] with the fields the formatter sets *)
Definition fs_entry (mode length : Z) (time : sceMcStDateTime) (cluster dir_entry : Z) (name : bytes) : bytes :=
  le_bytes 2 mode ++ [0; 0] ++ le_bytes 4 length ++ time_bytes time ++ le_bytes 4 cluster ++ le_bytes 4 dir_entry ++ time_bytes time ++
  replicate 32 0 ++ name ++ replicate (32 - List.length name) 0 ++ replicate 416 0.
Definition root_entries (time : sceMcStDateTime) : bytes :=
  fs_entry (foldl Z.lor 0 [sceMcFileAttrExists; sceMcFile0400; sceMcFileAttrSubdir; sceMcFileAttrReadable; sceMcFileAttrWriteable; sceMcFileAttrExecutable]) 2 time 0 0 (bs ".") ++
  fs_entry (foldl Z.lor 0 [sceMcFileAttrExists; sceMcFileAttrHidden; sceMcFile0400; sceMcFileAttrSubdir; sceMcFileAttrWriteable; sceMcFileAttrExecutable]) 2 time 0 0 (bs "..").

(** [max_allocatable_clusters] *)
Definition max_of (C : Z) : Z :=
  let '(hi, lo) := long_multiply C 0x10624dd3 in
  let temp := u32 (Z.shiftr hi 6 - Z.shiftr C 31) in
  u32 (Z.shiftl (u32 (Z.shiftl (u32 (u32 (Z.shiftl temp 5) - temp)) 2 + temp)) 3 + 1).

Definition vmc_mcformat (fuel : nat) (uninit : cd_clock) (size_kb block : Z) : M unit :=
  set_msg (bs "Creating VMC file...") ;;
  s ← get;
  let '(opened, w) := vm_open (g_w s) in
  set_w w ;;
  (if opened then mret tt else fail (-101)) ;;
  set_info (info_specs (g_info s) size_kb block) ;;
  set_msg (bs "Erasing VMC clusters...") ;;
  erase_loop fuel 0 ;;
  s ← get;
  let m := g_info s in
  let '(fat_length, ifc_length) := fat_lengths m in
  let ifc_index := blocksize m / 2 in
  let ifcs := map (fun j => u32 (ifc_index + Z.of_nat j)) (seq 0 (Z.to_nat ifc_length)) in
  let ifcs := ifcs ++ replicate (32 - Z.to_nat ifc_length) 0xffffffff in
  let fat_index := ifc_index + ifc_length in
  set_info (info_layout m ifcs (backup_block1 m) (backup_block2 m) (max_allocatable_clusters m)) ;;
  (if vm_alloc (g_w s) (u32 (ifc_length * cluster_size m + 0xff)) then mret tt else fail (-103)) ;;
  ifc ← match ifc_words (Z.to_nat fat_length) fat_index (clusters_per_card m) with None => fail (-104) | Some ws => mret ws end;
  let ifc_mem := word_bytes ifc ++ replicate (Z.to_nat (ifc_length * cluster_size m) - 4 * List.length ifc) 0 in
  set_msg (bs "Writing ifc clusters...") ;;
  write_ifc (Z.to_nat ifc_length) 0 ifc_mem ;;
  let alloc_at := fat_index + fat_length in
  blocks ← udiv (clusters_per_card m) (clusters_per_block m);
  set_info (info_layout m ifcs (u32 (blocks - 1)) (u32 (blocks - 2)) (max_of (clusters_per_card m))) ;;
  set_msg (bs "Writing fat clusters...") ;;
  let i := s32 (u32 (blocks - 2)) in
  z ← fat_loop fuel i alloc_at 0 fat_index;
  s ← get;
  let m := g_info s in
  set_info (info_alloc_end m (u32 (u32 (i * clusters_per_block m) - alloc_offset m))) ;;
  (if u32 z <? clusters_per_block m then fail (-108) else mret tt) ;;
  s ← get;
  set_info (info_root2 (g_info s)) ;;
  s ← get;
  let '(time, w) := mc_getmcrtime (g_w s) uninit in
  set_w w ;;
  set_msg (bs "Writing root directory cluster...") ;;
  checked (-109) (mc_writecluster (s32 (u32 (alloc_offset (g_info s) + rootdir_cluster (g_info s)))) (root_entries time) 1) ;;
  s ← get;
  let m := info_form (g_info s) 1 in
  set_info m ;;
  set_msg (bs "Writing superblock...") ;;
  checked (-110) (mc_writecluster 0 (info_bytes m ++ replicate (Z.to_nat (cluster_size m) - List.length (info_bytes m)) 0xff) 1) ;;
  set_progress 100.

(** ** Copy of a real card *)

(** pages read one behind the other into the buffer *)
Fixpoint read_pages (slot first : Z) (pagesize : nat) (n j : nat) (buf : bytes) : M bytes :=
  match n with
  | O => mret buf
  | S n =>
    s ← get;
    match mc_readpage (g_w s) slot (u32 (first + Z.of_nat j)) with
    | None => fail (-102)
    | Some page => read_pages slot first pagesize n (S j) (blit buf (j * pagesize) page)
    end
  end.

Fixpoint copy_blocks (n : nat) (slot i blocks pagesblock clustersblock : Z) (buf : bytes) : M bytes :=
  match n with
  | O => mret buf
  | S n =>
    d ← udiv blocks 99; p ← udiv i d; set_progress p ;;
    s ← get;
    buf ← read_pages slot (i * pagesblock) (Z.to_nat (pagesize (g_info s))) (Z.to_nat pagesblock) 0 buf;
    checked (-103) (mc_writecluster (s32 (i * clustersblock)) buf (s32 clustersblock)) ;;
    copy_blocks n slot (i + 1) blocks pagesblock clustersblock buf
  end.

Fixpoint copy_rest (n : nat) (slot i : Z) (buf : bytes) : M unit :=
  match n with
  | O => mret tt
  | S n =>
    s ← get;
    let ppc := pages_per_cluster (g_info s) in
    buf ← read_pages slot (i * ppc) (Z.to_nat (pagesize (g_info s))) (Z.to_nat ppc) 0 buf;
    checked (-103) (mc_writecluster (s32 i) buf 1) ;;
    copy_rest n slot (i + 1) buf
  end.

Definition vmc_mccopy (slot : Z) (cluster_buf : bytes) : M unit :=
  set_msg (bs "Checking memcard...") ;;
  s ← get;
  (if (mc_detect (g_w s) slot <? -1) && negb (mc_type (g_w s) slot =? 2) then fail (-98) else mret tt) ;;
  page ← match mc_readpage (g_w s) slot 0 with None => fail (-99) | Some page => mret page end;
  let buf := blit cluster_buf 0 page in
  let m := info_of_bytes (take 384 buf) in
  set_info m ;;
  (if negb (bool_decide (magic m = SUPERBLOCK_MAGIC)) then fail (-100) else mret tt) ;;
  pagesblock ← (if pagesize m =? 0 then hang else mret (u32 (Z.quot (BLOCKKB * 1024) (pagesize m))));
  clustersblock ← udiv pagesblock (pages_per_cluster m);
  blocks ← udiv (clusters_per_card m) clustersblock;
  s ← get;
  let '(opened, w) := vm_open (g_w s) in
  set_w w ;;
  (if opened then mret tt else fail (-101)) ;;
  set_msg (bs "Copying memcard to VMC...") ;;
  buf ← copy_blocks (Z.to_nat blocks) slot 0 blocks pagesblock clustersblock buf;
  copy_rest (Z.to_nat (clusters_per_card m - blocks * clustersblock)) slot (blocks * clustersblock) buf ;;
  set_progress 100.

(** ** The thread *)

Definition GENVMC_STAT_AVAIL : Z := 0x00.
Definition GENVMC_STAT_BUSY : Z := 0x01.

Record stats := { VMC_status : Z; VMC_error : Z; VMC_progress : Z; VMC_msg : bytes }.
Record params := { VMC_size_mb : Z; VMC_blocksize : Z; VMC_card_slot : Z }.

(** [VMC_create_thread]: it waits on the semaphore of the flag, and ends with the status *)
Definition VMC_create_thread (fuel : nat) (uninit : cd_clock) (cluster_buf : bytes) (p : params) (s : gen) : option (stats * gen) :=
  if g_sema s =? 0 then None
  else
    let s := {| g_w := g_w s; g_sema := g_sema s; g_info := g_info s; g_progress := 0; g_msg := bs "Initializing..." |} in
    let run := if VMC_card_slot p =? -1 then vmc_mcformat fuel uninit (s32 (VMC_size_mb p * 1024)) (VMC_blocksize p) else vmc_mccopy (VMC_card_slot p) cluster_buf in
    match run s with
    | None => None
    | Some (inl r, s) =>
      if r <? 0 then
        Some (if r =? -1000 then ({| VMC_status := GENVMC_STAT_AVAIL; VMC_error := r; VMC_progress := g_progress s; VMC_msg := bs "VMC file creation aborted" |},
                                  {| g_w := vm_remove (g_w s); g_sema := g_sema s; g_info := g_info s; g_progress := g_progress s; g_msg := bs "VMC file creation aborted" |})
              else ({| VMC_status := GENVMC_STAT_AVAIL; VMC_error := r; VMC_progress := g_progress s; VMC_msg := bs "Failed to format VMC file" |}, s))
      else None
    | Some (inr _, s) => Some ({| VMC_status := GENVMC_STAT_AVAIL; VMC_error := 0; VMC_progress := 100; VMC_msg := bs "VMC file created" |}, s)
    end.
End GenVmc.

(** ** The probe of the front end (src/system.c) *)

Definition MB : Z := 1048576.

Class VmcFiles (W : Type) := {
  vf_open : W -> bytes -> option Z;               (** the file opened for reading, and [lseek] to its end *)
  vf_read : W -> bytes -> nat -> bytes;           (** what [read] of so many bytes gives from the start *)
  vf_unlink : W -> bytes -> W;
  vf_create : W -> bytes -> Z -> Z -> W;          (** the create call of genvmc: name, size in megabytes, pages in a block *)
}.

Section Probe.
Context {W : Type} `{!VmcFiles W}.

(** the checks on the super block and the size *)
Definition superblock_valid (b : bytes) (size : Z) : bool :=
  strneq (cstr b) (bs "Sony PS2 Memory Card Format") 27 && (nth 336 b 0 =? 0x2) && (u32 size =? u32 (half_at b 42 * word_at b 48 * half_at b 40)).

(** the size found, the state and [gVMCCreatePath] after it; [probe] asks for the super block *)
Definition sysCheckVMC (w : W) (gVMCCreatePath prefix sep name : bytes) (createSize : Z) (probe : bool) : Z * W * bytes :=
  let path := bufcpy 256 (prefix ++ bs "VMC" ++ sep ++ name ++ bs ".bin") in
  let gVMCCreatePath := if 0 <? createSize then [] else gVMCCreatePath in
  if createSize =? -1 then (-1, vf_unlink w path, gVMCCreatePath)
  else
    let '(size, w) :=
      match vf_open w path with
      | None => (-1, w)
      | Some size =>
        let size :=
          if probe then (let b := vf_read w path 512 in if superblock_valid (b ++ replicate (512 - length b) 0) size then size else 0) else size in
        let size := if negb (Z.rem size MB =? 0) then 0 else Z.quot size MB in
        (size, if negb (createSize =? 0) && negb (createSize =? size) then vf_unlink w path else w)
      end in
    if negb (createSize =? 0) && negb (createSize =? size) then (size, vf_create w path createSize 16, path) else (size, w, gVMCCreatePath).
End Probe.

(** ** Lemmas: words and clusters *)

Lemma word_bytes_app l1 l2 : word_bytes (l1 ++ l2) = word_bytes l1 ++ word_bytes l2.
Proof. unfold word_bytes. by rewrite map_app, concat_app. Qed.

Lemma word_at_app a b off : (length a <= off)%nat -> word_at (a ++ b) off = word_at b (off - length a).
Proof. intros H. unfold word_at. by rewrite drop_app_ge. Qed.

Lemma word_at_words l r k x : l !! k = Some x -> word_at (word_bytes l ++ r) (4 * k) = x mod 2 ^ 32.
Proof.
  revert k. induction l as [|y l IH]; intros [|k] H; try done.
  - injection H as ->. unfold word_at. change (4 * 0)%nat with 0%nat. rewrite drop_0. change (word_bytes (x :: l)) with (le_bytes 4 x ++ word_bytes l). rewrite <- app_assoc, (take_app_length' _ _ 4) by (by rewrite le_bytes_length). apply (le_val_mod 4).
  - change (word_bytes (y :: l)) with (le_bytes 4 y ++ word_bytes l). rewrite <- app_assoc, word_at_app; rewrite le_bytes_length; [|lia]. rewrite <- (IH k H). f_equal. lia.
Qed.

(** the clusters of an image *)
Definition cluster (f : bytes) (c : nat) : bytes := take 1024 (drop (1024 * c) f).

Lemma cluster_out f c b k : (1024 * c + length b <= length f)%nat -> (k < c \/ 1024 * c + length b <= 1024 * k)%nat -> cluster (blit f (1024 * c) b) k = cluster f k.
Proof.
  intros Hf Hk. unfold cluster. apply list_eq. intros i. destruct (decide (i < 1024)%nat) as [Hi|Hi].
  - rewrite !lookup_take_lt, !lookup_drop, lookup_blit by lia. rewrite decide_False by lia. done.
  - rewrite !lookup_take_ge by lia. done.
Qed.

Lemma cluster_in f c b k : (1024 * c + length b <= length f)%nat -> (1024 * (k + 1) <= length b)%nat -> cluster (blit f (1024 * c) b) (c + k) = cluster b k.
Proof.
  intros Hf Hk. unfold cluster. apply list_eq. intros i. destruct (decide (i < 1024)%nat) as [Hi|Hi].
  - rewrite !lookup_take_lt, !lookup_drop, lookup_blit by lia. rewrite decide_True by lia. f_equal. lia.
  - rewrite !lookup_take_ge by lia. done.
Qed.

Lemma cluster_concat (bss : list bytes) k b : Forall (fun b => length b = 1024%nat) bss -> bss !! k = Some b -> cluster (concat bss) k = b.
Proof.
  intros H. revert k. induction H as [|x l Hx Hl IH]; intros [|k] Hk; try done; cbn [concat].
  - injection Hk as ->. unfold cluster. change (1024 * 0)%nat with 0%nat. rewrite drop_0. by rewrite take_app_length'.
  - rewrite <- (IH k Hk). unfold cluster. f_equal. rewrite drop_app_ge by lia. f_equal. lia.
Qed.

Lemma concat_length (bss : list bytes) n : Forall (fun b => length b = n) bss -> length (concat bss) = (n * length bss)%nat.
Proof. induction 1 as [|x l Hx Hl IH]; cbn [concat length]; [lia|]. rewrite length_app, IH. lia. Qed.

Lemma blit_join {A} (f : list A) off x y : (off + length x + length y <= length f)%nat -> blit (blit f off x) (off + length x) y = blit f off (x ++ y).
Proof.
  intros H. apply list_eq. intros i. rewrite !lookup_blit; rewrite ?blit_length, ?length_app; try lia. destruct (decide (off + length x <= i < off + length x + length y)%nat).
  - rewrite decide_True by lia. rewrite lookup_app_r by lia. f_equal. lia.
  - destruct (decide (off <= i < off + length x)%nat); [rewrite decide_True, lookup_app_l by lia; done|]. rewrite decide_False by lia. done.
Qed.

(** ** What a formatted card is *)

(** an entry of the FAT, found through the indirect clusters the super block lists *)
Definition fat_entry (f : bytes) (m : MCDevInfo) (n : nat) : Z :=
  let fat := word_at (cluster f (Z.to_nat (nth (n / 256 / 256) (ifc_list m) 0))) (4 * ((n / 256) mod 256)) in
  word_at (cluster f (Z.to_nat fat)) (4 * (n mod 256)).

(** an empty card of so many megabytes: the super block is in the first cluster; indirect
    clusters, FAT, allocatable clusters and the two backup blocks follow each other and fit;
    every allocatable cluster is free but for the one of the root directory, which ends there;
    the clusters behind it are erased *)
Record empty_card (f : bytes) (mb : nat) (block : Z) : Prop := {
  ec_size : length f = (1024 * (1024 * mb))%nat;
  ec_super : let m := info_of_bytes (cluster f 0) in
    magic m = SUPERBLOCK_MAGIC /\ cardtype m = 2 /\ cardform m = 1 /\ pagesize m = 512 /\ pages_per_cluster m = 2 /\ cluster_size m = 1024 /\ rootdir_cluster m = 0 /\ blocksize m = block;
  ec_page : half_at (cluster f 0) 40 = 512;
  ec_clusters : clusters_per_card (info_of_bytes (cluster f 0)) = Z.of_nat (1024 * mb);
  ec_order : let m := info_of_bytes (cluster f 0) in
    0 < nth 0 (ifc_list m) 0 < alloc_offset m /\ 0 < alloc_end m /\ alloc_offset m + alloc_end m = backup_block2 m * clusters_per_block m /\
    backup_block1 m = backup_block2 m + 1 /\ (backup_block1 m + 1) * clusters_per_block m <= clusters_per_card m;
  ec_fat : let m := info_of_bytes (cluster f 0) in
    forall n, Z.of_nat n < alloc_end m -> fat_entry f m n = if Nat.eqb n 0 then 0xffffffff else 0x7fffffff;
  ec_root : exists time, cluster f (Z.to_nat (alloc_offset (info_of_bytes (cluster f 0)))) = root_entries time;
  ec_free : forall k, alloc_offset (info_of_bytes (cluster f 0)) < Z.of_nat k < clusters_per_card (info_of_bytes (cluster f 0)) -> cluster f k = replicate 1024 255;
  ec_max : let m := info_of_bytes (cluster f 0) in max_allocatable_clusters m = clusters_per_card m / 1000 * 1000 + 1;
}.

(** ** Lemmas: numbers *)

Lemma land_ffff x : Z.land x 0xffff = x mod 2 ^ 16.
Proof. change 0xffff with (Z.ones 16). apply Z.land_ones. lia. Qed.

(** for cards of up to a gigabyte nothing is lost between the halves *)
Lemma long_multiply_hi v1 v2 : 0 <= v1 <= 2 ^ 20 -> 0 <= v2 < 2 ^ 30 -> (long_multiply v1 v2).1 = v1 * v2 / 2 ^ 32.
Proof.
  intros H1 H2. unfold long_multiply. cbn [fst]. rewrite !land_ffff, !Z.shiftr_div_pow2 by lia.
  set (a := v1 / 2 ^ 16). set (b := v1 mod 2 ^ 16). set (c := v2 / 2 ^ 16). set (d := v2 mod 2 ^ 16).
  assert (Ea : v1 = a * 2 ^ 16 + b /\ 0 <= a <= 16 /\ 0 <= b < 2 ^ 16) by (unfold a, b; pose proof (Z.div_mod v1 (2 ^ 16)); pose proof (Z.mod_pos_bound v1 (2 ^ 16)); lia).
  assert (Ec : v2 = c * 2 ^ 16 + d /\ 0 <= c < 2 ^ 14 /\ 0 <= d < 2 ^ 16) by (unfold c, d; pose proof (Z.div_mod v2 (2 ^ 16)); pose proof (Z.mod_pos_bound v2 (2 ^ 16)); lia).
  rewrite (Z.mod_small a), (Z.mod_small c) by lia. assert (Hbd : 0 <= b * d < 2 ^ 32) by nia. assert (Hx : 0 <= a * d + c * b < 2 ^ 31 - 2 ^ 16) by nia. rewrite (u32_id (b * d)) by done.
  assert (Hlo : 0 <= b * d / 2 ^ 16 < 2 ^ 16) by (split; [apply Z.div_pos; lia|apply Z.div_lt_upper_bound; lia]). rewrite (Z.mod_small (b * d / 2 ^ 16)), (s32_id (a * d + c * b)), s32_id by lia.
  set (y := b * d / 2 ^ 16 + (a * d + c * b)). assert (Ey : (a * d + c * b) + b * d / 2 ^ 16 = y) by (unfold y; lia). assert (Hy : 0 <= y / 2 ^ 16 < 2 ^ 15) by (unfold y; split; [apply Z.div_pos; lia|apply Z.div_lt_upper_bound; lia]). rewrite (Z.mod_small (y / 2 ^ 16)), u32_id by nia.
  clearbody a b c d y. destruct Ea as [-> _], Ec as [-> _]. replace ((a * 2 ^ 16 + b) * (c * 2 ^ 16 + d)) with (a * c * 2 ^ 32 + ((a * d + c * b) * 2 ^ 16 + b * d)) by lia. rewrite Z.div_add_l by lia.
  change (2 ^ 32) with (2 ^ 16 * 2 ^ 16). rewrite <- Z.div_div by lia. rewrite Z.div_add_l by lia. rewrite Ey. lia.
Qed.

Lemma max_of_spec C : 0 <= C <= 2 ^ 20 -> max_of C = C / 1000 * 1000 + 1.
Proof.
  intros HC. unfold max_of. destruct (long_multiply C 0x10624dd3) as [hi lo] eqn:E. assert (Eh : hi = C * 0x10624dd3 / 2 ^ 32) by (change hi with (hi, lo).1; rewrite <- E; apply long_multiply_hi; lia). subst hi.
  rewrite !Z.shiftr_div_pow2, !Z.shiftl_mul_pow2 by lia. rewrite Z.div_div by lia. rewrite (Z.div_small C (2 ^ 31)) by lia.
  replace (C * 0x10624dd3 / (2 ^ 32 * 2 ^ 6)) with (C / 1000).
  - assert (0 <= C / 1000 < 2000) by (split; [apply Z.div_pos; lia|apply Z.div_lt_upper_bound; lia]). set (t := C / 1000) in *. rewrite (u32_id (t - 0)), Z.sub_0_r, (u32_id (t * 2 ^ 5)) by lia. rewrite (u32_id (t * 2 ^ 5 - t)) by lia. rewrite (u32_id ((t * 2 ^ 5 - t) * 2 ^ 2 + t)) by lia. rewrite u32_id by lia. lia.
  - apply (Z.div_unique_pos _ _ _ (C / 1000 * 56 + C mod 1000 * 0x10624dd3)); pose proof (Z.div_mod C 1000); pose proof (Z.mod_pos_bound C 1000); lia.
Qed.

Lemma fat_lengths_spec m mb : 1 <= mb <= 1024 -> clusters_per_card m = 1024 * mb -> cluster_size m = 1024 -> fat_lengths m = (4 * mb, (16 * mb + 1023) / 1024).
Proof.
  intros Hmb HC Hcs. unfold fat_lengths. rewrite HC, Hcs, !Z.shiftl_mul_pow2 by lia.
  assert (E1 : (u32 (u32 (1024 * mb * 2 ^ 2) - 1)) / 1024 + 1 = 4 * mb) by (rewrite !u32_id by (rewrite ?u32_id; lia); symmetry; pose proof (Z.div_mod (1024 * mb * 2 ^ 2 - 1) 1024); pose proof (Z.mod_pos_bound (1024 * mb * 2 ^ 2 - 1) 1024); lia).
  rewrite E1. rewrite (u32_id (4 * mb)), (s32_id (4 * mb)) by lia. rewrite (s32_id (4 * mb * 2 ^ 2)) by lia.
  assert (E2 : (u32 (u32 (4 * mb * 2 ^ 2) - 1)) / 1024 + 1 = (16 * mb + 1023) / 1024) by (rewrite !u32_id by (rewrite ?u32_id; lia); replace (16 * mb + 1023) with (4 * mb * 2 ^ 2 - 1 + 1 * 1024) by lia; rewrite Z.div_add by lia; lia).
  assert (Hi : 0 <= (16 * mb + 1023) / 1024 <= 16) by (split; [apply Z.div_pos; lia|apply Z.lt_succ_r, Z.div_lt_upper_bound; lia]).
  replace (u32 (4 * mb * 2 ^ 2 - 1)) with (u32 (u32 (4 * mb * 2 ^ 2) - 1)) by (rewrite !u32_id by (rewrite ?u32_id; lia); done). rewrite E2. rewrite u32_id, s32_id by lia. rewrite (proj2 (Z.leb_le _ _)) by lia. done.
Qed.

(** ** Lemmas: the super block *)

Definition word_ok (x : Z) : Prop := 0 <= x < 2 ^ 32.
Record info_wf (m : MCDevInfo) : Prop := {
  wf_magic : length (magic m) = 28%nat; wf_version : length (version m) = 12%nat; wf_unused2 : length (unused2 m) = 8%nat;
  wf_half : Forall (fun x => 0 <= x < 2 ^ 16) [pages_per_cluster m; blocksize m; unused m; unused3 m]; wf_page : -32768 <= pagesize m < 32768;
  wf_words : Forall word_ok [clusters_per_card m; alloc_offset m; alloc_end m; rootdir_cluster m; backup_block1 m; backup_block2 m];
  wf_ifc : length (ifc_list m) = 32%nat /\ Forall word_ok (ifc_list m); wf_bad : length (bad_block_list m) = 32%nat /\ Forall (fun x => - 2 ^ 31 <= x < 2 ^ 31) (bad_block_list m);
  wf_words2 : Forall word_ok [cluster_size m; FATentries_per_cluster m; clusters_per_block m; rootdir_cluster2 m; unknown1 m; unknown2 m; max_allocatable_clusters m; unknown3 m; unknown4 m];
  wf_ints : Forall (fun x => - 2 ^ 31 <= x < 2 ^ 31) [cardform m; unknown5 m];
}.

Lemma half_at_app a b off : (length a <= off)%nat -> half_at (a ++ b) off = half_at b (off - length a).
Proof. intros H. unfold half_at. by rewrite drop_app_ge. Qed.
Lemma half_at_here x r : 0 <= x < 2 ^ 16 -> half_at (le_bytes 2 x ++ r) 0 = x.
Proof. intros Hx. unfold half_at. rewrite drop_0, (take_app_length' _ _ 2) by (by rewrite le_bytes_length). apply le_val_bytes. lia. Qed.
Lemma page_back x : -32768 <= x < 32768 -> (x mod 65536 + 32768) mod 65536 - 32768 = x.
Proof. intros Hx. rewrite Zplus_mod_idemp_l. rewrite Z.mod_small; lia. Qed.
Lemma s32_back x : - 2 ^ 31 <= x < 2 ^ 31 -> s32 (x mod 2 ^ 32) = x.
Proof. intros Hx. unfold s32. rewrite Zplus_mod_idemp_l. rewrite Z.mod_small; lia. Qed.

(** the words from a place on *)
Lemma words_from (a r : bytes) (l : list Z) off k x : length a = off -> l !! k = Some x -> word_at (a ++ word_bytes l ++ r) (off + 4 * k) = x mod 2 ^ 32.
Proof. intros Ha Hk. rewrite word_at_app by lia. replace (off + 4 * k - length a)%nat with (4 * k)%nat by lia. by apply word_at_words. Qed.

Lemma words_list (a r : bytes) (l : list Z) off n : length a = off -> length l = n -> map (fun k => word_at (a ++ word_bytes l ++ r) (off + 4 * k)) (seq 0 n) = map (fun x => x mod 2 ^ 32) l.
Proof.
  intros Ha Hl. apply list_eq. intros k. rewrite !list_lookup_fmap. destruct (decide (k < n)%nat) as [Hk|Hk].
  - rewrite lookup_seq_lt by done. destruct (lookup_lt_is_Some_2 l k) as [x Hx]; [lia|]. rewrite Hx. cbn [fmap option_fmap option_map]. f_equal. by apply words_from.
  - rewrite lookup_seq_ge, lookup_ge_None_2 by lia. done.
Qed.

Lemma Forall_map_id {A} (P : A -> Prop) (g : A -> A) l : Forall P l -> (forall x, P x -> g x = x) -> map g l = l.
Proof. intros H Hg. induction H as [|x l Hx H IH]; [done|]. cbn. by rewrite Hg, IH. Qed.

Lemma alloc_fields_cpb m a b : clusters_per_block (info_alloc m a b) = clusters_per_block m.
Proof. done. Qed.
Lemma alloc_fields_offset m a b : alloc_offset (info_alloc m a b) = a.
Proof. done. Qed.
Lemma root_fields_at m e a : alloc_offset (info_root2 (info_alloc_end (info_alloc m a 0) e)) + rootdir_cluster (info_root2 (info_alloc_end (info_alloc m a 0) e)) = a.
Proof. cbn. lia. Qed.

Lemma word_at_cluster f k j : (j < 256)%nat -> word_at (cluster f k) (4 * j) = word_at f (4 * (256 * k + j)).
Proof.
  intros Hj. unfold word_at, cluster. f_equal. apply list_eq. intros i. destruct (decide (i < 4)%nat) as [Hi|Hi].
  - rewrite !lookup_take_lt, !lookup_drop by lia. rewrite lookup_take_lt, lookup_drop by lia. f_equal. lia.
  - rewrite !lookup_take_ge by lia. done.
Qed.

Section InfoBytes.
Context (m : MCDevInfo) (r : bytes) (Hwf : info_wf m).
#[local] Notation heads := (magic m ++ version m ++ le_bytes 2 (pagesize m) ++ le_bytes 2 (pages_per_cluster m) ++ le_bytes 2 (blocksize m) ++ le_bytes 2 (unused m)).
#[local] Notation words1 := [clusters_per_card m; alloc_offset m; alloc_end m; rootdir_cluster m; backup_block1 m; backup_block2 m].
#[local] Notation words2 := [cluster_size m; FATentries_per_cluster m; clusters_per_block m; cardform m; rootdir_cluster2 m; unknown1 m; unknown2 m; max_allocatable_clusters m; unknown3 m; unknown4 m; unknown5 m].

Lemma heads_length : length heads = 48%nat.
Proof. rewrite !length_app, !le_bytes_length, (wf_magic _ Hwf), (wf_version _ Hwf). done. Qed.

Lemma info_bytes_length : length (info_bytes m) = 384%nat.
Proof.
  unfold info_bytes. rewrite !length_app, !le_bytes_length, !word_bytes_length, (wf_magic _ Hwf), (wf_version _ Hwf), (wf_unused2 _ Hwf), (proj1 (wf_ifc _ Hwf)), (proj1 (wf_bad _ Hwf)). done.
Qed.

Lemma info_word1 k x off : words1 !! k = Some x -> off = (48 + 4 * k)%nat -> word_at (info_bytes m ++ r) off = x mod 2 ^ 32.
Proof. intros Hk ->. unfold info_bytes. rewrite <- !app_assoc. rewrite <- (words_from heads (unused2 m ++ word_bytes (ifc_list m) ++ word_bytes (bad_block_list m) ++ [cardtype m; cardflags m] ++ le_bytes 2 (unused3 m) ++ word_bytes words2 ++ r) words1 48 k x heads_length Hk). by rewrite <- !app_assoc. Qed.

Lemma info_word2 k x off : words2 !! k = Some x -> off = (340 + 4 * k)%nat -> word_at (info_bytes m ++ r) off = x mod 2 ^ 32.
Proof.
  intros Hk ->. unfold info_bytes. rewrite <- !app_assoc. rewrite <- (words_from (heads ++ word_bytes words1 ++ unused2 m ++ word_bytes (ifc_list m) ++ word_bytes (bad_block_list m) ++ [cardtype m; cardflags m] ++ le_bytes 2 (unused3 m)) r words2 340 k x); [by rewrite <- !app_assoc| |done].
  rewrite (length_app heads), heads_length, !length_app, !le_bytes_length, !word_bytes_length, (wf_unused2 _ Hwf), (proj1 (wf_ifc _ Hwf)), (proj1 (wf_bad _ Hwf)). done.
Qed.

Lemma info_ifc : map (fun k => word_at (info_bytes m ++ r) (80 + 4 * k)) (seq 0 32) = ifc_list m.
Proof.
  rewrite <- (Forall_map_id word_ok (fun x => x mod 2 ^ 32) (ifc_list m)) by (try apply (wf_ifc _ Hwf); intros x Hx; by apply Z.mod_small).
  rewrite <- (words_list (heads ++ word_bytes words1 ++ unused2 m) (word_bytes (bad_block_list m) ++ [cardtype m; cardflags m] ++ le_bytes 2 (unused3 m) ++ word_bytes words2 ++ r) (ifc_list m) 80 32).
  - apply map_ext. intros k. unfold info_bytes. by rewrite <- !app_assoc.
  - rewrite (length_app heads), heads_length, length_app, word_bytes_length, (wf_unused2 _ Hwf). done.
  - apply (wf_ifc _ Hwf).
Qed.

Lemma info_bad : map (fun k => s32 (word_at (info_bytes m ++ r) (208 + 4 * k))) (seq 0 32) = bad_block_list m.
Proof.
  rewrite <- (map_map (fun k => word_at (info_bytes m ++ r) (208 + 4 * k)) s32). transitivity (map s32 (map (fun x => x mod 2 ^ 32) (bad_block_list m))).
  - f_equal. rewrite <- (words_list (heads ++ word_bytes words1 ++ unused2 m ++ word_bytes (ifc_list m)) ([cardtype m; cardflags m] ++ le_bytes 2 (unused3 m) ++ word_bytes words2 ++ r) (bad_block_list m) 208 32).
    + apply map_ext. intros k. unfold info_bytes. by rewrite <- !app_assoc.
    + rewrite (length_app heads), heads_length, !length_app, !word_bytes_length, (wf_unused2 _ Hwf), (proj1 (wf_ifc _ Hwf)). done.
    + apply (wf_bad _ Hwf).
  - rewrite map_map. apply (Forall_map_id _ (fun x => s32 (x mod 2 ^ 32)) _ (proj2 (wf_bad _ Hwf))). apply s32_back.
Qed.

(** the bytes from a place on *)
Lemma info_from a b n : info_bytes m = a ++ b -> length a = n -> drop n (info_bytes m ++ r) = b ++ r.
Proof. intros -> <-. by rewrite <- app_assoc, drop_app_length. Qed.

Lemma info_heads : take 28 (info_bytes m ++ r) = magic m /\ take 12 (drop 28 (info_bytes m ++ r)) = version m /\
  half_at (info_bytes m ++ r) 40 = pagesize m mod 65536 /\ half_at (info_bytes m ++ r) 42 = pages_per_cluster m /\ half_at (info_bytes m ++ r) 44 = blocksize m /\ half_at (info_bytes m ++ r) 46 = unused m.
Proof.
  pose proof (wf_half _ Hwf) as Hh. rewrite !Forall_cons in Hh. destruct Hh as (H1 & H2 & H3 & _). unfold info_bytes. rewrite <- !app_assoc. split; [by rewrite (take_app_length' _ _ 28) by (by rewrite (wf_magic _ Hwf))|]. split; [rewrite (drop_app_length' _ _ 28) by (by rewrite (wf_magic _ Hwf)); by rewrite (take_app_length' _ _ 12) by (by rewrite (wf_version _ Hwf))|].
  assert (E : forall n k R, n = (40 + k)%nat -> half_at (magic m ++ version m ++ R) n = half_at R k) by (intros n k R ->; rewrite !half_at_app; rewrite ?(wf_magic _ Hwf), ?(wf_version _ Hwf); [f_equal; lia|lia..]).
  rewrite (E 40%nat 0%nat), (E 42%nat 2%nat), (E 44%nat 4%nat), (E 46%nat 6%nat) by done.
  repeat split; repeat (rewrite half_at_app by (rewrite le_bytes_length; lia)); rewrite ?le_bytes_length; try (by apply half_at_here).
  unfold half_at. rewrite drop_0, (take_app_length' _ _ 2) by (by rewrite le_bytes_length). apply (le_val_mod 2).
Qed.

Lemma info_mid : take 8 (drop 72 (info_bytes m ++ r)) = unused2 m /\ nth 336 (info_bytes m ++ r) 0 = cardtype m /\ nth 337 (info_bytes m ++ r) 0 = cardflags m /\ half_at (info_bytes m ++ r) 338 = unused3 m.
Proof.
  pose proof (wf_half _ Hwf) as Hh. rewrite !Forall_cons in Hh. destruct Hh as (_ & _ & _ & H4 & _).
  set (R := word_bytes (ifc_list m) ++ word_bytes (bad_block_list m) ++ [cardtype m; cardflags m] ++ le_bytes 2 (unused3 m) ++ word_bytes words2).
  assert (E1 : drop 72 (info_bytes m ++ r) = (unused2 m ++ R) ++ r) by (apply (info_from (heads ++ word_bytes words1)); [unfold info_bytes, R; by rewrite <- !app_assoc|rewrite (length_app heads), heads_length, word_bytes_length; done]).
  assert (E2 : drop 336 (info_bytes m ++ r) = ([cardtype m; cardflags m] ++ le_bytes 2 (unused3 m) ++ word_bytes words2) ++ r).
  { apply (info_from (heads ++ word_bytes words1 ++ unused2 m ++ word_bytes (ifc_list m) ++ word_bytes (bad_block_list m))); [unfold info_bytes; by rewrite <- !app_assoc|].
    rewrite (length_app heads), heads_length, !length_app, !word_bytes_length, (wf_unused2 _ Hwf), (proj1 (wf_ifc _ Hwf)), (proj1 (wf_bad _ Hwf)). done. }
  split; [rewrite E1, <- app_assoc; by rewrite (take_app_length' _ _ 8) by (by rewrite (wf_unused2 _ Hwf))|].
  assert (En : forall k, nth (336 + k) (info_bytes m ++ r) 0 = nth k (drop 336 (info_bytes m ++ r)) 0) by (intros k; rewrite !nth_lookup, lookup_drop; done).
  split; [rewrite (En 0%nat : nth 336 (info_bytes m ++ r) 0 = _), E2; done|]. split; [rewrite (En 1%nat : nth 337 (info_bytes m ++ r) 0 = _), E2; done|].
  assert (E3 : half_at (info_bytes m ++ r) 338 = half_at (drop 336 (info_bytes m ++ r)) 2) by (unfold half_at; by rewrite drop_drop). rewrite E3, E2, <- !app_assoc.
  rewrite half_at_app by (cbn; lia). cbn [length Nat.sub]. by apply half_at_here.
Qed.

Lemma info_back : info_of_bytes (info_bytes m ++ r) = m.
Proof.
  pose proof (wf_words _ Hwf) as H1. pose proof (wf_words2 _ Hwf) as H2. pose proof (wf_ints _ Hwf) as H3. repeat rewrite Forall_cons in H1. repeat rewrite Forall_cons in H2. repeat rewrite Forall_cons in H3. unfold word_ok in *.
  destruct info_heads as (E1 & E2 & E3 & E4 & E5 & E6). destruct info_mid as (F1 & F2 & F3 & F4). unfold info_of_bytes. rewrite E1, E2, E3, E4, E5, E6, F1, F2, F3, F4, info_ifc, info_bad, page_back by apply (wf_page _ Hwf).
  rewrite (info_word1 0 _ 48 eq_refl eq_refl), (info_word1 1 _ 52 eq_refl eq_refl), (info_word1 2 _ 56 eq_refl eq_refl), (info_word1 3 _ 60 eq_refl eq_refl), (info_word1 4 _ 64 eq_refl eq_refl), (info_word1 5 _ 68 eq_refl eq_refl).
  rewrite (info_word2 0 _ 340 eq_refl eq_refl), (info_word2 1 _ 344 eq_refl eq_refl), (info_word2 2 _ 348 eq_refl eq_refl), (info_word2 3 _ 352 eq_refl eq_refl), (info_word2 4 _ 356 eq_refl eq_refl), (info_word2 5 _ 360 eq_refl eq_refl), (info_word2 6 _ 364 eq_refl eq_refl), (info_word2 7 _ 368 eq_refl eq_refl), (info_word2 8 _ 372 eq_refl eq_refl), (info_word2 9 _ 376 eq_refl eq_refl), (info_word2 10 _ 380 eq_refl eq_refl).
  rewrite !s32_back by tauto. destruct m. cbn [clusters_per_card alloc_offset alloc_end rootdir_cluster backup_block1 backup_block2 cluster_size FATentries_per_cluster clusters_per_block rootdir_cluster2 unknown1 unknown2 max_allocatable_clusters unknown3 unknown4] in *. rewrite !Z.mod_small by tauto. done.
Qed.
End InfoBytes.
(** ** Lemmas: runs that come to an end *)

Section Runs.
Context {W : Type} `{!VmcIO W}.
Implicit Types (s : gen (W := W)).
#[local] Existing Instance M_ret.
#[local] Existing Instance M_bind.

Definition runs {A} (m : M A) s (Q : A -> gen -> Prop) : Prop := exists a s', m s = Some (inr a, s') /\ Q a s'.

Lemma runs_ret {A} (a : A) s (Q : A -> gen -> Prop) : Q a s -> runs (mret a) s Q.
Proof. intros H. by exists a, s. Qed.
Lemma runs_bind {A B} (m : M A) (k : A -> M B) s Q : runs m s (fun a s' => runs (k a) s' Q) -> runs (m ≫= k) s Q.
Proof. intros (a & s' & E & b & s'' & E' & H). exists b, s''. split; [|done]. unfold mbind, M_bind. by rewrite E. Qed.
Lemma runs_weaken {A} (m : M A) s (Q Q' : A -> gen -> Prop) : runs m s Q -> (forall a s', Q a s' -> Q' a s') -> runs m s Q'.
Proof. intros (a & s' & E & H) HQ. exists a, s'. auto. Qed.
Lemma runs_get s (Q : gen -> gen -> Prop) : Q s s -> runs get s Q.
Proof. intros H. by exists s, s. Qed.
Lemma runs_udiv a b s (Q : Z -> gen -> Prop) : b <> 0 -> Q (a / b) s -> runs (udiv a b) s Q.
Proof. intros Hb H. unfold udiv. rewrite (proj2 (Z.eqb_neq b 0)) by done. by apply runs_ret. Qed.

(** a device on which the image is created, written in full and not aborted *)
Variables (img : W -> bytes) (good : W -> Prop).
Record vmc_laws : Prop := {
  law_open : forall w, good w -> exists w', vm_open w = (true, w') /\ good w' /\ img w' = [];
  law_write : forall w off b, good w -> (off <= length (img w))%nat -> exists w', vm_write w (Z.of_nat off) b = (Z.of_nat (length b), w') /\ good w' /\ img w' = blit (img w) off b;
  law_abort : forall w, good w -> exists w', vm_abort w = (false, w') /\ good w' /\ img w' = img w;
  law_alloc : forall w n, good w -> vm_alloc w n = true;
  law_clock : forall w c, good w -> exists ok c' w', vm_clock w c = (ok, c', w') /\ good w' /\ img w' = img w;
}.
Hypothesis laws : vmc_laws.

(** the thread with an image and a super block in memory *)
Definition holds (f : bytes) (m : MCDevInfo) s : Prop := good (g_w s) /\ g_sema s <> 0 /\ img (g_w s) = f /\ g_info s = m.

Lemma runs_msg b f m s Q : holds f m s -> (forall s', holds f m s' -> Q tt s') -> runs (set_msg b) s Q.
Proof. intros H HQ. eexists _, _. split; [done|]. by apply HQ. Qed.
Lemma runs_progress p f m s Q : holds f m s -> (forall s', holds f m s' -> Q tt s') -> runs (set_progress p) s Q.
Proof. intros H HQ. eexists _, _. split; [done|]. by apply HQ. Qed.
Lemma runs_info i f m s Q : holds f m s -> (forall s', holds f i s' -> Q tt s') -> runs (set_info i) s Q.
Proof. intros (H1 & H2 & H3 & H4) HQ. eexists _, _. split; [done|]. by apply HQ. Qed.

Lemma runs_write code c (buf : bytes) dup f m s Q : holds f m s -> cluster_size m = 1024 -> (1024 * c <= length f)%nat -> Z.of_nat (1024 * (c + dup)) < 2 ^ 31 -> (1024 * dup <= length buf)%nat ->
  (forall s', holds (blit f (1024 * c) (take (1024 * dup) buf)) m s' -> Q tt s') -> runs (checked code (mc_writecluster (Z.of_nat c) buf (Z.of_nat dup))) s Q.
Proof.
  intros (Hg & Hs & Hf & Hm) Hcs Hc Hb Hl HQ. destruct (law_abort laws _ Hg) as (w1 & Ea & Hg1 & Hf1). assert (E1 : s32 (u32 (1024 * Z.of_nat dup)) = Z.of_nat (1024 * dup)) by (autorewrite with words; lia).
  assert (E2 : s32 (u32 (Z.of_nat c * 1024)) = Z.of_nat (1024 * c)) by (autorewrite with words; lia).
  destruct (law_write laws w1 (1024 * c) (take (1024 * dup) buf) Hg1) as (w2 & Ew & Hg2 & Hf2); [rewrite Hf1, Hf; lia|]. rewrite length_take, Nat.min_l in Ew by lia.
  assert (E : mc_writecluster (Z.of_nat c) buf (Z.of_nat dup) s = Some (inr 0, {| g_w := w2; g_sema := g_sema s; g_info := g_info s; g_progress := g_progress s; g_msg := g_msg s |})).
  { unfold mc_writecluster. rewrite (proj2 (Z.eqb_neq _ _) Hs), Ea, Hm, Hcs, E1, E2, Nat2Z.id, Ew. cbn zeta. rewrite Z.eqb_refl. cbn [negb]. unfold mbind, M_bind, set_w, mret, M_ret. by rewrite Hm. }
  eexists tt, _. split; [unfold checked, mbind, M_bind; rewrite E; done|]. apply HQ. repeat split; try done. cbn [g_w]. rewrite Hf2, Hf1, Hf. done.
Qed.

Lemma blit_append_replicate (x : Z) i n : blit (replicate i x) i (replicate n x) = replicate (i + n) x.
Proof using. unfold blit. rewrite take_ge, drop_ge by (rewrite length_replicate; lia). by rewrite app_nil_r, replicate_add. Qed.

Lemma runs_erase C m Q : Z.of_nat (1024 * C) < 2 ^ 31 -> (99 <= C)%nat -> clusters_per_card m = Z.of_nat C -> cluster_size m = 1024 ->
  forall n i fuel s, C = (i + 16 * n)%nat -> (n < fuel)%nat -> holds (replicate (1024 * i) 255) m s ->
  (forall s', holds (replicate (1024 * C) 255) m s' -> Q tt s') -> runs (erase_loop fuel (Z.of_nat i)) s Q.
Proof.
  intros Hb H99 HC Hcs. induction n as [|n IH]; intros i [|fuel] s Hn Hfu Hs HQ; try lia; cbn [erase_loop]; apply runs_bind, runs_get; cbv zeta; rewrite (proj2 (proj2 (proj2 Hs))), HC.
  - rewrite u32_id by lia. rewrite (proj2 (Z.ltb_ge _ _)) by lia. apply runs_ret, HQ. by replace C with i by lia.
  - rewrite u32_id by lia. rewrite (proj2 (Z.ltb_lt _ _)) by lia. apply runs_bind, runs_udiv; [lia|]. apply runs_bind, runs_udiv; [assert (0 < Z.of_nat C / 99); [apply Z.div_str_pos; lia|lia]|].
    apply runs_bind. eapply runs_progress; [exact Hs|]. intros s1 Hs1. apply runs_bind. change BLOCKKB with (Z.of_nat 16).
    eapply runs_write; [exact Hs1|done|rewrite length_replicate; lia|lia|rewrite length_replicate; lia|]. intros s2 Hs2. replace (s32 (Z.of_nat i + Z.of_nat 16)) with (Z.of_nat (i + 16)) by (rewrite s32_id; lia).
    apply IH; [lia|lia| |exact HQ]. rewrite take_replicate in Hs2. replace (Z.to_nat (Z.of_nat 16 * 1024)) with (1024 * 16)%nat in Hs2 by lia. rewrite Nat.min_id, blit_append_replicate in Hs2. by replace (1024 * (i + 16))%nat with (1024 * i + 1024 * 16)%nat by lia.
Qed.

(** the list of indirect clusters and the words in them *)
Lemma ifc_words_spec C : forall n i, 0 <= i -> i + Z.of_nat n <= C -> C < 2 ^ 32 -> ifc_words n i C = Some (map (fun k => i + Z.of_nat k) (seq 0 n)).
Proof using.
  induction n as [|n IH]; intros i Hi Hn HC; [done|]. cbn [ifc_words]. rewrite u32_id by lia. rewrite (proj2 (Z.leb_gt _ _)) by lia. rewrite IH by lia. cbn [fmap option_fmap option_map seq map]. f_equal. f_equal; [lia|]. rewrite <- seq_shift, map_map. apply map_ext. intros k. lia.
Qed.

Lemma runs_ifc fi m f mem Q : cluster_size m = 1024 -> forall n z s, (1024 * (fi + z + n) <= length f)%nat -> Z.of_nat (1024 * (fi + z + n)) < 2 ^ 31 -> (1024 * (z + n) <= length mem)%nat ->
  (forall k, (k < z + n)%nat -> nth k (ifc_list m) 0 = Z.of_nat (fi + k)) -> holds (blit f (1024 * fi) (take (1024 * z) mem)) m s ->
  (forall s', holds (blit f (1024 * fi) (take (1024 * (z + n)) mem)) m s' -> Q tt s') -> runs (write_ifc n z mem) s Q.
Proof.
  intros Hcs. induction n as [|n IH]; intros z s Hf Hb Hm Hl Hs HQ; cbn [write_ifc].
  - apply runs_ret, HQ. by rewrite Nat.add_0_r.
  - apply runs_bind, runs_get. cbv zeta. rewrite (proj2 (proj2 (proj2 Hs))), Hcs, Hl by lia. rewrite s32_id by lia. apply runs_bind. change 1 with (Z.of_nat 1). change (Z.to_nat 1024) with 1024%nat.
    eapply runs_write; [exact Hs|done|rewrite blit_length; rewrite ?length_take; lia|lia|rewrite length_drop; lia|]. intros s1 Hs1. apply IH; [lia|lia|lia|intros k Hk; apply Hl; lia| |].
    + replace (1024 * (fi + z))%nat with (1024 * fi + length (take (1024 * z) mem))%nat in Hs1 by (rewrite length_take; lia). rewrite blit_join in Hs1 by (rewrite !length_take, length_drop; lia).
      replace (take (1024 * S z) mem) with (take (1024 * z) mem ++ take (1024 * 1) (drop (z * 1024) mem)); [exact Hs1|]. replace (z * 1024)%nat with (1024 * z)%nat by lia. rewrite take_take_drop. f_equal. lia.
    + intros s' H. apply HQ. by replace (z + S n)%nat with (S z + n)%nat by lia.
Qed.

(** the pages of a table that has [A] clusters to give *)
Definition fat_word (A n : nat) : Z := if Nat.eqb n 0 then 0xffffffff else if Nat.ltb n A then 0x7fffffff else 0.
Definition fat_page (A q : nat) : list Z := map (fun b => fat_word A (256 * q + b)) (seq 0 256).
Definition fat_pages (A n : nat) : bytes := concat (map (fun q => word_bytes (fat_page A q)) (seq 0 n)).

Lemma fat_page_words A q sz : (256 * q < A)%nat -> sz = Nat.min 256 (A - 256 * q) ->
  (if Nat.eqb q 0 then <[0%nat := 0xffffffff]> (replicate sz 0x7fffffff ++ replicate (256 - sz) 0) else replicate sz 0x7fffffff ++ replicate (256 - sz) 0) = fat_page A q.
Proof using.
  intros Hq Hsz. unfold fat_page. apply list_eq. intros b. rewrite list_lookup_fmap.
  assert (Hr : (replicate sz 0x7fffffff ++ replicate (256 - sz) 0) !! b = if decide (b < 256)%nat then Some (if Nat.ltb (256 * q + b) A then 0x7fffffff else 0) else None).
  { destruct (decide (b < sz)%nat) as [Hb|Hb].
    - rewrite lookup_app_l by (rewrite length_replicate; lia). rewrite lookup_replicate_2 by done. rewrite decide_True by lia. rewrite (proj2 (Nat.ltb_lt _ _)) by lia. done.
    - rewrite lookup_app_r by (rewrite length_replicate; lia). rewrite length_replicate. case_decide.
      + rewrite lookup_replicate_2 by lia. rewrite (proj2 (Nat.ltb_ge _ _)) by lia. done.
      + apply lookup_ge_None. rewrite length_replicate. lia. }
  destruct (decide (b < 256)%nat) as [Hb|Hb].
  - rewrite lookup_seq_lt by done. cbn [fmap option_fmap option_map]. unfold fat_word. destruct (Nat.eqb_spec q 0) as [->|Hq0].
    + destruct b as [|b]; [rewrite list_lookup_insert_eq; [done|rewrite length_app, !length_replicate; lia]|]. rewrite list_lookup_insert_ne by done. rewrite Hr. done.
    + rewrite Hr. rewrite (proj2 (Nat.eqb_neq _ 0)) by lia. done.
  - rewrite lookup_seq_ge by lia. cbn [fmap option_fmap option_map]. apply lookup_ge_None. destruct (Nat.eqb q 0); rewrite ?length_insert, ?length_app, !length_replicate; lia.
Qed.

Lemma fat_pages_length A n : length (fat_pages A n) = (1024 * n)%nat.
Proof using.
  unfold fat_pages. rewrite (concat_length _ 1024); [by rewrite length_map, length_seq|]. apply Forall_forall. intros b Hb. apply list_elem_of_fmap in Hb as (q & -> & _). rewrite word_bytes_length. unfold fat_page. by rewrite length_map, length_seq.
Qed.

Lemma fat_pages_snoc A n : fat_pages A (S n) = fat_pages A n ++ word_bytes (fat_page A n).
Proof using. unfold fat_pages. rewrite seq_S, map_app, concat_app. cbn [map concat]. by rewrite app_nil_r. Qed.

Definition after_alloc (m : MCDevInfo) (a q : nat) : MCDevInfo := if Nat.eqb q 0 then m else info_alloc m (Z.of_nat a) 0.

Lemma after_alloc_fields m a q : cluster_size (after_alloc m a q) = cluster_size m /\ FATentries_per_cluster (after_alloc m a q) = FATentries_per_cluster m /\ clusters_per_block (after_alloc m a q) = clusters_per_block m /\ (if Nat.eqb q 0 then info_alloc (after_alloc m a q) (Z.of_nat a) 0 else after_alloc m a q) = after_alloc m a (S q).
Proof using. unfold after_alloc. by destruct q. Qed.

Lemma runs_fat_page i a A fi f m q sz s (Q : Z -> gen -> Prop) fuel : cluster_size m = 1024 -> FATentries_per_cluster m = 256 -> u32 (i * clusters_per_block m) = Z.of_nat (a + A) -> Z.of_nat (a + A) < 2 ^ 30 -> (1024 * (fi + q + 1) <= length f)%nat -> Z.of_nat (1024 * (fi + q + 1)) < 2 ^ 31 ->
  (256 * q < A)%nat -> sz = Nat.min 256 (A - 256 * q) -> holds (blit f (1024 * fi) (fat_pages A q)) (after_alloc m a q) s ->
  (forall s', holds (blit f (1024 * fi) (fat_pages A (S q))) (after_alloc m a (S q)) s' -> runs (fat_loop fuel i (Z.of_nat (a + 256 * S q)) (Z.of_nat (256 * q + sz)) (Z.of_nat (fi + S q))) s' Q) ->
  runs (fat_loop (S fuel) i (Z.of_nat (a + 256 * q)) (Z.of_nat (256 * q)) (Z.of_nat (fi + q))) s Q.
Proof.
  intros Hcs Hfe He Ha Hf Hb Hq Hsz Hs HQ. destruct (after_alloc_fields m a q) as (Ecs & Efe & Ecb & Enext). cbn [fat_loop]. apply runs_bind, runs_get. cbv zeta. rewrite (proj2 (proj2 (proj2 Hs))), Ecs, Efe, Ecb, Hcs, Hfe, He.
  rewrite (u32_id (Z.of_nat (a + 256 * q))) by lia. rewrite (proj2 (Z.ltb_lt _ _)) by lia. set (rest := Z.of_nat (a + A) - Z.of_nat (a + 256 * q)). rewrite (u32_id rest), (s32_id rest), (u32_id rest) by lia. unfold rest.
  replace (if 256 <? Z.of_nat (a + A) - Z.of_nat (a + 256 * q) then 256 else Z.of_nat (a + A) - Z.of_nat (a + 256 * q)) with (Z.of_nat sz) by (destruct (Z.ltb_spec 256 (Z.of_nat (a + A) - Z.of_nat (a + 256 * q))); lia). rewrite Nat2Z.id. change (Z.to_nat (1024 / 4)) with 256%nat.
  pose proof (fat_page_words A q sz Hq Hsz) as Hp. apply runs_bind.
  enough (Hw : forall fc s1, fc = fat_page A q -> holds (blit f (1024 * fi) (fat_pages A q)) (after_alloc m a (S q)) s1 ->
    runs (checked (-107) (mc_writecluster (Z.of_nat (fi + q)) (word_bytes fc) 1) ;; fat_loop fuel i (s32 (u32 (Z.of_nat (a + 256 * q) + 256))) (Z.of_nat (256 * q) + Z.of_nat sz) (Z.of_nat (fi + q) + 1)) s1 Q).
  { replace (Z.of_nat (256 * q) =? 0) with (Nat.eqb q 0) by (destruct q; [done|]; symmetry; apply Z.eqb_neq; lia). destruct (Nat.eqb q 0) eqn:Eq.
    - apply runs_bind. eapply runs_info; [exact Hs|]. intros s1 Hs1. apply runs_ret. apply Hw; [exact Hp|]. rewrite <- Enext. replace (a + 256 * q)%nat with a in Hs1 by (apply Nat.eqb_eq in Eq; lia). exact Hs1.
    - apply runs_ret. apply Hw; [exact Hp|]. by rewrite <- Enext. }
  intros fc s1 -> Hs1. apply runs_bind. change 1 with (Z.of_nat 1) at 1. assert (Hlen : length (word_bytes (fat_page A q)) = 1024%nat) by (rewrite word_bytes_length; unfold fat_page; by rewrite length_map, length_seq).
  assert (Ecs' : cluster_size (after_alloc m a (S q)) = 1024) by exact Hcs.
  eapply runs_write; [exact Hs1|exact Ecs'|rewrite blit_length; rewrite ?fat_pages_length; lia|lia|lia|]. intros s2 Hs2. rewrite take_ge in Hs2 by lia. replace (1024 * (fi + q))%nat with (1024 * fi + length (fat_pages A q))%nat in Hs2 by (rewrite fat_pages_length; lia).
  rewrite blit_join in Hs2 by (rewrite fat_pages_length; lia). rewrite <- fat_pages_snoc in Hs2. replace (s32 (u32 (Z.of_nat (a + 256 * q) + 256))) with (Z.of_nat (a + 256 * S q)) by (rewrite u32_id by lia; rewrite s32_id; lia).
  replace (Z.of_nat (256 * q) + Z.of_nat sz) with (Z.of_nat (256 * q + sz)) by lia. replace (Z.of_nat (fi + q) + 1) with (Z.of_nat (fi + S q)) by lia. by apply HQ.
Qed.

Lemma runs_fat i a A fi f m (Q : Z -> gen -> Prop) : cluster_size m = 1024 -> FATentries_per_cluster m = 256 -> u32 (i * clusters_per_block m) = Z.of_nat (a + A) -> Z.of_nat (a + A) < 2 ^ 30 ->
  forall n q fuel s, (A <= 256 * (q + n) < A + 256)%nat -> (0 < n)%nat -> (n < fuel)%nat -> (1024 * (fi + q + n) <= length f)%nat -> Z.of_nat (1024 * (fi + q + n)) < 2 ^ 31 ->
  holds (blit f (1024 * fi) (fat_pages A q)) (after_alloc m a q) s ->
  (forall s', holds (blit f (1024 * fi) (fat_pages A (q + n))) (info_alloc m (Z.of_nat a) 0) s' -> Q (Z.of_nat A) s') ->
  runs (fat_loop fuel i (Z.of_nat (a + 256 * q)) (Z.of_nat (256 * q)) (Z.of_nat (fi + q))) s Q.
Proof.
  intros Hcs Hfe He Ha. induction n as [|n IH]; intros q [|fuel] s HA Hn Hfu Hf Hb Hs HQ; try lia. eapply (runs_fat_page i a A fi f m q (Nat.min 256 (A - 256 * q))); [done..|lia|lia|lia|done|exact Hs|]. intros s1 Hs1. destruct n as [|n].
  - replace (256 * q + Nat.min 256 (A - 256 * q))%nat with A by lia. destruct fuel as [|fuel]; [lia|]. cbn [fat_loop]. apply runs_bind, runs_get. cbv zeta. rewrite (proj2 (proj2 (proj2 Hs1))). change (clusters_per_block (after_alloc m a (S q))) with (clusters_per_block m). rewrite He.
    rewrite u32_id by lia. rewrite (proj2 (Z.ltb_ge _ _)) by lia. apply runs_ret, HQ. by replace (q + 1)%nat with (S q) by lia.
  - replace (256 * q + Nat.min 256 (A - 256 * q))%nat with (256 * S q)%nat by lia. apply IH; [lia|lia|lia|lia|lia|exact Hs1|]. intros s' H. apply HQ. by replace (q + S (S n))%nat with (S q + S n)%nat by lia.
Qed.
(** ** Lemmas: the formatter *)

Lemma runs_clock n f m s c : holds f m s -> exists c' w', mc_getmcrtime_loop n (g_w s) c = (c', w') /\ good w' /\ img w' = f.
Proof.
  intros (Hg & _ & Hf & _). revert Hg Hf. generalize (g_w s) as w. revert c. induction n as [|n IH]; intros c w Hg Hf; cbn; [by exists c, w|].
  destruct (law_clock laws w c Hg) as (ok & c' & w' & E & Hg' & Hf'). rewrite E. destruct ok; [exists c', w'; rewrite Hf'; done|]. apply IH; congruence.
Qed.

Lemma fs_entry_length mode len t c d nm : (length nm <= 32)%nat -> length (fs_entry mode len t c d nm) = 512%nat.
Proof using. intros H. unfold fs_entry, time_bytes. rewrite !length_app, !le_bytes_length, !length_replicate. cbn [length]. lia. Qed.
Lemma root_entries_length t : length (root_entries t) = 1024%nat.
Proof using. unfold root_entries. rewrite length_app, !fs_entry_length by (cbn; lia). done. Qed.

Section Card.
(** the size in megabytes and the pages of a block *)
Context (mb : nat) (block : Z) (Hmb : (1 <= mb <= 1024)%nat) (Hblock : 2 <= block <= 64).
Definition ifc_at : nat := Z.to_nat (block / 2).
Definition card_clusters : nat := 1024 * mb.
Definition ifc_count : nat := (16 * mb + 1023) / 1024.
Definition fat_at : nat := ifc_at + ifc_count.
Definition alloc_from : nat := fat_at + 4 * mb.
Definition card_blocks : nat := card_clusters / ifc_at.
Definition alloc_count : nat := (card_blocks - 2) * ifc_at - alloc_from.
Definition fat_count : nat := (alloc_count + 255) / 256.
Definition ifc_table : list Z := map (fun j => Z.of_nat (ifc_at + j)) (seq 0 ifc_count) ++ replicate (32 - ifc_count) 0xffffffff.
Definition ifc_bytes : bytes := word_bytes (map (fun k => Z.of_nat (fat_at + k)) (seq 0 (4 * mb))) ++ replicate (1024 * ifc_count - 4 * (4 * mb)) 0.
Definition info_fat (old : MCDevInfo) : MCDevInfo :=
  info_layout (info_layout (info_specs old (Z.of_nat (1024 * mb)) block) ifc_table (backup_block1 old) (backup_block2 old) (max_allocatable_clusters old)) ifc_table
    (Z.of_nat (card_blocks - 1)) (Z.of_nat (card_blocks - 2)) (max_of (Z.of_nat card_clusters)).
Definition final_info (old : MCDevInfo) : MCDevInfo := info_form (info_root2 (info_alloc_end (info_alloc (info_fat old) (Z.of_nat alloc_from) 0) (Z.of_nat alloc_count))) 1.
(** the image after each of the steps *)
Definition with_ifc : bytes := blit (replicate (1024 * card_clusters) 255) (1024 * ifc_at) ifc_bytes.
Definition with_fat : bytes := blit with_ifc (1024 * fat_at) (fat_pages alloc_count fat_count).
Definition with_root (time : sceMcStDateTime) : bytes := blit with_fat (1024 * alloc_from) (root_entries time).
Definition superblock (m : MCDevInfo) : bytes := info_bytes m ++ replicate (1024 - length (info_bytes m)) 0xff.
Definition card_image (old : MCDevInfo) (time : sceMcStDateTime) : bytes := blit (with_root time) 0 (superblock (final_info old)).

Lemma card_numbers : (1 <= ifc_at <= 32)%nat /\ Z.of_nat ifc_at = block / 2 /\ (1 <= ifc_count <= 16)%nat /\ (16 * mb <= 1024 * ifc_count)%nat /\ (card_blocks * ifc_at <= card_clusters < (card_blocks + 1) * ifc_at)%nat /\
  (alloc_from + alloc_count = (card_blocks - 2) * ifc_at)%nat /\ (32 < alloc_count)%nat /\ (2 < card_blocks)%nat /\ (alloc_count <= 256 * fat_count < alloc_count + 256)%nat /\ (0 < fat_count <= 4 * mb)%nat.
Proof using Hmb Hblock.
  assert (Hi : (1 <= ifc_at <= 32)%nat /\ Z.of_nat ifc_at = block / 2) by (unfold ifc_at; pose proof (Z.div_mod block 2); pose proof (Z.mod_pos_bound block 2); lia).
  assert (Hc : (1 <= ifc_count <= 16)%nat /\ (16 * mb <= 1024 * ifc_count)%nat).
  { unfold ifc_count. pose proof (Nat.div_mod_eq (16 * mb + 1023) 1024). pose proof (Nat.mod_upper_bound (16 * mb + 1023) 1024). lia. }
  assert (Hb : (card_blocks * ifc_at <= card_clusters < (card_blocks + 1) * ifc_at)%nat) by (unfold card_blocks; pose proof (Nat.div_mod_eq card_clusters ifc_at); pose proof (Nat.mod_upper_bound card_clusters ifc_at); nia).
  assert (Ha : (alloc_from + 32 < (card_blocks - 2) * ifc_at)%nat) by (unfold alloc_from, fat_at; unfold card_clusters in Hb; nia).
  assert (Hf : (alloc_count <= 256 * fat_count < alloc_count + 256)%nat) by (unfold fat_count; pose proof (Nat.div_mod_eq (alloc_count + 255) 256); pose proof (Nat.mod_upper_bound (alloc_count + 255) 256); lia).
  assert (Hs : (alloc_from + alloc_count = (card_blocks - 2) * ifc_at)%nat) by (unfold alloc_count; lia). unfold card_clusters in *. repeat split; try tauto; try lia; nia.
Qed.

Lemma specs_fields old : let m := info_specs old (Z.of_nat (1024 * mb)) block in
  clusters_per_card m = Z.of_nat card_clusters /\ cluster_size m = 1024 /\ FATentries_per_cluster m = 256 /\ clusters_per_block m = Z.of_nat ifc_at /\ blocksize m = block.
Proof using Hmb Hblock.
  destruct card_numbers as (_ & Ei & _). cbn. rewrite u16_id, Ei by lia. repeat split. unfold card_clusters. rewrite s32_id, u32_id by lia. rewrite Z.div_mul; lia.
Qed.

Lemma runs_match {A} (o : bool * W) (k : bool -> W -> M A) s Q : runs (k o.1 o.2) s Q -> runs (let '(b, w) := o in k b w) s Q.
Proof using. by destruct o. Qed.

(** creation and the setting of all clusters *)
Lemma runs_create fuel old s (k : M unit) Q : good (g_w s) -> g_sema s <> 0 -> g_info s = old -> (64 * mb < fuel)%nat ->
  (forall s', holds (replicate (1024 * card_clusters) 255) (info_specs old (Z.of_nat (1024 * mb)) block) s' -> runs k s' Q) ->
  runs (set_msg (bs "Creating VMC file...") ;; s ← get; let '(opened, w) := vm_open (g_w s) in set_w w ;; (if opened then mret tt else fail (-101)) ;;
        set_info (info_specs (g_info s) (Z.of_nat (1024 * mb)) block) ;; set_msg (bs "Erasing VMC clusters...") ;; erase_loop fuel 0 ;; k) s Q.
Proof.
  intros Hg Hs Ho Hfu HQ. destruct (specs_fields old) as (E1 & E2 & _). apply runs_bind. eapply (runs_msg _ (img (g_w s)) old); [done|]. intros s1 (Hg1 & Hs1 & Hf1 & Hi1). apply runs_bind, runs_get.
  destruct (law_open laws _ Hg1) as (w2 & -> & Hg2 & Hf2). apply runs_bind. eexists tt, _. split; [done|]. apply runs_bind, runs_ret, runs_bind. eapply (runs_info _ [] old); [split; [exact Hg2|split; [exact Hs1|split; [exact Hf2|exact Hi1]]]|]. rewrite Hi1. intros s3 Hs3.
  apply runs_bind. eapply runs_msg; [exact Hs3|]. intros s4 Hs4. apply runs_bind. apply (runs_erase card_clusters (info_specs old (Z.of_nat (1024 * mb)) block)) with (n := (64 * mb)%nat) (i := 0%nat) (s := s4); unfold card_clusters in *; try done; try lia.
Qed.

Lemma ifcs_table : map (fun j => u32 (Z.of_nat ifc_at + Z.of_nat j)) (seq 0 ifc_count) ++ replicate (32 - ifc_count) 0xffffffff = ifc_table.
Proof using Hmb Hblock.
  destruct card_numbers as (H1 & _ & H2 & _). unfold ifc_table. f_equal. apply map_ext_in. intros j Hj%in_seq. rewrite u32_id; lia.
Qed.

Lemma ifc_bytes_length : length ifc_bytes = (1024 * ifc_count)%nat.
Proof using Hmb Hblock. destruct card_numbers as (_ & _ & _ & H & _). unfold ifc_bytes. rewrite length_app, word_bytes_length, length_map, length_seq, length_replicate. lia. Qed.

Lemma table_nth k : (k < ifc_count)%nat -> nth k ifc_table 0 = Z.of_nat (ifc_at + k).
Proof using Hmb.
  intros Hk. unfold ifc_table. rewrite app_nth1 by (rewrite length_map, length_seq; lia). rewrite nth_lookup, list_lookup_fmap, lookup_seq_lt by done. done.
Qed.

Lemma image_lengths time : length with_ifc = (1024 * card_clusters)%nat /\ length with_fat = (1024 * card_clusters)%nat /\ length (with_root time) = (1024 * card_clusters)%nat.
Proof using Hmb Hblock.
  destruct card_numbers as (H1 & _ & H2 & _ & H3 & H4 & H5 & H6 & H7 & H8). assert (Hc : (alloc_from + alloc_count <= card_clusters)%nat) by nia. unfold alloc_from, fat_at in Hc.
  assert (E1 : length with_ifc = (1024 * card_clusters)%nat) by (unfold with_ifc; rewrite blit_length; rewrite ?length_replicate, ?ifc_bytes_length; lia).
  assert (E2 : length with_fat = (1024 * card_clusters)%nat) by (unfold with_fat; rewrite blit_length; rewrite ?E1, ?fat_pages_length; unfold fat_at; lia).
  split; [done|]. split; [done|]. unfold with_root. rewrite blit_length; rewrite ?E2, ?root_entries_length; unfold alloc_from, fat_at; lia.
Qed.

Lemma info_fat_cpb old : clusters_per_block (info_fat old) = Z.of_nat ifc_at.
Proof using Hmb Hblock. destruct (specs_fields old) as (_ & _ & _ & E & _). rewrite <- E. done. Qed.

(** what is left in memory from before: the fields the formatter does not set *)
Definition leftovers_ok (old : MCDevInfo) : Prop :=
  0 <= unused old < 2 ^ 16 /\ 0 <= unused3 old < 2 ^ 16 /\ length (unused2 old) = 8%nat /\ word_ok (unknown3 old) /\ word_ok (unknown4 old).

Lemma final_info_wf old : leftovers_ok old -> info_wf (final_info old).
Proof using Hmb Hblock.
  intros (H1 & H2 & H3 & H4 & H5). destruct card_numbers as (Hia & Ei & Hic & Hif & Hcb & Hac & H32 & H2b & Hfc & Hfn). destruct (specs_fields old) as (EC & Ecs & Efe & Ecb & Ebl). assert (HC : card_clusters = (1024 * mb)%nat) by done.
  assert (Hcl : (alloc_from + alloc_count <= card_clusters)%nat) by nia. assert (Hbl : (card_blocks <= card_clusters)%nat) by nia.
  assert (Hm : 0 <= max_of (Z.of_nat card_clusters) < 2 ^ 32) by (unfold max_of; destruct (long_multiply _ _); apply u32_range).
  split; unfold word_ok in *; cbn [magic version unused2 pages_per_cluster blocksize unused unused3 pagesize clusters_per_card alloc_offset alloc_end rootdir_cluster backup_block1 backup_block2 ifc_list bad_block_list cluster_size FATentries_per_cluster clusters_per_block rootdir_cluster2 unknown1 unknown2 max_allocatable_clusters unknown3 unknown4 cardform unknown5 final_info info_form info_root2 info_alloc_end info_alloc info_fat info_layout info_specs] in *.
  - done.
  - done.
  - done.
  - rewrite Ebl. repeat apply Forall_cons_2; try apply Forall_nil_2; lia.
  - change (1024 / 2) with 512. lia.
  - rewrite EC. repeat apply Forall_cons_2; try apply Forall_nil_2; lia.
  - unfold ifc_table. split; [rewrite length_app, length_map, length_seq, length_replicate; lia|]. apply Forall_app. split; [|apply Forall_replicate; lia].
    apply Forall_forall. intros x Hx. apply list_elem_of_fmap in Hx as (j & -> & Hj%elem_of_seq). lia.
  - split; [done|]. apply (Forall_replicate (fun x => - 2 ^ 31 <= x < 2 ^ 31)). lia.
  - rewrite Ecb. change (1024 / 4) with 256. repeat apply Forall_cons_2; try apply Forall_nil_2; lia.
  - repeat apply Forall_cons_2; try apply Forall_nil_2; lia.
Qed.

Lemma runs_format fuel uninit s : good (g_w s) -> g_sema s <> 0 -> leftovers_ok (g_info s) -> (64 * mb < fuel)%nat ->
  runs (vmc_mcformat fuel uninit (Z.of_nat (1024 * mb)) block) s (fun _ s' => exists time, holds (card_image (g_info s) time) (final_info (g_info s)) s').
Proof.
  intros Hg Hs Hlo Hfu. set (old := g_info s) in *. pose proof (info_bytes_length _ (final_info_wf old Hlo)) as Hil. destruct (specs_fields old) as (EC & Ecs & Efe & Ecb & Ebl). destruct card_numbers as (Hia & Ei & Hic & Hif & Hcb & Hac & H32 & H2b & Hfc & Hfn).
  assert (Hcl : (alloc_from + alloc_count <= card_clusters)%nat) by nia. assert (Hcl2 : (fat_at + 4 * mb = alloc_from)%nat) by done. assert (HC : card_clusters = (1024 * mb)%nat) by done.
  destruct (image_lengths {| Resv2 := 0; Sec := 0; Min := 0; Hour := 0; Day := 0; Month := 0; Year := 0 |}) as (L1 & L2 & _).
  unfold vmc_mcformat. apply (runs_create fuel old); [done..|]. intros s1 Hs1. apply runs_bind, runs_get. cbv zeta. rewrite (proj2 (proj2 (proj2 Hs1))).
  rewrite (fat_lengths_spec _ (Z.of_nat mb)) by (try done; rewrite ?EC; lia). rewrite Ebl, <- Ei, Ecs, EC, Ecb. replace ((16 * Z.of_nat mb + 1023) / 1024) with (Z.of_nat ifc_count) by (unfold ifc_count; rewrite Nat2Z.inj_div; f_equal; lia).
  rewrite Nat2Z.id, ifcs_table. apply runs_bind. eapply runs_info; [exact Hs1|]. intros s2 Hs2. apply runs_bind. rewrite (law_alloc laws) by apply Hs1. apply runs_ret.
  replace (Z.of_nat ifc_at + Z.of_nat ifc_count) with (Z.of_nat fat_at) by (unfold fat_at; lia). rewrite ifc_words_spec by lia. apply runs_bind, runs_ret, runs_bind. eapply runs_msg; [exact Hs2|]. intros s3 Hs3.
  replace (Z.to_nat (4 * Z.of_nat mb)) with (4 * mb)%nat by lia. replace (Z.to_nat (Z.of_nat ifc_count * 1024)) with (1024 * ifc_count)%nat by lia. rewrite length_map, length_seq.
  replace (map (fun k => Z.of_nat fat_at + Z.of_nat k) (seq 0 (4 * mb))) with (map (fun k => Z.of_nat (fat_at + k)) (seq 0 (4 * mb))) by (apply map_ext; lia). change (word_bytes (map (fun k => Z.of_nat (fat_at + k)) (seq 0 (4 * mb))) ++ replicate (1024 * ifc_count - 4 * (4 * mb)) 0) with ifc_bytes.
  apply runs_bind. apply (runs_ifc ifc_at (info_layout (info_specs old (Z.of_nat (1024 * mb)) block) ifc_table (backup_block1 old) (backup_block2 old) (max_allocatable_clusters old)) (replicate (1024 * card_clusters) 255) ifc_bytes) with (z := 0%nat) (n := ifc_count) (s := s3);
    [done|rewrite length_replicate; lia|lia|rewrite ifc_bytes_length; lia|intros k Hk; by apply table_nth|by rewrite Nat.mul_0_r, take_0, blit_nil|].
  intros s4 Hs4. rewrite take_ge in Hs4 by (rewrite ifc_bytes_length; lia). change (blit (replicate (1024 * card_clusters) 255) (1024 * ifc_at) ifc_bytes) with with_ifc in Hs4.
  apply runs_bind, runs_udiv; [lia|]. rewrite <- Nat2Z.inj_div. change (card_clusters / ifc_at)%nat with card_blocks. rewrite (u32_id (Z.of_nat card_blocks - 1)), (u32_id (Z.of_nat card_blocks - 2)), (s32_id (Z.of_nat card_blocks - 2)) by nia.
  apply runs_bind. eapply runs_info; [exact Hs4|]. intros s5 Hs5. apply runs_bind. eapply runs_msg; [exact Hs5|]. intros s6 Hs6.
  replace (Z.of_nat card_blocks - 1) with (Z.of_nat (card_blocks - 1)) in Hs6 by lia. replace (Z.of_nat card_blocks - 2) with (Z.of_nat (card_blocks - 2)) in * by lia. fold (info_fat old) in Hs6.
  replace (Z.of_nat fat_at + 4 * Z.of_nat mb) with (Z.of_nat (alloc_from + 256 * 0)) by lia. change 0 with (Z.of_nat (256 * 0)) at 1. replace (Z.of_nat fat_at) with (Z.of_nat (fat_at + 0)) by lia.
  assert (Eend : u32 (Z.of_nat (card_blocks - 2) * Z.of_nat ifc_at) = Z.of_nat (alloc_from + alloc_count)) by (rewrite <- Nat2Z.inj_mul, <- Hac; apply u32_id; lia).
  apply runs_bind. apply (runs_fat (Z.of_nat (card_blocks - 2)) alloc_from alloc_count fat_at with_ifc (info_fat old)) with (n := fat_count) (q := 0%nat) (s := s6);
    [done|done|rewrite info_fat_cpb; exact Eend|lia|lia|lia|lia|lia|lia|change (fat_pages alloc_count 0) with (@nil Z); rewrite blit_nil; exact Hs6|].
  intros s7 Hs7. change (blit with_ifc (1024 * fat_at) (fat_pages alloc_count (0 + fat_count))) with with_fat in Hs7.
  apply runs_bind, runs_get. cbv zeta. rewrite (proj2 (proj2 (proj2 Hs7))). rewrite alloc_fields_cpb, info_fat_cpb, Eend.
  replace (u32 (Z.of_nat (alloc_from + alloc_count) - alloc_offset (info_alloc (info_fat old) (Z.of_nat alloc_from) 0))) with (Z.of_nat alloc_count) by (rewrite alloc_fields_offset, u32_id; lia).
  apply runs_bind. eapply runs_info; [exact Hs7|]. intros s8 Hs8. apply runs_bind. rewrite u32_id by lia. rewrite (proj2 (Z.ltb_ge _ _)) by lia. apply runs_ret, runs_bind, runs_get.
  rewrite (proj2 (proj2 (proj2 Hs8))). apply runs_bind. eapply runs_info; [exact Hs8|]. intros s9 Hs9. apply runs_bind, runs_get. unfold mc_getmcrtime. destruct (runs_clock 64 _ _ _ uninit Hs9) as (c' & w' & -> & Hg' & Hf').
  match goal with |- context [root_entries ?t] => set (time := t) end.
  apply runs_bind. eexists tt, _. split; [done|]. set (m9 := info_root2 (info_alloc_end (info_alloc (info_fat old) (Z.of_nat alloc_from) 0) (Z.of_nat alloc_count))) in *.
  apply runs_bind. eapply (runs_msg _ with_fat m9); [split; [exact Hg'|split; [apply Hs9|split; [exact Hf'|apply Hs9]]]|]. intros s10 Hs10. cbn [g_info]. rewrite (proj2 (proj2 (proj2 Hs9))).
  replace (s32 (u32 (alloc_offset m9 + rootdir_cluster m9))) with (Z.of_nat alloc_from) by (unfold m9; rewrite root_fields_at, u32_id, s32_id; lia).
  apply runs_bind. change 1 with (Z.of_nat 1) at 1. eapply runs_write; [exact Hs10|done|lia|lia|rewrite root_entries_length; lia|]. intros s11 Hs11. rewrite take_ge in Hs11 by (rewrite root_entries_length; lia). fold (with_root time) in Hs11.
  apply runs_bind, runs_get. cbv zeta. rewrite (proj2 (proj2 (proj2 Hs11))). change (info_form m9 1) with (final_info old). apply runs_bind. eapply runs_info; [exact Hs11|]. intros s12 Hs12. apply runs_bind. eapply runs_msg; [exact Hs12|]. intros s13 Hs13.
  apply runs_bind. change (Z.to_nat (cluster_size (final_info old))) with 1024%nat.
  apply (runs_write (-110) 0 _ 1 (with_root time) (final_info old)); [exact Hs13|done|lia|lia|rewrite length_app, length_replicate; lia|]. intros s14 Hs14. rewrite take_ge in Hs14 by (rewrite length_app, length_replicate; lia).
  eapply runs_progress; [exact Hs14|]. intros s15 Hs15. exists time. exact Hs15.
Qed.

(** *** What the image holds *)

Lemma superblock_length old : leftovers_ok old -> length (superblock (final_info old)) = 1024%nat.
Proof using Hmb Hblock. intros H. unfold superblock. rewrite length_app, length_replicate, (info_bytes_length _ (final_info_wf old H)). done. Qed.

Lemma card_image_clusters old time : leftovers_ok old ->
  length (card_image old time) = (1024 * card_clusters)%nat /\ cluster (card_image old time) 0 = superblock (final_info old) /\
  (forall k, (k < ifc_count)%nat -> cluster (card_image old time) (ifc_at + k) = cluster ifc_bytes k) /\
  (forall q, (q < fat_count)%nat -> cluster (card_image old time) (fat_at + q) = word_bytes (fat_page alloc_count q)) /\
  cluster (card_image old time) alloc_from = root_entries time /\
  (forall k, (k < card_clusters)%nat -> (0 < k < ifc_at \/ fat_at + fat_count <= k)%nat -> k <> alloc_from -> cluster (card_image old time) k = replicate 1024 255).
Proof using Hmb Hblock.
  intros Hold. pose proof (superblock_length old Hold) as Ls. destruct card_numbers as (Hia & Ei & Hic & Hif & Hcb & Hac & H32 & H2b & Hfc & Hfn). destruct (image_lengths time) as (L1 & L2 & L3). assert (Hcl : (alloc_from + alloc_count <= card_clusters)%nat) by nia.
  pose proof (fat_pages_length alloc_count fat_count) as Lf. pose proof ifc_bytes_length as Li. pose proof (root_entries_length time) as Lr. assert (E0 : (0 = 1024 * 0)%nat) by done. unfold alloc_from, fat_at in *.
  assert (O5 : forall k, (0 < k)%nat -> cluster (card_image old time) k = cluster (with_root time) k) by (intros k Hk; unfold card_image; rewrite E0 at 1; apply cluster_out; lia).
  assert (O4 : forall k, k <> (ifc_at + ifc_count + 4 * mb)%nat -> cluster (with_root time) k = cluster with_fat k) by (intros k Hk; apply cluster_out; unfold alloc_from, fat_at; lia).
  assert (O3 : forall k, (k < ifc_at + ifc_count \/ ifc_at + ifc_count + fat_count <= k)%nat -> cluster with_fat k = cluster with_ifc k) by (intros k Hk; apply cluster_out; unfold fat_at; lia).
  split; [unfold card_image; rewrite blit_length; lia|]. split; [|split; [|split; [|split]]].
  - unfold card_image. rewrite E0 at 1. pose proof (cluster_in (with_root time) 0 (superblock (final_info old)) 0) as H. cbn [Nat.add] in H. rewrite H by lia. unfold cluster. rewrite drop_0. apply take_ge. lia.
  - intros k Hk. rewrite O5, O4, O3 by lia. apply cluster_in; rewrite ?length_replicate; lia.
  - intros q Hq. rewrite O5, O4 by lia. unfold with_fat, fat_at. rewrite cluster_in by lia. apply cluster_concat.
    + apply Forall_forall. intros b Hb. apply list_elem_of_fmap in Hb as (x & -> & _). rewrite word_bytes_length. unfold fat_page. by rewrite length_map, length_seq.
    + rewrite list_lookup_fmap, lookup_seq_lt by done. done.
  - rewrite O5 by lia. unfold with_root, alloc_from, fat_at. pose proof (cluster_in with_fat (ifc_at + ifc_count + 4 * mb) (root_entries time) 0) as H. rewrite Nat.add_0_r in H. rewrite H by lia. unfold cluster. rewrite drop_0. apply take_ge. lia.
  - intros k Hk Hr Hn. rewrite O5, O4, O3 by lia. unfold with_ifc. rewrite cluster_out by (rewrite ?length_replicate; lia). unfold cluster. rewrite drop_replicate, take_replicate. f_equal. lia.
Qed.

Lemma ifc_word k j : (k < ifc_count)%nat -> (j < 256)%nat -> (256 * k + j < 4 * mb)%nat -> word_at (cluster ifc_bytes k) (4 * j) = Z.of_nat (fat_at + (256 * k + j)).
Proof using Hmb Hblock.
  intros Hk Hj Hn. rewrite word_at_cluster by done. unfold ifc_bytes. rewrite (word_at_words _ _ _ (Z.of_nat (fat_at + (256 * k + j)))) by (rewrite list_lookup_fmap, lookup_seq_lt by done; done).
  destruct card_numbers as (Hia & _ & Hic & _). apply Z.mod_small. unfold fat_at. lia.
Qed.

(** an entry of the table, found from the super block on *)
Lemma image_entry old time n : leftovers_ok old -> (n < alloc_count)%nat -> fat_entry (card_image old time) (final_info old) n = if Nat.eqb n 0 then 0xffffffff else 0x7fffffff.
Proof using Hmb Hblock.
  intros Hold Hn. destruct (card_image_clusters old time Hold) as (_ & _ & Hi & Hf & _). destruct card_numbers as (Hia & Ei & Hic & Hif & Hcb & Hac & H32 & H2b & Hfc & Hfn).
  assert (Hq : n = (256 * (n / 256) + n mod 256)%nat /\ (n mod 256 < 256)%nat) by (split; [apply Nat.div_mod_eq|apply Nat.mod_upper_bound; lia]). set (q := (n / 256)%nat) in *.
  assert (Hq2 : q = (256 * (q / 256) + q mod 256)%nat /\ (q mod 256 < 256)%nat) by (split; [apply Nat.div_mod_eq|apply Nat.mod_upper_bound; lia]). assert (Hqf : (q < fat_count)%nat) by lia. assert (Hqi : (q / 256 < ifc_count)%nat) by lia.
  unfold fat_entry. fold q. change (ifc_list (final_info old)) with ifc_table. rewrite table_nth by done. rewrite Nat2Z.id, (Hi _ Hqi). rewrite ifc_word by lia. replace (256 * (q / 256) + q mod 256)%nat with q by lia. rewrite Nat2Z.id, (Hf _ Hqf).
  rewrite <- (app_nil_r (word_bytes _)). assert (Hl : fat_page alloc_count q !! (n mod 256)%nat = Some (fat_word alloc_count n)) by (unfold fat_page; rewrite list_lookup_fmap, lookup_seq_lt by lia; cbn [fmap option_fmap option_map Nat.add]; do 2 f_equal; lia).
  rewrite (word_at_words _ _ _ _ Hl). unfold fat_word. destruct (Nat.eqb n 0); [done|]. by rewrite (proj2 (Nat.ltb_lt n alloc_count) Hn).
Qed.

Lemma image_mounts old time : leftovers_ok old -> empty_card (card_image old time) mb block.
Proof using Hmb Hblock.
  intros Hold. destruct (card_image_clusters old time Hold) as (Hl & Hs & _ & _ & Hr & He). destruct card_numbers as (Hia & Ei & Hic & Hif & Hcb & Hac & H32 & H2b & Hfc & Hfn).
  destruct (specs_fields old) as (EC & Ecs & Efe & Ecb & Ebl). assert (HC : card_clusters = (1024 * mb)%nat) by done. assert (Hcl : (alloc_from + alloc_count <= card_clusters)%nat) by nia.
  assert (Em : info_of_bytes (cluster (card_image old time) 0) = final_info old) by (rewrite Hs; apply info_back, final_info_wf, Hold).
  assert (E1 : clusters_per_card (final_info old) = Z.of_nat card_clusters) by exact EC. assert (E2 : clusters_per_block (final_info old) = Z.of_nat ifc_at) by exact Ecb.
  assert (E3 : alloc_offset (final_info old) = Z.of_nat alloc_from) by done. assert (E4 : alloc_end (final_info old) = Z.of_nat alloc_count) by done.
  assert (E5 : backup_block1 (final_info old) = Z.of_nat (card_blocks - 1) /\ backup_block2 (final_info old) = Z.of_nat (card_blocks - 2)) by done. destruct E5 as [E5 E6].
  split; cbv zeta; rewrite ?Em, ?E1, ?E2, ?E3, ?E4, ?E5, ?E6.
  - by rewrite Hl, HC.
  - repeat split. exact Ebl.
  - rewrite Hs. unfold superblock. by destruct (info_heads (final_info old) (replicate (1024 - length (info_bytes (final_info old))) 255) (final_info_wf old Hold)) as (_ & _ & -> & _).
  - lia.
  - unfold alloc_from, fat_at in *. change (nth 0 (ifc_list (final_info old)) 0) with (nth 0 ifc_table 0). rewrite table_nth by lia. nia.
  - intros n Hn. rewrite image_entry by (try done; lia). done.
  - rewrite Nat2Z.id. by exists time.
  - intros k Hk. apply He; unfold alloc_from in *; lia.
  - change (max_allocatable_clusters (final_info old)) with (max_of (Z.of_nat card_clusters)). apply max_of_spec. lia.
Qed.
End Card.

(** ** Lemmas: the copier *)

Lemma runs_pages slot first f m (page : Z -> bytes) total : (forall p, 0 <= p < total -> length (page p) = 512%nat) ->
  (forall w, good w -> forall p, 0 <= p < total -> mc_readpage w slot p = Some (page p)) -> 0 <= first -> total < 2 ^ 32 ->
  forall n j buf s (Q : bytes -> gen -> Prop), first + Z.of_nat (j + n) <= total -> (512 * (j + n) <= length buf)%nat -> holds f m s ->
  take (512 * j) buf = concat (map (fun i => page (first + Z.of_nat i)) (seq 0 j)) ->
  (forall buf' s', holds f m s' -> length buf' = length buf -> take (512 * (j + n)) buf' = concat (map (fun i => page (first + Z.of_nat i)) (seq 0 (j + n))) -> Q buf' s') ->
  runs (read_pages slot first 512 n j buf) s Q.
Proof.
  intros Hp Hr Hf Ht. induction n as [|n IH]; intros j buf s Q Hn Hb Hs Hj HQ; cbn [read_pages].
  - apply runs_ret, HQ; [exact Hs|done|]. by rewrite Nat.add_0_r.
  - apply runs_bind, runs_get. rewrite u32_id by lia. rewrite (Hr _ (proj1 Hs)) by lia. pose proof (Hp (first + Z.of_nat j)) as Hl. apply IH; [lia|rewrite blit_length; lia|exact Hs| |].
    + rewrite seq_S, map_app, concat_app, <- Hj. cbn [map concat Nat.add]. rewrite app_nil_r. replace (512 * S j)%nat with (j * 512 + length (page (first + Z.of_nat j)%Z))%nat by lia. replace (512 * j)%nat with (j * 512)%nat by lia. apply blit_append; lia.
    + intros buf' s' H1 H2 H3. rewrite blit_length in H2 by lia. apply HQ; [exact H1|lia|]. by replace (j + S n)%nat with (S j + n)%nat by lia.
Qed.

Section Copy.
Context (slot : Z) (page : Z -> bytes) (C : nat) (m : MCDevInfo).
Context (Hpage : forall p, 0 <= p < Z.of_nat (2 * C) -> length (page p) = 512%nat).
Context (Hread : forall w, good w -> forall p, 0 <= p < Z.of_nat (2 * C) -> mc_readpage w slot p = Some (page p)).
Context (Hm : pagesize m = 512 /\ pages_per_cluster m = 2 /\ cluster_size m = 1024 /\ clusters_per_card m = Z.of_nat C).
Context (HC : (1584 <= C)%nat /\ Z.of_nat (1024 * C) < 2 ^ 31).

(** the first pages of the card *)
Definition card_pages (n : nat) : bytes := concat (map (fun i => page (Z.of_nat i)) (seq 0 n)).

Lemma card_pages_length n : (n <= 2 * C)%nat -> length (card_pages n) = (512 * n)%nat.
Proof using Hpage HC.
  intros Hn. unfold card_pages. rewrite (concat_length _ 512); [by rewrite length_map, length_seq|]. apply Forall_forall. intros b Hb. apply list_elem_of_fmap in Hb as (i & -> & Hi%elem_of_seq). apply Hpage. lia.
Qed.

Lemma card_pages_app a n : card_pages (a + n) = card_pages a ++ concat (map (fun i => page (Z.of_nat a + Z.of_nat i)) (seq 0 n)).
Proof using HC.
  unfold card_pages. rewrite seq_app, map_app, concat_app. f_equal. f_equal. change (0 + a)%nat with a. induction n as [|n IH]; [done|]. rewrite !seq_S, !map_app, IH. cbn [map]. do 3 f_equal. lia.
Qed.

(** a block of [n] clusters from cluster [c] on: the pages read, then written behind the others *)
Lemma runs_step {A} code c n buf s (Q : A -> gen -> Prop) (k : bytes -> M A) : (c + n <= C)%nat -> (1024 * n <= length buf)%nat -> holds (card_pages (2 * c)) m s ->
  (forall buf' s', length buf' = length buf -> holds (card_pages (2 * (c + n))) m s' -> runs (k buf') s' Q) ->
  runs (buf ← read_pages slot (Z.of_nat c * 2) 512 (2 * n) 0 buf; checked code (mc_writecluster (Z.of_nat c) buf (Z.of_nat n)) ;; k buf) s Q.
Proof.
  intros Hc Hb Hs HQ. destruct Hm as (_ & _ & Ecs & _). apply runs_bind. eapply (runs_pages slot (Z.of_nat c * 2) _ m page (Z.of_nat (2 * C))); [exact Hpage|exact Hread|lia|lia|lia|lia|exact Hs|done|].
  intros buf' s1 Hs1 Hl Ht. apply runs_bind. eapply runs_write; [exact Hs1|exact Ecs|rewrite card_pages_length; lia|lia|lia|]. intros s2 Hs2. apply HQ; [done|].
  replace (2 * (c + n))%nat with (2 * c + 2 * n)%nat by lia. rewrite card_pages_app. replace (Z.of_nat c * 2) with (Z.of_nat (2 * c)) in Ht by lia. cbn [Nat.add] in Ht. rewrite <- Ht. replace (512 * (2 * n))%nat with (1024 * n)%nat by lia.
  replace (card_pages (2 * c) ++ take (1024 * n) buf') with (blit (card_pages (2 * c)) (1024 * c) (take (1024 * n) buf')); [exact Hs2|]. unfold blit. pose proof (card_pages_length (2 * c)). rewrite take_ge, drop_ge by lia. by rewrite app_nil_r.
Qed.

Lemma runs_blocks nb (Q : bytes -> gen -> Prop) : (99 <= nb)%nat -> (16 * nb <= C)%nat ->
  forall n i buf s, (i + n = nb)%nat -> (1024 * 16 <= length buf)%nat -> holds (card_pages (2 * (16 * i))) m s ->
  (forall buf' s', length buf' = length buf -> holds (card_pages (2 * (16 * nb))) m s' -> Q buf' s') ->
  runs (copy_blocks n slot (Z.of_nat i) (Z.of_nat nb) 32 16 buf) s Q.
Proof.
  intros Hnb Hle. induction n as [|n IH]; intros i buf s Hi Hb Hs HQ; cbn [copy_blocks].
  - apply runs_ret, HQ; [done|]. by replace nb with i by lia.
  - apply runs_bind, runs_udiv; [lia|]. apply runs_bind, runs_udiv; [assert (0 < Z.of_nat nb / 99) by (apply Z.div_str_pos; lia); lia|]. apply runs_bind. eapply runs_progress; [exact Hs|]. intros s1 Hs1. apply runs_bind, runs_get.
    rewrite (proj2 (proj2 (proj2 Hs1))). destruct Hm as (-> & _). change (Z.to_nat 512) with 512%nat. change (Z.to_nat 32) with (2 * 16)%nat. replace (Z.of_nat i * 32) with (Z.of_nat (16 * i) * 2) by lia.
    replace (s32 (Z.of_nat i * 16)) with (Z.of_nat (16 * i)) by (rewrite s32_id; lia). change (s32 16) with (Z.of_nat 16). apply (runs_step (-103) (16 * i) 16); [lia|exact Hb|exact Hs1|]. intros buf' s2 Hl Hs2.
    replace (Z.of_nat i + 1) with (Z.of_nat (S i)) by lia. apply IH; [lia|lia| |].
    + by replace (16 * S i)%nat with (16 * i + 16)%nat by lia.
    + intros buf2 s3 Hl2 Hs3. apply HQ; [lia|done].
Qed.

Lemma runs_rest (Q : unit -> gen -> Prop) : forall n i buf s, (i + n = C)%nat -> (1024 <= length buf)%nat -> holds (card_pages (2 * i)) m s ->
  (forall s', holds (card_pages (2 * C)) m s' -> Q tt s') -> runs (copy_rest n slot (Z.of_nat i) buf) s Q.
Proof.
  induction n as [|n IH]; intros i buf s Hi Hb Hs HQ; cbn [copy_rest].
  - apply runs_ret, HQ. by replace C with i by lia.
  - apply runs_bind, runs_get. cbv zeta. rewrite (proj2 (proj2 (proj2 Hs))). destruct Hm as (-> & -> & _). change (Z.to_nat 512) with 512%nat. change (Z.to_nat 2) with (2 * 1)%nat.
    replace (s32 (Z.of_nat i)) with (Z.of_nat i) by (rewrite s32_id; lia). apply (runs_step (-103) i 1); [lia|lia|exact Hs|]. intros buf' s' Hl Hs'.
    replace (Z.of_nat i + 1) with (Z.of_nat (i + 1)) by lia. apply IH; [lia|lia|exact Hs'|done].
Qed.
End Copy.

(** ** Lemmas: the semaphore *)

(** it is kept, or a write failed and its code is given up with *)
Definition keeps {A} (m : M A) : Prop := forall s r s', m s = Some (r, s') -> g_sema s' = g_sema s \/ (g_sema s' = 0 /\ exists c, r = inl c /\ c <> -1000).

Lemma keeps_ret {A} (a : A) : keeps (mret a).
Proof using. intros s r s' [= <- <-]. by left. Qed.
Lemma keeps_fail {A} c : keeps (fail (A := A) c).
Proof using. intros s r s' [= <- <-]. by left. Qed.
Lemma keeps_hang {A} : keeps (hang (A := A)).
Proof using. intros s r s' [=]. Qed.
Lemma keeps_bind {A B} (m : M A) (k : A -> M B) : keeps m -> (forall a, keeps (k a)) -> keeps (m ≫= k).
Proof using.
  intros Hm Hk s r s' E. unfold mbind, M_bind in E. destruct (m s) as [[[c|a] s1]|] eqn:Em; [| |done].
  - injection E as <- <-. destruct (Hm _ _ _ Em) as [H|[H (c' & Hc & Hn)]]; [by left|]. right. split; [done|]. injection Hc as <-. by exists c.
  - destruct (Hm _ _ _ Em) as [H|[H (c' & Hc & _)]]; [|done]. destruct (Hk _ _ _ _ E) as [H'|[H' He]]; [left; congruence|by right].
Qed.
Lemma keeps_get : keeps get.
Proof using. intros s r s' [= <- <-]. by left. Qed.
Lemma keeps_w w : keeps (set_w w).
Proof using. intros s r s' [= <- <-]. by left. Qed.
Lemma keeps_info i : keeps (set_info i).
Proof using. intros s r s' [= <- <-]. by left. Qed.
Lemma keeps_progress p : keeps (set_progress p).
Proof using. intros s r s' [= <- <-]. by left. Qed.
Lemma keeps_msg b : keeps (set_msg b).
Proof using. intros s r s' [= <- <-]. by left. Qed.
Lemma keeps_udiv a b : keeps (udiv a b).
Proof using. unfold udiv. destruct (b =? 0); [apply keeps_hang|apply keeps_ret]. Qed.
Lemma keeps_if {A} (b : bool) (m1 m2 : M A) : keeps m1 -> keeps m2 -> keeps (if b then m1 else m2).
Proof using. by destruct b. Qed.
Lemma keeps_write code cl buf dup : code <> -1000 -> keeps (checked code (mc_writecluster cl buf dup)).
Proof using.
  intros Hcode s r s'. unfold checked, mbind, M_bind, mc_writecluster. destruct (g_sema s =? 0); [done|]. destruct (vm_abort (g_w s)) as [[] w]; [intros [= <- <-]; by left|]. cbv zeta.
  destruct (vm_write _ _ _) as [n w']. destruct (negb _); [intros [= <- <-]; right; split; [done|by exists code]|intros [= <- <-]; by left].
Qed.
Create HintDb keeps.
#[local] Hint Resolve keeps_ret keeps_fail keeps_hang keeps_get keeps_w keeps_info keeps_progress keeps_msg keeps_udiv : keeps.
#[local] Hint Extern 1 (keeps (checked _ _)) => apply keeps_write; lia : keeps.
Ltac keep :=
  repeat first [ solve [eauto with keeps] | apply keeps_if | apply keeps_bind; [|intros ?] | match goal with |- keeps (match ?x with _ => _ end) => destruct x end ].

Lemma keeps_erase fuel : forall i, keeps (erase_loop fuel i).
Proof using. induction fuel as [|fuel IH]; intros i; cbn [erase_loop]; keep. Qed.
Lemma keeps_ifc n : forall z mem, keeps (write_ifc n z mem).
Proof using. induction n as [|n IH]; intros z mem; cbn [write_ifc]; keep. Qed.
Lemma keeps_fat fuel : forall i j z fi, keeps (fat_loop fuel i j z fi).
Proof using. induction fuel as [|fuel IH]; intros i j z fi; cbn [fat_loop]; cbv zeta; keep. Qed.
Lemma keeps_pages slot first ps n : forall j buf, keeps (read_pages slot first ps n j buf).
Proof using. induction n as [|n IH]; intros j buf; cbn [read_pages]; keep. Qed.
#[local] Hint Resolve keeps_erase keeps_ifc keeps_fat keeps_pages : keeps.
Lemma keeps_blocks n : forall slot i b p c buf, keeps (copy_blocks n slot i b p c buf).
Proof using. induction n as [|n IH]; intros slot i b p c buf; cbn [copy_blocks]; keep. Qed.
Lemma keeps_rest n : forall slot i buf, keeps (copy_rest n slot i buf).
Proof using. induction n as [|n IH]; intros slot i buf; cbn [copy_rest]; cbv zeta; keep. Qed.
#[local] Hint Resolve keeps_blocks keeps_rest : keeps.
Lemma keeps_format fuel c size block : keeps (vmc_mcformat fuel c size block).
Proof using. unfold vmc_mcformat. cbv zeta. keep. Qed.
Lemma keeps_copy slot buf : keeps (vmc_mccopy slot buf).
Proof using. unfold vmc_mccopy. cbv zeta. keep. Qed.

(** ** Properties *)

(** C28. Formatting ends with success where the device takes every write in full and nobody
    aborts: the image is an empty card of the size asked for: its super block lists the
    indirect clusters through which every allocatable cluster is found free, but for the one
    of the root directory; the areas follow each other without overlap and fit in the card,
    the backup blocks are erased. The semaphore is free. *)
Theorem format_makes_card (mb : nat) (block : Z) fuel uninit s : (1 <= mb <= 1024)%nat -> 2 <= block <= 64 ->
  good (g_w s) -> g_sema s <> 0 -> leftovers_ok (g_info s) -> (64 * mb < fuel)%nat ->
  exists s', vmc_mcformat fuel uninit (Z.of_nat (1024 * mb)) block s = Some (inr tt, s') /\ empty_card (img (g_w s')) mb block /\ g_sema s' <> 0.
Proof.
  intros Hmb Hb Hg Hs Hl Hf. destruct (runs_format mb block Hmb Hb fuel uninit s Hg Hs Hl Hf) as ([] & s' & E & time & Hg' & Hs' & Hi & _). exists s'. split; [done|]. split; [rewrite Hi; by apply image_mounts|done].
Qed.

(** C30. A card of the standard geometry is copied whole: the image is its pages in order. *)
Theorem copy_is_card (slot : Z) (page : Z -> bytes) (C : nat) (buf : bytes) s :
  (forall p, 0 <= p < Z.of_nat (2 * C) -> length (page p) = 512%nat) ->
  (forall w, good w -> mc_detect w slot = 0 /\ forall p, 0 <= p < Z.of_nat (2 * C) -> mc_readpage w slot p = Some (page p)) ->
  (let m := info_of_bytes (take 384 (page 0)) in magic m = SUPERBLOCK_MAGIC /\ pagesize m = 512 /\ pages_per_cluster m = 2 /\ cluster_size m = 1024 /\ clusters_per_card m = Z.of_nat C) ->
  (1584 <= C)%nat -> Z.of_nat (1024 * C) < 2 ^ 31 -> (16400 <= Z.of_nat (length buf)) -> good (g_w s) -> g_sema s <> 0 ->
  exists s', vmc_mccopy slot buf s = Some (inr tt, s') /\ img (g_w s') = concat (map (fun i => page (Z.of_nat i)) (seq 0 (2 * C))) /\ g_sema s' <> 0.
Proof.
  intros Hp Hr Hm HC Hb Hbuf Hg Hs. destruct (Hr _ Hg) as [Hd Hread]. set (m := info_of_bytes (take 384 (page 0))) in *. cbv zeta in Hm. destruct Hm as (Em & Eps & Epc & Ecs & Ecc).
  assert (Hr' : forall w, good w -> forall p, 0 <= p < Z.of_nat (2 * C) -> mc_readpage w slot p = Some (page p)) by (intros w Hw; apply Hr, Hw). assert (L0 : length (page 0) = 512%nat) by (apply Hp; lia).
  assert (Hfirst : take 384 (blit buf 0 (page 0)) = take 384 (page 0)) by (unfold blit; rewrite take_0, app_nil_l, take_app_le by lia; done).
  cut (runs (vmc_mccopy slot buf) s (fun _ s' => holds (card_pages page (2 * C)) m s')); [intros ([] & s' & E & Hh); exists s'; split; [exact E|]; split; apply Hh|].
  unfold vmc_mccopy. apply runs_bind. eapply (runs_msg _ (img (g_w s)) (g_info s)); [done|]. intros s1 Hs1. apply runs_bind, runs_get, runs_bind. destruct (Hr _ (proj1 Hs1)) as [Hd1 Hread1]. rewrite Hd1. apply runs_ret, runs_bind. rewrite Hread1 by lia. apply runs_ret. cbv zeta. rewrite Hfirst. fold m.
  apply runs_bind. eapply runs_info; [exact Hs1|]. intros s2 Hs2. rewrite Em, bool_decide_true by done. apply runs_bind, runs_ret, runs_bind. rewrite Eps. cbn [Z.eqb]. apply runs_ret, runs_bind. rewrite Epc.
  change (u32 (Z.quot (BLOCKKB * 1024) 512)) with 32. apply runs_udiv; [lia|]. change (32 / 2) with 16. apply runs_bind, runs_udiv; [lia|]. apply runs_bind, runs_get. destruct (law_open laws _ (proj1 Hs2)) as (w3 & -> & Hg3 & Hf3).
  apply runs_bind. eexists tt, _. split; [done|]. apply runs_bind, runs_ret, runs_bind. eapply (runs_msg _ [] m); [split; [exact Hg3|split; [apply Hs2|split; [exact Hf3|apply Hs2]]]|]. intros s4 Hs4. rewrite Ecc.
  assert (Ediv : Z.of_nat C / 16 = Z.of_nat (C / 16)) by (by rewrite Nat2Z.inj_div). rewrite Ediv. assert (Hnb : (99 <= C / 16)%nat /\ (16 * (C / 16) <= C)%nat) by (pose proof (Nat.div_mod_eq C 16); pose proof (Nat.mod_upper_bound C 16); lia). rewrite Nat2Z.id.
  assert (Hbl : (1024 * 16 <= length (blit buf 0 (page 0%Z)))%nat) by (rewrite blit_length; lia).
  apply runs_bind. apply (runs_blocks slot page C m Hp Hr' (conj Eps (conj Epc (conj Ecs Ecc))) (conj HC Hb) (C / 16)) with (i := 0%nat) (n := (C / 16)%nat); [tauto|tauto|lia|exact Hbl|exact Hs4|].
  intros buf' s5 Hl5 Hs5. apply runs_bind. replace (Z.of_nat (C / 16) * 16) with (Z.of_nat (16 * (C / 16))) by lia. replace (Z.to_nat (Z.of_nat C - Z.of_nat (16 * (C / 16)))) with (C - 16 * (C / 16))%nat by lia.
  apply (runs_rest slot page C m Hp Hr' (conj Eps (conj Epc (conj Ecs Ecc))) (conj HC Hb)); [lia|lia|exact Hs5|]. intros s6 Hs6. eapply runs_progress; [exact Hs6|]. auto.
Qed.
End Runs.

(** C31. Whatever the device does, a creation that ends reports the thread as available; the
    semaphore of the abort flag is as before, so that the next creation can run, but for a
    failed write; and an aborted image is removed. *)
Theorem creation_reports {W} `{!VmcIO W} fuel uninit buf p (s : gen (W := W)) st s' :
  VMC_create_thread fuel uninit buf p s = Some (st, s') ->
  VMC_status st = GENVMC_STAT_AVAIL /\ (g_sema s' = g_sema s \/ (g_sema s' = 0 /\ VMC_error st <> 0 /\ VMC_error st <> -1000)) /\
  (VMC_error st = -1000 -> exists w, g_w s' = vm_remove w).
Proof.
  unfold VMC_create_thread. destruct (g_sema s =? 0); [done|]. set (s0 := {| g_w := g_w s; g_sema := g_sema s; g_info := g_info s; g_progress := 0; g_msg := _ |}).
  set (run := if VMC_card_slot p =? -1 then _ else _). assert (Hk : keeps run) by (unfold run; apply keeps_if; [apply keeps_format|apply keeps_copy]). destruct (run s0) as [[[r|[]] s1]|] eqn:E; [| |done].
  - destruct (Z.ltb_spec r 0) as [Hr|Hr]; [|done]. destruct (Hk _ _ _ E) as [H|[H (c & Hc & Hn)]].
    + destruct (Z.eqb_spec r (-1000)) as [->|Hn]; intros [= <- <-]; (split; [done|]); (split; [by left|]); [intros _; by eexists|done].
    + injection Hc as <-. rewrite (proj2 (Z.eqb_neq _ _)) by done. intros [= <- <-]. split; [done|]. split; [right; split; [done|]; cbn; lia|done].
  - intros [= <- <-]. split; [done|]. destruct (Hk _ _ _ E) as [H|[H (c & Hc & _)]]; [|done]. split; [by left|done].
Qed.

(** the checks of the probe, on the fields the copier would read *)
Lemma probe_valid (b : bytes) (mb : nat) (size : Z) : length b = 1024%nat -> half_at b 40 = 512 -> (1 <= mb <= 1024)%nat -> size = Z.of_nat (1024 * (1024 * mb)) ->
  let m := info_of_bytes b in magic m = SUPERBLOCK_MAGIC -> cardtype m = 2 -> pages_per_cluster m = 2 -> clusters_per_card m = Z.of_nat (1024 * mb) ->
  superblock_valid (take 512 b) size = true.
Proof.
  intros Hl Hb Hmb -> m Emag Ety Epc Ecl. unfold superblock_valid. assert (W : forall off n, (off + n <= 512)%nat -> take n (drop off (take 512 b)) = take n (drop off b)).
  { intros off n H. apply list_eq. intros i. destruct (decide (i < n)%nat); [rewrite !lookup_take_lt, !lookup_drop, lookup_take_lt by lia; done|rewrite !lookup_take_ge by lia; done]. }
  assert (E1 : half_at (take 512 b) 42 = 2) by (unfold half_at; rewrite W by lia; exact Epc). assert (E2 : word_at (take 512 b) 48 = Z.of_nat (1024 * mb)) by (unfold word_at; rewrite W by lia; exact Ecl).
  assert (E3 : half_at (take 512 b) 40 = 512) by (unfold half_at; rewrite W by lia; exact Hb).
  rewrite E1, E2, E3. rewrite !andb_true_iff, !Z.eqb_eq. split; [split|].
  - assert (Em : take 28 (take 512 b) = SUPERBLOCK_MAGIC) by (rewrite take_take; exact Emag). rewrite <- (take_drop 28 (take 512 b)), Em. generalize (drop 28 (take 512 b)). intros r. reflexivity.
  - rewrite nth_lookup, lookup_take_lt by lia. rewrite <- nth_lookup. exact Ety.
  - f_equal. lia.
Qed.

Section ProbeProps.
Context {W : Type} `{!VmcFiles W}.

(** C29. The image that was made passes the probe of the front end, which reads its size in
    megabytes off it; and asked again for a card of that size the front end makes no other. *)
Theorem made_card_probed (w : W) (gv prefix sep name f : bytes) (mb : nat) (block : Z) : (1 <= mb <= 1024)%nat ->
  empty_card f mb block ->
  let path := bufcpy 256 (prefix ++ bs "VMC" ++ sep ++ name ++ bs ".bin") in
  vf_open w path = Some (Z.of_nat (length f)) -> vf_read w path 512 = take 512 f ->
  sysCheckVMC w gv prefix sep name 0 true = (Z.of_nat mb, w, gv) /\ sysCheckVMC w gv prefix sep name (Z.of_nat mb) false = (Z.of_nat mb, w, []).
Proof.
  intros Hmb Hc path Ho Hr. pose proof (ec_size _ _ _ Hc) as Hl. pose proof (ec_super _ _ _ Hc) as (Emag & Ety & _ & Eps & Epc & _). pose proof (ec_clusters _ _ _ Hc) as Ecl. set (b := cluster f 0) in *.
  assert (Hb : take 512 f = take 512 b) by (unfold b, cluster; rewrite Nat.mul_0_r, drop_0, take_take; f_equal; lia).
  assert (Hbl : length b = 1024%nat) by (unfold b, cluster; rewrite Nat.mul_0_r, drop_0, length_take; nia).
  assert (Esz : Z.rem (Z.of_nat (length f)) MB = 0 /\ Z.quot (Z.of_nat (length f)) MB = Z.of_nat mb).
  { rewrite Hl. replace (Z.of_nat (1024 * (1024 * mb))) with (Z.of_nat mb * MB) by (unfold MB; lia). split; [by apply Z.rem_mul|by apply Z.quot_mul]. }
  assert (Hv : superblock_valid (take 512 f ++ replicate (512 - length (take 512 f)) 0) (Z.of_nat (length f)) = true).
  { assert (Ht : length (take 512 f) = 512%nat) by (rewrite Hb, length_take; lia). rewrite Ht, Nat.sub_diag. cbn [replicate]. rewrite app_nil_r, Hb. apply (probe_valid b mb); try done; [apply (ec_page _ _ _ Hc)|lia]. }
  destruct Esz as [Er Eq]. unfold sysCheckVMC. fold path. split.
  - change (0 <? 0) with false. change (0 =? -1) with false. change (0 =? 0) with true. cbv iota zeta. rewrite Ho, Hr, Hv. cbv iota zeta. rewrite Er, Eq. reflexivity.
  - rewrite (proj2 (Z.ltb_lt 0 (Z.of_nat mb))) by lia. rewrite (proj2 (Z.eqb_neq (Z.of_nat mb) (-1))) by lia. cbv iota zeta. rewrite Ho. cbv iota zeta. rewrite Er, Eq. cbn [Z.eqb negb]. rewrite Z.eqb_refl, andb_false_r. reflexivity.
Qed.
End ProbeProps.

(** ** The theorems on a concrete device *)

(** an image in memory, and what the thread finds the abort flag to be from write to write *)
#[local] Notation mem_image := (bytes * list bool)%type.
Definition sample_info (C : Z) : MCDevInfo := info_specs (info_of_bytes (replicate 384 0)) C 16.
Definition sample_page (C p : Z) : bytes := if p =? 0 then take 512 (info_bytes (info_layout (sample_info C) (replicate 32 0) 0 0 0) ++ replicate 128 255) else replicate 512 (p mod 256).
Definition mem_calls (C : Z) : VmcIO mem_image := {|
  vm_open w := (true, ([], w.2));
  vm_write w off b := (Z.of_nat (length b), (blit w.1 (Z.to_nat off) b, w.2));
  vm_remove w := ([], w.2);
  vm_abort w := match w.2 with [] => (false, w) | a :: l => (a, (w.1, l)) end;
  vm_alloc _ _ := true;
  vm_clock w c := (true, {| stat := 0; second := 0x59; minute := 0x30; hour := 0x12; day := 0x24; month := 0x12; year := 0x26 |}, w);
  mc_detect _ _ := 0; mc_type _ _ := 2; mc_readpage _ _ p := Some (sample_page C p) |}.
Definition sample_clock : cd_clock := {| stat := 0; second := 0; minute := 0; hour := 0; day := 0; month := 0; year := 0 |}.
Definition sample_gen (script : list bool) : gen := {| g_w := ([], script) : mem_image; g_sema := 1; g_info := sample_info 0; g_progress := 0; g_msg := [] |}.

Lemma mem_laws C : @vmc_laws _ (mem_calls C) fst (fun w => w.2 = []).
Proof.
  split.
  - intros w Hw. exists ([], w.2). done.
  - intros w off b Hw _. eexists. split; [cbn; by rewrite Nat2Z.id|]. done.
  - intros [f l] Hw. cbn in Hw. subst l. by exists (f, []).
  - done.
  - intros w c Hw. eexists _, _, _. split; [done|]. done.
Qed.

Lemma sample_leftovers script : leftovers_ok (g_info (sample_gen script)).
Proof. unfold leftovers_ok, word_ok. repeat split; vm_compute; congruence. Qed.

Lemma format_makes_card_witness : exists s', @vmc_mcformat _ (mem_calls 0) 65 sample_clock (Z.of_nat (1024 * 1)) 16 (sample_gen []) = Some (inr tt, s') /\ empty_card (fst (g_w s')) 1 16.
Proof.
  destruct (@format_makes_card _ (mem_calls 0) fst _ (mem_laws 0) 1 16 65 sample_clock (sample_gen [])) as (s' & E & H & _); [lia|lia|done|done|exact (sample_leftovers [])|lia|exact (ex_intro _ s' (conj E H))].
Defined.

Lemma copy_is_card_witness : exists s', @vmc_mccopy _ (mem_calls 1600) 0 (replicate (Z.to_nat 16400) 0) (sample_gen []) = Some (inr tt, s') /\ fst (g_w s') = concat (map (fun i => sample_page 1600 (Z.of_nat i)) (seq 0 (2 * 1600))).
Proof.
  destruct (@copy_is_card _ (mem_calls 1600) fst _ (mem_laws 1600) 0 (sample_page 1600) 1600 (replicate (Z.to_nat 16400) 0) (sample_gen [])) as (s' & E & H & _); [|done|by vm_compute|lia|lia|rewrite length_replicate; lia|done|done|exact (ex_intro _ s' (conj E H))].
  intros p _. unfold sample_page. destruct (p =? 0); [by vm_compute|by rewrite length_replicate].
Defined.

(** a result found by computation *)
Lemma computed_some {A} (o : option A) (P : A -> Prop) : match o with Some x => P x | None => False end -> exists x, o = Some x /\ P x.
Proof. destruct o as [x|]; [by exists x|done]. Qed.

(** a creation that is aborted at its second write *)
Definition aborted_run : option (stats * gen) := @VMC_create_thread _ (mem_calls 0) 65 sample_clock [] {| VMC_size_mb := 8; VMC_blocksize := 16; VMC_card_slot := -1 |} (sample_gen [false; true]).

Lemma creation_reports_witness : exists st s', aborted_run = Some (st, s') /\ VMC_error st = -1000 /\ g_sema s' = 1.
Proof.
  destruct (computed_some aborted_run (fun p => VMC_error p.1 = -1000)) as ([st s'] & E & H); [vm_compute; reflexivity|]. exists st, s'. split; [exact E|]. split; [exact H|].
  destruct (creation_reports _ _ _ _ _ _ _ E) as (_ & [Hs|(_ & _ & Hs)] & _); [exact Hs|exact (False_ind _ (Hs H))].
Defined.

#[local] Instance one_image : VmcFiles bytes := {|
  vf_open w _ := Some (Z.of_nat (length w)); vf_read w _ n := take n w; vf_unlink _ _ := []; vf_create w _ _ _ := w |}.

Lemma made_card_probed_witness : exists f, length f = (1024 * 1024)%nat /\ sysCheckVMC f [] (bs "mass0:") (bs "/") (bs "Save_0") 0 true = (1, f, []).
Proof.
  destruct (runs_format _ _ (mem_laws 0) 1 16 ltac:(lia) ltac:(lia) 65 sample_clock (sample_gen []) eq_refl) as ([] & s' & _ & time & _ & _ & Hi & _); [done|exact (sample_leftovers [])|lia|].
  assert (Hc : empty_card (fst (g_w s')) 1 16) by (rewrite Hi; apply image_mounts; [lia|lia|exact (sample_leftovers [])]).
  exists (fst (g_w s')). split; [exact (ec_size _ _ _ Hc)|]. exact (proj1 (made_card_probed (fst (g_w s')) [] (bs "mass0:") (bs "/") (bs "Save_0") (fst (g_w s')) 1 16 ltac:(lia) Hc eq_refl eq_refl)).
Defined.

(** ** What the code does not hold *)

(** a device that is full *)
Definition full_calls : VmcIO mem_image := {|
  vm_open w := (true, w); vm_write w _ _ := (-1, w); vm_remove w := w; vm_abort w := (false, w); vm_alloc _ _ := true; vm_clock w c := (true, c, w); mc_detect _ _ := 0; mc_type _ _ := 2; mc_readpage _ _ _ := None |}.

(** a failed write keeps the semaphore of the abort flag: the next creation never starts *)
Example failed_write_blocks :
  let p := {| VMC_size_mb := 8; VMC_blocksize := 16; VMC_card_slot := -1 |} in
  match @VMC_create_thread _ full_calls 65 sample_clock [] p (sample_gen []) with
  | Some (st, s') => VMC_error st = -102 /\ g_sema s' = 0 /\ @VMC_create_thread _ full_calls 65 sample_clock [] p s' = None
  | None => False
  end.
Proof. vm_compute. done. Qed.

(** a card of less than 99 blocks is not copied: its progress divides by zero *)
Example small_card_divides : @vmc_mccopy _ (mem_calls 1024) 0 (replicate (Z.to_nat 16400) 0) (sample_gen []) = None.
Proof. vm_compute. reflexivity. Qed.

(** a card of one megabyte claims more clusters than it can allocate *)
Example small_card_claims : alloc_count 1 16 = 995%nat /\ max_of 1024 = 1001.
Proof. vm_compute. done. Qed.
