(* ===== verification/VmcGroups.v ===== *)
(** * VmcGroups: titles that share a memory card (src/vmc_groups.c, src/guigame.c)

    The table of groups as it is embedded in the code, its search, and the name that is
    proposed for the virtual memory card of a game. *)
From S2P Require Import Prelude CLib.

(** ** The table *)

Record MemoryCardGroup := { groupId : bytes; titleIds : list bytes }.

Definition titles_XEBP_100_01 : list bytes := map bs [
  "SCES_532.86"; "SCUS_974.29"; "SLES_532.86"; "SCED_529.52"; "SCES_524.60"; "SCKA_200.40"; "SCUS_973.30";
  "SLES_524.60"; "SCUS_975.16"; "SCPS_150.21"; "SCPS_150.57"; "SCES_516.08"; "SLES_516.08"; "SCKA_200.10";
  "SCUS_972.65"; "PAPX_902.23"; "SCES_503.61"; "SCUS_971.24"; "SCKA_200.60"; "SCUS_974.65"; "SCES_532.85";
  "SLES_532.85"; "SCPS_151.00"; "SCAJ_201.57"; "SCPS_193.21"; "SCPS_193.28"]%string.
Definition titles_XEBP_100_02 : list bytes := map bs [
  "SCES_524.56"; "SCKA_200.37"; "SCPS_150.84"; "SLES_524.56"; "SCAJ_201.09"; "SCPS_193.09"; "SCKA_200.11";
  "SCPS_150.56"; "SCPS_193.17"; "SCUS_972.68"; "SCUS_975.13"; "PBPX_955.16"; "SCED_510.75"; "SCES_509.16";
  "SCKA_201.20"; "SCPS_150.37"; "SCUS_971.99"; "SLES_509.16"]%string.
Definition titles_XEBP_100_03 : list bytes := map bs [
  "SCES_554.96"; "SCUS_976.23"; "SCPS_151.20"; "SCUS_976.15"]%string.
Definition titles_XEBP_100_04 : list bytes := map bs [
  "SCES_502.94"; "PBPX_956.01"; "SCAJ_300.06"; "SCAJ_300.07"; "SCES_517.19"; "SCKA_300.01"; "SCPS_170.01";
  "SCUS_973.28"; "SLES_517.19"; "PBPX_955.23"; "PBPX_955.24"; "SCAJ_200.66"; "SCES_524.38"; "SCPS_150.55";
  "SLES_524.38"; "SCPS_193.04"; "PBPX_955.02"; "SCPS_150.09"; "SCPS_550.07"; "SCUS_971.02"; "SCUS_975.12";
  "SCPS_720.01"; "PBPX_955.03"; "SCPS_150.10"; "SCPS_550.05"; "SCPS_192.08"; "SCES_508.58"; "SCPS_559.02";
  "SCPS_559.03"; "SCPS_560.05"; "SCKA_200.29"]%string.
Definition titles_XEBP_100_05 : list bytes := map bs [
  "SCES_503.82"; "SLES_503.82"; "SLPM_650.51"; "SLUS_202.28"; "SCES_511.56"; "SLES_511.56"; "SCES_514.34";
  "SLES_514.34"; "SLPM_652.57"; "SLUS_206.22"; "SLPM_660.18"; "SLPM_656.22"]%string.
Definition titles_XEBP_100_06 : list bytes := map bs [
  "SCES_504.90"; "SCES_504.91"; "SCES_504.92"; "SCES_504.93"; "SCES_504.94"; "SLES_504.90"; "SLES_504.91";
  "SLES_504.92"; "SLES_504.93"; "SLES_504.94"; "SLPS_250.50"; "SLUS_203.12"; "SLKA_252.14"; "SLPM_666.77";
  "SLPM_661.24"; "SLPM_651.15"; "SLPM_675.13"; "SLPS_250.88"; "SCAJ_250.12"; "SCES_518.15"; "SCES_518.16";
  "SCES_518.17"; "SCES_518.18"; "SCES_518.19"; "SLAJ_250.12"; "SLES_518.15"; "SLES_518.16"; "SLES_518.17";
  "SLES_518.18"; "SLES_518.19"; "SLKA_251.44"; "SLPS_252.50"; "SLUS_206.72"; "SLPM_666.78"; "SLPM_661.25";
  "SCAJ_200.68"; "SLPM_654.78"]%string.
Definition titles_XEBP_100_07 : list bytes := map bs [
  "SCAJ_200.99"; "SCCS_400.05"; "SCED_508.44"; "SCES_507.60"; "SCPS_110.03"; "SCPS_550.01"; "SCPS_560.01";
  "SCUS_971.13"; "SLES_507.60"; "SCKA_200.28"; "SCPS_191.03"; "SCPS_191.51"; "SCAJ_201.96"; "SCAJ_201.46";
  "SCES_533.26"; "SCUS_974.72"; "SLES_533.26"]%string.
Definition titles_XEBP_100_08 : list bytes := map bs [
  "SLKA_250.80"; "SCES_522.37"; "SLES_522.37"; "SLUS_202.67"; "SCPS_550.29"; "SLPS_251.21"; "SLPS_732.30";
  "SLKA_251.38"; "SCES_524.67"; "SLES_524.67"; "SLUS_205.62"; "SLPS_732.31"; "SCPS_550.42"; "SLPS_251.43";
  "SLKA_251.45"; "SCES_524.69"; "SLES_524.69"; "SLUS_205.63"; "SCAJ_200.04"; "SLPS_251.58"; "SLPS_732.32";
  "SCES_524.68"; "SLES_524.68"; "SLUS_205.64"; "SLKA_251.74"; "SLPS_732.33"; "SCAJ_200.24"; "SLPS_252.02";
  "SLUS_212.58"; "SLUS_291.99"; "SLPS_256.51"; "SLPS_732.59"; "SLPS_257.55"; "SLPS_256.55"; "SLPS_732.66";
  "SLUS_214.88"; "SLPS_256.56"; "SLPS_732.67"; "SLUS_214.89"; "SLPS_256.52"; "SLPS_257.56"; "SLUS_214.80";
  "SLPS_255.27"; "SLPM_685.21"]%string.
Definition titles_XEBP_100_09 : list bytes := map bs [
  "SLUS_211.68"; "SCES_537.55"; "SLES_537.55"; "SLKA_253.28"; "SCES_521.18"; "SLES_521.18"; "SLPM_654.44";
  "SLUS_207.33"; "SLKA_250.82"; "SLPM_663.25"; "SLPM_654.06"]%string.
Definition titles_XEBP_100_10 : list bytes := map bs [
  "SCES_531.94"; "SLES_531.94"; "SLUS_210.83"; "SLPS_204.23"; "SCES_542.21"; "SLES_542.21"; "SLPM_665.72";
  "SLUS_214.09"]%string.
Definition titles_XEBP_100_11 : list bytes := map bs [
  "SCES_515.89"; "SLES_515.89"; "SLUS_207.65"; "SCES_533.19"; "SLES_533.19"; "SLUS_209.84"]%string.
Definition titles_XEBP_100_12 : list bytes := map bs [
  "SLKA_252.65"; "SLPM_658.80"; "SLUS_209.64"; "SCES_530.38"; "SLES_530.38"; "SCES_541.86"; "SLES_541.86";
  "SLUS_213.61"; "SLPM_742.68"; "SLPM_661.60"; "SLPM_742.42"]%string.
Definition titles_XEBP_100_13 : list bytes := map bs [
  "SCES_537.69"; "SLES_537.69"; "SLUS_212.45"; "SCES_529.13"; "SLES_529.13"; "SLUS_209.79"; "SLPM_742.13";
  "SLPM_656.00"; "SLPM_655.99"]%string.
Definition titles_XEBP_100_14 : list bytes := map bs [
  "SCES_532.00"; "SLES_532.00"; "SLUS_212.27"; "SLPS_255.60"; "SLUS_214.41"; "SCES_541.64"; "SLES_541.64";
  "SLPS_256.90"]%string.
Definition titles_XEBP_100_15 : list bytes := map bs [
  "SCES_512.33"; "SLES_512.33"; "SLPS_251.74"; "SLUS_205.91"; "SCES_518.39"; "SLES_518.39"; "SLPS_253.30";
  "SLUS_207.79"; "SLPM_685.13"; "SCES_527.30"; "SLES_527.30"; "SLUS_209.98"; "SCES_533.46"; "SLES_533.46";
  "SLUS_211.23"]%string.
Definition titles_XEBP_100_16 : list bytes := map bs [
  "SLPM_622.06"; "SLUS_207.58"; "SLPS_201.06"; "SLPS_201.05"; "SLPM_622.07"; "SLPM_622.08"; "SLUS_207.59";
  "SLPM_624.40"]%string.
Definition titles_XEBP_100_17 : list bytes := map bs [
  "SLUS_204.69"; "SLPS_290.02"; "SLPS_739.01"; "SLPS_290.01"; "SLPS_290.05"; "SCPS_559.01"; "SCAJ_300.01";
  "SCAJ_200.86"; "SLPS_253.68"; "SCAJ_200.87"; "SLPS_253.69"; "SLPS_732.24"; "SLPS_732.25"; "SLPS_253.66";
  "SLPS_253.67"; "SLES_820.34"; "SLES_820.35"; "SLUS_208.92"; "SLUS_211.33"; "SLUS_213.89"; "SLUS_214.17";
  "SCAJ_201.79"; "SLPS_256.40"; "SCAJ_201.80"; "SLPS_256.41"]%string.
Definition titles_XEBP_100_18 : list bytes := map bs [
  "SLES_550.18"; "SLUS_215.69"; "SCKA_200.99"; "SLPM_664.45"; "SLES_553.54"; "SLUS_216.21"; "SLPM_666.89";
  "SLPM_837.70"]%string.
Definition titles_XEBP_100_19 : list bytes := map bs [
  "SCES_543.08"; "SLES_543.08"; "SLPM_660.31"; "SLUS_211.94"; "SLPM_742.44"; "SLES_548.92"; "SLPM_666.63";
  "SLUS_216.31"]%string.
Definition titles_XEBP_100_20 : list bytes := map bs [
  "SCES_534.58"; "SLES_534.58"; "SLUS_209.74"; "SCAJ_200.95"; "SLPM_655.97"; "SLPM_663.72"; "SCES_545.55";
  "SLES_545.55"; "SLUS_211.52"; "SCAJ_201.20"; "SLPM_657.95"; "SLPM_663.73"]%string.
Definition titles_XEBP_100_21 : list bytes := map bs [
  "SLPM_621.54"; "SLPM_652.77"; "SLPM_653.58"; "SLPM_624.27"; "SLPM_657.75"; "SLPM_662.42"; "SLPM_666.09";
  "SLPM_669.30"; "SLPM_550.90"; "SLPM_663.13"; "SLPM_663.14"]%string.
Definition titles_XEBP_100_22 : list bytes := map bs [
  "SCUS_971.04"; "SCES_502.93"; "SLES_502.93"; "SCUS_972.11"; "SLES_518.14"; "SCUS_975.10"; "SCUS_973.69";
  "SCUS_974.05"; "SLES_537.54"; "SCES_537.54"; "SCUS_975.14"; "SLUS_974.05"]%string.
Definition titles_XEBP_100_23 : list bytes := map bs [
  "SCES_529.42"; "SLES_529.42"; "SLUS_210.29"; "SCES_537.17"; "SLES_537.17"; "SLUS_213.55"]%string.
Definition titles_XEBP_100_24 : list bytes := map bs [
  "SCES_517.97"; "SLES_517.97"; "SLUS_207.52"; "SCES_525.81"; "SLES_525.81"; "SLUS_210.00"; "SLUS_210.25";
  "SLUS_207.19"; "SLUS_209.91"; "SCES_518.87"; "SLES_518.87"; "SLUS_207.57"; "SLUS_20754"; "SLUS_20824";
  "SLUS_208.68"; "SLUS_207.50"; "SCES_519.53"; "SCES_519.63"; "SCES_519.64"; "SLES_519.53"; "SLES_519.63";
  "SLES_519.64"; "SCES_523.74"; "SLES_523.74"; "SLPM_655.87"; "SLUS_209.06"; "SCES_517.98"; "SLES_517.98";
  "SLUS_207.56"; "SLES_520.22"]%string.
Definition titles_XEBP_100_25 : list bytes := map bs [
  "SCES_50422"; "SLES_50422"; "SLUS_202.63"; "SLPS_250.79"; "SLUS_202.41"]%string.
Definition titles_XEBP_100_26 : list bytes := map bs [
  "SCES_51154"; "SLES_51154"; "SLUS_205.29"; "SLPS_251.57"; "SLUS_205.30"]%string.
Definition titles_XEBP_100_27 : list bytes := map bs [
  "SLPM_662.04"; "SLUS_212.13"; "SLUS_212.14"; "SCES_529.82"; "SLES_529.82"; "SLUS_211.18"; "SCES_525.84";
  "SCES_525.85"; "SLAJ_250.53"; "SLES_525.84"; "SLES_525.85"; "SLPM_657.19"; "SLUS_210.50"; "SLPM_659.58";
  "SLPM_669.62"; "SLKA_252.06"; "SCES_535.06"; "SCES_535.07"; "SLES-5350"; "SLES_535.07"; "SLPM_661.08";
  "SLUS_212.42"; "SLKA_253.04"; "SLAJ_250.66"; "SLPM_666.52"; "SLPM_550.04"; "SCES_538.86"; "SCES_540.30";
  "SLAJ_250.78"; "SLES_540.30"; "SLPM_663.54"; "SLUS_213.76"; "SLUS_291.80"; "SLPM_667.31"; "SLPM_669.61";
  "SLES_538.86"]%string.
Definition titles_XEBP_100_28 : list bytes := map bs [
  "SCES_542.48"; "SLES_542.48"; "SLPM_666.00"; "SLUS_214.76"; "SLUS_214.77"; "SLUS_214.59"; "SLUS_214.07"]%string.
Definition titles_XEBP_100_29 : list bytes := map bs [
  "SLPM_668.37"; "SLUS_216.38"; "SLUS_216.20"]%string.
Definition titles_XEBP_100_30 : list bytes := map bs [
  "SLUS_217.70"; "SLUS_217.52"]%string.
Definition titles_XEBP_100_31 : list bytes := map bs [
  "SLUS_218.93"; "SLUS_218.92"]%string.
Definition titles_XEBP_100_32 : list bytes := map bs [
  "SCES_513.40"; "SLAJ_250.07"; "SLES_513.40"; "SLPM_652.69"; "SLUS_204.76"; "SLUS_205.38"]%string.
Definition titles_XEBP_100_33 : list bytes := map bs [
  "SCES_513.39"; "SLES_513.39"; "SLPM_652.24"; "SLUS_204.57"; "SLUS_204.53"]%string.
Definition titles_XEBP_100_34 : list bytes := map bs [
  "SCES_520.08"; "SLES_520.08"; "SLPS_252.97"; "SLUS_207.55"; "SLPM_656.66"; "SLUS_207.71"]%string.
Definition titles_XEBP_100_35 : list bytes := map bs [
  "SCES_516.61"; "SCES_516.62"; "SCES_516.63"; "SCES_516.64"; "SCES_516.65"; "SLES_516.61"; "SLES_516.62";
  "SLES_516.63"; "SLES_516.64"; "SLES_516.65"; "SLUS_206.53"; "SLKA_253.39"; "SCES_521.71"; "SCES_521.72";
  "SCES_521.74"; "SCES_521.75"; "SLES_521.71"; "SLES_521.72"; "SLES_521.73"; "SLES_521.74"; "SLES_521.75";
  "SCES_525.91"; "SCES_525.92"; "SCES_525.93"; "SLES_525.91"; "SLES_525.92"; "SLES_525.93"; "SLUS_209.38";
  "SLKA_253.40"; "SLKA_254.17"]%string.
Definition titles_XEBP_100_36 : list bytes := map bs [
  "SCES_533.39"; "SLES_533.39"; "SLUS_211.53"; "SCES_538.60"; "SCES_538.61"; "SCES_538.62"; "SLES_538.60";
  "SLES_538.61"; "SLES_538.62"; "SLUS_212.99"; "SSCES_540.95"; "SCES_540.96"; "SCES_540.97"; "SLES_540.95";
  "SLES_540.96"; "SLES_540.97"; "SLUS_213.98"; "SLUS_208.79"; "SLPM_654.23"; "SLPM_661.72"; "SLKA_252.66";
  "SLPM_668.13"; "SLPM_665.23"; "SLPM_669.71"; "SLUS_212.02"; "SLPM_658.91"; "SLPM_665.60"; "SLUS_215.84";
  "SLPM_665.49"; "SLPM_667.01"]%string.
Definition titles_XEBP_100_37 : list bytes := map bs [
  "SCES_525.51"; "SCES_525.53"; "SCES_525.55"; "SLUS_208.78"; "SLPM_625.35"; "SLUS_210.80"; "SLES_530.02";
  "SLES_530.03"; "SLES_530.04"; "SCES_531.19"; "SCES_531.20"; "SCES_531.21"; "SLAJ_250.57"; "SLES_531.19";
  "SLES_531.20"; "SLES_531.21"; "SLPM_657.81"; "SLPM_742.23"; "SLPM_625.73"; "SLPM_742.31"; "KOEI_000.21";
  "SLPM_657.80"]%string.
Definition titles_XEBP_100_38 : list bytes := map bs [
  "SCES_543.40"; "SLES_543.40"; "SLUS_214.62"; "SLES_546.24"; "SLES_551.08"; "SLUS_217.26"; "SLES_546.24";
  "SLUS_215.85"]%string.
Definition titles_XEBP_100_39 : list bytes := map bs [
  "SCES_548.45"; "SLES_548.45"; "SLUS_216.62"; "SLUS_216.62"; "SLUS_218.03"]%string.
Definition titles_XEBP_100_40 : list bytes := map bs [
  "SCES_504.12"; "SCES_504.62"; "SLES_504.12"; "SLES_504.62"; "SLES_511.14"; "SCES_511.14"; "SCES_519.12";
  "SCES_519.15"; "SLES_519.12"; "SLES_519.15"; "SCES_527.60"; "SCES_528.00"; "SLES_527.60"; "SLES_528.00";
  "SCES_534.44"; "SCES_535.44"; "SCES_535.45"; "SLES_534.44"; "SLES_535.44"; "SLES_535.45"; "SCES_542.03";
  "SCES_542.04"; "SCES_543.60"; "SCES_543.61"; "SCES_543.62"; "SLES_542.03"; "SLES_542.04"; "SLES_543.60";
  "SLES_543.61"; "SLES_543.62"; "SLES_549.13"; "SLUS_216.85"; "SLES_554.06"; "SLUS_218.21"; "SLES_555.87";
  "SLES_556.36"; "SLES_556.56"; "SLES_556.66"; "SLES_556.73"; "SCES_538.99"; "SLES_538.99"]%string.
Definition titles_XEBP_100_41 : list bytes := map bs [
  "SCES_503.60"; "SCUS_971.01"; "SLES_503.60"; "SCES_512.24"; "SCUS_971.97"; "SLES_512.24"; "SLPM_654.12"]%string.
Definition titles_XEBP_100_42 : list bytes := map bs [
  "SCES_527.07"; "SLES_527.07"; "SLPM_654.95"; "SLUS_208.96"; "SLPM_742.48"; "SLKA_252.19"; "SLPM_658.69"]%string.
Definition titles_XEBP_100_43 : list bytes := map bs [
  "SLES_522.86"; "SLES_534.98"; "SCES_543.76"; "SCKA_200.96"; "SLES_543.76"; "SLUS_212.77"; "SCES_534.18";
  "SCES_536.95"; "SLES_534.18"; "SLES_536.95"; "SLUS_212.18"; "SCES_534.94"; "SCES_534.96"; "SLES_534.94";
  "SLES_534.96"; "SLUS_212.52"; "SLUS_212.84"; "SLES_536.34"]%string.
Definition titles_XEBP_100_44 : list bytes := map bs [
  "SCES_541.63"; "SLPS_252.93"; "SLES_541.63"; "SLUS_213.58"; "SLPS_732.12"; "SLPS_253.98"; "SLPS_732.21";
  "SLES_548.78"; "SLUS_215.75"; "SLES_552.37"; "SLUS_217.27"; "SLPS_732.51"; "SLPS_255.89"; "SLPS_257.68";
  "SLUS_218.62"; "SLES_556.05"; "SLPS_258.37"]%string.
Definition titles_XEBP_100_45 : list bytes := map bs [
  "SLES_550.04"; "SCES_527.25"; "SLES_527.25"; "SLUS_210.65"; "SLUS_291.18"; "SLPM_669.60"; "SLPM_657.66";
  "SLPM_660.51"; "SCES_535.57"; "SCES_535.58"; "SCES_535.59"; "SLES_535.57"; "SLES_535.58"; "SLES_535.59";
  "SLPM_662.32"; "SLUS_212.67"; "SLPM_665.62"; "SCES_538.57"; "SLAJ_250.75"; "SLES_538.57"; "SLUS_213.51";
  "SLPM_668.69"; "SCES_543.21"; "SCES_543.22"; "SCES_543.23"; "SCES_543.24"; "SLAJ_250.91"; "SLES_543.21";
  "SLES_543.22"; "SLES_543.23"; "SLES_543.24"; "SLPM_666.17"; "SLUS_214.93"; "SCES_544.02"; "SCES_544.92";
  "SCES_544.93"; "SLES_544.02"; "SLES_544.92"; "SLES_544.93"; "SLUS_214.94"; "SLPM_669.32"; "SLUS_216.58";
  "SLES_550.02"; "SLPM_551.51"]%string.
Definition titles_XEBP_100_46 : list bytes := map bs [
  "SLUS_213.95"; "SLES_541.88"; "SLES_548.40"; "SLUS_215.88"]%string.
Definition titles_XEBP_100_47 : list bytes := map bs [
  "PAPX_902.34"; "SCAJ_200.79"; "SCKA_200.25"; "SLPS_253.60"; "SLUS_210.08"; "SLPS_732.10"; "SLPS_732.40";
  "SLPS_254.67"; "SCAJ_201.35"; "SCKA_200.51"; "SLPS_732.41"; "SLUS_212.30"]%string.
Definition titles_XEBP_100_48 : list bytes := map bs [
  "SLES_526.74"; "SCES_525.63"; "SLES_525.63"; "SLES_525.59"; "SCES_525.59"; "SLES_525.62"; "SCES_525.62";
  "SLES_525.61"; "SCES_525.61"; "SLES_525.60"; "SCES_525.60"]%string.
Definition titles_XEBP_100_49 : list bytes := map bs [
  "SLPM_654.13"; "SCES_519.14"; "SLES_519.14"; "SLUS_206.94"; "SCES_519.13"; "SLES_519.13"; "SLPM_654.11";
  "SLUS_207.10"]%string.
Definition titles_XEBP_100_50 : list bytes := map bs [
  "SLPM_669.65"; "SLPM_669.64"]%string.
Definition titles_XEBP_100_51 : list bytes := map bs [
  "SLES_820.42"; "SLES_820.44"; "SLES_820.46"; "SLES_820.48"; "SLES_820.50"; "SLES_820.52"; "SLES_820.43";
  "SLES_820.45"; "SLES_820.47"; "SLES_820.49"; "SLES_820.51"; "SLES_820.53"; "SLKA_253.53"; "SLKA_253.54";
  "SLUS_212.43"; "SLPM_662.23"; "SLPM_662.24"; "SLPM_662.20"; "SLPM_662.21"; "SLPM_662.22"; "SLUS_213.59";
  "SLUS_213.60"; "SLPM_661.17"; "SLPM_661.18"; "SLPM_661.19"; "SLPM_552.37"; "SLPM_667.95"; "SLPM_667.99";
  "SLPM_742.58"]%string.
Definition titles_XEBP_100_52 : list bytes := map bs [
  "SLPM_658.70"; "SLPM_662.58"; "SLPM_658.71"; "SLPM_660.62"; "SLPM_660.63"; "SLPM_663.29"; "SLPM_665.92";
  "SLPM_665.93"; "SLPM_667.04"; "SLPM_667.05"]%string.
Definition titles_XEBP_100_53 : list bytes := map bs [
  "SLUS_213.48"; "SLKA_253.42"; "SLPM_661.68"; "SLPM_742.53"; "SLPM_742.34"; "SLES_552.42"; "SLPM_666.02";
  "SLKA_252.80"; "SLKA_252.81"; "SLPM_743.01"]%string.
Definition titles_XEBP_100_54 : list bytes := map bs [
  "SCAJ_250.45"; "SLAJ_250.45"; "SLPM_655.31"; "SLKA_252.07"; "SLPM_662.08"; "SLAJ_250.34"; "SLPM_655.15";
  "SLUS_219.27"; "SLAJ_350.01"; "SLKA_350.03"; "SLPM_670.03"; "SLAJ_350.03"]%string.
Definition titles_XEBP_100_55 : list bytes := map bs [
  "SLPS_734.18"; "SCES_506.77"; "SCES_508.22"; "SLES_506.77"; "SLES_508.22"; "SLPS_250.41"; "SLUS_203.47";
  "SLES_820.30"; "SLES_820.31"; "SLUS_210.41"; "SLUS_210.44"; "SLPS_253.17"; "SLPS_732.14"; "SLPM_602.14";
  "SLPM_602.26"; "SLPM_732.14"]%string.
Definition titles_XEBP_100_56 : list bytes := map bs [
  "SCES_500.54"; "SLES_500.54"; "SCES_500.71"; "SLES_500.71"; "SLPS_200.68"; "SLUS_200.63"; "SLPM_621.89";
  "SCES_500.55"; "SCES_500.61"; "SLES_500.55"; "SLES_500.61"; "SLUS_200.65"]%string.
Definition titles_XEBP_100_57 : list bytes := map bs [
  "SLUS_210.39"; "SLPM_664.98"; "SCES_526.37"; "SLES_526.37"; "SCES_526.38"; "SLES_526.38"; "SCES_526.39";
  "SLES_526.39"; "SCES_530.87"; "SLES_530.87"; "SLUS_211.82"; "SLPM_668.81"; "SLPM_550.46"; "SLUS_291.78";
  "SCES_530.88"; "SLES_530.88"; "SCES_530.89"; "SLES_530.89"]%string.
Definition titles_XEBP_100_58 : list bytes := map bs [
  "SCES_524.58"; "SLES_524.58"; "SCES_544.54"; "SLES_544.54"]%string.
Definition titles_XEBP_100_59 : list bytes := map bs [
  "SLUS_206.66"; "SLUS_213.97"]%string.
Definition titles_XEBP_100_60 : list bytes := map bs [
  "SLPS_202.51"; "SLPS_202.50"; "SCAJ_100.01"; "SLPS_731.03"; "SLPS_731.03"; "SLPS_256.08"; "SLPS_256.07";
  "SLPS_732.54"]%string.
Definition titles_XEBP_100_61 : list bytes := map bs [
  "SCES_500.79"; "SLES_500.79"; "SLPS_250.07"; "SLUS_200.14"; "SCCS_400.11"; "SCES_509.05"; "SCPS_550.24";
  "SLES_509.05"; "SLPS_250.40"; "SLUS_202.49"; "SLPS_734.11"; "SCES_513.99"; "SCPS_550.14"; "SLES_513.99";
  "SLPS_251.12"; "SLUS_204.35"; "SCAJ_200.11"; "SLPS_251.69"; "SLPS_734.20"; "SLPS_734.17"; "SLUS_206.44";
  "SLPS_251.69"; "SLKA_250.41"; "SLES_522.03"]%string.
Definition titles_XEBP_100_62 : list bytes := map bs [
  "SLUS_207.18"; "SLES_519.50"; "SLPM_654.31"; "SLKA_251.22"; "SLUS_209.17"; "SLES_529.98"; "SLPM_657.58";
  "SLKA_252.33"; "SLES_533.50"; "SLPM_660.74"]%string.
Definition titles_XEBP_100_63 : list bytes := map bs [
  "SLUS_201.52"; "SLPS_250.52"; "SCES_504.10"; "SLUS_208.51"; "SLPS_254.18"; "SCKA_200.42"; "SLUS_213.46";
  "SLPS_256.29"; "SCKA_200.70"]%string.
Definition titles_XEBP_100_64 : list bytes := map bs [
  "SCUS_971.40"; "SCUS_972.01"; "SCUS_974.16"]%string.
Definition titles_XEBP_100_65 : list bytes := map bs [
  "SLUS_204.59"; "SCES_514.28"; "SLPM_652.00"; "SLKA_250.21"; "SLUS_208.10"; "SLES_522.38"; "SLPM_654.47";
  "SLKA_251.35"]%string.
Definition titles_XEBP_100_66 : list bytes := map bs [
  "SLUS_211.65"; "SCAJ_201.08"; "SCPS_150.58"; "SCUS_972.31"; "SCAJ_200.19"; "SCAJ_200.38"; "SCES_519.10";
  "SLES_519.10"; "SCCS_400.07"; "PAPX_902.30"; "PCPX_963.30"]%string.
Definition titles_XEBP_100_67 : list bytes := map bs [
  "SCES_541.53"; "SLES_541.53"; "SLPM_664.42"; "SCES_541.51"; "SLES_541.51"]%string.
Definition titles_XEBP_100_68 : list bytes := map bs [
  "SLES_544.60"; "SLES_545.69"]%string.
Definition titles_XEBP_100_69 : list bytes := map bs [
  "SLPS_204.41"; "SLPS_204.66"]%string.
Definition titles_XEBP_100_70 : list bytes := map bs [
  "SCES_533.98"; "SLES_533.98"; "SCES_544.61"; "SLES_544.61"]%string.
Definition titles_XEBP_100_71 : list bytes := map bs [
  "SLPM_625.25"; "SLKA_150.45"; "SLPM_626.38"]%string.
Definition titles_XEBP_100_72 : list bytes := map bs [
  "SLPM_625.25"; "SLKA_150.45"; "SLPM_626.38"]%string.
Definition titles_XEBP_100_73 : list bytes := map bs [
  "SLPM_651.76"; "SLPM_652.06"]%string.
Definition titles_XEBP_100_74 : list bytes := map bs [
  "SLUS_206.36"; "SLES_525.31"; "SLED_524.88"; "SLES_524.39"; "SLES_516.93"; "SLUS_211.89"; "SLES_535.28";
  "SLES_535.26"; "SLES_535.27"; "SLED_536.27"; "SLES_536.26"]%string.
Definition titles_XEBP_100_75 : list bytes := map bs [
  "SLUS_205.65"; "SLES_523.73"; "SLES_523.25"; "SLUS_209.73"; "SLES_530.39"]%string.
Definition titles_XEBP_000_01 : list bytes := map bs [
  "SLES_820.36"; "SLPS_253.38"; "SCAJ_200.76"; "SLUS_209.86"; "SLKA_252.01"; "SLPS_732.02"; "SLPS_253.39";
  "SLES_820.37"; "SLUS_210.79"; "SLKA_252.02"; "SCAJ_200.77"; "SLPS_732.03"; "SLUS_212.00"; "SCKA_200.47";
  "SLPS_254.08"; "SLES_538.19"]%string.
Definition titles_XEBP_000_02 : list bytes := map bs [
  "SLPM_650.86"; "SLPM_650.87"]%string.
Definition titles_XEBP_000_03 : list bytes := map bs [
  "SLPS_200.84"; "SLPS_200.85"]%string.
Definition titles_XEBP_000_04 : list bytes := map bs [
  "SLPM_552.21"; "SLPM_552.22"]%string.
Definition titles_XEBP_000_05 : list bytes := map bs [
  "SCPS_110.19"; "SCPS_110.20"]%string.
Definition titles_XEBP_000_06 : list bytes := map bs [
  "SLES_820.21"; "SLES_820.20"; "SLUS_206.97"; "SLUS_208.54"; "SLES_820.21"; "SLPM_655.06"; "SLPM_655.07";
  "SLPM_657.42"; "SLPM_657.43"; "SLPM_655.04"; "SLPM_655.05"]%string.
Definition titles_XEBP_000_07 : list bytes := map bs [
  "SLES_820.11"; "SLPM_652.32"; "SCCS_400.02"; "SLUS_204.84"; "SCCS_400.03"; "SLUS_206.27"; "SLES_820.12";
  "SLPM_652.33"]%string.
Definition titles_XEBP_000_08 : list bytes := map bs [
  "SLPS_201.40"; "SLPS_201.41"]%string.
Definition titles_XEBP_000_09 : list bytes := map bs [
  "SLPM_650.40"; "SLPM_650.41"; "SLPM_650.42"; "SLPM_650.43"]%string.
Definition titles_XEBP_000_10 : list bytes := map bs [
  "SCAJ_201.41"; "SLPM_659.76"; "SLPM_859.76"; "SLUS_213.34"; "SLUS_213.45"]%string.
Definition titles_XEBP_000_11 : list bytes := map bs [
  "SLPM_650.02"; "SLPM_650.03"]%string.
Definition titles_XEBP_000_12 : list bytes := map bs [
  "SLPM_666.02"; "SLKA_252.80"; "SLKA_252.81"; "SLPM_743.01"]%string.
Definition titles_XEBP_000_13 : list bytes := map bs [
  "SLES_820.38"; "SLES_820.39"; "SLUS_211.80"; "SLUS_213.62"; "SCKA_200.86"; "SCKA_200.87"; "SLPM_662.75";
  "SLPM_662.76"; "SLPM_742.51"; "SLPM_742.32"]%string.
Definition titles_XEBP_000_14 : list bytes := map bs [
  "SLAJ_251.04"; "SLAJ_251.05"; "SLPM_550.82"; "SLPM_742.86"]%string.
Definition titles_XEBP_000_15 : list bytes := map bs [
  "SLUS_208.06"; "SLUS_208.07"]%string.
Definition titles_XEBP_000_16 : list bytes := map bs [
  "SCPS_550.19"; "SLES_820.28"; "SLES_820.29"; "SLUS_204.88"; "SLUS_208.91"; "SLPM_664.78"; "SLPM_664.79";
  "SCAJ_200.70"; "SLPM_654.38"; "SLPM_654.39"; "SLPM_652.09"]%string.
Definition titles_XEBP_000_17 : list bytes := map bs [
  "SLPS_200.18"; "SLPS_200.19"]%string.
Definition titles_XEBP_000_18 : list bytes := map bs [
  "SLUS_208.37"; "SLUS_209.14"]%string.
Definition titles_XEBP_000_20 : list bytes := map bs [
  "SLPM_669.24"; "SLPM_669.25"; "SLPM_669.22"; "SLPM_669.23"; "SLPM_551.71"; "SLPM_551.72"]%string.
Definition titles_XEBP_000_21 : list bytes := map bs [
  "SLPM_620.49"; "SLPM_620.50"]%string.
Definition titles_XEBP_000_22 : list bytes := map bs [
  "SLPM_667.79"; "SLPM_667.80"]%string.
Definition titles_XEBP_000_23 : list bytes := map bs [
  "SLPM_551.18"; "SLPM_551.19"]%string.

Definition allMemoryCardGroups : list MemoryCardGroup := [
  {| groupId := bs "XEBP_100.01"; titleIds := titles_XEBP_100_01 |};
  {| groupId := bs "XEBP_100.02"; titleIds := titles_XEBP_100_02 |};
  {| groupId := bs "XEBP_100.03"; titleIds := titles_XEBP_100_03 |};
  {| groupId := bs "XEBP_100.04"; titleIds := titles_XEBP_100_04 |};
  {| groupId := bs "XEBP_100.05"; titleIds := titles_XEBP_100_05 |};
  {| groupId := bs "XEBP_100.06"; titleIds := titles_XEBP_100_06 |};
  {| groupId := bs "XEBP_100.07"; titleIds := titles_XEBP_100_07 |};
  {| groupId := bs "XEBP_100.08"; titleIds := titles_XEBP_100_08 |};
  {| groupId := bs "XEBP_100.09"; titleIds := titles_XEBP_100_09 |};
  {| groupId := bs "XEBP_100.10"; titleIds := titles_XEBP_100_10 |};
  {| groupId := bs "XEBP_100.11"; titleIds := titles_XEBP_100_11 |};
  {| groupId := bs "XEBP_100.12"; titleIds := titles_XEBP_100_12 |};
  {| groupId := bs "XEBP_100.13"; titleIds := titles_XEBP_100_13 |};
  {| groupId := bs "XEBP_100.14"; titleIds := titles_XEBP_100_14 |};
  {| groupId := bs "XEBP_100.15"; titleIds := titles_XEBP_100_15 |};
  {| groupId := bs "XEBP_100.16"; titleIds := titles_XEBP_100_16 |};
  {| groupId := bs "XEBP_100.17"; titleIds := titles_XEBP_100_17 |};
  {| groupId := bs "XEBP_100.18"; titleIds := titles_XEBP_100_18 |};
  {| groupId := bs "XEBP_100.19"; titleIds := titles_XEBP_100_19 |};
  {| groupId := bs "XEBP_100.20"; titleIds := titles_XEBP_100_20 |};
  {| groupId := bs "XEBP_100.21"; titleIds := titles_XEBP_100_21 |};
  {| groupId := bs "XEBP_100.22"; titleIds := titles_XEBP_100_22 |};
  {| groupId := bs "XEBP_100.23"; titleIds := titles_XEBP_100_23 |};
  {| groupId := bs "XEBP_100.24"; titleIds := titles_XEBP_100_24 |};
  {| groupId := bs "XEBP_100.25"; titleIds := titles_XEBP_100_25 |};
  {| groupId := bs "XEBP_100.26"; titleIds := titles_XEBP_100_26 |};
  {| groupId := bs "XEBP_100.27"; titleIds := titles_XEBP_100_27 |};
  {| groupId := bs "XEBP_100.28"; titleIds := titles_XEBP_100_28 |};
  {| groupId := bs "XEBP_100.29"; titleIds := titles_XEBP_100_29 |};
  {| groupId := bs "XEBP_100.30"; titleIds := titles_XEBP_100_30 |};
  {| groupId := bs "XEBP_100.31"; titleIds := titles_XEBP_100_31 |};
  {| groupId := bs "XEBP_100.32"; titleIds := titles_XEBP_100_32 |};
  {| groupId := bs "XEBP_100.33"; titleIds := titles_XEBP_100_33 |};
  {| groupId := bs "XEBP_100.34"; titleIds := titles_XEBP_100_34 |};
  {| groupId := bs "XEBP_100.35"; titleIds := titles_XEBP_100_35 |};
  {| groupId := bs "XEBP_100.36"; titleIds := titles_XEBP_100_36 |};
  {| groupId := bs "XEBP_100.37"; titleIds := titles_XEBP_100_37 |};
  {| groupId := bs "XEBP_100.38"; titleIds := titles_XEBP_100_38 |};
  {| groupId := bs "XEBP_100.39"; titleIds := titles_XEBP_100_39 |};
  {| groupId := bs "XEBP_100.40"; titleIds := titles_XEBP_100_40 |};
  {| groupId := bs "XEBP_100.41"; titleIds := titles_XEBP_100_41 |};
  {| groupId := bs "XEBP_100.42"; titleIds := titles_XEBP_100_42 |};
  {| groupId := bs "XEBP_100.43"; titleIds := titles_XEBP_100_43 |};
  {| groupId := bs "XEBP_100.44"; titleIds := titles_XEBP_100_44 |};
  {| groupId := bs "XEBP_100.45"; titleIds := titles_XEBP_100_45 |};
  {| groupId := bs "XEBP_100.46"; titleIds := titles_XEBP_100_46 |};
  {| groupId := bs "XEBP_100.47"; titleIds := titles_XEBP_100_47 |};
  {| groupId := bs "XEBP_100.48"; titleIds := titles_XEBP_100_48 |};
  {| groupId := bs "XEBP_100.49"; titleIds := titles_XEBP_100_49 |};
  {| groupId := bs "XEBP_100.50"; titleIds := titles_XEBP_100_50 |};
  {| groupId := bs "XEBP_100.51"; titleIds := titles_XEBP_100_51 |};
  {| groupId := bs "XEBP_100.52"; titleIds := titles_XEBP_100_52 |};
  {| groupId := bs "XEBP_100.53"; titleIds := titles_XEBP_100_53 |};
  {| groupId := bs "XEBP_100.54"; titleIds := titles_XEBP_100_54 |};
  {| groupId := bs "XEBP_100.55"; titleIds := titles_XEBP_100_55 |};
  {| groupId := bs "XEBP_100.56"; titleIds := titles_XEBP_100_56 |};
  {| groupId := bs "XEBP_100.57"; titleIds := titles_XEBP_100_57 |};
  {| groupId := bs "XEBP_100.58"; titleIds := titles_XEBP_100_58 |};
  {| groupId := bs "XEBP_100.59"; titleIds := titles_XEBP_100_59 |};
  {| groupId := bs "XEBP_100.60"; titleIds := titles_XEBP_100_60 |};
  {| groupId := bs "XEBP_100.61"; titleIds := titles_XEBP_100_61 |};
  {| groupId := bs "XEBP_100.62"; titleIds := titles_XEBP_100_62 |};
  {| groupId := bs "XEBP_100.63"; titleIds := titles_XEBP_100_63 |};
  {| groupId := bs "XEBP_100.64"; titleIds := titles_XEBP_100_64 |};
  {| groupId := bs "XEBP_100.65"; titleIds := titles_XEBP_100_65 |};
  {| groupId := bs "XEBP_100.66"; titleIds := titles_XEBP_100_66 |};
  {| groupId := bs "XEBP_100.67"; titleIds := titles_XEBP_100_67 |};
  {| groupId := bs "XEBP_100.68"; titleIds := titles_XEBP_100_68 |};
  {| groupId := bs "XEBP_100.69"; titleIds := titles_XEBP_100_69 |};
  {| groupId := bs "XEBP_100.70"; titleIds := titles_XEBP_100_70 |};
  {| groupId := bs "XEBP_100.71"; titleIds := titles_XEBP_100_71 |};
  {| groupId := bs "XEBP_100.72"; titleIds := titles_XEBP_100_72 |};
  {| groupId := bs "XEBP_100.73"; titleIds := titles_XEBP_100_73 |};
  {| groupId := bs "XEBP_100.74"; titleIds := titles_XEBP_100_74 |};
  {| groupId := bs "XEBP_100.75"; titleIds := titles_XEBP_100_75 |};
  {| groupId := bs "XEBP_000.01"; titleIds := titles_XEBP_000_01 |};
  {| groupId := bs "XEBP_000.02"; titleIds := titles_XEBP_000_02 |};
  {| groupId := bs "XEBP_000.03"; titleIds := titles_XEBP_000_03 |};
  {| groupId := bs "XEBP_000.04"; titleIds := titles_XEBP_000_04 |};
  {| groupId := bs "XEBP_000.05"; titleIds := titles_XEBP_000_05 |};
  {| groupId := bs "XEBP_000.06"; titleIds := titles_XEBP_000_06 |};
  {| groupId := bs "XEBP_000.07"; titleIds := titles_XEBP_000_07 |};
  {| groupId := bs "XEBP_000.08"; titleIds := titles_XEBP_000_08 |};
  {| groupId := bs "XEBP_000.09"; titleIds := titles_XEBP_000_09 |};
  {| groupId := bs "XEBP_000.10"; titleIds := titles_XEBP_000_10 |};
  {| groupId := bs "XEBP_000.11"; titleIds := titles_XEBP_000_11 |};
  {| groupId := bs "XEBP_000.12"; titleIds := titles_XEBP_000_12 |};
  {| groupId := bs "XEBP_000.13"; titleIds := titles_XEBP_000_13 |};
  {| groupId := bs "XEBP_000.14"; titleIds := titles_XEBP_000_14 |};
  {| groupId := bs "XEBP_000.15"; titleIds := titles_XEBP_000_15 |};
  {| groupId := bs "XEBP_000.16"; titleIds := titles_XEBP_000_16 |};
  {| groupId := bs "XEBP_000.17"; titleIds := titles_XEBP_000_17 |};
  {| groupId := bs "XEBP_000.18"; titleIds := titles_XEBP_000_18 |};
  {| groupId := bs "XEBP_000.20"; titleIds := titles_XEBP_000_20 |};
  {| groupId := bs "XEBP_000.21"; titleIds := titles_XEBP_000_21 |};
  {| groupId := bs "XEBP_000.22"; titleIds := titles_XEBP_000_22 |};
  {| groupId := bs "XEBP_000.23"; titleIds := titles_XEBP_000_23 |}].

(** ** The search *)

(** [None] is a null pointer; a title of no group is its own *)
Fixpoint search_groups (groups : list MemoryCardGroup) (titleId : bytes) : bytes :=
  match groups with
  | [] => titleId
  | currentGroup :: groups => if existsb (streq titleId) (titleIds currentGroup) then groupId currentGroup else search_groups groups titleId
  end.
Definition getGroupIdForTitleId (titleId : option bytes) : option bytes := search_groups allMemoryCardGroups <$> titleId.

(** the name [guiGameShowVMCConfig] proposes for the card in a slot *)
Definition vmc_proposed (startup : bytes) (slot : Z) : bytes :=
  bufcpy 32 (default (bs "(null)") (getGroupIdForTitleId (Some startup)) ++ bs "_" ++ fmt_d slot).

(** ** Lemmas *)

Lemma search_first groups t : (search_groups groups t = t /\ forall g, g ∈ groups -> t ∉ titleIds g) \/
  (exists g, g ∈ groups /\ t ∈ titleIds g /\ search_groups groups t = groupId g).
Proof.
  induction groups as [|g groups IH]; [left; split; [done|]; intros g Hg; by apply elem_of_nil in Hg|]. cbn [search_groups]. destruct (existsb (streq t) (titleIds g)) eqn:E.
  - right. exists g. apply existsb_exists in E as (x & Hx & E). unfold streq in E. b2p. subst x. split; [by left|]. split; [by apply list_elem_of_In|done].
  - destruct IH as [[H1 H2]|(g' & H1 & H2 & H3)].
    + left. split; [done|]. intros g' [->|Hg]%elem_of_cons; [|by apply H2]. intros Ht. assert (existsb (streq t) (titleIds g) = true); [|congruence]. apply existsb_exists. exists t. split; [by apply list_elem_of_In|]. unfold streq. by apply bool_decide_eq_true_2.
    + right. exists g'. split; [by right|done].
Qed.

(** groups all of whose titles stand in an earlier one *)
Definition shadowed : list bytes := map bs ["XEBP_100.72"; "XEBP_000.12"]%string.

(** the table itself, by evaluation: a title of a group is of that group unless it is shadowed,
    and the names are as long as a startup name *)
Lemma table_checked : forallb (fun g => (bool_decide (groupId g ∈ shadowed) || forallb (fun t => streq (search_groups allMemoryCardGroups t) (groupId g)) (titleIds g)) && (length (groupId g) =? 11)%nat) allMemoryCardGroups = true.
Proof. vm_compute. reflexivity. Qed.

Lemma group_checked g : g ∈ allMemoryCardGroups -> length (groupId g) = 11%nat /\ (groupId g ∉ shadowed -> forall t, t ∈ titleIds g -> search_groups allMemoryCardGroups t = groupId g).
Proof.
  intros Hg. pose proof (proj1 (forallb_forall _ _) table_checked g (proj1 (list_elem_of_In _ _) Hg)) as H. apply andb_true_iff in H as [H1 H2]. apply Nat.eqb_eq in H2. split; [done|]. intros Hs t Ht. apply orb_true_iff in H1 as [H1|H1]; [by apply bool_decide_eq_true_1 in H1|].
  pose proof (proj1 (forallb_forall _ _) H1 t (proj1 (list_elem_of_In _ _) Ht)) as E. unfold streq in E. by apply bool_decide_eq_true_1 in E.
Qed.

(** ** Properties *)

(** C36. Every disc of a group is proposed the card of the group, whole in its buffer, so that
    they share it; a game of no group is proposed a card of its own. (Two groups are left out:
    all their titles are in an earlier one.) *)
Theorem group_shares_card slot startup : 0 <= slot < 10 ->
  (forall g, g ∈ allMemoryCardGroups -> groupId g ∉ shadowed -> startup ∈ titleIds g -> vmc_proposed startup slot = groupId g ++ bs "_" ++ fmt_d slot) /\
  ((forall g, g ∈ allMemoryCardGroups -> startup ∉ titleIds g) -> (length startup <= 29)%nat -> vmc_proposed startup slot = startup ++ bs "_" ++ fmt_d slot).
Proof.
  intros Hs. assert (Hd : (length (fmt_d slot) <= 1)%nat) by (unfold fmt_d; destruct (Z.ltb_spec slot 0); [lia|]; by apply dec_u_length). unfold vmc_proposed, getGroupIdForTitleId. cbn [fmap option_fmap option_map default from_option id]. split.
  - intros g Hg Hn Ht. destruct (group_checked g Hg) as [Hl H]. rewrite (H Hn startup Ht). apply bufcpy_id. rewrite !length_app. change (length (bs "_")) with 1%nat. lia.
  - intros Hno Hl. destruct (search_first allMemoryCardGroups startup) as [[-> _]|(g & Hg & Ht & _)]; [|by destruct (Hno g Hg)]. apply bufcpy_id. rewrite !length_app. change (length (bs "_")) with 1%nat. lia.
Qed.

(** the two discs of one game *)
Lemma group_shares_card_witness : vmc_proposed (bs "SLES_820.11") 1 = bs "XEBP_000.07_1" /\ vmc_proposed (bs "SLES_820.12") 1 = bs "XEBP_000.07_1".
Proof.
  assert (G : exists g, g ∈ allMemoryCardGroups /\ groupId g = bs "XEBP_000.07" /\ titleIds g = titles_XEBP_000_07).
  { exists {| groupId := bs "XEBP_000.07"; titleIds := titles_XEBP_000_07 |}. split; [|done]. apply (list_elem_of_lookup_2 _ 81). vm_compute. reflexivity. }
  destruct G as (g & Hg & Ei & Et).
  split.
  - rewrite (proj1 (group_shares_card 1 (bs "SLES_820.11") ltac:(lia)) g Hg); [rewrite Ei; reflexivity|rewrite Ei; apply (bool_decide_eq_true_1 _); vm_compute; reflexivity|rewrite Et; apply (bool_decide_eq_true_1 _); vm_compute; reflexivity].
  - rewrite (proj1 (group_shares_card 1 (bs "SLES_820.12") ltac:(lia)) g Hg); [rewrite Ei; reflexivity|rewrite Ei; apply (bool_decide_eq_true_1 _); vm_compute; reflexivity|rewrite Et; apply (bool_decide_eq_true_1 _); vm_compute; reflexivity].
Defined.

(** ** What the table does not hold *)

(** the shape of a startup name: four letters, a low line, three digits, a dot, two digits *)
Definition startup_shape (t : bytes) : bool :=
  match t with
  | [a; b; c; d; us; x; y; z; dot; p; q] => forallb isupper [a; b; c; d] && (us =? cUSCORE) && forallb isdigit [x; y; z] && (dot =? cDOT) && forallb isdigit [p; q]
  | _ => false
  end.
(** entries no startup name equals, so that these discs keep a card of their own *)
Example unreachable_titles : base.filter (fun t => startup_shape t = false) (concat (map titleIds allMemoryCardGroups)) =
  map bs ["SLUS_20754"; "SLUS_20824"; "SCES_50422"; "SLES_50422"; "SCES_51154"; "SLES_51154"; "SLES-5350"; "SSCES_540.95"]%string.
Proof. vm_compute. reflexivity. Qed.

(** the groups no title is given *)
Example unreachable_groups :
  let given := map (search_groups allMemoryCardGroups) (concat (map titleIds allMemoryCardGroups)) in
  base.filter (fun i => existsb (streq i) given = false) (map groupId allMemoryCardGroups) = shadowed.
Proof. vm_compute. reflexivity. Qed.
