(* ===== verification/CdStream.v ===== *)
(** * CdStream: disc streaming in modules/iopcore/cdvdman/streaming.c

    The stream is a ring of banks in a buffer on the IOP. The reading thread of
    cdvdman.c fills it bank by bank, each bank's callback starting the next one, while
    the game takes sectors out. The sections with interrupts suspended are the atomic
    steps of a machine that interleaves the reading thread, the retry alarm and the
    game's call. *)
From S2P Require Import Prelude CLib.

(** ** Data (modules/iopcore/cdvdman/internal.h) *)

Record SteamingData := Streaming {
  StBufmax : Z;
  StBankmax : Z;
  StBanksize : Z;
  StWritePtr : Z;
  StReadPtr : Z;
  StStreamed : Z;
  StStat : Z;
  StIsReading : Z;
  Stlsn : Z;
}.

Definition with_ring (d : SteamingData) (wr rd streamed reading : Z) : SteamingData :=
  Streaming (StBufmax d) (StBankmax d) (StBanksize d) wr rd streamed (StStat d) reading (Stlsn d).
Definition with_reading (d : SteamingData) (r : Z) : SteamingData :=
  with_ring d (StWritePtr d) (StReadPtr d) (StStreamed d) r.
Definition with_stat (d : SteamingData) (stat : Z) : SteamingData :=
  Streaming (StBufmax d) (StBankmax d) (StBanksize d) (StWritePtr d) (StReadPtr d) (StStreamed d) stat (StIsReading d) (Stlsn d).
Definition with_lsn (d : SteamingData) (lsn : Z) : SteamingData :=
  Streaming (StBufmax d) (StBankmax d) (StBanksize d) (StWritePtr d) (StReadPtr d) (StStreamed d) (StStat d) (StIsReading d) lsn.

(** ** Operations on the ring *)

Definition StReset (d : SteamingData) : SteamingData := with_ring d 0 0 0 0.

(** [sceCdStInit]; a zero [bankmax] is the processor's division by zero *)
Definition sceCdStInit (bufmax bankmax : Z) (d : SteamingData) : option SteamingData :=
  if bankmax =? 0 then None
  else
    let bankmax16 := u16 bankmax in
    let banksize := u16 (bufmax / bankmax) in
    Some (StReset (Streaming (u16 (banksize * bankmax16)) bankmax16 banksize 0 0 0 (StStat d) 0 (Stlsn d))).

(** the section of [StmCallback] under suspended interrupts *)
Definition bank_done (d : SteamingData) : SteamingData :=
  if StIsReading d =? 0 then d
  else
    let wr := u16 (StWritePtr d + StBanksize d) in
    with_lsn (with_ring d (if StBufmax d <=? wr then 0 else wr) (StReadPtr d) (u16 (StStreamed d + StBanksize d)) 0)
      (u32 (Stlsn d + StBanksize d)).

(** the sector offset of a free bank in the buffer *)
Definition AllocBank (d : SteamingData) : option Z :=
  if StBanksize d <=? StBufmax d - StStreamed d then Some (StWritePtr d) else None.

(** the lengths of the two copies of a read of at most [maxcount] sectors and the read
    pointer between and after them *)
Definition copies (d : SteamingData) (maxcount : Z) : Z * Z * Z * Z :=
  let wrap r := if StBufmax d <=? u16 r then 0 else u16 r in
  let '(n1, rd1) :=
    if (StWritePtr d <=? StReadPtr d) && (0 <? StStreamed d) then
      let n := u16 (StBufmax d - StReadPtr d) in
      let n := if maxcount <? n then u16 maxcount else n in
      if 0 <? n then (n, wrap (StReadPtr d + n)) else (0, StReadPtr d)
    else (0, StReadPtr d) in
  let '(n2, rd2) :=
    if (n1 <? maxcount) && (rd1 <? StWritePtr d) then
      let n := u16 (StWritePtr d - rd1) in
      let n := if maxcount - n1 <? n then u16 (maxcount - n1) else n in
      if 0 <? n then (n, wrap (rd1 + n)) else (0, rd1)
    else (0, rd1) in
  (n1, rd1, n2, rd2).

Section Stream.
Context {A : Type}.

(** the sectors of the two copies *)
Definition copied (d : SteamingData) (buf : list A) (maxcount : Z) : list A :=
  let '(n1, rd1, n2, _) := copies d maxcount in
  take (Z.to_nat n1) (drop (Z.to_nat (StReadPtr d)) buf) ++ take (Z.to_nat n2) (drop (Z.to_nat rd1) buf).

(** [ReadSectors]: the result, the sectors and the data it leaves *)
Definition ReadSectors (d : SteamingData) (buf : list A) (maxcount : Z) : Z * list A * SteamingData :=
  let '(n1, _, n2, rd2) := copies d maxcount in
  (n1 + n2, copied d buf maxcount, with_ring d (StWritePtr d) rd2 (u16 (u16 (StStreamed d - n1) - n2)) (StIsReading d)).

(** [ReadSectorsEE] up to the start of the transfer: the result and the new read
    pointer; and after it: the data with the sectors released *)
Definition ReadSectorsEE_begin (d : SteamingData) (maxcount : Z) : Z * Z :=
  let '(n1, _, n2, rd2) := copies d maxcount in (n1 + n2, rd2).
Definition ReadSectorsEE_end (d : SteamingData) (result rdptr : Z) : SteamingData :=
  with_ring d (StWritePtr d) rdptr (u16 (StStreamed d - result)) (StIsReading d).

(** ** The machine *)

(** the drive; [sync_flag] is set unless it is idle. A read of the stream goes to a
    sector offset of the buffer, a read of the game elsewhere *)
Inductive drive := Idle | Reading (lsn n ptr : Z) (stream : bool).

(** between the section of [StFillStreamBuffer] and what follows it: a bank was
    allocated and [cdvdman_AsyncRead] comes next, or the buffer was full *)
Inductive fill_pc := F_issue (ptr : Z) | F_full.

(** the reading thread [cdvdman_cdread_Thread]: waiting for the drive, before its second
    look at the callback, and in [StmCallback] after its section *)
Inductive cd_pc := CD_wait | CD_signalled | CD_refill | CD_fill (f : fill_pc).

(** the game's call: in [sceCdSync] (of a stop, or of a start at a sector), before the
    section of [sceCdStStart], before or in a fill, in the loop of [sceCdStRead] with
    the sectors left (waiting for the event, and about to copy), and in the transfer of
    [ReadSectorsEE], set up from the data of that moment *)
Inductive cl_pc :=
| CL_idle
| CL_sync (start : option Z)
| CL_start (lsn : Z)
| CL_refill
| CL_fill (f : fill_pc)
| CL_read (todo mode : Z)
| CL_copy (todo mode : Z)
| CL_dma (todo mode result rdptr : Z) (data_of : SteamingData).

Record machine := Machine {
  m_d : SteamingData;
  m_buf : list A;
  m_drive : drive;
  m_cb : bool;       (** [Stm0Callback] is set *)
  m_alarm : bool;    (** [StmScheduleCb] is pending *)
  m_ev : bool;       (** bit 8 of [intr_ef] *)
  m_cd : cd_pc;
  m_cl : cl_pc;
  m_out : list A;    (** the sectors the game got since the start of the stream *)
  m_from : Z;        (** the sector it started at *)
}.

Definition put_d (m : machine) (d : SteamingData) : machine :=
  Machine d (m_buf m) (m_drive m) (m_cb m) (m_alarm m) (m_ev m) (m_cd m) (m_cl m) (m_out m) (m_from m).
Definition put_drive (m : machine) (dr : drive) : machine :=
  Machine (m_d m) (m_buf m) dr (m_cb m) (m_alarm m) (m_ev m) (m_cd m) (m_cl m) (m_out m) (m_from m).
Definition put_cb (m : machine) (cb : bool) : machine :=
  Machine (m_d m) (m_buf m) (m_drive m) cb (m_alarm m) (m_ev m) (m_cd m) (m_cl m) (m_out m) (m_from m).
Definition put_alarm (m : machine) (al : bool) : machine :=
  Machine (m_d m) (m_buf m) (m_drive m) (m_cb m) al (m_ev m) (m_cd m) (m_cl m) (m_out m) (m_from m).
Definition put_ev (m : machine) (ev : bool) : machine :=
  Machine (m_d m) (m_buf m) (m_drive m) (m_cb m) (m_alarm m) ev (m_cd m) (m_cl m) (m_out m) (m_from m).
Definition put_cd (m : machine) (cd : cd_pc) : machine :=
  Machine (m_d m) (m_buf m) (m_drive m) (m_cb m) (m_alarm m) (m_ev m) cd (m_cl m) (m_out m) (m_from m).
Definition put_cl (m : machine) (cl : cl_pc) : machine :=
  Machine (m_d m) (m_buf m) (m_drive m) (m_cb m) (m_alarm m) (m_ev m) (m_cd m) cl (m_out m) (m_from m).
Definition put_out (m : machine) (from : Z) (out : list A) : machine :=
  Machine (m_d m) (m_buf m) (m_drive m) (m_cb m) (m_alarm m) (m_ev m) (m_cd m) (m_cl m) out from.

(** the section of [StFillStreamBuffer]: nothing to do while a bank is being read,
    else what follows it *)
Definition fill_section (m : machine) : machine * option fill_pc :=
  if negb (StIsReading (m_d m) =? 0) then (m, None)
  else
    let d := with_reading (m_d m) 1 in
    (put_alarm (put_d m d) false, Some (match AllocBank d with Some ptr => F_issue ptr | None => F_full end)).

(** the rest of [StFillStreamBuffer]: did [cdvdman_AsyncRead] fail *)
Definition fill_rest (m : machine) (f : fill_pc) : machine * bool :=
  match f with
  | F_full => (put_d m (with_reading (m_d m) 0), false)
  | F_issue ptr =>
    match m_drive m with
    | Idle => (put_drive m (Reading (Stlsn (m_d m)) (StBanksize (m_d m)) ptr true), false)
    | Reading _ _ _ _ => (put_d m (with_reading (m_d m) 0), true)
    end
  end.

(** [StStartFillStreamBuffer] sets the alarm when the fill failed *)
Definition start_fill_rest (m : machine) (f : fill_pc) : machine :=
  let '(m, failed) := fill_rest m f in if failed : bool then put_alarm m true else m.

(** [StmScheduleCb], in interrupt context *)
Definition StmScheduleCb (m : machine) : machine :=
  let '(m, f) := fill_section (put_alarm m false) in
  match f with None => m | Some f => let '(m, failed) := fill_rest m f in put_alarm m failed end.

(** the sections of [sceCdStStop], [sceCdStStart], [sceCdStPause] and [sceCdStResume] *)
Definition stop_section (m : machine) : machine :=
  put_d (put_cb (put_alarm m false) false) (StReset (with_stat (m_d m) 0)).
Definition start_section (m : machine) (lsn : Z) : machine :=
  put_out (put_cb (put_d m (StReset (with_stat (with_lsn (m_d m) (u32 lsn)) 1))) true) (u32 lsn) [].
Definition pause_section (m : machine) : machine :=
  put_d (put_cb (put_alarm m false) false) (with_reading (m_d m) 0).

(** after a copy of [r] sectors in the loop of [sceCdStRead] *)
Definition next_read (todo mode r : Z) : cl_pc :=
  if (mode =? 0) || (todo - r <=? 0) then CL_refill else CL_read (todo - r) mode.

Inductive label :=
| CdDone | CdCallback | CdFill | CdIssue | Alarm
| Stop | Start (lsn : Z) | Synced | StartNow | Pause | Resume | ClFill | ClIssue
| Read (n mode : Z) | ReadWait | ReadIop | ReadEE | DmaEnd
| GameRead (lsn n : Z).

Definition sectors (disc : Z -> A) (lsn n : Z) : list A := map (fun i => disc (u32 (lsn + Z.of_nat i))) (seq 0 (Z.to_nat n)).

(** one atomic step, [None] when it is not the turn of its thread *)
Definition step (disc : Z -> A) (l : label) (m : machine) : option machine :=
  let d := m_d m in
  let on := negb (StStat d =? 0) in
  match l, m_cd m, m_cl m with
  | CdDone, CD_wait, _ =>
    match m_drive m with
    | Idle => None
    | Reading lsn n ptr stream =>
      let buf := if stream then blit (m_buf m) (Z.to_nat ptr) (sectors disc lsn n) else m_buf m in
      Some (Machine d buf Idle (m_cb m) (m_alarm m) true (if m_cb m then CD_signalled else CD_wait) (m_cl m) (m_out m) (m_from m))
    end
  | CdCallback, CD_signalled, _ =>
    if m_cb m then Some (put_cd (put_d m (bank_done d)) CD_refill) else Some (put_cd m CD_wait)
  | CdFill, CD_refill, _ =>
    let '(m, f) := fill_section m in Some (put_cd m (match f with None => CD_wait | Some f => CD_fill f end))
  | CdIssue, CD_fill f, _ => Some (put_cd (start_fill_rest m f) CD_wait)
  | Alarm, _, _ => if m_alarm m then Some (StmScheduleCb m) else None
  | Stop, _, CL_idle => if on then Some (put_cl (stop_section m) (CL_sync None)) else None
  | Start lsn, _, CL_idle =>
    if on then Some (put_cl (stop_section m) (CL_sync (Some lsn))) else Some (put_cl m (CL_start lsn))
  | Synced, _, CL_sync k =>
    match m_drive m with
    | Idle => Some (put_cl m (match k with None => CL_idle | Some lsn => CL_start lsn end))
    | Reading _ _ _ _ => None
    end
  | StartNow, _, CL_start lsn => Some (put_cl (start_section m lsn) CL_refill)
  | Pause, _, CL_idle => if on then Some (put_cl (pause_section m) (CL_sync None)) else None
  | Resume, _, CL_idle => if on then Some (put_cl (put_cb m true) CL_refill) else None
  | ClFill, _, CL_refill =>
    let '(m, f) := fill_section m in Some (put_cl m (match f with None => CL_idle | Some f => CL_fill f end))
  | ClIssue, _, CL_fill f => Some (put_cl (start_fill_rest m f) CL_idle)
  | Read n mode, _, CL_idle =>
    if on then Some (put_cl (put_ev m true) (if 0 <? n then CL_read n mode else CL_refill)) else None
  | ReadWait, _, CL_read todo mode => if m_ev m then Some (put_cl (put_ev m false) (CL_copy todo mode)) else None
  | ReadIop, _, CL_copy todo mode =>
    let '(r, data, d') := ReadSectors d (m_buf m) todo in
    Some (put_cl (put_out (put_d m d') (m_from m) (m_out m ++ data)) (next_read todo mode r))
  | ReadEE, _, CL_copy todo mode =>
    let '(r, rdptr) := ReadSectorsEE_begin d todo in Some (put_cl m (CL_dma todo mode r rdptr d))
  | DmaEnd, _, CL_dma todo mode r rdptr d0 =>
    Some (put_cl (put_out (put_d m (ReadSectorsEE_end d r rdptr)) (m_from m) (m_out m ++ copied d0 (m_buf m) todo)) (next_read todo mode r))
  | GameRead lsn n, _, CL_idle => match m_drive m with Idle => Some (put_drive m (Reading lsn n 0 false)) | _ => None end
  | _, _, _ => None
  end.

Fixpoint run (disc : Z -> A) (ls : list label) (m : machine) : option machine :=
  match ls with [] => Some m | l :: r => m' ← step disc l m; run disc r m' end.

(** a buffer just initialised *)
Definition initial (m : machine) : Prop :=
  exists bufmax bankmax d, sceCdStInit bufmax bankmax d = Some (m_d m) /\ StStat (m_d m) = 0 /\
    length (m_buf m) = Z.to_nat (StBufmax (m_d m)) /\ m_drive m = Idle /\ m_cb m = false /\ m_alarm m = false /\
    m_cd m = CD_wait /\ m_cl m = CL_idle /\ m_out m = [] /\
    0 < bankmax <= bufmax /\ bufmax < 65536.

(** the steps of the game's call, and those of them that start, stop or fill a stream
    or begin a read of the game's own: the rest take sectors out of the ring *)
Definition game_label (l : label) : bool :=
  match l with CdDone | CdCallback | CdFill | CdIssue | Alarm => false | _ => true end.
Definition control_label (l : label) : bool :=
  match l with Read _ _ | ReadWait | ReadIop | ReadEE | DmaEnd => false | _ => game_label l end.

(** what the code relies on. The reading thread has a higher priority than the game's,
    so the game controls the stream when the thread waits, and the game waits for its
    own reads before it does. Nothing is asked of the steps that take sectors. *)
Definition calm_now (m : machine) : Prop := m_cd m = CD_wait /\ forall lsn n ptr, m_drive m <> Reading lsn n ptr false.
Definition calm (l : label) (m : machine) : Prop := control_label l = true -> calm_now m.

Definition calm_step (disc : Z -> A) (m m' : machine) : Prop := exists l, calm l m /\ step disc l m = Some m'.
End Stream.

(** ** The ring *)

Definition geometry (d : SteamingData) : Prop :=
  0 < StBanksize d /\ StBufmax d = StBanksize d * StBankmax d /\ 0 < StBankmax d /\ StBufmax d < 65536.

(** the place of the [k]-th sector in the ring *)
Definition pos (d : SteamingData) (k : Z) : Z :=
  if StBufmax d <=? StReadPtr d + k then StReadPtr d + k - StBufmax d else StReadPtr d + k.

Lemma pos_cases d k :
  (StReadPtr d + k < StBufmax d /\ pos d k = StReadPtr d + k) \/ (StBufmax d <= StReadPtr d + k /\ pos d k = StReadPtr d + k - StBufmax d).
Proof. unfold pos. destruct (Z.leb_spec (StBufmax d) (StReadPtr d + k)); [right|left]; lia. Qed.

(** linear arithmetic over places in the ring *)
Ltac ring_lia :=
  repeat match goal with
  | |- context [pos ?d ?k] => pose proof (pos_cases d k); generalize dependent (pos d k); intros
  | H : context [pos ?d ?k] |- _ => pose proof (pos_cases d k); generalize dependent (pos d k); intros
  end;
  cbn [StBufmax StBankmax StBanksize StWritePtr StReadPtr StStreamed StStat StIsReading Stlsn with_ring with_lsn with_reading with_stat StReset] in *;
  try lia.

Definition ring (d : SteamingData) : Prop :=
  geometry d /\ 0 <= StReadPtr d < StBufmax d /\ 0 <= StStreamed d <= StBufmax d /\ StWritePtr d = pos d (StStreamed d) /\
  exists k, StWritePtr d = StBanksize d * k.

(** room for one more bank *)
Definition space (d : SteamingData) : Prop := StStreamed d + StBanksize d <= StBufmax d.

Lemma pos_range d k : 0 <= StReadPtr d < StBufmax d -> 0 <= k <= StBufmax d -> 0 <= pos d k < StBufmax d.
Proof. intros. ring_lia. Qed.

Lemma pos_inj d i j : 0 <= StReadPtr d < StBufmax d -> 0 <= i < StBufmax d -> 0 <= j < StBufmax d -> pos d i = pos d j -> i = j.
Proof. intros. ring_lia. Qed.

(** a bank at the write pointer does not wrap *)
Lemma bank_fits d : ring d -> 0 <= StWritePtr d /\ StWritePtr d + StBanksize d <= StBufmax d.
Proof.
  intros ((Hb & Hm & Hk & _) & Hr & Hs & Hw & k & E).
  pose proof (pos_range d (StStreamed d) Hr ltac:(lia)) as P. rewrite <- Hw in P. split; [lia|].
  assert (k < StBankmax d) by (apply (Z.mul_lt_mono_pos_l (StBanksize d)); lia). nia.
Qed.

Lemma bank_pos d j : ring d -> space d -> 0 <= j < StBanksize d -> pos d (StStreamed d + j) = StWritePtr d + j.
Proof.
  intros R S Hj. pose proof (bank_fits d R) as F. destruct R as ((Hb & Hm & Hk & _) & Hr & Hs & Hw & _). unfold space in S.
  ring_lia.
Qed.

Lemma sceCdStInit_ring bufmax bankmax d d' :
  0 < bankmax <= bufmax -> bufmax < 65536 -> sceCdStInit bufmax bankmax d = Some d' ->
  ring d' /\ StStreamed d' = 0 /\ StIsReading d' = 0 /\ StBufmax d' <= bufmax.
Proof.
  intros Hb Hm. unfold sceCdStInit. replace (bankmax =? 0) with false by lia. intros [= <-].
  rewrite (u16_id bankmax) by lia.
  assert (Hq : 0 < bufmax / bankmax <= bufmax).
  { split; [apply Z.div_str_pos; lia|]. apply Z.div_le_upper_bound; nia. }
  rewrite (u16_id (bufmax / bankmax)) by lia.
  assert (Hp : bufmax / bankmax * bankmax <= bufmax) by (pose proof (Z.mul_div_le bufmax bankmax ltac:(lia)); lia).
  rewrite (u16_id (bufmax / bankmax * bankmax)) by nia. revert Hq Hp. generalize (bufmax / bankmax). intros q Hq Hp.
  assert (0 < q * bankmax) by (apply Z.mul_pos_pos; lia).
  unfold StReset, with_ring. cbn. split; [|lia].
  unfold ring, geometry. split_and!; cbn; try lia.
  - unfold pos. cbn. destruct (Z.leb_spec (q * bankmax) (0 + 0)); lia.
  - exists 0. lia.
Qed.

Lemma ring_same d d' :
  StBufmax d' = StBufmax d -> StBankmax d' = StBankmax d -> StBanksize d' = StBanksize d -> StWritePtr d' = StWritePtr d ->
  StReadPtr d' = StReadPtr d -> StStreamed d' = StStreamed d -> ring d -> ring d'.
Proof. intros E1 E2 E3 E4 E5 E6. unfold ring, geometry, pos. by rewrite E1, E2, E3, E4, E5, E6. Qed.

Lemma reset_ring d : geometry d -> ring (StReset d).
Proof.
  intros (Hb & Hm & Hk & Hl). assert (0 < StBufmax d) by (rewrite Hm; by apply Z.mul_pos_pos).
  unfold ring, geometry. split_and!; cbn; try done; try lia.
  - unfold pos. cbn. destruct (Z.leb_spec (StBufmax d) (0 + 0)); lia.
  - exists 0. lia.
Qed.

Lemma bank_done_ring d : ring d -> space d -> StIsReading d <> 0 ->
  ring (bank_done d) /\ StStreamed (bank_done d) = StStreamed d + StBanksize d /\ StIsReading (bank_done d) = 0 /\
  StReadPtr (bank_done d) = StReadPtr d /\ Stlsn (bank_done d) = u32 (Stlsn d + StBanksize d).
Proof.
  intros R S Hr. pose proof (bank_fits d R) as F. unfold space in S. unfold bank_done. replace (StIsReading d =? 0) with false by lia.
  destruct R as ((Hb & Hm & Hk & Hl) & Hrd & Hs & Hw & k & E).
  rewrite !u16_id by lia. unfold ring, geometry. split_and!; cbn; try done; try lia.
  - destruct (Z.leb_spec (StBufmax d) (StWritePtr d + StBanksize d)); ring_lia.
  - destruct (Z.leb_spec (StBufmax d) (StWritePtr d + StBanksize d)); [exists 0; lia|exists (k + 1); lia].
Qed.

(** one copy: the shorter of what is asked and what lies in one piece *)
Lemma one_copy b n m rd bufmax :
  0 <= m -> (b = true -> 0 < n < 65536) -> 0 <= rd < bufmax -> (b = true -> rd + n <= bufmax) -> bufmax < 65536 ->
  let wrap r := if bufmax <=? u16 r then 0 else u16 r in
  let k := if b then n `min` m else 0 in
  (if b then
     let n' := u16 n in let n' := if m <? n' then u16 m else n' in
     if 0 <? n' then (n', wrap (rd + n')) else (0, rd)
   else (0, rd)) = (k, if bufmax <=? rd + k then rd + k - bufmax else rd + k).
Proof.
  intros Hm Hn Hr Hb Hl wrap k. unfold k, wrap. destruct b; [|by rewrite Z.add_0_r; destruct (Z.leb_spec bufmax rd); f_equal; lia].
  specialize (Hn eq_refl). specialize (Hb eq_refl). cbv zeta. rewrite (u16_id n) by lia.
  assert (E : (if m <? n then u16 m else n) = n `min` m).
  { destruct (Z.ltb_spec m n); [rewrite u16_id by lia|]; lia. }
  rewrite E. rewrite u16_id by lia.
  destruct (Z.ltb_spec 0 (n `min` m)); f_equal; [|lia|]; destruct (Z.leb_spec bufmax (rd + n `min` m)); lia.
Qed.

Lemma copies_spec d maxcount : ring d -> 0 <= maxcount ->
  exists n1 rd1 n2 rd2, copies d maxcount = (n1, rd1, n2, rd2) /\ 0 <= n1 /\ 0 <= n2 /\ n1 + n2 = maxcount `min` StStreamed d /\
    StReadPtr d + n1 <= StBufmax d /\ (0 < n2 -> rd1 = pos d n1 /\ 0 <= rd1 /\ rd1 + n2 <= StBufmax d) /\ rd2 = pos d (n1 + n2).
Proof.
  intros ((_ & _ & _ & Hl) & Hr & Hs & Hw & _) Hm. unfold copies.
  set (b1 := (StWritePtr d <=? StReadPtr d) && (0 <? StStreamed d)).
  pose proof (one_copy b1 (StBufmax d - StReadPtr d) maxcount (StReadPtr d) (StBufmax d)) as C1. cbv zeta in C1 |- *.
  rewrite C1 by (try done; lia). clear C1.
  set (n1 := if b1 then (StBufmax d - StReadPtr d) `min` maxcount else 0). fold (pos d n1). cbv beta iota.
  set (b2 := (n1 <? maxcount) && (pos d n1 <? StWritePtr d)).
  assert (H1 : 0 <= n1 <= maxcount /\ StReadPtr d + n1 <= StBufmax d) by (unfold n1; destruct b1; lia).
  pose proof (pos_range d n1 Hr ltac:(lia)) as P1.
  pose proof (pos_range d (StStreamed d) Hr ltac:(lia)) as P2. rewrite <- Hw in P2.
  pose proof (one_copy b2 (StWritePtr d - pos d n1) (maxcount - n1) (pos d n1) (StBufmax d)) as C2. cbv zeta in C2.
  rewrite C2 by (unfold b2; try done; try lia; intros; b2p; lia). clear C2.
  set (n2 := if b2 then (StWritePtr d - pos d n1) `min` (maxcount - n1) else 0).
  eexists n1, _, n2, _. split; [done|].
  assert (Hsum : n1 + n2 = maxcount `min` StStreamed d).
  { unfold n2, b2, n1, b1 in *. clear b1 b2 n1 n2.
    destruct (Z.leb_spec (StWritePtr d) (StReadPtr d)), (Z.ltb_spec 0 (StStreamed d)); cbn [andb] in *;
      repeat match goal with |- context [?a <? ?b] => destruct (Z.ltb_spec a b) end; cbn [andb] in *; ring_lia. }
  assert (H2 : 0 <= n2) by (unfold n2, b2; destruct (n1 <? maxcount) eqn:E1, (pos d n1 <? StWritePtr d) eqn:E2; cbn [andb]; b2p; lia).
  split_and!; try lia.
  - intros Hp. split; [done|]. split; [lia|]. unfold n2 in *. destruct b2; lia.
  - assert (n2 < StBufmax d) by (unfold n2 in *; destruct b2; lia). destruct (Z.leb_spec (StBufmax d) (pos d n1 + n2)); ring_lia.
Qed.

(** ** What a read takes *)

Section Copied.
Context {A : Type}.
Implicit Types (buf : list A).

Lemma copied_spec d buf maxcount :
  ring d -> length buf = Z.to_nat (StBufmax d) -> 0 <= maxcount ->
  let r := maxcount `min` StStreamed d in
  length (copied d buf maxcount) = Z.to_nat r /\
  forall i, 0 <= i < r -> copied d buf maxcount !! Z.to_nat i = buf !! Z.to_nat (pos d i).
Proof.
  intros R L Hm r. destruct (copies_spec d maxcount R Hm) as (n1 & rd1 & n2 & rd2 & E & H1 & H2 & Hs & Hf & Hg & _).
  unfold copied. rewrite E. fold r in Hs. destruct R as (_ & Hr & _).
  assert (Hrd : 0 < n2 -> 0 <= rd1) by (intros H; destruct (Hg H); lia).
  assert (L1 : length (take (Z.to_nat n1) (drop (Z.to_nat (StReadPtr d)) buf)) = Z.to_nat n1) by (rewrite length_take, length_drop; lia).
  assert (L2 : length (take (Z.to_nat n2) (drop (Z.to_nat rd1) buf)) = Z.to_nat n2).
  { rewrite length_take, length_drop. destruct (Z.eq_dec n2 0) as [->|]; [lia|]. destruct Hg as (_ & _ & Hg); lia. }
  split; [rewrite length_app, L1, L2; lia|]. intros i Hi.
  destruct (Z.ltb_spec i n1).
  - rewrite lookup_app_l by lia. rewrite lookup_take_lt by lia. rewrite lookup_drop. f_equal.
    assert (StReadPtr d + i < StBufmax d) by lia. ring_lia.
  - rewrite lookup_app_r by lia. rewrite L1. rewrite lookup_take_lt by lia. rewrite lookup_drop. f_equal.
    destruct Hg as (-> & Hg1 & Hg2); [lia|]. ring_lia.
Qed.

(** the ring after [r] sectors were released *)
Definition released (d : SteamingData) (r : Z) : SteamingData :=
  with_ring d (StWritePtr d) (pos d r) (StStreamed d - r) (StIsReading d).

Lemma released_ring d r : ring d -> 0 <= r <= StStreamed d ->
  ring (released d r) /\ (forall i, 0 <= i <= StStreamed d - r -> pos (released d r) i = pos d (r + i)).
Proof.
  intros (G & Hr & Hs & Hw & k & E) H. pose proof (pos_range d r Hr ltac:(lia)) as P.
  assert (Hp : forall i, 0 <= i <= StStreamed d - r -> pos (released d r) i = pos d (r + i)).
  { intros i Hi. unfold released. pose proof (pos_cases (with_ring d (StWritePtr d) (pos d r) (StStreamed d - r) (StIsReading d)) i) as Q.
    cbn [StReadPtr StBufmax with_ring] in Q. revert Q. generalize (pos (with_ring d (StWritePtr d) (pos d r) (StStreamed d - r) (StIsReading d)) i). intros q Q. clear Hw E. ring_lia. }
  split; [|done]. split_and!; cbn; try lia; [apply G| |by exists k].
  rewrite Hp by lia. rewrite Hw. f_equal. lia.
Qed.

Lemma ReadSectors_spec d buf maxcount : ring d -> 0 <= maxcount ->
  ReadSectors d buf maxcount = (maxcount `min` StStreamed d, copied d buf maxcount, released d (maxcount `min` StStreamed d)).
Proof.
  intros R Hm. destruct (copies_spec d maxcount R Hm) as (n1 & rd1 & n2 & rd2 & E & H1 & H2 & Hs & _ & _ & ->).
  unfold ReadSectors. rewrite E. destruct R as ((_ & _ & _ & Hl) & _ & Hst & _).
  rewrite (u16_id (StStreamed d - n1)), u16_id by lia. unfold released. rewrite <- Hs.
  by replace (StStreamed d - n1 - n2) with (StStreamed d - (n1 + n2)) by lia.
Qed.

(** the two halves of the transfer to the other processor, with banks that arrived
    in between *)
Lemma ReadSectorsEE_spec d0 d maxcount : ring d0 -> ring d -> 0 <= maxcount ->
  StReadPtr d = StReadPtr d0 -> StBufmax d = StBufmax d0 -> StStreamed d0 <= StStreamed d ->
  let '(r, rd) := ReadSectorsEE_begin d0 maxcount in
  r = maxcount `min` StStreamed d0 /\ ReadSectorsEE_end d r rd = released d r.
Proof.
  intros R0 R Hm E1 E2 Hle. destruct (copies_spec d0 maxcount R0 Hm) as (n1 & rd1 & n2 & rd2 & E & H1 & H2 & Hs & _ & _ & ->).
  unfold ReadSectorsEE_begin. rewrite E. split; [done|]. unfold ReadSectorsEE_end, released.
  destruct R as ((_ & _ & _ & Hl) & _ & Hst & _). rewrite u16_id by lia. f_equal. unfold pos. by rewrite E1, E2.
Qed.
End Copied.

(** ** The invariant *)

Section Inv.
Context {A : Type} (disc : Z -> A).
Implicit Types (m : machine (A := A)) (buf : list A).

Definition disc_from (from : Z) (i : Z) : A := disc (u32 (from + i)).

(** the sectors the game got, and those in the ring, are the stream from its start *)
Definition delivered (from : Z) (out : list A) : Prop :=
  forall i, 0 <= i < Z.of_nat (length out) -> out !! Z.to_nat i = Some (disc_from from i).
Definition holds (d : SteamingData) buf (from n : Z) : Prop :=
  forall i, 0 <= i < StStreamed d -> buf !! Z.to_nat (pos d i) = Some (disc_from from (n + i)).
(** the next bank lies at the write pointer *)
Definition bank_in (d : SteamingData) buf : Prop :=
  forall j, 0 <= j < StBanksize d -> buf !! Z.to_nat (StWritePtr d + j) = Some (disc (u32 (Stlsn d + j))).

Definition no_stream (dr : drive) : Prop := forall lsn n ptr, dr <> Reading lsn n ptr true.
Definition no_fill_cl (cl : cl_pc) : Prop := forall f, cl <> CL_fill f.
Definition no_fill_cd (cd : cd_pc) : Prop := forall f, cd <> CD_fill f.

(** one of the two threads is in the fill [f] *)
Definition filling (cd : cd_pc) (cl : cl_pc) (f : fill_pc) : Prop :=
  (cd = CD_fill f /\ no_fill_cl cl) \/ (cd = CD_wait /\ cl = CL_fill f).

(** where the bank being read is *)
Inductive phase (d : SteamingData) buf (dr : drive) (cb : bool) (cd : cd_pc) (cl : cl_pc) : Prop :=
| ph_idle : StIsReading d = 0 -> no_stream dr -> no_fill_cd cd -> no_fill_cl cl -> phase d buf dr cb cd cl
| ph_full : StIsReading d = 1 -> dr = Idle -> filling cd cl F_full -> phase d buf dr cb cd cl
| ph_issue : StIsReading d = 1 -> dr = Idle -> space d -> filling cd cl (F_issue (StWritePtr d)) -> phase d buf dr cb cd cl
| ph_reading : StIsReading d = 1 -> dr = Reading (Stlsn d) (StBanksize d) (StWritePtr d) true -> space d ->
    cd = CD_wait -> no_fill_cl cl -> phase d buf dr cb cd cl
| ph_arrived : StIsReading d = 1 -> no_stream dr -> space d -> bank_in d buf -> cd = CD_wait \/ cd = CD_signalled ->
    no_fill_cl cl -> phase d buf dr cb cd cl
| ph_abandoned k lsn ptr : StIsReading d = 0 -> dr = Reading lsn (StBanksize d) ptr true ->
    0 <= ptr -> ptr + StBanksize d <= StBufmax d -> StStreamed d = 0 \/ (ptr = StWritePtr d /\ space d) ->
    cd = CD_wait -> cl = CL_sync k -> cb = false -> phase d buf dr cb cd cl.

(** what the game's call remembers *)
Definition call_ok (d : SteamingData) (cl : cl_pc) : Prop :=
  match cl with
  | CL_read n _ | CL_copy n _ => 0 < n
  | CL_dma n _ r rd d0 =>
    0 < n /\ ring d0 /\ StReadPtr d = StReadPtr d0 /\ StBufmax d = StBufmax d0 /\ StStreamed d0 <= StStreamed d /\
    ReadSectorsEE_begin d0 n = (r, rd)
  | CL_sync (Some _) | CL_start _ => StStat d = 0
  | _ => True
  end.

Definition off_ok (d : SteamingData) (cb : bool) (cd : cd_pc) (cl : cl_pc) : Prop :=
  StStat d = 0 -> cb = false /\ cd = CD_wait /\ StIsReading d = 0 /\
    (cl = CL_idle \/ (exists k, cl = CL_sync k) \/ exists lsn, cl = CL_start lsn).

Record good m : Prop := {
  g_ring : ring (m_d m);
  g_len : length (m_buf m) = Z.to_nat (StBufmax (m_d m));
  g_out : delivered (m_from m) (m_out m);
  g_buf : holds (m_d m) (m_buf m) (m_from m) (Z.of_nat (length (m_out m)));
  g_lsn : StStat (m_d m) <> 0 -> Stlsn (m_d m) = u32 (m_from m + Z.of_nat (length (m_out m)) + StStreamed (m_d m));
  g_phase : phase (m_d m) (m_buf m) (m_drive m) (m_cb m) (m_cd m) (m_cl m);
  g_busy : m_cd m <> CD_wait -> m_drive m = Idle;
  g_call : call_ok (m_d m) (m_cl m);
  g_off : off_ok (m_d m) (m_cb m) (m_cd m) (m_cl m);
  g_alarm : m_alarm m = false;
}.
End Inv.

(** ** The invariant is kept *)

Lemma sectors_length {A} (disc : Z -> A) lsn n : length (sectors disc lsn n) = Z.to_nat n.
Proof. unfold sectors. by rewrite length_map, length_seq. Qed.

Lemma sectors_lookup {A} (disc : Z -> A) lsn n j : 0 <= j < n -> sectors disc lsn n !! Z.to_nat j = Some (disc (u32 (lsn + j))).
Proof.
  intros H. unfold sectors. change (map ?f ?l) with (f <$> l). rewrite list_lookup_fmap, lookup_seq_lt by lia. cbn. do 3 f_equal. lia.
Qed.

Lemma pos_ext d d' k : StBufmax d' = StBufmax d -> StReadPtr d' = StReadPtr d -> pos d' k = pos d k.
Proof. unfold pos. by intros -> ->. Qed.

Section Kept.
Context {A : Type} (disc : Z -> A).
Implicit Types (m : machine (A := A)) (buf : list A).

(** a bank read to the write pointer leaves the sectors of the ring *)
Lemma bank_untouched d buf lsn from n :
  ring d -> space d -> length buf = Z.to_nat (StBufmax d) -> holds disc d buf from n ->
  holds disc d (blit buf (Z.to_nat (StWritePtr d)) (sectors disc lsn (StBanksize d))) from n.
Proof.
  intros R S L H i Hi. destruct (bank_fits d R) as [F1 F2]. pose proof (sectors_length disc lsn (StBanksize d)) as Ls. assert (Hb : 0 < StBanksize d) by apply R.
  rewrite lookup_blit by lia. rewrite decide_False; [by apply H|].
  intros Hin. rewrite Ls in Hin. pose proof R as ((_ & _ & _ & Hl) & Hr & Hs & _).
  pose proof (pos_range d i Hr ltac:(lia)) as P. set (j := pos d i - StWritePtr d).
  assert (Hj : 0 <= j < StBanksize d) by (unfold j; lia).
  pose proof (bank_pos d j R S Hj) as E. unfold space in S.
  assert (i = StStreamed d + j) by (apply (pos_inj d); try lia; rewrite E; unfold j; lia). lia.
Qed.

Lemma bank_written d buf :
  ring d -> length buf = Z.to_nat (StBufmax d) ->
  bank_in disc d (blit buf (Z.to_nat (StWritePtr d)) (sectors disc (Stlsn d) (StBanksize d))).
Proof.
  intros R L j Hj. destruct (bank_fits d R) as [F1 F2]. pose proof (sectors_length disc (Stlsn d) (StBanksize d)) as Ls. assert (Hb : 0 < StBanksize d) by apply R.
  rewrite lookup_blit by lia. rewrite decide_True by lia.
  replace (Z.to_nat (StWritePtr d + j) - Z.to_nat (StWritePtr d))%nat with (Z.to_nat j) by lia. by apply sectors_lookup.
Qed.

Lemma abandoned_written d buf ptr lsn :
  0 <= ptr -> ptr + StBanksize d <= StBufmax d -> 0 < StBanksize d -> length buf = Z.to_nat (StBufmax d) ->
  length (blit buf (Z.to_nat ptr) (sectors disc lsn (StBanksize d))) = length buf.
Proof. intros. apply blit_length. rewrite sectors_length. lia. Qed.

Lemma holds_reading d buf from n r : holds disc d buf from n -> holds disc (with_reading d r) buf from n.
Proof. done. Qed.

Lemma good_CdDone m m' : good disc m -> step disc CdDone m = Some m' -> good disc m'.
Proof.
  intros [R L O H N P B C F G] E. cbn in E. destruct (m_cd m) eqn:Ecd; try done. destruct (m_drive m) as [|lsn n ptr stream] eqn:Ed; [done|].
  injection E as <-. pose proof R as ((Hb & _) & _).
  destruct P as [P1 P2 P3 P4|P1 P2 P3|P1 P2 P3 P4|P1 P2 P3 P4 P5|P1 P2 P3 P4 P5 P6|k l' ptr' P1 P2 P3 P4 P5 P6 P7 P8]; try done.
  - destruct stream; [by destruct (P2 lsn n ptr)|]. split; cbn; try done.
    + by apply ph_idle; [done| |destruct (m_cb m)|].
    + intros Hs. destruct (F Hs) as (-> & _ & ? & ?). by split_and!.
  - injection P2 as -> -> -> ->. split; cbn; try done.
    + destruct (bank_fits _ R). rewrite blit_length; [done|]. rewrite sectors_length. lia.
    + by apply bank_untouched.
    + apply ph_arrived; try done; [by apply bank_written|]. destruct (m_cb m); auto.
    + intros Hs. destruct (F Hs) as (-> & _ & ? & ?). by split_and!.
  - destruct stream; [by destruct (P2 lsn n ptr)|]. split; cbn; try done.
    + apply ph_arrived; try done. destruct (m_cb m); auto.
    + intros Hs. destruct (F Hs) as (-> & _ & ? & ?). by split_and!.
  - injection P2 as -> -> -> ->. split; cbn; try done.
    + by rewrite abandoned_written.
    + destruct P5 as [P5|[-> P5]]; [intros i Hi; lia|by apply bank_untouched].
    + rewrite P8. by apply ph_idle; [done| | |rewrite P7].
    + rewrite P8. intros Hs. destruct (F Hs) as (_ & _ & ? & ?). by split_and!.
Qed.

Lemma bank_done_holds d buf from n :
  ring d -> space d -> StIsReading d <> 0 -> Stlsn d = u32 (from + n + StStreamed d) ->
  bank_in disc d buf -> holds disc d buf from n -> holds disc (bank_done d) buf from n.
Proof.
  intros R S Hr El Hb H i Hi. destruct (bank_done_ring d R S Hr) as (_ & Es & _ & Er & _). rewrite Es in Hi.
  assert (Em : StBufmax (bank_done d) = StBufmax d) by (unfold bank_done; by destruct (StIsReading d =? 0)).
  rewrite (pos_ext d) by done. destruct (Z.ltb_spec i (StStreamed d)).
  - apply H. pose proof R as (_ & _ & ? & _). lia.
  - replace i with (StStreamed d + (i - StStreamed d)) at 1 by lia. rewrite bank_pos by (try done; lia).
    rewrite Hb by lia. rewrite El, u32_add_l. unfold disc_from. do 3 f_equal. lia.
Qed.

Lemma bank_done_call d cl : ring d -> space d -> call_ok d cl -> call_ok (bank_done d) cl.
Proof.
  intros R S. unfold bank_done. destruct (Z.eqb_spec (StIsReading d) 0) as [|E]; [done|].
  destruct cl as [|[]| | | |? ?|? ?|n mode r rd d0]; try done. intros (H1 & H2 & H3 & H4 & H5 & H6). split_and!; try done. cbn.
  destruct R as ((? & _ & _ & ?) & _ & ? & _). unfold space in S. rewrite u16_id by lia. lia.
Qed.

Lemma good_CdCallback m m' : good disc m -> step disc CdCallback m = Some m' -> good disc m'.
Proof.
  intros [R L O H N P B C F G] E. cbn in E. destruct (m_cd m) eqn:Ecd; try done.
  assert (Hon : StStat (m_d m) <> 0) by (intros Hs; by destruct (F Hs) as (_ & ? & _)).
  specialize (B ltac:(done)).
  destruct P as [P1 P2 P3 P4|P1 P2 P3|P1 P2 P3 P4|P1 P2 P3 P4 P5|P1 P2 P3 P4 P5 P6|k l' ptr' P1 P2 P3 P4 P5 P6 P7 P8]; try done;
    try (by destruct P3 as [[? _]|[? _]]); try (by destruct P4 as [[? _]|[? _]]).
  - assert (Eb : bank_done (m_d m) = m_d m) by (unfold bank_done; by rewrite P1). rewrite Eb in E.
    destruct (m_cb m) eqn:Ecb; injection E as <-; split; cbn; try done; by apply ph_idle.
  - destruct (bank_done_ring (m_d m) R P3) as (R' & S' & I' & Rd' & Ls'); [lia|].
    destruct (m_cb m) eqn:Ecb; injection E as <-; split; cbn; try done.
    + by unfold bank_done; destruct (StIsReading (m_d m) =? 0).
    + apply bank_done_holds; try done; [lia|by apply N].
    + intros _. rewrite Ls', S', N by done. rewrite u32_add_l. f_equal. lia.
    + by apply ph_idle; [|rewrite B| |].
    + by apply bank_done_call.
    + intros Hs. exfalso. apply Hon. revert Hs. unfold bank_done. by destruct (StIsReading (m_d m) =? 0).
    + apply ph_arrived; auto.
Qed.

(** the game's thread moves on outside a fill and a wait *)
Lemma phase_cl d buf dr cb cb' cd cl cl' :
  phase disc d buf dr cb cd cl -> no_fill_cl cl -> (forall k, cl <> CL_sync k) -> no_fill_cl cl' -> phase disc d buf dr cb' cd cl'.
Proof.
  intros P Hcl Hs Hcl'. destruct P as [P1 P2 P3 P4|P1 P2 P3|P1 P2 P3 P4|P1 P2 P3 P4 P5|P1 P2 P3 P4 P5 P6|k l' ptr' P1 P2 P3 P4 P5 P6 P7 P8].
  - by apply ph_idle.
  - apply ph_full; try done. destruct P3 as [[? _]|[_ ?]]; [by left|by destruct (Hcl F_full)].
  - apply ph_issue; try done. destruct P4 as [[? _]|[_ ?]]; [by left|by destruct (Hcl (F_issue (StWritePtr d)))].
  - by apply ph_reading.
  - by apply ph_arrived.
  - by destruct (Hs k).
Qed.

Lemma AllocBank_spec d : AllocBank d = if decide (space d) then Some (StWritePtr d) else None.
Proof. unfold AllocBank, space. destruct (Z.leb_spec (StBanksize d) (StBufmax d - StStreamed d)); case_decide; done || lia. Qed.

(** a fill begins in one of the threads, the drive at rest *)
Lemma fill_begins d buf cb cd cl cd' cl' :
  (forall f, filling (cd' f) (cl' f) f) ->
  let d' := with_reading d 1 in
  let f := match AllocBank d' with Some ptr => F_issue ptr | None => F_full end in
  phase disc d buf Idle cb cd cl -> StIsReading d = 0 -> phase disc d' buf Idle cb (cd' f) (cl' f).
Proof.
  intros Hf d' f _ _. unfold f. rewrite AllocBank_spec. case_decide.
  - apply ph_issue; [done..|apply Hf].
  - apply ph_full; [done..|apply Hf].
Qed.

Lemma phase_refill d buf dr cb cl : phase disc d buf dr cb CD_refill cl -> StIsReading d = 0 /\ no_fill_cl cl.
Proof.
  intros P. destruct P as [P1 P2 P3 P4|P1 P2 P3|P1 P2 P3 P4|P1 P2 P3 P4 P5|P1 P2 P3 P4 P5 P6|k l' ptr' P1 P2 P3 P4 P5 P6 P7 P8]; try done.
  - by destruct P3 as [[? _]|[? _]].
  - by destruct P4 as [[? _]|[? _]].
  - by destruct P5.
Qed.

Lemma call_ok_reading d r cl : call_ok d cl -> call_ok (with_reading d r) cl.
Proof. by destruct cl as [|[]| | | |? ?|? ?|n mode r' rd d0]. Qed.

Lemma good_CdFill m m' : good disc m -> step disc CdFill m = Some m' -> good disc m'.
Proof.
  intros [R L O H N P B C F G] E. cbn in E. destruct (m_cd m) eqn:Ecd; try done.
  destruct (phase_refill _ _ _ _ _ P) as [Hr Hcl]. specialize (B ltac:(done)). rewrite B in P.
  unfold fill_section in E. rewrite Hr in E. cbn in E. injection E as <-. split; cbn; try done.
  - rewrite B. apply (fill_begins _ _ _ CD_refill (m_cl m) (fun f => CD_fill f) (fun _ => m_cl m)); [|done|done]. intros f. by left.
  - intros Hs. by destruct (F Hs) as (_ & ? & _).
Qed.

Lemma filling_fun cd cl f g : filling cd cl f -> filling cd cl g -> f = g.
Proof. intros [[E1 E2]|[E1 E2]] [[E3 E4]|[E3 E4]]; congruence || (subst; by destruct (E2 _ E4)) || (subst; by destruct (E4 _ E2)) || congruence. Qed.
Lemma filling_not cd cl f : filling cd cl f -> no_fill_cl cl -> (cd = CD_wait \/ cd = CD_signalled \/ no_fill_cd cd) -> False.
Proof. intros [[-> E2]|[-> ->]] Hcl H; [|by destruct (Hcl f)]. destruct H as [?|[?|H]]; [done|done|by destruct (H f)]. Qed.

(** the rest of a fill started by either thread *)
Lemma fill_ends m cl f :
  good disc m -> filling (m_cd m) (m_cl m) f -> no_fill_cl cl -> call_ok (m_d m) cl -> StStat (m_d m) <> 0 ->
  good disc (put_cl (put_cd (start_fill_rest m f) CD_wait) cl).
Proof.
  intros [R L O H N P B C F G] Hf Hcl Hc Hs.
  assert (Hd : m_drive m = Idle /\ match f with F_issue ptr => ptr = StWritePtr (m_d m) /\ space (m_d m) /\ StIsReading (m_d m) = 1 | F_full => True end).
  { destruct P as [P1 P2 P3 P4|P1 P2 P3|P1 P2 P3 P4|P1 P2 P3 P4 P5|P1 P2 P3 P4 P5 P6|k l' ptr' P1 P2 P3 P4 P5 P6 P7 P8].
    - destruct (filling_not _ _ _ Hf); auto.
    - by rewrite (filling_fun _ _ _ _ Hf P3).
    - by rewrite (filling_fun _ _ _ _ Hf P4).
    - destruct (filling_not _ _ _ Hf); auto.
    - destruct (filling_not _ _ _ Hf); tauto.
    - destruct (filling_not _ _ _ Hf); auto. rewrite P7. by intros g. }
  destruct Hd as [Hd Hf']. unfold start_fill_rest, fill_rest. destruct f as [ptr|].
  - rewrite Hd. destruct Hf' as (-> & Hsp & Hr). split; cbn; try done. by apply ph_reading.
  - split; cbn; try done. rewrite Hd. by apply ph_idle.
Qed.
End Kept.

(** ** The game's steps *)

Section Game.
Context {A : Type} (disc : Z -> A).
Implicit Types (m : machine (A := A)) (buf : list A).

Lemma rest_idle m : good disc m -> calm_now m -> no_fill_cl (m_cl m) -> (forall k, m_cl m <> CL_sync k) -> StIsReading (m_d m) = 0 -> m_drive m = Idle.
Proof.
  intros [R L O H N P B C F G] [Hcd Hg] Hcl Hk Hr. rewrite Hcd in P.
  destruct P as [P1 P2 P3 P4|P1 P2 P3|P1 P2 P3 P4|P1 P2 P3 P4 P5|P1 P2 P3 P4 P5 P6|k l' ptr' P1 P2 P3 P4 P5 P6 P7 P8]; try lia.
  - destruct (m_drive m) as [|lsn n ptr []] eqn:Ed; [done| |]; [by destruct (P2 lsn n ptr)|by destruct (Hg lsn n ptr)].
  - by destruct (Hk k).
Qed.

Lemma good_ClFill m m' : good disc m -> calm_now m -> step disc ClFill m = Some m' -> good disc m'.
Proof.
  intros J [Hcd Hg] E. pose proof J as [R L O H N P B C F G]. cbn in E. destruct (m_cl m) eqn:Ecl; try done.
  assert (Hcl : no_fill_cl CL_refill) by (by intros f). assert (Hk : forall k, CL_refill <> CL_sync k) by done.
  unfold fill_section in E. destruct (Z.eqb_spec (StIsReading (m_d m)) 0) as [Hr|Hr]; cbn in E; injection E as <-.
  - assert (Hd : m_drive m = Idle) by (apply rest_idle; try done; by rewrite Ecl). rewrite Hd in P. split; cbn; try done.
    + rewrite Hd, Hcd. rewrite Hcd in P.
      apply (fill_begins disc _ _ _ CD_wait CL_refill (fun _ => CD_wait) (fun f => CL_fill f)); [|done|done]. intros f. by right.
    + intros Hs. destruct (F Hs) as (_ & _ & _ & [?|[[k ?]|[l ?]]]); done.
  - split; cbn; try done.
    + by apply (phase_cl disc _ _ _ (m_cb m) _ _ CL_refill).
    + intros Hs. destruct (F Hs) as (_ & _ & _ & [?|[[k ?]|[l ?]]]); done.
Qed.

Lemma good_ClIssue m m' : good disc m -> calm_now m -> step disc ClIssue m = Some m' -> good disc m'.
Proof.
  intros J [Hcd Hg] E. cbn in E. destruct (m_cl m) eqn:Ecl; try done. injection E as <-.
  assert (Hs : StStat (m_d m) <> 0).
  { intros Hs. pose proof (g_off _ _ J Hs) as (_ & _ & _ & [?|[[k ?]|[l ?]]]); congruence. }
  replace (put_cl (start_fill_rest m f) CL_idle) with (put_cl (put_cd (start_fill_rest m f) CD_wait) CL_idle).
  - apply fill_ends; try done. right. done.
  - unfold start_fill_rest, fill_rest. destruct f; [destruct (m_drive m)|]; unfold put_cl, put_cd, put_d, put_drive, put_alarm; cbn; by rewrite Hcd.
Qed.

(** [sceCdStStop] at rest: the stream is off, a bank being read is dropped *)
Lemma good_stop m k :
  good disc m -> calm_now m -> m_cl m = CL_idle -> good disc (put_cl (stop_section m) (CL_sync k)).
Proof.
  intros [R L O H N P B C F G] [Hcd Hg] Ecl. pose proof (reset_ring (with_stat (m_d m) 0) ltac:(apply R)) as R'.
  split; cbn; try done.
  - intros i Hi. cbn in Hi. lia.
  - rewrite Hcd, Ecl in P. rewrite Hcd.
    destruct P as [P1 P2 P3 P4|P1 P2 P3|P1 P2 P3 P4|P1 P2 P3 P4 P5|P1 P2 P3 P4 P5 P6|k' l' ptr' P1 P2 P3 P4 P5 P6 P7 P8].
    + by apply ph_idle.
    + by destruct P3 as [[? _]|[_ ?]].
    + by destruct P4 as [[? _]|[_ ?]].
    + destruct (bank_fits _ R). eapply ph_abandoned; try done. by left.
    + by apply ph_idle.
    + done.
  - by destruct k.
  - intros _. split_and!; try done. right. left. by exists k.
Qed.

Lemma good_pause m : good disc m -> calm_now m -> m_cl m = CL_idle -> StStat (m_d m) <> 0 ->
  good disc (put_cl (pause_section m) (CL_sync None)).
Proof.
  intros [R L O H N P B C F G] [Hcd Hg] Ecl Hs. split; cbn; try done.
  rewrite Hcd, Ecl in P. rewrite Hcd.
  destruct P as [P1 P2 P3 P4|P1 P2 P3|P1 P2 P3 P4|P1 P2 P3 P4 P5|P1 P2 P3 P4 P5 P6|k' l' ptr' P1 P2 P3 P4 P5 P6 P7 P8].
  - by apply ph_idle.
  - by destruct P3 as [[? _]|[_ ?]].
  - by destruct P4 as [[? _]|[_ ?]].
  - destruct (bank_fits _ R). eapply ph_abandoned; try done. by right.
  - by apply ph_idle.
  - done.
Qed.

Lemma good_synced m k :
  good disc m -> calm_now m -> m_cl m = CL_sync k -> m_drive m = Idle ->
  good disc (put_cl m (match k with None => CL_idle | Some lsn => CL_start lsn end)).
Proof.
  intros [R L O H N P B C F G] [Hcd Hg] Ecl Hd. rewrite Hcd, Ecl in P. split; cbn; try done.
  - rewrite Hcd. destruct P as [P1 P2 P3 P4|P1 P2 P3|P1 P2 P3 P4|P1 P2 P3 P4 P5|P1 P2 P3 P4 P5 P6|k' l' ptr' P1 P2 P3 P4 P5 P6 P7 P8].
    + apply ph_idle; try done. by destruct k.
    + by destruct P3 as [[? _]|[_ ?]].
    + by destruct P4 as [[? _]|[_ ?]].
    + congruence.
    + apply ph_arrived; try done. by destruct k.
    + congruence.
  - rewrite Ecl in C. by destruct k.
  - intros Hs. destruct (F Hs) as (? & ? & ? & _). split_and!; try done. destruct k; [right; right; by eexists|by left].
Qed.

Lemma good_start m lsn : good disc m -> calm_now m -> m_cl m = CL_start lsn -> good disc (put_cl (start_section m lsn) CL_refill).
Proof.
  intros J [Hcd Hg] Ecl. pose proof J as [R L O H N P B C F G]. rewrite Ecl in C. destruct (F C) as (_ & _ & Hr & _).
  pose proof (reset_ring (with_stat (with_lsn (m_d m) (u32 lsn)) 1) ltac:(apply R)) as R'.
  assert (Hd : m_drive m = Idle) by (apply rest_idle; try done; by rewrite Ecl).
  split; cbn; try done.
  - intros i Hi. cbn in Hi. lia.
  - intros i Hi. cbn in Hi. lia.
  - intros _. rewrite !Z.add_0_r. unfold u32. rewrite Z.mod_mod; [done|lia].
  - rewrite Hd, Hcd. by apply ph_idle.
Qed.

(** a move of the game that leaves the stream's data *)
Lemma good_move m cb ev cl' :
  good disc m -> StStat (m_d m) <> 0 -> no_fill_cl (m_cl m) -> (forall k, m_cl m <> CL_sync k) ->
  no_fill_cl cl' -> call_ok (m_d m) cl' -> good disc (put_cl (put_ev (put_cb m cb) ev) cl').
Proof.
  intros [R L O H N P B C F G] Hs Hcl Hk Hcl' Hc. split; cbn; try done.
  by apply (phase_cl disc _ _ _ (m_cb m) _ _ (m_cl m)).
Qed.

(** sectors are taken out of the ring *)
Lemma good_take m data r cl' :
  good disc m -> StStat (m_d m) <> 0 -> no_fill_cl (m_cl m) -> (forall k, m_cl m <> CL_sync k) -> no_fill_cl cl' ->
  0 <= r <= StStreamed (m_d m) -> length data = Z.to_nat r ->
  (forall i, 0 <= i < r -> data !! Z.to_nat i = m_buf m !! Z.to_nat (pos (m_d m) i)) ->
  (forall d, call_ok d cl') ->
  good disc (put_cl (put_out (put_d m (released (m_d m) r)) (m_from m) (m_out m ++ data)) cl').
Proof.
  intros [R L O H N P B C F G] Hs Hcl Hk Hcl' Hr Hlen Hdata Hc.
  destruct (released_ring (m_d m) r R Hr) as [R' Hp].
  split; cbn; try done.
  - intros i Hi. rewrite length_app, Hlen in Hi. destruct (Z.ltb_spec i (Z.of_nat (length (m_out m)))).
    + rewrite lookup_app_l by lia. apply O. lia.
    + rewrite lookup_app_r by lia. replace (Z.to_nat i - length (m_out m))%nat with (Z.to_nat (i - Z.of_nat (length (m_out m)))) by lia.
      rewrite Hdata, H by lia. unfold disc_from. do 3 f_equal. lia.
  - intros i Hi. cbn in Hi. rewrite Hp by lia. rewrite H by lia. rewrite length_app, Hlen. unfold disc_from. do 3 f_equal. lia.
  - intros _. rewrite N by done. rewrite length_app, Hlen. f_equal. lia.
  - pose proof (phase_cl disc _ _ _ _ (m_cb m) _ _ cl' P Hcl Hk Hcl') as P'.
    destruct P' as [P1 P2 P3 P4|P1 P2 P3|P1 P2 P3 P4|P1 P2 P3 P4 P5|P1 P2 P3 P4 P5 P6|k' l' ptr' P1 P2 P3 P4 P5 P6 P7 P8].
    + by apply ph_idle.
    + by apply ph_full.
    + apply ph_issue; try done. unfold space in *. cbn. lia.
    + apply ph_reading; try done. unfold space in *. cbn. lia.
    + apply ph_arrived; try done. unfold space in *. cbn. lia.
    + eapply ph_abandoned; try done. destruct P5 as [P5|[-> P5]]; [left; cbn; lia|right]. unfold space in *. cbn. split; [done|lia].
Qed.
End Game.

(** ** Every calm step *)

Section Steps.
Context {A : Type} (disc : Z -> A).
Implicit Types (m : machine (A := A)) (buf : list A).

Lemma next_read_ok todo mode r : no_fill_cl (next_read todo mode r) /\ (0 <= r -> forall d, call_ok d (next_read todo mode r)).
Proof. unfold next_read. destruct (mode =? 0), (Z.leb_spec (todo - r) 0); cbn; (split; [by intros f|intros; cbn; lia || done]). Qed.

Lemma on_stat m : good disc m -> (forall k, m_cl m <> CL_sync k) -> m_cl m <> CL_idle -> (forall l, m_cl m <> CL_start l) -> StStat (m_d m) <> 0.
Proof. intros J H1 H2 H3 Hs. destruct (g_off _ _ J Hs) as (_ & _ & _ & [?|[[k ?]|[l ?]]]); [done|by destruct (H1 k)|by destruct (H3 l)]. Qed.

Lemma put_same m : put_cb m (m_cb m) = m /\ put_ev m (m_ev m) = m.
Proof. by destruct m. Qed.

Lemma good_read m m' l :
  (exists n mode, l = Read n mode) \/ l = ReadWait \/ l = ReadIop \/ l = ReadEE \/ l = DmaEnd ->
  good disc m -> step disc l m = Some m' -> good disc m'.
Proof.
  intros Hl J E. assert (Hcl : forall cl, m_cl m = cl -> call_ok (m_d m) cl) by (intros cl <-; apply J).
  destruct (put_same m) as [Ecb Eev].
  destruct Hl as [(n & mode & ->)|[->|[->|[->| ->]]]]; cbn in E; destruct (m_cl m) as [|k|l'| |f|todo mode'|todo mode'|todo mode' r rd d0] eqn:Ecl; try done.
  - destruct (StStat (m_d m) =? 0) eqn:Hs; [done|]. cbn in E. injection E as <-. rewrite <- Ecb.
    apply good_move; rewrite ?Ecl; try done; [lia|by destruct (0 <? n)|destruct (Z.ltb_spec 0 n); cbn; done].
  - destruct (m_ev m); [|done]. injection E as <-. rewrite <- Ecb at 1.
    apply good_move; rewrite ?Ecl; try done; [apply (on_stat m J); by rewrite Ecl|by apply (Hcl (CL_read todo mode'))].
  - pose proof (Hcl _ eq_refl) as Ht. cbn in Ht. rewrite ReadSectors_spec in E by (try apply J; lia). injection E as <-.
    destruct (copied_spec (m_d m) (m_buf m) todo) as [Hlen Hdata]; [apply J|apply J|lia|].
    destruct (next_read_ok todo mode' (todo `min` StStreamed (m_d m))) as [Hn1 Hn2].
    pose proof (g_ring _ _ J) as (_ & _ & Hst & _).
    apply good_take; rewrite ?Ecl; try done; [apply (on_stat m J); by rewrite Ecl|lia|apply Hn2; lia].
  - destruct (ReadSectorsEE_begin (m_d m) todo) as [r rd] eqn:Eb. injection E as <-.
    rewrite <- Ecb at 1. rewrite <- Eev at 1. replace (put_cb (put_ev m (m_ev m)) (m_cb m)) with (put_ev (put_cb m (m_cb m)) (m_ev m)) by done.
    pose proof (Hcl _ eq_refl) as Ht. cbn in Ht.
    apply good_move; rewrite ?Ecl; try done; [apply (on_stat m J); by rewrite Ecl|]. split_and!; try done. apply J.
  - pose proof (Hcl _ eq_refl) as (Ht & R0 & E1 & E2 & Hle & Eb). injection E as <-.
    pose proof (ReadSectorsEE_spec d0 (m_d m) todo R0 (g_ring _ _ J) ltac:(lia) E1 E2 Hle) as Hee. rewrite Eb in Hee. destruct Hee as [Er ->].
    destruct (copied_spec d0 (m_buf m) todo) as [Hlen Hdata]; [done|rewrite <- E2; apply J|lia|].
    destruct (next_read_ok todo mode' r) as [Hn1 Hn2]. pose proof R0 as (_ & _ & Hst & _).
    apply good_take; rewrite ?Ecl; try done; [apply (on_stat m J); by rewrite Ecl|lia|by rewrite Hlen, Er| |apply Hn2; lia].
    intros i Hi. rewrite Hdata by lia. by rewrite (pos_ext d0 (m_d m)).
Qed.

Lemma good_step m m' : good disc m -> calm_step disc m m' -> good disc m'.
Proof.
  intros J (l & Hcalm & E). destruct (put_same m) as [Ecb Eev].
  unfold calm in Hcalm.
  destruct l; cbn [control_label game_label] in Hcalm; try specialize (Hcalm eq_refl) as Hg; pose proof E as E0; cbn in E.
  - by apply (good_CdDone disc m).
  - by apply (good_CdCallback disc m).
  - by apply (good_CdFill disc m).
  - destruct (m_cd m) eqn:Ecd; try done. injection E as <-.
    assert (Hf : filling (m_cd m) (m_cl m) f).
    { destruct (g_phase _ _ J) as [P1 P2 P3 P4|P1 P2 P3|P1 P2 P3 P4|P1 P2 P3 P4 P5|P1 P2 P3 P4 P5 P6|k' l' ptr' P1 P2 P3 P4 P5 P6 P7 P8]; rewrite Ecd in *; try done.
      - by destruct (P3 f).
      - destruct P3 as [[? ?]|[? _]]; [|done]. by left.
      - destruct P4 as [[? ?]|[? _]]; [|done]. by left.
      - by destruct P5. }
    assert (Hs : StStat (m_d m) <> 0) by (intros Hs; destruct (g_off _ _ J Hs) as (_ & ? & _); congruence).
    assert (Hn : no_fill_cl (m_cl m)) by (destruct Hf as [[_ ?]|[? _]]; [done|congruence]).
    pose proof (fill_ends disc m (m_cl m) f J Hf Hn (g_call _ _ J) Hs) as K.
    unfold start_fill_rest, fill_rest in *. destruct f; [destruct (m_drive m)|]; exact K.
  - by rewrite (g_alarm _ _ J) in E.
  - destruct (m_cl m) eqn:Ecl; try done. destruct (negb _); [|done]. injection E as <-. by apply good_stop.
  - destruct (m_cl m) eqn:Ecl; try done. destruct (Z.eqb_spec (StStat (m_d m)) 0) as [Hs|Hs]; cbn in E; injection E as <-; [|by apply good_stop].
    pose proof J as [R L O H N P B C F G]. split; cbn; try done.
    + by apply (phase_cl disc _ _ _ (m_cb m) _ _ CL_idle); [rewrite <- Ecl at 1| | |].
    + intros _. destruct (F Hs) as (? & ? & ? & _). split_and!; try done. right. right. by eexists.
  - destruct (m_cl m) eqn:Ecl; try done. destruct (m_drive m) eqn:Ed; [|done]. injection E as <-. by apply good_synced.
  - destruct (m_cl m) eqn:Ecl; try done. injection E as <-. by apply good_start.
  - destruct (m_cl m) eqn:Ecl; try done. destruct (Z.eqb_spec (StStat (m_d m)) 0) as [Hs|Hs]; [done|]. injection E as <-. by apply good_pause.
  - destruct (m_cl m) eqn:Ecl; try done. destruct (Z.eqb_spec (StStat (m_d m)) 0) as [Hs|Hs]; [done|]. injection E as <-.
    replace (put_cb m true) with (put_ev (put_cb m true) (m_ev m)) by done. by apply good_move; rewrite ?Ecl.
  - by apply (good_ClFill disc m).
  - by apply (good_ClIssue disc m).
  - apply (good_read m m' (Read n mode)); eauto.
  - apply (good_read m m' ReadWait); eauto.
  - apply (good_read m m' ReadIop); eauto.
  - apply (good_read m m' ReadEE); eauto 6.
  - apply (good_read m m' DmaEnd); eauto 7.
  - destruct (m_cl m) eqn:Ecl; try done. destruct (m_drive m) eqn:Ed; [|done]. injection E as <-.
    destruct Hg as [Hcd _]. pose proof J as [R L O H N P B C F G]. split; cbn; try done.
    + rewrite Ecl. rewrite Ecl in P. rewrite Hcd in *. destruct P as [P1 P2 P3 P4|P1 P2 P3|P1 P2 P3 P4|P1 P2 P3 P4 P5|P1 P2 P3 P4 P5 P6|k' l' ptr' P1 P2 P3 P4 P5 P6 P7 P8]; try done.
      * by apply ph_idle.
      * by destruct P3 as [[? _]|[_ ?]].
      * by destruct P4 as [[? _]|[_ ?]].
      * congruence.
      * by apply ph_arrived.
Qed.

Lemma good_initial m : initial m -> good disc m.
Proof.
  intros (bufmax & bankmax & d & Ei & Hs & Hl & Hdr & Hcb & Hal & Hcd & Hcl & Ho & Hb & Hm).
  destruct (sceCdStInit_ring bufmax bankmax d (m_d m) Hb Hm Ei) as (R & S & I & _).
  split; try done.
  - rewrite Ho. intros i Hi. cbn in Hi. lia.
  - intros i Hi. lia.
  - apply ph_idle; rewrite ?Hdr, ?Hcd, ?Hcl; done.
  - by rewrite Hcl.
  - intros _. split_and!; try done. by left.
Qed.

Definition reached m : Prop := reachable initial (calm_step disc) m.

Lemma reached_good m : reached m -> good disc m.
Proof. apply invariant_reachable; [apply good_initial|apply good_step]. Qed.

(** C6. Let the reading thread, the alarm and the steps of the game's calls that take
    sectors (a read's wait, its copy, the start and the end of its transfer) come in any
    order whatever, and let the game start, stop, pause, resume or fill a stream, or
    begin a read of its own, only while the reading thread waits and no read of the
    game's own is in flight. Then the sectors the game got since it started the stream
    are the sectors of the disc from the start sector on, in order and without gap or
    repetition, and the ring holds the ones that follow, never more than the buffer's
    size. The condition on the controlling steps is needed: [game_read_race] and
    [restart_race] below break the order without it. *)
Theorem stream_in_order m :
  reached m ->
  m_out m = sectors disc (m_from m) (Z.of_nat (length (m_out m))) /\
  0 <= StStreamed (m_d m) <= StBufmax (m_d m) /\
  copied (m_d m) (m_buf m) (StStreamed m.(m_d)) = sectors disc (m_from m + Z.of_nat (length (m_out m))) (StStreamed (m_d m)).
Proof.
  intros Hr. pose proof (reached_good m Hr) as [R L O H N P B C F G]. pose proof R as (_ & _ & Hst & _). split_and!; try lia.
  - apply list_eq. intros i. destruct (Nat.lt_ge_cases i (length (m_out m))) as [Hi|Hi].
    + replace i with (Z.to_nat (Z.of_nat i)) by lia. rewrite O, sectors_lookup by lia. done.
    + rewrite !lookup_ge_None_2; [done|by rewrite sectors_length, Nat2Z.id|done].
  - destruct (copied_spec (m_d m) (m_buf m) (StStreamed (m_d m)) R L) as [Hlen Hd]; [lia|]. rewrite Z.min_id in *.
    apply list_eq. intros i. destruct (Nat.lt_ge_cases i (Z.to_nat (StStreamed (m_d m)))) as [Hi|Hi].
    + replace i with (Z.to_nat (Z.of_nat i)) by lia. rewrite Hd, H, sectors_lookup by lia. unfold disc_from. do 3 f_equal. lia.
    + rewrite !lookup_ge_None_2; [done|by rewrite sectors_length|by rewrite Hlen].
Qed.
End Steps.

(** ** The stream keeps reading *)

Section Live.
Context {A : Type} (disc : Z -> A).
Implicit Types (m : machine (A := A)).

(** the game runs when the thread waits, and does not read from a paused stream *)
Definition eager_step (m m' : machine) : Prop :=
  exists l, (game_label l = true -> calm_now m) /\ (forall n mode, l = Read n mode -> m_cb m = true) /\ step disc l m = Some m'.
Definition eagerly_reached m : Prop := reachable initial eager_step m.

Definition busy_cl (cl : cl_pc) : Prop :=
  match cl with CL_refill | CL_read _ _ | CL_copy _ _ | CL_dma _ _ _ _ _ => True | _ => False end.

Definition under_way m : Prop :=
  (exists lsn n ptr, m_drive m = Reading lsn n ptr true) \/ m_cd m = CD_signalled \/ exists f, filling (m_cd m) (m_cl m) f.

Record live m : Prop := {
  l_paused : StStat (m_d m) <> 0 -> m_cb m = false ->
    StIsReading (m_d m) = 0 /\ m_cd m = CD_wait /\ (m_cl m = CL_idle \/ exists k, m_cl m = CL_sync k);
  l_rest : StStat (m_d m) <> 0 -> m_cb m = true -> StIsReading (m_d m) = 0 -> space (m_d m) -> m_cd m = CD_refill \/ busy_cl (m_cl m);
  l_reading : StStat (m_d m) <> 0 -> m_cb m = true -> StIsReading (m_d m) <> 0 -> under_way m;
  l_full : StStat (m_d m) <> 0 -> filling (m_cd m) (m_cl m) F_full -> ~ space (m_d m);
}.

Lemma not_under_way m : calm_now m -> no_fill_cl (m_cl m) -> m_drive m = Idle -> ~ under_way m.
Proof.
  intros [Hcd _] Hcl Hd [(lsn & n & ptr & E)|[E|[f Hf]]]; [congruence|congruence|].
  apply (filling_not _ _ _ Hf Hcl). auto.
Qed.

(** for a game at rest a bank is under way exactly when the drive reads it *)
Lemma under_way_rest m dr' : calm_now m -> no_fill_cl (m_cl m) -> dr' = m_drive m -> under_way m ->
  exists lsn n ptr, dr' = Reading lsn n ptr true.
Proof.
  intros [Hcd _] Hcl -> [H|[E|[f Hf]]]; [done|congruence|]. destruct (filling_not _ _ _ Hf Hcl). auto.
Qed.

Lemma bank_done_stat (d : SteamingData) : StStat (bank_done d) = StStat d /\ StIsReading (bank_done d) = 0.
Proof. unfold bank_done. destruct (Z.eqb_spec (StIsReading d) 0); done. Qed.

(** while the thread runs, the game is in no fill *)
Lemma thread_runs m : good disc m -> m_cd m <> CD_wait -> no_fill_cl (m_cl m).
Proof.
  intros J Hcd. destruct (g_phase _ _ J) as [P1 P2 P3 P4|P1 P2 P3|P1 P2 P3 P4|P1 P2 P3 P4 P5|P1 P2 P3 P4 P5 P6|k l' ptr' P1 P2 P3 P4 P5 P6 P7 P8]; try done.
  - by destruct P3 as [[_ ?]|[? _]].
  - by destruct P4 as [[_ ?]|[? _]].
Qed.

(** a fill that found no bank free *)
Lemma alloc_full d : match AllocBank d with Some ptr => F_issue ptr | None => F_full end = F_full -> ~ space d.
Proof. rewrite AllocBank_spec. by case_decide. Qed.

Lemma live_thread m m' l : good disc m -> live m -> game_label l = false -> step disc l m = Some m' -> live m'.
Proof.
  intros J [Hp Hr Hu Hfull] Hl E. destruct l; try done; cbn in E.
  - destruct (m_cd m) eqn:Ecd; try done. destruct (m_drive m) as [|lsn n ptr st] eqn:Ed; [done|]. injection E as <-.
    split; cbn.
    + intros Hs Hcb. destruct (Hp Hs Hcb) as (H1 & H2 & H3). by rewrite Hcb.
    + intros Hs Hcb Hi Hsp. destruct (Hr Hs Hcb Hi Hsp) as [?|?]; [done|by right].
    + intros Hs Hcb Hi. rewrite Hcb. by right; left.
    + intros Hs [[E1 E2]|[_ E2]]; [by destruct (m_cb m)|]. apply Hfull; [done|]. by right.
  - destruct (m_cd m) eqn:Ecd; try done. destruct (bank_done_stat (m_d m)) as [E1 E2].
    destruct (m_cb m) eqn:Ecb; injection E as <-; split; cbn; rewrite ?E1, ?E2, ?Ecb; try done; auto.
    + by intros _ [[? _]|[? _]].
    + intros Hs _. by destruct (Hp Hs eq_refl) as (_ & ? & _).
    + intros Hs _. by destruct (Hp Hs eq_refl) as (_ & ? & _).
  - destruct (m_cd m) eqn:Ecd; try done. pose proof (g_phase _ _ J) as P. rewrite Ecd in P. destruct (phase_refill _ _ _ _ _ _ P) as [Hi Hcl].
    unfold fill_section in E. rewrite Hi in E. cbn in E. injection E as <-. split; cbn; try done.
    + intros Hs Hcb. by destruct (Hp Hs Hcb) as (_ & ? & _).
    + intros Hs Hcb _. right. right. eexists. by left.
    + intros _ [[E' _]|[? _]]; [|done]. injection E' as E'. exact (alloc_full _ E').
  - destruct (m_cd m) eqn:Ecd; try done. injection E as <-.
    assert (Hpf : StStat (m_d m) <> 0 -> m_cb m = false -> False) by (intros Hs Hcb; by destruct (Hp Hs Hcb) as (_ & ? & _)).
    unfold start_fill_rest, fill_rest. pose proof (g_busy _ _ J) as Hb. rewrite Ecd in Hb. rewrite Hb by done.
    pose proof (thread_runs m J ltac:(by rewrite Ecd)) as Hcl.
    destruct f as [ptr|]; split; cbn; try done; try (intros Hs Hcb; by destruct (Hpf Hs Hcb));
      try (by intros _ [[? _]|[_ ?]]; [|destruct (Hcl F_full)]).
    + intros Hs Hcb Hi Hsp. pose proof (g_phase _ _ J) as P. rewrite Ecd in P.
      destruct P as [P1 P2 P3 P4|P1 P2 P3|P1 P2 P3 P4|P1 P2 P3 P4 P5|P1 P2 P3 P4 P5 P6|k l' ptr' P1 P2 P3 P4 P5 P6 P7 P8]; try done; try (rewrite P1 in Hi; lia); by destruct (P3 (F_issue ptr)).
    + intros Hs Hcb Hi. left. by eexists _, _, _.
    + intros Hs Hcb _ Hsp. pose proof (g_phase _ _ J) as P. rewrite Ecd in P.
      destruct P as [P1 P2 P3 P4|P1 P2 P3|P1 P2 P3 P4|P1 P2 P3 P4 P5|P1 P2 P3 P4 P5 P6|k l' ptr' P1 P2 P3 P4 P5 P6 P7 P8]; try done.
      * by destruct (P3 F_full).
      * by destruct (Hfull Hs P3).
      * by destruct P4 as [[? _]|[? _]].
      * by destruct P5.
  - by rewrite (g_alarm _ _ J) in E.
Qed.

(** moves of the game inside its read, and its resume: it will fill before it rests *)
Lemma live_busy m m' :
  live m -> calm_now m -> busy_cl (m_cl m') -> m_cd m' = m_cd m -> m_drive m' = m_drive m -> no_fill_cl (m_cl m) ->
  StIsReading (m_d m') = StIsReading (m_d m) -> (StStat (m_d m') <> 0 -> m_cb m' = true) ->
  (StIsReading (m_d m) <> 0 -> StStat (m_d m') <> 0 -> StStat (m_d m) <> 0 /\ m_cb m = true) -> live m'.
Proof.
  intros [Hp Hr Hu Hfull] Hc Hb Ecd Ed Hcl Er Hcb Hst. split.
  - intros Hs Hf. rewrite Hcb in Hf; done.
  - intros _ _ _ _. by right.
  - intros Hs _ Hi. rewrite Er in Hi. destruct (Hst Hi Hs) as [H1 H2].
    left. rewrite Ed. apply (under_way_rest m); auto.
  - intros _ [[E _]|[_ E]]; [|by rewrite E in Hb]. destruct Hc; congruence.
Qed.

Lemma live_off m : StStat (m_d m) = 0 -> live m.
Proof. intros H. split; intros; congruence. Qed.

Lemma live_game m m' l :
  good disc m -> live m -> calm_now m -> game_label l = true -> (forall n mode, l = Read n mode -> m_cb m = true) ->
  step disc l m = Some m' -> live m'.
Proof.
  intros J Hl Hc Hg Hrd E. pose proof Hl as [Hp Hr Hu Hfull]. pose proof Hc as [Hcd Hng].
  assert (Hon : (forall k, m_cl m <> CL_sync k) -> m_cl m <> CL_idle -> StStat (m_d m) <> 0 -> m_cb m = true).
  { intros H1 H2 Hs. destruct (m_cb m) eqn:Ecb; [done|]. by destruct (Hp Hs eq_refl) as (_ & _ & [?|[k ?]]); [|destruct (H1 k)]. }
  destruct l; try done; cbn in E; destruct (m_cl m) as [|k|l'| |f|todo mode'|todo mode'|todo mode' r rd d0] eqn:Ecl; try done.
  - destruct (negb _); [|done]. injection E as <-. by apply live_off.
  - destruct (Z.eqb_spec (StStat (m_d m)) 0); cbn in E; injection E as <-; by apply live_off.
  - destruct (m_drive m) eqn:Ed; [|done]. injection E as <-. split; cbn.
    + intros Hs Hcb. destruct (Hp Hs Hcb) as (H1 & H2 & _). split_and!; try done. left. destruct k; [|done].
      exfalso. apply Hs. pose proof (g_call _ _ J) as C. by rewrite Ecl in C.
    + intros Hs Hcb Hi Hsp. destruct (Hr Hs Hcb Hi Hsp) as [?|[]]. by left.
    + intros Hs Hcb Hi. exfalso. apply (not_under_way m); try done; [by rewrite Ecl|auto].
    + intros _ [[? _]|[_ E]]; [congruence|by destruct k].
  - injection E as <-. pose proof (g_call _ _ J) as C. rewrite Ecl in C. cbn in C.
    destruct (g_off _ _ J C) as (_ & _ & Hi & _). apply (live_busy m); cbn; try done; rewrite ?Ecl, ?Hi; try done.
  - destruct (negb _); [|done]. injection E as <-. split; cbn; try done.
    + intros _ _. split_and!; try done. right. by eexists.
    + intros _ [[? _]|[_ ?]]; congruence.
  - destruct (Z.eqb_spec (StStat (m_d m)) 0) as [Hs|Hs]; [done|]. injection E as <-.
    apply (live_busy m); cbn; try done; [by rewrite Ecl|]. intros Hi _. split; [done|].
    destruct (m_cb m) eqn:Ecb; [done|]. by destruct (Hp Hs eq_refl) as (? & _).
  - assert (Hcl : no_fill_cl (m_cl m)) by (by rewrite Ecl).
    assert (Hb : StStat (m_d m) <> 0 -> m_cb m = true) by (by apply Hon).
    unfold fill_section in E. destruct (Z.eqb_spec (StIsReading (m_d m)) 0) as [Hi|Hi]; cbn in E; injection E as <-; split; cbn; try done.
    + intros Hs Hcb. by rewrite Hb in Hcb.
    + intros Hs Hcb _. right. right. eexists. right. done.
    + intros _ [[? _]|[_ E]]; [congruence|]. injection E as E. exact (alloc_full _ E).
    + intros Hs Hcb. by rewrite Hb in Hcb.
    + intros Hs Hcb _. left. apply (under_way_rest m); try done; by auto.
    + intros _ [[? _]|[_ ?]]; congruence.
  - injection E as <-. assert (Hs : StStat (m_d m) <> 0) by (apply (on_stat disc m J); rewrite Ecl; done).
    pose proof (Hon ltac:(done) ltac:(done) Hs) as Hcb.
    unfold start_fill_rest, fill_rest. pose proof (g_phase _ _ J) as P. rewrite Ecl, Hcd in P.
    assert (Hd : m_drive m = Idle /\ (f = F_full -> ~ space (m_d m)) /\ StIsReading (m_d m) = 1).
    { destruct P as [P1 P2 P3 P4|P1 P2 P3|P1 P2 P3 P4|P1 P2 P3 P4 P5|P1 P2 P3 P4 P5 P6|k l' ptr' P1 P2 P3 P4 P5 P6 P7 P8]; try done.
      - by destruct (P4 f).
      - split_and!; try done. intros ->. apply (Hfull Hs). right. done.
      - split_and!; try done. intros ->. by destruct P4 as [[? _]|[_ ?]].
      - by destruct (P5 f).
      - by destruct (P6 f). }
    destruct Hd as (Hd & Hf & Hi). destruct f as [ptr|]; [rewrite Hd|]; split; cbn; try done; try congruence.
    + intros _ _ _. left. by eexists _, _, _.
    + intros _ [[? _]|[_ ?]]; congruence.
    + intros _ _ _ Hsp. by destruct (Hf eq_refl).
    + intros _ [[? _]|[_ ?]]; congruence.
  - destruct (Z.eqb_spec (StStat (m_d m)) 0) as [Hs|Hs]; [done|]. injection E as <-. specialize (Hrd _ _ eq_refl).
    apply (live_busy m); cbn; try done; [by destruct (0 <? n)|by rewrite Ecl].
  - destruct (m_ev m); [|done]. injection E as <-. apply (live_busy m); cbn; try done; [by rewrite Ecl|by apply Hon|]. intros _ Hs. split; [done|by apply Hon].
  - destruct (ReadSectors (m_d m) (m_buf m) todo) as [[r data] d'] eqn:Er. injection E as <-.
    assert (Ed : StIsReading d' = StIsReading (m_d m) /\ StStat d' = StStat (m_d m)).
    { unfold ReadSectors in Er. destruct (copies (m_d m) todo) as [[[n1 r1] n2] r2]. by injection Er as _ _ <-. }
    destruct Ed as [E1 E2]. apply (live_busy m); cbn; rewrite ?E2; try done; [|by rewrite Ecl|by apply Hon|].
    + unfold next_read. by destruct ((mode' =? 0) || (todo - r <=? 0)).
    + intros _ Hs. split; [done|by apply Hon].
  - destruct (ReadSectorsEE_begin (m_d m) todo) as [r rd]. injection E as <-.
    apply (live_busy m); cbn; try done; [by rewrite Ecl|by apply Hon|]. intros _ Hs. split; [done|by apply Hon].
  - injection E as <-. apply (live_busy m); cbn; try done; [|by rewrite Ecl|by apply Hon|].
    + unfold next_read. by destruct ((mode' =? 0) || (todo - r <=? 0)).
    + intros _ Hs. split; [done|by apply Hon].
  - destruct (m_drive m) eqn:Ed; [|done]. injection E as <-. split; cbn; rewrite ?Ecl; try done.
    + intros Hs Hcb Hi. exfalso. apply (not_under_way m); try done; [by rewrite Ecl|auto].
Qed.

Lemma eager_calm m m' : eager_step m m' -> calm_step disc m m'.
Proof. intros (l & H1 & _ & H2). exists l. split; [|done]. intros Hc. apply H1. by destruct l. Qed.

Lemma eager_live m : eagerly_reached m -> good disc m /\ live m.
Proof.
  intros H. apply (invariant_reachable initial eager_step (fun m => good disc m /\ live m)); [| |done].
  - intros s Hs. split; [by apply good_initial|]. apply live_off. by destruct Hs as (? & ? & ? & ? & ? & ?).
  - intros s s' [J L] Hs. split; [by apply (good_step disc s), eager_calm|]. destruct Hs as (l & Hc & Hr & E).
    destruct (game_label l) eqn:El; [|by apply (live_thread s s' l)]. apply (live_game s s' l); try done. by apply Hc.
Qed.
End Live.

(** ** What a game can rely on *)

Section Rely.
Context {A : Type} (disc : Z -> A).
Implicit Types (m : machine (A := A)).

Lemma reading_rest m : good disc m -> calm_now m -> m_cl m = CL_idle -> under_way m ->
  m_drive m = Reading (Stlsn (m_d m)) (StBanksize (m_d m)) (StWritePtr (m_d m)) true /\ StIsReading (m_d m) = 1.
Proof.
  intros J Hc Ecl Hu. destruct (under_way_rest m (m_drive m) Hc) as (lsn & n & ptr & E); [by rewrite Ecl|done|done|].
  destruct (g_phase _ _ J) as [P1 P2 P3 P4|P1 P2 P3|P1 P2 P3 P4|P1 P2 P3 P4 P5|P1 P2 P3 P4 P5 P6|k l' ptr' P1 P2 P3 P4 P5 P6 P7 P8]; try congruence.
  done.
Qed.

(** A running stream never stalls while there is room: when a game that does not
    read a paused stream is between two calls and a bank is free, the drive is reading
    the next bank into it, and as soon as it is done the reading thread adds the bank
    to the ring and turns to the next one. *)
Theorem stream_keeps_reading m :
  eagerly_reached disc m -> calm_now m -> StStat (m_d m) <> 0 -> m_cb m = true -> m_cl m = CL_idle -> space (m_d m) ->
  m_drive m = Reading (Stlsn (m_d m)) (StBanksize (m_d m)) (StWritePtr (m_d m)) true /\
  exists m', run disc [CdDone; CdCallback; CdFill; CdIssue] m = Some m' /\
    StStreamed (m_d m') = StStreamed (m_d m) + StBanksize (m_d m) /\ m_cd m' = CD_wait.
Proof.
  intros Hr Hc Hs Hcb Hcl Hsp. destruct (eager_live disc m Hr) as [J [_ Hrest Hrd]].
  assert (Hi : StIsReading (m_d m) <> 0).
  { intros Hi. destruct (Hrest Hs Hcb Hi Hsp) as [H|H]; [destruct Hc; congruence|by rewrite Hcl in H]. }
  destruct (reading_rest m J Hc Hcl (Hrd Hs Hcb Hi)) as [Hd H1]. split; [done|].
  destruct Hc as [Hcd _]. destruct (bank_done_ring (m_d m) (g_ring _ _ J) Hsp Hi) as (R' & S' & I' & _).
  cbn [run]. cbn [step mbind option_bind]. rewrite Hcd, Hd, Hcb. cbn [mbind option_bind m_cd m_cb m_cl put_cd put_d].
  unfold fill_section. cbn [m_d put_d put_cd]. rewrite I'. cbn [Z.eqb negb].
  destruct (AllocBank (with_reading (bank_done (m_d m)) 1)) eqn:Ea; cbn; eexists; (split; [done|]); cbn; rewrite S'; done.
Qed.

(** A blocking read for more sectors than the ring holds, called while the drive
    rests because no bank is free, never returns: it takes what there is, waits for
    the event that the end of a bank would set, and no thread has a step left (the
    refill comes only after the loop). *)
Theorem blocking_read_hangs m n mode :
  reached disc m -> m_cd m = CD_wait -> m_cl m = CL_idle -> m_drive m = Idle -> StStat (m_d m) <> 0 ->
  StStreamed (m_d m) < n -> mode <> 0 ->
  exists m', run disc [Read n mode; ReadWait; ReadIop] m = Some m' /\ m_cl m' = CL_read (n - StStreamed (m_d m)) mode /\
    forall l, step disc l m' = None.
Proof.
  intros Hr Hcd Hcl Hd Hs Hn Hm. pose proof (reached_good disc m Hr) as J. pose proof (g_ring _ _ J) as R.
  pose proof R as (_ & _ & Hst & _).
  assert (E : run disc [Read n mode; ReadWait; ReadIop] m =
    Some (put_cl (put_out (put_d (put_ev m false) (released (m_d m) (StStreamed (m_d m)))) (m_from m)
      (m_out m ++ copied (m_d m) (m_buf m) n)) (CL_read (n - StStreamed (m_d m)) mode))).
  { cbn [run step mbind option_bind]. rewrite Hcl. replace (StStat (m_d m) =? 0) with false by lia. replace (0 <? n) with true by lia.
    cbn [negb mbind option_bind m_cl m_ev m_d m_buf m_from m_out put_cl put_ev].
    rewrite ReadSectors_spec by (done || lia). replace (n `min` StStreamed (m_d m)) with (StStreamed (m_d m)) by lia.
    unfold next_read. replace (mode =? 0) with false by lia. replace (n - StStreamed (m_d m) <=? 0) with false by lia. done. }
  eexists. split; [exact E|]. split; [done|]. intros l. destruct l; cbn; rewrite ?Hcd, ?Hd, ?(g_alarm _ _ J); done.
Qed.
End Rely.

(** ** Examples *)

(** the labels of a game that keeps to the rules, as checks *)
Definition calm_nowb {A} (m : machine (A := A)) : bool :=
  match m_cd m with CD_wait => true | _ => false end && match m_drive m with Reading _ _ _ false => false | _ => true end.
Definition calmb {A} (l : label) (m : machine (A := A)) : bool := negb (control_label l) || calm_nowb m.
Definition eagerb {A} (l : label) (m : machine (A := A)) : bool :=
  (negb (game_label l) || calm_nowb m) && match l with Read _ _ => m_cb m | _ => true end.

Fixpoint run_if {A} (ok : label -> machine (A := A) -> bool) (disc : Z -> A) (ls : list label) (m : machine (A := A)) : option (machine (A := A)) :=
  match ls with [] => Some m | l :: r => if ok l m then m' ← step disc l m; run_if ok disc r m' else None end.
Definition run_eager {A} := run_if (A := A) eagerb.
Definition run_calm {A} := run_if (A := A) calmb.

Lemma calm_nowb_true {A} (m : machine (A := A)) : calm_nowb m = true -> calm_now m.
Proof.
  intros H. apply andb_prop in H as [H1 H2]. split; [by destruct (m_cd m)|]. intros lsn n ptr E. by rewrite E in H2.
Qed.

Lemma run_if_reached {A} ok (disc : Z -> A) R ls :
  (forall l m m', ok l m = true -> step disc l m = Some m' -> R m m') ->
  forall m m', reachable initial R m -> run_if ok disc ls m = Some m' -> reachable initial R m'.
Proof.
  intros HR. induction ls as [|l r IH]; intros m m' Hm; cbn [run_if]; [by intros [= <-]|].
  destruct (ok l m) eqn:Eb; [|done]. destruct (step disc l m) as [m1|] eqn:E; [|done]. cbn. apply IH.
  eapply reach_step; [done|]. by apply (HR l).
Qed.

Lemma run_eager_reached {A} (disc : Z -> A) ls m m' :
  eagerly_reached disc m -> run_eager disc ls m = Some m' -> eagerly_reached disc m'.
Proof.
  apply run_if_reached. intros l m1 m2 Eb E. apply andb_prop in Eb as [Eb1 Eb2]. exists l. split_and!; [| |done].
  - intros Hg. rewrite Hg in Eb1. by apply calm_nowb_true.
  - by intros n mode ->.
Qed.

Lemma run_calm_reached {A} (disc : Z -> A) ls m m' :
  reached disc m -> run_calm disc ls m = Some m' -> reached disc m'.
Proof.
  apply run_if_reached. intros l m1 m2 Eb E. exists l. split; [|done].
  intros Hg. unfold calmb in Eb. rewrite Hg in Eb. by apply calm_nowb_true.
Qed.

Lemma eagerly_reached_reached {A} (disc : Z -> A) m : eagerly_reached disc m -> reached disc m.
Proof. induction 1 as [s Hs|s s' _ IH Hs]; [by apply reach_init|]. eapply reach_step; [done|by apply eager_calm]. Qed.

(** a ring of two banks of two sectors, with the disc's sector numbers as contents *)
Definition ring4 : machine (A := Z) :=
  Machine (Streaming 4 2 2 0 0 0 0 0 0) [-1; -1; -1; -1] Idle false false false CD_wait CL_idle [] 0.

Lemma ring4_reached : eagerly_reached id ring4.
Proof.
  apply reach_init. exists 4, 2, (Streaming 0 0 0 0 0 0 0 0 0). split_and!; try done.
Qed.

Definition start100 : list label := [Start 100; StartNow; ClFill; ClIssue].
Definition one_bank : list label := [CdDone; CdCallback; CdFill; CdIssue].

(** started at sector 100, one bank read *)
Definition one_bank_in : machine (A := Z) := default ring4 (run_eager id (start100 ++ one_bank) ring4).
Definition two_banks_in : machine (A := Z) := default ring4 (run_eager id (start100 ++ one_bank ++ one_bank) ring4).
(** eight sectors taken in three reads: one between the end of a bank's read and its
    callback, with a transfer that goes on over the callback, one that takes what there
    is and waits for the next bank, over the end of the ring, and one from a full ring *)
Definition reads8 : list label :=
  start100 ++ one_bank ++
  [CdDone; Read 2 0; ReadWait; ReadEE; CdCallback; DmaEnd; CdFill; CdIssue; ClFill] ++
  [Read 3 1; ReadWait; ReadIop; CdDone; CdCallback; ReadWait; ReadEE; CdFill; CdIssue; DmaEnd; ClFill] ++
  one_bank ++ [Read 4 0; ReadWait; ReadIop; ClFill; ClIssue].
Definition read_on : machine (A := Z) := default ring4 (run_calm id reads8 ring4).

Lemma example_reached ls m : run_eager id ls ring4 = Some m -> eagerly_reached id m.
Proof. apply run_eager_reached, ring4_reached. Qed.

Lemma stream_in_order_witness :
  m_out read_on = [100; 101; 102; 103; 104; 105; 106; 107] /\ m_out read_on = sectors id 100 8.
Proof.
  split; [vm_compute; reflexivity|].
  destruct (stream_in_order id read_on) as [H _].
  - apply (run_calm_reached id reads8 ring4); [apply eagerly_reached_reached, ring4_reached|]. vm_compute. reflexivity.
  - rewrite H. vm_compute. reflexivity.
Defined.

Lemma stream_keeps_reading_witness :
  m_drive one_bank_in = Reading 102 2 2 true /\ exists m', run id one_bank one_bank_in = Some m' /\ StStreamed (m_d m') = 4.
Proof.
  destruct (stream_keeps_reading id one_bank_in) as [H (m' & E & S & _)].
  - apply (example_reached (start100 ++ one_bank)). vm_compute. reflexivity.
  - split; [vm_compute; reflexivity|]. intros lsn n ptr. vm_compute. congruence.
  - vm_compute. congruence.
  - vm_compute. reflexivity.
  - vm_compute. reflexivity.
  - vm_compute. congruence.
  - split; [rewrite H; vm_compute; reflexivity|]. exists m'. split; [exact E|]. rewrite S. vm_compute. reflexivity.
Defined.

Lemma blocking_read_hangs_witness :
  exists m', run id [Read 5 1; ReadWait; ReadIop] two_banks_in = Some m' /\ forall l, step id l m' = None.
Proof.
  destruct (blocking_read_hangs id two_banks_in 5 1) as (m' & E & _ & H).
  - apply eagerly_reached_reached, (example_reached (start100 ++ one_bank ++ one_bank)). vm_compute. reflexivity.
  - vm_compute. reflexivity.
  - vm_compute. reflexivity.
  - vm_compute. reflexivity.
  - vm_compute. congruence.
  - vm_compute. reflexivity.
  - congruence.
  - exists m'. by split.
Defined.

(** with a read of the game's own in flight, the callback of that read counts a bank
    that was only allocated: the game gets old sectors a second time *)
Lemma game_read_race :
  exists ls m', run id ls two_banks_in = Some m' /\ m_from m' = 100 /\ m_out m' = [100; 101; 102; 103; 100; 101].
Proof.
  exists [GameRead 7 1; Read 2 0; ReadWait; ReadIop; ClFill; CdDone; CdCallback; CdFill; CdIssue; ClIssue; Read 4 0; ReadWait; ReadIop].
  eexists. split; [vm_compute; reflexivity|]. vm_compute. repeat split.
Qed.

(** a bank read while the stream is paused is never counted: after the resume nothing
    reads, with the whole ring free *)
Lemma paused_read_starves :
  exists ls m', run id ls two_banks_in = Some m' /\ m_cb m' = true /\ StStreamed (m_d m') = 0 /\
    StIsReading (m_d m') = 1 /\ m_drive m' = Idle /\ m_cl m' = CL_idle /\ m_cd m' = CD_wait.
Proof.
  exists [Pause; Synced; Read 4 0; ReadWait; ReadIop; ClFill; ClIssue; CdDone; Resume; ClFill]. eexists.
  split; [vm_compute; reflexivity|]. vm_compute. repeat split.
Qed.

(** a game whose priority is above the reading thread's can stop and start the stream
    between the end of a read and its callback, which then counts a bank of the new
    stream that was not read *)
Lemma restart_race :
  exists ls m', run id ls ring4 = Some m' /\ m_from m' = 50 /\ m_out m' = [100; 101].
Proof.
  exists (start100 ++ [CdDone; Start 50; Synced; StartNow; ClFill; CdCallback; CdFill; CdIssue; ClIssue; Read 2 0; ReadWait; ReadIop]).
  eexists. split; [vm_compute; reflexivity|]. vm_compute. repeat split.
Qed.
