(* ===== verification/CdDisc.v ===== *)
(** * CdDisc: the sectors of a disc image, their cache and byte reads

    modules/iopcore/cdvdman/cdvdman.c below the drive: the sector reader of the storage
    device, the sector cache used for compressed images, and [read_raw_data], which
    reads any byte range of the image file. *)
From S2P Require Import Prelude CLib.

(** ** Bytes of an image *)

(** [n] bytes from byte [off] of an image given by its 2048-byte sectors *)
Definition disc_bytes (sec : Z -> bytes) (off : Z) (n : Z) : bytes :=
  map (fun i => nth (Z.to_nat ((off + Z.of_nat i) mod 2048)) (sec ((off + Z.of_nat i) / 2048)) 0) (seq 0 (Z.to_nat n)).

Lemma disc_bytes_length sec off n : length (disc_bytes sec off n) = Z.to_nat n.
Proof. unfold disc_bytes. by rewrite length_map, length_seq. Qed.

Lemma disc_bytes_lookup sec off n i : (i < Z.to_nat n)%nat ->
  disc_bytes sec off n !! i = Some (nth (Z.to_nat ((off + Z.of_nat i) mod 2048)) (sec ((off + Z.of_nat i) / 2048)) 0).
Proof. intros H. unfold disc_bytes. change (map ?f ?l) with (f <$> l). by rewrite list_lookup_fmap, lookup_seq_lt. Qed.

Lemma disc_bytes_app sec off n m : 0 <= n -> 0 <= m ->
  disc_bytes sec off (n + m) = disc_bytes sec off n ++ disc_bytes sec (off + n) m.
Proof.
  intros Hn Hm. apply list_eq. intros i. destruct (Nat.lt_ge_cases i (Z.to_nat n)).
  - rewrite lookup_app_l by (rewrite disc_bytes_length; lia). rewrite !disc_bytes_lookup by lia. done.
  - rewrite lookup_app_r by (rewrite disc_bytes_length; lia). rewrite disc_bytes_length.
    destruct (Nat.lt_ge_cases i (Z.to_nat (n + m))).
    + rewrite !disc_bytes_lookup by lia. replace (off + n + Z.of_nat (i - Z.to_nat n)) with (off + Z.of_nat i) by lia. done.
    + rewrite !lookup_ge_None_2; [done|rewrite disc_bytes_length; lia|rewrite disc_bytes_length; lia].
Qed.

Lemma disc_bytes_slice sec off n k m : 0 <= k -> 0 <= m -> k + m <= n ->
  take (Z.to_nat m) (drop (Z.to_nat k) (disc_bytes sec off n)) = disc_bytes sec (off + k) m.
Proof.
  intros Hk Hm H. replace n with (k + (m + (n - k - m))) by lia. rewrite disc_bytes_app, disc_bytes_app by lia.
  rewrite drop_app_length', take_app_length' by (by rewrite disc_bytes_length). done.
Qed.

(** a whole sector *)
Lemma disc_bytes_sector sec lsn : 0 <= lsn -> length (sec lsn) = 2048%nat -> disc_bytes sec (lsn * 2048) 2048 = sec lsn.
Proof.
  intros Hl Hs. apply list_eq. intros i. destruct (Nat.lt_ge_cases i 2048).
  - rewrite disc_bytes_lookup by lia. rewrite (Z.add_comm (lsn * 2048)), Z.mod_add, Z.mod_small, Z.div_add, Z.div_small by lia.
    rewrite Nat2Z.id, Z.add_0_l. symmetry. destruct (nth_lookup_or_length (sec lsn) i 0); [done|lia].
  - rewrite !lookup_ge_None_2; [done|by rewrite Hs|by rewrite disc_bytes_length].
Qed.

(** the sectors of a file, and its bytes through them *)
Definition file_sec (f : bytes) (l : Z) : bytes := take 2048 (drop (Z.to_nat (l * 2048)) f).

Lemma file_sec_bytes f off n : 0 <= off -> 0 <= n -> off + n <= Z.of_nat (length f) ->
  disc_bytes (file_sec f) off n = take (Z.to_nat n) (drop (Z.to_nat off) f).
Proof.
  intros Ho Hn Hl. apply list_eq. intros i. destruct (Nat.lt_ge_cases i (Z.to_nat n)).
  - rewrite disc_bytes_lookup, lookup_take_lt, lookup_drop by lia. symmetry.
    pose proof (Z.div_mod (off + Z.of_nat i) 2048 ltac:(lia)). pose proof (Z.mod_pos_bound (off + Z.of_nat i) 2048 ltac:(lia)).
    assert (0 <= (off + Z.of_nat i) / 2048) by (apply Z.div_pos; lia).
    destruct (lookup_lt_is_Some_2 f (Z.to_nat off + i)) as [x Hx]; [lia|]. rewrite Hx. f_equal. symmetry.
    apply nth_lookup_Some. unfold file_sec. rewrite lookup_take_lt, lookup_drop by lia. rewrite <- Hx. f_equal. lia.
  - rewrite !lookup_ge_None_2; [done|rewrite length_take; lia|rewrite disc_bytes_length; lia].
Qed.

(** ** The device and the cache *)

(** [DeviceReadSectors]: the error code, the bytes put at the start of the buffer and
    the device after it *)
Class DiscDevice (W : Type) := DeviceReadSectors : W -> Z -> Z -> Z * bytes * W.

Definition SCECdErNO : Z := 0.

Section Disc.
Context {W : Type} `{!DiscDevice W}.

(** the state of cdvdman.c and zso.c that a read of sectors uses: the device, the
    cache, the index of a compressed image and the block buffer *)
Record cdstate := CdState {
  c_dev : W;
  MAX_SECTOR_CACHE : Z;
  sector_cache : bytes;
  cur_sector : Z;
  ziso_align : Z;
  ziso_total_block : Z;
  ziso_idx_start_block : Z;
  ziso_idx_cache : list Z;
  ziso_tmp_buf : bytes;
}.

Definition with_dev (s : cdstate) (w : W) : cdstate :=
  CdState w (MAX_SECTOR_CACHE s) (sector_cache s) (cur_sector s) (ziso_align s) (ziso_total_block s) (ziso_idx_start_block s) (ziso_idx_cache s) (ziso_tmp_buf s).
Definition with_cache (s : cdstate) (cache : bytes) (cur : Z) : cdstate :=
  CdState (c_dev s) (MAX_SECTOR_CACHE s) cache cur (ziso_align s) (ziso_total_block s) (ziso_idx_start_block s) (ziso_idx_cache s) (ziso_tmp_buf s).
Definition with_tmp (s : cdstate) (tmp : bytes) : cdstate :=
  CdState (c_dev s) (MAX_SECTOR_CACHE s) (sector_cache s) (cur_sector s) (ziso_align s) (ziso_total_block s) (ziso_idx_start_block s) (ziso_idx_cache s) tmp.
Definition with_index (s : cdstate) (start : Z) (idx : list Z) : cdstate :=
  CdState (c_dev s) (MAX_SECTOR_CACHE s) (sector_cache s) (cur_sector s) (ziso_align s) (ziso_total_block s) start idx (ziso_tmp_buf s).

(** [DeviceReadSectors] on the state *)
Definition read_device (s : cdstate) (lsn n : Z) : Z * bytes * cdstate :=
  let '(e, d, w) := DeviceReadSectors (c_dev s) lsn n in (e, d, with_dev s w).

(** the read of the cache ignores its error *)
Definition DeviceReadSectorsCached (s : cdstate) (lsn sectors : Z) : Z * bytes * cdstate :=
  if sectors <? MAX_SECTOR_CACHE s then
    let s :=
      if (cur_sector s =? 2 ^ 64 - 1) || (lsn <? cur_sector s) || (MAX_SECTOR_CACHE s <? u64 (u64 (lsn + sectors) - cur_sector s)) then
        let '(_, d, s) := read_device s lsn (MAX_SECTOR_CACHE s) in with_cache s (blit (sector_cache s) 0 d) lsn
      else s in
    (SCECdErNO, take (Z.to_nat (2048 * sectors)) (drop (Z.to_nat ((lsn - cur_sector s) * 2048)) (sector_cache s)), s)
  else read_device s lsn sectors.

(** [ReadSectors] of [read_raw_data]: the index is read past the cache *)
Definition raw_reader (to_idx : bool) (s : cdstate) (lsn n : Z) : Z * bytes * cdstate :=
  if to_idx then read_device s lsn n else DeviceReadSectorsCached s lsn n.

(** one block through [ziso_tmp_buf]: [r] bytes of it from [pos] *)
Definition raw_block (to_idx : bool) (s : cdstate) (lba : Z) (pos r : Z) : bytes * cdstate :=
  let '(_, d, s) := raw_reader to_idx s lba 1 in
  let s := with_tmp s (blit (ziso_tmp_buf s) 0 d) in
  (take (Z.to_nat r) (drop (Z.to_nat pos) (ziso_tmp_buf s)), s).

(** [read_raw_data] into a buffer *)
Definition read_raw_data (to_idx : bool) (s : cdstate) (addr : bytes) (size offset shift : Z) : bytes * cdstate :=
  let lba := offset / Z.shiftr 2048 shift in
  let pos := Z.land (u32 (Z.shiftl offset shift)) 2047 in
  let '(addr, at_, size, lba, s) :=
    if negb (pos =? 0) then
      let r := if size <? 2048 - pos then size else 2048 - pos in
      let '(d, s) := raw_block to_idx s lba pos r in
      (blit addr 0 d, r, size - r, lba + 1, s)
    else (addr, 0, size, lba, s) in
  let n_blocks := size / 2048 + (if size mod 2048 =? 0 then 0 else 1) in
  let '(addr, at_, size, lba, s) :=
    if 1 <? n_blocks then
      let r := 2048 * (n_blocks - 1) in
      let '(_, d, s) := raw_reader to_idx s lba (n_blocks - 1) in
      (blit addr (Z.to_nat at_) d, at_ + r, size - r, lba + (n_blocks - 1), s)
    else (addr, at_, size, lba, s) in
  if negb (size =? 0) then
    let '(d, s) := raw_block to_idx s lba 0 size in (blit addr (Z.to_nat at_) d, s)
  else (addr, s).

(** ** What they read *)

Section Reads.
Context (sec : Z -> bytes).

(** the device gives the sectors of the image *)
Definition reliable : Prop := forall w lsn n, exists w', DeviceReadSectors w lsn n = (SCECdErNO, disc_bytes sec (lsn * 2048) (n * 2048), w').

(** the cache holds the sectors from [cur_sector] on *)
Definition cache_ok (s : cdstate) : Prop :=
  0 <= MAX_SECTOR_CACHE s <= 255 /\ length (sector_cache s) = Z.to_nat (MAX_SECTOR_CACHE s * 2048) /\
  length (ziso_tmp_buf s) = 2048%nat /\
  (cur_sector s = 2 ^ 64 - 1 \/ (0 <= cur_sector s < 2 ^ 40 /\ sector_cache s = disc_bytes sec (cur_sector s * 2048) (MAX_SECTOR_CACHE s * 2048))).

(** what a read leaves alone *)
Definition same_zso (s s' : cdstate) : Prop :=
  ziso_align s' = ziso_align s /\ ziso_total_block s' = ziso_total_block s /\
  ziso_idx_start_block s' = ziso_idx_start_block s /\ ziso_idx_cache s' = ziso_idx_cache s.

#[local] Instance same_zso_refl : Reflexive same_zso.
Proof. by intros s. Qed.
#[local] Instance same_zso_trans : Transitive same_zso.
Proof. intros a b c (H1 & H2 & H3 & H4) (G1 & G2 & G3 & G4). split_and!; congruence. Qed.

Context (Hdev : reliable).

Lemma read_device_ok s lsn n : exists s', read_device s lsn n = (SCECdErNO, disc_bytes sec (lsn * 2048) (n * 2048), s') /\
  same_zso s s' /\ (cache_ok s -> cache_ok s').
Proof. unfold read_device. destruct (Hdev (c_dev s) lsn n) as [w' ->]. by eexists. Qed.

Lemma blit_whole {A} (b src : list A) : length src = length b -> blit b 0 src = src.
Proof. intros H. unfold blit. rewrite drop_ge by lia. by rewrite app_nil_r. Qed.

Lemma cached_read_ok s lsn n :
  cache_ok s -> 0 <= lsn -> 0 <= n -> lsn + n < 2 ^ 40 ->
  exists s', DeviceReadSectorsCached s lsn n = (SCECdErNO, disc_bytes sec (lsn * 2048) (n * 2048), s') /\ cache_ok s' /\ same_zso s s'.
Proof.
  intros (Hm & Hl & Ht & Hc) Hlsn Hn Hlt. unfold DeviceReadSectorsCached.
  destruct (Z.ltb_spec n (MAX_SECTOR_CACHE s)) as [Hsm|Hbig].
  2:{ destruct (read_device_ok s lsn n) as (s' & E & Hz & Hk). exists s'. split; [done|]. split; [by apply Hk|done]. }
  set (miss := (cur_sector s =? 2 ^ 64 - 1) || _ || _). destruct miss eqn:Em.
  - unfold read_device. destruct (Hdev (c_dev s) lsn (MAX_SECTOR_CACHE s)) as [w' ->]. cbn [cur_sector sector_cache with_cache with_dev].
    rewrite blit_whole by (rewrite disc_bytes_length; lia).
    eexists. split.
    { do 2 f_equal. rewrite Z.sub_diag, disc_bytes_slice by lia. f_equal; lia. }
    split; [|done]. split_and!; cbn; try done; try lia; [by rewrite disc_bytes_length|]. right. split; [lia|done].
  - unfold miss in Em. b2p. destruct Hc as [?|[Hcur Hcache]]; [lia|].
    assert (Hpos : 0 <= lsn - cur_sector s /\ lsn + n - cur_sector s <= MAX_SECTOR_CACHE s).
    { rewrite (u64_id (lsn + n)), u64_id in * by lia. lia. }
    exists s. split; [|split; [split_and!; try done; try lia; by right|done]]. do 2 f_equal. rewrite Hcache, disc_bytes_slice by lia. f_equal; lia.
Qed.

Lemma cached_reader s lsn n :
  cache_ok s -> 0 <= lsn -> 0 <= n -> lsn + n < 2 ^ 40 -> forall to_idx,
  exists s', raw_reader to_idx s lsn n = (SCECdErNO, disc_bytes sec (lsn * 2048) (n * 2048), s') /\ cache_ok s' /\ same_zso s s'.
Proof.
  intros Hs H1 H2 H3 [|]; cbn [raw_reader].
  - destruct (read_device_ok s lsn n) as (s' & E & Hz & Hk). exists s'. split; [done|]. split; [by apply Hk|done].
  - by apply cached_read_ok.
Qed.

Lemma raw_block_ok to_idx s lba pos r :
  cache_ok s -> 0 <= lba < 2 ^ 39 -> 0 <= pos -> 0 <= r -> pos + r <= 2048 ->
  exists s', raw_block to_idx s lba pos r = (disc_bytes sec (lba * 2048 + pos) r, s') /\ cache_ok s' /\ same_zso s s'.
Proof.
  intros Hs Hl Hp Hr Hle. unfold raw_block. destruct (cached_reader s lba 1 Hs ltac:(lia) ltac:(lia) ltac:(lia) to_idx) as (s' & -> & Hk & Hz).
  rewrite Z.mul_1_l. eexists. pose proof Hk as (K1 & K2 & K3 & K4).
  cbn [ziso_tmp_buf with_tmp]. rewrite blit_whole by (by rewrite disc_bytes_length, K3).
  rewrite disc_bytes_slice by lia. split; [done|]. split; [|done]. split_and!; cbn; try done; try lia.
Qed.

(** one more piece of a range behind the bytes already read *)
Lemma blit_more addr off k d m :
  0 <= k -> 0 <= m -> Z.of_nat (length addr) >= k + m -> d = disc_bytes sec (off + k) m ->
  blit (disc_bytes sec off k ++ drop (Z.to_nat k) addr) (Z.to_nat k) d = disc_bytes sec off (k + m) ++ drop (Z.to_nat (k + m)) addr.
Proof.
  intros Hk Hm Hl ->. rewrite <- (take_drop (Z.to_nat m) (drop (Z.to_nat k) addr)), drop_drop.
  replace (Z.to_nat k + Z.to_nat m)%nat with (Z.to_nat (k + m)) by lia.
  rewrite (blit_at (disc_bytes sec off k)) by (rewrite ?disc_bytes_length, ?length_take, ?length_drop; lia).
  by rewrite app_assoc, <- disc_bytes_app by lia.
Qed.

Lemma raw_offset offset shift : 0 <= offset -> 0 <= shift <= 11 ->
  offset / Z.shiftr 2048 shift = offset * 2 ^ shift / 2048 /\
  Z.land (u32 (Z.shiftl offset shift)) 2047 = (offset * 2 ^ shift) mod 2048.
Proof.
  intros Ho Hs. rewrite Z.shiftr_div_pow2, Z.shiftl_mul_pow2 by lia.
  assert (E : 2048 = 2 ^ (11 - shift) * 2 ^ shift) by (rewrite <- Z.pow_add_r by lia; by replace (11 - shift + shift) with 11 by lia).
  assert (P : 0 < 2 ^ shift) by (apply Z.pow_pos_nonneg; lia). assert (P2 : 0 < 2 ^ (11 - shift)) by (apply Z.pow_pos_nonneg; lia). split.
  - rewrite E at 1. rewrite Z.div_mul by lia. rewrite E. by rewrite Z.div_mul_cancel_r by lia.
  - change 2047 with (Z.ones 11). rewrite Z.land_ones by lia. unfold u32. change (2 ^ 11) with 2048.
    change (2 ^ 32) with (2097152 * 2048). rewrite <- Znumtheory.Zmod_div_mod; [done|lia|lia|]. by exists 2097152.
Qed.

Lemma read_raw_data_spec to_idx s addr size offset shift :
  cache_ok s -> 0 <= shift <= 11 -> 0 <= offset < 2 ^ 32 -> 0 <= size < 2 ^ 32 -> size <= Z.of_nat (length addr) ->
  exists s', read_raw_data to_idx s addr size offset shift =
    (disc_bytes sec (offset * 2 ^ shift) size ++ drop (Z.to_nat size) addr, s') /\ cache_ok s' /\ same_zso s s'.
Proof.
  intros Hs Hsh Hoff Hsz Hl. unfold read_raw_data. cbv zeta. destruct (raw_offset offset shift ltac:(lia) Hsh) as [-> ->].
  set (off := offset * 2 ^ shift).
  assert (Hb : 0 <= off < 2 ^ 43).
  { assert (0 < 2 ^ shift <= 2 ^ 11) by (split; [apply Z.pow_pos_nonneg; lia|apply Z.pow_le_mono_r; lia]). unfold off. nia. }
  pose proof (Z.div_mod off 2048 ltac:(lia)) as Hdm. pose proof (Z.mod_pos_bound off 2048 ltac:(lia)) as Hmb.
  assert (Hdb : 0 <= off / 2048 < 2 ^ 32) by (split; [apply Z.div_pos; lia|apply Z.div_lt_upper_bound; lia]).
  revert Hdm Hmb Hdb. generalize (off / 2048) (off mod 2048). intros lba pos Hdm Hmb Hdb. clearbody off.
  (* the first block *)
  assert (S1 : exists k l1 s1,
    (if negb (pos =? 0) then
      let r := if size <? 2048 - pos then size else 2048 - pos in
      let '(d, s) := raw_block to_idx s lba pos r in (blit addr 0 d, r, size - r, lba + 1, s)
    else (addr, 0, size, lba, s)) = (disc_bytes sec off k ++ drop (Z.to_nat k) addr, k, size - k, l1, s1) /\
    0 <= k <= size /\ (k = size \/ off + k = l1 * 2048) /\ 0 <= l1 <= 2 ^ 32 /\ cache_ok s1 /\ same_zso s s1).
  { destruct (Z.eqb_spec pos 0) as [E|E]; cbn [negb].
    - exists 0, lba, s. split; [by rewrite Z.sub_0_r|]. split_and!; try done; lia.
    - set (r := if size <? 2048 - pos then size else 2048 - pos).
      assert (Hr : 0 <= r <= size /\ pos + r <= 2048 /\ (r = size \/ r = 2048 - pos)) by (unfold r; destruct (Z.ltb_spec size (2048 - pos)); lia).
      destruct (raw_block_ok to_idx s lba pos r Hs) as (s1 & -> & Hk & Hz); [lia..|].
      exists r, (lba + 1), s1. replace (lba * 2048 + pos) with off by lia. cbv zeta.
      pose proof (blit_more addr off 0 (disc_bytes sec off r) r ltac:(lia) ltac:(lia) ltac:(lia) ltac:(by rewrite Z.add_0_r)) as B.
      change (blit addr 0 (disc_bytes sec off r) = disc_bytes sec off (0 + r) ++ drop (Z.to_nat (0 + r)) addr) in B. rewrite B. split; [done|]. split_and!; try done; lia. }
  cbv zeta in S1. destruct S1 as (k & l1 & s1 & -> & Hk & Ha & Hl1 & Hs1 & Hz1). cbv beta iota zeta.
  pose proof (Z.div_mod (size - k) 2048 ltac:(lia)) as Hdm2. pose proof (Z.mod_pos_bound (size - k) 2048 ltac:(lia)) as Hmb2.
  set (nb := (size - k) / 2048 + _).
  assert (Hnb : 0 <= nb /\ size - k <= 2048 * nb /\ ((size - k = 0 /\ nb = 0) \/ 2048 * (nb - 1) < size - k)).
  { unfold nb. destruct (Z.eqb_spec ((size - k) mod 2048) 0); lia. }
  clearbody nb. clear Hdm2 Hmb2.
  (* the blocks in the middle *)
  assert (S2 : exists k2 l2 s2,
    (if 1 <? nb then
      let r := 2048 * (nb - 1) in
      let '(_, d, s) := raw_reader to_idx s1 l1 (nb - 1) in
      (blit (disc_bytes sec off k ++ drop (Z.to_nat k) addr) (Z.to_nat k) d, k + r, size - k - r, l1 + (nb - 1), s)
    else (disc_bytes sec off k ++ drop (Z.to_nat k) addr, k, size - k, l1, s1)) =
      (disc_bytes sec off k2 ++ drop (Z.to_nat k2) addr, k2, size - k2, l2, s2) /\
    0 <= k2 <= size /\ size - k2 <= 2048 /\ (k2 = size \/ off + k2 = l2 * 2048) /\ 0 <= l2 <= 2 ^ 34 /\ cache_ok s2 /\ same_zso s s2).
  { destruct (Z.ltb_spec 1 nb).
    - destruct (cached_reader s1 l1 (nb - 1) Hs1 ltac:(lia) ltac:(lia) ltac:(lia) to_idx) as (s2 & -> & Hk2 & Hz2).
      exists (k + 2048 * (nb - 1)), (l1 + (nb - 1)), s2. cbv zeta.
      rewrite (blit_more addr off k _ (2048 * (nb - 1))) by (try lia; f_equal; lia). split; [f_equal; f_equal; f_equal; lia|].
      split_and!; try done; try lia. by etrans.
    - exists k, l1, s1. split_and!; try done; lia. }
  cbv zeta in S2. destruct S2 as (k2 & l2 & s2 & -> & Hk2 & Hle & Ha2 & Hl2 & Hs2 & Hz2). cbv beta iota zeta.
  (* the last block *)
  destruct (Z.eqb_spec (size - k2) 0) as [E|E]; cbn [negb].
  - exists s2. replace k2 with size by lia. by split.
  - destruct (raw_block_ok to_idx s2 l2 0 (size - k2) Hs2) as (s3 & -> & Hs3 & Hz3); [lia..|].
    exists s3. rewrite (blit_more addr off k2 _ (size - k2)) by (try lia; f_equal; lia).
    replace (k2 + (size - k2)) with size by lia. split; [done|]. split; [done|]. by etrans.
Qed.
End Reads.
End Disc.
