(* ===== verification/Zso.v ===== *)
(** * Zso: compressed disc images (modules/isofs/zso.c)

    A ZSO image is a header, a table of block offsets and the blocks, LZ4-compressed or
    raw. [ziso_read_sector] reads the compressed data of all requested sectors to the
    end of the caller's buffer and unpacks them towards it from the front. The LZ4
    decoder is a parameter. *)
From S2P Require Import Prelude CLib CdDisc.

Definition ZISO_IDX_MAX_ENTRIES : Z := 257.
Definition ZISO_header_size : Z := 24.

(** the 32-bit words of a block of memory *)
Definition words (n : nat) (b : bytes) : list Z := map (fun j => le_val (take 4 (drop (4 * j) b))) (seq 0 n).

Section Zso.
Context {W : Type} `{!DiscDevice W}.
Implicit Types (s : cdstate (W := W)) (addr : bytes).

(** [ziso_init] on the header read from the image *)
Definition ziso_init s (header : bytes) : cdstate :=
  let lo := le_val (take 4 (drop 8 header)) in
  let hi := le_val (take 4 (drop 12 header)) in
  CdState (c_dev s) (MAX_SECTOR_CACHE s) (sector_cache s) (cur_sector s) (nth 21 header 0)
    (u32 (Z.lor (Z.shiftr lo 11) (Z.shiftl (Z.land hi 0x7ff) 21))) (-1) (ziso_idx_cache s) (ziso_tmp_buf s).

Definition idx_at s (i : Z) : Z := nth (Z.to_nat i) (ziso_idx_cache s) 0.

(** [LZ4_decompress_fast] of a 2048-byte block: what it writes, from what lies at the
    start of its source *)
Context (LZ4_decompress_fast : bytes -> bytes).

(** the loop over the sectors: [at_] and [c] are the places of [addr] and [c_buff] in
    the buffer *)
Fixpoint ziso_loop (n : nat) s addr (cur_block at_ c : Z) : bytes * cdstate :=
  match n with
  | O => (addr, s)
  | S n' =>
    let b_offset := idx_at s (cur_block - ziso_idx_start_block s) in
    let b_size := idx_at s (cur_block - ziso_idx_start_block s + 1) in
    let topbit := Z.land b_offset 0x80000000 in
    let b_size := u32 (Z.shiftl (u32 (Z.land b_size 0x7FFFFFFF - Z.land b_offset 0x7FFFFFFF)) (ziso_align s)) in
    let r := if b_size <? 2048 then b_size else 2048 in
    let block := take (Z.to_nat r) (drop (Z.to_nat c) addr) in
    let '(addr, s) :=
      if topbit =? 0 then
        let s := with_tmp s (blit (ziso_tmp_buf s) 0 block) in
        (blit addr (Z.to_nat at_) (LZ4_decompress_fast (ziso_tmp_buf s)), s)
      else (blit addr (Z.to_nat at_) block, s) in
    ziso_loop n' s addr (cur_block + 1) (at_ + 2048) (c + b_size)
  end.

(** the refresh of the index cache *)
Definition refresh_index s (lsn count : Z) : cdstate :=
  let start := ziso_idx_start_block s in
  if (start <? 0) || (lsn <? start) || (u32 (start + ZISO_IDX_MAX_ENTRIES - 1) <=? u32 (lsn + count)) then
    let '(b, s) := read_raw_data true s (word_bytes (ziso_idx_cache s)) (ZISO_IDX_MAX_ENTRIES * 4) (u32 (lsn * 4 + ZISO_header_size)) 0 in
    with_index s lsn (words 257 b)
  else s.

(** [ziso_read_sector]: the sectors read and the buffer; [None] when the compressed data
    would begin in front of the buffer *)
Definition ziso_read_sector s addr (lsn count : Z) : option (Z * bytes * cdstate) :=
  if ziso_total_block s <=? lsn then Some (0, addr, s)
  else
    let count := if ziso_total_block s <? u32 (lsn + count) then ziso_total_block s - lsn else count in
    let s := refresh_index s lsn count in
    let o_start := Z.land (idx_at s (lsn - ziso_idx_start_block s)) 0x7FFFFFFF in
    let o_end := Z.land (idx_at s (lsn + count - ziso_idx_start_block s)) 0x7FFFFFFF in
    let compressed_size := u32 (Z.shiftl (u32 (o_end - o_start)) (ziso_align s)) in
    let c := count * 2048 - compressed_size in
    if c <? 0 then None
    else
      let '(d, s) := read_raw_data false s (drop (Z.to_nat c) addr) compressed_size o_start (ziso_align s) in
      let '(addr, s) := ziso_loop (Z.to_nat count) s (take (Z.to_nat c) addr ++ d) lsn 0 c in
      Some (count, addr, s).

(** ** Images *)

Definition ofs (x : Z) : Z := Z.land x 0x7FFFFFFF.

(** the file [sec] is an image of the sectors [out] *)
Record zso_image (sec : Z -> bytes) (align total : Z) (idx : Z -> Z) (out : Z -> bytes) : Prop := {
  z_align : 0 <= align <= 11;
  z_total : 0 < total < 2 ^ 29;
  z_idx i : 0 <= i <= total -> 0 <= idx i < 2 ^ 32 /\ disc_bytes sec (ZISO_header_size + 4 * i) 4 = le_bytes 4 (idx i);
  z_size i : 0 <= i < total -> ofs (idx i) <= ofs (idx (i + 1)) /\ (ofs (idx (i + 1)) - ofs (idx i)) * 2 ^ align <= 2048;
  z_block i : 0 <= i < total ->
    let size := (ofs (idx (i + 1)) - ofs (idx i)) * 2 ^ align in
    let block := disc_bytes sec (ofs (idx i) * 2 ^ align) size in
    if Z.land (idx i) 0x80000000 =? 0 then forall junk, length (block ++ junk) = 2048%nat -> LZ4_decompress_fast (block ++ junk) = out i
    else size = 2048 /\ block = out i;
  z_out i : length (out i) = 2048%nat;
}.

Definition zso_state (sec : Z -> bytes) (align total : Z) (idx : Z -> Z) s : Prop :=
  cache_ok sec s /\ ziso_align s = align /\ ziso_total_block s = total /\ length (ziso_idx_cache s) = 257%nat /\
  (ziso_idx_start_block s = -1 \/
   (0 <= ziso_idx_start_block s < total /\
    forall j, 0 <= j < 257 -> ziso_idx_start_block s + j <= total -> idx_at s j = idx (ziso_idx_start_block s + j))).

Context (sec : Z -> bytes) (align total : Z) (idx : Z -> Z) (out : Z -> bytes).
Context (Hdev : reliable sec) (Himg : zso_image sec align total idx out).

Lemma words_lookup n b j : (j < n)%nat -> nth j (words n b) 0 = le_val (take 4 (drop (4 * j) b)).
Proof.
  intros H. apply nth_lookup_Some. unfold words. change (map ?f ?l) with (f <$> l). by rewrite list_lookup_fmap, lookup_seq_lt.
Qed.


(** the index cache covers the sectors after a refresh *)
Lemma refresh_ok s lsn count :
  zso_state sec align total idx s -> 0 <= lsn < total -> 0 <= count <= 256 -> lsn + count <= total ->
  let s' := refresh_index s lsn count in
  zso_state sec align total idx s' /\ 0 <= ziso_idx_start_block s' <= lsn /\ lsn + count - ziso_idx_start_block s' <= 256.
Proof.
  intros (Hc & Ha & Ht & Hl & Hi) Hlsn Hcnt Hle. destruct Himg as [A T I S B O]. unfold refresh_index.
  rewrite (u32_id (lsn + count)), (u32_id (lsn * 4 + _)) by (unfold ZISO_header_size; lia).
  destruct ((_ <? 0) || _ || _) eqn:Em.
  - destruct (read_raw_data_spec sec Hdev true s (word_bytes (ziso_idx_cache s)) (ZISO_IDX_MAX_ENTRIES * 4) (lsn * 4 + ZISO_header_size) 0)
      as (s1 & -> & Hc1 & Hz); [done|lia|unfold ZISO_header_size; lia|unfold ZISO_IDX_MAX_ENTRIES; lia|rewrite word_bytes_length, Hl; done|].
    destruct Hz as (Z1 & Z2 & Z3 & Z4). cbv zeta.
    change (ziso_idx_start_block (with_index s1 lsn ?l)) with lsn. split; [|lia].
    unfold zso_state. cbn [ziso_align ziso_total_block ziso_idx_cache ziso_idx_start_block with_index].
    split_and!; try congruence; [done|done|]. right. split; [lia|]. intros j Hj Hjt. unfold idx_at. cbn [ziso_idx_cache with_index].
    rewrite words_lookup by lia. rewrite Z.pow_0_r, Z.mul_1_r. rewrite (drop_ge (word_bytes _)) by (rewrite word_bytes_length, Hl; done). rewrite app_nil_r.
    replace (4 * Z.to_nat j)%nat with (Z.to_nat (4 * j)) by lia. change 4%nat with (Z.to_nat 4).
    rewrite disc_bytes_slice by (unfold ZISO_IDX_MAX_ENTRIES; lia). replace (lsn * 4 + ZISO_header_size + 4 * j) with (ZISO_header_size + 4 * (lsn + j)) by lia.
    destruct (I (lsn + j)) as [I1 I2]; [lia|]. rewrite I2. by apply le_val_bytes.
  - cbn in Em. b2p. destruct Hi as [?|[Hi1 Hi2]]; [lia|]. rewrite u32_id in * by (unfold ZISO_IDX_MAX_ENTRIES; lia).
    unfold ZISO_IDX_MAX_ENTRIES in *. split; [|lia]. split_and!; try done. by right.
Qed.

Lemma ofs_range i : 0 <= ofs i < 2 ^ 31.
Proof.
  unfold ofs. change 0x7FFFFFFF with (Z.ones 31). rewrite Z.land_ones by lia. apply Z.mod_pos_bound. lia.
Qed.

(** where block [i] starts in the image *)
Definition place (i : Z) : Z := ofs (idx i) * 2 ^ align.

Lemma place_step i : 0 <= i < total -> 0 <= place i /\ 0 <= place (i + 1) - place i <= 2048.
Proof.
  intros Hi. pose proof (z_size _ _ _ _ _ Himg i Hi) as [S1 S2]. pose proof (z_align _ _ _ _ _ Himg) as A.
  assert (P : 0 < 2 ^ align) by (apply Z.pow_pos_nonneg; lia). pose proof (ofs_range (idx i)). unfold place. nia.
Qed.

Lemma place_span n : forall i, 0 <= i -> i + Z.of_nat n <= total -> 0 <= place (i + Z.of_nat n) - place i <= 2048 * Z.of_nat n.
Proof.
  induction n as [|n IH]; intros i H0 Hi; [rewrite Z.add_0_r; lia|].
  pose proof (place_step i ltac:(lia)) as [_ H1]. specialize (IH (i + 1) ltac:(lia) ltac:(lia)).
  replace (i + Z.of_nat (S n)) with (i + 1 + Z.of_nat n) by lia. lia.
Qed.

(** the size the code computes *)
Lemma block_size i j : 0 <= i -> i <= j -> place j - place i < 2 ^ 32 -> 0 <= ofs (idx j) - ofs (idx i) ->
  u32 (Z.shiftl (u32 (ofs (idx j) - ofs (idx i))) align) = place j - place i.
Proof.
  intros H0 Hij Hlt Hle. pose proof (z_align _ _ _ _ _ Himg) as A. pose proof (ofs_range (idx i)). pose proof (ofs_range (idx j)).
  rewrite (u32_id (ofs _ - _)) by lia. rewrite Z.shiftl_mul_pow2 by lia.
  assert (P : 0 < 2 ^ align) by (apply Z.pow_pos_nonneg; lia). unfold place in *. rewrite u32_id by nia. ring.
Qed.

Lemma idx_cached s i : zso_state sec align total idx s -> 0 <= ziso_idx_start_block s <= i -> i - ziso_idx_start_block s <= 256 -> i <= total ->
  idx_at s (i - ziso_idx_start_block s) = idx i.
Proof.
  intros (_ & _ & _ & _ & [H|[_ H]]) H1 H2 H3; [lia|]. rewrite H by lia. f_equal. lia.
Qed.

Lemma zso_state_tmp s tmp : zso_state sec align total idx s -> length tmp = 2048%nat -> zso_state sec align total idx (with_tmp s tmp).
Proof. intros ((H1 & H2 & H3 & H4) & H5 & H6 & H7 & H8) Ht. by split_and!. Qed.

(** one block: what is written and the new block buffer *)
Lemma unpack s addr outs mid rest cur :
  zso_state sec align total idx s -> 0 <= ziso_idx_start_block s <= cur -> cur + 1 - ziso_idx_start_block s <= 256 -> cur < total ->
  let b := place (cur + 1) - place cur in
  addr = outs ++ mid ++ disc_bytes sec (place cur) b ++ rest -> (2048 <= length mid + Z.to_nat b)%nat ->
  exists s' mid', forall n,
    ziso_loop (S n) s addr cur (Z.of_nat (length outs)) (Z.of_nat (length outs + length mid)) =
    ziso_loop n s' ((outs ++ out cur) ++ mid' ++ rest) (cur + 1) (Z.of_nat (length (outs ++ out cur))) (Z.of_nat (length (outs ++ out cur) + length mid')) /\
    zso_state sec align total idx s' /\ ziso_idx_start_block s' = ziso_idx_start_block s /\ (length mid' + 2048 = length mid + Z.to_nat b)%nat.
Proof.
  intros Hs Hst Hle Hlt b Ea Hlen. pose proof (place_step cur ltac:(lia)) as [Hp Hb]. fold b in Hb.
  pose proof (z_size _ _ _ _ _ Himg cur ltac:(lia)) as [So _]. pose proof (z_out _ _ _ _ _ Himg cur) as Lo.
  set (blk := disc_bytes sec (place cur) b) in *.
  assert (Lb : length blk = Z.to_nat b) by apply disc_bytes_length.
  set (s' := if Z.land (idx cur) 0x80000000 =? 0 then with_tmp s (blit (ziso_tmp_buf s) 0 blk) else s).
  pose proof Hs as ((C1 & C2 & C3 & C4) & Hal & _).
  assert (Hs' : zso_state sec align total idx s' /\ ziso_idx_start_block s' = ziso_idx_start_block s).
  { unfold s'. destruct (_ =? 0); [|done]. split; [|done]. apply zso_state_tmp; [done|]. rewrite blit_length; lia. }
  exists s', (drop 2048 (mid ++ blk)). intros n. destruct Hs' as [Hs1 Hs2].
  split; [|split_and!; try done; rewrite length_drop, length_app; lia].
  cbn [ziso_loop]. rewrite (idx_cached s cur) by (done || lia).
  replace (cur - ziso_idx_start_block s + 1) with (cur + 1 - ziso_idx_start_block s) by lia.
  rewrite (idx_cached s (cur + 1)) by (done || lia). rewrite Hal. fold (ofs (idx cur)) (ofs (idx (cur + 1))).
  rewrite block_size by lia. fold b. assert (Er : (if b <? 2048 then b else 2048) = b) by (destruct (Z.ltb_spec b 2048); lia). rewrite Er.
  assert (Eblk : take (Z.to_nat b) (drop (Z.to_nat (Z.of_nat (length outs + length mid))) addr) = blk).
  { rewrite Nat2Z.id, Ea, (app_assoc outs), drop_app_length' by (by rewrite length_app). by apply take_app_length'. }
  rewrite Eblk.
  assert (Eb : forall w, w = out cur -> blit addr (Z.to_nat (Z.of_nat (length outs))) w = (outs ++ out cur) ++ drop 2048 (mid ++ blk) ++ rest).
  { intros w ->. rewrite Nat2Z.id, Ea, (app_assoc mid). rewrite <- (take_drop 2048 (mid ++ blk)) at 1. rewrite <- (app_assoc (take 2048 _)).
    rewrite blit_at; [by rewrite <- app_assoc|done|]. rewrite length_take, length_app, Lo. lia. }
  pose proof (z_block _ _ _ _ _ Himg cur ltac:(lia)) as Hblk. cbv zeta in Hblk.
  replace ((ofs (idx (cur + 1)) - ofs (idx cur)) * 2 ^ align) with b in Hblk by (unfold b, place; ring). fold (place cur) in Hblk. fold blk in Hblk.
  unfold s'. destruct (Z.land (idx cur) 0x80000000 =? 0).
  - rewrite Eb; [f_equal; rewrite ?length_app, ?length_drop, ?length_app; lia|]. cbn [ziso_tmp_buf with_tmp]. unfold blit. apply Hblk.
    rewrite length_app, length_drop. lia.
  - destruct Hblk as [Hb2 Hblk]. rewrite Eb by done. f_equal; rewrite ?length_app, ?length_drop, ?length_app; lia.
Qed.

Lemma loop_ok n : forall s addr outs mid tail cur,
  zso_state sec align total idx s -> 0 <= ziso_idx_start_block s <= cur -> cur + Z.of_nat n - ziso_idx_start_block s <= 256 ->
  cur + Z.of_nat n <= total ->
  let z := place (cur + Z.of_nat n) - place cur in
  addr = outs ++ mid ++ disc_bytes sec (place cur) z ++ tail -> (length mid + Z.to_nat z = n * 2048)%nat ->
  exists s', ziso_loop n s addr cur (Z.of_nat (length outs)) (Z.of_nat (length outs + length mid)) =
    (outs ++ disc_bytes out (cur * 2048) (Z.of_nat n * 2048) ++ tail, s') /\ zso_state sec align total idx s'.
Proof.
  induction n as [|n IH]; intros s addr outs mid tail cur Hs Hst Hle Ht z Ea Hl.
  { exists s. split; [|done]. cbn [ziso_loop]. assert (z = 0) as Ez by (unfold z; rewrite Z.add_0_r; lia). rewrite Ez in *.
    destruct mid; [|cbn in Hl; lia]. by rewrite Ea. }
  pose proof (place_step cur ltac:(lia)) as [Hp Hb]. pose proof (place_span n (cur + 1) ltac:(lia) ltac:(lia)) as Hsp.
  replace (cur + 1 + Z.of_nat n) with (cur + Z.of_nat (S n)) in Hsp by lia.
  assert (Ez : z = (place (cur + 1) - place cur) + (place (cur + Z.of_nat (S n)) - place (cur + 1))) by (unfold z; lia).
  rewrite Ez, disc_bytes_app in Ea by lia. rewrite <- app_assoc in Ea.
  replace (place cur + (place (cur + 1) - place cur)) with (place (cur + 1)) in Ea by lia.
  destruct (unpack s addr outs mid (disc_bytes sec (place (cur + 1)) (place (cur + Z.of_nat (S n)) - place (cur + 1)) ++ tail) cur)
    as (s' & mid' & H); try done; try lia.
  destruct (H n) as (-> & Hs' & Est & Hl').
  destruct (IH s' ((outs ++ out cur) ++ mid' ++ disc_bytes sec (place (cur + 1)) (place (cur + Z.of_nat (S n)) - place (cur + 1)) ++ tail)
    (outs ++ out cur) mid' tail (cur + 1)) as (s2 & -> & Hs2); try done; try lia.
  { by replace (cur + 1 + Z.of_nat n) with (cur + Z.of_nat (S n)) by lia. }
  { replace (cur + 1 + Z.of_nat n) with (cur + Z.of_nat (S n)) by lia. lia. }
  exists s2. split; [|done]. f_equal. rewrite <- app_assoc. f_equal. rewrite (app_assoc (out cur)). f_equal.
  replace (Z.of_nat (S n) * 2048) with (2048 + Z.of_nat n * 2048) by lia. rewrite disc_bytes_app by lia.
  rewrite disc_bytes_sector by (try lia; apply (z_out _ _ _ _ _ Himg)). f_equal. f_equal; lia.
Qed.

Lemma ziso_read_ok s addr lsn count :
  zso_state sec align total idx s -> 0 <= lsn -> 0 <= count <= 256 -> lsn + count < 2 ^ 32 ->
  count * 2048 <= Z.of_nat (length addr) ->
  let n := if total <=? lsn then 0 else count `min` (total - lsn) in
  exists s', ziso_read_sector s addr lsn count = Some (n, disc_bytes out (lsn * 2048) (n * 2048) ++ drop (Z.to_nat (n * 2048)) addr, s') /\
    zso_state sec align total idx s'.
Proof.
  intros Hs Hlsn Hcnt H32 Hl n. pose proof Hs as (_ & _ & Ht & _). unfold ziso_read_sector. rewrite Ht.
  destruct (Z.leb_spec total lsn) as [Hge|Hlt]; [by exists s|]. rewrite u32_id by lia.
  assert (En : (if total <? lsn + count then total - lsn else count) = n) by (unfold n; destruct (Z.ltb_spec total (lsn + count)); lia).
  rewrite En. assert (Hn : 0 <= n <= 256 /\ lsn + n <= total /\ n * 2048 <= Z.of_nat (length addr)) by (unfold n; lia).
  clearbody n. clear En. cbv zeta.
  destruct (refresh_ok s lsn n Hs) as (Hs1 & Hst & Hcov); [lia..|]. revert Hs1 Hst Hcov. generalize (refresh_index s lsn n). intros s1 Hs1 Hst Hcov.
  rewrite !idx_cached by (done || lia). fold (ofs (idx lsn)) (ofs (idx (lsn + n))).
  pose proof Hs1 as (Hc1 & Hal & Ht1 & Hlen1 & Hi1). rewrite Hal.
  pose proof (place_span (Z.to_nat n) lsn ltac:(lia) ltac:(lia)) as Hsp. rewrite Z2Nat.id in Hsp by lia.
  pose proof (z_align _ _ _ _ _ Himg) as A. assert (P : 0 < 2 ^ align) by (apply Z.pow_pos_nonneg; lia).
  assert (Ho : 0 <= ofs (idx (lsn + n)) - ofs (idx lsn)) by (unfold place in Hsp; nia).
  rewrite block_size by lia. set (z := place (lsn + n) - place lsn) in *.
  replace (n * 2048 - z <? 0) with false by lia.
  pose proof (ofs_range (idx lsn)) as Hor.
  destruct (read_raw_data_spec sec Hdev false s1 (drop (Z.to_nat (n * 2048 - z)) addr) z (ofs (idx lsn)) align) as (s2 & -> & Hc2 & Hz2);
    [done|lia|lia|lia|rewrite length_drop; lia|].
  fold (place lsn). rewrite drop_drop. replace (Z.to_nat (n * 2048 - z) + Z.to_nat z)%nat with (Z.to_nat (n * 2048)) by lia.
  destruct Hz2 as (Z1 & Z2 & Z3 & Z4).
  assert (Hs2 : zso_state sec align total idx s2).
  { split; [done|]. split_and!; try congruence. rewrite Z3. destruct Hi1 as [?|[? Hi1]]; [by left|right]. split; [done|]. unfold idx_at. by rewrite Z4. }
  destruct (loop_ok (Z.to_nat n) s2 (take (Z.to_nat (n * 2048 - z)) addr ++ disc_bytes sec (place lsn) z ++ drop (Z.to_nat (n * 2048)) addr)
    [] (take (Z.to_nat (n * 2048 - z)) addr) (drop (Z.to_nat (n * 2048)) addr) lsn) as (s3 & E & Hs3).
  - done.
  - rewrite Z3. lia.
  - rewrite Z3. lia.
  - lia.
  - rewrite Z2Nat.id by lia. done.
  - rewrite Z2Nat.id by lia. fold z. rewrite length_take. lia.
  - exists s3. rewrite length_take in E. cbn [length app Nat.add] in E. change (Z.of_nat 0) with 0 in E.
    replace (Z.of_nat (Z.to_nat (n * 2048 - z) `min` length addr)) with (n * 2048 - z) in E by lia. rewrite E, Z2Nat.id by lia. by split.
Qed.

(** C4. Reading sectors of a compressed image gives the sectors it was made from: from
    any cached index, for up to 256 sectors, with the compressed data unpacked in
    place in the caller's buffer and never overwritten before it is used; a read past
    the end is cut, and the index cache stays that of the image. *)
Theorem ziso_read_exact s addr lsn count :
  zso_state sec align total idx s -> 0 <= lsn -> 0 <= count <= 256 -> lsn + count < 2 ^ 32 ->
  count * 2048 <= Z.of_nat (length addr) ->
  let n := if total <=? lsn then 0 else count `min` (total - lsn) in
  exists s', ziso_read_sector s addr lsn count = Some (n, disc_bytes out (lsn * 2048) (n * 2048) ++ drop (Z.to_nat (n * 2048)) addr, s') /\
    zso_state sec align total idx s'.
Proof. apply ziso_read_ok. Qed.
End Zso.

(** ** An image of two sectors: one raw, one packed by a run-length stand-in for LZ4 *)

Definition run_length (b : bytes) : bytes := replicate 2048 (nth 0 b 0).
Definition demo_raw : bytes := map (fun i => Z.of_nat i mod 251) (seq 0 2048).
Definition demo_out (i : Z) : bytes := if i =? 0 then demo_raw else replicate 2048 7.
Definition demo_idx (i : Z) : Z := if i =? 0 then 0x80000009 else if i =? 1 then 521 else 522.
Definition demo_file : bytes :=
  replicate 24 0 ++ concat (map (le_bytes 4) [demo_idx 0; demo_idx 1; demo_idx 2]) ++ demo_raw ++ [7; 0; 0; 0] ++ replicate 4096 1.
Definition demo_sec : Z -> bytes := file_sec demo_file.

#[export] Instance demo_device : DiscDevice unit := fun _ lsn n => (SCECdErNO, disc_bytes demo_sec (lsn * 2048) (n * 2048), tt).

Lemma demo_reliable : reliable demo_sec.
Proof. intros w lsn n. by exists tt. Qed.

Lemma demo_bytes off n : 0 <= off -> 0 <= n -> off + n <= 6184 -> disc_bytes demo_sec off n = take (Z.to_nat n) (drop (Z.to_nat off) demo_file).
Proof. intros. apply file_sec_bytes; [done|done|]. assert (E : Z.of_nat (length demo_file) = 6184) by (vm_compute; reflexivity). lia. Qed.

Lemma demo_image : zso_image run_length demo_sec 2 2 demo_idx demo_out.
Proof.
  split; [lia|lia| | | |].
  - intros i Hi. unfold ZISO_header_size. rewrite demo_bytes by lia.
    assert (i = 0 \/ i = 1 \/ i = 2) as [-> | [-> | ->]] by lia; (split; [vm_compute; split; congruence|vm_compute; reflexivity]).
  - intros i Hi. assert (i = 0 \/ i = 1) as [-> | ->] by lia; vm_compute; split; congruence.
  - intros i Hi. cbv zeta. assert (i = 0 \/ i = 1) as [-> | ->] by lia.
    + assert (E : Z.land (demo_idx 0) 0x80000000 =? 0 = false) by (vm_compute; reflexivity). rewrite E.
      rewrite demo_bytes by (vm_compute; congruence). split; vm_compute; reflexivity.
    + assert (E : Z.land (demo_idx 1) 0x80000000 =? 0 = true) by (vm_compute; reflexivity). rewrite E.
      rewrite demo_bytes by (vm_compute; congruence).
      assert (E2 : take (Z.to_nat ((ofs (demo_idx (1 + 1)) - ofs (demo_idx 1)) * 2 ^ 2)) (drop (Z.to_nat (ofs (demo_idx 1) * 2 ^ 2)) demo_file) = [7; 0; 0; 0])
        by (vm_compute; reflexivity).
      rewrite E2. intros junk _. reflexivity.
  - intros i. unfold demo_out. destruct (i =? 0); [vm_compute; reflexivity|apply length_replicate].
Qed.

Definition demo_start : cdstate (W := unit) := CdState tt 2 (replicate 4096 0) (2 ^ 64 - 1) 2 2 (-1) (replicate 257 0) (replicate 2048 0).

Lemma demo_state : zso_state demo_sec 2 2 demo_idx demo_start.
Proof.
  split; [|split; [done|split; [done|split; [exact (length_replicate _ _)|by left]]]].
  split; [cbn; lia|]. split; [exact (length_replicate _ _)|]. split; [exact (length_replicate _ _)|by left].
Qed.

Lemma demo_two_sectors : disc_bytes demo_out (0 * 2048) (2 * 2048) = demo_raw ++ replicate 2048 7.
Proof.
  replace (2 * 2048) with (2048 + 2048) by lia. rewrite disc_bytes_app by lia.
  replace (0 * 2048 + 2048) with (1 * 2048) by lia. pose proof (z_out _ _ _ _ _ _ demo_image) as H.
  by rewrite !disc_bytes_sector by (lia || apply H).
Qed.

Lemma ziso_read_exact_witness :
  exists s', ziso_read_sector run_length demo_start (replicate 6200 5) 0 3 =
    Some (2, (demo_raw ++ replicate 2048 7) ++ replicate 2104 5, s').
Proof.
  destruct (ziso_read_exact run_length demo_sec 2 2 demo_idx demo_out demo_reliable demo_image demo_start (replicate 6200 5) 0 3) as (s' & E & _).
  - apply demo_state.
  - lia.
  - lia.
  - lia.
  - vm_compute. congruence.
  - exists s'. rewrite E. change (if 2 <=? 0 then 0 else 3 `min` (2 - 0)) with 2.
    rewrite demo_two_sectors, drop_replicate. reflexivity.
Defined.
