(* ===== verification/CdRead.v ===== *)
(** * CdRead: reading sectors of the disc (modules/iopcore/cdvdman/cdvdman.c, ncmd.c)

    The reader of the image is the device's own or the one of compressed images, chosen
    by a probe before the first read. [cdvdman_read_sectors] bounds a read by the media,
    splits it and unscrambles the logo; [cdvdman_read] serves unaligned buffers and the
    long sector formats. Positions on the disc are minutes, seconds and frames in BCD. *)
From S2P Require Import Prelude CLib CdDisc Zso.

Definition SCECdErIPI : Z := 0x22.
Definition SCECdErEOM : Z := 0x32.
Definition ZSO_MAGIC : Z := 0x4F53495A.

(** the settings of the game that these functions read *)
Record settings := Settings {
  accu_reads : bool;          (** [IOPCORE_COMPAT_ACCU_READS] *)
  zso_cache : Z;
  cache_allocated : bool;     (** [AllocSysMemory] found room for the cache *)
}.

Section Read.
Context {W : Type} `{!DiscDevice W} (LZ4_decompress_fast : bytes -> bytes) (cfg : settings).

Record cdvdman := Cdvdman {
  cd_st : cdstate (W := W);
  cd_zso : bool;              (** [DeviceReadSectorsPtr] is the compressed reader *)
  probed : bool;
  logo_key : Z;               (** the static [key] *)
  cd_err : Z;
  mediaLsnCount : Z;
  ReadPos : Z;
}.

Definition put_st (m : cdvdman) (s : cdstate) : cdvdman := Cdvdman s (cd_zso m) (probed m) (logo_key m) (cd_err m) (mediaLsnCount m) (ReadPos m).
Definition put_err (m : cdvdman) (e : Z) : cdvdman := Cdvdman (cd_st m) (cd_zso m) (probed m) (logo_key m) e (mediaLsnCount m) (ReadPos m).
Definition put_pos (m : cdvdman) (p : Z) : cdvdman := Cdvdman (cd_st m) (cd_zso m) (probed m) (logo_key m) (cd_err m) (mediaLsnCount m) p.
Definition put_key (m : cdvdman) (k : Z) : cdvdman := Cdvdman (cd_st m) (cd_zso m) (probed m) k (cd_err m) (mediaLsnCount m) (ReadPos m).

(** [DeviceReadSectorsCompressed]; [None] as in [ziso_read_sector] *)
Definition DeviceReadSectorsCompressed (s : cdstate (W := W)) (buf : bytes) (lsn count : Z) : option (Z * bytes * cdstate (W := W)) :=
  '(n, buf, s) ← ziso_read_sector LZ4_decompress_fast s buf (u32 lsn) count;
  Some (if n =? count then SCECdErNO else SCECdErEOM, buf, s).

(** the call through [DeviceReadSectorsPtr] *)
Definition device_read (m : cdvdman) (buf : bytes) (lsn n : Z) : option (Z * bytes * cdvdman) :=
  if cd_zso m then '(e, buf, s) ← DeviceReadSectorsCompressed (cd_st m) buf lsn n; Some (e, buf, put_st m s)
  else let '(e, d, s) := read_device (cd_st m) lsn n in Some (e, blit buf 0 d, put_st m s).

(** [initCache], when there is no cache yet *)
Definition initCache (s : cdstate (W := W)) : cdstate (W := W) :=
  if negb (zso_cache cfg =? 0) && (length (sector_cache s) =? 0)%nat then
    if cache_allocated cfg then
      CdState (c_dev s) (zso_cache cfg) (replicate (Z.to_nat (zso_cache cfg * 2048)) 0) (cur_sector s)
        (ziso_align s) (ziso_total_block s) (ziso_idx_start_block s) (ziso_idx_cache s) (ziso_tmp_buf s)
    else s
  else s.

Definition ProbeZSO (m : cdvdman) (buf : bytes) : bool * bytes * cdvdman :=
  let '(e, d, s) := read_device (cd_st m) 0 1 in
  let buf := blit buf 0 d in
  if negb (e =? SCECdErNO) then (false, buf, put_st m s)
  else
    let zso := le_val (take 4 buf) =? ZSO_MAGIC in
    let s := if zso then initCache (ziso_init s buf) else s in
    (true, buf, Cdvdman s (zso || cd_zso m) true (logo_key m) (cd_err m) (mediaLsnCount m) (ReadPos m)).

(** one byte of the logo *)
Definition unscramble (key x : Z) : Z := let y := Z.lxor x key in u8 (Z.lor (Z.shiftl y 3) (Z.shiftr y 5)).

(** the logo pass over a chunk just read *)
Definition logo_pass (m : cdvdman) (lsn n : Z) (buf : bytes) : bytes * cdvdman :=
  if lsn <? 13 then
    let m := if lsn =? 0 then put_key m (nth 0 buf 0) else m in
    if negb (logo_key m =? 0) then (blit buf 0 (map (unscramble (logo_key m)) (take (Z.to_nat (n * 2048)) buf)), m) else (buf, m)
  else (buf, m).

(** the loop of [cdvdman_read_sectors]: the chunks, at [at_] in the buffer *)
Fixpoint read_chunks (fuel : nat) (m : cdvdman) (buf : bytes) (at_ lsn remaining : Z) : option (bytes * cdvdman) :=
  if remaining =? 0 then Some (buf, put_err m SCECdErNO)
  else
    match fuel with
    | O => None
    | S f =>
      let n := if accu_reads cfg && (8 <? remaining) then 8 else remaining in
      '(e, chunk, m) ← device_read m (drop (Z.to_nat at_) buf) lsn n;
      if negb (e =? SCECdErNO) then Some (take (Z.to_nat at_) buf ++ chunk, put_err m e)
      else
        let '(chunk, m) := logo_pass m lsn n chunk in
        let m := put_pos m (u32 (ReadPos m + n * 2048)) in
        read_chunks f m (take (Z.to_nat at_) buf ++ chunk) (at_ + n * 2048) (u32 (lsn + n)) (remaining - n)
    end.

Definition cdvdman_read_sectors (m : cdvdman) (lsn sectors : Z) (buf : bytes) : option (Z * bytes * cdvdman) :=
  let media := mediaLsnCount m in
  if negb (media =? 0) && (media <=? lsn) then Some (1, buf, put_err m SCECdErIPI)
  else
    let endOfMedia := negb (media =? 0) && (media <? u32 (lsn + sectors)) in
    let sectors := if endOfMedia then media - lsn else sectors in
    let '(ok, buf, m) := if probed m then (true, buf, m) else ProbeZSO m buf in
    if negb ok then Some (1, buf, m)
    else
      '(buf, m) ← read_chunks (Z.to_nat sectors) m buf 0 lsn sectors;
      let m := if endOfMedia then put_err m SCECdErEOM else m in
      Some (if cd_err m =? SCECdErNO then 0 else 1, buf, m).

(** ** Positions *)

Record sceCdlLOCCD := Loc { minute : Z; second : Z; sector_bcd : Z }.

Definition sceCdPosToInt (p : sceCdlLOCCD) : Z :=
  let digits b := Z.shiftr b 4 * 10 + Z.land b 15 in
  u32 (u32 (u32 (digits (minute p) * 60 + digits (second p)) * 75 + digits (sector_bcd p)) - 150).

Definition sceCdIntToPos (i : Z) : sceCdlLOCCD :=
  let i := u32 (i + 150) in
  let se := i / 75 in
  let sc := i - se * 75 in
  let mi := se / 60 in
  let se := se - mi * 60 in
  Loc (u8 (mi / 10 * 16 + mi - mi / 10 * 10)) (u8 (se / 10 * 16 + se - se / 10 * 10)) (u8 (sc - sc / 10 * 10 + sc / 10 * 16)).

(** ** Reads of the drive *)

(** the loop of [cdvdman_read] through [cdvdman_buf], at [at_] in the buffer *)
Fixpoint read_bounced (fuel : nat) (buf_sectors : Z) (m : cdvdman) (cbuf buf : bytes) (at_ rpos sectors sector_size : Z) : option (bytes * cdvdman) :=
  if sectors =? 0 then Some (buf, m)
  else
    match fuel with
    | O => None
    | S f =>
      let n := if buf_sectors <? sectors then buf_sectors else sectors in
      let n := if sector_size =? 2048 then n else 1 in
      '(_, cbuf, m) ← cdvdman_read_sectors m rpos n cbuf;
      let rpos := u32 (rpos + n) in
      let offset := if sector_size =? 2340 then 12 else 0 in
      let buf := blit buf (Z.to_nat (at_ + offset)) (take (Z.to_nat (n * 2048)) cbuf) in
      let buf :=
        if sector_size =? 2340 then
          let p := sceCdIntToPos (u32 (rpos - 1)) in
          blit buf (Z.to_nat at_) [minute p; second p; sector_bcd p; 0; 0; 0; 8; 0; 0; 0; 8; 0]
        else buf in
      read_bounced f buf_sectors m cbuf buf (at_ + n * sector_size) rpos (sectors - n) sector_size
    end.

(** [cdvdman_read]; [aligned] is the buffer's address *)
Definition cdvdman_read (buf_sectors : Z) (m : cdvdman) (cbuf buf : bytes) (aligned : bool) (lsn sectors sector_size : Z) : option (bytes * cdvdman) :=
  if negb aligned || negb (sector_size =? 2048) then '(buf, m) ← read_bounced (Z.to_nat sectors) buf_sectors m cbuf buf 0 lsn sectors sector_size; Some (buf, put_pos m 0)
  else '(_, buf, m) ← cdvdman_read_sectors m lsn sectors buf; Some (buf, put_pos m 0).

(** ** A reader that serves the sectors [out] *)

(** what [cdvdman_read_sectors] needs of the reader behind [DeviceReadSectorsPtr]: up to
    [limit] sectors at a time, of [total] *)
Class SectorReader (out : Z -> bytes) (limit total : Z) := {
  r_inv : bool -> cdstate (W := W) -> Prop;
  r_limit : 8 <= limit;
  r_read m buf lsn n : r_inv (cd_zso m) (cd_st m) -> 0 <= lsn -> 0 <= n <= limit -> lsn + n <= total -> n * 2048 <= Z.of_nat (length buf) ->
    exists s, device_read m buf lsn n = Some (SCECdErNO, disc_bytes out (lsn * 2048) (n * 2048) ++ drop (Z.to_nat (n * 2048)) buf, put_st m s) /\
      r_inv (cd_zso m) s;
}.

(** the device's own reader *)
#[export, refine] Instance plain_reader (sec : Z -> bytes) (Hdev : reliable sec) : SectorReader sec (2 ^ 31) (2 ^ 31) := {
  r_inv zso s := zso = false;
  r_limit := _; r_read := _;
}.
Proof.
  - lia.
  - intros m buf lsn n Hz H1 H2 H3 Hl. unfold device_read, read_device. rewrite Hz.
    destruct (Hdev (c_dev (cd_st m)) lsn n) as [w' ->]. eexists. split; [|done]. do 3 f_equal.
    unfold blit. cbn [take app Nat.add]. by rewrite disc_bytes_length.
Defined.

(** the reader of a compressed image *)
#[export, refine] Instance zso_reader (sec : Z -> bytes) (align total : Z) (idx : Z -> Z) (out : Z -> bytes)
    (Hdev : reliable sec) (Himg : zso_image LZ4_decompress_fast sec align total idx out) : SectorReader out 256 total := {
  r_inv zso s := zso = true /\ zso_state sec align total idx s;
  r_limit := _; r_read := _;
}.
Proof.
  - lia.
  - intros m buf lsn n [Hz Hs] H1 H2 H3 Hl. unfold device_read, DeviceReadSectorsCompressed. rewrite Hz.
    pose proof (z_total _ _ _ _ _ _ Himg) as T. rewrite u32_id by lia.
    destruct (ziso_read_ok LZ4_decompress_fast sec align total idx out Hdev Himg (cd_st m) buf lsn n Hs) as (s' & -> & Hs'); [lia..|].
    cbn [mbind option_bind].
    assert (E : n = 0 \/ (if total <=? lsn then 0 else n `min` (total - lsn)) = n) by (destruct (Z.leb_spec total lsn); lia).
    assert (E2 : (if total <=? lsn then 0 else n `min` (total - lsn)) = n) by (destruct (Z.leb_spec total lsn); lia).
    rewrite E2, Z.eqb_refl. by exists s'.
Defined.

(** what the reads leave of the state *)
Definition same_cd (m m' : cdvdman) : Prop := cd_zso m' = cd_zso m /\ probed m' = probed m /\ mediaLsnCount m' = mediaLsnCount m.
#[export] Instance same_cd_preorder : PreOrder same_cd.
Proof. split; [by intros m|]. intros a b c (H1 & H2 & H3) (G1 & G2 & G3). split_and!; congruence. Qed.

Section Loop.
Context (out res : Z -> bytes) (limit total : Z) `{!SectorReader out limit total}.

(** the logo pass turns the chunks of the range [lo, hi) into the sectors [res], under
    a condition on the stored key *)
Context (lo hi : Z) (Pkey : Z -> Z -> Prop).
Context (Hpass : forall m lsn n rest, Pkey (logo_key m) lsn -> lo <= lsn -> 0 < n -> lsn + n <= hi ->
  exists k, logo_pass m lsn n (disc_bytes out (lsn * 2048) (n * 2048) ++ rest) = (disc_bytes res (lsn * 2048) (n * 2048) ++ rest, put_key m k) /\
    Pkey k (lsn + n)).

Lemma read_chunks_ok fuel : forall m buf at_ lsn remaining,
  r_inv (cd_zso m) (cd_st m) -> Pkey (logo_key m) lsn -> 0 <= lo <= lsn -> lsn + remaining <= hi -> hi <= total -> hi < 2 ^ 32 ->
  0 <= remaining <= limit -> 0 <= at_ -> at_ + remaining * 2048 <= Z.of_nat (length buf) -> remaining <= Z.of_nat fuel ->
  exists m', read_chunks fuel m buf at_ lsn remaining =
    Some (take (Z.to_nat at_) buf ++ disc_bytes res (lsn * 2048) (remaining * 2048) ++ drop (Z.to_nat (at_ + remaining * 2048)) buf, m') /\
    cd_err m' = SCECdErNO /\ same_cd m m' /\ r_inv (cd_zso m') (cd_st m').
Proof.
  induction fuel as [|f IH]; intros m buf at_ lsn remaining Hi Hk Hlo Hhi Ht H32 Hr Ha Hl Hf; cbn [read_chunks].
  - replace remaining with 0 by lia. cbn [Z.eqb]. exists (put_err m SCECdErNO). split; [|by split_and!]. rewrite Z.mul_0_l, Z.add_0_r. change (disc_bytes res (lsn * 2048) 0) with (@nil Z). cbn [app]. by rewrite take_drop.
  - destruct (Z.eqb_spec remaining 0) as [->|Hr0].
    { exists (put_err m SCECdErNO). split; [|by split_and!]. rewrite Z.mul_0_l, Z.add_0_r. change (disc_bytes res (lsn * 2048) 0) with (@nil Z). cbn [app]. by rewrite take_drop. }
    set (n := if accu_reads cfg && (8 <? remaining) then 8 else remaining).
    assert (Hn : 0 < n <= remaining) by (unfold n; destruct (accu_reads cfg); cbn [andb]; [destruct (Z.ltb_spec 8 remaining)|]; lia).
    destruct (r_read m (drop (Z.to_nat at_) buf) lsn n Hi) as (s & -> & Hi'); [lia|lia|lia|rewrite length_drop; lia|].
    cbn [mbind option_bind]. change (SCECdErNO =? SCECdErNO) with true. cbn [negb].
    destruct (Hpass (put_st m s) lsn n (drop (Z.to_nat (n * 2048)) (drop (Z.to_nat at_) buf)) Hk) as (k & -> & Hk'); [lia..|].
    cbv beta iota zeta. rewrite (u32_id (lsn + n)) by lia. rewrite drop_drop.
    set (buf1 := take (Z.to_nat at_) buf ++ disc_bytes res (lsn * 2048) (n * 2048) ++ drop (Z.to_nat at_ + Z.to_nat (n * 2048)) buf).
    assert (L1 : length buf1 = length buf).
    { unfold buf1. rewrite !length_app, length_take, length_drop, disc_bytes_length. lia. }
    change (ReadPos (put_key (put_st m s) k)) with (ReadPos m).
    destruct (IH (put_pos (put_key (put_st m s) k) (u32 (ReadPos m + n * 2048))) buf1 (at_ + n * 2048) (lsn + n) (remaining - n)) as (m' & -> & He & Hs & Hi2);
      [done|done|lia|lia|lia|lia|lia|lia|lia|lia|].
    exists m'. split; [|split; [done|split; [exact Hs|done]]]. do 2 f_equal.
    assert (E1 : take (Z.to_nat (at_ + n * 2048)) buf1 = take (Z.to_nat at_) buf ++ disc_bytes res (lsn * 2048) (n * 2048)).
    { unfold buf1. rewrite app_assoc. apply take_app_length'. rewrite length_app, length_take, disc_bytes_length. lia. }
    assert (E2 : drop (Z.to_nat (at_ + n * 2048 + (remaining - n) * 2048)) buf1 = drop (Z.to_nat (at_ + remaining * 2048)) buf).
    { unfold buf1. rewrite app_assoc, drop_app. rewrite drop_ge by (rewrite length_app, length_take, disc_bytes_length; lia).
      rewrite drop_drop. cbn [app]. f_equal. rewrite length_app, length_take, disc_bytes_length. lia. }
    rewrite E1, E2, <- !app_assoc. f_equal. rewrite (app_assoc (disc_bytes _ _ _) (disc_bytes _ _ _)). f_equal.
    replace (remaining * 2048) with (n * 2048 + (remaining - n) * 2048) by lia. rewrite disc_bytes_app by lia. do 2 f_equal. lia.
Qed.
End Loop.

(** ** The logo *)

(** what a byte of the logo looks like on the disc *)
Definition scramble (key p : Z) : Z := Z.lxor (u8 (Z.lor (Z.shiftr p 3) (Z.shiftl p 5))) key.

Lemma unscramble_scramble key p : 0 <= key < 256 -> 0 <= p < 256 -> unscramble key (scramble key p) = p.
Proof.
  intros Hk Hp.
  assert (H : forallb (fun k => forallb (fun p => unscramble (Z.of_nat k) (scramble (Z.of_nat k) (Z.of_nat p)) =? Z.of_nat p) (seq 0 256)) (seq 0 256) = true)
    by (vm_compute; reflexivity).
  rewrite forallb_forall in H. specialize (H (Z.to_nat key) ltac:(apply in_seq; lia)). rewrite forallb_forall in H.
  specialize (H (Z.to_nat p) ltac:(apply in_seq; lia)). rewrite !Z2Nat.id in H by lia. by apply Z.eqb_eq in H.
Qed.

Lemma disc_bytes_map (f : Z -> Z) sec sec' off n : 0 <= off ->
  (forall l, off / 2048 <= l <= (off + n) / 2048 -> length (sec l) = 2048%nat /\ sec' l = map f (sec l)) ->
  map f (disc_bytes sec off n) = disc_bytes sec' off n.
Proof.
  intros Ho H. apply list_eq. intros i. change (map ?g ?l) with (g <$> l). rewrite list_lookup_fmap. destruct (Nat.lt_ge_cases i (Z.to_nat n)).
  - rewrite !disc_bytes_lookup by lia. cbn [fmap option_fmap option_map]. f_equal.
    destruct (H ((off + Z.of_nat i) / 2048)) as [Hl ->]; [split; apply Z.div_le_mono; lia|].
    pose proof (Z.mod_pos_bound (off + Z.of_nat i) 2048 ltac:(lia)).
    rewrite (nth_indep (map f _) 0 (f 0)) by (rewrite length_map; lia). symmetry. apply map_nth.
  - rewrite !lookup_ge_None_2; [done|by rewrite disc_bytes_length|by rewrite disc_bytes_length].
Qed.

(** the first 13 sectors of the image hold the logo, scrambled with [key] *)
Record logo_image (out plain : Z -> bytes) (key : Z) : Prop := {
  lg_key : 0 < key < 256;
  lg_plain l : 0 <= l <= 13 -> length (plain l) = 2048%nat /\ Forall (fun x => 0 <= x < 256) (plain l);
  lg_out l : 0 <= l <= 13 -> out l = map (scramble key) (plain l);
  lg_black : nth 0 (plain 0) 0 = 0;
}.

Lemma logo_pass_plain out plain key m lsn n rest :
  logo_image out plain key -> (lsn = 0 \/ logo_key m = key) -> 0 <= lsn -> 0 < n -> lsn + n <= 13 ->
  logo_pass m lsn n (disc_bytes out (lsn * 2048) (n * 2048) ++ rest) = (disc_bytes plain (lsn * 2048) (n * 2048) ++ rest, put_key m key).
Proof.
  intros [Hk Hp Ho Hb] Hm Hl Hn Hle. unfold logo_pass. replace (lsn <? 13) with true by lia.
  assert (Ek : (if lsn =? 0 then put_key m (nth 0 (disc_bytes out (lsn * 2048) (n * 2048) ++ rest) 0) else m) = put_key m key).
  { destruct (Z.eqb_spec lsn 0) as [->|Hne].
    - f_equal. rewrite app_nth1 by (rewrite disc_bytes_length; lia). apply nth_lookup_Some.
      rewrite (disc_bytes_lookup out (0 * 2048) (n * 2048) 0) by lia. f_equal. change ((0 * 2048 + Z.of_nat 0) / 2048) with 0.
      change (Z.to_nat ((0 * 2048 + Z.of_nat 0) mod 2048)) with 0%nat.
      rewrite Ho by lia. destruct (Hp 0 ltac:(lia)) as [Hl0 _]. destruct (plain 0) as [|x r]; [done|]. cbn in Hb. subst x.
      cbn. unfold scramble. cbn. apply Z.lxor_0_l.
    - destruct Hm as [?|<-]; [lia|]. by destruct m. }
  rewrite Ek. cbn [logo_key put_key]. replace (key =? 0) with false by lia. cbn [negb].
  rewrite take_app_length' by (by rewrite disc_bytes_length). f_equal.
  assert (E : map (unscramble key) (disc_bytes out (lsn * 2048) (n * 2048)) = disc_bytes plain (lsn * 2048) (n * 2048)).
  { apply disc_bytes_map; [lia|]. intros l Hll.
    assert (0 <= l <= 13).
    { rewrite Z.div_mul in Hll by lia. replace (lsn * 2048 + n * 2048) with ((lsn + n) * 2048) in Hll by lia. rewrite Z.div_mul in Hll by lia. lia. }
    destruct (Hp l) as [Hpl Hpb]; [done|]. rewrite Ho by done. split; [by rewrite length_map|]. rewrite map_map. symmetry.
    rewrite <- (map_id (plain l)) at 2. apply map_ext_in. intros x Hx. apply unscramble_scramble; [lia|].
    rewrite Forall_forall in Hpb. apply Hpb. by apply list_elem_of_In. }
  rewrite E. unfold blit. cbn [take app Nat.add]. by rewrite drop_app_length' by (by rewrite !disc_bytes_length).
Qed.

Lemma logo_pass_behind m lsn n buf : 13 <= lsn -> logo_pass m lsn n buf = (buf, put_key m (logo_key m)).
Proof. intros H. unfold logo_pass. replace (lsn <? 13) with false by lia. by destruct m. Qed.

(** ** Reads *)

(** how many sectors a read gives, and its error code *)
Definition media_cut (media lsn n : Z) : Z := if negb (media =? 0) && (media <? lsn + n) then media - lsn else n.
Definition media_err (media lsn n : Z) : Z := if negb (media =? 0) && (media <? lsn + n) then SCECdErEOM else SCECdErNO.

Section Sectors.
Context (out : Z -> bytes) (limit total : Z) `{!SectorReader out limit total}.

Lemma read_sectors_range (res : Z -> bytes) (lo hi : Z) (Pkey : Z -> Z -> Prop) m lsn n buf :
  (forall m lsn n rest, Pkey (logo_key m) lsn -> lo <= lsn -> 0 < n -> lsn + n <= hi ->
    exists k, logo_pass m lsn n (disc_bytes out (lsn * 2048) (n * 2048) ++ rest) = (disc_bytes res (lsn * 2048) (n * 2048) ++ rest, put_key m k) /\ Pkey k (lsn + n)) ->
  r_inv (cd_zso m) (cd_st m) -> probed m = true -> Pkey (logo_key m) lsn -> 0 <= lo <= lsn -> 0 <= n <= limit ->
  lsn + n < 2 ^ 32 -> (mediaLsnCount m = 0 \/ lsn < mediaLsnCount m) ->
  let k := media_cut (mediaLsnCount m) lsn n in
  lsn + k <= hi -> hi <= total -> hi < 2 ^ 32 -> k * 2048 <= Z.of_nat (length buf) ->
  exists m', cdvdman_read_sectors m lsn n buf =
    Some (if media_err (mediaLsnCount m) lsn n =? SCECdErNO then 0 else 1,
          disc_bytes res (lsn * 2048) (k * 2048) ++ drop (Z.to_nat (k * 2048)) buf, m') /\
    cd_err m' = media_err (mediaLsnCount m) lsn n /\ same_cd m m' /\ r_inv (cd_zso m') (cd_st m').
Proof.
  intros Hpass Hi Hp Hk Hlo Hn H32 Hmedia k Hhi Htot Hhi32 Hl. unfold cdvdman_read_sectors.
  replace (negb (mediaLsnCount m =? 0) && (mediaLsnCount m <=? lsn)) with false by (destruct Hmedia as [->|?]; [done|]; lia).
  rewrite u32_id by lia. rewrite Hp. cbn [negb]. unfold k, media_cut, media_err in *.
  set (cut := negb (mediaLsnCount m =? 0) && (mediaLsnCount m <? lsn + n)) in *.
  assert (Hc : 0 <= (if cut then mediaLsnCount m - lsn else n) <= n).
  { unfold cut. destruct Hmedia as [->|?]; [cbn; lia|]. destruct (mediaLsnCount m =? 0), (Z.ltb_spec (mediaLsnCount m) (lsn + n)); cbn; lia. }
  destruct (read_chunks_ok out res limit total lo hi Pkey Hpass (Z.to_nat (if cut then mediaLsnCount m - lsn else n)) m buf 0 lsn
    (if cut then mediaLsnCount m - lsn else n)) as (m' & -> & He & Hs & Hi2); try done; try lia.
  cbn [mbind option_bind]. rewrite Z.add_0_l. change (take (Z.to_nat 0) buf) with (@nil Z). cbn [app].
  destruct cut; eexists; (split; [cbn; rewrite ?He; done|]); split_and!; try done; by apply Hs.
Qed.

Lemma read_sectors_ok m lsn n buf :
  r_inv (cd_zso m) (cd_st m) -> probed m = true -> 13 <= lsn -> 0 <= n <= limit -> lsn + n <= total -> total < 2 ^ 32 ->
  (mediaLsnCount m = 0 \/ lsn < mediaLsnCount m) -> n * 2048 <= Z.of_nat (length buf) ->
  let k := media_cut (mediaLsnCount m) lsn n in
  exists m', cdvdman_read_sectors m lsn n buf =
    Some (if media_err (mediaLsnCount m) lsn n =? SCECdErNO then 0 else 1,
          disc_bytes out (lsn * 2048) (k * 2048) ++ drop (Z.to_nat (k * 2048)) buf, m') /\
    cd_err m' = media_err (mediaLsnCount m) lsn n /\ same_cd m m' /\ r_inv (cd_zso m') (cd_st m').
Proof.
  intros Hi Hp Hl Hn Ht H32 Hmedia Hb k.
  assert (Hk : k <= n).
  { unfold k, media_cut. destruct Hmedia as [->|?]; [cbn; lia|]. destruct (mediaLsnCount m =? 0), (Z.ltb_spec (mediaLsnCount m) (lsn + n)); cbn; lia. }
  apply (read_sectors_range out 13 total (fun _ _ => True)); try done; try lia.
  intros m1 l1 n1 rest _ H1 _ _. exists (logo_key m1). by rewrite logo_pass_behind.
Qed.

(** Reading sectors behind the logo through either reader, in one piece or in the
    chunks of accurate reads, gives the sectors of the image. A read that begins behind
    the media's end fails at once with the parameter error; one that crosses the end
    gives the sectors up to it and reports the end of the media. *)
Theorem read_sectors_exact m lsn n buf :
  r_inv (cd_zso m) (cd_st m) -> probed m = true -> 13 <= lsn -> 0 <= n <= limit -> lsn + n <= total -> total < 2 ^ 32 ->
  n * 2048 <= Z.of_nat (length buf) ->
  let media := mediaLsnCount m in
  if negb (media =? 0) && (media <=? lsn) then cdvdman_read_sectors m lsn n buf = Some (1, buf, put_err m SCECdErIPI)
  else
    let k := media_cut media lsn n in
    exists m', cdvdman_read_sectors m lsn n buf =
      Some (if media_err media lsn n =? SCECdErNO then 0 else 1,
            disc_bytes out (lsn * 2048) (k * 2048) ++ drop (Z.to_nat (k * 2048)) buf, m') /\
      cd_err m' = media_err media lsn n /\ r_inv (cd_zso m') (cd_st m').
Proof.
  intros Hi Hp Hl Hn Ht H32 Hb media. destruct (negb (media =? 0) && (media <=? lsn)) eqn:E.
  - unfold cdvdman_read_sectors. fold media. by rewrite E.
  - destruct (read_sectors_ok m lsn n buf) as (m' & E1 & E2 & _ & E4); try done; [|by exists m'].
    fold media. destruct (Z.eqb_spec media 0); [by left|right]. cbn in E. lia.
Qed.

(** Reading the logo, the first 13 sectors, gives it unscrambled: the key is taken
    from its first, black, pixel and kept for the chunks that follow. *)
Theorem logo_read_plain plain key m n buf :
  logo_image out plain key -> r_inv (cd_zso m) (cd_st m) -> probed m = true -> 0 <= n <= 13 -> n <= limit -> 13 <= total ->
  (mediaLsnCount m = 0 \/ 13 <= mediaLsnCount m) -> n * 2048 <= Z.of_nat (length buf) ->
  exists m', cdvdman_read_sectors m 0 n buf = Some (0, disc_bytes plain 0 (n * 2048) ++ drop (Z.to_nat (n * 2048)) buf, m') /\
    (0 < n -> cd_err m' = SCECdErNO).
Proof.
  intros Hlogo Hi Hp Hn Hlim Ht Hmedia Hb.
  assert (Hc : media_cut (mediaLsnCount m) 0 n = n /\ media_err (mediaLsnCount m) 0 n = SCECdErNO).
  { unfold media_cut, media_err. destruct Hmedia as [->|?]; [done|]. replace (mediaLsnCount m <? 0 + n) with false by lia. by rewrite andb_false_r. }
  destruct Hc as [Hc He].
  destruct (read_sectors_range plain 0 13 (fun k l => l = 0 \/ k = key) m 0 n buf) as (m' & E1 & E2 & _); try done; try lia; try (rewrite Hc; lia).
  - intros m1 l1 n1 rest Hk H1 H2 H3. exists key. split; [by apply logo_pass_plain|by right].
  - exists m'. rewrite Hc, He in E1. rewrite He in E2. by split.
Qed.

Lemma read_bounced_ok bs fuel : forall m cbuf buf at_ rpos n,
  1 <= bs <= limit -> length cbuf = Z.to_nat (bs * 2048) ->
  r_inv (cd_zso m) (cd_st m) -> probed m = true -> 13 <= rpos -> 0 <= n <= Z.of_nat fuel -> rpos + n <= total -> total < 2 ^ 32 ->
  (mediaLsnCount m = 0 \/ rpos + n <= mediaLsnCount m) -> 0 <= at_ -> at_ + n * 2048 <= Z.of_nat (length buf) ->
  exists m', read_bounced fuel bs m cbuf buf at_ rpos n 2048 =
    Some (take (Z.to_nat at_) buf ++ disc_bytes out (rpos * 2048) (n * 2048) ++ drop (Z.to_nat (at_ + n * 2048)) buf, m') /\ same_cd m m'.
Proof.
  induction fuel as [|f IH]; intros m cbuf buf at_ rpos n Hbs Hcb Hi Hp Hr Hn Ht H32 Hmedia Ha Hl; cbn [read_bounced].
  - replace n with 0 by lia. cbn [Z.eqb]. exists m. split; [|done]. rewrite Z.mul_0_l, Z.add_0_r.
    change (disc_bytes out (rpos * 2048) 0) with (@nil Z). cbn [app]. by rewrite take_drop.
  - destruct (Z.eqb_spec n 0) as [->|Hn0].
    { exists m. split; [|done]. rewrite Z.mul_0_l, Z.add_0_r. change (disc_bytes out (rpos * 2048) 0) with (@nil Z). cbn [app]. by rewrite take_drop. }
    change (2048 =? 2048) with true. change (2048 =? 2340) with false. cbv iota zeta.
    set (k := if bs <? n then bs else n). assert (Hk : 0 < k <= n /\ k <= bs) by (unfold k; destruct (Z.ltb_spec bs n); lia).
    destruct (read_sectors_ok m rpos k cbuf) as (m' & -> & _ & Hs & Hi'); try done; try lia.
    assert (Hc : media_cut (mediaLsnCount m) rpos k = k).
    { unfold media_cut. destruct Hmedia as [->|?]; [done|]. replace (mediaLsnCount m <? rpos + k) with false by lia. by rewrite andb_false_r. }
    rewrite Hc. cbn [mbind option_bind]. rewrite take_app_length' by (by rewrite disc_bytes_length). rewrite u32_id by lia. rewrite Z.add_0_r.
    set (buf1 := blit buf (Z.to_nat at_) (disc_bytes out (rpos * 2048) (k * 2048))).
    assert (Eb : buf1 = (take (Z.to_nat at_) buf ++ disc_bytes out (rpos * 2048) (k * 2048)) ++ drop (Z.to_nat (at_ + k * 2048)) buf).
    { unfold buf1, blit. rewrite disc_bytes_length, <- app_assoc. do 3 f_equal. lia. }
    assert (L1 : length buf1 = length buf) by (unfold buf1; apply blit_length; rewrite disc_bytes_length; lia).
    pose proof Hs as (S1 & S2 & S3).
    destruct (IH m' (disc_bytes out (rpos * 2048) (k * 2048) ++ drop (Z.to_nat (k * 2048)) cbuf) buf1 (at_ + k * 2048) (rpos + k) (n - k)) as (m2 & -> & Hs2);
      try done; try lia; try (rewrite ?length_app, ?length_drop, ?disc_bytes_length, ?S2, ?S3; done || lia).
    exists m2. split; [|by etrans]. do 2 f_equal.
    assert (Lp : length (take (Z.to_nat at_) buf ++ disc_bytes out (rpos * 2048) (k * 2048)) = Z.to_nat (at_ + k * 2048))
      by (rewrite length_app, length_take, disc_bytes_length; lia).
    rewrite Eb, take_app_length' by done. rewrite drop_app, drop_ge by lia. rewrite Lp, drop_drop. cbn [app]. rewrite <- !app_assoc. f_equal.
    rewrite (app_assoc (disc_bytes _ _ _) (disc_bytes _ _ _)).
    replace (n * 2048) with (k * 2048 + (n - k) * 2048) by lia. rewrite disc_bytes_app by lia. rewrite <- !app_assoc. f_equal.
    f_equal; [f_equal; lia|f_equal; lia].
Qed.

(** A read into an unaligned buffer, bounced piece by piece through the driver's own
    buffer, puts the same bytes there as the direct read into an aligned one. *)
Theorem unaligned_read_same bs m cbuf buf lsn n :
  1 <= bs <= limit -> length cbuf = Z.to_nat (bs * 2048) ->
  r_inv (cd_zso m) (cd_st m) -> probed m = true -> 13 <= lsn -> 0 <= n <= limit -> lsn + n <= total -> total < 2 ^ 32 ->
  (mediaLsnCount m = 0 \/ (lsn < mediaLsnCount m /\ lsn + n <= mediaLsnCount m)) -> n * 2048 <= Z.of_nat (length buf) ->
  exists m1 m2 data, cdvdman_read bs m cbuf buf false lsn n 2048 = Some (data, m1) /\
    cdvdman_read bs m cbuf buf true lsn n 2048 = Some (data, m2) /\ data = disc_bytes out (lsn * 2048) (n * 2048) ++ drop (Z.to_nat (n * 2048)) buf.
Proof.
  intros Hbs Hcb Hi Hp Hl Hn Ht H32 Hmedia Hb.
  destruct (read_bounced_ok bs (Z.to_nat n) m cbuf buf 0 lsn n) as (m1 & E1 & _); try done; try lia.
  destruct (read_sectors_ok m lsn n buf) as (m2 & E2 & _); try done; try lia.
  assert (Hc : media_cut (mediaLsnCount m) lsn n = n).
  { unfold media_cut. destruct Hmedia as [->|?]; [done|]. replace (mediaLsnCount m <? lsn + n) with false by lia. by rewrite andb_false_r. }
  rewrite Hc in E2. exists (put_pos m1 0), (put_pos m2 0). eexists. split; [unfold cdvdman_read; cbn [negb orb]; rewrite E1; done|]. split; [|done].
  unfold cdvdman_read. cbn [negb orb]. change (2048 =? 2048) with true. cbn [negb]. rewrite E2. done.
Qed.
End Sectors.
End Read.

(** a chunk that begins in the logo and ends behind it is unscrambled as a whole *)
Lemma logo_overrun {W} (m : cdvdman (W := W)) :
  0 < logo_key m < 256 ->
  logo_pass m 12 2 (replicate 2048 0 ++ replicate 2048 0) = (replicate 2048 (unscramble (logo_key m) 0) ++ replicate 2048 (unscramble (logo_key m) 0), m) /\
  unscramble (logo_key m) 0 <> 0.
Proof.
  intros Hk. split.
  - unfold logo_pass. change (12 <? 13) with true. change (12 =? 0) with false. cbv iota zeta. replace (logo_key m =? 0) with false by lia.
    reflexivity.
  - assert (H : forallb (fun k => negb (unscramble (Z.of_nat k) 0 =? 0)) (seq 1 255) = true) by (vm_compute; reflexivity).
    rewrite forallb_forall in H. specialize (H (Z.to_nat (logo_key m)) ltac:(apply in_seq; lia)). rewrite Z2Nat.id in H by lia. lia.
Qed.

(** ** Positions *)

Lemma bcd_digits x : 0 <= x < 100 ->
  0 <= x / 10 * 16 + x - x / 10 * 10 < 256 /\
  Z.shiftr (x / 10 * 16 + x - x / 10 * 10) 4 * 10 + Z.land (x / 10 * 16 + x - x / 10 * 10) 15 = x.
Proof.
  intros Hx.
  assert (H : forallb (fun n => let x := Z.of_nat n in let b := x / 10 * 16 + x - x / 10 * 10 in
    (0 <=? b) && (b <? 256) && (Z.shiftr b 4 * 10 + Z.land b 15 =? x)) (seq 0 100) = true) by (vm_compute; reflexivity).
  rewrite forallb_forall in H. specialize (H (Z.to_nat x) ltac:(apply in_seq; lia)). rewrite Z2Nat.id in H by lia. cbv zeta in H. b2p. lia.
Qed.

(** A sector number survives the way through minutes, seconds and frames in BCD, up
    to the last position that two digits of minutes can name. *)
Theorem position_roundtrip i :
  0 <= i < 100 * 60 * 75 - 150 -> sceCdPosToInt (sceCdIntToPos i) = i.
Proof.
  intros Hi. unfold sceCdIntToPos, sceCdPosToInt. rewrite (u32_id (i + 150)) by lia. cbv zeta. cbn [minute second sector_bcd].
  pose proof (Z.div_mod (i + 150) 75 ltac:(lia)) as D1. pose proof (Z.mod_pos_bound (i + 150) 75 ltac:(lia)) as B1.
  revert D1 B1. generalize ((i + 150) / 75) ((i + 150) mod 75). intros se sc D1 B1.
  pose proof (Z.div_mod se 60 ltac:(lia)) as D2. pose proof (Z.mod_pos_bound se 60 ltac:(lia)) as B2.
  assert (H0 : 0 <= se / 60) by (apply Z.div_pos; lia).
  revert D2 B2 H0. generalize (se / 60) (se mod 60). intros mi ss D2 B2 H0.
  replace (i + 150 - se * 75) with sc by lia. replace (se - mi * 60) with ss by lia.
  destruct (bcd_digits sc ltac:(lia)) as [S1 S2]. destruct (bcd_digits ss ltac:(lia)) as [T1 T2]. destruct (bcd_digits mi ltac:(lia)) as [M1 M2].
  replace (sc - sc / 10 * 10 + sc / 10 * 16) with (sc / 10 * 16 + sc - sc / 10 * 10) by lia.
  rewrite !u8_id by lia. rewrite S2, T2, M2.
  rewrite (u32_id (mi * 60 + ss)) by lia. rewrite (u32_id ((mi * 60 + ss) * 75 + sc)) by lia.
  rewrite u32_id; lia.
Qed.

Lemma position_roundtrip_witness : sceCdIntToPos 4350 = Loc 0x01 0x00 0x00 /\ sceCdPosToInt (sceCdIntToPos 4350) = 4350.
Proof. split; [vm_compute; reflexivity|]. apply (position_roundtrip 4350). lia. Defined.

(** ** A disc whose sector [l] holds the byte [l], for the examples *)

Inductive cdrom := Cdrom.
Definition byte_sec (l : Z) : bytes := replicate 2048 (l mod 256).
#[export] Instance byte_device : DiscDevice cdrom := fun _ lsn n => (SCECdErNO, disc_bytes byte_sec (lsn * 2048) (n * 2048), Cdrom).
Lemma byte_reliable : reliable byte_sec.
Proof. intros w lsn n. by exists Cdrom. Qed.

Definition byte_reader : SectorReader run_length byte_sec (2 ^ 31) (2 ^ 31) :=
  plain_reader run_length byte_sec byte_reliable.

Definition drive {W} (w : W) : cdvdman (W := W) := Cdvdman (CdState w 0 [] 0 0 0 (-1) [] []) false true 0 0 31 0.

Lemma byte_sectors lsn n : 0 <= lsn -> disc_bytes byte_sec (lsn * 2048) (Z.of_nat n * 2048) = concat (map (fun i => replicate 2048 ((lsn + Z.of_nat i) mod 256)) (seq 0 n)).
Proof.
  intros H. induction n as [|n IH]; [done|]. rewrite seq_S, map_app, concat_app. cbn [map concat]. rewrite app_nil_r.
  replace (Z.of_nat (S n) * 2048) with (Z.of_nat n * 2048 + 2048) by lia. rewrite disc_bytes_app, IH by lia. f_equal.
  replace (lsn * 2048 + Z.of_nat n * 2048) with ((lsn + Z.of_nat n) * 2048) by lia. rewrite disc_bytes_sector; [done|lia|apply length_replicate].
Qed.

Lemma read_sectors_exact_witness :
  (exists m', cdvdman_read_sectors run_length (Settings true 0 false) (drive Cdrom) 30 2 (replicate 2048 9 ++ replicate 2048 8) =
    Some (1, replicate 2048 30 ++ replicate 2048 8, m') /\ cd_err m' = SCECdErEOM) /\
  cdvdman_read_sectors run_length (Settings true 0 false) (drive Cdrom) 31 0 [] = Some (1, [], put_err (drive Cdrom) SCECdErIPI).
Proof.
  split.
  - pose proof (byte_sectors 30 1 ltac:(lia)) as Hb. cbn [concat map seq] in Hb. rewrite app_nil_r in Hb. change ((30 + Z.of_nat 0) mod 256) with 30 in Hb. rewrite <- Hb.
    assert (Hl : 2 * 2048 <= Z.of_nat (length (replicate 2048 9 ++ replicate 2048 8))) by (rewrite length_app, !length_replicate; lia).
    assert (Hd : drop (Z.to_nat (1 * 2048)) (replicate 2048 9 ++ replicate 2048 8) = replicate 2048 8) by (apply drop_app_length'; symmetry; apply length_replicate).
    rewrite <- Hd. clear Hb Hd. revert Hl. generalize (replicate 2048 9 ++ replicate 2048 8) as b. intros b Hl.
    destruct (read_sectors_exact run_length (Settings true 0 false) byte_sec (2 ^ 31) (2 ^ 31) (SectorReader0 := byte_reader) (drive Cdrom) 30 2 b
      eq_refl eq_refl ltac:(lia) ltac:(lia) ltac:(lia) ltac:(lia) Hl) as (m' & E & E2 & _).
    exists m'. split; [exact E|exact E2].
  - apply (read_sectors_exact run_length (Settings true 0 false) byte_sec (2 ^ 31) (2 ^ 31) (SectorReader0 := byte_reader) (drive Cdrom) 31 0 []
      eq_refl eq_refl); cbn; lia.
Defined.

(** a disc with a black logo, scrambled with the key 5 *)
Definition black_sec (l : Z) : bytes := replicate 2048 0.
Definition logo_sec (l : Z) : bytes := map (scramble 5) (black_sec l).
Lemma black_logo : logo_image logo_sec black_sec 5.
Proof.
  split; [lia| |done|done]. intros l _. split; [apply length_replicate|]. apply Forall_forall. intros x [-> _]%elem_of_replicate. lia.
Qed.
Inductive logo_cd := LogoCd.
#[export] Instance logo_device : DiscDevice logo_cd := fun _ lsn n => (SCECdErNO, disc_bytes logo_sec (lsn * 2048) (n * 2048), LogoCd).
Lemma logo_reliable : reliable logo_sec.
Proof. intros w lsn n. by exists LogoCd. Qed.

Lemma logo_read_plain_witness :
  exists m', cdvdman_read_sectors run_length (Settings true 0 false) (drive LogoCd) 0 12 (replicate (12 * 2048) 9) =
    Some (0, disc_bytes black_sec 0 (12 * 2048) ++ [], m') /\ (0 < 12 -> cd_err m' = SCECdErNO).
Proof.
  assert (Hl : 12 * 2048 <= Z.of_nat (length (replicate (12 * 2048) 9))) by (rewrite length_replicate; lia).
  assert (Hd : drop (Z.to_nat (12 * 2048)) (replicate (12 * 2048) 9) = []) by (apply drop_ge; rewrite length_replicate; lia).
  rewrite <- Hd. clear Hd. revert Hl. generalize (replicate (12 * 2048) 9) as b. intros b Hl.
  apply (logo_read_plain run_length (Settings true 0 false) logo_sec (2 ^ 31) (2 ^ 31) (SectorReader0 := plain_reader run_length logo_sec logo_reliable)
    black_sec 5 (drive LogoCd) 12 b black_logo eq_refl eq_refl ltac:(lia) ltac:(lia) ltac:(lia)); [right; cbn; lia|exact Hl].
Defined.

Lemma unaligned_read_same_witness :
  exists m1 m2 data, cdvdman_read run_length (Settings true 0 false) 1 (drive Cdrom) (replicate 2048 7) (replicate 2048 9 ++ replicate 2048 8) false 20 2 2048 = Some (data, m1) /\
    cdvdman_read run_length (Settings true 0 false) 1 (drive Cdrom) (replicate 2048 7) (replicate 2048 9 ++ replicate 2048 8) true 20 2 2048 = Some (data, m2) /\
    data = disc_bytes byte_sec (20 * 2048) (2 * 2048) ++ drop (Z.to_nat (2 * 2048)) (replicate 2048 9 ++ replicate 2048 8).
Proof.
  assert (Hl : 2 * 2048 <= Z.of_nat (length (replicate 2048 9 ++ replicate 2048 8))) by (rewrite length_app, !length_replicate; lia).
  assert (Hc : length (replicate 2048 7) = Z.to_nat (1 * 2048)) by apply length_replicate.
  revert Hl Hc. generalize (replicate 2048 9 ++ replicate 2048 8) as b, (replicate 2048 7) as c. intros b c Hl Hc.
  apply (unaligned_read_same run_length (Settings true 0 false) byte_sec (2 ^ 31) (2 ^ 31) (SectorReader0 := byte_reader) 1 (drive Cdrom) c b 20 2
    ltac:(lia) Hc eq_refl eq_refl ltac:(lia) ltac:(lia) ltac:(lia) ltac:(lia)); [right; cbn; lia|exact Hl].
Defined.
