(* ===== verification/CdDevice.v ===== *)
(** * CdDevice: the sector readers of the storage devices

    modules/iopcore/cdvdman/device-hdd.c, device-smb.c with the file transfers of smb.c,
    device-mmce.c and device-bdm.c: each maps a run of 2048-byte sectors of the disc
    image to its own medium (partitions of a hard disk, part files on a server, a card, a
    block device). The transports below them are interfaces. *)
From S2P Require Import Prelude CLib CdDisc.

Definition SCECdErTRMOPN : Z := 0x31.
Definition SCECdErREAD : Z := 0x30.

(** ** Flat media *)

(** [n] bytes from [a] of a medium given byte by byte *)
Definition span (f : Z -> Z) (a n : Z) : bytes := map (fun i => f (a + Z.of_nat i)) (seq 0 (Z.to_nat n)).

Lemma span_length f a n : length (span f a n) = Z.to_nat n.
Proof. unfold span. by rewrite length_map, length_seq. Qed.

Lemma span_lookup f a n i : (i < Z.to_nat n)%nat -> span f a n !! i = Some (f (a + Z.of_nat i)).
Proof. intros H. unfold span. change (map ?g ?l) with (g <$> l). by rewrite list_lookup_fmap, lookup_seq_lt. Qed.

Lemma span_app f a n m : 0 <= n -> 0 <= m -> span f a (n + m) = span f a n ++ span f (a + n) m.
Proof.
  intros Hn Hm. unfold span. rewrite Z2Nat.inj_add, seq_app, map_app by lia. f_equal. rewrite Nat.add_0_l.
  rewrite <- (Nat.add_0_r (Z.to_nat n)) at 1. rewrite <- fmap_add_seq, map_map. apply map_ext. intros i. f_equal. lia.
Qed.

(** a run of sectors that lie one behind the other on the medium *)
Lemma disc_bytes_span sec f a l n :
  0 <= l -> 0 <= n -> (forall i, l <= i < l + n -> sec i = span f (a + (i - l) * 2048) 2048) ->
  disc_bytes sec (l * 2048) (n * 2048) = span f a (n * 2048).
Proof.
  intros Hl Hn H. apply list_eq. intros i. destruct (Nat.lt_ge_cases i (Z.to_nat (n * 2048))).
  - rewrite disc_bytes_lookup, span_lookup by done. f_equal.
    pose proof (Z.div_mod (l * 2048 + Z.of_nat i) 2048 ltac:(lia)) as D. pose proof (Z.mod_pos_bound (l * 2048 + Z.of_nat i) 2048 ltac:(lia)) as B.
    rewrite H by lia. apply nth_lookup_Some. rewrite span_lookup by lia. do 2 f_equal. lia.
  - rewrite !lookup_ge_None_2; [done|by rewrite span_length|by rewrite disc_bytes_length].
Qed.

(** ** Hard disk: device-hdd.c *)

Record hdl_partspecs_t := PartSpec { part_offset : Z; data_start : Z; part_size : Z }.

(** [sceAtaDmaTransfer], reading: the result, the bytes and the drive *)
Class AtaDrive (W : Type) := sceAtaDmaTransfer : W -> Z -> Z -> Z * bytes * W.

Module Hdd.
Section Hdd.
Context {W : Type} `{!AtaDrive W}.

Record hdd := Hdd {
  drive : W;
  cdvdman_partspecs : list hdl_partspecs_t;
  CurrentPart : nat;
  NumParts : nat;
}.

Definition put_drive (h : hdd) (w : W) : hdd := Hdd w (cdvdman_partspecs h) (CurrentPart h) (NumParts h).
Definition put_part (h : hdd) (i : nat) : hdd := Hdd (drive h) (cdvdman_partspecs h) i (NumParts h).

Definition part_end (p : hdl_partspecs_t) : Z := u32 (part_offset p + part_size p / 2048).
Definition in_part (p : hdl_partspecs_t) (lsn : Z) : bool := (part_offset p <=? lsn) && (lsn <? part_end p).
Definition spec_at (h : hdd) (i : nat) : hdl_partspecs_t := nth i (cdvdman_partspecs h) (PartSpec 0 0 0).

(** [cdvdman_get_part_specs]; [None] is -ENXIO *)
Definition cdvdman_get_part_specs (h : hdd) (lsn : Z) : option hdd :=
  i ← find_index (fun p => in_part p lsn) (take (NumParts h) (cdvdman_partspecs h)); Some (put_part h i).

(** the loop of [DeviceReadSectors], with the bytes read so far *)
Fixpoint read_loop (fuel : nat) (h : hdd) (data : bytes) (lsn sectors : Z) : option (Z * bytes * hdd) :=
  if sectors =? 0 then Some (SCECdErNO, data, h)
  else
    match fuel with
    | O => None
    | S f =>
      match (if in_part (spec_at h (CurrentPart h)) lsn then Some h else cdvdman_get_part_specs h lsn) with
      | None => Some (SCECdErTRMOPN, data, h)
      | Some h =>
        let p := spec_at h (CurrentPart h) in
        let nsectors := u32 (part_end p - lsn) in
        let nsectors := if sectors <? nsectors then sectors else nsectors in
        let lba := u32 (data_start p + u32 (Z.shiftl (u32 (lsn - part_offset p)) 2)) in
        let '(r, d, w) := sceAtaDmaTransfer (drive h) lba (u32 (Z.shiftl nsectors 2)) in
        let h := put_drive h w in
        if negb (r =? 0) then Some (SCECdErREAD, data ++ d, h)
        else read_loop f h (data ++ d) (u32 (lsn + nsectors)) (sectors - nsectors)
      end
    end.

Definition DeviceReadSectors (h : hdd) (lsn sectors : Z) : option (Z * bytes * hdd) := read_loop (Z.to_nat sectors) h [] (u32 lsn) sectors.

(** *** The image on the partitions *)

Section Image.
Context (disk : Z -> Z) (sec : Z -> bytes).

(** the drive reads the disk *)
Definition drive_ok : Prop := forall w lba n, exists w', sceAtaDmaTransfer w lba n = (0, span disk (lba * 512) (n * 512), w').

(** every part holds its sectors of the image, and fits the numbers of the drive *)
Record image_on (h : hdd) : Prop := {
  on_parts p : p ∈ take (NumParts h) (cdvdman_partspecs h) -> 0 <= part_offset p /\ 0 <= data_start p /\ 0 <= part_size p /\
    part_offset p + part_size p / 2048 < 2 ^ 30 /\ data_start p + part_size p / 2048 * 4 < 2 ^ 32 /\
    forall l, part_offset p <= l < part_offset p + part_size p / 2048 -> sec l = span disk ((data_start p + (l - part_offset p) * 4) * 512) 2048;
  on_current : (CurrentPart h < NumParts h)%nat;
  on_specs : (NumParts h <= length (cdvdman_partspecs h))%nat;
}.

Definition covered (h : hdd) (l : Z) : bool := existsb (fun p => in_part p l) (take (NumParts h) (cdvdman_partspecs h)).

Lemma spec_in h : image_on h -> spec_at h (CurrentPart h) ∈ take (NumParts h) (cdvdman_partspecs h).
Proof.
  intros [_ Hc Hs]. apply list_elem_of_lookup. exists (CurrentPart h). rewrite lookup_take_lt by done.
  unfold spec_at. destruct (nth_lookup_or_length (cdvdman_partspecs h) (CurrentPart h) (PartSpec 0 0 0)) as [?|?]; [done|lia].
Qed.

(** after the search the current part holds the sector, if any does *)
Lemma seek_part h lsn : image_on h ->
  match (if in_part (spec_at h (CurrentPart h)) lsn then Some h else cdvdman_get_part_specs h lsn) with
  | None => covered h lsn = false
  | Some h' => image_on h' /\ in_part (spec_at h' (CurrentPart h')) lsn = true /\ covered h lsn = true /\
      cdvdman_partspecs h' = cdvdman_partspecs h /\ NumParts h' = NumParts h /\ drive h' = drive h
  end.
Proof.
  intros Hh. destruct (in_part (spec_at h (CurrentPart h)) lsn) eqn:E.
  - split_and!; try done. unfold covered. apply existsb_exists. eexists. split; [|exact E]. apply list_elem_of_In. by apply spec_in.
  - unfold cdvdman_get_part_specs. destruct (find_index _ _) as [i|] eqn:F; cbn [mbind option_bind].
    + apply find_index_Some in F as ((p & Hp & Hin) & _). pose proof (lookup_lt_Some _ _ _ Hp) as Hl. rewrite length_take in Hl.
      rewrite lookup_take_lt in Hp by lia. destruct Hh as [H1 H2 H3]. split_and!; try done.
      * split; [exact H1|cbn; lia|exact H3].
      * cbn. unfold spec_at. cbn. by rewrite (nth_lookup_Some _ _ _ _ Hp).
      * unfold covered. apply existsb_exists. exists p. split; [|done]. apply list_elem_of_In, list_elem_of_lookup. exists i. by rewrite lookup_take_lt by lia.
    + unfold covered. destruct (existsb _ _) eqn:X; [|done]. apply existsb_exists in X as (p & Hp & Hin).
      apply find_index_None in F. rewrite Forall_forall in F. specialize (F p ltac:(by apply list_elem_of_In)). congruence.
Qed.

Lemma image_on_drive h w : image_on h -> image_on (put_drive h w).
Proof. intros [H1 H2 H3]. by split. Qed.

Lemma in_part_covered h p l : p ∈ take (NumParts h) (cdvdman_partspecs h) -> in_part p l = true -> covered h l = true.
Proof. intros Hp Hin. apply existsb_exists. exists p. split; [by apply list_elem_of_In|done]. Qed.

Lemma covered_same h h' : cdvdman_partspecs h' = cdvdman_partspecs h -> NumParts h' = NumParts h -> covered h' = covered h.
Proof. intros H1 H2. unfold covered. by rewrite H1, H2. Qed.

Lemma read_loop_ok (Hdrive : drive_ok) fuel : forall h data lsn n k,
  image_on h -> 0 <= lsn -> lsn + n < 2 ^ 32 -> 0 <= k <= n -> n <= Z.of_nat fuel ->
  (forall l, lsn <= l < lsn + k -> covered h l = true) -> (k = n \/ covered h (lsn + k) = false) ->
  exists h', read_loop fuel h data lsn n = Some (if k =? n then SCECdErNO else SCECdErTRMOPN, data ++ disc_bytes sec (lsn * 2048) (k * 2048), h') /\
    image_on h' /\ cdvdman_partspecs h' = cdvdman_partspecs h /\ NumParts h' = NumParts h.
Proof.
  induction fuel as [|f IH]; intros h data lsn n k Hh Hl H32 Hk Hf Hcov Hend; cbn [read_loop].
  { replace n with 0 by lia. replace k with 0 by lia. exists h. by rewrite app_nil_r. }
  destruct (Z.eqb_spec n 0) as [->|Hn]. { replace k with 0 by lia. exists h. by rewrite app_nil_r. }
  pose proof (seek_part h lsn Hh) as S. destruct (if in_part _ _ then _ else _) as [h1|].
  2:{ assert (k = 0) as -> by (destruct (Z.eq_dec k 0); [done|]; rewrite Hcov in S by lia; done). exists h.
      replace (0 =? n) with false by lia. by rewrite app_nil_r. }
  destruct S as (H1 & Hin & Hc & T1 & T2 & _). set (p := spec_at h1 (CurrentPart h1)) in *. cbv zeta.
  pose proof (spec_in h1 H1) as Hp. fold p in Hp. destruct (on_parts h1 H1 p Hp) as (P1 & P2 & P3 & P4 & P5 & P6).
  assert (Hs : 0 <= part_size p / 2048) by (apply Z.div_pos; lia).
  assert (He : part_end p = part_offset p + part_size p / 2048) by (apply u32_id; lia).
  unfold in_part in Hin. rewrite He in *. b2p.
  rewrite (u32_id (_ - lsn)) by lia.
  set (m := if n <? _ then n else _).
  assert (Hm : 0 < m <= n /\ lsn + m <= part_offset p + part_size p / 2048) by (unfold m; destruct (Z.ltb_spec n (part_offset p + part_size p / 2048 - lsn)); lia).
  assert (Hmk : m <= k).
  { destruct Hend as [->|Hno]; [lia|]. destruct (Z.le_gt_cases m k); [done|]. rewrite (in_part_covered h p (lsn + k)) in Hno; [done|by rewrite <- T1, <- T2|].
    unfold in_part. rewrite He. lia. }
  rewrite !Z.shiftl_mul_pow2 by lia. change (2 ^ 2) with 4. rewrite (u32_id (lsn - part_offset p)) by lia.
  rewrite (u32_id (_ * 4)) by lia. rewrite (u32_id (data_start p + _)) by lia. rewrite (u32_id (m * 4)) by lia.
  destruct (Hdrive (drive h1) (data_start p + (lsn - part_offset p) * 4) (m * 4)) as [w' ->]. cbn [negb Z.eqb].
  rewrite (u32_id (lsn + m)) by lia.
  assert (E : span disk ((data_start p + (lsn - part_offset p) * 4) * 512) (m * 4 * 512) = disc_bytes sec (lsn * 2048) (m * 2048)).
  { rewrite (disc_bytes_span sec disk ((data_start p + (lsn - part_offset p) * 4) * 512)); [f_equal; lia|lia|lia|].
    intros i Hi. rewrite P6 by lia. f_equal. lia. }
  rewrite E. assert (T3 : covered (put_drive h1 w') = covered h) by (by apply covered_same).
  destruct (IH (put_drive h1 w') (data ++ disc_bytes sec (lsn * 2048) (m * 2048)) (lsn + m) (n - m) (k - m)) as (h2 & -> & G1 & G2 & G3);
    [by apply image_on_drive|lia|lia|lia|lia| | |].
  - intros l Hl'. rewrite T3. apply Hcov. lia.
  - rewrite T3. destruct Hend as [->|Hno]; [by left|right]. by replace (lsn + m + (k - m)) with (lsn + k) by lia.
  - exists h2. split; [|cbn in *; split_and!; [done|congruence|congruence]]. do 2 f_equal. f_equal.
    + by replace (k - m =? n - m) with (k =? n) by lia.
    + rewrite <- app_assoc. f_equal. replace (k * 2048) with (m * 2048 + (k - m) * 2048) by lia. rewrite disc_bytes_app by lia. do 2 f_equal. lia.
Qed.

(** A read of a disc image on a hard disk that is split over several partitions
    gives the sectors of the image, wherever it starts and whichever partition the last
    read was in; at the first sector that no partition holds it stops with an error, the
    sectors before it being read. *)
Theorem hdd_read_exact h lsn n k :
  drive_ok -> image_on h -> 0 <= lsn -> lsn + n < 2 ^ 32 -> 0 <= k <= n ->
  (forall l, lsn <= l < lsn + k -> covered h l = true) -> (k = n \/ covered h (lsn + k) = false) ->
  exists h', DeviceReadSectors h lsn n = Some (if k =? n then SCECdErNO else SCECdErTRMOPN, disc_bytes sec (lsn * 2048) (k * 2048), h') /\
    image_on h' /\ cdvdman_partspecs h' = cdvdman_partspecs h /\ NumParts h' = NumParts h.
Proof.
  intros Hd Hh Hl H32 Hk Hcov Hend. unfold DeviceReadSectors. rewrite u32_id by lia.
  destruct (read_loop_ok Hd (Z.to_nat n) h [] lsn n k) as (h' & -> & H); try done; [lia|]. by exists h'.
Qed.
End Image.
End Hdd.
End Hdd.

(** two partitions of two and three sectors, the second one first on the disk *)
Definition demo_disk (a : Z) : Z := a / 512 mod 256.
Definition demo_parts : list hdl_partspecs_t := [PartSpec 0 100 4096; PartSpec 2 40 6144].
Definition demo_sec (l : Z) : bytes := span demo_disk ((if l <? 2 then 100 + l * 4 else 40 + (l - 2) * 4) * 512) 2048.
#[export] Instance demo_drive : AtaDrive unit := fun _ lba n => (0, span demo_disk (lba * 512) (n * 512), tt).

Lemma hdd_read_exact_witness :
  (exists h', Hdd.DeviceReadSectors (Hdd.Hdd tt demo_parts 1 2) 1 3 = Some (SCECdErNO, disc_bytes demo_sec (1 * 2048) (3 * 2048), h')) /\
  (exists h', Hdd.DeviceReadSectors (Hdd.Hdd tt demo_parts 0 2) 4 3 = Some (SCECdErTRMOPN, disc_bytes demo_sec (4 * 2048) (1 * 2048), h')).
Proof.
  assert (Hd : Hdd.drive_ok (W := unit) demo_disk) by (intros [] lba n; by exists tt).
  assert (Hp : forall i, (i < 2)%nat -> Hdd.image_on demo_disk demo_sec (Hdd.Hdd tt demo_parts i 2)).
  { intros i Hi. split; [|exact Hi|cbn; lia]. intros p Hp. cbn in Hp. rewrite !elem_of_cons in Hp.
    destruct Hp as [->|[->|Hp%elem_of_nil]]; [| |done]; cbn; change (4096 / 2048) with 2; change (6144 / 2048) with 3; split_and!; try lia; intros l Hl; unfold demo_sec; [replace (l <? 2) with true by lia|replace (l <? 2) with false by lia]; f_equal; lia. }
  assert (Hc : forall i l, Hdd.covered (Hdd.Hdd tt demo_parts i 2) l = (0 <=? l) && (l <? 5)).
  { intros i l. unfold Hdd.covered, Hdd.in_part. cbn. change (Hdd.part_end (PartSpec 0 100 4096)) with 2. change (Hdd.part_end (PartSpec 2 40 6144)) with 5. lia. }
  split.
  - destruct (Hdd.hdd_read_exact demo_disk demo_sec (Hdd.Hdd tt demo_parts 1 2) 1 3 3) as (h' & E & _); [done|apply Hp; lia|lia|lia|lia| |by left|by exists h'].
    intros l Hl. rewrite Hc. lia.
  - destruct (Hdd.hdd_read_exact demo_disk demo_sec (Hdd.Hdd tt demo_parts 0 2) 4 3 1) as (h' & E & _); [done|apply Hp; lia|lia|lia|lia| | |by exists h'].
    + intros l Hl. rewrite Hc. lia.
    + right. rewrite Hc. lia.
Defined.

(** ** Server: device-smb.c, smb.c *)

(** one READ_ANDX request: the file, the offset's halves and the count; the bytes that
    came, or an error *)
Class SmbServer (W : Type) := smb_ReadAndX : W -> Z -> Z -> Z -> Z -> Z * bytes * W.

Module Smb.
Section Smb.
Context {W : Type} `{!SmbServer W}.

Definition CLIENT_MAX_RECV_SIZE : Z := 8192.

Record smb := Smb {
  server : W;
  smb_io_sema : Z;
  FIDs : list Z;
  NumParts : Z;
}.

Definition put_sema (s : smb) (v : Z) : smb := Smb (server s) v (FIDs s) (NumParts s).
Definition put_server (s : smb) (w : W) : smb := Smb w (smb_io_sema s) (FIDs s) (NumParts s).

(** [WaitSema]; [None] when nobody signals *)
Definition WaitSema (s : smb) : option smb := if 0 <? smb_io_sema s then Some (put_sema s (smb_io_sema s - 1)) else None.
Definition SignalSema (s : smb) : smb := put_sema s (smb_io_sema s + 1).

(** the loop of [smb_ReadFile]; the first component is the result of a request that failed *)
Fixpoint read_file_loop (fuel : nat) (w : W) (fid offsetlow offsethigh : Z) (data : bytes) (remaining : Z) : option (option Z * bytes * W) :=
  if remaining <=? 0 then Some (None, data, w)
  else
    match fuel with
    | O => None
    | S f =>
      let toRead := if CLIENT_MAX_RECV_SIZE <? remaining then CLIENT_MAX_RECV_SIZE else remaining in
      let '(result, d, w) := smb_ReadAndX w fid offsetlow offsethigh toRead in
      if result <=? 0 then Some (Some result, data ++ d, w)
      else
        let offsethigh := if u32 (offsetlow + result) <? offsetlow then u32 (offsethigh + 1) else offsethigh in
        read_file_loop f w fid (u32 (offsetlow + result)) offsethigh (data ++ d) (remaining - result)
    end.

(** a failed request returns with the semaphore taken *)
Definition smb_ReadFile (s : smb) (fid offsetlow offsethigh nbytes : Z) : option (Z * bytes * smb) :=
  s ← WaitSema s;
  '(e, data, w) ← read_file_loop (Z.to_nat nbytes) (server s) fid offsetlow offsethigh [] nbytes;
  match e with
  | Some result => Some (result, data, put_server s w)
  | None => Some (nbytes, data, SignalSema (put_server s w))
  end.

Definition smb_ReadCD (s : smb) (lsn nsectors : Z) (part_num : nat) : option (Z * bytes * smb) :=
  smb_ReadFile s (nth part_num (FIDs s) 0) (u32 (lsn * 2048)) (Z.shiftr lsn 21) (s32 (nsectors * 2048)).

(** the loop of [DeviceReadSectors] over the parts, [k] of them left *)
Fixpoint parts_loop (k : nat) (s : smb) (i : nat) (lsn offslsn lbound ubound sectors : Z) (data : bytes) : option (Z * bytes * smb) :=
  match k with
  | O => Some (SCECdErNO, data, s)
  | S k =>
    if (lbound <=? lsn) && (lsn <? ubound) then
      let over := u32 (ubound - 1) <? u32 (lsn + sectors) in
      let sectors_to_read := if over then u32 (ubound - lsn) else sectors in
      let sectors := if over then u32 (sectors - sectors_to_read) else sectors in
      '(r, d, s) ← smb_ReadCD s offslsn sectors_to_read i;
      if r <=? 0 then Some (SCECdErREAD, data ++ d, s)
      else if negb over then Some (SCECdErNO, data ++ d, s)
      else parts_loop k s (S i) ubound (u32 (u32 (offslsn + sectors_to_read) - 0x80000)) ubound (u32 (ubound + 0x80000)) sectors (data ++ d)
    else parts_loop k s (S i) lsn (u32 (offslsn - 0x80000)) ubound (u32 (ubound + 0x80000)) sectors data
  end.

Definition DeviceReadSectors (s : smb) (lsn sectors : Z) : option (Z * bytes * smb) :=
  let ubound := if 1 <? NumParts s then 0x80000 else 0xFFFFFFFF in
  parts_loop (Z.to_nat (NumParts s)) s 0 (u32 lsn) (u32 lsn) 0 ubound sectors [].

(** *** Files *)

Section Files.
Context (file : Z -> Z -> Z) (flen : Z -> Z).

(** inside a file a request gives some of the bytes asked for *)
Definition serves : Prop := forall w fid low high n, 0 <= low < 2 ^ 32 -> 0 <= high -> 0 < n <= CLIENT_MAX_RECV_SIZE -> high * 2 ^ 32 + low + n <= flen fid ->
  exists k w', 0 < k <= n /\ smb_ReadAndX w fid low high n = (k, span (file fid) (high * 2 ^ 32 + low) k, w').

Lemma read_file_loop_total fuel : forall w fid low high data n, n <= Z.of_nat fuel -> exists x, read_file_loop fuel w fid low high data n = Some x.
Proof.
  induction fuel as [|f IH]; intros w fid low high data n H; cbn [read_file_loop].
  - replace (n <=? 0) with true by lia. by eexists.
  - destruct (n <=? 0); [by eexists|]. destruct (smb_ReadAndX _ _ _ _ _) as [[r d] w']. destruct (Z.leb_spec r 0); [by eexists|]. apply IH. lia.
Qed.

Lemma read_file_loop_ok (Hs : serves) fuel : forall w fid low high data n,
  0 <= low < 2 ^ 32 -> 0 <= high -> 0 <= n < 2 ^ 32 -> n <= Z.of_nat fuel -> high * 2 ^ 32 + low + n <= flen fid -> high * 2 ^ 32 + low + n < 2 ^ 62 ->
  exists w', read_file_loop fuel w fid low high data n = Some (None, data ++ span (file fid) (high * 2 ^ 32 + low) n, w').
Proof.
  induction fuel as [|f IH]; intros w fid low high data n Hl Hh Hn Hf Hlen H62; cbn [read_file_loop].
  { replace n with 0 by lia. exists w. cbn. by rewrite app_nil_r. }
  destruct (Z.leb_spec n 0). { replace n with 0 by lia. exists w. by rewrite app_nil_r. }
  cbv zeta. set (m := if _ <? n then _ else n).
  assert (Hm : 0 < m <= n /\ m <= CLIENT_MAX_RECV_SIZE) by (unfold m, CLIENT_MAX_RECV_SIZE; destruct (Z.ltb_spec 8192 n); lia).
  destruct (Hs w fid low high m) as (k & w' & Hk & ->); [lia..|]. replace (k <=? 0) with false by lia.
  set (high' := if u32 (low + k) <? low then u32 (high + 1) else high).
  assert (E : high' * 2 ^ 32 + u32 (low + k) = high * 2 ^ 32 + low + k /\ 0 <= high' /\ 0 <= u32 (low + k) < 2 ^ 32).
  { unfold high', u32. destruct (Z.lt_ge_cases (low + k) (2 ^ 32)).
    - rewrite (Z.mod_small (low + k)) by lia. replace (low + k <? low) with false by lia. lia.
    - replace (low + k) with (low + k - 2 ^ 32 + 1 * 2 ^ 32) by lia. rewrite Z.mod_add, Z.mod_small by lia.
      replace (low + k - 2 ^ 32 <? low) with true by lia. rewrite Z.mod_small by lia. lia. }
  destruct E as (E1 & E2 & E3).
  destruct (IH w' fid (u32 (low + k)) high' (data ++ span (file fid) (high * 2 ^ 32 + low) k) (n - k)) as [w2 ->]; [lia..|].
  exists w2. do 3 f_equal. rewrite <- app_assoc, E1. f_equal. rewrite <- span_app by lia. f_equal. lia.
Qed.

(** a read inside the file gives its bytes, in requests of any size *)
Lemma smb_ReadFile_ok (Hs : serves) s fid low high n :
  0 < smb_io_sema s -> 0 <= low < 2 ^ 32 -> 0 <= high -> 0 <= n < 2 ^ 32 -> high * 2 ^ 32 + low + n <= flen fid -> high * 2 ^ 32 + low + n < 2 ^ 62 ->
  exists w', smb_ReadFile s fid low high n = Some (n, span (file fid) (high * 2 ^ 32 + low) n, put_server s w').
Proof.
  intros Hsem Hl Hh Hn Hf H62. unfold smb_ReadFile, WaitSema. replace (0 <? smb_io_sema s) with true by lia. cbn [mbind option_bind].
  destruct (read_file_loop_ok Hs (Z.to_nat n) (server s) fid low high [] n) as [w' E]; [lia..|]. cbn. cbn in E. rewrite E. exists w'. cbn [mbind option_bind].
  unfold SignalSema, put_sema, put_server. cbn. do 3 f_equal. lia.
Qed.

Lemma smb_ReadCD_ok (Hs : serves) s l n part :
  0 < smb_io_sema s -> 0 <= l < 2 ^ 32 -> 0 <= n < 2 ^ 20 -> (l + n) * 2048 <= flen (nth part (FIDs s) 0) ->
  exists w', smb_ReadCD s l n part = Some (n * 2048, span (file (nth part (FIDs s) 0)) (l * 2048) (n * 2048), put_server s w').
Proof.
  intros Hsem Hl Hn Hf. unfold smb_ReadCD. rewrite s32_id by lia. rewrite Z.shiftr_div_pow2 by lia.
  assert (E : l / 2 ^ 21 * 2 ^ 32 + u32 (l * 2048) = l * 2048).
  { unfold u32. pose proof (Z.div_mod l (2 ^ 21) ltac:(lia)). replace (2 ^ 32) with (2 ^ 21 * 2048) at 2 by lia. rewrite Z.mul_mod_distr_r by lia. lia. }
  pose proof (u32_range (l * 2048)). assert (0 <= l / 2 ^ 21) by (apply Z.div_pos; lia).
  destruct (smb_ReadFile_ok Hs s (nth part (FIDs s) 0) (u32 (l * 2048)) (l / 2 ^ 21) (n * 2048)) as [w' ->]; [lia..|]. exists w'. by rewrite E.
Qed.

(** *** The image over its parts *)

Definition part_sectors : Z := 0x80000.
Definition part_of (s : smb) (l : Z) : Z := if 1 <? NumParts s then l / part_sectors else 0.
Definition place_in (s : smb) (l : Z) : Z := if 1 <? NumParts s then l mod part_sectors else l.
Definition fid_of (s : smb) (l : Z) : Z := nth (Z.to_nat (part_of s l)) (FIDs s) 0.

(** every sector [l] below [total] is in its part *)
Definition image_in (sec : Z -> bytes) (s : smb) (total : Z) : Prop :=
  forall l, 0 <= l < total -> sec l = span (file (fid_of s l)) (place_in s l * 2048) 2048 /\ (place_in s l + 1) * 2048 <= flen (fid_of s l).

(** the sectors of one part *)
Lemma part_read (Hs : serves) sec s total l n :
  image_in sec s total -> 0 < smb_io_sema s -> 0 <= l -> 0 < n < 2 ^ 20 -> l + n <= total -> total < 2 ^ 32 ->
  (forall i, 0 <= i < n -> part_of s (l + i) = part_of s l /\ place_in s (l + i) = place_in s l + i) -> 0 <= place_in s l <= l ->
  exists w', smb_ReadCD s (place_in s l) n (Z.to_nat (part_of s l)) = Some (n * 2048, disc_bytes sec (l * 2048) (n * 2048), put_server s w').
Proof.
  intros Himg Hsem Hl Hn Ht H32 Hpart Hpl.
  assert (Hlen : (place_in s l + n) * 2048 <= flen (fid_of s l)).
  { destruct (Hpart (n - 1)) as [P1 P2]; [lia|]. destruct (Himg (l + (n - 1))) as [_ H]; [lia|]. unfold fid_of in *. rewrite P1, P2 in H. lia. }
  destruct (smb_ReadCD_ok Hs s (place_in s l) n (Z.to_nat (part_of s l))) as [w' ->]; [done|lia|lia|done|]. exists w'. do 3 f_equal.
  symmetry. apply disc_bytes_span; [lia|lia|]. intros i Hi. destruct (Hpart (i - l)) as [P1 P2]; [lia|]. replace (l + (i - l)) with i in * by lia.
  destruct (Himg i) as [-> _]; [lia|]. unfold fid_of. rewrite P1, P2. f_equal. lia.
Qed.

(** a read that ends where a part ends, with another part behind it *)
Definition ends_at_part (s : smb) (l : Z) : bool := (1 <? NumParts s) && (l mod part_sectors =? 0) && (l <? NumParts s * part_sectors).

Lemma put_server_twice s w w' : put_server (put_server s w) w' = put_server s w'.
Proof. done. Qed.

Lemma parts_loop_ok (Hs : serves) sec k : forall s i l n data,
  1 < NumParts s < 256 -> image_in sec s (NumParts s * part_sectors) -> 0 < smb_io_sema s -> Z.of_nat i + Z.of_nat k = NumParts s ->
  Z.of_nat i * part_sectors <= l -> 0 <= n < 2 ^ 20 -> l + n <= NumParts s * part_sectors -> (n = 0 -> l = Z.of_nat i * part_sectors) ->
  exists w', parts_loop k s i l (l - Z.of_nat i * part_sectors) (Z.of_nat i * part_sectors) ((Z.of_nat i + 1) * part_sectors) n data =
    Some (if ends_at_part s (l + n) then SCECdErREAD else SCECdErNO, data ++ disc_bytes sec (l * 2048) (n * 2048), put_server s w').
Proof.
  unfold part_sectors in *. induction k as [|k IH]; intros s i l n data Hnp Himg Hsem Hik Hl Hn Htot Hz; cbn [parts_loop].
  { replace n with 0 by lia. unfold ends_at_part. replace (l + 0 <? NumParts s * part_sectors) with false by (unfold part_sectors; lia). rewrite andb_false_r.
    exists (server s). rewrite app_nil_r. by destruct s. }
  replace (Z.of_nat i * 0x80000 <=? l) with true by lia. rewrite andb_true_l.
  assert (Hi : Z.of_nat (S i) * 0x80000 = (Z.of_nat i + 1) * 0x80000) by lia.
  assert (Hu : u32 ((Z.of_nat i + 1) * 0x80000 + 0x80000) = (Z.of_nat (S i) + 1) * 0x80000) by (rewrite u32_id; lia).
  destruct (Z.ltb_spec l ((Z.of_nat i + 1) * 0x80000)) as [Hin|Hout].
  2:{ rewrite u32_id by lia. rewrite Hu, <- Hi. replace (l - Z.of_nat i * 524288 - 0x80000) with (l - Z.of_nat (S i) * 0x80000) by lia.
      apply IH; try done; lia. }
  rewrite (u32_id (_ - 1)) by lia. rewrite (u32_id (l + n)) by lia. rewrite (u32_id (_ - l)) by lia.
  assert (Hpart : part_of s l = Z.of_nat i /\ place_in s l = l - Z.of_nat i * 0x80000).
  { unfold part_of, place_in, part_sectors. replace (1 <? NumParts s) with true by lia.
    replace l with (l - Z.of_nat i * 0x80000 + Z.of_nat i * 0x80000) at 1 2 by lia. rewrite Z.div_add, Z.mod_add by lia. rewrite Z.div_small, Z.mod_small by lia. lia. }
  destruct Hpart as [P1 P2].
  assert (Hrun : forall m, 0 < m < 2 ^ 20 -> l + m <= (Z.of_nat i + 1) * 0x80000 ->
    exists w', smb_ReadCD s (l - Z.of_nat i * 0x80000) m i = Some (m * 2048, disc_bytes sec (l * 2048) (m * 2048), put_server s w')).
  { intros m Hm Hle. destruct (part_read Hs sec s (NumParts s * part_sectors) l m) as [w' E]; try done; unfold part_sectors; try lia.
    - intros j Hj. rewrite P1, P2. unfold part_of, place_in, part_sectors. replace (1 <? NumParts s) with true by lia.
      replace (l + j) with (l + j - Z.of_nat i * 0x80000 + Z.of_nat i * 0x80000) at 1 2 by lia. rewrite Z.div_add, Z.mod_add by lia. rewrite Z.div_small, Z.mod_small by lia. lia.
    - exists w'. rewrite P1, P2, Nat2Z.id in E. exact E. }
  destruct (Z.ltb_spec ((Z.of_nat i + 1) * 0x80000 - 1) (l + n)) as [Hover|Hunder].
  - set (m := (Z.of_nat i + 1) * 0x80000 - l). rewrite (u32_id (n - m)) by lia. destruct (Hrun m) as [w' ->]; [lia|lia|]. cbn [mbind option_bind].
    replace (m * 2048 <=? 0) with false by lia. cbn [negb]. rewrite (u32_id (l - Z.of_nat i * 524288 + m)) by lia. rewrite (u32_id (_ - 524288)) by lia.
    rewrite Hu. replace (l - Z.of_nat i * 0x80000 + m - 0x80000) with (Z.of_nat (S i) * 0x80000 - Z.of_nat (S i) * 0x80000) by lia. rewrite <- Hi.
    destruct (IH (put_server s w') (S i) (Z.of_nat (S i) * 0x80000) (n - m) (data ++ disc_bytes sec (l * 2048) (m * 2048))) as [w2 ->]; try done; try (cbn; lia).
    exists w2. rewrite put_server_twice, <- app_assoc. change (ends_at_part (put_server s w')) with (ends_at_part s).
    replace (Z.of_nat (S i) * 0x80000 + (n - m)) with (l + n) by lia. do 4 f_equal.
    replace (n * 2048) with (m * 2048 + (n - m) * 2048) by lia. rewrite disc_bytes_app by lia. do 2 f_equal. lia.
  - destruct (Z.eq_dec n 0) as [->|Hn0].
    + unfold smb_ReadCD. change (s32 (0 * 2048)) with 0. unfold smb_ReadFile, WaitSema. replace (0 <? smb_io_sema s) with true by lia. cbn [mbind option_bind].
      change (Z.to_nat 0) with 0%nat. cbn. exists (server s). unfold ends_at_part, part_sectors. rewrite Z.add_0_r, Hz by done.
      rewrite Z.mod_mul by lia. replace (1 <? NumParts s) with true by lia. replace (_ <? NumParts s * 0x80000) with true by lia. cbn.
      unfold SignalSema, put_sema, put_server. cbn. replace (smb_io_sema s - 1 + 1) with (smb_io_sema s) by lia. by rewrite ?app_nil_r.
    + destruct (Hrun n) as [w' ->]; [lia|lia|]. cbn [mbind option_bind]. replace (n * 2048 <=? 0) with false by lia. cbn [negb].
      exists w'. unfold ends_at_part, part_sectors. replace ((l + n) mod 0x80000 =? 0) with false; [by rewrite andb_false_r|].
      replace (l + n) with (l + n - Z.of_nat i * 0x80000 + Z.of_nat i * 0x80000) by lia. rewrite Z.mod_add, Z.mod_small by lia. lia.
Qed.

(** A read of an image on a server, in one file or in parts of a gigabyte, puts the
    sectors of the image into the buffer, across parts and in transfers of any size. It
    reports success, except when it ends exactly where a part ends and another follows:
    then it goes on to read nothing from that part and reports a read error. *)
Theorem smb_read_exact sec s total l n :
  serves -> image_in sec s total -> 1 <= NumParts s < 256 -> total = (if 1 <? NumParts s then NumParts s * part_sectors else 0xFFFFFFFE) ->
  0 < smb_io_sema s -> 0 <= l -> 0 < n < 2 ^ 20 -> l + n <= total ->
  exists w', DeviceReadSectors s l n =
    Some (if ends_at_part s (l + n) then SCECdErREAD else SCECdErNO, disc_bytes sec (l * 2048) (n * 2048), put_server s w').
Proof.
  intros Hs Himg Hnp -> Hsem Hl Hn Hle. unfold DeviceReadSectors. destruct (Z.ltb_spec 1 (NumParts s)) as [Hm|H1].
  - unfold part_sectors in Hle. rewrite u32_id by lia.
    destruct (parts_loop_ok Hs sec (Z.to_nat (NumParts s)) s 0 l n []) as [w' E]; try done; try (unfold part_sectors; lia).
    exists w'. rewrite Z.mul_0_l, Z.sub_0_r in E. exact E.
  - replace (NumParts s) with 1 by lia. rewrite u32_id by lia. change (Z.to_nat 1) with 1%nat. cbn [parts_loop].
    replace (0 <=? l) with true by lia. replace (l <? 0xFFFFFFFF) with true by lia. cbn [andb]. rewrite (u32_id (l + n)) by lia.
    change (u32 (4294967295 - 1)) with 4294967294. replace (4294967294 <? l + n) with false by lia.
    assert (Hpp : forall x, part_of s x = 0 /\ place_in s x = x) by (intros x; unfold part_of, place_in; replace (1 <? NumParts s) with false by lia; done).
    destruct (part_read Hs sec s 0xFFFFFFFE l n) as [w' E]; try done; try lia.
    + intros i Hi. rewrite !(proj1 (Hpp _)), !(proj2 (Hpp _)). done.
    + rewrite (proj2 (Hpp l)). lia.
    + rewrite (proj1 (Hpp l)), (proj2 (Hpp l)) in E. change (Z.to_nat 0) with 0%nat in E. rewrite E. cbn [mbind option_bind].
      replace (n * 2048 <=? 0) with false by lia. cbn [negb app]. exists w'. unfold ends_at_part. by replace (1 <? NumParts s) with false by lia.
Qed.
End Files.

(** A request that fails returns its error, but the semaphore of the file transfers
    is not given back: every later transfer waits for ever. *)
Theorem failed_read_locks s fid low high n w d r :
  smb_io_sema s = 1 -> 0 < n -> smb_ReadAndX (server s) fid low high (if CLIENT_MAX_RECV_SIZE <? n then CLIENT_MAX_RECV_SIZE else n) = (r, d, w) -> r <= 0 ->
  smb_ReadFile s fid low high n = Some (r, d, put_server (put_sema s 0) w) /\
  forall w2 fid2 low2 high2 n2, smb_ReadFile (put_server (put_sema s 0) w2) fid2 low2 high2 n2 = None.
Proof.
  intros Hsem Hn E Hr. split; [|done]. unfold smb_ReadFile, WaitSema. rewrite Hsem. cbn [Z.ltb Z.compare mbind option_bind].
  destruct (Z.to_nat n) as [|f] eqn:F; [lia|]. cbn [read_file_loop]. replace (n <=? 0) with false by lia. cbn [server put_sema].
  rewrite E. replace (r <=? 0) with true by lia. done.
Qed.
End Smb.
End Smb.

(** *** Example servers *)

Inductive netdrive := Net.
Definition net_file (fid a : Z) : Z := (fid + a / 2048) mod 256.
#[export] Instance net_server : SmbServer netdrive := fun _ fid low high n => (n, span (net_file fid) (high * 2 ^ 32 + low) n, Net).
Lemma net_serves : Smb.serves net_file (fun _ => 2 ^ 50).
Proof. intros w fid low high n H1 H2 H3 H4. exists n, Net. split; [lia|done]. Qed.

Definition two_parts : Smb.smb := Smb.Smb Net 1 [7; 9] 2.
Definition two_part_sec (l : Z) : bytes := span (net_file (Smb.fid_of two_parts l)) (Smb.place_in two_parts l * 2048) 2048.
Lemma two_part_image : Smb.image_in net_file (fun _ => 2 ^ 50) two_part_sec two_parts (2 * Smb.part_sectors).
Proof.
  intros l Hl. split; [done|]. unfold Smb.place_in. cbn [Smb.NumParts two_parts]. change (1 <? 2) with true. cbv iota.
  unfold Smb.part_sectors in *. pose proof (Z.mod_pos_bound l 0x80000 ltac:(lia)). lia.
Qed.

Lemma smb_read_exact_witness :
  (exists w', Smb.DeviceReadSectors two_parts 0x7FFFF 2 =
    Some (SCECdErNO, disc_bytes two_part_sec (0x7FFFF * 2048) (2 * 2048), Smb.put_server two_parts w')) /\
  (exists w', Smb.DeviceReadSectors two_parts 0x7FFFF 1 =
    Some (SCECdErREAD, disc_bytes two_part_sec (0x7FFFF * 2048) (1 * 2048), Smb.put_server two_parts w')).
Proof.
  split.
  - exact (Smb.smb_read_exact net_file (fun _ => 2 ^ 50) two_part_sec two_parts (2 * Smb.part_sectors) 0x7FFFF 2 net_serves two_part_image
      ltac:(cbn; lia) eq_refl eq_refl ltac:(lia) ltac:(lia) ltac:(unfold Smb.part_sectors; lia)).
  - exact (Smb.smb_read_exact net_file (fun _ => 2 ^ 50) two_part_sec two_parts (2 * Smb.part_sectors) 0x7FFFF 1 net_serves two_part_image
      ltac:(cbn; lia) eq_refl eq_refl ltac:(lia) ltac:(lia) ltac:(unfold Smb.part_sectors; lia)).
Defined.

Inductive deadserver := Dead.
#[export] Instance dead_server : SmbServer deadserver := fun _ _ _ _ _ => (-2, [], Dead).

Lemma failed_read_locks_witness :
  Smb.smb_ReadFile (Smb.Smb Dead 1 [7] 1) 7 0 0 2048 = Some (-2, [], Smb.Smb Dead 0 [7] 1) /\
  Smb.smb_ReadFile (Smb.Smb Dead 0 [7] 1) 7 0 0 2048 = None.
Proof.
  destruct (Smb.failed_read_locks (Smb.Smb Dead 1 [7] 1) 7 0 0 2048 Dead [] (-2) eq_refl ltac:(lia) eq_refl ltac:(lia)) as [H1 H2].
  split; [exact H1|exact (H2 Dead 7 0 0 2048)].
Defined.

(** ** Memory card adapter: device-mmce.c *)

(** the driver: the image's size and a read of sectors, with how many were read *)
Class MmceDrive (W : Type) := {
  mmcedrv_get_size : W -> Z * W;
  mmcedrv_read_sector : W -> Z -> Z -> Z * bytes * W;
}.

Module Mmce.
Section Mmce.
Context {W : Type} `{!MmceDrive W}.

Record mmce := Mmce { card : W; resident : bool; mmce_dev_ready : bool }.

(** the polls of [DeviceFSInit], [tries] of them left *)
Fixpoint poll (tries : nat) (w : W) : bool * W :=
  match tries with
  | O => (false, w)
  | S k => let '(size, w) := mmcedrv_get_size w in if 0 <? size then (true, w) else poll k w
  end.

(** [present] tells whether the driver module was found *)
Definition DeviceFSInit (present : bool) (m : mmce) : mmce :=
  if negb present then Mmce (card m) (resident m) false
  else let '(ready, w) := poll 100 (card m) in Mmce w true ready.

(** the attempts of a read, [k] more after this one *)
Fixpoint attempts (k : nat) (w : W) (buf : bytes) (lsn sectors : Z) : Z * bytes * W :=
  let '(res, d, w) := mmcedrv_read_sector w lsn sectors in
  let buf := blit buf 0 d in
  match k with
  | S k => if res =? sectors then (res, buf, w) else attempts k w buf lsn sectors
  | O => (res, buf, w)
  end.

Definition DeviceReadSectors (m : mmce) (buf : bytes) (lsn sectors : Z) : Z * bytes * mmce :=
  let '(ready, w) :=
    if mmce_dev_ready m then (true, card m)
    else if resident m then let '(size, w) := mmcedrv_get_size (card m) in (0 <? size, w)
    else (false, card m) in
  let m := Mmce w (resident m) ready in
  if negb ready then (SCECdErREAD, buf, m)
  else
    let '(res, buf, w) := attempts 2 w buf (u32 lsn) sectors in
    (if res =? sectors then SCECdErNO else SCECdErREAD, buf, Mmce w (resident m) true).

(** a read that claims all its sectors gives them *)
Definition honest (sec : Z -> bytes) : Prop := forall w lsn n d w',
  mmcedrv_read_sector w lsn n = (n, d, w') -> d = disc_bytes sec (lsn * 2048) (n * 2048).

Lemma attempts_good sec k : honest sec -> forall w buf lsn n buf' w',
  attempts k w buf lsn n = (n, buf', w') -> Z.of_nat (length buf) = n * 2048 ->
  (forall w lsn n r d w', mmcedrv_read_sector w lsn n = (r, d, w') -> Z.of_nat (length d) <= n * 2048) -> buf' = disc_bytes sec (lsn * 2048) (n * 2048).
Proof.
  intros Hh. induction k as [|k IH]; intros w buf lsn n buf' w' E Hl Hd; cbn [attempts] in E;
    destruct (mmcedrv_read_sector w lsn n) as [[res d] w1] eqn:R.
  - injection E as -> <- <-. rewrite (Hh _ _ _ _ _ R). unfold blit. cbn [take app Nat.add]. rewrite disc_bytes_length, drop_ge by lia. apply app_nil_r.
  - destruct (Z.eqb_spec res n) as [->|Hne].
    + injection E as <- <-. rewrite (Hh _ _ _ _ _ R). unfold blit. cbn [take app Nat.add]. rewrite disc_bytes_length, drop_ge by lia. apply app_nil_r.
    + apply IH in E; try done. pose proof (Hd _ _ _ _ _ _ R). rewrite blit_length; lia.
Qed.

(** a read that reports success filled the buffer with the sectors, at whichever attempt;
    a card that is away fails at once *)
Lemma mmce_read_ok sec m buf lsn n : honest sec -> 0 <= lsn < 2 ^ 32 -> Z.of_nat (length buf) = n * 2048 ->
  (forall w lsn n r d w', mmcedrv_read_sector w lsn n = (r, d, w') -> Z.of_nat (length d) <= n * 2048) ->
  let '(e, buf', m') := DeviceReadSectors m buf lsn n in
  (e = SCECdErNO /\ buf' = disc_bytes sec (lsn * 2048) (n * 2048) /\ mmce_dev_ready m' = true) \/ e = SCECdErREAD.
Proof.
  intros Hh Hl Hb Hd. unfold DeviceReadSectors. destruct (if mmce_dev_ready m then _ else _) as [[] w]; cbn [negb]; [|by right].
  rewrite u32_id by lia. destruct (attempts 2 w buf lsn n) as [[res b] w'] eqn:E. destruct (Z.eqb_spec res n) as [->|]; [left|by right].
  split_and!; [done| |done]. by eapply attempts_good.
Qed.
End Mmce.
End Mmce.
