(* ===== verification/HttpStream.v ===== *)
(** * HttpStream: reading a range of an image over HTTP

    modules/network/common/httpstream.inc, included by the menu's RPC client and by the
    HTTP driver of the disc, and modules/iopcore/cdvdman/device-http.c. A request for a
    range of bytes, the response's header block, and the body read from the connection.
    The connection is supplied by the including file, here an interface. *)
From S2P Require Import Prelude CLib CdDisc.

Definition HTTP_HDR_MAX : Z := 1024.
Definition HTTP_CLIENT_STREAM_CHUNK : Z := 2048.
Definition HTTP_CLIENT_STREAM_URI_MAX : Z := 768.
Definition HTTP_CLIENT_SERVER_NAME_MAX : Z := 30.
Definition HTTP_STREAM_ERR_SEND : Z := -1.
Definition HTTP_STREAM_ERR_HEADERS : Z := -2.
Definition HTTP_STREAM_ERR_STATUS : Z := -3.
Definition HTTP_STREAM_ERR_ENCODING : Z := -4.
Definition HTTP_STREAM_ERR_RANGE : Z := -5.
Definition HTTP_STREAM_ERR_NOSTREAM : Z := -6.
Definition HTTP_STREAM_ERR_TRUNC : Z := -7.
Definition SCECdErREAD : Z := 0x30.

(** ** Decimal numbers of 64 bits *)

(** one pass of the long division: the quotients and the remainder *)
Fixpoint div10 (rem : Z) (parts : list Z) : list Z * Z :=
  match parts with
  | [] => ([], rem)
  | p :: r =>
    let cur := Z.lor (Z.shiftl rem 16) p in
    let '(qs, rm) := div10 (cur mod 10) r in (cur / 10 :: qs, rm)
  end.

Fixpoint dec_loop (fuel : nat) (parts : list Z) (tmp : bytes) : bytes :=
  match fuel with
  | O => tmp
  | S f =>
    let '(parts, rem) := div10 0 parts in
    if existsb (fun p => negb (p =? 0)) parts then dec_loop f parts (48 + rem :: tmp) else 48 + rem :: tmp
  end.

Definition u64ToDec (value : Z) : bytes :=
  dec_loop 20 [Z.land (Z.shiftr value 48) 0xFFFF; Z.land (Z.shiftr value 32) 0xFFFF; Z.land (Z.shiftr value 16) 0xFFFF; Z.land value 0xFFFF] [].

Fixpoint parse_digits (v : Z) (s : bytes) : option (Z * bytes) :=
  match s with
  | c :: r =>
    if isdigit c then
      let digit := c - 48 in
      if (1844674407370955161 <? v) || ((v =? 1844674407370955161) && (5 <? digit)) then None
      else parse_digits (u64 (u64 (Z.shiftl v 3) + u64 (Z.shiftl v 1) + digit)) r
    else Some (v, s)
  | [] => Some (v, [])
  end.

Definition ParseDecimal (s : bytes) : option (Z * bytes) :=
  match s with c :: _ => if isdigit c then parse_digits 0 s else None | [] => None end.

Definition part_value (parts : list Z) : Z := fold_left (fun a p => a * 65536 + p) parts 0.

Lemma part_value_from a parts : fold_left (fun a p => a * 65536 + p) parts a = a * 65536 ^ Z.of_nat (length parts) + part_value parts.
Proof.
  unfold part_value. revert a. induction parts as [|p r IH]; intros a; cbn [fold_left length].
  - change (65536 ^ Z.of_nat 0) with 1. lia.
  - rewrite IH, (IH (0 * 65536 + p)). rewrite Nat2Z.inj_succ, Z.pow_succ_r by lia. lia.
Qed.

Lemma lor_shift a p : 0 <= a -> 0 <= p < 65536 -> Z.lor (Z.shiftl a 16) p = a * 65536 + p.
Proof.
  intros Ha Hp. rewrite Z.shiftl_mul_pow2 by lia. change 65536 with (2 ^ 16) in *.
  assert (H : Z.land (a * 2 ^ 16) p = 0).
  { apply Z.bits_inj'. intros n Hn. rewrite Z.land_spec, Z.bits_0. destruct (Z.lt_ge_cases n 16).
    - by rewrite Z.mul_pow2_bits_low.
    - rewrite (Z.bits_above_log2 p), andb_false_r; [done|lia|].
      destruct (Z.eq_dec p 0) as [->|]; [cbn; lia|]. apply Z.log2_lt_pow2; [lia|]. assert (2 ^ 16 <= 2 ^ n) by (apply Z.pow_le_mono_r; lia). lia. }
  by rewrite <- Z.lxor_lor, <- Z.add_nocarry_lxor.
Qed.

Lemma div10_spec parts : forall rem, 0 <= rem < 10 -> Forall (fun p => 0 <= p < 65536) parts ->
  let '(qs, rm) := div10 rem parts in
  rem * 65536 ^ Z.of_nat (length parts) + part_value parts = part_value qs * 10 + rm /\ 0 <= rm < 10 /\
  Forall (fun p => 0 <= p < 65536) qs /\ length qs = length parts.
Proof.
  induction parts as [|p r IH]; intros rem Hr Hp; cbn [div10].
  - cbn. split_and!; try lia. constructor.
  - inversion Hp; subst. rewrite lor_shift by lia. pose proof (Z.div_mod (rem * 65536 + p) 10 ltac:(lia)) as D.
    pose proof (Z.mod_pos_bound (rem * 65536 + p) 10 ltac:(lia)) as B. specialize (IH ((rem * 65536 + p) mod 10) B ltac:(done)).
    destruct (div10 _ r) as [qs rm]. destruct IH as (E & R & F & L). split_and!; try lia.
    + unfold part_value at 1 2. cbn [fold_left length]. rewrite !part_value_from, L. rewrite Nat2Z.inj_succ, Z.pow_succ_r by lia.
      rewrite Z.mul_0_l, !Z.add_0_l. set (P := 65536 ^ _) in *. nia.
    + constructor; [|done]. split; [apply Z.div_pos; lia|apply Z.div_lt_upper_bound; lia].
    + cbn. lia.
Qed.

Lemma part_value_zero parts : Forall (fun p => 0 <= p < 65536) parts -> (existsb (fun p => negb (p =? 0)) parts = false <-> part_value parts = 0) /\ 0 <= part_value parts.
Proof.
  induction 1 as [|p r Hp Hr [IH1 IH2]]; [done|]. cbn [existsb]. unfold part_value. cbn [fold_left]. rewrite part_value_from, Z.mul_0_l, Z.add_0_l.
  set (P := 65536 ^ _). assert (0 < P) by (apply Z.pow_pos_nonneg; lia). rewrite orb_false_iff, IH1, negb_false_iff, Z.eqb_eq. nia.
Qed.

Lemma dec_loop_spec fuel : forall parts tmp, Forall (fun p => 0 <= p < 65536) parts -> dec_loop fuel parts tmp = rev (dec_rev fuel (part_value parts)) ++ tmp.
Proof.
  induction fuel as [|f IH]; intros parts tmp Hp; cbn [dec_loop dec_rev]; [done|].
  pose proof (div10_spec parts 0 ltac:(lia) Hp) as S. destruct (div10 0 parts) as [qs rm]. destruct S as (E & R & F & _).
  destruct (part_value_zero qs F) as [Z0 Z1]. assert (Em : part_value parts = 10 * part_value qs + rm) by lia.
  destruct (existsb _ qs) eqn:X.
  - assert (part_value qs <> 0) by (intros H; apply Z0 in H; congruence). replace (part_value parts <? 10) with false by lia.
    rewrite IH by done. cbn [rev]. rewrite <- app_assoc. cbn [app].
    rewrite <- (Z.div_unique (part_value parts) 10 (part_value qs) rm), <- (Z.mod_unique (part_value parts) 10 (part_value qs) rm); [done|by left|done|by left|done].
  - assert (part_value qs = 0) by (by apply Z0). replace (part_value parts <? 10) with true by lia. cbn. do 2 f_equal. lia.
Qed.

(** the number is written as in any other place, without a 64-bit division *)
Lemma u64ToDec_dec v : 0 <= v < 2 ^ 64 -> u64ToDec v = dec_u v.
Proof.
  intros Hv. unfold u64ToDec, dec_u. change 0xFFFF with (Z.ones 16). rewrite !Z.land_ones, !Z.shiftr_div_pow2 by lia.
  rewrite dec_loop_spec; [|repeat constructor; apply Z.mod_pos_bound; lia]. rewrite app_nil_r. do 2 f_equal. unfold part_value. cbn [fold_left].
  change (2 ^ 16) with 65536. replace (v / 2 ^ 48) with (v / 65536 / 65536 / 65536) by (rewrite !Z.div_div by lia; done).
  replace (v / 2 ^ 32) with (v / 65536 / 65536) by (rewrite Z.div_div by lia; done).
  pose proof (Z.div_mod v 65536 ltac:(lia)). pose proof (Z.div_mod (v / 65536) 65536 ltac:(lia)). pose proof (Z.div_mod (v / 65536 / 65536) 65536 ltac:(lia)).
  rewrite (Z.mod_small (v / 65536 / 65536 / 65536)); [lia|].
  split; [repeat (apply Z.div_pos; [|lia]); lia|]. repeat (apply Z.div_lt_upper_bound; [lia|]). lia.
Qed.

Definition no_digit (s : bytes) : Prop := match s with c :: _ => isdigit c = false | [] => True end.

Lemma digits_val_mono s : forall acc, 0 <= acc -> acc <= digits_val acc s.
Proof.
  induction s as [|c r IH]; intros acc H; cbn [digits_val]; [lia|]. destruct (isdigit c) eqn:D; [|lia].
  unfold isdigit, between in D. b2p. specialize (IH (acc * 10 + (c - 48)) ltac:(lia)). lia.
Qed.

(** a number below 2^64 is read exactly, a larger one refused *)
Lemma parse_digits_spec s rest : forall v, Forall (fun c => isdigit c = true) s -> no_digit rest -> 0 <= v < 2 ^ 64 ->
  parse_digits v (s ++ rest) = if digits_val v s <? 2 ^ 64 then Some (digits_val v s, rest) else None.
Proof.
  intros v Hs Hr. revert v. induction Hs as [|c s Hc Hs IH]; intros v Hv.
  - cbn [app digits_val]. replace (v <? 2 ^ 64) with true by lia. destruct rest as [|c r]; [done|]. cbn [parse_digits]. cbn in Hr. by rewrite Hr.
  - cbn [app parse_digits digits_val]. rewrite Hc. pose proof Hc as Hd. unfold isdigit, between in Hd. b2p.
    rewrite !Z.shiftl_mul_pow2 by lia. change (2 ^ 3) with 8. change (2 ^ 1) with 2.
    destruct (_ || _) eqn:X.
    + assert (2 ^ 64 <= v * 10 + (c - 48)).
      { apply orb_prop in X as [X|X]; [|apply andb_prop in X as [X Y]]; rewrite ?Z.ltb_lt, ?Z.eqb_eq in *; lia. }
      pose proof (digits_val_mono s (v * 10 + (c - 48)) ltac:(lia)). by replace (digits_val _ s <? 2 ^ 64) with false by lia.
    + assert (v * 10 + (c - 48) < 2 ^ 64).
      { apply orb_false_elim in X as [X1 X2]. apply andb_false_iff in X2 as [X2|X2]; lia. }
      rewrite (u64_id (v * 8)), (u64_id (v * 2)), u64_id by lia. replace (v * 8 + v * 2 + (c - 48)) with (v * 10 + (c - 48)) by lia. apply IH. lia.
Qed.

(** The decimal form written for a 64-bit offset is read back as the same number,
    whatever follows it. *)
Theorem decimal_roundtrip v rest : 0 <= v < 2 ^ 64 -> no_digit rest -> ParseDecimal (u64ToDec v ++ rest) = Some (v, rest).
Proof.
  intros Hv Hr. rewrite u64ToDec_dec by done. unfold ParseDecimal. pose proof (dec_u_digits v ltac:(lia)) as D. pose proof (dec_u_nonempty v) as N.
  destruct (dec_u v) as [|c r] eqn:E; [done|]. cbn [app]. inversion D; subst. rewrite H1. rewrite app_comm_cons, <- E.
  rewrite parse_digits_spec by (rewrite ?E; done || lia). rewrite dec_u_val by lia. by replace (v <? 2 ^ 64) with true by lia.
Qed.

Lemma decimal_roundtrip_witness : u64ToDec (2 ^ 64 - 1) = bs "18446744073709551615" /\ ParseDecimal (u64ToDec (2 ^ 64 - 1) ++ bs "/9") = Some (2 ^ 64 - 1, bs "/9").
Proof. split; [vm_compute; reflexivity|]. by apply (decimal_roundtrip (2 ^ 64 - 1) (bs "/9")). Defined.

(** ** The header block *)

Fixpoint HeaderIs (line prefix : bytes) {struct prefix} : bool :=
  match prefix with
  | [] => true
  | p :: prefix => match line with [] => false | c :: line => (tolower c =? tolower p) && HeaderIs line prefix end
  end.

Definition SkipBlanks (s : bytes) : bytes := dropwhile (fun c => (c =? cSP) || (c =? cTAB)) s.

(** what the header lines said; [bodyLen] is -1 without a length *)
Record fields := Fields {
  sawLength : bool; bodyLen : Z;
  sawChunked : bool; sawEncoding : bool; sawMultipart : bool;
  sawRange : bool; rangeFirst : Z; rangeLast : Z; rangeTotal : Z; sawRangeTotal : bool;
}.
Definition no_fields : fields := Fields false (-1) false false false false 0 0 0 false.

Definition expect (c : Z) (s : bytes) : option bytes := match s with x :: r => if x =? c then Some r else None | [] => None end.

(** "<first>-<last>/<total>" *)
Definition range_value (v : bytes) : option (Z * Z * Z) :=
  '(first, v) ← ParseDecimal v; v ← expect cMINUS v;
  '(last, v) ← ParseDecimal v; v ← expect cSLASH v;
  '(total, v) ← ParseDecimal v;
  match SkipBlanks v with [] => Some (first, last, total) | _ => None end.

(** one header line; [inl] is the error that ends the parse *)
Definition header_line (h : fields) (line : bytes) : Z + fields :=
  if HeaderIs line (bs "Content-Length:") then
    match (if sawLength h then None else ParseDecimal (SkipBlanks (drop 15 line))) with
    | Some (v, r) =>
      if negb (length (SkipBlanks r) =? 0)%nat || (0x7fffffff <? v) then inl HTTP_STREAM_ERR_HEADERS
      else inr (Fields true v (sawChunked h) (sawEncoding h) (sawMultipart h) (sawRange h) (rangeFirst h) (rangeLast h) (rangeTotal h) (sawRangeTotal h))
    | None => inl HTTP_STREAM_ERR_HEADERS
    end
  else if HeaderIs line (bs "Transfer-Encoding:") then
    inr (Fields (sawLength h) (bodyLen h) true (sawEncoding h) (sawMultipart h) (sawRange h) (rangeFirst h) (rangeLast h) (rangeTotal h) (sawRangeTotal h))
  else if HeaderIs line (bs "Content-Encoding:") then
    let v := SkipBlanks (drop 17 line) in
    let other := negb (HeaderIs v (bs "identity")) || negb (length (SkipBlanks (drop 8 v)) =? 0)%nat in
    inr (Fields (sawLength h) (bodyLen h) (sawChunked h) (sawEncoding h || other) (sawMultipart h) (sawRange h) (rangeFirst h) (rangeLast h) (rangeTotal h) (sawRangeTotal h))
  else if HeaderIs line (bs "Content-Type:") then
    let multi := HeaderIs (SkipBlanks (drop 13 line)) (bs "multipart/") in
    inr (Fields (sawLength h) (bodyLen h) (sawChunked h) (sawEncoding h) (sawMultipart h || multi) (sawRange h) (rangeFirst h) (rangeLast h) (rangeTotal h) (sawRangeTotal h))
  else if HeaderIs line (bs "Content-Range:") then
    let v := SkipBlanks (drop 14 line) in
    if sawRange h || negb (HeaderIs v (bs "bytes ")) then inl HTTP_STREAM_ERR_RANGE
    else match range_value (SkipBlanks (drop 6 v)) with
         | Some (first, last, total) => inr (Fields (sawLength h) (bodyLen h) (sawChunked h) (sawEncoding h) (sawMultipart h) true first last total true)
         | None => inl HTTP_STREAM_ERR_RANGE
         end
  else inr h.

(** a line and what follows its CR LF; a last byte without one is overwritten *)
Fixpoint next_line (b : bytes) : bytes * bytes :=
  match b with
  | [] => ([], [])
  | c :: t =>
    match t with
    | [] => ([], [])
    | d :: r => if (c =? cCR) && (d =? cLF) then ([], r) else let '(l, rest) := next_line t in (c :: l, rest)
    end
  end.

Fixpoint header_lines (fuel : nat) (b : bytes) : list bytes :=
  match b with
  | [] => []
  | _ => match fuel with O => [] | S f => let '(l, rest) := next_line b in l :: header_lines f rest end
  end.

Fixpoint all_lines (h : fields) (ls : list bytes) : Z + fields :=
  match ls with
  | [] => inr h
  | l :: ls => match header_line h l with inl e => inl e | inr h => all_lines h ls end
  end.

(** the fields of a header block, behind its status line *)
Definition header_fields (block : bytes) : Z + fields := all_lines no_fields (tail (header_lines (length block) block)).

(** the status line, and no NUL in the block *)
Definition status_of (block : bytes) : option Z :=
  let at_ i := nth i block 0 in
  if (length block <? 12)%nat || negb (HeaderIs block (bs "HTTP/1.")) then None
  else if negb ((at_ 7%nat =? 48) || (at_ 7%nat =? 49)) || negb (at_ 8%nat =? cSP) || negb (between 49 (at_ 9%nat) 53) ||
          negb (isdigit (at_ 10%nat)) || negb (isdigit (at_ 11%nat)) || negb ((at_ 12%nat =? cSP) || (at_ 12%nat =? cCR)) then None
  else if existsb (fun c => c =? 0) block then None
  else Some ((at_ 9%nat - 48) * 100 + (at_ 10%nat - 48) * 10 + at_ 11%nat - 48).

(** ** The stream *)

(** [gStream] with the filled part of [gStage] *)
Record gStream := GStream { live : bool; remaining : Z; gStage : bytes; stageOff : Z }.
Definition HttpStreamEnd : gStream := GStream false 0 [] 0.

(** what [HttpStreamBegin] returns and puts behind its pointers *)
Record begun := Begun { status : Z; contentLen : Z; total : Z; hasTotal : bool }.
Definition refused (e : Z) : begun * gStream := (Begun e (-1) 0 false, HttpStreamEnd).

(** the verdict on a header block [block] and the bytes [extra] that came with it *)
Definition respond (useRange : bool) (rangeStart rangeEnd : Z) (block extra : bytes) : begun * gStream :=
  match status_of block with
  | None => refused HTTP_STREAM_ERR_STATUS
  | Some status =>
    match header_fields block with
    | inl e => refused e
    | inr h =>
      if sawChunked h || sawEncoding h || sawMultipart h then refused HTTP_STREAM_ERR_ENCODING
      else if useRange && (status =? 206) &&
              (negb (sawRange h) || negb (sawRangeTotal h) || negb (rangeFirst h =? rangeStart) || negb (rangeLast h =? rangeEnd) ||
               (rangeTotal h <=? rangeLast h) || negb (bodyLen h =? s32 (rangeEnd - rangeStart + 1))) then refused HTTP_STREAM_ERR_RANGE
      else if (useRange && (status =? 200)) || (negb useRange && (status =? 206)) then refused HTTP_STREAM_ERR_RANGE
      else if 300 <=? status then refused status
      else if bodyLen h <? 0 then refused HTTP_STREAM_ERR_HEADERS
      else if bodyLen h <? Z.of_nat (length extra) then refused HTTP_STREAM_ERR_TRUNC
      else (Begun status (bodyLen h) (if sawRangeTotal h then rangeTotal h else 0) (sawRangeTotal h),
            GStream true (bodyLen h) (take (Z.to_nat HTTP_CLIENT_STREAM_CHUNK) extra) 0)
    end
  end.

(** the connection that the including file supplies: a request, and a bounded receive *)
Class HttpConn (W : Type) := {
  SendData : W -> bytes -> Z * W;
  RecvBounded : W -> Z -> Z * bytes * W;
}.

Definition CRLF : bytes := [13; 10].
Definition header_end : bytes := [13; 10; 13; 10].

Definition http_request (host uri : bytes) (useRange : bool) (rangeStart rangeEnd : Z) (keepAlive : bool) : bytes :=
  bs "GET " ++ uri ++ bs " HTTP/1.1" ++ CRLF ++ bs "Host: " ++ host ++ CRLF ++ bs "User-Agent: RiptOPL" ++ CRLF ++
  bs "Accept: */*" ++ CRLF ++ bs "Accept-Encoding: identity" ++ CRLF ++
  (if useRange then bs "Range: bytes=" ++ u64ToDec rangeStart ++ [cMINUS] ++ u64ToDec rangeEnd ++ CRLF else []) ++
  (if keepAlive then bs "Connection: keep-alive" else bs "Connection: close") ++ header_end.

Definition legal_name (s : bytes) : bool := forallb (fun c => negb ((c <=? 32) || (c =? 127))) s.

Section Stream.
Context {W : Type} `{!HttpConn W}.

(** the loop that receives the header block: the bytes and where the block ends *)
Fixpoint recv_header (fuel : nat) (w : W) (hdr : bytes) : bytes * option nat * W :=
  match fuel with
  | O => (hdr, None, w)
  | S f =>
    if Z.of_nat (length hdr) <? HTTP_HDR_MAX then
      let '(r, d, w) := RecvBounded w (HTTP_HDR_MAX - Z.of_nat (length hdr)) in
      if r <=? 0 then (hdr, None, w)
      else
        let from := (length hdr - 3)%nat in
        let hdr := hdr ++ d in
        match strstr (drop from hdr) header_end with
        | Some i => (hdr, Some (from + i + 4)%nat, w)
        | None => recv_header f w hdr
        end
    else (hdr, None, w)
  end.

Definition HttpStreamBegin (w : W) (host uri : bytes) (useRange : bool) (rangeStart rangeEnd : Z) (keepAlive : bool) : begun * gStream * W :=
  if (HTTP_CLIENT_STREAM_URI_MAX <=? strlen uri) || (HTTP_CLIENT_SERVER_NAME_MAX <=? strlen host) ||
     negb (legal_name uri) || negb (legal_name host) then (refused HTTP_STREAM_ERR_HEADERS, w)
  else if useRange && ((rangeEnd <? rangeStart) || (0x7fffffff <=? rangeEnd - rangeStart)) then (refused HTTP_STREAM_ERR_RANGE, w)
  else
    let request := http_request host uri useRange rangeStart rangeEnd keepAlive in
    let '(sent, w) := SendData w request in
    if negb (sent =? strlen request) then (refused HTTP_STREAM_ERR_SEND, w)
    else
      let '(hdr, hdrEnd, w) := recv_header (Z.to_nat HTTP_HDR_MAX) w [] in
      match hdrEnd with
      | None => (refused HTTP_STREAM_ERR_HEADERS, w)
      | Some e => (respond useRange rangeStart rangeEnd (take e hdr) (drop e hdr), w)
      end.

(** the loop of [HttpStreamRead] with the bytes given so far; [false] is a truncated body *)
Fixpoint stream_loop (fuel : nat) (w : W) (remaining wanted : Z) (out : bytes) : bool * Z * bytes * W :=
  match fuel with
  | O => (true, remaining, out, w)
  | S f =>
    if Z.of_nat (length out) <? wanted then
      let chunk := wanted - Z.of_nat (length out) in
      if remaining =? 0 then (true, remaining, out, w)
      else
        let chunk := if (0 <? remaining) && (remaining <? chunk) then remaining else chunk in
        let '(r, d, w) := RecvBounded w chunk in
        if r <=? 0 then (negb (0 <? remaining), remaining, out, w)
        else stream_loop f w (if 0 <? remaining then remaining - r else remaining) wanted (out ++ d)
    else (true, remaining, out, w)
  end.

(** a negative result is an error *)
Definition HttpStreamRead (g : gStream) (w : W) (wanted : Z) : Z * bytes * gStream * W :=
  if negb (live g) then (HTTP_STREAM_ERR_NOSTREAM, [], g, w)
  else
    let wanted := if HTTP_CLIENT_STREAM_CHUNK <? wanted then HTTP_CLIENT_STREAM_CHUNK else wanted in
    if wanted <=? 0 then (0, [], g, w)
    else
      let avail := Z.of_nat (length (gStage g)) - stageOff g in
      let avail := if avail <? 0 then 0 else if wanted <? avail then wanted else avail in
      let out := take (Z.to_nat avail) (drop (Z.to_nat (stageOff g)) (gStage g)) in
      let rem := if 0 <? remaining g then remaining g - avail else remaining g in
      let '(ok, rem, out, w) := stream_loop (Z.to_nat wanted) w rem wanted out in
      if ok then (Z.of_nat (length out), out, GStream true rem (gStage g) (stageOff g + avail), w)
      else (HTTP_STREAM_ERR_TRUNC, out, GStream false rem (gStage g) (stageOff g + avail), w).
End Stream.

(** ** The disc driver: device-http.c *)

(** opening and closing the connection *)
Class HttpSocket (W : Type) := {
  http_conn :: HttpConn W;
  httpConnect : W -> bool * W;      (** [httpSocket] and [httpConnect] *)
  httpClose : W -> W;
}.

Record http_settings := HttpSettings { server : bytes; uri : bytes; size : Z }.

Module HttpDev.
Section Dev.
Context {W : Type} `{!HttpSocket W} (cfg : http_settings).

Record httpdev := HttpDev { conn : W; httpSock : bool; httpReady : bool; httpStopped : bool; stream : gStream }.
Definition put_conn (d : httpdev) (w : W) (sock : bool) (g : gStream) : httpdev := HttpDev w sock (httpReady d) (httpStopped d) g.

Definition httpDisconnect (d : httpdev) : httpdev :=
  put_conn d (if httpSock d then httpClose (conn d) else conn d) false HttpStreamEnd.

Definition httpOpen (d : httpdev) : bool * httpdev :=
  let '(ok, w) := httpConnect (conn d) in
  if ok then (true, put_conn d w true (stream d)) else (false, put_conn d w false HttpStreamEnd).

(** the loop that reads [length] bytes of the body *)
Fixpoint read_all (fuel : nat) (g : gStream) (w : W) (out : bytes) (length_ : Z) : bytes * gStream * W :=
  match fuel with
  | O => (out, g, w)
  | S f =>
    if Z.of_nat (length out) <? length_ then
      let '(n, d, g, w) := HttpStreamRead g w (length_ - Z.of_nat (length out)) in
      if n <=? 0 then (out, g, w) else read_all f g w (out ++ d) length_
    else (out, g, w)
  end.

(** the attempts of a read, [k] of them left; the bytes put at the start of the buffer *)
Fixpoint attempts (k : nat) (d : httpdev) (first last : Z) (data : bytes) : Z * bytes * httpdev :=
  match k with
  | O => (SCECdErREAD, data, d)
  | S k =>
    if httpStopped d then (SCECdErREAD, data, d)
    else
      let '(opened, d) := if httpSock d then (true, d) else httpOpen d in
      if negb opened then (SCECdErREAD, data, d)
      else
        let '(b, g, w) := HttpStreamBegin (conn d) (server cfg) (uri cfg) true first last true in
        let d := put_conn d w true g in
        let again status d data :=
          let d := httpDisconnect d in
          if negb (status =? HTTP_STREAM_ERR_SEND) && negb (status =? HTTP_STREAM_ERR_TRUNC) then (SCECdErREAD, data, d)
          else attempts k d first last data in
        if (status b =? 206) && hasTotal b && (total b =? size cfg) then
          let '(out, g, w) := read_all (Z.to_nat (contentLen b)) g w [] (contentLen b) in
          let d := put_conn d w true g in
          let data := blit data 0 out in
          if Z.of_nat (length out) =? contentLen b then (SCECdErNO, data, d) else again HTTP_STREAM_ERR_TRUNC d data
        else again (status b) d data
  end.

Definition DeviceReadSectors (d : httpdev) (lsn sectors : Z) : Z * bytes * httpdev :=
  if sectors =? 0 then (SCECdErNO, [], d)
  else
    let expected := Z.shiftr (size cfg) 11 in
    if negb (httpReady d) || httpStopped d || (expected <? lsn) || (expected - lsn <? sectors) || (0x7fffffff / 2048 <? sectors) then (SCECdErREAD, [], d)
    else
      let first := u64 (Z.shiftl lsn 11) in
      let last := u64 (first + u64 (Z.shiftl sectors 11) - 1) in
      attempts 2 d first last [].
End Dev.
End HttpDev.

(** ** The end of the header block *)

Lemma strstr_spec pat s : pat <> [] ->
  match strstr s pat with
  | Some i => take (length pat) (drop i s) = pat /\ (forall j, (j < i)%nat -> take (length pat) (drop j s) <> pat)
  | None => forall j, take (length pat) (drop j s) <> pat
  end.
Proof.
  intros Hp. induction s as [|c s IH]; cbn [strstr].
  - destruct (bool_decide_reflect (take (length pat) [] = pat)) as [E|E].
    + exfalso. destruct pat; [done|]. by rewrite take_nil in E.
    + intros j. by rewrite drop_nil.
  - destruct (bool_decide_reflect (take (length pat) (c :: s) = pat)) as [E|E].
    + split; [done|]. intros j Hj. lia.
    + destruct (strstr s pat) as [i|]; cbn [fmap option_fmap option_map].
      * destruct IH as [IH1 IH2]. split; [done|]. intros [|j] Hj; [done|]. cbn. apply IH2. lia.
      * intros [|j]; [done|]. cbn. apply IH.
Qed.

Lemma strstr_unique pat s i : pat <> [] -> take (length pat) (drop i s) = pat -> (forall j, (j < i)%nat -> take (length pat) (drop j s) <> pat) -> strstr s pat = Some i.
Proof.
  intros Hp H1 H2. pose proof (strstr_spec pat s Hp) as S. destruct (strstr s pat) as [k|]; [|by apply S in H1]. destruct S as [S1 S2].
  f_equal. destruct (Nat.lt_trichotomy k i) as [H|[H|H]]; [|done|]; [by apply H2 in H|by apply S2 in H].
Qed.

(** scanning from three bytes before the new data finds the first end there is *)
Lemma scan_more hdr d : strstr hdr header_end = None ->
  strstr (hdr ++ d) header_end = (fun i => (length hdr - 3 + i)%nat) <$> strstr (drop (length hdr - 3) (hdr ++ d)) header_end.
Proof.
  intros Hn. assert (Hp : header_end <> []) by done. pose proof (strstr_spec header_end hdr Hp) as N. rewrite Hn in N.
  assert (Hold : forall j, (j < length hdr - 3)%nat -> take (length header_end) (drop j (hdr ++ d)) <> header_end).
  { intros j Hj. rewrite drop_app_le by lia. rewrite take_app_le; [apply N|]. rewrite length_drop. cbn. lia. }
  pose proof (strstr_spec header_end (drop (length hdr - 3) (hdr ++ d)) Hp) as S.
  destruct (strstr (drop _ _) _) as [i|] eqn:E; cbn [fmap option_fmap option_map].
  - destruct S as [S1 S2]. apply strstr_unique; [done|by rewrite <- drop_drop|]. intros j Hj.
    destruct (Nat.lt_ge_cases j (length hdr - 3)); [by apply Hold|]. specialize (S2 (j - (length hdr - 3))%nat ltac:(lia)). rewrite drop_drop in S2.
    by replace (length hdr - 3 + (j - (length hdr - 3)))%nat with j in S2 by lia.
  - pose proof (strstr_spec header_end (hdr ++ d) Hp) as T. destruct (strstr (hdr ++ d) header_end) as [k|]; [exfalso|done]. destruct T as [T1 _].
    destruct (Nat.lt_ge_cases k (length hdr - 3)); [by apply (Hold k)|]. apply (S (k - (length hdr - 3))%nat). rewrite drop_drop.
    by replace (length hdr - 3 + (k - (length hdr - 3)))%nat with k by lia.
Qed.

Lemma strstr_end_length s i : strstr s header_end = Some i -> (i + 4 <= length s)%nat.
Proof.
  intros H. pose proof (strstr_spec header_end s ltac:(done)) as S. rewrite H in S. destruct S as [S _].
  apply (f_equal length) in S. rewrite length_take, length_drop in S. change (length header_end) with 4%nat in S. lia.
Qed.

(** the end found in a longer string is the one of its beginning *)
Lemma strstr_take s i : strstr s header_end = Some i -> strstr (take (i + 4) s) header_end = Some i.
Proof.
  intros H. pose proof (strstr_end_length s i H) as L. pose proof (strstr_spec header_end s ltac:(done)) as S. rewrite H in S. destruct S as [S1 S2].
  apply strstr_unique; [done| |].
  - rewrite skipn_firstn_comm, take_take. change (length header_end) with 4%nat in *. by replace (4 `min` (i + 4 - i))%nat with 4%nat by lia.
  - intros j Hj E. apply (S2 j Hj). rewrite skipn_firstn_comm, take_take in E. change (length header_end) with 4%nat in *. by replace (4 `min` (i + 4 - j))%nat with 4%nat in E by lia.
Qed.

(** ** What a stream hands out *)

Section Safety.
Context {W : Type} `{!HttpConn W} (pending : W -> bytes).

(** a connection: what is received is the next part of what is still to come *)
Definition in_order : Prop := forall w n r d w', RecvBounded w n = (r, d, w') -> 0 < n ->
  r <= 0 \/ (r = Z.of_nat (length d) /\ 0 < r <= n /\ pending w = d ++ pending w').
Context (Hconn : in_order).

Lemma recv_header_ok fuel : forall w hdr hdr' e w', strstr hdr header_end = None -> recv_header fuel w hdr = (hdr', Some e, w') ->
  hdr ++ pending w = hdr' ++ pending w' /\ strstr hdr' header_end = Some (e - 4)%nat /\ (4 <= e <= length hdr')%nat /\ Z.of_nat (length hdr') <= HTTP_HDR_MAX.
Proof.
  induction fuel as [|f IH]; intros w hdr hdr' e w' Hn E; cbn [recv_header] in E; [done|].
  destruct (Z.ltb_spec (Z.of_nat (length hdr)) HTTP_HDR_MAX) as [Hl|]; [|done].
  destruct (RecvBounded w _) as [[r d] w1] eqn:R. destruct (Z.leb_spec r 0); [done|].
  destruct (Hconn _ _ _ _ _ R) as [?|(Hr & Hrn & Hpend)]; [lia|lia|].
  pose proof (scan_more hdr d Hn) as Hs. destruct (strstr (drop _ _) _) as [i|] eqn:F.
  - injection E as <- <- <-. cbn [fmap option_fmap option_map] in Hs. pose proof (strstr_end_length _ _ Hs). split_and!.
    + by rewrite Hpend, app_assoc.
    + rewrite Hs. f_equal. lia.
    + lia.
    + lia.
    + rewrite length_app. lia.
  - cbn [fmap option_fmap option_map] in Hs. apply IH in E; [|done]. by rewrite Hpend, app_assoc.
Qed.

(** the part of the body that came with the header and was not read yet *)
Definition unread (g : gStream) : bytes := drop (Z.to_nat (stageOff g)) (gStage g).
Definition flowing (g : gStream) : Prop :=
  live g = true /\ 0 <= stageOff g <= Z.of_nat (length (gStage g)) /\ Z.of_nat (length (unread g)) <= remaining g.

Lemma stream_loop_ok fuel : forall w rem wanted out rem' out' w', 0 <= rem -> wanted - Z.of_nat (length out) <= Z.of_nat fuel -> Z.of_nat (length out) <= wanted ->
  stream_loop fuel w rem wanted out = (true, rem', out', w') ->
  exists d, out' = out ++ d /\ pending w = d ++ pending w' /\ rem' = rem - Z.of_nat (length d) /\ 0 <= rem' /\
    Z.of_nat (length out') <= wanted /\ (rem' = 0 \/ Z.of_nat (length out') = wanted).
Proof.
  induction fuel as [|f IH]; intros w rem wanted out rem' out' w' Hrem Hf Hw E; cbn [stream_loop] in E.
  { injection E as <- <- <-. exists []. rewrite app_nil_r. split_and!; try done; cbn; lia. }
  destruct (Z.ltb_spec (Z.of_nat (length out)) wanted) as [Hlt|Hge].
  2:{ injection E as <- <- <-. exists []. rewrite app_nil_r. split_and!; try done; cbn; lia. }
  destruct (Z.eqb_spec rem 0) as [->|Hr0].
  { injection E as <- <- <-. exists []. rewrite app_nil_r. split_and!; try done; cbn; lia. }
  replace (0 <? rem) with true in E by lia. cbn [andb negb] in E.
  set (chunk := if rem <? _ then rem else _) in E.
  assert (Hc : 0 < chunk <= rem /\ chunk <= wanted - Z.of_nat (length out)) by (unfold chunk; destruct (Z.ltb_spec rem (wanted - Z.of_nat (length out))); lia).
  destruct (RecvBounded w chunk) as [[r d] w1] eqn:R. destruct (Z.leb_spec r 0); [done|].
  destruct (Hconn _ _ _ _ _ R) as [?|(Hr & Hrn & Hpend)]; [lia|lia|].
  apply IH in E; [|lia|rewrite length_app; lia|rewrite length_app; lia]. destruct E as (d2 & -> & Hp2 & -> & H0 & Hl & Hend).
  exists (d ++ d2). rewrite app_assoc, length_app. split_and!; try done; try lia. by rewrite Hpend, Hp2, app_assoc.
Qed.

(** a read of the stream gives the next bytes of the body, and only such *)
Lemma HttpStreamRead_ok g w wanted n d g' w' : flowing g -> 0 < wanted -> HttpStreamRead g w wanted = (n, d, g', w') -> 0 <= n ->
  n = Z.of_nat (length d) /\ n <= wanted /\ flowing g' /\ remaining g' = remaining g - n /\ unread g ++ pending w = d ++ unread g' ++ pending w' /\
  (n = 0 -> remaining g = 0).
Proof.
  intros (Hlive & Hoff & Hrem) Hw E Hn. unfold HttpStreamRead in E. rewrite Hlive in E. cbn [negb] in E.
  set (wanted' := if _ <? wanted then _ else wanted) in E. assert (Hw' : 0 < wanted' <= wanted) by (unfold wanted', HTTP_CLIENT_STREAM_CHUNK; destruct (Z.ltb_spec 2048 wanted); lia).
  replace (wanted' <=? 0) with false in E by lia. unfold unread in *. rewrite length_drop in Hrem.
  replace (Z.of_nat (length (gStage g)) - stageOff g <? 0) with false in E by lia.
  set (avail := if wanted' <? _ then _ else _) in E.
  assert (Ha : 0 <= avail <= wanted' /\ avail <= Z.of_nat (length (gStage g)) - stageOff g /\ (avail = wanted' \/ avail = Z.of_nat (length (gStage g)) - stageOff g))
    by (unfold avail; destruct (Z.ltb_spec wanted' (Z.of_nat (length (gStage g)) - stageOff g)); lia).
  set (out0 := take _ _) in E. assert (Lo : Z.of_nat (length out0) = avail) by (unfold out0; rewrite length_take, length_drop; lia).
  assert (Erem : (if 0 <? remaining g then remaining g - avail else remaining g) = remaining g - avail) by (destruct (Z.ltb_spec 0 (remaining g)); lia).
  rewrite Erem in E. destruct (stream_loop _ _ _ _ _) as [[[ok rem'] out'] w1] eqn:B. destruct ok.
  2:{ injection E as <- _ _ _. unfold HTTP_STREAM_ERR_TRUNC in Hn. lia. }
  injection E as <- <- <- <-. apply stream_loop_ok in B; [|lia|lia|lia]. destruct B as (d & -> & Hp & -> & H0 & Hl & Hend). cbn [live stageOff gStage remaining].
  rewrite length_app in Hl, Hend.
  assert (Hd : avail = wanted' -> d = []).
  { intros Eq. destruct d; [done|]. cbn in Hl. lia. }
  assert (Hu : drop (Z.to_nat (stageOff g)) (gStage g) = out0 ++ drop (Z.to_nat (stageOff g + avail)) (gStage g)).
  { unfold out0. replace (Z.to_nat (stageOff g + avail)) with (Z.to_nat (stageOff g) + Z.to_nat avail)%nat by lia. by rewrite <- drop_drop, take_drop. }
  rewrite length_app. split_and!; try lia.
  - unfold flowing, unread. cbn [live stageOff gStage remaining]. rewrite length_drop. split_and!; try done; try lia.
  - rewrite Hu, Hp. destruct Ha as (_ & _ & [Hq|Hq]).
    + rewrite (Hd Hq). cbn [app]. by rewrite app_nil_r, <- app_assoc.
    + rewrite (drop_ge (gStage g) (Z.to_nat (stageOff g + avail))) by lia. by rewrite app_nil_r, <- app_assoc.
Qed.

(** ** A response that is the range asked for *)

(** a block that answers exactly bytes [first] to [last] of an entity of [size] bytes,
    sent as they are *)
Record exact_range (first last size : Z) (block : bytes) : Prop := {
  er_status : status_of block = Some 206;
  er_end : strstr block header_end = Some (length block - 4)%nat;
  er_fields : exists h, header_fields block = inr h /\ bodyLen h = last - first + 1 /\
    rangeFirst h = first /\ rangeLast h = last /\ rangeTotal h = size /\ last < size /\
    sawRange h = true /\ sawRangeTotal h = true /\ sawChunked h = false /\ sawEncoding h = false /\ sawMultipart h = false;
}.

Lemma respond_ok first last block extra b g : respond true first last block extra = (b, g) -> status b = 206 -> hasTotal b = true ->
  0 <= last - first < 0x7fffffff -> strstr block header_end = Some (length block - 4)%nat ->
  exact_range first last (total b) block /\ contentLen b = last - first + 1 /\
  g = GStream true (last - first + 1) (take (Z.to_nat HTTP_CLIENT_STREAM_CHUNK) extra) 0 /\ Z.of_nat (length extra) <= last - first + 1.
Proof.
  intros E Hs Ht Hr He. unfold respond in E. destruct (status_of block) as [st|] eqn:S; [|injection E as <- <-; done].
  destruct (header_fields block) as [e|h] eqn:F; [injection E as <- <-; done|].
  destruct (_ || _ || _) eqn:X1 in E; [injection E as <- <-; done|]. destruct (_ && _ && _) eqn:X2 in E; [injection E as <- <-; done|].
  destruct (_ || _) eqn:X3 in E; [injection E as <- <-; done|]. destruct (300 <=? st); [injection E as <- <-; done|].
  destruct (bodyLen h <? 0); [injection E as <- <-; done|]. destruct (Z.ltb_spec (bodyLen h) (Z.of_nat (length extra))); [injection E as <- <-; done|].
  injection E as <- <-. cbn [status hasTotal total contentLen] in *. subst st. rewrite Ht in *. cbn [andb Z.eqb Pos.eqb] in X2.
  b2p. rewrite s32_id in * by lia. split_and!; try (f_equal; lia); try lia. split; [done|done|]. exists h. split_and!; try done. lia.
Qed.

Lemma begin_ok w host uri first last keep b g w' :
  HttpStreamBegin w host uri true first last keep = ((b, g), w') -> status b = 206 -> hasTotal b = true ->
  exists w1 block, SendData w (http_request host uri true first last keep) = (strlen (http_request host uri true first last keep), w1) /\
    pending w1 = block ++ unread g ++ pending w' /\ exact_range first last (total b) block /\
    flowing g /\ remaining g = last - first + 1 /\ contentLen b = last - first + 1.
Proof.
  intros E Hs Ht. unfold HttpStreamBegin in E. destruct (_ || _ || _ || _) in E; [injection E as <- <- <-; done|].
  destruct (_ && _) eqn:R in E; [injection E as <- <- <-; done|]. cbn [andb] in R. b2p.
  destruct (SendData w _) as [sent w1] eqn:S. destruct (Z.eqb_spec sent (strlen (http_request host uri true first last keep))) as [->|]; cbn [negb] in E;
    [|injection E as <- <- <-; done].
  destruct (recv_header _ _ _) as [[hdr [e|]] w2] eqn:V; [|injection E as <- <- <-; done].
  apply recv_header_ok in V; [|done]. destruct V as (Hp & Hend & He & Hlen). cbn [app] in Hp. unfold HTTP_HDR_MAX in Hlen.
  injection E as E <-. assert (Hst : strstr (take e hdr) header_end = Some (length (take e hdr) - 4)%nat).
  { rewrite length_take, Nat.min_l by lia. replace e with (e - 4 + 4)%nat at 1 by lia. by apply strstr_take. }
  destruct (respond_ok _ _ _ _ _ _ E Hs Ht ltac:(lia) Hst) as (Hex & Hc & -> & Hx).
  rewrite (take_ge (drop e hdr)) in * by (rewrite length_drop; unfold HTTP_CLIENT_STREAM_CHUNK; lia).
  exists w1, (take e hdr). split; [done|]. unfold flowing, unread. cbn [live stageOff gStage remaining]. rewrite drop_0. split_and!; try done; try lia.
  by rewrite app_assoc, take_drop.
Qed.
End Safety.

Lemma blit_front {A} (b d : list A) : blit b 0 d = d ++ drop (length d) b.
Proof. done. Qed.

Section Device.
Context {W : Type} `{!HttpSocket W} (cfg : http_settings) (pending : W -> bytes) (Hconn : in_order pending).
Import HttpDev.

Lemma read_all_ok fuel : forall g w out length_ out' g' w', flowing g -> remaining g = length_ - Z.of_nat (length out) -> length_ - Z.of_nat (length out) <= Z.of_nat fuel ->
  read_all fuel g w out length_ = (out', g', w') -> Z.of_nat (length out') = length_ ->
  exists d, out' = out ++ d /\ unread g ++ pending w = d ++ pending w'.
Proof.
  induction fuel as [|f IH]; intros g w out len out' g' w' Hg Hrem Hf E Hl; cbn [read_all] in E.
  { injection E as <- <- <-. exists []. rewrite app_nil_r. destruct Hg as (_ & _ & Hu). replace (remaining g) with 0 in Hu by lia.
    destruct (unread g); [done|cbn in Hu; lia]. }
  destruct (Z.ltb_spec (Z.of_nat (length out)) len) as [Hlt|].
  2:{ injection E as <- <- <-. exists []. rewrite app_nil_r. destruct Hg as (_ & _ & Hu). replace (remaining g) with 0 in Hu by lia.
    destruct (unread g); [done|cbn in Hu; lia]. }
  destruct (HttpStreamRead g w _) as [[[n d] g1] w1] eqn:R. destruct (Z.leb_spec n 0). { injection E as <- <- <-. lia. }
  apply (HttpStreamRead_ok pending Hconn) in R; [|done|lia|lia]. destruct R as (-> & Hn & Hg1 & Hr1 & Hp & _).
  apply IH in E; [|done|rewrite length_app; lia|rewrite length_app; lia|done]. destruct E as (d2 & -> & Hp2).
  exists (d ++ d2). rewrite app_assoc. split; [done|]. by rewrite Hp, Hp2, app_assoc.
Qed.

Definition range_request (first last : Z) : bytes := http_request (server cfg) (uri cfg) true first last true.

(** what an accepted answer to a range request is *)
Definition answered (first last : Z) (data : bytes) (w' : W) : Prop :=
  exists w w1 block, SendData w (range_request first last) = (strlen (range_request first last), w1) /\
    pending w1 = block ++ data ++ pending w' /\ exact_range first last (size cfg) block /\ Z.of_nat (length data) = last - first + 1.

Lemma attempts_ok k : forall d first last data data' d', Z.of_nat (length data) <= last - first + 1 ->
  attempts cfg k d first last data = (SCECdErNO, data', d') -> answered first last data' (conn d').
Proof.
  induction k as [|k IH]; intros d first last data data' d' Hdata E; cbn [attempts] in E; [done|].
  destruct (httpStopped d); [done|]. destruct (if httpSock d then _ else _) as [[] d1]; cbn [negb] in E; [|done].
  destruct (HttpStreamBegin _ _ _ _ _ _ _) as [[b g] w1] eqn:B. cbv zeta in E.
  destruct (_ && _ && _) eqn:Hok in E.
  2:{ destruct (_ && _) in E; [done|]. by eapply IH. }
  b2p. apply begin_ok with (pending := pending) in B; [|done..]. destruct B as (w0 & block & Hsend & Hp & Hex & Hg & Hrem & Hlen).
  destruct (read_all _ g w1 _ _) as [[out g2] w2] eqn:R.
  assert (Hout : Z.of_nat (length out) <= last - first + 1 -> Z.of_nat (length (blit data 0 out)) <= last - first + 1).
  { intros Ho. rewrite blit_front, length_app, length_drop. lia. }
  destruct (Z.eqb_spec (Z.of_nat (length out)) (contentLen b)) as [Hfull|Hshort].
  - injection E as <- <-. apply read_all_ok in R; [|done|cbn; lia|cbn; lia|done]. destruct R as (d2 & -> & Hp2). cbn [app conn put_conn] in *.
    exists (conn d1), w0, block. assert (Eb : blit data 0 d2 = d2).
    { rewrite blit_front, drop_ge by lia. apply app_nil_r. }
    rewrite Eb. split_and!; [done| |congruence|lia]. by rewrite Hp, Hp2.
  - destruct (_ && _) in E; [done|]. eapply IH; [|exact E]. apply Hout. clear -R Hg Hrem Hlen Hconn.
    assert (H : forall f g w out o g' w', flowing g -> Z.of_nat (length out) <= contentLen b -> read_all f g w out (contentLen b) = (o, g', w') -> Z.of_nat (length o) <= contentLen b).
    { induction f as [|f IHf]; intros g0 w out0 o g' w' Hg0 Hl E; cbn [read_all] in E; [by injection E as <- _ _|].
      destruct (Z.ltb_spec (Z.of_nat (length out0)) (contentLen b)); [|by injection E as <- _ _].
      destruct (HttpStreamRead _ _ _) as [[[n d] g3] w3] eqn:R3. destruct (Z.leb_spec n 0); [by injection E as <- _ _|].
      apply (HttpStreamRead_ok pending Hconn) in R3; [|done|lia|lia]. destruct R3 as (-> & Hn & Hg3 & _). eapply IHf; [exact Hg3| |exact E]. rewrite length_app. lia. }
    assert (0 <= contentLen b) by (destruct Hg as (_ & _ & ?); lia).
    rewrite <- Hlen. eapply (H _ _ _ [] _ _ _ Hg); [cbn; lia|exact R].
Qed.

(** C3. Whatever a server sends, in pieces of any size: a read of sectors that reports
    success filled the buffer with the bytes that followed one complete header block,
    which answers 206 with exactly the range asked for, of an image of the size known,
    with no encoding; and the connection is left at the byte behind them. *)
Theorem http_read_is_range d lsn sectors data d' :
  0 < sectors -> 0 <= lsn -> 0 <= size cfg < 2 ^ 64 -> DeviceReadSectors cfg d lsn sectors = (SCECdErNO, data, d') ->
  answered (lsn * 2048) (lsn * 2048 + sectors * 2048 - 1) data (conn d') /\ Z.of_nat (length data) = sectors * 2048 /\ (lsn + sectors) * 2048 <= size cfg.
Proof.
  intros Hs Hl Hsz E. unfold DeviceReadSectors in E. replace (sectors =? 0) with false in E by lia. cbv zeta in E.
  destruct (_ || _) eqn:G in E; [done|]. b2p. rewrite Z.shiftr_div_pow2, !Z.shiftl_mul_pow2 in * by lia. change (2 ^ 11) with 2048 in *.
  pose proof (Z.mul_div_le (size cfg) 2048 ltac:(lia)).
  rewrite (u64_id (lsn * 2048)), (u64_id (sectors * 2048)), u64_id in E by lia.
  apply attempts_ok in E; [|cbn; lia]. split; [done|]. destruct E as (? & ? & ? & _ & _ & _ & ->). lia.
Qed.
End Device.

(** ** A server that answers *)

Definition no_cr (l : bytes) : Prop := Forall (fun c => c <> 13) l.

Lemma next_line_cr l r : no_cr l -> next_line (l ++ CRLF ++ r) = (l, r).
Proof.
  induction 1 as [|c l Hc Hl IH]; [done|]. cbn [app next_line]. destruct (l ++ CRLF ++ r) as [|d t] eqn:E; [by destruct l|].
  replace (c =? cCR) with false by lia. cbn [andb]. by rewrite IH.
Qed.

Lemma header_lines_cr f l r : no_cr l -> header_lines (S f) (l ++ CRLF ++ r) = l :: header_lines f r.
Proof.
  intros Hl. cbn [header_lines]. rewrite next_line_cr by done. by destruct l.
Qed.

Lemma strstr_skip c s : c <> 13 -> strstr (c :: s) header_end = S <$> strstr s header_end.
Proof. intros H. cbn [strstr]. rewrite bool_decide_false; [done|]. intros E. unfold header_end in E. cbn in E. congruence. Qed.

Lemma strstr_skip_line l c r : no_cr l -> c <> 13 -> strstr (l ++ CRLF ++ c :: r) header_end = (fun i => (length l + 2 + i)%nat) <$> strstr (c :: r) header_end.
Proof.
  intros Hl Hc. induction Hl as [|x l Hx Hl IH].
  - change ([] ++ CRLF ++ c :: r) with (13 :: 10 :: c :: r). assert (E : strstr (13 :: 10 :: c :: r) header_end = S <$> strstr (10 :: c :: r) header_end).
    { set (s := 10 :: c :: r). cbn [strstr]. subst s. rewrite bool_decide_false; [done|]. intros E. change (13 :: 10 :: c :: take 1 r = header_end) in E. unfold header_end in E. congruence. }
    rewrite E, strstr_skip by done. by destruct (strstr (c :: r) header_end).
  - cbn [app]. rewrite strstr_skip, IH by done. by destruct (strstr (c :: r) header_end).
Qed.

Lemma strstr_last l : no_cr l -> strstr (l ++ header_end) header_end = Some (length l).
Proof. induction 1 as [|x l Hx Hl IH]; [done|]. cbn [app]. by rewrite strstr_skip, IH by done. Qed.

Lemma strstr_app_l s t i : strstr s header_end = Some i -> strstr (s ++ t) header_end = Some i.
Proof.
  intros H. pose proof (strstr_end_length s i H) as L. pose proof (strstr_spec header_end s ltac:(done)) as S. rewrite H in S. destruct S as [S1 S2].
  assert (Hj : forall j, (j <= i)%nat -> take (length header_end) (drop j (s ++ t)) = take (length header_end) (drop j s)).
  { intros j Hj. rewrite drop_app_le by lia. rewrite take_app_le; [done|]. rewrite length_drop. change (length header_end) with 4%nat. lia. }
  apply strstr_unique; [done|by rewrite Hj|]. intros j Hlt. rewrite Hj by lia. by apply S2.
Qed.

Lemma digits_no_cr s : Forall (fun c => isdigit c = true) s -> no_cr s.
Proof. intros H. eapply Forall_impl; [exact H|]. by intros c Hc ->. Qed.

(** the header block of a server's answer to a range request *)
Definition line_status : bytes := bs "HTTP/1.1 206 Partial Content".
Definition line_length (n : Z) : bytes := bs "Content-Length: " ++ dec_u n.
Definition line_range (first last size : Z) : bytes := bs "Content-Range: bytes " ++ dec_u first ++ cMINUS :: dec_u last ++ cSLASH :: dec_u size.
Definition range_header (first last size : Z) : bytes :=
  line_status ++ CRLF ++ line_length (last - first + 1) ++ CRLF ++ line_range first last size ++ header_end.

Lemma ParseDecimal_dec v rest : 0 <= v < 2 ^ 64 -> no_digit rest -> ParseDecimal (dec_u v ++ rest) = Some (v, rest).
Proof.
  intros Hv Hr. unfold ParseDecimal. pose proof (dec_u_digits v ltac:(lia)) as D. pose proof (dec_u_nonempty v) as N.
  destruct (dec_u v) as [|c r] eqn:E; [done|]. cbn [app]. inversion D; subst. rewrite H1. rewrite app_comm_cons, <- E.
  rewrite parse_digits_spec by (rewrite ?E; done || lia). rewrite dec_u_val by lia. by replace (v <? 2 ^ 64) with true by lia.
Qed.

Lemma SkipBlanks_dec v r : 0 <= v -> SkipBlanks (dec_u v ++ r) = dec_u v ++ r.
Proof.
  intros H. pose proof (dec_u_digits v H) as D. pose proof (dec_u_nonempty v). unfold SkipBlanks. apply dropwhile_id.
  destruct (dec_u v) as [|c s]; [done|]. cbn. inversion D; subst. unfold isdigit, between in *. b2p. lia.
Qed.

Section Range.
Context (first last size : Z) (H0 : 0 <= first) (H1 : first <= last) (H2 : last < size) (H3 : size < 2 ^ 64) (H4 : last - first < 0x7fffffff).

Lemma line_length_read h : sawLength h = false ->
  header_line h (line_length (last - first + 1)) =
  inr (Fields true (last - first + 1) (sawChunked h) (sawEncoding h) (sawMultipart h) (sawRange h) (rangeFirst h) (rangeLast h) (rangeTotal h) (sawRangeTotal h)).
Proof.
  intros Hs. unfold header_line, line_length. change (HeaderIs (bs "Content-Length: " ++ ?x) (bs "Content-Length:")) with true. cbv iota. rewrite Hs.
  change (drop 15 (bs "Content-Length: " ++ ?x)) with (32 :: x). change (SkipBlanks (32 :: ?x)) with (SkipBlanks x).
  rewrite <- (app_nil_r (dec_u _)), SkipBlanks_dec by lia. rewrite ParseDecimal_dec by (done || lia). cbn [SkipBlanks dropwhile length].
  replace (0x7fffffff <? last - first + 1) with false by lia. done.
Qed.

Lemma line_range_read h : sawRange h = false ->
  header_line h (line_range first last size) =
  inr (Fields (sawLength h) (bodyLen h) (sawChunked h) (sawEncoding h) (sawMultipart h) true first last size true).
Proof.
  intros Hs. unfold header_line, line_range.
  change (HeaderIs (bs "Content-Range: bytes " ++ ?x) (bs "Content-Length:")) with false.
  change (HeaderIs (bs "Content-Range: bytes " ++ ?x) (bs "Transfer-Encoding:")) with false.
  change (HeaderIs (bs "Content-Range: bytes " ++ ?x) (bs "Content-Encoding:")) with false.
  change (HeaderIs (bs "Content-Range: bytes " ++ ?x) (bs "Content-Type:")) with false.
  change (HeaderIs (bs "Content-Range: bytes " ++ ?x) (bs "Content-Range:")) with true. cbv iota. rewrite Hs.
  change (SkipBlanks (drop 14 (bs "Content-Range: bytes " ++ ?x))) with (bs "bytes " ++ x).
  change (HeaderIs (bs "bytes " ++ ?x) (bs "bytes ")) with true. change (drop 6 (bs "bytes " ++ ?x)) with x. cbn [negb orb].
  rewrite SkipBlanks_dec by lia. unfold range_value. rewrite ParseDecimal_dec by (done || lia). cbn [mbind option_bind expect].
  change (45 =? 45) with true. cbn [mbind option_bind]. rewrite ParseDecimal_dec by (done || lia). cbn [mbind option_bind expect]. change (47 =? 47) with true. cbn [mbind option_bind].
  rewrite <- (app_nil_r (dec_u size)), ParseDecimal_dec by (done || lia). done.
Qed.

Lemma range_header_lines : no_cr line_status /\ no_cr (line_length (last - first + 1)) /\ no_cr (line_range first last size).
Proof.
  assert (Hc : forall s, forallb (fun c => negb (c =? 13)) s = true -> no_cr s).
  { intros s Hs. apply Forall_forall. intros c Hc ->. rewrite forallb_forall in Hs. by specialize (Hs 13 ltac:(by apply list_elem_of_In)). }
  unfold line_length, line_range. split_and!; [by apply Hc| |].
  - apply Forall_app. split; [by apply Hc|]. apply digits_no_cr, dec_u_digits. lia.
  - repeat first [apply Forall_app; split|apply Forall_cons; split]; try done; try (by apply Hc); apply digits_no_cr, dec_u_digits; lia.
Qed.

Lemma range_header_end : strstr (range_header first last size) header_end = Some (length (range_header first last size) - 4)%nat.
Proof.
  destruct range_header_lines as (N1 & N2 & N3). unfold range_header.
  change (line_length ?n ++ ?r) with (67 :: tail (line_length n) ++ r) at 1. rewrite strstr_skip_line by done.
  change (67 :: tail (line_length ?n) ++ ?r) with (line_length n ++ r).
  change (line_range first last size ++ header_end) with (67 :: (tail (line_range first last size) ++ header_end)) at 1. rewrite strstr_skip_line by done.
  change (67 :: (tail (line_range first last size) ++ header_end)) with (line_range first last size ++ header_end).
  rewrite strstr_last by done. cbn [fmap option_fmap option_map]. rewrite !length_app. change (length header_end) with 4%nat. change (length CRLF) with 2%nat. f_equal. lia.
Qed.

Lemma range_header_length : (length (range_header first last size) <= 200)%nat.
Proof.
  unfold range_header, line_length, line_range. repeat (rewrite length_app || cbn [length]).
  change (length line_status) with 28%nat. change (length CRLF) with 2%nat. change (length header_end) with 4%nat.
  change (length (bs "Content-Length: ")) with 16%nat. change (length (bs "Content-Range: bytes ")) with 21%nat.
  assert (Hd : forall v, 0 <= v < 2 ^ 64 -> (length (dec_u v) <= 20)%nat) by (intros v Hv; apply dec_u_length; lia).
  pose proof (Hd first ltac:(lia)). pose proof (Hd last ltac:(lia)). pose proof (Hd size ltac:(lia)). pose proof (Hd (last - first + 1) ltac:(lia)). lia.
Qed.

Lemma range_header_fields : header_fields (range_header first last size) = inr (Fields true (last - first + 1) false false false true first last size true).
Proof.
  destruct range_header_lines as (N1 & N2 & N3). unfold header_fields. destruct (length (range_header first last size)) as [|[|[|[|f]]]] eqn:L;
    try (unfold range_header in L; rewrite !length_app in L; change (length line_status) with 28%nat in L; lia).
  unfold range_header. change header_end with (CRLF ++ CRLF ++ []). rewrite !header_lines_cr by done. change (CRLF ++ []) with ([] ++ CRLF ++ []).
  rewrite header_lines_cr by constructor. cbn [tail all_lines]. rewrite line_length_read by done. cbn [all_lines]. rewrite line_range_read by done. cbn [all_lines].
  assert (E : header_lines f [] = []) by (by destruct f). rewrite E. done.
Qed.

Lemma range_header_status : status_of (range_header first last size) = Some 206.
Proof.
  assert (Hz : existsb (fun c => c =? 0) (range_header first last size) = false).
  { assert (Hd : forall v, 0 <= v -> existsb (fun c => c =? 0) (dec_u v) = false).
    { intros v Hv. pose proof (dec_u_digits v Hv) as D. induction D as [|c s Hc _ IH]; [done|]. cbn. rewrite IH, orb_false_r. unfold isdigit, between in Hc. b2p. lia. }
    unfold range_header, line_length, line_range. repeat (rewrite existsb_app || cbn [existsb]). rewrite !Hd by lia. done. }
  unfold status_of. rewrite Hz. unfold range_header. change (HeaderIs (line_status ++ ?x) (bs "HTTP/1.")) with true.
  replace (_ <? 12)%nat with false; [done|]. rewrite !length_app. change (length line_status) with 28%nat. symmetry. apply Nat.ltb_ge. lia.
Qed.

(** the answer is taken *)
Lemma respond_range extra : Z.of_nat (length extra) <= last - first + 1 ->
  respond true first last (range_header first last size) extra =
  (Begun 206 (last - first + 1) size true, GStream true (last - first + 1) (take (Z.to_nat HTTP_CLIENT_STREAM_CHUNK) extra) 0).
Proof.
  intros He. unfold respond. rewrite range_header_status, range_header_fields. cbn -[Z.ltb Z.leb Z.add Z.sub].
  rewrite s32_id by lia. rewrite !Z.eqb_refl. replace (size <=? last) with false by lia. cbn [negb orb].
  replace (last - first + 1 <? 0) with false by lia. by replace (last - first + 1 <? Z.of_nat (length extra)) with false by lia.
Qed.
End Range.

(** ** A read from a server that serves the range *)

Section Serving.
Context {W : Type} `{!HttpSocket W} (cfg : http_settings) (pending : W -> bytes) (sec : Z -> bytes).
Import HttpDev.

(** a server that keeps the connection and answers the range with the image's bytes *)
Record serving (first last : Z) : Prop := {
  sv_order : in_order pending;
  sv_prompt w n r d w' : RecvBounded w n = (r, d, w') -> 0 < n -> pending w <> [] -> 0 < r;
  sv_answer w : pending w = [] -> exists w', SendData w (range_request cfg first last) = (strlen (range_request cfg first last), w') /\
    pending w' = range_header first last (size cfg) ++ disc_bytes sec first (last - first + 1);
  sv_connect w : exists w', httpConnect w = (true, w') /\ pending w' = [];
}.

Section Answer.
Context (first last : Z) (Hsv : serving first last).

Lemma recv_header_full fuel : forall w hdr block body, strstr block header_end = Some (length block - 4)%nat -> (4 <= length block)%nat ->
  hdr ++ pending w = block ++ body -> strstr hdr header_end = None -> Z.of_nat (length block) <= HTTP_HDR_MAX ->
  HTTP_HDR_MAX <= Z.of_nat (length hdr) + Z.of_nat fuel -> exists hdr' w', recv_header fuel w hdr = (hdr', Some (length block), w').
Proof.
  induction fuel as [|f IH]; intros w hdr block body Hb H4 Hp Hn Hmax Hf; cbn [recv_header].
  all: assert (Hshort : (length hdr < length block)%nat).
  1, 3: destruct (Nat.lt_ge_cases (length hdr) (length block)) as [?|Hge]; [done|exfalso];
    assert (E : hdr = block ++ drop (length block) hdr) by
      (apply (f_equal (take (length hdr))) in Hp; rewrite take_app_length in Hp; rewrite <- (take_drop (length block) hdr) at 1; f_equal;
       rewrite Hp, take_take, Nat.min_l by done; apply take_app_length);
    rewrite E in Hn; by rewrite (strstr_app_l _ _ _ Hb) in Hn.
  { lia. }
  replace (_ <? HTTP_HDR_MAX) with true by lia. destruct (RecvBounded w _) as [[r d] w1] eqn:R.
  assert (Hpend : pending w <> []).
  { intros E. rewrite E, app_nil_r in Hp. subst hdr. rewrite length_app in Hshort. lia. }
  pose proof (sv_prompt _ _ Hsv _ _ _ _ _ R ltac:(lia) Hpend) as Hr. replace (r <=? 0) with false by lia.
  destruct (sv_order _ _ Hsv _ _ _ _ _ R) as [?|(Hrl & Hrn & Hpd)]; [lia|lia|].
  pose proof (scan_more hdr d Hn) as Hs. rewrite Hpd, app_assoc in Hp. destruct (strstr (drop _ _) _) as [i|] eqn:F; cbn [fmap option_fmap option_map] in Hs.
  - exists (hdr ++ d), w1. do 3 f_equal. apply (strstr_app_l _ (pending w1)) in Hs. rewrite Hp, (strstr_app_l _ _ _ Hb) in Hs. injection Hs. lia.
  - apply (IH w1 (hdr ++ d) block body); try done. rewrite length_app. lia.
Qed.

Lemma stream_loop_full fuel : forall w rem wanted out, 0 <= rem <= Z.of_nat (length (pending w)) -> exists rem' out' w', stream_loop fuel w rem wanted out = (true, rem', out', w').
Proof.
  induction fuel as [|f IH]; intros w rem wanted out Hrem; cbn [stream_loop]; [by eauto|].
  destruct (Z.ltb_spec (Z.of_nat (length out)) wanted); [|by eauto]. destruct (Z.eqb_spec rem 0); [by eauto|].
  set (chunk := if _ && _ then rem else _). assert (Hc : 0 < chunk <= rem).
  { unfold chunk. replace (0 <? rem) with true by lia. cbn [andb]. destruct (Z.ltb_spec rem (wanted - Z.of_nat (length out))); lia. }
  destruct (RecvBounded w chunk) as [[r d] w1] eqn:R.
  assert (Hp : pending w <> []) by (intros E; rewrite E in Hrem; cbn in Hrem; lia).
  pose proof (sv_prompt _ _ Hsv _ _ _ _ _ R ltac:(lia) Hp) as Hr. replace (r <=? 0) with false by lia. replace (0 <? rem) with true by lia.
  destruct (sv_order _ _ Hsv _ _ _ _ _ R) as [?|(Hrl & Hrn & Hpd)]; [lia|lia|]. apply IH. rewrite Hpd, length_app in Hrem. lia.
Qed.

Lemma HttpStreamRead_served g w asked n d g' w' : flowing g -> Z.of_nat (length (unread g ++ pending w)) = remaining g ->
  HttpStreamRead g w asked = (n, d, g', w') -> 0 <= n.
Proof.
  intros (Hlive & Hoff & Hun) Hlen R. unfold HttpStreamRead in R. rewrite Hlive in R. cbn [negb] in R. set (wanted := if _ <? _ then _ else _) in R.
  destruct (Z.leb_spec wanted 0); [injection R as <- _ _ _; lia|]. unfold unread in *. rewrite length_app, length_drop in Hlen. rewrite length_drop in Hun.
  replace (Z.of_nat (length (gStage g)) - stageOff g <? 0) with false in R by lia.
  set (avail := if wanted <? _ then _ else _) in R.
  assert (Ha : 0 <= avail <= Z.of_nat (length (gStage g)) - stageOff g) by (unfold avail; destruct (Z.ltb_spec wanted (Z.of_nat (length (gStage g)) - stageOff g)); lia).
  assert (Erem : (if 0 <? remaining g then remaining g - avail else remaining g) = remaining g - avail) by (destruct (Z.ltb_spec 0 (remaining g)); lia).
  rewrite Erem in R. destruct (Z.eq_dec avail wanted) as [Ew|Ew].
  - assert (Ef : forall k o rem, wanted <= Z.of_nat (length o) -> stream_loop k w rem wanted o = (true, rem, o, w)).
    { intros k o rem Ho. destruct k; cbn [stream_loop]; [done|]. by replace (Z.of_nat (length o) <? wanted) with false by lia. }
    rewrite Ef in R by (rewrite length_take, length_drop; lia). injection R as <- _ _ _. lia.
  - assert (Efull : avail = Z.of_nat (length (gStage g)) - stageOff g) by (revert Ew; unfold avail; destruct (Z.ltb_spec wanted (Z.of_nat (length (gStage g)) - stageOff g)); [done|lia]).
    edestruct (stream_loop_full (Z.to_nat wanted) w (remaining g - avail) wanted) as (? & ? & ? & E); [|rewrite E in R; injection R as <- _ _ _; lia]. lia.
Qed.

Lemma read_all_full fuel : forall g w out len, flowing g -> remaining g = len - Z.of_nat (length out) -> len - Z.of_nat (length out) <= Z.of_nat fuel ->
  Z.of_nat (length (unread g ++ pending w)) = remaining g -> exists out' g' w', read_all fuel g w out len = (out', g', w') /\ Z.of_nat (length out') = len.
Proof.
  induction fuel as [|f IH]; intros g w out len Hg Hrem Hf Hlen; pose proof Hg as (Hlive & Hoff & Hun); cbn [read_all].
  { exists out, g, w. split; [done|]. lia. }
  destruct (Z.ltb_spec (Z.of_nat (length out)) len). 2:{ exists out, g, w. split; [done|]. lia. }
  destruct (HttpStreamRead g w _) as [[[n d] g1] w1] eqn:R. assert (Hn : 0 <= n) by (by apply (HttpStreamRead_served _ _ _ _ _ _ _ Hg Hlen R)).
  destruct (HttpStreamRead_ok pending (sv_order _ _ Hsv) g w (len - Z.of_nat (length out)) n d g1 w1 Hg ltac:(lia) R Hn) as (Hd & Hnw & Hg1 & Hr1 & Hp & Hz).
  destruct (Z.leb_spec n 0); [lia|]. apply IH; [done|rewrite length_app; lia|rewrite length_app; lia|].
  apply (f_equal length) in Hp. rewrite !length_app in *. lia.
Qed.

Lemma begin_serving w : 0 <= first -> first <= last -> last < size cfg -> size cfg < 2 ^ 64 -> last - first < 0x7fffffff -> 
  strlen (uri cfg) < HTTP_CLIENT_STREAM_URI_MAX -> strlen (server cfg) < HTTP_CLIENT_SERVER_NAME_MAX -> legal_name (uri cfg) = true -> legal_name (server cfg) = true ->
  pending w = [] -> exists g w', HttpStreamBegin w (server cfg) (uri cfg) true first last true = (Begun 206 (last - first + 1) (size cfg) true, g, w') /\
    flowing g /\ remaining g = last - first + 1 /\ unread g ++ pending w' = disc_bytes sec first (last - first + 1).
Proof.
  intros H0 H1 H2 H3 H4 L1 L2 N1 N2 Hw. unfold HttpStreamBegin. rewrite N1, N2.
  replace (_ <=? strlen (uri cfg)) with false by lia. replace (_ <=? strlen (server cfg)) with false by lia. cbn [negb orb andb].
  replace (last <? first) with false by lia. replace (_ <=? last - first) with false by lia. cbn [orb].
  destruct (sv_answer _ _ Hsv w Hw) as (w1 & E & Hp1). unfold range_request in E. rewrite E, Z.eqb_refl. cbn [negb].
  pose proof (range_header_end first last (size cfg) H0 H1 H2) as He. pose proof (range_header_length first last (size cfg) H0 H1 H2 H3) as Hlen.
  pose proof (strstr_end_length _ _ He). set (block := range_header first last (size cfg)) in *.
  destruct (recv_header_full (Z.to_nat HTTP_HDR_MAX) w1 [] block (disc_bytes sec first (last - first + 1)) He) as (hdr & w2 & V); try done; try (unfold HTTP_HDR_MAX; cbn [length]; lia).
  rewrite V. apply (recv_header_ok pending (sv_order _ _ Hsv)) in V; [|done]. destruct V as (Hp & _ & Hl & Hm). cbn [app] in Hp. rewrite Hp1 in Hp.
  assert (Ht : take (length block) hdr = block).
  { apply (f_equal (take (length block))) in Hp. rewrite take_app_length, take_app_le in Hp by lia. done. }
  rewrite Ht. assert (Hx : drop (length block) hdr ++ pending w2 = disc_bytes sec first (last - first + 1)).
  { apply (f_equal (drop (length block))) in Hp. rewrite drop_app_length, drop_app_le in Hp by lia. done. }
  assert (Hxl : Z.of_nat (length (drop (length block) hdr)) <= last - first + 1) by (apply (f_equal length) in Hx; rewrite length_app, disc_bytes_length in Hx; lia).
  unfold block at 1. rewrite respond_range by done. eexists _, w2. split; [done|].
  rewrite take_ge by (rewrite length_drop; unfold HTTP_HDR_MAX, HTTP_CLIENT_STREAM_CHUNK in *; lia).
  unfold flowing, unread. cbn [live stageOff gStage remaining]. rewrite drop_0. split_and!; try done; lia.
Qed.
End Answer.

(** From a server that answers range requests with the bytes of the image, in pieces
    of any size, a read of sectors gives those sectors, the first attempt already, and
    leaves the connection open and empty for the next. *)
Theorem http_read_serves d lsn sectors :
  let first := lsn * 2048 in let last := lsn * 2048 + sectors * 2048 - 1 in
  serving first last -> 0 <= lsn -> 0 < sectors <= 0x7fffffff / 2048 -> (lsn + sectors) * 2048 <= size cfg -> size cfg < 2 ^ 64 ->
  strlen (uri cfg) < HTTP_CLIENT_STREAM_URI_MAX -> strlen (server cfg) < HTTP_CLIENT_SERVER_NAME_MAX -> legal_name (uri cfg) = true -> legal_name (server cfg) = true ->
  httpReady d = true -> httpStopped d = false -> (httpSock d = true -> pending (conn d) = []) ->
  exists d', DeviceReadSectors cfg d lsn sectors = (SCECdErNO, disc_bytes sec first (sectors * 2048), d') /\
    httpSock d' = true /\ pending (conn d') = [] /\ httpReady d' = true /\ httpStopped d' = false.
Proof.
  intros first last Hsv Hl Hs Hsz H64 L1 L2 N1 N2 Hr Hst Hconn. change (0x7fffffff / 2048) with 1048575 in Hs. unfold DeviceReadSectors.
  replace (sectors =? 0) with false by lia. cbv zeta. rewrite Hr, Hst, Z.shiftr_div_pow2, !Z.shiftl_mul_pow2 by lia. change (2 ^ 11) with 2048.
  assert (lsn + sectors <= size cfg / 2048) by (apply Z.div_le_lower_bound; lia).
  replace (size cfg / 2048 <? lsn) with false by lia. replace (size cfg / 2048 - lsn <? sectors) with false by lia.
  replace (0x7fffffff / 2048 <? sectors) with false by (change (0x7fffffff / 2048) with 1048575; lia). cbn [negb orb].
  rewrite (u64_id (lsn * 2048)), (u64_id (sectors * 2048)), u64_id by lia. change (lsn * 2048 + sectors * 2048 - 1) with last. fold first. cbn [attempts]. rewrite Hst.
  assert (Hopen : exists d1, (if httpSock d then (true, d) else httpOpen d) = (true, d1) /\ pending (conn d1) = [] /\ httpReady d1 = true /\ httpStopped d1 = false).
  { destruct (httpSock d); [exists d; auto|]. unfold httpOpen. destruct (sv_connect _ _ Hsv (conn d)) as (w & -> & Hw). eexists. split; [done|]. by cbn. }
  destruct Hopen as (d1 & -> & Hp & Hr1 & Hs1). cbn [negb].
  destruct (begin_serving first last Hsv (conn d1)) as (g & w & E & Hg & Hrem & Hu); try done; try (unfold first, last; lia).
  rewrite E. cbn [status hasTotal total contentLen put_conn conn]. rewrite !Z.eqb_refl. cbn [andb Z.eqb Pos.eqb].
  destruct (read_all_full first last Hsv (Z.to_nat (last - first + 1)) g w [] (last - first + 1)) as (out & g2 & w2 & R & Hlen); try done;
    [cbn; lia|cbn; lia|rewrite Hu, disc_bytes_length; unfold first, last in *; lia|].
  rewrite R. replace (Z.of_nat (length out) =? last - first + 1) with true by lia.
  apply (read_all_ok pending (sv_order _ _ Hsv)) in R; [|done|cbn; lia|cbn; lia|done]. destruct R as (o & Eo & Hpo). cbn [app] in Eo. subst o.
  rewrite Hu in Hpo. assert (Hlens : length (pending w2) = 0%nat) by (apply (f_equal length) in Hpo; rewrite length_app, disc_bytes_length in Hpo; unfold first, last in *; lia).
  destruct (pending w2) as [|] eqn:Epw; [|done]. rewrite app_nil_r in Hpo. rewrite <- Hpo. eexists. split.
  - do 2 f_equal. f_equal. rewrite blit_front, drop_nil, app_nil_r. replace (last - first + 1) with (sectors * 2048) by (unfold first, last; lia). done.
  - cbn. by split_and!.
Qed.
End Serving.

(** ** An example server, which sends at most a hundred bytes at a time *)

Inductive httpserver := Srv (coming : bytes).
Definition coming (w : httpserver) : bytes := let 'Srv p := w in p.
Definition demo_sec (l : Z) : bytes := replicate 2048 (l mod 256).
Definition demo_cfg : http_settings := HttpSettings (bs "10.0.0.2") (bs "/game.iso") 4096.

#[export] Instance demo_http : HttpSocket httpserver := {
  http_conn := {|
    SendData w req := (strlen req, Srv (range_header 2048 4095 4096 ++ disc_bytes demo_sec 2048 2048));
    RecvBounded w n := let d := take (Z.to_nat (n `min` 100)) (coming w) in (Z.of_nat (length d), d, Srv (drop (length d) (coming w)));
  |};
  httpConnect w := (true, Srv []);
  httpClose w := w;
}.

Lemma demo_in_order : in_order coming.
Proof.
  intros [p] n r d w' E Hn. cbn [RecvBounded http_conn demo_http coming] in E. injection E as <- <- <-.
  set (d := take (Z.to_nat (n `min` 100)) p). destruct (Z.le_gt_cases (Z.of_nat (length d)) 0); [by left|right]. split; [done|].
  assert (L : (length d <= Z.to_nat (n `min` 100))%nat) by (unfold d; rewrite length_take; lia). split; [lia|]. cbn [coming].
  assert (E : take (length d) p = d) by (unfold d; rewrite length_take; destruct (Nat.le_ge_cases (Z.to_nat (n `min` 100)) (length p));
    [by rewrite Nat.min_l|rewrite Nat.min_r by done; rewrite !take_ge by lia; done]).
  rewrite <- E at 1. by rewrite take_drop.
Qed.

Lemma demo_serving : serving demo_cfg coming demo_sec (1 * 2048) (1 * 2048 + 1 * 2048 - 1).
Proof.
  split; [exact demo_in_order| | |by intros w; exists (Srv [])].
  - intros [p] n r d w' E Hn Hp. cbn [RecvBounded http_conn demo_http coming] in *. injection E as <- _ _.
    rewrite length_take. destruct p; [done|]. cbn [length]. lia.
  - intros w _. by eexists.
Qed.

Definition demo_dev : HttpDev.httpdev := HttpDev.HttpDev (Srv []) false true false HttpStreamEnd.

Lemma http_read_is_range_witness :
  exists data d', HttpDev.DeviceReadSectors demo_cfg demo_dev 1 1 = (SCECdErNO, data, d') /\
    answered demo_cfg coming 2048 4095 data (HttpDev.conn d') /\ Z.of_nat (length data) = 2048.
Proof.
  assert (He : fst (fst (HttpDev.DeviceReadSectors demo_cfg demo_dev 1 1)) = SCECdErNO) by (vm_compute; reflexivity).
  destruct (HttpDev.DeviceReadSectors demo_cfg demo_dev 1 1) as [[e data] d'] eqn:E. cbn in He. subst e. exists data, d'.
  destruct (http_read_is_range demo_cfg coming demo_in_order demo_dev 1 1 data d' ltac:(lia) ltac:(lia) ltac:(cbn; lia) E) as (H1 & H2 & _).
  split_and!; [done|exact H1|exact H2].
Defined.

Lemma http_read_serves_witness :
  exists d', HttpDev.DeviceReadSectors demo_cfg demo_dev 1 1 = (SCECdErNO, disc_bytes demo_sec (1 * 2048) (1 * 2048), d') /\
    HttpDev.httpSock d' = true /\ coming (HttpDev.conn d') = [] /\ HttpDev.httpReady d' = true /\ HttpDev.httpStopped d' = false.
Proof.
  refine (http_read_serves demo_cfg coming demo_sec demo_dev 1 1 demo_serving _ _ _ _ _ _ eq_refl eq_refl eq_refl eq_refl _);
    [lia|split; [lia|vm_compute; congruence]|cbn; lia|cbn; lia|vm_compute; reflexivity|vm_compute; reflexivity|done].
Defined.
