(* ===== verification/CdFile.v ===== *)
(** * CdFile: files on the disc (modules/iopcore/cdvdman/searchfile.c, ioops.c)

    The search for a file in the directories of the disc, the table of open files, and
    their reads and seeks, over a drive that reads sectors. The drive is an interface;
    [cdvdman_drive] at the end is the one of CdRead. *)
From S2P Require Import Prelude CLib CdDisc Zso CdRead.

(** a read of sectors that was accepted and waited for ([sceCdRead], [sceCdSync]),
    whether another read is under way, so that [sceCdRead] refuses, and the bound that the
    driver keeps of the media *)
Class CdDrive (W : Type) := {
  sync_flag : W -> bool;
  sceCdRead : W -> Z -> Z -> bytes * W;
  set_mediaLsnCount : W -> Z -> W;
}.

(** the settings of the game that these functions read *)
Record fs_settings := FsSettings {
  emu_dvddl : bool;           (** [IOPCORE_COMPAT_EMU_DVDDL] *)
  skip_videos : bool;         (** [IOPCORE_COMPAT_0_SKIP_VIDEOS] *)
  layer1_start : Z;
}.

(** [sceCdReadDvdDualInfo]: whether there are two layers, and where the second begins *)
Definition sceCdReadDvdDualInfo (cfg : fs_settings) : bool * Z :=
  if emu_dvddl cfg then (true, 0) else (0 <? layer1_start cfg, layer1_start cfg).

(** ** Directory records *)

Record dirTocEntry := Toc {
  toc_length : Z;
  fileLBA : Z;
  fileSize : Z;
  fileProperties : Z;
  filenameLength : Z;
  filename : bytes;           (** from its first byte on *)
}.

Definition s16 (x : Z) : Z := (x + 2 ^ 15) mod 2 ^ 16 - 2 ^ 15.

Definition toc_at (buf : bytes) (pos : Z) : dirTocEntry :=
  let b := drop (Z.to_nat pos) buf in
  Toc (s16 (le_val (take 2 b))) (u32 (le_val (take 4 (drop 2 b)))) (u32 (le_val (take 4 (drop 10 b)))) (nth 25 b 0) (nth 32 b 0) (drop 33 b).

(** the name as it is compared: at most 14 characters *)
Definition curdir (e : dirTocEntry) : bytes :=
  cstr (take (Z.to_nat (if 15 <=? filenameLength e then 14 else filenameLength e)) (filename e)).

Definition is_dir (e : dirTocEntry) : bool := negb (Z.land (fileProperties e) 2 =? 0).

(** the record that the search takes: the first 12 characters agree, and on the way to
    the file it is a directory *)
Definition taken (want : bytes) (last : bool) (e : dirTocEntry) : bool := (strncmp want (curdir e) 12 =? 0) && (last || is_dir e).

(** the records of one sector; [None] when the loop would not get on: a record without a
    name, or one whose length is negative *)
Fixpoint scan_sector (fuel : nat) (buf : bytes) (tocPos : Z) (want : bytes) (last : bool) : option (option dirTocEntry) :=
  match fuel with
  | O => None
  | S f =>
    let e := toc_at buf tocPos in
    if toc_length e =? 0 then Some None
    else if filenameLength e =? 0 then None
    else if taken want last e then Some (Some e)
    else if toc_length e <? 0 then None
    else if tocPos + toc_length e <? 2016 then scan_sector f buf (tocPos + toc_length e) want last
    else Some None
  end.

Section Files.
Context {W : Type} `{!CdDrive W} (cfg : fs_settings).

(** the sectors of one directory *)
Fixpoint search_sectors (k : nat) (w : W) (tocLBA : Z) (want : bytes) (last : bool) : option (option dirTocEntry * W) :=
  match k with
  | O => Some (None, w)
  | S k =>
    if sync_flag w then Some (None, w)
    else
      let '(buf, w) := sceCdRead w tocLBA 1 in
      r ← scan_sector 2017 buf 0 want last;
      match r with Some e => Some (Some e, w) | None => search_sectors k w (u32 (tocLBA + 1)) want last end
  end.

Definition cSLASHES (c : Z) : bool := c =? cSLASH.
Definition cBSLASHES (c : Z) : bool := c =? cBSLASH.

(** where the next name of a path ends: at a slash, or else at a backslash *)
Definition name_end (p : bytes) : option nat := match strchr p cSLASH with Some i => Some i | None => strchr p cBSLASH end.

(** [cdvdman_locatefile]; the fuel counts the names of the path *)
Fixpoint cdvdman_locatefile (fuel : nat) (w : W) (name : bytes) (tocLBA tocLength : Z) (layer : Z) : option (option dirTocEntry * W) :=
  match fuel with
  | O => None
  | S f =>
    let p := dropwhile cBSLASHES (dropwhile cSLASHES name) in
    let slash := name_end p in
    let seg := match slash with Some i => take i p | None => p end in
    let dirname := take 31 seg in
    '(r, w) ← search_sectors (Z.to_nat ((tocLength + 2047) / 2048)) w tocLBA dirname (match slash with None => true | _ => false end);
    match r, slash with
    | Some e, Some i =>
      let lba := if negb (emu_dvddl cfg) && negb (layer =? 0) then u32 (fileLBA e + snd (sceCdReadDvdDualInfo cfg)) else fileLBA e in
      cdvdman_locatefile f w (drop (S i) p) lba (s32 (fileSize e)) layer
    | _, _ => Some (r, w)
    end
  end.

Definition cdvdman_trimspaces (s : bytes) : bytes := rdropwhile (fun c => (c =? 32) || (c =? 46)) s.

(** [layer_info], and the drive *)
Record cdfs := CdFs {
  cd : W;
  rootDirtocLBA : Z -> Z;
  rootDirtocLength : Z -> Z;
}.
Definition put_cd (s : cdfs) (w : W) : cdfs := CdFs w (rootDirtocLBA s) (rootDirtocLength s).

Record sceCdlFILE := CdlFile { cdl_lsn : Z; cdl_size : Z; cdl_name : bytes; cdl_over : nat }.

(** [strcpy] to the 16 bytes of the name: what it writes from there on, and how many of
    these bytes lie behind the array (the date and the flag of the structure come next) *)
Definition CDL_NAME_SIZE : nat := 16.
Definition copy_name (lsn size : Z) (nm : bytes) : sceCdlFILE := CdlFile lsn size nm (S (length nm) - CDL_NAME_SIZE).

Definition is_video (path : bytes) : bool :=
  let t := drop (length path - 6) path in (strncmp t (bs ".PSS") 4 =? 0) || (strncmp t (bs ".pss") 4 =? 0).

(** [cdvdman_findfile]; [None] where the search leaves the program's memory or does not
    end, or the path has no backslash; a name that does not fit overruns the caller's
    structure ([cdl_over]) *)
Definition cdvdman_findfile (s : cdfs) (name : bytes) (layer : Z) : option (option sceCdlFILE * cdfs) :=
  let layer := if emu_dvddl cfg then 0 else layer in
  let l := if negb (layer =? 0) then 1 else 0 in
  let path := cdvdman_trimspaces (take 255 name) in
  if rootDirtocLBA s l =? 0 then Some (None, s)
  else
    '(r, w) ← cdvdman_locatefile (S (length path)) (cd s) path (rootDirtocLBA s l) (s32 (rootDirtocLength s l)) layer;
    let s := put_cd s w in
    match r with
    | None => Some (None, s)
    | Some e =>
      let lsn := if negb (layer =? 0) then u32 (fileLBA e + snd (sceCdReadDvdDualInfo cfg)) else fileLBA e in
      if skip_videos cfg && (length path <? 6)%nat then None
      else
        let size := if skip_videos cfg && is_video path then 0 else fileSize e in
        i ← strrchr name cBSLASH;
        Some (Some (copy_name lsn size (drop (S i) name)), s)
    end.

(** [cdvdman_searchfile_init] *)
Definition cdvdman_searchfile_init (s : cdfs) : cdfs :=
  let '(buf, w) := sceCdRead (cd s) 16 1 in
  let e := toc_at buf 0x9c in
  let media := le_val (take 4 (drop 0x50 buf)) in
  let set_root l lba len s w := CdFs w (fun k => if k =? l then lba else rootDirtocLBA s k) (fun k => if k =? l then len else rootDirtocLength s k) in
  let s := set_root 0 (fileLBA e) (fileSize e) s (set_mediaLsnCount w media) in
  let '(on_dual, layer1) := sceCdReadDvdDualInfo cfg in
  if negb (emu_dvddl cfg) && on_dual then
    let '(buf, w) := sceCdRead (set_mediaLsnCount (cd s) 0) (u32 (layer1 + 16)) 1 in
    let e := toc_at buf 0x9c in
    let lsn1 := le_val (take 4 (drop 0x50 buf)) in
    set_root 1 (u32 (layer1 + fileLBA e)) (fileSize e) s (set_mediaLsnCount w (u32 (u32 (media + lsn1) - 16)))
  else s.

(** ** Open files *)

Definition MAX_FDHANDLES : nat := 64.
Definition ENOENT : Z := 2.
Definition EMFILE : Z := 24.

(** [fh_f] is the file that uses the handle *)
Record FHANDLE := Fh { fh_f : option nat; fh_lsn : Z; fh_filesize : Z; fh_position : Z }.
Definition no_handle : FHANDLE := Fh None 0 0 0.

Record ioops := IoOps { fs : cdfs; cdvdman_fdhandles : list FHANDLE; fs_buf : bytes }.
Definition put_fs (s : ioops) (x : cdfs) : ioops := IoOps x (cdvdman_fdhandles s) (fs_buf s).
Definition put_handle (s : ioops) (i : nat) (h : FHANDLE) : ioops := IoOps (fs s) (<[i := h]> (cdvdman_fdhandles s)) (fs_buf s).
Definition put_io (s : ioops) (w : W) (buf : bytes) : ioops := IoOps (put_cd (fs s) w) (cdvdman_fdhandles s) buf.
Definition handle (s : ioops) (i : nat) : FHANDLE := nth i (cdvdman_fdhandles s) no_handle.

Definition cdvdman_getfilefreeslot (s : ioops) : option nat :=
  find_index (fun h => match fh_f h with None => true | _ => false end) (cdvdman_fdhandles s).

(** [cdvdman_open]: the result, and the handle that becomes the file's private data *)
Definition cdvdman_open (s : ioops) (f : nat) (unit : Z) (name : bytes) : option (Z * option nat * ioops) :=
  if unit <? 2 then
    match cdvdman_getfilefreeslot s with
    | Some i =>
      '(r, x) ← cdvdman_findfile (fs s) name unit;
      let s := put_fs s x in
      match r with
      | Some c => Some (0, Some i, put_handle s i (Fh (Some f) (cdl_lsn c) (cdl_size c) 0))
      | None => Some (- ENOENT, None, s)
      end
    | None => Some (- EMFILE, None, s)
    end
  else Some (- ENOENT, None, s).

(** [cdrom_purifyPath] *)
Definition cdrom_purifyPath (path : bytes) : bytes :=
  let len := length path in
  if (3 <=? len)%nat then
    if (nth (len - 2) path 0 =? cSEMI) && (nth (len - 1) path 0 =? 49) then path
    else if nth (len - 1) path 0 =? cSEMI then path ++ [49]
    else path ++ [cSEMI; 49]
  else path.

(** [cdrom_open]; [None] also when the path or its suffix does not fit the buffer *)
Definition cdrom_open (s : ioops) (f : nat) (unit : Z) (filename : bytes) : option (Z * option nat * ioops) :=
  let path := cdrom_purifyPath filename in
  if (128 <=? length path)%nat then None else cdvdman_open s f unit path.

Definition cdrom_close (s : ioops) (i : nat) : ioops := put_handle s i no_handle.

(** [cdrom_getstat]: the file that is written over the [attr] of the answer *)
Definition cdrom_getstat (s : ioops) (unit : Z) (filename : bytes) : option (Z * option sceCdlFILE * ioops) :=
  let path := cdrom_purifyPath filename in
  if (128 <=? length path)%nat then None
  else
    '(r, x) ← cdvdman_findfile (fs s) path unit;
    Some (match r with Some _ => 0 | None => -1 end, r, put_fs s x).

Definition cdrom_dopen (s : ioops) (f : nat) (unit : Z) (dirname : bytes) : option (Z * option nat * ioops) := cdvdman_open s f unit dirname.

Record iox_dirent := Dirent { stat_mode : Z; stat_size : Z; d_name : bytes }.

(** the next record whose name is not of one character, and the position behind it;
    [None] when the records leave the buffer, or the loop does not get on *)
Fixpoint next_record (fuel : nat) (buf : bytes) (position : Z) : option (Z * dirTocEntry * Z) :=
  match fuel with
  | O => None
  | S f =>
    let e := toc_at buf position in
    if Z.of_nat (length buf) <? position + 33 + filenameLength e then None
    else if toc_length e =? 0 then Some (0, e, position)
    else if filenameLength e =? 1 then next_record f buf (u32 (position + toc_length e))
    else Some (1, e, u32 (position + toc_length e))
  end.

Definition dirent_of (e : dirTocEntry) : iox_dirent :=
  Dirent (if is_dir e then 0x116d else 0x2124) (fileSize e) (cstr (take (Z.to_nat (filenameLength e)) (filename e))).

(** [cdrom_dread]; the entry is left alone when the drive refuses the read *)
Definition cdrom_dread (s : ioops) (i : nat) : option (Z * option iox_dirent * ioops) :=
  let h := handle s i in
  if sync_flag (cd (fs s)) then Some (0, None, s)
  else
    let '(d, w) := sceCdRead (cd (fs s)) (fh_lsn h) 1 in
    let s := put_io s w (blit (fs_buf s) 0 d) in
    '(r, e, position) ← next_record (S (length (fs_buf s))) (fs_buf s) (fh_position h);
    Some (r, Some (dirent_of e), put_handle s i (Fh (fh_f h) (fh_lsn h) (fh_filesize h) position)).

(** one sector through [cdvdman_fs_buf]: [nbytes] bytes from [offset], put at [at_] *)
Definition read_part (s : ioops) (lsn offset nbytes : Z) (buf : bytes) (at_ : Z) : bytes * ioops :=
  let '(d, w) := sceCdRead (cd (fs s)) lsn 1 in
  let s := put_io s w (blit (fs_buf s) 0 d) in
  (blit buf (Z.to_nat at_) (take (Z.to_nat nbytes) (drop (Z.to_nat offset) (fs_buf s))), s).

Definition move (h : FHANDLE) (n : Z) : FHANDLE := Fh (fh_f h) (fh_lsn h) (fh_filesize h) (u32 (fh_position h + n)).

(** a read under way: the handle, the buffer, what is left to read and where it goes *)
Record reading := Reading { r_h : FHANDLE; r_buf : bytes; r_s : ioops; r_size : Z; r_rpos : Z }.

(** phase 1: up to the next sector *)
Definition read_head (x : reading) : reading :=
  let '(Reading h buf s size rpos) := x in
  let offset := fh_position h mod 2048 in
  if negb (offset =? 0) then
    let nbytes := if size <? 2048 - offset then size else 2048 - offset in
    let '(buf, s) := read_part s (u32 (fh_lsn h + fh_position h / 2048)) offset nbytes buf rpos in
    Reading (move h nbytes) buf s (size - nbytes) (rpos + nbytes)
  else x.

(** phase 2: whole sectors *)
Definition read_whole (x : reading) : reading :=
  let '(Reading h buf s size rpos) := x in
  let nsectors := size / 2048 in
  if 0 <? nsectors then
    let nbytes := nsectors * 2048 in
    let '(d, w) := sceCdRead (cd (fs s)) (u32 (fh_lsn h + fh_position h / 2048)) nsectors in
    Reading (move h nbytes) (blit buf (Z.to_nat rpos) d) (put_io s w (fs_buf s)) (size - nbytes) (rpos + nbytes)
  else x.

(** phase 3: the rest *)
Definition read_tail (x : reading) : reading :=
  let '(Reading h buf s size rpos) := x in
  if 0 <? size then
    let '(buf, s) := read_part s (u32 (fh_lsn h + fh_position h / 2048)) 0 size buf rpos in
    Reading (move h size) buf s 0 (rpos + size)
  else x.

(** [cdrom_read] of an open file into [buf] *)
Definition cdrom_read (s : ioops) (i : nat) (buf : bytes) (size : Z) : Z * bytes * ioops :=
  let h := handle s i in
  let size := if fh_filesize h <? u32 (fh_position h + size) then s32 (fh_filesize h - fh_position h) else size in
  if 0 <? size then
    let x := read_tail (read_whole (read_head (Reading h buf s size 0))) in
    (r_rpos x, r_buf x, put_handle (r_s x) i (r_h x))
  else (0, buf, s).

Inductive whence := SEEK_SET | SEEK_CUR | SEEK_END | SEEK_other.

Definition cdrom_lseek (s : ioops) (i : nat) (offset : Z) (w : whence) : Z * ioops :=
  let h := handle s i in
  let p := match w with
           | SEEK_CUR => u32 (fh_position h + offset)
           | SEEK_SET => u32 offset
           | SEEK_END => u32 (fh_filesize h - offset)
           | SEEK_other => fh_position h
           end in
  let p := if fh_filesize h <? p then fh_filesize h else p in
  (s32 p, put_handle s i (Fh (fh_f h) (fh_lsn h) (fh_filesize h) p)).
End Files.

(** what was read to the front of a buffer *)
Lemma front_slice {A} (buf d : list A) o n : (o + n <= length d)%nat -> take n (drop o (blit buf 0 d)) = take n (drop o d).
Proof. intros H. unfold blit. rewrite take_0, app_nil_l, drop_app_le by lia. rewrite take_app_le by (rewrite length_drop; lia). done. Qed.

(** ** Reads of an open file *)

Section Reads.
Context {W : Type} `{!CdDrive W} (sec : Z -> bytes) (inv : W -> Prop) (lo total limit : Z).

(** the drive gives the sectors of the disc from [lo] to [total], [limit] at a time *)
Definition drive_ok : Prop := forall w lsn n, inv w -> lo <= lsn -> 0 < n <= limit -> lsn + n <= total ->
  exists w', sceCdRead w lsn n = (disc_bytes sec (lsn * 2048) (n * 2048), w') /\ inv w'.
Context (Hdrive : drive_ok).

(** a handle of a file of the disc, positioned in it *)
Record handle_ok (h : FHANDLE) : Prop := {
  ho_lsn : 0 <= lo <= fh_lsn h;
  ho_pos : 0 <= fh_position h <= fh_filesize h;
  ho_size : fh_filesize h < 2 ^ 31;
  ho_end : fh_lsn h * 2048 + fh_filesize h <= total * 2048;
}.
Context (Htotal : total <= 2 ^ 31).

Definition io_ok (s : ioops) : Prop := inv (cd (fs s)) /\ (2048 <= length (fs_buf s))%nat.

Lemma read_part_ok s lsn offset n buf at_ : io_ok s -> 0 <= lo <= lsn -> lsn + 1 <= total -> 1 <= limit -> 0 <= offset -> 0 <= n -> offset + n <= 2048 ->
  exists s', read_part s lsn offset n buf at_ = (blit buf (Z.to_nat at_) (disc_bytes sec (lsn * 2048 + offset) n), s') /\
    io_ok s' /\ cdvdman_fdhandles s' = cdvdman_fdhandles s.
Proof.
  intros [Hi Hb] Hlo Hl Hlim Ho Hn Hon. unfold read_part. destruct (Hdrive (cd (fs s)) lsn 1 Hi) as (w' & -> & Hi'); [lia|lia|lia|].
  cbn [fs_buf put_io]. rewrite front_slice by (rewrite disc_bytes_length; lia). rewrite disc_bytes_slice by lia.
  eexists. split; [done|]. split; [|done]. split; [exact Hi'|]. cbn. rewrite blit_length; [exact Hb|rewrite disc_bytes_length; lia].
Qed.

(** the bytes of a file on the disc *)
Definition file_bytes (h : FHANDLE) (pos n : Z) : bytes := disc_bytes sec (fh_lsn h * 2048 + pos) n.

Lemma file_blit_app (h : FHANDLE) buf pos n m at_ : 0 <= at_ -> 0 <= n -> 0 <= m -> at_ + n + m <= Z.of_nat (length buf) ->
  blit (blit buf (Z.to_nat at_) (file_bytes h pos n)) (Z.to_nat (at_ + n)) (file_bytes h (pos + n) m) = blit buf (Z.to_nat at_) (file_bytes h pos (n + m)).
Proof.
  intros Ha Hn Hm Hl. unfold file_bytes. rewrite disc_bytes_app by lia. replace (fh_lsn h * 2048 + (pos + n)) with (fh_lsn h * 2048 + pos + n) by lia.
  set (a := disc_bytes sec _ n). set (c := disc_bytes sec _ m). assert (La : length a = Z.to_nat n) by apply disc_bytes_length. assert (Lc : length c = Z.to_nat m) by apply disc_bytes_length.
  replace (Z.to_nat (at_ + n)) with (Z.to_nat at_ + length a)%nat by lia. unfold blit at 1. destruct (blit_append buf (Z.to_nat at_) a) as [E _]; [lia|].
  rewrite E. unfold blit. rewrite <- !app_assoc. do 2 f_equal. rewrite !drop_app, !length_take, length_app.
  rewrite (drop_ge (take _ _)) by (rewrite length_take; lia). rewrite (drop_ge a) by lia. cbn [app]. rewrite drop_drop. do 2 f_equal. lia.
Qed.

Lemma move_zero h : 0 <= fh_position h < 2 ^ 32 -> move h 0 = h.
Proof. intros H. unfold move. rewrite Z.add_0_r, u32_id by lia. by destruct h. Qed.

Lemma move_move h n m : move (move h n) m = move h (n + m).
Proof. unfold move. cbn. f_equal. rewrite u32_add_l. f_equal. lia. Qed.

Lemma handle_put s i h j : (i < length (cdvdman_fdhandles s))%nat -> handle (put_handle (W := W) s i h) j = if decide (j = i) then h else handle s j.
Proof.
  intros Hi. unfold handle, put_handle. cbn. rewrite !nth_lookup. destruct (decide (j = i)) as [->|Hne].
  - by rewrite list_lookup_insert_eq by done.
  - by rewrite list_lookup_insert_ne by done.
Qed.

Lemma move_ok h n : handle_ok h -> 0 <= n <= fh_filesize h - fh_position h -> handle_ok (move h n) /\ fh_position (move h n) = fh_position h + n.
Proof. intros [L P S E] Hn. unfold move. cbn. rewrite u32_id by lia. split; [|done]. split; cbn; lia. Qed.

(** how far a read of [n] bytes from [h] has come: [k] bytes are in the buffer *)
Record progress (h : FHANDLE) (buf0 : bytes) (s0 : ioops (W := W)) (n k : Z) (x : reading) : Prop := {
  pg_range : 0 <= k <= n;
  pg_h : r_h x = move h k;
  pg_buf : r_buf x = blit buf0 0 (file_bytes h (fh_position h) k);
  pg_size : r_size x = n - k;
  pg_rpos : r_rpos x = k;
  pg_io : io_ok (r_s x);
  pg_same : cdvdman_fdhandles (r_s x) = cdvdman_fdhandles s0;
}.

Section Read.
Context (h : FHANDLE) (buf0 : bytes) (s0 : ioops (W := W)) (n : Z).
Context (Hh : handle_ok h) (Hn : 0 <= n <= fh_filesize h - fh_position h) (Hbuf : n <= Z.of_nat (length buf0)) (Hl1 : 1 <= limit) (Hlim : n / 2048 <= limit).

(** [m] more bytes, which lie at the position *)
Lemma progress_more k m b s : 0 <= k -> 0 <= m -> k + m <= n ->
  b = blit (blit buf0 0 (file_bytes h (fh_position h) k)) (Z.to_nat k) (file_bytes h (fh_position h + k) m) ->
  io_ok s -> cdvdman_fdhandles s = cdvdman_fdhandles s0 ->
  progress h buf0 s0 n (k + m) (Reading (move (move h k) m) b s (n - k - m) (k + m)).
Proof.
  intros Hk Hm Hkm -> Hio Hs. split; cbn; try done; try lia; [apply move_move|].
  exact (file_blit_app h buf0 (fh_position h) k m 0 ltac:(lia) ltac:(lia) ltac:(lia) ltac:(lia)).
Qed.

Lemma position_at k : 0 <= k <= n -> fh_position (move h k) = fh_position h + k /\ fh_lsn (move h k) = fh_lsn h.
Proof. intros Hk. destruct (move_ok h k Hh) as [_ E]; [lia|]. done. Qed.

(** the sector of the position, in bytes *)
Lemma sector_at k : 0 <= k -> (k < n \/ k <= n) ->
  (fh_position h + k) / 2048 * 2048 + (fh_position h + k) mod 2048 = fh_position h + k /\ 0 <= (fh_position h + k) mod 2048 < 2048.
Proof. intros _ _. pose proof (Z.div_mod (fh_position h + k) 2048 ltac:(lia)). pose proof (Z.mod_pos_bound (fh_position h + k) 2048 ltac:(lia)). lia. Qed.

(** one sector through the driver's buffer *)
Lemma part_progress k m s : 0 <= k -> 0 < m -> k + m <= n -> (fh_position h + k) mod 2048 + m <= 2048 -> io_ok s -> cdvdman_fdhandles s = cdvdman_fdhandles s0 ->
  exists b s', read_part s (u32 (fh_lsn h + (fh_position h + k) / 2048)) ((fh_position h + k) mod 2048) m (blit buf0 0 (file_bytes h (fh_position h) k)) k = (b, s') /\
    progress h buf0 s0 n (k + m) (Reading (move (move h k) m) b s' (n - k - m) (k + m)).
Proof.
  intros Hk Hm Hkm Hfit Hio Hs. pose proof Hh as [HL HP HS HE]. pose proof (sector_at k Hk ltac:(lia)) as [D B].
  assert (0 <= (fh_position h + k) / 2048) by (apply Z.div_pos; lia). rewrite u32_id by lia.
  destruct (read_part_ok s (fh_lsn h + (fh_position h + k) / 2048) ((fh_position h + k) mod 2048) m (blit buf0 0 (file_bytes h (fh_position h) k)) k Hio)
    as (s' & -> & Hio' & Hs'); [lia..|]. eexists _, s'. split; [done|]. apply progress_more; try done; try lia; [|congruence].
  unfold file_bytes at 3. do 2 f_equal. lia.
Qed.

Lemma head_progress s : io_ok s -> cdvdman_fdhandles s = cdvdman_fdhandles s0 -> 0 < n ->
  exists k, progress h buf0 s0 n k (read_head (Reading h buf0 s n 0)) /\ (k = n \/ (fh_position h + k) mod 2048 = 0).
Proof.
  intros Hio Hs Hn0. pose proof Hh as [HL HP HS HE]. cbn [read_head]. pose proof (sector_at 0 ltac:(lia) ltac:(lia)) as [D B]. rewrite Z.add_0_r in D, B.
  destruct (Z.eqb_spec (fh_position h mod 2048) 0) as [E0|E0]; cbn [negb].
  - exists 0. split; [|right; by rewrite Z.add_0_r]. split; cbn -[blit]; try done; try lia; first [by rewrite move_zero by lia|symmetry; apply blit_nil].
  - cbv zeta. set (m := if n <? _ then n else _).
    assert (Hm : 0 < m <= n /\ fh_position h mod 2048 + m <= 2048 /\ (m = n \/ fh_position h mod 2048 + m = 2048))
      by (unfold m; destruct (Z.ltb_spec n (2048 - fh_position h mod 2048)); lia).
    destruct (part_progress 0 m s) as (b & s' & E & Hp); try done; try lia.
    { rewrite Z.add_0_r. lia. }
    rewrite Z.add_0_r in E. change (blit buf0 0 (file_bytes h (fh_position h) 0)) with (blit buf0 0 []) in E. rewrite blit_nil in E. rewrite E.
    exists m. rewrite move_zero, Z.sub_0_r in Hp by lia. split; [exact Hp|]. destruct Hm as (_ & _ & [?|Hm]); [by left|right].
    replace (fh_position h + m) with ((fh_position h / 2048 + 1) * 2048) by lia. by rewrite Z.mod_mul.
Qed.

Lemma whole_progress k x : progress h buf0 s0 n k x -> (k = n \/ (fh_position h + k) mod 2048 = 0) ->
  exists k', progress h buf0 s0 n k' (read_whole x) /\ (k' = n \/ (fh_position h + k') mod 2048 = 0 /\ n - k' < 2048).
Proof.
  intros [Hk E1 E2 E3 E4 Hio Hs] Hal. destruct x as [h1 b s size rpos]. cbn in *. subst. pose proof Hh as [HL HP HS HE].
  pose proof (Z.div_mod (n - k) 2048 ltac:(lia)) as Dn. pose proof (Z.mod_pos_bound (n - k) 2048 ltac:(lia)) as Bn.
  destruct (position_at k Hk) as [-> ->]. pose proof (sector_at k ltac:(lia) ltac:(lia)) as [D B].
  assert (0 <= (fh_position h + k) / 2048) by (apply Z.div_pos; lia).
  destruct (Z.ltb_spec 0 ((n - k) / 2048)) as [Hq|Hq].
  - cbv zeta. set (q := (n - k) / 2048) in *. assert (Hql : q <= limit) by (etrans; [|exact Hlim]; apply Z.div_le_mono; lia).
    destruct Hal as [?|Hal]; [lia|]. rewrite u32_id by lia.
    destruct (Hdrive (cd (fs s)) (fh_lsn h + (fh_position h + k) / 2048) q (proj1 Hio)) as (w' & -> & Hw'); [lia|lia|lia|].
    exists (k + q * 2048). split.
    + apply progress_more; try done; try lia; [|by split; [|apply Hio]]. unfold file_bytes at 3. do 2 f_equal. lia.
    + destruct (Z.eq_dec (k + q * 2048) n); [by left|right]. rewrite Z.add_assoc, Z.mod_add by lia. lia.
  - exists k. split; [by split|]. destruct Hal; [by left|right]. lia.
Qed.

Lemma tail_progress k x : progress h buf0 s0 n k x -> (k = n \/ (fh_position h + k) mod 2048 = 0 /\ n - k < 2048) -> progress h buf0 s0 n n (read_tail x).
Proof.
  intros Hp Hal. pose proof Hp as [Hk E1 E2 E3 E4 Hio Hs]. destruct x as [h1 b s size rpos]. cbn in *. subst.
  destruct (Z.ltb_spec 0 (n - k)) as [Hr|Hr]; [|by replace k with n in * by lia].
  destruct Hal as [?|[Hal Hlt]]; [lia|]. destruct (position_at k Hk) as [-> ->].
  destruct (part_progress k (n - k) s) as (b & s' & E & Hp'); try done; try lia. rewrite Hal in E. rewrite E.
  replace (k + (n - k)) with n in * by lia. by replace (n - k - (n - k)) with 0 in Hp' by lia.
Qed.
End Read.

(** C15. A read of an open file gives the next bytes of the file, as many as are asked for
    and left, at any position: through the driver's buffer up to the next sector and for
    the rest, directly for the whole sectors between. The position moves behind them. *)
Theorem cdrom_read_exact s i buf size :
  let h := handle s i in let n := size `min` (fh_filesize h - fh_position h) in
  io_ok s -> (i < length (cdvdman_fdhandles s))%nat -> handle_ok h -> 0 <= size < 2 ^ 31 -> n <= Z.of_nat (length buf) -> 1 <= limit -> n / 2048 <= limit ->
  exists s', cdrom_read s i buf size = (n, blit buf 0 (file_bytes h (fh_position h) n), s') /\
    handle s' i = move h n /\ (forall j, j <> i -> handle s' j = handle s j) /\ io_ok s'.
Proof.
  intros h n Hio Hi Hh Hsize Hbuf Hl1 Hlim. pose proof Hh as [HL HP HS HE]. unfold cdrom_read. fold h.
  assert (En : (if fh_filesize h <? u32 (fh_position h + size) then s32 (fh_filesize h - fh_position h) else size) = n).
  { rewrite u32_id by lia. destruct (Z.ltb_spec (fh_filesize h) (fh_position h + size)); [rewrite s32_id by lia|]; unfold n; lia. }
  rewrite En. clear En. assert (Hn : 0 <= n <= fh_filesize h - fh_position h) by (unfold n; lia). clearbody n.
  destruct (Z.ltb_spec 0 n) as [Hn0|]. 2:{ replace n with 0 by lia. exists s. rewrite move_zero by lia. done. }
  destruct (head_progress h buf s n Hh Hn Hbuf Hl1 s Hio eq_refl Hn0) as (k1 & P1 & A1).
  destruct (whole_progress h buf s n Hh Hn Hbuf Hlim k1 _ P1 A1) as (k2 & P2 & A2).
  apply (tail_progress h buf s n Hh Hn Hbuf Hl1 k2) in P2; [|done]. set (x := read_tail _) in *. destruct P2 as [_ E1 E2 _ E4 Hio' Hs].
  rewrite E1, E2, E4. exists (put_handle (r_s x) i (move h n)). split_and!; [done|by rewrite handle_put, decide_True by congruence| |exact Hio'].
  intros j Hj. rewrite handle_put, decide_False by congruence. unfold handle. congruence.
Qed.
End Reads.

(** ** The table of open files *)

Section Table.
Context {W : Type} `{!CdDrive W} (cfg : fs_settings).

Inductive call :=
  | Open (f : nat) (unit : Z) (name : bytes)
  | Close (i : nat)
  | Read (i : nat) (buf : bytes) (size : Z)
  | Lseek (i : nat) (offset : Z) (w : whence).

Definition exec (s : ioops (W := W)) (c : call) : option (ioops (W := W)) :=
  match c with
  | Open f unit name => snd <$> cdrom_open cfg s f unit name
  | Close i => Some (cdrom_close s i)
  | Read i buf size => Some (snd (cdrom_read s i buf size))
  | Lseek i offset w => Some (snd (cdrom_lseek s i offset w))
  end.

Definition call_step (s s' : ioops (W := W)) : Prop := exists c, exec s c = Some s'.
Definition fresh_table (s : ioops (W := W)) : Prop := cdvdman_fdhandles s = replicate MAX_FDHANDLES no_handle.

Definition in_file (h : FHANDLE) : Prop := 0 <= fh_position h <= fh_filesize h /\ fh_filesize h < 2 ^ 32.

Lemma put_handle_in_file (s : ioops (W := W)) i h : Forall in_file (cdvdman_fdhandles s) -> in_file h -> Forall in_file (cdvdman_fdhandles (put_handle s i h)).
Proof. intros Hs Hh. cbn. apply Forall_insert; done. Qed.

Lemma handle_in_file (s : ioops (W := W)) i : Forall in_file (cdvdman_fdhandles s) -> in_file (handle s i).
Proof.
  intros Hs. unfold handle. destruct (nth_lookup_or_length (cdvdman_fdhandles s) i no_handle) as [E|E].
  - by eapply Forall_lookup_1.
  - rewrite nth_overflow by done. by split.
Qed.

Lemma scan_sector_size fuel : forall buf pos want last e, scan_sector fuel buf pos want last = Some (Some e) -> 0 <= fileSize e < 2 ^ 32.
Proof.
  induction fuel as [|f IH]; intros buf pos want last e E; cbn [scan_sector] in E; [done|]. cbv zeta in E.
  destruct (_ =? 0); [done|]. destruct (_ =? 0); [done|]. destruct (taken _ _ _); [injection E as <-; apply u32_range|].
  destruct (_ <? 0); [done|]. destruct (_ <? 2016); [by eapply IH|done].
Qed.

Lemma search_sectors_size k : forall (w : W) lba want last e w', search_sectors k w lba want last = Some (Some e, w') -> 0 <= fileSize e < 2 ^ 32.
Proof.
  induction k as [|k IH]; intros w lba want last e w' E; cbn [search_sectors] in E; [done|]. destruct (sync_flag w); [done|]. destruct (sceCdRead w lba 1) as [buf w1].
  destruct (scan_sector 2017 buf 0 want last) as [[e1|]|] eqn:S; cbn [mbind option_bind] in E; [|by eapply IH|done].
  injection E as <- _. by eapply scan_sector_size.
Qed.

Lemma locatefile_size fuel : forall (w : W) name lba len layer e w', cdvdman_locatefile cfg fuel w name lba len layer = Some (Some e, w') -> 0 <= fileSize e < 2 ^ 32.
Proof.
  induction fuel as [|f IH]; intros w name lba len layer e w' E; cbn [cdvdman_locatefile] in E; [done|]. cbv zeta in E.
  destruct (search_sectors _ _ _ _ _) as [[r w1]|] eqn:S; cbn [mbind option_bind] in E; [|done].
  destruct r as [e1|]; [|done]. destruct (name_end _); [by eapply IH|]. injection E as <- _. by eapply search_sectors_size.
Qed.

Lemma findfile_size (s s' : cdfs (W := W)) name layer c : cdvdman_findfile cfg s name layer = Some (Some c, s') -> 0 <= cdl_size c < 2 ^ 32.
Proof.
  unfold cdvdman_findfile. cbv zeta. destruct (_ =? 0); [done|]. destruct (cdvdman_locatefile _ _ _ _ _ _ _) as [[[e|] w]|] eqn:L; cbn [mbind option_bind]; try done.
  destruct (skip_videos cfg && (_ <? 6)%nat); [done|]. destruct (strrchr name cBSLASH); cbn [mbind option_bind]; [|done]. intros [= <- _]. cbn.
  destruct (skip_videos cfg && _); [lia|by eapply locatefile_size].
Qed.

Lemma read_part_table (s : ioops (W := W)) lsn off n buf at_ : cdvdman_fdhandles (snd (read_part s lsn off n buf at_)) = cdvdman_fdhandles s.
Proof. unfold read_part. by destruct (sceCdRead _ _ _). Qed.

(** a read under way has moved the position by [k], whatever the drive does *)
Definition moved (h : FHANDLE) (n : Z) (tbl : list FHANDLE) (k : Z) (x : reading (W := W)) : Prop :=
  0 <= k <= n /\ r_h x = move h k /\ r_size x = n - k /\ cdvdman_fdhandles (r_s x) = tbl.

Lemma moved_more h n tbl k m b (s : ioops (W := W)) p : 0 <= k -> 0 <= m -> k + m <= n -> cdvdman_fdhandles s = tbl ->
  moved h n tbl (k + m) (Reading (move (move h k) m) b s (n - k - m) p).
Proof. intros. unfold moved. cbn. rewrite move_move. split_and!; try done; lia. Qed.

Lemma read_head_moved h n tbl k x : moved h n tbl k x -> exists k', moved h n tbl k' (read_head x).
Proof.
  intros (Hk & E1 & E2 & E3). destruct x as [h1 b s size p]. cbn in *. subst h1 size. destruct (negb _); [|by exists k].
  set (o := fh_position (move h k) mod 2048). pose proof (Z.mod_pos_bound (fh_position (move h k)) 2048 ltac:(lia)) as B. fold o in B.
  set (m := if n - k <? 2048 - o then n - k else 2048 - o). assert (Hm : 0 <= m <= n - k) by (unfold m; destruct (Z.ltb_spec (n - k) (2048 - o)); lia).
  pose proof (read_part_table s (u32 (fh_lsn h + fh_position (move h k) / 2048)) o m b p) as T. destruct (read_part _ _ _ _ _ _) as [b1 s1].
  exists (k + m). apply moved_more; try lia. cbn in T. congruence.
Qed.

Lemma read_whole_moved h n tbl k x : moved h n tbl k x -> exists k', moved h n tbl k' (read_whole x).
Proof.
  intros (Hk & E1 & E2 & E3). destruct x as [h1 b s size p]. cbn in *. subst h1 size. destruct (Z.ltb_spec 0 ((n - k) / 2048)); [|by exists k].
  pose proof (Z.mul_div_le (n - k) 2048 ltac:(lia)). destruct (sceCdRead _ _ _) as [d w]. exists (k + (n - k) / 2048 * 2048). apply moved_more; [lia|lia|lia|exact E3].
Qed.

Lemma read_tail_moved h n tbl k x : moved h n tbl k x -> moved h n tbl n (read_tail x).
Proof.
  intros (Hk & E1 & E2 & E3). destruct x as [h1 b s size p]. cbn in *. subst h1 size. destruct (Z.ltb_spec 0 (n - k)); [|by replace k with n in * by lia].
  pose proof (read_part_table s (u32 (fh_lsn h + fh_position (move h k) / 2048)) 0 (n - k) b p) as T. destruct (read_part _ _ _ _ _ _) as [b1 s1].
  unfold moved. cbn. rewrite move_move. replace (k + (n - k)) with n by lia. split_and!; try lia; [done|]. cbn in T. congruence.
Qed.

Lemma read_moves (s : ioops (W := W)) h buf n : 0 < n -> 0 <= fh_position h < 2 ^ 32 ->
  let x := read_tail (read_whole (read_head (Reading h buf s n 0))) in r_h x = move h n /\ cdvdman_fdhandles (r_s x) = cdvdman_fdhandles s.
Proof.
  intros Hn Hp. cbv zeta. assert (M0 : moved h n (cdvdman_fdhandles s) 0 (Reading h buf s n 0)).
  { unfold moved. cbn. rewrite move_zero by lia. split_and!; try done; lia. }
  destruct (read_head_moved _ _ _ _ _ M0) as [k1 M1]. destruct (read_whole_moved _ _ _ _ _ M1) as [k2 M2].
  destruct (read_tail_moved _ _ _ _ _ M2) as (_ & E1 & _ & E3). done.
Qed.

Lemma s32_positive x : 0 <= x < 2 ^ 32 -> 0 < s32 x -> s32 x = x.
Proof.
  intros Hx Hs. destruct (Z.lt_ge_cases x (2 ^ 31)); [by apply s32_id; lia|]. exfalso. revert Hs. unfold s32.
  replace (x + 2 ^ 31) with (x - 2 ^ 31 + 1 * 2 ^ 32) by lia. rewrite Z.mod_add, Z.mod_small by lia. lia.
Qed.

Lemma exec_in_file (s s' : ioops (W := W)) c : length (cdvdman_fdhandles s) = MAX_FDHANDLES -> Forall in_file (cdvdman_fdhandles s) -> exec s c = Some s' ->
  length (cdvdman_fdhandles s') = MAX_FDHANDLES /\ Forall in_file (cdvdman_fdhandles s').
Proof.
  assert (Hput : forall (t : ioops (W := W)) i h, length (cdvdman_fdhandles t) = MAX_FDHANDLES -> Forall in_file (cdvdman_fdhandles t) -> in_file h ->
    length (cdvdman_fdhandles (put_handle t i h)) = MAX_FDHANDLES /\ Forall in_file (cdvdman_fdhandles (put_handle t i h))).
  { intros t i h Hl Hs Hh. split; [cbn; by rewrite length_insert|by apply put_handle_in_file]. }
  intros Hl Hs E. destruct c as [f unit name|i|i buf size|i offset w]; cbn [exec] in E.
  - unfold cdrom_open, cdvdman_open in E. destruct (128 <=? _)%nat; [done|]. destruct (unit <? 2); [|by injection E as <-].
    destruct (cdvdman_getfilefreeslot s) as [i|]; [|by injection E as <-].
    destruct (cdvdman_findfile cfg (fs s) _ unit) as [[[c|] x]|] eqn:F; cbn [mbind option_bind fmap option_fmap option_map snd] in E; [|by injection E as <-|done].
    injection E as <-. apply findfile_size in F. apply Hput; [done|done|]. unfold in_file. cbn. lia.
  - injection E as <-. apply Hput; [done|done|]. by split.
  - injection E as <-. pose proof (handle_in_file s i Hs) as [Hp Hf]. unfold cdrom_read. set (h := handle s i) in *. cbv zeta.
    destruct (Z.ltb_spec (fh_filesize h) (u32 (fh_position h + size))) as [Hover|Hin].
    + destruct (Z.ltb_spec 0 (s32 (fh_filesize h - fh_position h))) as [Hn|]; [|done]. set (n := s32 _) in *.
      destruct (read_moves s h buf n Hn ltac:(lia)) as [E1 E2]. cbn [snd]. apply Hput; rewrite ?E2; try done. rewrite E1.
      assert (En : n = fh_filesize h - fh_position h) by (apply s32_positive; [lia|exact Hn]). unfold in_file, move. cbn. rewrite u32_id; lia.
    + destruct (Z.ltb_spec 0 size) as [Hn|]; [|done]. destruct (read_moves s h buf size Hn ltac:(lia)) as [E1 E2]. cbn [snd]. apply Hput; rewrite ?E2; try done.
      rewrite E1. unfold in_file, move. cbn. pose proof (u32_range (fh_position h + size)). lia.
  - injection E as <-. pose proof (handle_in_file s i Hs) as [Hp Hf]. unfold cdrom_lseek. cbn [snd]. apply Hput; [done|done|]. unfold in_file. cbn.
    set (p := match w with SEEK_SET => _ | _ => _ end). assert (0 <= p) by (unfold p; destruct w; try apply u32_range; lia).
    destruct (Z.ltb_spec (fh_filesize (handle s i)) p); lia.
Qed.

(** C16. Whatever files are opened, closed, read and moved in, in any order, with any offsets
    and sizes: the table keeps its 64 handles and every position stays in its file. *)
Theorem positions_stay_in_file s : reachable fresh_table call_step s ->
  length (cdvdman_fdhandles s) = MAX_FDHANDLES /\ Forall in_file (cdvdman_fdhandles s).
Proof.
  intros H. apply (invariant_reachable fresh_table call_step (fun s => length (cdvdman_fdhandles s) = MAX_FDHANDLES /\ Forall in_file (cdvdman_fdhandles s))); [| |exact H].
  - intros t E. unfold fresh_table in E. rewrite E. split; [apply length_replicate|]. apply Forall_replicate. by split.
  - intros t t' [Hl Hs] [c E]. by eapply exec_in_file.
Qed.

(** Opening a file takes a handle that no open file uses, at the start of the file,
    and leaves the others alone; it fails without changing the table when the file is not
    there, and for want of a handle exactly when all are in use. *)
Theorem open_takes_free_handle (s s' : ioops (W := W)) f unit name r slot : cdvdman_open cfg s f unit name = Some (r, slot, s') ->
  match slot with
  | Some i => r = 0 /\ fh_f (handle s i) = None /\ (i < length (cdvdman_fdhandles s))%nat /\
      fh_f (handle s' i) = Some f /\ fh_position (handle s' i) = 0 /\ forall j, j <> i -> handle s' j = handle s j
  | None => cdvdman_fdhandles s' = cdvdman_fdhandles s /\ (r = - EMFILE <-> unit < 2 /\ Forall (fun h => fh_f h <> None) (cdvdman_fdhandles s)) /\ r < 0
  end.
Proof.
  unfold cdvdman_open, EMFILE, ENOENT. intros E. destruct (Z.ltb_spec unit 2) as [Hu|Hu].
  2:{ injection E as <- <- <-. split_and!; [done| |lia]. split; [done|lia]. }
  destruct (cdvdman_getfilefreeslot s) as [i|] eqn:G; unfold cdvdman_getfilefreeslot in G.
  - apply find_index_Some in G as ((h & Hi & Hfree) & _). pose proof (lookup_lt_Some _ _ _ Hi) as Hlt.
    destruct (cdvdman_findfile cfg (fs s) name unit) as [[[c|] x]|]; cbn [mbind option_bind] in E; [| |done]; injection E as <- <- <-.
    + assert (Eh : handle s i = h) by (unfold handle; by apply nth_lookup_Some). rewrite Eh. split_and!; try done; [by destruct (fh_f h)|..].
      * rewrite handle_put, decide_True by done. done.
      * rewrite handle_put, decide_True by done. done.
      * intros j Hj. by rewrite handle_put, decide_False by done.
    + split_and!; [done| |lia]. split; [done|]. intros [_ Hall]. rewrite Forall_lookup in Hall. apply Hall in Hi. by destruct (fh_f h).
  - injection E as <- <- <-. apply find_index_None in G. split_and!; [done| |lia]. split; [|done]. intros _. split; [done|].
    eapply Forall_impl; [exact G|]. intros h Hh E. cbv beta in Hh. by rewrite E in Hh.
Qed.
End Table.

(** ** The search as a walk through a directory tree *)

(** the records of a sector from [pos] on *)
Inductive records (buf : bytes) : Z -> list dirTocEntry -> Prop :=
  | rec_end pos : toc_length (toc_at buf pos) = 0 -> records buf pos []
  | rec_cut pos : 2016 <= pos -> records buf pos []
  | rec_more pos es : 0 <= pos < 2016 -> 0 < toc_length (toc_at buf pos) -> filenameLength (toc_at buf pos) <> 0 ->
      records buf (pos + toc_length (toc_at buf pos)) es -> records buf pos (toc_at buf pos :: es).

Lemma scan_sector_find fuel : forall buf pos es want last, records buf pos es -> pos < 2016 -> 2016 - pos < Z.of_nat fuel ->
  scan_sector fuel buf pos want last = Some (find (taken want last) es).
Proof.
  induction fuel as [|f IH]; intros buf pos es want last H Hp Hf; [lia|]. cbn [scan_sector]. cbv zeta.
  destruct H as [pos E|pos E|pos es Hpos Hlen Hname H]; [by rewrite E|lia|].
  replace (toc_length _ =? 0) with false by lia. replace (filenameLength _ =? 0) with false by lia. cbn [find].
  destruct (taken want last (toc_at buf pos)); [done|]. replace (toc_length _ <? 0) with false by lia.
  destruct (Z.ltb_spec (pos + toc_length (toc_at buf pos)) 2016); [apply IH; [done|lia|lia]|].
  inversion H; subst; [done|done|lia].
Qed.

Lemma find_app {A} (p : A -> bool) l1 l2 : find p (l1 ++ l2) = match find p l1 with Some x => Some x | None => find p l2 end.
Proof. induction l1 as [|x l1 IH]; [done|]. cbn. by destruct (p x). Qed.

Section Tree.
Context {W : Type} `{!CdDrive W} (cfg : fs_settings) (layer : Z) (sec : Z -> bytes) (inv : W -> Prop) (lo total limit : Z).
Context (Hdrive : drive_ok sec inv lo total limit) (Hfree : forall w, inv w -> sync_flag w = false) (Hlo : 0 <= lo) (Hlim : 1 <= limit) (Htotal : total < 2 ^ 32).

(** a directory of the disc: [len] bytes of sectors from [lba] that hold the records [es] *)
Definition dir_on (lba len : Z) (es : list dirTocEntry) : Prop :=
  exists ess, es = concat ess /\ Z.of_nat (length ess) = Z.max 0 ((len + 2047) / 2048) /\ lo <= lba /\ lba + Z.of_nat (length ess) <= total /\
    forall i, (i < length ess)%nat -> records (disc_bytes sec ((lba + Z.of_nat i) * 2048) 2048) 0 (nth i ess []).

Lemma search_sectors_find ess : forall w lba want last, inv w -> lo <= lba -> lba + Z.of_nat (length ess) <= total ->
  (forall i, (i < length ess)%nat -> records (disc_bytes sec ((lba + Z.of_nat i) * 2048) 2048) 0 (nth i ess [])) ->
  exists w', search_sectors (length ess) w lba want last = Some (find (taken want last) (concat ess), w') /\ inv w'.
Proof.
  induction ess as [|es ess IH]; intros w lba want last Hw Hl Ht H; cbn [search_sectors length concat].
  { exists w. done. }
  cbn [length] in Ht. rewrite (Hfree w Hw). destruct (Hdrive w lba 1 Hw) as (w1 & -> & Hw1); [lia|lia|lia|].
  rewrite find_app. pose proof (H O ltac:(cbn; lia)) as H0. rewrite Z.add_0_r in H0. cbn [nth] in H0. change (1 * 2048) with 2048.
  rewrite (scan_sector_find 2017 _ 0 es) by (done || lia). cbn [mbind option_bind].
  destruct (find (taken want last) es) as [e|]; [by exists w1|]. rewrite u32_id by lia. apply IH; [done|lia|lia|].
  intros i Hi. specialize (H (S i) ltac:(cbn; lia)). cbn [nth] in H. by replace (lba + 1 + Z.of_nat i) with (lba + Z.of_nat (S i)) by lia.
Qed.

(** where the search looks for the directory of a record *)
Definition dir_lba (e : dirTocEntry) : Z :=
  if negb (emu_dvddl cfg) && negb (layer =? 0) then u32 (fileLBA e + snd (sceCdReadDvdDualInfo cfg)) else fileLBA e.

(** the directories of the disc: for the sector of each its length and records; the
    directories that they name are there too *)
Definition tree_on (dir : Z -> option (Z * list dirTocEntry)) : Prop := forall lba len es, dir lba = Some (len, es) ->
  dir_on lba len es /\ forall e, In e es -> is_dir e = true -> exists es', dir (dir_lba e) = Some (s32 (fileSize e), es').

(** the walk: each name of the path is looked up among the records of one directory *)
Fixpoint walk (dir : Z -> option (Z * list dirTocEntry)) (names : list bytes) (lba : Z) : option dirTocEntry :=
  match names with
  | [] => None
  | name :: rest =>
    '(_, es) ← dir lba;
    match rest with
    | [] => find (taken (take 31 name) true) es
    | _ => e ← find (taken (take 31 name) false) es; walk dir rest (dir_lba e)
    end
  end.

Definition plain_name (n : bytes) : Prop := n <> [] /\ Forall (fun c => c <> cSLASH /\ c <> cBSLASH) n.
Definition path_of (names : list bytes) : bytes := concat (map (cons cBSLASH) names).

Lemma no_slash_path names : Forall plain_name names -> ~ cSLASH ∈ path_of names.
Proof.
  induction 1 as [|n ns [Hn Hc] H IH]; cbn; [by apply not_elem_of_nil|]. rewrite elem_of_cons, elem_of_app. intros [E|[E|E]]; [done| |by apply IH].
  rewrite Forall_forall in Hc. by apply Hc in E as [? _].
Qed.

(** a name at the front of the rest of the path *)
Lemma name_end_path n rest : plain_name n -> Forall plain_name rest ->
  name_end (n ++ path_of rest) = match rest with [] => None | _ => Some (length n) end.
Proof.
  intros [Hn Hc] Hrest. rewrite Forall_forall in Hc. unfold name_end.
  assert (E1 : strchr (n ++ path_of rest) cSLASH = None).
  { apply strchr_None. rewrite elem_of_app. intros [E|E]; [by apply Hc in E as [? _]|by apply no_slash_path in E]. }
  rewrite E1. destruct rest as [|m rest].
  - cbn. rewrite app_nil_r. apply strchr_None. intros E. by apply Hc in E as [_ ?].
  - cbn [path_of map concat app]. apply strchr_app. intros E. by apply Hc in E as [_ ?].
Qed.

Lemma skip_slashes pre n rest : (forall c, c ∈ pre -> c = cBSLASH) -> plain_name n -> Forall plain_name rest ->
  dropwhile cBSLASHES (dropwhile cSLASHES (pre ++ n ++ path_of rest)) = n ++ path_of rest.
Proof.
  intros Hpre [Hn Hc] Hrest. rewrite Forall_forall in Hc. destruct n as [|c n]; [done|]. destruct (Hc c) as [Hc1 Hc2]; [by left|].
  assert (E1 : dropwhile cSLASHES (pre ++ (c :: n) ++ path_of rest) = pre ++ (c :: n) ++ path_of rest).
  { apply dropwhile_id. destruct pre as [|x pre]; cbn; unfold cSLASHES; [lia|]. rewrite (Hpre x) by (by left). done. }
  rewrite E1. clear E1. induction pre as [|x pre IH]; [cbn; unfold cBSLASHES; by replace (c =? cBSLASH) with false by lia|].
  cbn [app dropwhile]. rewrite (Hpre x) by (by left). unfold cBSLASHES at 1. cbn [Z.eqb Pos.eqb]. apply IH. intros y Hy. apply Hpre. by right.
Qed.

Lemma locate_walks dir (Htree : tree_on dir) fuel : forall pre n rest w lba len es, (forall c, c ∈ pre -> c = cBSLASH) ->
  plain_name n -> Forall plain_name rest -> (length rest < fuel)%nat -> inv w -> dir lba = Some (len, es) ->
  exists w', cdvdman_locatefile cfg fuel w (pre ++ n ++ path_of rest) lba len layer = Some (walk dir (n :: rest) lba, w') /\ inv w'.
Proof.
  induction fuel as [|f IH]; intros pre n rest w lba len es Hpre Hn Hrest Hf Hw Hdir; [lia|]. cbn [cdvdman_locatefile]. cbv zeta.
  rewrite skip_slashes, name_end_path by done. destruct (Htree _ _ _ Hdir) as [(ess & Ees & Hess & Hl & Ht & Hrec) Hsub].
  assert (Ek : Z.to_nat ((len + 2047) / 2048) = length ess) by lia. rewrite Ek. cbn [walk]. rewrite Hdir. cbn [mbind option_bind].
  destruct rest as [|m rest].
  - cbn [path_of map concat]. rewrite app_nil_r. destruct (search_sectors_find ess w lba (take 31 n) true Hw Hl Ht Hrec) as (w1 & -> & Hw1).
    cbn [mbind option_bind]. rewrite Ees. exists w1. split; [|done]. by destruct (find _ _).
  - rewrite take_app_length. destruct (search_sectors_find ess w lba (take 31 n) false Hw Hl Ht Hrec) as (w1 & -> & Hw1).
    cbn [mbind option_bind]. rewrite <- Ees. destruct (find (taken (take 31 n) false) es) as [e|] eqn:F; [|by exists w1].
    apply find_some in F as [Fin Ftk]. unfold taken in Ftk. cbn [orb] in Ftk. apply andb_prop in Ftk as [_ Hd].
    destruct (Hsub e Fin Hd) as [es' Hdir']. cbn [option_bind]. cbn [path_of map concat app]. inversion Hrest; subst.
    assert (Ed : drop (S (length n)) (n ++ cBSLASH :: m ++ concat (map (cons cBSLASH) rest)) = [] ++ m ++ path_of rest).
    { cbn. rewrite drop_app_ge by lia. by replace (S (length n) - length n)%nat with 1%nat by lia. }
    rewrite Ed. apply (IH [] m rest w1 (dir_lba e) _ es'); try done; [by intros c Hc%elem_of_nil|cbn in Hf; lia].
Qed.
End Tree.

Lemma strrchr_last (a b : bytes) c : ~ c ∈ b -> strrchr (a ++ c :: b) c = Some (length a).
Proof.
  intros Hb. unfold strrchr. rewrite rev_app_distr. cbn [rev]. rewrite <- app_assoc. cbn [app].
  rewrite find_index_app; [|apply Forall_forall; intros x Hx; apply Z.eqb_neq; intros ->; apply Hb; apply list_elem_of_In, in_rev; by apply list_elem_of_In|apply Z.eqb_refl].
  cbn. rewrite length_rev, length_app. cbn. f_equal. lia.
Qed.

Lemma path_of_snoc names n : path_of (names ++ [n]) = path_of names ++ cBSLASH :: n.
Proof. unfold path_of. rewrite map_app, concat_app. cbn. by rewrite app_nil_r. Qed.

Lemma names_of_path names : Forall plain_name names -> (length names <= length (path_of names))%nat.
Proof. induction 1 as [|n ns Hn H IH]; cbn; [lia|]. rewrite length_app. unfold path_of in IH. lia. Qed.

(** the layer that a search uses *)
Definition layer_of (cfg : fs_settings) (layer : Z) : Z := if emu_dvddl cfg then 0 else layer.

(** what the search reports of a record *)
Definition found_file (cfg : fs_settings) (layer : Z) (name : bytes) (e : dirTocEntry) : sceCdlFILE :=
  copy_name (if negb (layer =? 0) then u32 (fileLBA e + snd (sceCdReadDvdDualInfo cfg)) else fileLBA e) (fileSize e) name.

(** C14. On a disc with a tree of directories, looking for a path finds what a walk
    through the tree finds: each name is matched by its first 12 characters, the first
    record in the order of the disc wins, and only directories are entered. The search
    ends, and asks for no sector that is not part of a directory. *)
Theorem search_walks_tree {W} `{!CdDrive W} (cfg : fs_settings) (sec : Z -> bytes) (inv : W -> Prop) (lo total limit : Z)
    (dir : Z -> option (Z * list dirTocEntry)) (names : list bytes) (last : bytes) (s : cdfs (W := W)) (unit : Z) (es : list dirTocEntry) :
  let layer := layer_of cfg unit in
  let l := if negb (layer =? 0) then 1 else 0 in
  let path := path_of (names ++ [last]) in
  drive_ok sec inv lo total limit -> (forall w, inv w -> sync_flag w = false) -> 0 <= lo -> 1 <= limit -> total < 2 ^ 32 -> tree_on cfg layer sec lo total dir ->
  Forall plain_name (names ++ [last]) -> (length path <= 255)%nat -> cdvdman_trimspaces path = path -> skip_videos cfg = false ->
  rootDirtocLBA s l <> 0 -> dir (rootDirtocLBA s l) = Some (s32 (rootDirtocLength s l), es) -> inv (cd s) ->
  exists s', cdvdman_findfile cfg s path unit = Some (found_file cfg layer last <$> walk cfg layer dir (names ++ [last]) (rootDirtocLBA s l), s') /\ inv (cd s').
Proof.
  intros layer l path Hdrive Hfree Hlo Hlim Htot Htree Hnames Hlen Htrim Hskip Hroot Hdir Hinv. unfold cdvdman_findfile. fold (layer_of cfg unit). fold layer. fold l. cbv zeta.
  rewrite take_ge by done. rewrite Htrim. replace (rootDirtocLBA s l =? 0) with false by lia.
  pose proof (names_of_path _ Hnames) as Hn. change (path_of (names ++ [last])) with path in Hn. destruct (names ++ [last]) as [|n rest] eqn:E; [by destruct names|].
  inversion Hnames as [|? ? Hn1 Hrest]; subst.
  destruct (locate_walks cfg layer sec inv lo total limit Hdrive Hfree Hlo Hlim Htot dir Htree (S (length path)) [cBSLASH] n rest (cd s) (rootDirtocLBA s l)
    (s32 (rootDirtocLength s l)) es) as (w & Ew & Hw); try done; [by intros c ->%list_elem_of_singleton|cbn [length] in Hn; lia|].
  change ([cBSLASH] ++ n ++ path_of rest) with path in Ew. rewrite Ew. cbn [mbind option_bind].
  exists (put_cd s w). split; [|exact Hw]. destruct (walk cfg layer dir (n :: rest) _) as [e|]; [|done]. rewrite Hskip. cbn [andb fmap option_fmap option_map].
  unfold path. rewrite <- E, path_of_snoc. rewrite strrchr_last.
  - cbn [mbind option_bind]. unfold found_file. assert (Ed : forall p : bytes, drop (S (length p)) (p ++ cBSLASH :: last) = last) by (intros p; induction p; [done|]; cbn; done). by rewrite Ed.
  - intros Hc. rewrite <- E in Hnames. apply Forall_app in Hnames as [_ H]. apply Forall_cons in H as [[_ H] _]. rewrite Forall_forall in H. by apply H in Hc as [_ ?].
Qed.

(** ** The entries of a directory *)

Section Listing.
Context {W : Type} `{!CdDrive W} (sec : Z -> bytes) (inv : W -> Prop) (lo total limit : Z).
Context (Hdrive : drive_ok sec inv lo total limit) (Hfree : forall w, inv w -> sync_flag w = false) (Hlim : 1 <= limit) (Htotal : total < 2 ^ 32).

(** the records of a sector from [pos] on, up to one of length 0 *)
Inductive listed (buf : bytes) : Z -> list dirTocEntry -> Prop :=
  | listed_end pos : toc_length (toc_at buf pos) = 0 -> 0 <= pos -> pos + 33 + filenameLength (toc_at buf pos) <= Z.of_nat (length buf) -> listed buf pos []
  | listed_more pos es : 0 < toc_length (toc_at buf pos) -> 0 <= pos -> pos + 33 + filenameLength (toc_at buf pos) <= Z.of_nat (length buf) ->
      listed buf (pos + toc_length (toc_at buf pos)) es -> listed buf pos (toc_at buf pos :: es).

Lemma toc_at_more (d rest : bytes) pos : 0 <= pos -> pos + 33 <= Z.of_nat (length d) ->
  toc_at (d ++ rest) pos = let e := toc_at d pos in Toc (toc_length e) (fileLBA e) (fileSize e) (fileProperties e) (filenameLength e) (filename e ++ rest).
Proof.
  intros Hp Hl. unfold toc_at. cbv zeta. rewrite drop_app_le by lia. cbn [toc_length fileLBA fileSize fileProperties filenameLength filename].
  assert (Hb : (33 <= length (drop (Z.to_nat pos) d))%nat) by (rewrite length_drop; lia). revert Hb. generalize (drop (Z.to_nat pos) d) as b. intros b Hb.
  rewrite !drop_app_le, !take_app_le, !app_nth1 by (rewrite ?length_drop; lia). done.
Qed.

Lemma dirent_more (d rest : bytes) pos : 0 <= pos -> 0 <= filenameLength (toc_at d pos) -> pos + 33 + filenameLength (toc_at d pos) <= Z.of_nat (length d) ->
  dirent_of (toc_at (d ++ rest) pos) = dirent_of (toc_at d pos).
Proof.
  intros Hp Hn Hl. rewrite toc_at_more by lia. unfold dirent_of, is_dir. cbn [fileProperties fileSize filenameLength filename]. do 2 f_equal.
  apply take_app_le. unfold toc_at at 2. cbn [filename]. rewrite !length_drop. lia.
Qed.

Definition named (e : dirTocEntry) : bool := negb (filenameLength e =? 1).

Lemma next_record_listed (d rest : bytes) fuel : (forall pos, 0 <= filenameLength (toc_at d pos)) -> Z.of_nat (length d) < 2 ^ 31 -> forall pos es, listed d pos es ->
  Z.of_nat (length d) - pos < Z.of_nat fuel ->
  exists r e pos', next_record fuel (d ++ rest) pos = Some (r, e, pos') /\
    match List.filter named es with
    | [] => r = 0
    | e1 :: es1 => r = 1 /\ dirent_of e = dirent_of e1 /\ exists es2, listed d pos' es2 /\ es1 = List.filter named es2
    end.
Proof.
  intros Hn Hd. induction fuel as [|f IH]; intros pos es H Hf.
  { destruct H as [pos _ ? ?|pos ? _ ? ? _]; specialize (Hn pos); lia. }
  cbn [next_record]. cbv zeta. pose proof (Hn pos) as Hnp.
  assert (Hp : 0 <= pos /\ pos + 33 + filenameLength (toc_at d pos) <= Z.of_nat (length d)) by (destruct H; split; assumption). destruct Hp as [Hp Hin].
  rewrite !toc_at_more by lia. cbn [toc_length filenameLength]. destruct (Z.ltb_spec (Z.of_nat (length (d ++ rest))) (pos + 33 + filenameLength (toc_at d pos))) as [Hc|_];
    [rewrite length_app in Hc; lia|].
  destruct H as [pos E _ _|pos es Hlen _ _ H].
  { rewrite E. cbn. do 3 eexists. split; [reflexivity|done]. }
  replace (toc_length _ =? 0) with false by lia. cbn [List.filter]. unfold named at 1.
  assert (Hu : u32 (pos + toc_length (toc_at d pos)) = pos + toc_length (toc_at d pos)).
  { apply u32_id. destruct H as [p _ ? ?|p ? _ ? ? _]; specialize (Hn p); lia. }
  rewrite Hu. destruct (filenameLength (toc_at d pos) =? 1) eqn:E1; cbn [negb].
  - apply IH; [done|lia].
  - do 3 eexists. split; [reflexivity|]. split; [done|]. split; [|by exists es].
    rewrite <- (dirent_more d rest pos) by (done || lia). by rewrite toc_at_more by lia.
Qed.

(** what a caller gets that asks for entries until there are none *)
Inductive entries (i : nat) : ioops (W := W) -> list iox_dirent -> Prop :=
  | entries_end s e s' : cdrom_dread s i = Some (0, Some e, s') -> entries i s []
  | entries_more s e s' l : cdrom_dread s i = Some (1, Some e, s') -> entries i s' l -> entries i s (e :: l).

Definition first_sector (s : ioops (W := W)) (i : nat) : bytes := disc_bytes sec (fh_lsn (handle s i) * 2048) 2048.

Definition dir_open (s : ioops (W := W)) (i : nat) : Prop :=
  io_ok inv s /\ (i < length (cdvdman_fdhandles s))%nat /\ 0 <= lo <= fh_lsn (handle s i) /\ fh_lsn (handle s i) + 1 <= total.

Lemma dread_step s i es : dir_open s i -> Forall (fun b => 0 <= b) (first_sector s i) -> listed (first_sector s i) (fh_position (handle s i)) es ->
  exists r e s', cdrom_dread s i = Some (r, Some e, s') /\ dir_open s' i /\ first_sector s' i = first_sector s i /\
    match List.filter named es with
    | [] => r = 0
    | e1 :: es1 => r = 1 /\ e = dirent_of e1 /\ exists es2, listed (first_sector s i) (fh_position (handle s' i)) es2 /\ es1 = List.filter named es2
    end.
Proof.
  intros ((Hw & Hb) & Hi & Hl & Ht) Hbytes H. destruct (Hdrive (cd (fs s)) (fh_lsn (handle s i)) 1 Hw) as (w' & E & Hw'); [lia..|].
  change (1 * 2048) with 2048 in E. fold (first_sector s i) in E. assert (Hd : length (first_sector s i) = 2048%nat) by apply disc_bytes_length.
  assert (Hp : 0 <= fh_position (handle s i)) by (destruct H; assumption).
  assert (Hn : forall pos, 0 <= filenameLength (toc_at (first_sector s i) pos)).
  { intros pos. cbn. rewrite nth_lookup, lookup_drop. destruct (first_sector s i !! _) as [b|] eqn:Eb; [|done].
    by eapply Forall_lookup_1 in Hbytes. }
  assert (Eb : blit (fs_buf s) 0 (first_sector s i) = first_sector s i ++ drop 2048 (fs_buf s)) by (unfold blit; rewrite take_0, app_nil_l, Hd; done).
  destruct (next_record_listed (first_sector s i) (drop 2048 (fs_buf s)) (S (length (fs_buf s))) Hn ltac:(lia) _ es H) as (r & e & pos' & Er & Hr); [lia|].
  unfold cdrom_dread. rewrite (Hfree _ Hw), E. cbn [fs_buf put_io]. rewrite blit_length, Eb, Er by lia. cbn [mbind option_bind].
  do 3 eexists. split; [reflexivity|].
  set (s' := put_handle _ i _). assert (Eh : handle s' i = Fh (fh_f (handle s i)) (fh_lsn (handle s i)) (fh_filesize (handle s i)) pos').
  { unfold s'. by rewrite handle_put, decide_True by done. }
  unfold dir_open, first_sector. rewrite Eh. cbn [fh_lsn fh_position]. fold (first_sector s i). split; [|split; [done|]].
  - split; [split; [exact Hw'|]|split; [|done]]; unfold s'; cbn; [|by rewrite length_insert].
    rewrite length_app, length_drop, Hd. lia.
  - destruct (List.filter named es); [done|]. destruct Hr as (-> & -> & Hr). done.
Qed.

(** The entries of an open directory are the records of its first sector in order,
    up to an empty one, without those whose name is one character long. *)
Theorem directory_entries s i es : dir_open s i -> Forall (fun b => 0 <= b) (first_sector s i) -> listed (first_sector s i) (fh_position (handle s i)) es ->
  entries i s (map dirent_of (List.filter named es)).
Proof.
  remember (List.filter named es) as shown eqn:Eshown. revert s es Eshown. induction shown as [|e1 shown IH]; intros s es Eshown Ho Hb H;
    destruct (dread_step s i es Ho Hb H) as (r & e & s' & E & Ho' & Ef & Hr); rewrite <- Eshown in Hr.
  - subst r. by eapply entries_end.
  - destruct Hr as (-> & -> & es2 & H2 & Es2). cbn [map]. eapply entries_more; [exact E|]. apply (IH s' es2); [done|done|by rewrite Ef|by rewrite Ef].
Qed.
End Listing.

(** ** The drive of CdRead *)

Section Drive.
Context {V : Type} `{!DiscDevice V} (LZ4_decompress_fast : bytes -> bytes) (rcfg : settings).

(** the read thread's call of [cdvdman_read] into an aligned buffer, with no other reader *)
Definition cdvdman_drive : CdDrive (cdvdman (W := V)) := {|
  sync_flag _ := false;
  sceCdRead m lsn n :=
    match cdvdman_read LZ4_decompress_fast rcfg 2 m [] (replicate (Z.to_nat (n * 2048)) 0) true lsn n 2048 with
    | Some (d, m) => (d, m)
    | None => ([], m)
    end;
  set_mediaLsnCount m v := Cdvdman (cd_st m) (cd_zso m) (probed m) (logo_key m) (cd_err m) v (ReadPos m);
|}.

Context (out : Z -> bytes) (limit total : Z) `{!SectorReader LZ4_decompress_fast out limit total}.

Definition drive_inv (m : cdvdman (W := V)) : Prop :=
  r_inv LZ4_decompress_fast (cd_zso m) (cd_st m) /\ probed m = true /\ (mediaLsnCount m = 0 \/ total <= mediaLsnCount m).

(** behind the logo, it is a drive that gives the sectors of the image *)
Lemma cdvdman_drive_ok : total < 2 ^ 32 -> drive_ok (CdDrive0 := cdvdman_drive) out drive_inv 13 total limit.
Proof.
  intros Ht m lsn n (Hi & Hp & Hm) Hl Hn Hle. cbn. unfold cdvdman_read. cbn [negb orb]. change (2048 =? 2048) with true. cbn [negb].
  destruct (read_sectors_ok LZ4_decompress_fast rcfg out limit total m lsn n (replicate (Z.to_nat (n * 2048)) 0)) as (m' & E & _ & (S1 & S2 & S3) & Hi');
      try done; try lia; [rewrite length_replicate; lia|].
    assert (Ek : media_cut (mediaLsnCount m) lsn n = n) by (unfold media_cut; destruct (mediaLsnCount m =? 0) eqn:?, (Z.ltb_spec (mediaLsnCount m) (lsn + n)); cbn; lia).
    rewrite Ek in E. rewrite E. cbn [mbind option_bind]. rewrite drop_ge, app_nil_r by (rewrite length_replicate; lia).
    eexists. split; [done|]. unfold drive_inv. cbn. rewrite S2, S3. split_and!; try done.
Qed.
End Drive.

(** ** Examples *)

(** a file on the disc of CdRead whose sector [l] holds the byte [l] *)
Definition byte_cd : CdDrive (cdvdman (W := cdrom)) := cdvdman_drive run_length (Settings true 0 false).
Definition byte_start : cdvdman (W := cdrom) := set_mediaLsnCount (CdDrive := byte_cd) (drive Cdrom) 0.
Lemma byte_cd_ok : drive_ok (CdDrive0 := byte_cd) byte_sec (drive_inv run_length byte_sec (2 ^ 31) (2 ^ 31) (SectorReader0 := byte_reader)) 13 (2 ^ 31) (2 ^ 31).
Proof. apply (cdvdman_drive_ok run_length (Settings true 0 false) byte_sec (2 ^ 31) (2 ^ 31) (SectorReader0 := byte_reader)). lia. Qed.
Lemma byte_start_ok : drive_inv run_length byte_sec (2 ^ 31) (2 ^ 31) (SectorReader0 := byte_reader) byte_start.
Proof. split; [done|]. split; [done|by left]. Qed.

Definition byte_file : FHANDLE := Fh (Some 3%nat) 20 5000 100.
Definition byte_io : ioops (W := cdvdman (W := cdrom)) := IoOps (CdFs byte_start (fun _ => 0) (fun _ => 0)) [no_handle; byte_file] (replicate 2048 0).

Lemma cdrom_read_exact_witness :
  exists s', cdrom_read (CdDrive0 := byte_cd) byte_io 1 (replicate 4600 9) 4500 = (4500, blit (replicate 4600 9) 0 (file_bytes byte_sec byte_file 100 4500), s') /\
    handle s' 1 = Fh (Some 3%nat) 20 5000 4600.
Proof.
  assert (Hl : 4500 <= Z.of_nat (length (replicate 4600 9))) by (rewrite length_replicate; lia).
  revert Hl. generalize (replicate 4600 9) as b. intros b Hl.
  assert (Hio : io_ok (drive_inv run_length byte_sec (2 ^ 31) (2 ^ 31) (SectorReader0 := byte_reader)) byte_io) by (split; [apply byte_start_ok|cbn [fs_buf byte_io]; rewrite length_replicate; done]).
  assert (Hh : handle_ok 13 (2 ^ 31) byte_file) by (split; cbn; lia).
  destruct (cdrom_read_exact (CdDrive0 := byte_cd) byte_sec (drive_inv run_length byte_sec (2 ^ 31) (2 ^ 31) (SectorReader0 := byte_reader)) 13 (2 ^ 31) (2 ^ 31) byte_cd_ok
    (Z.le_refl _) byte_io 1 b 4500 Hio) as (s' & E & Eh & _); [cbn; lia|exact Hh|lia|exact Hl|lia|vm_compute; congruence|].
  exists s'. split; [exact E|rewrite Eh; vm_compute; reflexivity].
Defined.

(** a disc with a directory "D" that holds a file "F.X;1" *)
Definition record (name : bytes) (lba size flags : Z) : bytes :=
  let n := Z.of_nat (length name) in
  [34 + n; 0] ++ le_bytes 4 lba ++ le_bytes 4 0 ++ le_bytes 4 size ++ le_bytes 4 0 ++ replicate 6 0 ++ [0; flags] ++ replicate 6 0 ++ [n] ++ name ++ [0].
Definition padded_sector (b : bytes) : bytes := b ++ replicate (2048 - length b) 0.
Definition root_sector : bytes := padded_sector (record (bs "D") 21 2048 2).
Definition d_sector : bytes := padded_sector (record (bs "E.X;1") 30 9 0 ++ record (bs "F.X;1") 22 5 0).
Definition tree_sec (l : Z) : bytes := if l =? 20 then root_sector else if l =? 21 then d_sector else replicate 2048 0.
Definition tree_dir (l : Z) : option (Z * list dirTocEntry) :=
  if l =? 20 then Some (2048, [toc_at root_sector 0]) else if l =? 21 then Some (2048, [toc_at d_sector 0; toc_at d_sector 39]) else None.

Inductive tree_cd := TreeCd.
#[export] Instance tree_drive : CdDrive tree_cd := {|
  sync_flag _ := false;
  sceCdRead _ lsn n := (disc_bytes tree_sec (lsn * 2048) (n * 2048), TreeCd);
  set_mediaLsnCount w _ := w;
|}.
Definition no_layers : fs_settings := FsSettings false false 0.

Lemma tree_drive_ok : drive_ok tree_sec (fun _ => True) 13 1000 32.
Proof. intros w lsn n _ _ _ _. by exists TreeCd. Qed.

Lemma tree_sector_bytes l : 0 <= l -> disc_bytes tree_sec (l * 2048) 2048 = tree_sec l.
Proof.
  intros H. apply disc_bytes_sector; [done|]. unfold tree_sec. destruct (l =? 20); [vm_compute; reflexivity|]. destruct (l =? 21); [vm_compute; reflexivity|apply length_replicate].
Qed.

Lemma tree_on_disc : tree_on no_layers 0 tree_sec 13 1000 tree_dir.
Proof.
  assert (H1 : forall l es, 13 <= l < 999 -> records (tree_sec l) 0 es -> dir_on tree_sec 13 1000 l 2048 es).
  { intros l es Hl Hr. exists [es]. split_and!; [by cbn; rewrite app_nil_r|vm_compute; reflexivity|lia|cbn; lia|].
    intros [|i] Hi; [|cbn in Hi; lia]. rewrite tree_sector_bytes by lia. by replace (l + Z.of_nat 0) with l by lia. }
  intros lba len es E. unfold tree_dir in E. destruct (Z.eqb_spec lba 20) as [->|]; [|destruct (Z.eqb_spec lba 21) as [->|]; [|done]]; injection E as <- <-; split.
  - apply H1; [lia|]. change (tree_sec 20) with root_sector.
    apply rec_more; [lia|vm_compute; reflexivity|vm_compute; congruence|]. apply rec_end. vm_compute. reflexivity.
  - intros e [<-|[]] _. exists [toc_at d_sector 0; toc_at d_sector 39]. vm_compute. reflexivity.
  - apply H1; [lia|]. change (tree_sec 21) with d_sector.
    apply rec_more; [lia|vm_compute; reflexivity|vm_compute; congruence|]. change (0 + toc_length (toc_at d_sector 0)) with 39.
    apply rec_more; [lia|vm_compute; reflexivity|vm_compute; congruence|]. apply rec_end. vm_compute. reflexivity.
  - intros e [<-|[<-|[]]] Hd; vm_compute in Hd; done.
Qed.

Definition tree_fs : cdfs (W := tree_cd) := CdFs TreeCd (fun _ => 20) (fun _ => 2048).

Lemma search_walks_tree_witness :
  exists s', cdvdman_findfile no_layers tree_fs (bs "\D\F.X;1") 0 = Some (Some (CdlFile 22 5 (bs "F.X;1") 0), s') /\ True.
Proof.
  assert (Ep : path_of ([bs "D"] ++ [bs "F.X;1"]) = bs "\D\F.X;1") by (vm_compute; reflexivity).
  assert (Ew : found_file no_layers 0 (bs "F.X;1") <$> walk no_layers 0 tree_dir ([bs "D"] ++ [bs "F.X;1"]) 20 = Some (CdlFile 22 5 (bs "F.X;1") 0)) by (vm_compute; reflexivity).
  rewrite <- Ew, <- Ep.
  refine (search_walks_tree no_layers tree_sec (fun _ => True) 13 1000 32 tree_dir [bs "D"] (bs "F.X;1") tree_fs 0 _ tree_drive_ok (fun _ _ => eq_refl) _ _ _ tree_on_disc _ _ _ eq_refl _ eq_refl I);
    try lia; [|vm_compute; lia|vm_compute; reflexivity|vm_compute; congruence].
  repeat constructor; vm_compute; congruence.
Defined.

(** two files opened, read up to and beyond their ends, moved in both ways, one closed *)
Fixpoint exec_all {W} `{!CdDrive W} (cfg : fs_settings) (cs : list call) (s : ioops (W := W)) : option (ioops (W := W)) :=
  match cs with [] => Some s | c :: cs => s' ← exec cfg s c; exec_all cfg cs s' end.
Lemma exec_all_reached {W} `{!CdDrive W} (cfg : fs_settings) cs : forall s s' : ioops (W := W),
  reachable fresh_table (call_step cfg) s -> exec_all cfg cs s = Some s' -> reachable fresh_table (call_step cfg) s'.
Proof.
  induction cs as [|c cs IH]; intros s s' Hs; cbn [exec_all]; [by intros [= <-]|]. destruct (exec cfg s c) as [s1|] eqn:E; [|done]. cbn [mbind option_bind].
  apply IH. apply (reach_step _ _ s); [exact Hs|by exists c].
Qed.

Definition no_io : ioops (W := tree_cd) := IoOps tree_fs (replicate MAX_FDHANDLES no_handle) (replicate 2048 0).
Definition sample_calls : list call :=
  [Open 8 0 (bs "\D\F.X"); Read 0 (replicate 8 7) 3; Open 9 0 (bs "\D\E.X;1"); Lseek 1 (-4) SEEK_END; Read 1 (replicate 8 7) 100;
   Read 0 (replicate 8 7) 3; Lseek 1 (-20) SEEK_CUR; Open 10 0 (bs "\D\F.X"); Lseek 2 4294967295 SEEK_SET; Lseek 1 2 SEEK_SET; Close 0].

Lemma positions_stay_in_file_witness : exists s, exec_all no_layers sample_calls no_io = Some s /\
  take 4 (map (fun h => (fh_f h, fh_filesize h, fh_position h)) (cdvdman_fdhandles s)) = [(None, 0, 0); (Some 9%nat, 9, 2); (Some 10%nat, 5, 5); (None, 0, 0)] /\
  length (cdvdman_fdhandles s) = MAX_FDHANDLES /\ Forall in_file (cdvdman_fdhandles s).
Proof.
  destruct (exec_all no_layers sample_calls no_io) as [s|] eqn:E; [|exfalso; revert E; vm_compute; discriminate].
  exists s. split; [done|]. split.
  - assert (Et : (fun s => take 4 (map (fun h => (fh_f h, fh_filesize h, fh_position h)) (cdvdman_fdhandles s))) <$> exec_all no_layers sample_calls no_io =
      Some [(None, 0, 0); (Some 9%nat, 9, 2); (Some 10%nat, 5, 5); (None, 0, 0)]) by (vm_compute; reflexivity).
    rewrite E in Et. cbn [fmap option_fmap option_map] in Et. by apply (inj Some) in Et.
  - apply (positions_stay_in_file no_layers s). apply (exec_all_reached no_layers sample_calls no_io); [by apply reach_init|exact E].
Defined.

(** a name of more than 15 characters is written over the date and the flag behind it, and
    then over what the caller has behind the structure *)
Inductive long_cd := LongCd.
Definition long_name : bytes := bs "A_LONG_LEVEL_TWO_NAME.BINARY;1".
#[export] Instance long_drive : CdDrive long_cd := {|
  sync_flag _ := false;
  sceCdRead _ _ n := (padded_sector (record long_name 30 9 0), LongCd);
  set_mediaLsnCount w _ := w;
|}.
Example long_name_overruns :
  fst <$> cdvdman_findfile no_layers (CdFs LongCd (fun _ => 20) (fun _ => 2048)) (bs "\" ++ long_name) 0 = Some (Some (CdlFile 30 9 long_name 15)).
Proof. vm_compute. reflexivity. Qed.
Lemma short_name_fits lsn size nm : (length nm < CDL_NAME_SIZE)%nat -> cdl_over (copy_name lsn size nm) = 0%nat.
Proof. unfold copy_name, CDL_NAME_SIZE. cbn [cdl_over]. lia. Qed.

Definition some_io : ioops (W := tree_cd) := IoOps tree_fs [byte_file; no_handle] (replicate 2048 0).

Lemma open_takes_free_handle_witness :
  exists s', cdvdman_open no_layers some_io 8 0 (bs "\D\F.X;1") = Some (0, Some 1%nat, s') /\ handle s' 0 = byte_file /\ fh_f (handle s' 1) = Some 8%nat.
Proof.
  destruct (cdvdman_open no_layers some_io 8 0 (bs "\D\F.X;1")) as [[[r slot] s']|] eqn:E; [|exfalso; revert E; vm_compute; congruence].
  assert (Es : slot = Some 1%nat) by (apply (f_equal (fun x => match x with Some (_, sl, _) => sl | None => None end)) in E; rewrite <- E; vm_compute; reflexivity).
  pose proof (open_takes_free_handle no_layers some_io s' 8 0 (bs "\D\F.X;1") r slot E) as H. subst slot. destruct H as (-> & _ & _ & Hf & _ & Hj).
  exists s'. split; [done|]. split; [by rewrite (Hj 0%nat)|exact Hf].
Defined.

(** an open directory: its two files *)
Definition dir_io : ioops (W := tree_cd) := IoOps tree_fs [Fh (Some 0%nat) 21 2048 0] (replicate 2112 7).

Lemma directory_entries_witness : entries 0 dir_io [Dirent 0x2124 9 (bs "E.X;1"); Dirent 0x2124 5 (bs "F.X;1")].
Proof.
  assert (Es : first_sector tree_sec dir_io 0 = d_sector) by (apply tree_sector_bytes; vm_compute; congruence).
  pose proof (directory_entries tree_sec (fun _ => True) 13 1000 32 tree_drive_ok (fun _ _ => eq_refl) ltac:(lia) dir_io 0 [toc_at d_sector 0; toc_at d_sector 39]) as H.
  rewrite Es in H. assert (Hm : map dirent_of (List.filter named [toc_at d_sector 0; toc_at d_sector 39]) = [Dirent 0x2124 9 (bs "E.X;1"); Dirent 0x2124 5 (bs "F.X;1")])
    by (vm_compute; reflexivity).
  rewrite <- Hm. apply H.
  - split; [split; [done|cbn [fs_buf dir_io]; rewrite length_replicate; lia]|]. cbn. lia.
  - apply List.Forall_forall. intros b Hb. assert (Hall : forallb (Z.leb 0) d_sector = true) by (vm_compute; reflexivity). rewrite forallb_forall in Hall. apply Hall in Hb. lia.
  - change (fh_position (handle dir_io 0)) with 0.
    apply listed_more; [vm_compute; reflexivity|lia|vm_compute; congruence|]. change (0 + toc_length (toc_at d_sector 0)) with 39.
    apply listed_more; [vm_compute; reflexivity|lia|vm_compute; congruence|]. apply listed_end; [vm_compute; reflexivity|vm_compute; congruence|vm_compute; congruence].
Defined.
